(* ===== verification/_CoqProject ===== *)
-Q . S2P
Prelude.v
Text.v
Calendar.v
Base64.v
Stream.v
Boost.v
Serialize.v
Hex.v
Base58.v
Types.v
Random.v
Amounts.v
Containers.v
Protocol.v
Misc.v
Json.v
Stopwatch.v
Digest.v
Memory.v
MemoryFacts.v
Params.v
ParamsFacts.v
Addresses.v
NatOption.v
Meters.v
Payloads.v
JsonForms.v
Message.v
MessageFacts.v
Reassembly.v
Chain.v
Database.v
DatabaseFacts.v
Environment.v
EnvironmentFacts.v
Bootstrap.v
BootstrapFacts.v
AddressBook.v
SipHash.v
AddressBookFacts.v
AddressBookInvariant.v
Persistence.v
PersistenceFacts.v
Selection.v
Concurrency.v
Node.v
NodeFacts.v
Delivery.v
Session.v
SessionFacts.v
Hub.v
HubFacts.v
Shutdown.v
Intake.v
Secure.v
SecureFacts.v
CommandLine.v
CommandLineFacts.v
Log.v
Directories.v
DirectoriesFacts.v
Program.v
ProgramFacts.v
Toolbox.v
ToolboxFacts.v
