(* ===== verification/Prelude.v ===== *)
(** * Verification of Znode

    Znode ([src/]) is a node of the Horizen network in C++.  This library models its
    core, which is sequential code driven by events, and proves what makes it
    correct.  The models are shallow: every definition is a Rocq function that
    can be evaluated, and takes the name of the function or type that it
    translates.

    ** The program and where it is modelled

    Foundations, [src/src/core]:
    - [Prelude]: octets, integers of fixed width, outcomes, the error types, the
      state monad [op], tactics and hints;
    - [Text]: decimal digits as the standard library parses and prints them;
    - [Calendar]: the clock and the times of ISO 8601 ([common/time.cpp]);
    - [Stream]: [DataStream] ([serialization/stream.cpp]);
    - [Boost]: the classes [Boost] and [Crypto], which stand for what the sources
      call in Boost and OpenSSL, with their laws and one instance each;
    - [Serialize]: [SDataStream], the binding of types to streams and compact
      integers ([serialization/serialize.hpp], [stream.hpp], [serializable.hpp]);
    - [Hex], [Base58], [Base64]: encodings ([encoding/hex.cpp], [base58.cpp],
      [base64.cpp]);
    - [Types]: hashes, inventory items, block headers ([types/]);
    - [Random]: random numbers and the Jenkins hash ([common/random.hpp],
      [random.cpp], [crypto/jenkins.cpp]);
    - [Amounts]: amounts and fee rates ([types/amounts.cpp]);
    - [Containers]: [LruSet], [CappedSet], [ObjectPool] ([common/]);
    - [Misc]: sizes read from and printed as text, duplicate chunks, double SHA-256
      ([common/misc.cpp], [crypto/hash256.cpp]);
    - [Json]: the values of JSON that the sources build and take apart;
    - [Digest]: digests over OpenSSL's contexts, which are the class [Evp], HMAC and
      Hash160 ([crypto/md.hpp], [hmac.hpp], [hash160.cpp]);
    - [SipHash]: the keyed hash of the address book ([crypto/evp_mac.hpp]), over the class
      [EvpMac], with SipHash itself;
    - [Memory], [MemoryFacts]: locked pages and the allocator of secrets, over the
      class [Locker] of the system calls ([common/memory.hpp], [secure_bytes.hpp]);
    - [Chain]: known chains, their seeds and their form in JSON ([chain/]).

    Infrastructure, [src/src/infra]:
    - [Protocol]: message types, commands and limits ([network/protocol.hpp],
      [messages.hpp]);
    - [Addresses]: addresses, endpoints, subnets and services
      ([network/addresses.cpp]);
    - [Payloads], [JsonForms]: the payloads of messages, and their form in JSON
      ([network/payloads.cpp]);
    - [Message], [MessageFacts], [Reassembly]: headers, validation, reassembly and
      framing ([network/message.cpp]);
    - [AddressBook], [AddressBookFacts], [AddressBookInvariant], [Selection]: the
      book of known peers ([network/addressbook.cpp]);
    - [Database], [DatabaseFacts]: cursors, configuration values and stage
      progress over libmdbx, which is the class [Mdbx] ([database/]);
    - [Environment], [EnvironmentFacts]: environments, transactions, tables and the
      pool of cursor handles ([database/mdbx.cpp], [mdbx.hpp], [mdbx_tables.hpp]);
    - [Persistence], [PersistenceFacts]: load and save of the address book, and its timer;
    - [Directories], [DirectoriesFacts]: the data directory and temporary directories
      ([filesystem/directories.cpp]);
    - [Meters]: ping and traffic meters, start and stop, the check of the system's clock
      ([network/ping_meter.cpp], [traffic_meter.cpp], [time.cpp],
      [concurrency/stoppable.cpp]);
    - [Concurrency]: timers, channels, queues, workers and contexts ([concurrency/]);
    - [Log]: logging to the terminal and to a file ([common/log.cpp], [log.hpp]);
    - [Stopwatch]: laps and the text of durations ([common/stopwatch.cpp]);
    - [NatOption]: the public address of the node ([nat/], [cmd/common/nat_validator.cpp]).

    The node, [src/src/node]:
    - [Node], [NodeFacts], [Delivery]: the handlers of a node ([network/node.cpp]);
    - [Session], [SessionFacts]: the session with a peer, with or without TLS, as the
      handlers make it up;
    - [Hub], [HubFacts]: the hub of all nodes ([network/node_hub.cpp]);
    - [Shutdown], [Intake]: the stop of the hub beside its timer, and the loops that take in
      connections, with sockets that fail;
    - [Secure], [SecureFacts]: the key, the certificate and the TLS contexts, with
      OpenSSL's reference counts ([network/secure.cpp]);
    - [Params], [ParamsFacts]: the parameters of the zero knowledge proofs, which must
      be in place before the node starts ([zk/params.cpp]).

    The programs, [src/cmd]:
    - [CommandLine], [CommandLineFacts]: options and validators ([common.cpp],
      [common/]);
    - [Bootstrap], [BootstrapFacts]: the database of the node at start
      ([prepare_chaindata_env] of [node.cpp], the chain configuration of
      [database/access_layer.cpp]);
    - [Program], [ProgramFacts]: [main] of [node.cpp], signals, terminal and environment
      ([src/src/infra/os]), stages ([stages/stage.cpp]);
    - [Toolbox], [ToolboxFacts]: the database tool ([toolbox.cpp]).

    A node reads octets into a [Message], which is reassembled and validated; the
    payload is deserialized and either answered or handed to the hub; the hub
    feeds the address book from it and chooses whom to dial.  What a node sends is
    framed by [Message], queued and written in chunks.  [main] reads the command line,
    prepares the database, checks the clock, the TLS files and the parameters, starts the
    hub and waits.

    ** State and effects

    A class is a record of its members, a member function an operation on the
    record: [op S A] is [S -> outcome A * S], and keeps what has been changed
    before an error.  An [outcome] is a success, an error that the code returns or
    throws, or a fault: a failed assertion, which ends the process, or undefined
    behaviour.  Handlers that are posted to a strand are items of a list in the
    state of a node; coroutines of the hub are functions applied to one item of
    their channel at a time, and the factory of nodes starts a node and counts it in two
    steps.  Nodes are shared objects, so the hub keeps them in a
    heap by id.  Integers are in [Z], and every operation that may leave its width
    is wrapped around.  Time, random draws, the outcome of system calls and
    floating point functions are arguments.

    ** What the theorems show

    - The way of a message: a payload that may be sent is framed, cut into chunks
      in any way, reassembled and, if the receiver accepts it, deserialized to itself but
      for what its wire format drops ([push_roundtrip]);
      receiving means what an abstract classification of octet strings says,
      however it is cut ([write_refines], [reassembly_chunks]); a node delivers
      every message of a stream of the types it handles ([stream_delivery]) and writes whole frames under
      any interleaving of events ([wire_frames]).
    - The life of a session: whatever the order of reads, writes, timers and requests, there is
      one reader and one writer, a node that runs is never stuck ([session_alive]), and the hub
      is told of its end once, last, and in the end ([session_ends]).
    - The session: the handshake happens once ([handshake_once]), but a verack
      stands in for a version ([handshake_gap]); versions are checked
      ([version_gate]); the queue serves the lowest priority first
      ([queue_inverted]).
    - The address book: every sequence of calls with routable services and sources keeps
      entries, indexes, buckets and counters consistent, and fails no assertion, while an
      unroutable one fails it ([book_consistent]); what
      insertions, promotions and selections do ([book_insert], [book_tried],
      [book_random], [book_select]); it survives a restart
      ([book_persistence]), but for a save that is cut short; its hashes are SipHash
      ([slot_hash]).
    - The hub: over any history its counters are those of the live connections
      and within the limit, but for the addresses of nodes that end before they are counted
      ([hub_accounting]); it stops when its nodes have, unless it misses the notification or
      the factory has a connection in hand ([hub_shutdown]); two requests that end the process
      ([hub_crash]), peers that are gone too early, which end the intake or the process
      ([intake_fragile]), and a failed connection that ends the search for peers
      ([hub_needed_stuck]).
    - Serialization: streams refine a queue of octets ([fifo_refinement],
      [position_invariant]); payloads, services, headers, addresses and compact
      integers are read back, in canonical form only, or the exact exceptions are
      given ([payload_roundtrip], [node_service_wire], [block_header],
      [address_roundtrip], [compact_canonical]); what is written stays within
      the limits of the protocol, with two exceptions ([payload_limits], [command_table_consistent]); the forms in JSON tell
      payloads apart as far as they go ([payload_json]).
    - Text: optimised decoders compute their reference definitions, and text is
      read back ([decode_reference], [base58check], [base64_roundtrip], [endpoint_text],
      [amount_text]), but Base64 reads beyond its input and cuts what is long
      ([base64_overrun], [base64_truncated]); [subnet_contains] and [routable_v4] give the exact sets of
      addresses.
    - Containers, database and timers: refinements of abstract sets
      ([lru_refinement], [capped_refinement]), what walks and erasures reach
      ([cursor_walks], [cursor_erasures]), progress that is read back
      ([stage_progress]), a timer that is never run twice and can be lost
      ([timer_lifecycle]), keys that collide ([jenkins_blind]).
    - The start of the program: a node that ends with the exit code 0, other than by
      [cli.exit], has been through all of its gates ([node_started]): a valid command line,
      a database of the chain that was asked for, a clock that is right, TLS files and
      parameters, the start and the stop of the hub; its loop is left
      at the first turn that sees a signal or has been idle for too long, and not before
      ([node_loop]); the command line gives settings within the limits
      ([command_line_sound]); a start that was interrupted is resumed by the next one
      ([bootstrap_resumes]); when an environment is opened, and with what
      ([open_env_spec]), and who holds the handles of cursors ([handles_owned]); TLS files that
      pass the check make a context when certificate and key belong together ([tls_ready]), and what OpenSSL allocates is freed
      but for two objects ([tls_accounting]); directories are complete once deployed, and
      what is cleared is gone and nothing else ([directories_kept]); sizes that are printed
      are read back within the rounding ([human_bytes_roundtrip]); signals, and the totals
      of the database tool ([signals_counted], [toolbox_totals]); a context runs its threads
      once ([context_once]).
    - Logs and times: a line goes to the terminal as the settings say, and to the file without
      colours ([log_line]); separated thousands and times of ISO 8601 are read back
      ([thousands_read], [iso8601_roundtrip]), within limits ([iso8601_limits]).
    - Secrets and parameters: pages are locked exactly while a live range touches them
      ([pages_counted]), and what is recorded is locked whatever fails
      ([pages_held]), but a lock that fails half way costs another secret its lock
      ([secret_unlocked]); HMAC is that of RFC 2104 ([hmac_rfc2104]); parameters that
      pass the check are complete and right, though a file that cannot be opened is
      removed ([params_validated]), and they can be had ([params_fetched]).

    Several theorems state what the code does where its comments say otherwise;
    these are the defects that the models have shown.

    ** Fuel

    Recursions that are not structural take fuel from a measure of their input,
    and theorems prove it to be enough: the loops of [Message.write] and of
    [parse_messages] run at most once per octet, the loop of
    [get_random_services] once per id, the walks and erasures of a cursor once per
    record, the conversions of Base58 once per bit, the loop over pages once per page
    of a range that does not reach the end of the address space, the read of a file
    once per buffer, and [select_random] makes the attempts that the source allows.

    ** Not modelled

    Third party code: libmdbx, OpenSSL, Boost, absl, CLI11 and nlohmann's JSON are
    parameters.  Input and output: sockets, name resolution, the queries of NAT detection and of
    the time server, the octets of TLS, and what single functions log.  Threads: an
    event is one step, and data races are out of scope.  Floating point: chances,
    moving averages and sizes printed in powers of ten are parameters or left out. *)

From Stdlib Require Export ZArith Lia.
From stdpp Require Export base numbers list option gmap strings.

#[global] Open Scope Z_scope.

(** ** Notations *)

Declare Scope znode_scope.
Delimit Scope znode_scope with znode.

(** Byte sequences: [Bytes], [ByteView] and [std::string] of the sources are
    all lists of octets, an octet being an integer of [0, 256). *)
Abbreviation Bytes := (list Z).

(** [size()] of a container, as the unbounded integer the C++ [size_t] holds. *)
Abbreviation zlen l := (Z.of_nat (length l)).

(** [substr(0, n)] and [remove_prefix(n)] with integer counts. *)
Definition ztake {A} (n : Z) (l : list A) : list A := take (Z.to_nat n) l.
Definition zdrop {A} (n : Z) (l : list A) : list A := drop (Z.to_nat n) l.

(** A literal of the sources as its octets. *)
Definition str (s : String.string) : Bytes :=
  (λ c, Z.of_N (Ascii.N_of_ascii c)) <$> String.list_ascii_of_string s.

(** ** Machine integers *)

(** [wrap w z] is [z] reduced to an unsigned integer of [w] bits. *)
Definition wrap (w z : Z) : Z := z mod 2 ^ w.

(** [sign w z] reads the [w]-bit pattern [z] as a two's complement integer. *)
Definition sign (w z : Z) : Z := if z <? 2 ^ (w - 1) then z else z - 2 ^ w.

Definition is_byte (b : Z) : Prop := 0 <= b < 256.

#[global] Instance is_byte_dec b : Decision (is_byte b).
Proof. unfold is_byte. apply _. Defined.

Definition bytes_ok (bs : Bytes) : Prop := Forall is_byte bs.

(** ** Errors and results *)

(** [znode::ser::Error] *)
Inductive ser_error :=
| kSer_Success | kInputTooLarge | kReadOverflow | kNonCanonicalCompactSize | kCompactSizeTooBig
| kUnexpectedError | kStringTooBig | kInvalidRejectionCode | kInvalidInventoryType.

(** [znode::enc::Error] *)
Inductive enc_error :=
| kEnc_Success | kIllegalHexDigit | kIllegalBase58Digit | kIllegalBase64Digit
| kEnc_InputTooLarge | kInputTooNarrow | kEnc_UnexpectedError.

(** [znode::net::Error] *)
Inductive net_error :=
| kNet_Success | kMessageSizeOverflow | kMessageHeaderIncomplete | kMessageBodyIncomplete
| kMessageHeaderInvalidMagic | kMessageHeaderMalformedCommand | kMessageHeaderEmptyCommand
| kMessageHeaderIllegalCommand | kMessageHeaderIllegalPayloadLength | kMessageHeaderInvalidChecksum
| kMessagePayloadEmptyVector | kMessagePayloadOversizedVector
| kMessagePayloadLengthMismatchesVectorSize | kMessagePayloadDuplicateVectorItems
| kMessagePayloadExtraData | kMessagePayLoadUnhandleable | kMessageUnknownCommand
| kMessageWriteNotPermitted | kMessagePushNotPermitted | kInvalidProtocolVersion
| kUnsupportedMessageTypeForProtocolVersion | kDeprecatedMessageTypeForProtocolVersion
| kDuplicateProtocolHandShake | kInvalidProtocolHandShake | kMessageFloodingDetected
| kConnectedToSelf | kUnsolicitedPong | kInvalidPingPongNonce | kUnknownRejectedCommand
| kMessagePayloadInvalidLastBlockHeight | kMessagePayloadInvalidTimestamp
| kInvalidNtpResponse | kInvalidSystemTime.

(** The [boost::system::errc] conditions the sources return. *)
Inductive errc :=
| invalid_argument | result_out_of_range | bad_address | value_too_large
| illegal_byte_sequence | argument_out_of_domain | io_error.

(** The exceptions that the sources throw: those of the standard library, of its file
    system, of Boost, of libmdbx, [db::Exception] and [CLI::ParseError]. *)
Inductive exception :=
| std_invalid_argument | std_length_error | std_runtime_error | std_logic_error | std_ios_failure
| std_filesystem_error | boost_system_error | mdbx_exception | db_Exception | CLI_ParseError.

Inductive error :=
| SerError (e : ser_error)
| EncError (e : enc_error)
| NetError (e : net_error)
| Errc (e : errc)
| Thrown (e : exception).

#[global] Instance ser_error_dec : EqDecision ser_error.
Proof. solve_decision. Defined.
#[global] Instance enc_error_dec : EqDecision enc_error.
Proof. solve_decision. Defined.
#[global] Instance net_error_dec : EqDecision net_error.
Proof. solve_decision. Defined.
#[global] Instance errc_dec : EqDecision errc.
Proof. solve_decision. Defined.
#[global] Instance exception_dec : EqDecision exception.
Proof. solve_decision. Defined.
#[global] Instance error_dec : EqDecision error.
Proof. solve_decision. Defined.

(** Ways of not returning at all: a failed [ASSERT] aborts the process, an
    access outside an object is undefined behaviour, an exception that leaves a
    function declared [noexcept] terminates the process. *)
Inductive fault := AssertionFailed | UndefinedBehaviour | Terminated.

#[global] Instance fault_dec : EqDecision fault.
Proof. solve_decision. Defined.

(** [outcome::result<A>], extended with the faults. *)
Inductive outcome (A : Type) :=
| Success (a : A)
| Failure (e : error)
| Fault (f : fault).
Arguments Success {A} a.
Arguments Failure {A} e.
Arguments Fault {A} f.

#[global] Instance outcome_dec `{EqDecision A} : EqDecision (outcome A).
Proof. solve_decision. Defined.

Definition has_error {A} (r : outcome A) : bool :=
  match r with Success _ => false | _ => true end.

Definition outcome_bind {A B} (r : outcome A) (k : A → outcome B) : outcome B :=
  match r with Success a => k a | Failure e => Failure e | Fault f => Fault f end.

Notation "'let?' x := r 'in' k" := (outcome_bind r (λ x, k))
  (at level 10, x pattern, r at level 100, k at level 200) : znode_scope.

(** Stateful operations keep the changes made before an error is returned, so
    the final state comes with every result. *)
Definition op (S A : Type) : Type := S → outcome A * S.

Definition op_ret {S A} (a : A) : op S A := λ s, (Success a, s).
Definition op_fail {S A} (e : error) : op S A := λ s, (Failure e, s).
Definition op_bind {S A B} (m : op S A) (k : A → op S B) : op S B :=
  λ s, match m s with
       | (Success a, s') => k a s'
       | (Failure e, s') => (Failure e, s')
       | (Fault f, s') => (Fault f, s')
       end.

Notation "x '<~' m ';;' k" := (op_bind m (λ x, k))
  (at level 100, m at next level, right associativity) : znode_scope.
Notation "m '>>;' k" := (op_bind m (λ _, k))
  (at level 100, k at level 100, right associativity) : znode_scope.

Definition op_assert {S} (b : bool) : op S unit :=
  λ s, if b then (Success (), s) else (Fault AssertionFailed, s).

#[global] Open Scope znode_scope.

Lemma op_bind_success {S A B} (m : op S A) (k : A → op S B) s a s' : m s = (Success a, s') -> op_bind m k s = k a s'.
Proof. intros E. unfold op_bind. by rewrite E. Qed.

Lemma op_bind_inv {S A B} (m : op S A) (k : A → op S B) s b s' : op_bind m k s = (Success b, s') ->
  exists a s1, m s = (Success a, s1) /\ k a s1 = (Success b, s').
Proof. unfold op_bind. destruct (m s) as [[a|e|f] s1]; [eauto | done | done]. Qed.

(** ** Tactics *)

(** Case analysis on the boolean comparisons of [Z] in the goal. *)
Ltac case_cmp :=
  match goal with
  | |- context [?a <? ?b] => destruct (Z.ltb_spec a b)
  | |- context [?a <=? ?b] => destruct (Z.leb_spec a b)
  | |- context [?a =? ?b] => destruct (Z.eqb_spec a b)
  end.
Ltac case_cmps := repeat case_cmp.

(** The same for a hypothesis. *)
Ltac case_cmp_in H :=
  match type of H with
  | context [?a <? ?b] => destruct (Z.ltb_spec a b)
  | context [?a <=? ?b] => destruct (Z.leb_spec a b)
  | context [?a =? ?b] => destruct (Z.eqb_spec a b)
  end.

(** Turns boolean tests in hypotheses into the propositions they decide. *)
Ltac prop_bools :=
  repeat match goal with
  | H : _ && _ = true |- _ => apply andb_prop in H as [? ?]
  | H : _ || _ = false |- _ => apply orb_false_elim in H as [? ?]
  | H : negb _ = true |- _ => apply negb_true_iff in H
  | H : negb _ = false |- _ => apply negb_false_iff in H
  | H : bool_decide _ = true |- _ => apply bool_decide_eq_true in H
  | H : bool_decide _ = false |- _ => apply bool_decide_eq_false in H
  | H : (_ <? _) = true |- _ => apply Z.ltb_lt in H
  | H : (_ <? _) = false |- _ => apply Z.ltb_ge in H
  | H : (_ <=? _) = true |- _ => apply Z.leb_le in H
  | H : (_ <=? _) = false |- _ => apply Z.leb_gt in H
  | H : (_ =? _) = true |- _ => apply Z.eqb_eq in H
  | H : (_ =? _) = false |- _ => apply Z.eqb_neq in H
  end.

(** Proves a closed decidable proposition by evaluating its decision. *)
Ltac decide_now := apply (bool_decide_unpack _); vm_compute; exact I.

Create HintDb znode.
#[export] Hint Unfold bytes_ok : znode.

(** ** Lists with integer counts *)

Section zlists.
Context {A : Type}.
Implicit Types l k : list A.

Lemma zlen_nonneg l : 0 <= zlen l.
Proof. lia. Qed.

Lemma zlen_app l k : zlen (l ++ k) = zlen l + zlen k.
Proof. rewrite length_app. lia. Qed.

Lemma zlen_cons x l : zlen (x :: l) = zlen l + 1.
  Proof. simpl. lia. Qed.

Lemma zlen_ztake n l : 0 <= n -> zlen (ztake n l) = Z.min n (zlen l).
Proof. intros. unfold ztake. rewrite length_take. lia. Qed.

Lemma zlen_zdrop n l : 0 <= n -> zlen (zdrop n l) = Z.max 0 (zlen l - n).
Proof. intros. unfold zdrop. rewrite length_drop. lia. Qed.

Lemma ztake_zdrop n l : ztake n l ++ zdrop n l = l.
Proof. apply take_drop. Qed.

Lemma ztake_app l k : ztake (zlen l) (l ++ k) = l.
Proof. unfold ztake. rewrite Nat2Z.id. apply take_app_length. Qed.

Lemma zdrop_app l k : zdrop (zlen l) (l ++ k) = k.
Proof. unfold zdrop. rewrite Nat2Z.id. apply drop_app_length. Qed.

Lemma zdrop_app_le n l k : n <= zlen l -> zdrop n (l ++ k) = zdrop n l ++ k.
Proof. intros. unfold zdrop. apply drop_app_le. lia. Qed.

Lemma zdrop_zdrop n m l : 0 <= n -> 0 <= m -> zdrop n (zdrop m l) = zdrop (m + n) l.
Proof. intros. unfold zdrop. rewrite drop_drop. f_equal. lia. Qed.

Lemma ztake_ge n l : zlen l <= n -> ztake n l = l.
Proof. intros. unfold ztake. apply take_ge. lia. Qed.

Lemma zdrop_ge n l : zlen l <= n -> zdrop n l = [].
Proof. intros. unfold zdrop. apply drop_ge. lia. Qed.

Lemma zdrop_0 l : zdrop 0 l = l.
Proof. reflexivity. Qed.

Lemma ztake_0 l : ztake 0 l = [].
Proof. reflexivity. Qed.
End zlists.

(** ** Little and big endian representations *)

(** The object representation of an integer of [n] octets on the (little
    endian) targets the sources support. *)
Fixpoint le_bytes (n : nat) (z : Z) : Bytes :=
  match n with
  | O => []
  | S n => z mod 256 :: le_bytes n (z / 256)
  end.

Fixpoint le_value (bs : Bytes) : Z :=
  match bs with
  | [] => 0
  | b :: bs => b + 256 * le_value bs
  end.

Definition be_bytes (n : nat) (z : Z) : Bytes := rev (le_bytes n z).
Definition be_value (bs : Bytes) : Z := le_value (rev bs).

Lemma length_le_bytes n z : length (le_bytes n z) = n.
Proof. revert z; induction n; intros; simpl; [done | by rewrite IHn]. Qed.

Lemma le_bytes_ok n z : bytes_ok (le_bytes n z).
Proof.
  revert z; induction n as [|n IH]; intros z; simpl; constructor; [|apply IH].
  apply Z.mod_pos_bound. lia.
Qed.

Lemma le_value_le_bytes n z : le_value (le_bytes n z) = z mod 256 ^ Z.of_nat n.
Proof.
  revert z; induction n as [|n IH]; intros z.
  - simpl. by rewrite Z.mod_1_r.
  - cbn [le_bytes le_value]. rewrite IH, Nat2Z.inj_succ, Z.pow_succ_r by lia.
    rewrite Z.rem_mul_r by lia. lia.
Qed.

Lemma le_value_bound bs : bytes_ok bs -> 0 <= le_value bs < 256 ^ zlen bs.
Proof.
  unfold bytes_ok, is_byte.
  induction 1 as [|b bs Hb _ IH]; [simpl; lia|].
  cbn [le_value length]. rewrite Nat2Z.inj_succ, Z.pow_succ_r by lia. lia.
Qed.

Lemma le_bytes_le_value n bs : bytes_ok bs -> length bs = n -> le_bytes n (le_value bs) = bs.
Proof.
  intros H <-. unfold bytes_ok, is_byte in H.
  induction H as [|b bs Hb _ IH]; [done|]. cbn [le_value length le_bytes].
  rewrite (Z.mul_comm 256), Z.mod_add, Z.div_add, Z.mod_small, Z.div_small by lia.
  by f_equal.
Qed.

(** [std::byteswap] of an unsigned integer of [n] octets. *)
Definition byteswap (n : nat) (v : Z) : Z := le_value (rev (le_bytes n v)).

(** It is its own inverse, and takes what is loaded in one order to what is loaded in the other. *)
Lemma byteswap_involutive n v : byteswap n (byteswap n v) = v mod 256 ^ Z.of_nat n.
Proof.
  unfold byteswap. rewrite le_bytes_le_value, rev_involutive; [apply le_value_le_bytes | apply Forall_rev, le_bytes_ok | by rewrite length_rev, length_le_bytes].
Qed.

Lemma byteswap_load bs : bytes_ok bs -> byteswap (length bs) (le_value bs) = be_value bs.
Proof. intros Hb. unfold byteswap, be_value. by rewrite le_bytes_le_value. Qed.

Lemma le_value_inj bs cs :
  bytes_ok bs -> bytes_ok cs -> length bs = length cs -> le_value bs = le_value cs -> bs = cs.
Proof.
  intros Hb Hc Hl Hv.
  rewrite <- (le_bytes_le_value (length bs) bs), <- (le_bytes_le_value (length bs) cs) by done.
  by rewrite Hv.
Qed.

Lemma le_value_cons b bs : le_value (b :: bs) = b + 256 * le_value bs.
Proof. done. Qed.

Lemma le_value_app bs cs : le_value (bs ++ cs) = le_value bs + 256 ^ zlen bs * le_value cs.
Proof.
  induction bs as [|b bs IH]; [simpl; lia|].
  rewrite <- app_comm_cons, !le_value_cons, IH, zlen_cons, Z.pow_add_r by lia. lia.
Qed.

Lemma be_value_cons b bs : be_value (b :: bs) = b * 256 ^ zlen bs + be_value bs.
Proof.
  unfold be_value. cbn [rev]. rewrite le_value_app, length_rev. cbn [le_value]. lia.
Qed.

Lemma be_value_be_bytes n z : be_value (be_bytes n z) = z mod 256 ^ Z.of_nat n.
Proof. unfold be_value, be_bytes. rewrite rev_involutive. apply le_value_le_bytes. Qed.

Lemma length_be_bytes n z : length (be_bytes n z) = n.
Proof. unfold be_bytes. by rewrite length_rev, length_le_bytes. Qed.

Lemma bytes_ok_rev bs : bytes_ok bs -> bytes_ok (rev bs).
Proof. apply Forall_rev. Qed.

Lemma be_bytes_ok n z : bytes_ok (be_bytes n z).
Proof. apply bytes_ok_rev, le_bytes_ok. Qed.

Lemma be_bytes_be_value n bs : bytes_ok bs -> length bs = n -> be_bytes n (be_value bs) = bs.
Proof.
  intros. unfold be_bytes, be_value.
  rewrite le_bytes_le_value; [apply rev_involutive | by apply bytes_ok_rev | by rewrite length_rev].
Qed.

Lemma bytes_ok_app bs cs : bytes_ok (bs ++ cs) <-> bytes_ok bs /\ bytes_ok cs.
Proof. apply Forall_app. Qed.

Lemma bytes_ok_nil : bytes_ok [].
Proof. constructor. Qed.

(** Computes lengths of lists built by the operations above. *)
Ltac zlens :=
  repeat first
    [ rewrite zlen_app in * | rewrite zlen_cons in *
    | rewrite zlen_ztake in * by lia | rewrite zlen_zdrop in * by lia
    | rewrite length_replicate in * | rewrite length_le_bytes in *
    | rewrite length_rev in * | rewrite length_fmap in *
    | progress (change (length (@nil Z)) with O in *) ].

#[export] Hint Resolve le_bytes_ok be_bytes_ok bytes_ok_rev bytes_ok_nil : znode.
Create Rewrite HintDb znode.
#[export] Hint Rewrite length_le_bytes length_be_bytes @length_app @length_rev @length_replicate : znode.

(** A property of every integer of a range, decided by evaluation. *)
Lemma check_range (P : Z -> bool) lo n :
  forallb P (seqZ lo n) = true -> forall c, lo <= c < lo + n -> P c = true.
Proof. rewrite forallb_forall. intros H c Hc. apply H, list_elem_of_In, elem_of_seqZ. lia. Qed.

#[global] Arguments le_bytes : simpl never.
#[global] Arguments le_value : simpl never.
#[global] Arguments be_bytes : simpl never.
#[global] Arguments be_value : simpl never.
#[global] Arguments ztake {A} : simpl never.
#[global] Arguments zdrop {A} : simpl never.
