(* ===== verification/Text.v ===== *)
(** * Decimal text

    What the sources use of [boost::format], [std::to_string] and
    [boost::lexical_cast]: decimal digits of integers and their values, and the
    comparison of [boost::iequals].  A
    character is its octet. *)

From S2P Require Import Prelude.

(** [boost::iequals] on octets of the classic locale. *)
Definition to_upper (c : Z) : Z := if (97 <=? c) && (c <=? 122) then c - 32 else c.
Definition iequals (a b : Bytes) : bool := bool_decide (to_upper <$> a = to_upper <$> b).

Definition is_digit (c : Z) : bool := (48 <=? c) && (c <=? 57).

(** The value of a sequence of digits. *)
Definition digits_value (l : Bytes) : Z := fold_left (λ acc c, 10 * acc + (c - 48)) l 0.

(** The last [n] digits of [v], zero padded: [%0ni]. *)
Fixpoint padded (n : nat) (v : Z) : Bytes :=
  match n with
  | O => []
  | S n => padded n (v / 10) ++ [48 + v mod 10]
  end.

(** The digits of [v] without leading zeroes; [fuel + 1] digits at most. *)
Fixpoint decimal_fuel (fuel : nat) (v : Z) : Bytes :=
  match fuel with
  | O => [48 + v mod 10]
  | S fuel => if v <? 10 then [48 + v] else decimal_fuel fuel (v / 10) ++ [48 + v mod 10]
  end.

(** [std::to_string] and [%i] for integers of up to 64 bits, which have at most
    twenty digits. *)
Definition decimal (v : Z) : Bytes :=
  if v <? 0 then 45 :: decimal_fuel 20 (- v) else decimal_fuel 20 v.

(** The longest prefix of digits and the rest. *)
Fixpoint span_digits (l : Bytes) : Bytes * Bytes :=
  match l with
  | c :: l' => if is_digit c then let (a, b) := span_digits l' in (c :: a, b) else ([], l)
  | [] => ([], [])
  end.

Definition all_digits (l : Bytes) : Prop := Forall (λ c, is_digit c = true) l.

Lemma digits_value_snoc l c : digits_value (l ++ [c]) = 10 * digits_value l + (c - 48).
Proof. unfold digits_value. by rewrite fold_left_app. Qed.

Lemma digits_value_app l k : digits_value (l ++ k) = digits_value l * 10 ^ zlen k + digits_value k.
Proof.
  induction k as [|c k IH] using rev_ind.
  - rewrite app_nil_r. change (digits_value []) with 0. change (zlen []) with 0. lia.
  - rewrite app_assoc, !digits_value_snoc, IH. zlens. change (zlen [c]) with 1.
    rewrite Z.pow_add_r by lia. lia.
Qed.

Lemma digit_mod v : is_digit (48 + v mod 10) = true.
Proof.
  unfold is_digit. pose proof (Z.mod_pos_bound v 10).
  apply andb_true_iff. split; apply Z.leb_le; lia.
Qed.

Lemma padded_digits n v : all_digits (padded n v).
Proof.
  revert v. induction n as [|n IH]; intros v; [constructor|]. cbn [padded].
  apply Forall_app. split; [apply IH | constructor; [apply digit_mod | constructor]].
Qed.

Lemma length_padded n v : length (padded n v) = n.
Proof.
  revert v. induction n as [|n IH]; intros v; [done|]. cbn [padded]. rewrite length_app, IH. simpl. lia.
Qed.

Lemma padded_value n v : 0 <= v -> digits_value (padded n v) = v mod 10 ^ Z.of_nat n.
Proof.
  revert v. induction n as [|n IH]; intros v Hv.
  - cbn [padded]. change (digits_value []) with 0. by rewrite Z.mod_1_r.
  - cbn [padded]. rewrite digits_value_snoc, IH by (apply Z.div_pos; lia).
    rewrite Nat2Z.inj_succ, Z.pow_succ_r, Z.rem_mul_r by lia. lia.
Qed.

Lemma decimal_fuel_digits n v : 0 <= v -> all_digits (decimal_fuel n v).
Proof.
  revert v. induction n as [|n IH]; intros v Hv; cbn [decimal_fuel].
  - constructor; [apply digit_mod | constructor].
  - case_cmp.
    + constructor; [|constructor]. unfold is_digit. apply andb_true_iff. split; apply Z.leb_le; lia.
    + apply Forall_app. split; [apply IH, Z.div_pos; lia | constructor; [apply digit_mod | constructor]].
Qed.

Lemma decimal_fuel_value n v : 0 <= v < 10 ^ Z.of_nat (S n) -> digits_value (decimal_fuel n v) = v.
Proof.
  revert v. induction n as [|n IH]; intros v Hv; cbn [decimal_fuel].
  - unfold digits_value. simpl in *. rewrite Z.mod_small; lia.
  - case_cmp; [unfold digits_value; simpl; lia|].
    rewrite digits_value_snoc, IH.
    + pose proof (Z.div_mod v 10). lia.
    + rewrite (Nat2Z.inj_succ (S n)), Z.pow_succ_r in Hv by lia.
      split; [apply Z.div_pos; lia | apply Z.div_lt_upper_bound; lia].
Qed.

Lemma length_decimal_fuel n v k : 0 <= v < 10 ^ Z.of_nat (S k) -> (length (decimal_fuel n v) <= S k)%nat.
Proof.
  revert v k. induction n as [|n IH]; intros v k Hv; cbn [decimal_fuel]; [simpl; lia|].
  case_cmp; [simpl; lia|]. destruct k as [|k]; [simpl in *; lia|].
  rewrite length_app. simpl. specialize (IH (v / 10) k).
  rewrite (Nat2Z.inj_succ (S k)), Z.pow_succ_r in Hv by lia.
  assert (0 <= v / 10 < 10 ^ Z.of_nat (S k))
    by (split; [apply Z.div_pos; lia | apply Z.div_lt_upper_bound; lia]).
  lia.
Qed.

Lemma decimal_value v : 0 <= v < 2 ^ 64 -> digits_value (decimal v) = v.
Proof. intros Hv. unfold decimal. case_cmp; [lia|]. apply decimal_fuel_value. simpl. lia. Qed.

Lemma decimal_digits v : 0 <= v -> all_digits (decimal v).
Proof. intros Hv. unfold decimal. case_cmp; [lia|]. by apply decimal_fuel_digits. Qed.

Lemma decimal_neq_nil v : decimal v <> [].
Proof.
  unfold decimal. cbn [decimal_fuel]. case_cmp; [done|]. case_cmp; [done|].
  intros E. by apply app_nil in E as [_ ?].
Qed.

Lemma span_digits_app l rest : all_digits l -> (forall c r, rest = c :: r -> is_digit c = false) ->
  span_digits (l ++ rest) = (l, rest).
Proof.
  intros Hl Hr. induction Hl as [|c l Hc _ IH]; simpl.
  - destruct rest as [|c r]; [done|]. simpl. by rewrite (Hr c r).
  - by rewrite Hc, IH.
Qed.

Lemma span_digits_spec l a b : span_digits l = (a, b) ->
  l = a ++ b /\ all_digits a /\ (forall c r, b = c :: r -> is_digit c = false).
Proof.
  revert a b. induction l as [|c l IH]; intros a b; simpl.
  - intros [= <- <-]. split_and!; [done | constructor | done].
  - destruct (is_digit c) eqn:Ec.
    + destruct (span_digits l) as [a' b']. intros [= <- <-].
      destruct (IH a' b' eq_refl) as (-> & Ha & Hb). split_and!; [done | by constructor | done].
    + intros [= <- <-]. split_and!; [done | constructor | by intros ?? [= -> ->]].
Qed.

Lemma digits_value_bound l : all_digits l -> 0 <= digits_value l < 10 ^ zlen l.
Proof.
  induction l as [|c l IH] using rev_ind; intros H; [by vm_compute|].
  apply Forall_app in H as [Hl Hc]. apply Forall_cons in Hc as [Hc _].
  unfold is_digit in Hc. prop_bools. rewrite digits_value_snoc. zlens.
  change (zlen [c]) with 1. rewrite Z.pow_add_r by lia. specialize (IH Hl). lia.
Qed.

Lemma digits_value_zeros n : digits_value (replicate n 48) = 0.
Proof.
  induction n as [|n IH]; [done|]. rewrite replicate_S_end, digits_value_snoc, IH. lia.
Qed.
