(* ===== verification/Calendar.v ===== *)
(** * Clock and calendar

    Models of [src/src/core/common/time.cpp]: the clock of the node and times in the format
    of ISO 8601.  [gmtime_r] is that of the C library: the Gregorian calendar, without leap
    seconds, for the years that fit its [int]. *)

From S2P Require Import Prelude Text.
#[local] Open Scope Z_scope.

Module Calendar.

(** [std::tm], its members that are read *)
Record tm := mk_tm { tm_year : Z; tm_mon : Z; tm_mday : Z; tm_hour : Z; tm_min : Z; tm_sec : Z }.

Definition INT_MAX : Z := 2 ^ 31 - 1.

Definition leap (y : Z) : bool := (y mod 4 =? 0) && (negb (y mod 100 =? 0) || (y mod 400 =? 0)).

Definition month_days (y m : Z) : Z :=
  if m =? 2 then (if leap y then 29 else 28)
  else if (m =? 4) || (m =? 6) || (m =? 9) || (m =? 11) then 30 else 31.

(** Leap years from year 1 to [y], and the days from 1970-01-01 to the first of a year. *)
Definition leaps (y : Z) : Z := y / 4 - y / 100 + y / 400.
Definition before_year (y : Z) : Z := 365 * (y - 1970) + (leaps (y - 1) - leaps 1969).

(** The year of a day: that of the mean length of a year, or one next to it. *)
Definition year_of (days : Z) : Z :=
  let y := 1970 + days * 400 / 146097 in
  if days <? before_year y then y - 1 else if before_year (y + 1) <=? days then y + 1 else y.

(** The month of a day, counted from the first of month [m], and its day. *)
Fixpoint month_of (n : nat) (y m d : Z) : Z * Z :=
  match n with
  | O => (m, d + 1)
  | S n => if d <? month_days y m then (m, d + 1) else month_of n y (m + 1) (d - month_days y m)
  end.

Definition civil (days : Z) : Z * Z * Z :=
  let y := year_of days in
  let '(m, d) := month_of 11 y 1 (days - before_year y) in (y, m, d).

Definition gmtime_r (t : Z) : option tm :=
  let '(y, m, d) := civil (t / 86400) in
  let s := t mod 86400 in
  if INT_MAX <? y - 1900 then None
  else Some (mk_tm (y - 1900) (m - 1) d (s / 3600) (s / 60 mod 60) (s mod 60)).

(** [{:0nd}] for a number that is not negative: at least [n] digits. *)
Definition format_0 (n : nat) (v : Z) : Bytes :=
  if v <? 10 ^ Z.of_nat n then padded n v else decimal v.

Definition format_ISO8601 (unixseconds : Z) (include_time : bool) : outcome Bytes :=
  if unixseconds <? 0 then Success []
  else
    match gmtime_r unixseconds with
    | None => Success []
    | Some time_storage =>
        let tm_year := tm_year time_storage + 1900 in
        if INT_MAX <? tm_year then Fault UndefinedBehaviour
        else
          let tm_mon := tm_mon time_storage + 1 in
          let ret := format_0 4 tm_year ++ str "-" ++ format_0 2 tm_mon ++ str "-" ++ format_0 2 (tm_mday time_storage) in
          Success (if include_time then
            ret ++ str "T" ++ format_0 2 (tm_hour time_storage) ++ str ":" ++ format_0 2 (tm_min time_storage) ++ str ":" ++
            format_0 2 (tm_sec time_storage) ++ str "Z"
          else ret)
    end.

(** A time point of the steady clock, in nanoseconds; the cast cuts off. *)
Definition format_ISO8601_steady (time_point : Z) (include_time : bool) : outcome Bytes :=
  format_ISO8601 (Z.quot time_point 1000000000) include_time.

(** [NodeClock::now], in nanoseconds *)
Definition now (mock_time system : Z) : Z := if negb (mock_time =? 0) then mock_time * 1000000000 else system.

End Calendar.

(** ** Properties *)

Module CalendarFacts.
Import Calendar.

Definition valid_date (y m d : Z) : bool := (1 <=? m) && (m <=? 12) && (1 <=? d) && (d <=? month_days y m).

(** The days from 1970-01-01 to a date: those of the whole years and of the whole months
    before, and of the month. *)
Fixpoint days_before_month (y : Z) (m : nat) : Z :=
  match m with
  | S (S _ as m') => month_days y (Z.of_nat m') + days_before_month y m'
  | _ => 0
  end.
Definition days_of (y m d : Z) : Z := before_year y + days_before_month y (Z.to_nat m) + (d - 1).

Lemma div_pred y n : 0 < n -> y / n = (y - 1) / n + (if y mod n =? 0 then 1 else 0).
Proof.
  intros Hn. pose proof (Z.div_mod y n ltac:(lia)). pose proof (Z.mod_pos_bound y n Hn). case_cmp.
  - rewrite <- (Z.div_unique (y - 1) n (y / n - 1) (n - 1)); lia.
  - rewrite <- (Z.div_unique (y - 1) n (y / n) (y mod n - 1)); lia.
Qed.

Lemma mod_factor y n k : 0 < n -> 0 < k -> y mod (n * k) = 0 -> y mod n = 0.
Proof. intros Hn Hk H. apply Z.div_exact in H; [|lia]. rewrite H, <- Z.mul_assoc, Z.mul_comm. apply Z.mod_mul. lia. Qed.

Lemma before_year_next y : before_year (y + 1) = before_year y + (if leap y then 366 else 365).
Proof.
  unfold before_year, leaps, leap. replace (y + 1 - 1) with y by lia.
  rewrite (div_pred y 4), (div_pred y 100), (div_pred y 400) by lia.
  pose proof (mod_factor y 4 25 ltac:(lia) ltac:(lia)). pose proof (mod_factor y 100 4 ltac:(lia) ltac:(lia)).
  change (4 * 25) with 100 in *. change (100 * 4) with 400 in *.
  destruct (Z.eqb_spec (y mod 4) 0), (Z.eqb_spec (y mod 100) 0), (Z.eqb_spec (y mod 400) 0); cbn [andb orb negb]; lia || naive_solver.
Qed.

(** The leap years are 97 of 400, nearly. *)
Lemma leaps_bounds y : 97 * y - 699 <= 400 * leaps y <= 97 * y + 396.
Proof. unfold leaps. Z.div_mod_to_equations. lia. Qed.

Lemma year_of_spec days : before_year (year_of days) <= days < before_year (year_of days + 1).
Proof.
  unfold year_of. cbv zeta. set (y := 1970 + days * 400 / 146097).
  assert (H : before_year (y - 1) <= days < before_year (y + 2)).
  { unfold before_year. pose proof (leaps_bounds (y - 1 - 1)). pose proof (leaps_bounds (y + 2 - 1)). change (leaps 1969) with 477.
    subst y. Z.div_mod_to_equations. lia. }
  repeat case_cmp; replace (y - 1 + 1) with y by lia; replace (y + 1 + 1) with (y + 2) by lia; lia.
Qed.

Lemma days_before_next y m : 1 <= m ->
  days_before_month y (Z.to_nat (m + 1)) = days_before_month y (Z.to_nat m) + month_days y m.
Proof.
  intros Hm. replace (Z.to_nat (m + 1)) with (S (Z.to_nat m)) by lia. destruct (Z.to_nat m) as [|k] eqn:E; [lia|].
  change (month_days y (Z.of_nat (S k)) + days_before_month y (S k) = days_before_month y (S k) + month_days y m).
  replace (Z.of_nat (S k)) with m by lia. lia.
Qed.

Lemma days_of_year y : days_before_month y 13 = if leap y then 366 else 365.
Proof. cbn -[leap]. unfold month_days. by destruct (leap y). Qed.

Lemma month_of_from n : forall y m d m' d', 1 <= m -> m + Z.of_nat n = 12 -> 0 <= d ->
  days_before_month y (Z.to_nat m) + d < days_before_month y 13 -> month_of n y m d = (m', d') ->
  m <= m' <= 12 /\ 1 <= d' <= month_days y m' /\
  days_before_month y (Z.to_nat m') + (d' - 1) = days_before_month y (Z.to_nat m) + d.
Proof.
  induction n as [|n IH]; intros y m d m' d' Hm Hn Hd Hb; cbn [month_of].
  - intros [= <- <-]. assert (m = 12) as -> by lia. pose proof (days_before_next y 12 ltac:(lia)) as H.
    change (Z.to_nat (12 + 1)) with 13%nat in H. lia.
  - case_cmp; [intros [= <- <-]; lia|]. intros E. pose proof (days_before_next y m Hm).
    destruct (IH y (m + 1) (d - month_days y m) m' d') as (H1 & H2 & H3); lia || done || lia.
Qed.

(** Every day is given its date, *)
Lemma civil_spec days y m d : civil days = (y, m, d) -> valid_date y m d = true /\ days_of y m d = days.
Proof.
  unfold civil. cbv zeta. destruct (month_of 11 _ 1 _) as [m' d'] eqn:E. intros [= <- <- <-].
  pose proof (year_of_spec days) as Hy. rewrite before_year_next, <- days_of_year in Hy.
  apply month_of_from in E; change (days_before_month _ (Z.to_nat 1)) with 0 in *; [|lia..].
  unfold valid_date, days_of. split; lia.
Qed.

(** and no day two dates. *)
Lemma before_year_mono y y' : y <= y' -> before_year y <= before_year y'.
Proof.
  intros Hy. replace y' with (y + Z.of_nat (Z.to_nat (y' - y))) by lia. induction (Z.to_nat (y' - y)) as [|n IH]; [by rewrite Z.add_0_r|].
  rewrite Nat2Z.inj_succ, <- Z.add_1_r, Z.add_assoc, before_year_next. destruct (leap _); lia.
Qed.

(** ** Reading a time back *)

Definition number (from len : nat) (t : Bytes) : Z := digits_value (take len (drop from t)).

(** The seconds that a text says, by its positions: [YYYY-MM-DDThh:mm:ssZ]. *)
Definition parse_ISO8601 (t : Bytes) : Z :=
  86400 * days_of (number 0 4 t) (number 5 2 t) (number 8 2 t) + 3600 * number 11 2 t + 60 * number 14 2 t + number 17 2 t.

Lemma format_0_small n v : 0 <= v < 10 ^ Z.of_nat n -> length (format_0 n v) = n /\ digits_value (format_0 n v) = v.
Proof.
  intros Hv. unfold format_0. rewrite (proj2 (Z.ltb_lt _ _)) by lia. rewrite length_padded, padded_value by lia.
  split; [done|]. by apply Z.mod_small.
Qed.

(** The first second of the year 10000. *)
Definition year_10000 : Z := 253402300800.

(** The year of a day is bounded as the day is. *)
Lemma civil_year days y m d lo hi : civil days = (y, m, d) -> before_year lo <= days < before_year hi -> lo <= y < hi.
Proof.
  intros E Hd. assert (Hy : before_year y <= days < before_year (y + 1)).
  { unfold civil in E. cbv zeta in E. destruct (month_of _ _ _ _). injection E as <- _ _. apply year_of_spec. }
  split; [apply Z.le_ngt | apply Z.lt_nge]; intros Hn.
  - assert (y + 1 <= lo) as Hm%before_year_mono by lia. lia.
  - assert (hi <= y) as Hm%before_year_mono by lia. lia.
Qed.

(** A time before the year 10000 is written in the twenty characters of ISO 8601, and they
    are read back to the same second; the first ten are the date. *)
Theorem iso8601_roundtrip (t : Z) : 0 <= t < year_10000 ->
  exists text, format_ISO8601 t true = Success text /\ length text = 20%nat /\ parse_ISO8601 text = t /\
    format_ISO8601 t false = Success (take 10 text).
Proof.
  unfold year_10000. intros Ht. unfold format_ISO8601, gmtime_r. rewrite (proj2 (Z.ltb_ge _ _)) by lia.
  destruct (civil (t / 86400)) as [[y m] d] eqn:E. destruct (civil_spec _ _ _ _ E) as [Hv Hd].
  assert (Hy : 1970 <= y < 10000).
  { apply (civil_year _ _ _ _ _ _ E). change (before_year 1970) with 0. change (before_year 10000) with 2932897. Z.div_mod_to_equations. lia. }
  unfold valid_date in Hv. assert (month_days y m <= 31) by (unfold month_days; repeat case_match; lia).
  rewrite (proj2 (Z.ltb_ge INT_MAX _)) by (unfold INT_MAX; lia). cbn [tm_year tm_mon tm_mday tm_hour tm_min tm_sec].
  rewrite (proj2 (Z.ltb_ge INT_MAX _)) by (unfold INT_MAX; lia). rewrite !Z.sub_add.
  destruct (format_0_small 4 y) as [Ly Vy]; [cbn; lia|]. destruct (format_0_small 2 m) as [Lm Vm]; [cbn; lia|].
  destruct (format_0_small 2 d) as [Ld Vd]; [cbn; lia|]. set (s := t mod 86400) in *.
  assert (Hs : 0 <= s < 86400) by (apply Z.mod_pos_bound; lia).
  destruct (format_0_small 2 (s / 3600)) as [Lh Vh]; [cbn; Z.div_mod_to_equations; lia|].
  destruct (format_0_small 2 (s / 60 mod 60)) as [Li Vi]; [cbn; pose proof (Z.mod_pos_bound (s / 60) 60); lia|].
  destruct (format_0_small 2 (s mod 60)) as [Ls Vs]; [cbn; pose proof (Z.mod_pos_bound s 60); lia|].
  destruct (format_0 4 y) as [|y1 [|y2 [|y3 [|y4 [|]]]]]; try done. destruct (format_0 2 m) as [|m1 [|m2 [|]]]; try done.
  destruct (format_0 2 d) as [|d1 [|d2 [|]]]; try done. destruct (format_0 2 (s / 3600)) as [|h1 [|h2 [|]]]; try done.
  destruct (format_0 2 (s / 60 mod 60)) as [|i1 [|i2 [|]]]; try done. destruct (format_0 2 (s mod 60)) as [|s1 [|s2 [|]]]; try done.
  eexists. split_and!; [reflexivity | reflexivity | | reflexivity]. unfold parse_ISO8601, number. cbn [app take drop str].
  change (86400 * days_of (digits_value [y1; y2; y3; y4]) (digits_value [m1; m2]) (digits_value [d1; d2]) +
    3600 * digits_value [h1; h2] + 60 * digits_value [i1; i2] + digits_value [s1; s2] = t).
  rewrite Vy, Vm, Vd, Vh, Vi, Vs, Hd. subst s. clear - Ht. Z.div_mod_to_equations. lia.
Qed.

(** A negative time, and one of a year that is not an [int] after 1900, has no text; in
    the years from 2^31 on that are, the sum that gives the year overflows. *)
Theorem iso8601_limits (t : Z) (include_time : bool) :
  (t < 0 -> format_ISO8601 t include_time = Success []) /\
  (before_year (2 ^ 31) <= t / 86400 < before_year (2 ^ 31 + 1900) -> format_ISO8601 t include_time = Fault UndefinedBehaviour) /\
  (before_year (2 ^ 31 + 1900) <= t / 86400 -> format_ISO8601 t include_time = Success []).
Proof.
  assert (P1 : 0 < before_year (2 ^ 31)) by by vm_compute. assert (P2 : 0 < before_year (2 ^ 31 + 1900)) by by vm_compute.
  assert (Hp : 0 < t / 86400 -> (t <? 0) = false) by (intros Hp; apply Z.ltb_ge; Z.div_mod_to_equations; lia).
  unfold format_ISO8601, gmtime_r. destruct (civil (t / 86400)) as [[y m] d] eqn:E. unfold INT_MAX. split_and!.
  - intros Ht. by rewrite (proj2 (Z.ltb_lt _ _)).
  - intros Ht. rewrite Hp by lia. destruct (civil_year _ _ _ _ _ _ E Ht). rewrite (proj2 (Z.ltb_ge _ (y - 1900))) by lia.
    cbn [tm_year]. by rewrite (proj2 (Z.ltb_lt _ _)) by lia.
  - intros Ht. rewrite Hp by lia. pose proof (year_of_spec (t / 86400)).
    destruct (civil_year _ _ _ _ (2 ^ 31 + 1900) (year_of (t / 86400) + 1) E); [lia|]. by rewrite (proj2 (Z.ltb_lt _ (y - 1900))) by lia.
Qed.

End CalendarFacts.
