(* ===== verification/Base64.v ===== *)
(** * Base64

    Models of [src/src/core/encoding/base64.cpp] over OpenSSL's Base64 filter, which is the
    class [Bio]; its laws say that it speaks RFC 4648, and how much it reads.  The encoding of the
    RFC is a definition with its decoder, which give an instance. *)

From S2P Require Import Prelude.
#[local] Open Scope Z_scope.

(** ** RFC 4648 *)

Definition alphabet : Bytes := str "ABCDEFGHIJKLMNOPQRSTUVWXYZabcdefghijklmnopqrstuvwxyz0123456789+/".
Definition digit (v : Z) : Z := default 0 (alphabet !! Z.to_nat v).
Definition padding : Z := 61.

Definition sextet (c : Z) : option Z :=
  match list_find (λ d, d = c) alphabet with Some (i, _) => Some (Z.of_nat i) | None => None end.

Fixpoint rfc4648 (b : Bytes) : Bytes :=
  match b with
  | x :: y :: z :: b =>
      digit (x / 4) :: digit (x mod 4 * 16 + y / 16) :: digit (y mod 16 * 4 + z / 64) :: digit (z mod 64) :: rfc4648 b
  | [x; y] => [digit (x / 4); digit (x mod 4 * 16 + y / 16); digit (y mod 16 * 4); padding]
  | [x] => [digit (x / 4); digit (x mod 4 * 16); padding; padding]
  | [] => []
  end.

Fixpoint rfc4648_decode (t : Bytes) : option Bytes :=
  match t with
  | [] => Some []
  | a :: b :: c :: d :: t =>
      match sextet a, sextet b with
      | Some a, Some b =>
          let x := a * 4 + b / 16 in
          if c =? padding then if (d =? padding) && bool_decide (t = []) then Some [x] else None
          else
            match sextet c with
            | Some c =>
                let y := b mod 16 * 16 + c / 4 in
                if d =? padding then if bool_decide (t = []) then Some [x; y] else None
                else match sextet d with Some d => (λ l, x :: y :: (c mod 4 * 64 + d) :: l) <$> rfc4648_decode t | None => None end
            | None => None
            end
      | _, _ => None
      end
  | _ => None
  end.

(** ** OpenSSL *)

Class Bio := {
  (** What has come to the sink behind the filter, on one line, when octets have been
      written to it and it has been flushed. *)
  b64_written : Bytes -> Bytes;
  (** What a read of at most so many octets gives of a source behind the filter; nothing when
      the source has no octets to give. *)
  b64_read : Bytes -> Z -> Bytes;
}.

Class BioLaws `{Bio} : Prop := {
  b64_written_rfc b : bytes_ok b -> b64_written b = rfc4648 b;
  b64_read_rfc b n : bytes_ok b -> 0 <= n -> b64_read (rfc4648 b) n = ztake n b;
}.

(** ** The sources *)

Module Base64.
Section Base64.
Context `{Bio}.

Definition SIZE_MAX : Z := 2 ^ 64 - 1.

(** [static_cast<int>] *)
Definition to_int (n : Z) : Z := sign 32 (wrap 32 n).

(** The writes, by what each returns and whether it should be tried again; a list that ends
    before the loop does stands for a loop that does not end. *)
Fixpoint write_loop (answers : list (Z * bool)) : option bool :=
  match answers with
  | [] => None
  | (n, should_retry) :: answers => if n <=? 0 then if should_retry then write_loop answers else Some false else Some true
  end.

(** A write of a length that is not positive returns no success; [answers] are those of the
    writes of a positive one. *)
Definition encode (answers : list (Z * bool)) (bytes : Bytes) : option (outcome Bytes) :=
  if bool_decide (bytes = []) then Some (Success [])
  else if SIZE_MAX / 4 * 3 <? zlen bytes then Some (Failure (EncError kEnc_InputTooLarge))
  else
    let length := to_int (zlen bytes) in
    match write_loop (if length <=? 0 then [(0, false)] else answers) with
    | None => None
    | Some false => Some (Failure (EncError kEnc_UnexpectedError))
    | Some true => Some (Success (b64_written (ztake length bytes)))
    end.

(** [BIO_new_mem_buf] with a length of -1: the C string at the beginning of the view, where
    [after] is what follows the view in memory. *)
Fixpoint c_string (memory : Bytes) : option Bytes :=
  match memory with
  | [] => None
  | c :: memory => if c =? 0 then Some [] else (c ::.) <$> c_string memory
  end.

Definition decode (input after : Bytes) : outcome Bytes :=
  if bool_decide (input = []) then Success []
  else
    match c_string (input ++ after) with
    | None => Fault UndefinedBehaviour
    | Some source =>
        let maxlen := zlen input / 4 * 3 + 1 in
        let read := b64_read source (to_int maxlen) in
        if zlen read <=? 0 then Failure (EncError kIllegalBase64Digit) else Success read
    end.
End Base64.
End Base64.

(** ** Properties *)

Module Base64Facts.
Import Base64.

Lemma sextet_digit v : 0 <= v < 64 -> sextet (digit v) = Some v.
Proof.
  intros Hv. assert (H : forallb (λ n, bool_decide (sextet (digit (Z.of_nat n)) = Some (Z.of_nat n))) (seq 0 64) = true) by reflexivity.
  rewrite forallb_forall in H. specialize (H (Z.to_nat v) (proj2 (List.in_seq 64 0 (Z.to_nat v)) ltac:(lia))). rewrite Z2Nat.id in H by lia.
  by apply bool_decide_eq_true_1 in H.
Qed.

Lemma digit_char v : 0 <= v < 64 -> digit v <> padding /\ digit v <> 0.
Proof.
  intros Hv. assert (H : forallb (λ n, negb (digit (Z.of_nat n) =? padding) && negb (digit (Z.of_nat n) =? 0)) (seq 0 64) = true) by reflexivity.
  rewrite forallb_forall in H. specialize (H (Z.to_nat v) (proj2 (List.in_seq 64 0 (Z.to_nat v)) ltac:(lia))). rewrite Z2Nat.id in H by lia. lia.
Qed.

(** Octets by threes. *)
Lemma octets_ind (P : Bytes -> Prop) : P [] -> (forall x, P [x]) -> (forall x y, P [x; y]) ->
  (forall x y z b, P b -> P (x :: y :: z :: b)) -> forall b, P b.
Proof.
  intros H0 H1 H2 H3 b. assert (H : P b /\ (forall x, P (x :: b)) /\ (forall x y, P (x :: y :: b))); [|apply H].
  induction b as [|z b (IH0 & IH1 & IH2)]; [done|]. split; [apply IH1|]. split; [intros y; apply IH2 | intros x y; by apply H3].
Qed.

(** The digits of a group of octets. *)
Lemma group_digits x y z : is_byte x -> is_byte y -> is_byte z ->
  0 <= x / 4 < 64 /\ 0 <= x mod 4 * 16 + y / 16 < 64 /\ 0 <= y mod 16 * 4 + z / 64 < 64 /\ 0 <= z mod 64 < 64 /\
  x / 4 * 4 + (x mod 4 * 16 + y / 16) / 16 = x /\
  (x mod 4 * 16 + y / 16) mod 16 * 16 + (y mod 16 * 4 + z / 64) / 4 = y /\
  (y mod 16 * 4 + z / 64) mod 4 * 64 + z mod 64 = z.
Proof.
  unfold is_byte. intros Hx Hy Hz.
  assert (0 <= y / 16 < 16) by (Z.div_mod_to_equations; lia). assert (0 <= z / 64 < 4) by (Z.div_mod_to_equations; lia).
  rewrite !Z.div_add_l, !(Z.add_comm (_ * _) (_ / _)), !Z.mod_add, !(Z.div_small (_ / _)), !(Z.mod_small (_ / _)) by lia.
  repeat split; Z.div_mod_to_equations; lia.
Qed.

Ltac split_octets :=
  unfold bytes_ok in *; repeat match goal with H : Forall is_byte (_ :: _) |- _ => apply Forall_cons in H as [? H] end.

(** What is encoded is decoded. *)
Lemma rfc4648_roundtrip b : bytes_ok b -> rfc4648_decode (rfc4648 b) = Some b.
Proof.
  induction b as [|x|x y|x y z b IH] using octets_ind; intros Hb; [done|..]; split_octets; cbn [rfc4648 rfc4648_decode].
  - destruct (group_digits x 0 0) as (D1 & D2 & _ & _ & E1 & _); [done | by vm_compute.. |].
    change (0 / 16) with 0 in *. rewrite Z.add_0_r in *. by rewrite !sextet_digit, E1 by done.
  - destruct (group_digits x y 0) as (D1 & D2 & D3 & _ & E1 & E2 & _); [done.. | by vm_compute |].
    change (0 / 64) with 0 in *. rewrite Z.add_0_r in *. rewrite !sextet_digit by done.
    destruct (digit_char _ D3) as [Hp _]. rewrite (proj2 (Z.eqb_neq _ _) Hp), E1. cbn [Z.eqb padding Pos.eqb]. by rewrite E2.
  - destruct (group_digits x y z) as (D1 & D2 & D3 & D4 & E1 & E2 & E3); [done..|]. rewrite !sextet_digit by done.
    destruct (digit_char _ D3) as [Hp _], (digit_char _ D4) as [Hq _].
    rewrite (proj2 (Z.eqb_neq _ _) Hp), (proj2 (Z.eqb_neq _ _) Hq), IH, E1, E2, E3 by done. done.
Qed.

(** No null characters, and four characters for three octets. *)
Lemma rfc4648_chars b : bytes_ok b -> 0 ∉ rfc4648 b.
Proof.
  induction b as [|x|x y|x y z b IH] using octets_ind; intros Hb; [apply not_elem_of_nil|..]; split_octets; cbn [rfc4648].
  - destruct (group_digits x 0 0) as (D1 & D2 & _); [done | by vm_compute.. |]. change (0 / 16) with 0 in *. rewrite Z.add_0_r in *.
    apply digit_char in D1 as [_ D1], D2 as [_ D2]. rewrite !not_elem_of_cons. repeat split; first [congruence | done | apply not_elem_of_nil | by apply IH].
  - destruct (group_digits x y 0) as (D1 & D2 & D3 & _); [done.. | by vm_compute |]. change (0 / 64) with 0 in *. rewrite Z.add_0_r in *.
    apply digit_char in D1 as [_ D1], D2 as [_ D2], D3 as [_ D3]. rewrite !not_elem_of_cons. repeat split; first [congruence | done | apply not_elem_of_nil | by apply IH].
  - destruct (group_digits x y z) as (D1 & D2 & D3 & D4 & _); [done..|].
    apply digit_char in D1 as [_ D1], D2 as [_ D2], D3 as [_ D3], D4 as [_ D4]. rewrite !not_elem_of_cons. repeat split; first [congruence | done | apply not_elem_of_nil | by apply IH].
Qed.

Lemma length_rfc4648 b : zlen (rfc4648 b) = 4 * ((zlen b + 2) / 3).
Proof.
  induction b as [|x|x y|x y z b IH] using octets_ind; [done..|]. cbn [rfc4648 length].
  rewrite !Nat2Z.inj_succ, IH. replace (Z.succ (Z.succ (Z.succ (zlen b))) + 2) with (zlen b + 2 + 1 * 3) by lia.
  rewrite Z.div_add by lia. lia.
Qed.

Lemma c_string_app t rest : 0 ∉ t -> c_string (t ++ 0 :: rest) = Some t.
Proof.
  induction t as [|c t IH]; [done|]. intros [Hc Ht]%not_elem_of_cons. cbn [app c_string].
  by rewrite (proj2 (Z.eqb_neq _ _)), IH by done.
Qed.

(** ** An instance of the laws *)

Definition model_bio : Bio := {|
  b64_written := rfc4648;
  b64_read t n := match rfc4648_decode t with Some b => ztake n b | None => [] end;
|}.

Lemma model_bio_laws : @BioLaws model_bio.
Proof. split; [done|]. intros b n Hb _. cbn. by rewrite rfc4648_roundtrip. Qed.

(** ** What the sources make of it *)

Lemma to_int_small n : 0 <= n < 2 ^ 31 -> to_int n = n.
Proof. intros Hn. unfold to_int, sign, wrap. rewrite Z.mod_small by lia. case_cmp; lia. Qed.

Lemma rfc4648_app b c : zlen b mod 3 = 0 -> rfc4648 (b ++ c) = rfc4648 b ++ rfc4648 c.
Proof.
  induction b as [|x|x y|x y z b IH] using octets_ind; [done..|]. intros Hb. cbn [app rfc4648]. rewrite IH; [done|].
  revert Hb. cbn [length]. rewrite !Nat2Z.inj_succ. Z.div_mod_to_equations. lia.
Qed.

Section Laws.
Context `{BioLaws}.

Lemma encode_rfc answers b : bytes_ok b -> zlen b < 2 ^ 31 -> write_loop answers = Some true ->
  encode answers b = Some (Success (rfc4648 b)).
Proof.
  intros Hb Hn Ha. unfold encode. case_bool_decide as He; [by subst|]. assert (0 < zlen b) by (destruct b; [done | cbn; lia]).
  rewrite (proj2 (Z.ltb_ge _ _)) by (change (SIZE_MAX / 4 * 3) with 13835058055282163709; lia). rewrite to_int_small by lia.
  rewrite (proj2 (Z.leb_gt _ _)), Ha, b64_written_rfc by (lia || by apply Forall_take). by rewrite ztake_ge by lia.
Qed.

(** The text of octets, read as a C string that goes on behind the view with the text of
    others: no more of them is read than the buffer has room for. *)
Lemma decode_rfc b c rest : bytes_ok b -> bytes_ok c -> b <> [] -> zlen b < 2 ^ 31 - 3 -> (c <> [] -> zlen b mod 3 = 0) ->
  decode (rfc4648 b) (rfc4648 c ++ 0 :: rest) = Success (ztake (3 * ((zlen b + 2) / 3) + 1) (b ++ c)).
Proof.
  intros Hb Hc Hn Hl Hm. assert (Hp : 0 < zlen b) by (destruct b; [done | cbn; lia]). pose proof (length_rfc4648 b) as Hr. unfold decode.
  rewrite bool_decide_false by (intros E; rewrite E in Hr; cbn in Hr; Z.div_mod_to_equations; lia).
  assert (Ha : rfc4648 b ++ rfc4648 c = rfc4648 (b ++ c)).
  { destruct (decide (c = [])) as [->|Hc']; [by rewrite !app_nil_r | by rewrite rfc4648_app by auto]. }
  rewrite app_assoc, Ha, c_string_app by (by apply rfc4648_chars, Forall_app). rewrite Hr, (Z.mul_comm 4), Z.div_mul by lia.
  set (m := (zlen b + 2) / 3 * 3 + 1). assert (zlen b < m < 2 ^ 31) by (subst m; Z.div_mod_to_equations; lia).
  rewrite to_int_small, b64_read_rfc by (lia || by apply Forall_app). replace (3 * ((zlen b + 2) / 3) + 1) with m by lia.
  rewrite (proj2 (Z.leb_gt _ _)); [done|]. unfold ztake. rewrite length_take, length_app. lia.
Qed.

(** What is encoded, with a null character behind it, is decoded to itself. *)
Theorem base64_roundtrip (answers : list (Z * bool)) (b rest : Bytes) : bytes_ok b -> zlen b < 2 ^ 31 - 3 -> write_loop answers = Some true ->
  exists t, encode answers b = Some (Success t) /\ decode t (0 :: rest) = Success b.
Proof.
  intros Hb Hn Ha. exists (rfc4648 b). split; [apply encode_rfc; done || lia|]. destruct (decide (b = [])) as [->|He]; [done|].
  pose proof (decode_rfc b [] rest Hb ltac:(constructor) He ltac:(lia) ltac:(done)) as E. rewrite app_nil_r in E. cbn [rfc4648 app] in E.
  rewrite E, ztake_ge; [done|]. Z.div_mod_to_equations. lia.
Qed.

(** A view is not bounded by its length: where it is a part of a longer text, an octet of what
    follows is decoded too. *)
Theorem base64_overrun (b c rest : Bytes) (x : Z) : bytes_ok b -> bytes_ok (x :: c) -> b <> [] -> zlen b mod 3 = 0 -> zlen b < 2 ^ 31 - 3 ->
  decode (rfc4648 b) (rfc4648 (x :: c) ++ 0 :: rest) = Success (b ++ [x]).
Proof.
  intros Hb Hc Hn Hm Hl. rewrite decode_rfc by done. replace (3 * ((zlen b + 2) / 3) + 1) with (zlen b + 1) by (Z.div_mod_to_equations; lia).
  f_equal. unfold ztake. rewrite take_app_ge by lia. by replace (Z.to_nat (zlen b + 1) - length b)%nat with 1%nat by lia.
Qed.

(** The length is cut to 32 bits: of an input of 4 GiB and more only what is beyond them is encoded. *)
Theorem base64_truncated (answers : list (Z * bool)) (b : Bytes) : bytes_ok b -> 2 ^ 32 < zlen b < 2 ^ 32 + 2 ^ 31 -> write_loop answers = Some true ->
  encode answers b = Some (Success (rfc4648 (ztake (zlen b - 2 ^ 32) b))).
Proof.
  intros Hb Hl Ha. unfold encode. rewrite bool_decide_false by (intros ->; cbn in Hl; lia).
  rewrite (proj2 (Z.ltb_ge _ _)) by (change (SIZE_MAX / 4 * 3) with 13835058055282163709; lia).
  assert (E : to_int (zlen b) = zlen b - 2 ^ 32).
  { unfold to_int, sign, wrap. rewrite <- (Z.mod_unique (zlen b) (2 ^ 32) 1 (zlen b - 2 ^ 32)) by lia. case_cmp; lia. }
  rewrite E, (proj2 (Z.leb_gt _ _)), Ha, b64_written_rfc by (lia || by apply Forall_take). done.
Qed.
End Laws.

Example base64_foobar : @encode model_bio [(6, false)] (str "foobar") = Some (Success (str "Zm9vYmFy")) /\
  @decode model_bio (str "Zm9v") (str "YmFy" ++ [0]) = Success (str "foob").
Proof. by vm_compute. Qed.

End Base64Facts.
