(* ===== verification/Stream.v ===== *)
(** * Data streams

    Model of [src/src/core/serialization/stream.cpp] and [stream.hpp]
    (class [DataStream]): a byte buffer with a read position.  The stateful
    members are operations on the record [DataStream]; [avail] keeps the
    wrap-around of [size_t], because the subtraction underflows when the read
    position is past the end. *)

From S2P Require Import Prelude.

(** ** Constants (serialization/base.hpp) *)

Definition kMaxSerializedCompactSize : Z := 0x02000000.
Definition kMaxStreamSize : Z := 512 * 1024 * 1024.

(** [std::numeric_limits<size_t>::max()] *)
Definition size_max : Z := 2 ^ 64 - 1.

Module DataStream.

Record t := mk { buffer_ : Bytes; read_position_ : Z }.

Definition set_position (p : Z) (s : t) : t := mk (buffer_ s) p.

(** [DataStream()], [DataStream(ByteView)], [DataStream(span)] *)
Definition empty_stream : t := mk [] 0.
Definition of_bytes (data : Bytes) : t := mk data 0.

Definition size (s : t) : Z := zlen (buffer_ s).
Definition empty (s : t) : bool := size s =? 0.
Definition avail (s : t) : Z := wrap 64 (size s - read_position_ s).
Definition eof (s : t) : bool := size s <=? read_position_ s.
Definition tellg (s : t) : Z := read_position_ s.

Definition reserve (count : Z) : op t unit :=
    λ s, if kMaxStreamSize <? count then (Failure (SerError kInputTooLarge), s)
         else (Success (), s).

Definition resize (new_size item : Z) : op t unit :=
    λ s, if kMaxStreamSize <? new_size then (Failure (SerError kInputTooLarge), s)
         else (Success (),
               mk (ztake new_size (buffer_ s) ++ replicate (Z.to_nat (new_size - size s)) item)
                  (read_position_ s)).

Definition write (data : Bytes) : op t unit :=
    λ s, if kMaxStreamSize <? size s + zlen data then (Failure (SerError kInputTooLarge), s)
         else (Success (), mk (buffer_ s ++ data) (read_position_ s)).

Definition push_back (b : Z) (s : t) : t := mk (buffer_ s ++ [b]) (read_position_ s).

Definition rewind (count : option Z) (s : t) : t :=
    match count with
    | None => set_position 0 s
    | Some c => if c <=? read_position_ s then set_position (read_position_ s - c) s else s
    end.

(** [insert(iterator, value)]: the iterator is the offset from the beginning
      of the buffer; an offset past the end is not a valid iterator. *)
Definition insert (where_ item : Z) : op t unit :=
    λ s, if (where_ <? 0) || (size s <? where_) then (Fault UndefinedBehaviour, s)
         else (Success (),
               mk (ztake where_ (buffer_ s) ++ item :: zdrop where_ (buffer_ s)) (read_position_ s)).

(** [erase(iterator)] *)
Definition erase_at (where_ : Z) : op t unit :=
    λ s, if where_ =? size s then (Success (), s)
         else if (where_ <? 0) || (size s <? where_) then (Fault UndefinedBehaviour, s)
         else
           let buf := ztake where_ (buffer_ s) ++ zdrop (where_ + 1) (buffer_ s) in
           let pos := if (0 <? read_position_ s) && (where_ <? read_position_ s)
                      then read_position_ s - 1 else read_position_ s in
           (Success (), mk buf (Z.min pos (zlen buf))).

(** [erase(pos, count)] *)
Definition erase (pos : Z) (count : option Z) (s : t) : t :=
    if (bool_decide (count = Some 0)) || (size s <=? pos) then s
    else
      let max_count := size s - pos in
      let n := Z.min (default size_max count) max_count in
      let buf := ztake pos (buffer_ s) ++ zdrop (pos + n) (buffer_ s) in
      let p := if (0 <? read_position_ s) && (pos <? read_position_ s)
               then read_position_ s - Z.min (read_position_ s - pos) n
               else read_position_ s in
      mk buf p.

(** [read]: the view starts at [&buffer_[read_position_]], which must not
      lie beyond the end of the buffer. *)
Definition read (count : option Z) : op t Bytes :=
    λ s,
      let n := default (avail s) count in
      if avail s <? n then (Failure (SerError kReadOverflow), s)
      else if size s <? read_position_ s then (Fault UndefinedBehaviour, s)
      else (Success (ztake n (zdrop (read_position_ s) (buffer_ s))),
            set_position (read_position_ s + n) s).

Definition ignore (count : Z) (s : t) : t :=
    set_position (read_position_ s + Z.min count (avail s)) s.

Definition seekg (position : Z) (s : t) : Z * t :=
    let p := Z.min position (size s) in (p, set_position p s).

Definition consume (pos : option Z) (s : t) : t :=
    let count := Z.min (read_position_ s) (default size_max pos) in
    mk (zdrop count (buffer_ s)) (read_position_ s - count).

Definition clear (s : t) : t := mk [] 0.

(** [get_clear(dst)] works on two streams: the source and the destination. *)
Definition get_clear (src dst : t) : outcome unit * t * t :=
    if size src <? read_position_ src then (Fault UndefinedBehaviour, src, dst)
    else
      match write (ztake (avail src) (zdrop (read_position_ src) (buffer_ src))) dst with
      | (Success _, dst') => (Success (), clear src, dst')
      | (r, dst') => (r, src, dst')
      end.

(** [operator[]] used as the destination of a [memcpy] of [data]. *)
Definition poke (pos : Z) (data : Bytes) : op t unit :=
    λ s, if (pos <? 0) || (size s <? pos + zlen data) then (Fault UndefinedBehaviour, s)
         else (Success (),
               mk (ztake pos (buffer_ s) ++ data ++ zdrop (pos + zlen data) (buffer_ s))
                  (read_position_ s)).

End DataStream.

(** ** The read position invariant *)

Module DataStreamFacts.
Import DataStream.

(** The read position lies within the buffer. *)
Definition wf (s : t) : Prop := 0 <= read_position_ s <= size s /\ size s < 2 ^ 64.

(** The unread part of the buffer: what the stream means to its client. *)
Definition unread (s : t) : Bytes := zdrop (read_position_ s) (buffer_ s).

#[global] Instance wf_dec s : Decision (wf s).
Proof. unfold wf. apply _. Defined.

(** Every member that changes a stream. *)
Inductive action :=
| AReserve (n : Z) | AResize (n item : Z) | AWrite (d : Bytes) | APushBack (b : Z)
| ARewind (c : option Z) | AInsert (w b : Z) | AEraseAt (w : Z) | AErase (p : Z) (c : option Z)
| ARead (c : option Z) | AIgnore (n : Z) | ASeekg (p : Z) | AConsume (p : option Z) | AClear
| APoke (p : Z) (d : Bytes).

Definition exec (a : action) (s : t) : t :=
  match a with
  | AReserve n => (reserve n s).2
  | AResize n i => (resize n i s).2
  | AWrite d => (write d s).2
  | APushBack b => push_back b s
  | ARewind c => rewind c s
  | AInsert w b => (insert w b s).2
  | AEraseAt w => (erase_at w s).2
  | AErase p c => erase p c s
  | ARead c => (read c s).2
  | AIgnore n => ignore n s
  | ASeekg p => (seekg p s).2
  | AConsume p => consume p s
  | AClear => clear s
  | APoke p d => (poke p d s).2
  end.

(** Arguments of type [size_t] are not negative, and a [resize] does not cut
    the buffer below the read position. *)
Definition admissible (a : action) (s : t) : Prop :=
  match a with
  | AResize n _ => read_position_ s <= n
  | ARewind c | ARead c | AConsume c => 0 <= default 0 c
  | AErase p c => 0 <= p /\ 0 <= default 0 c
  | AIgnore n | ASeekg n => 0 <= n
  | _ => True
  end.

#[global] Instance admissible_dec a s : Decision (admissible a s).
Proof. destruct a; simpl; apply _. Defined.

(** The capacity limit, with room for the octets pushed one at a time. *)
Definition small (s : t) : Prop := size s < 2 ^ 63.

Lemma avail_wf s : wf s -> avail s = size s - read_position_ s.
Proof. intros [? ?]. unfold avail, wrap. apply Z.mod_small. lia. Qed.

Lemma zlen_unread s : wf s -> zlen (unread s) = size s - read_position_ s.
Proof. intros [? ?]. unfold unread. rewrite zlen_zdrop by lia. unfold size in *. lia. Qed.

Lemma avail_unread s : wf s -> avail s = zlen (unread s).
Proof. intros. by rewrite avail_wf, zlen_unread. Qed.

(** Splits the tests of the executable definitions and closes the linear
    goals about positions and sizes that remain. *)
Ltac wf_step :=
  unfold wf, small, size, set_position in *; cbn [buffer_ read_position_ fst snd] in *;
  zlens; try lia.

Ltac wf_cases :=
  repeat match goal with
  | |- context [if ?b then _ else _] => destruct b eqn:?; cbn [fst snd buffer_ read_position_]
  | c : option Z |- _ => destruct c; simpl in *
  end; prop_bools.

Lemma exec_preserves_wf a s : wf s -> small s -> admissible a s -> wf (exec a s).
Proof.
  intros Hwf Hs Ha.
  destruct a; cbn [exec admissible] in *; unfold reserve, resize, write, push_back, rewind, insert,
    erase_at, erase, read, ignore, seekg, consume, clear, poke, kMaxStreamSize, size_max in *;
    wf_cases; rewrite ?avail_wf in * by done; wf_step.
Qed.

(** One call of a member on a stream that has not reached half of the address
    space. *)
Inductive step (s : t) : t -> Prop :=
| step_exec a : small s -> admissible a s -> step s (exec a s).

(** Whatever sequence of members is called on a stream, and whatever the
    calls return, the read position stays inside the buffer, provided a
    [resize] never cuts the buffer below the read position. *)
Theorem position_invariant (s s' : t) : rtc step s s' -> wf s -> wf s'.
Proof. induction 1 as [|s1 s2 s3 [a ? ?] _ IH]; [done|]. intros. by apply IH, exec_preserves_wf. Qed.

(** Shrinking the buffer below the read position breaks the invariant: the
    count of available octets wraps around and the next [read] of the whole
    remainder accesses memory outside of the buffer. *)
Theorem resize_breaks_wf :
  let s := (resize 1 0 (mk [1; 2; 3] 3)).2 in
  ~ wf s /\ avail s = 2 ^ 64 - 2 /\ (read None s).1 = Fault UndefinedBehaviour.
Proof. split_and!; [|done..]. intros [? _]. vm_compute in H. intuition discriminate. Qed.

(** ** A stream is a queue of octets *)

Inductive client :=
| FWrite (d : Bytes) | FPush (b : Z) | FRead (c : option Z) | FIgnore (n : Z) | FConsume (p : option Z).

(** The abstract queue. *)
Definition fifo_spec (c : client) (q : Bytes) : outcome Bytes * Bytes :=
  match c with
  | FWrite d => (Success [], q ++ d)
  | FPush b => (Success [], q ++ [b])
  | FRead None => (Success q, [])
  | FRead (Some n) =>
      if zlen q <? n then (Failure (SerError kReadOverflow), q) else (Success (ztake n q), zdrop n q)
  | FIgnore n => (Success [], zdrop n q)
  | FConsume _ => (Success [], q)
  end.

Definition fifo_impl (c : client) (s : t) : outcome Bytes * t :=
  match c with
  | FWrite d => let (r, s') := write d s in (outcome_bind r (λ _, Success []), s')
  | FPush b => (Success [], push_back b s)
  | FRead c => read c s
  | FIgnore n => (Success [], ignore n s)
  | FConsume p => (Success [], consume p s)
  end.

Fixpoint run {S} (step : client -> S -> outcome Bytes * S) (cs : list client) (s : S)
  : list (outcome Bytes) * S :=
  match cs with
  | [] => ([], s)
  | c :: cs =>
      let (r, s1) := step c s in
      let (rs, s2) := run step cs s1 in (r :: rs, s2)
  end.

Definition written (c : client) : Z :=
  match c with FWrite d => zlen d | FPush _ => 1 | _ => 0 end.

Definition client_ok (c : client) : Prop :=
  match c with
  | FRead c | FConsume c => 0 <= default 0 c
  | FIgnore n => 0 <= n
  | _ => True
  end.

Definition total_written (cs : list client) : Z := foldr (λ c n, written c + n) 0 cs.

Lemma written_nonneg c : 0 <= written c.
Proof. destruct c; simpl; lia. Qed.

Lemma total_written_nonneg cs : 0 <= total_written cs.
Proof. induction cs as [|c cs IH]; simpl; [lia|]. pose proof (written_nonneg c). lia. Qed.

Lemma unread_consume n s : wf s -> 0 <= n <= read_position_ s ->
  zdrop (read_position_ s - n) (zdrop n (buffer_ s)) = unread s.
Proof. intros [? ?] ?. unfold unread. rewrite zdrop_zdrop by lia. f_equal. lia. Qed.

Lemma unread_app s d : wf s -> unread (mk (buffer_ s ++ d) (read_position_ s)) = unread s ++ d.
Proof. intros [? ?]. unfold unread; simpl. apply zdrop_app_le. unfold size in *. lia. Qed.

Lemma ds_unread_advance s n : wf s -> 0 <= n ->
  unread (set_position (read_position_ s + n) s) = zdrop n (unread s).
Proof. intros [? ?] ?. unfold unread, set_position; simpl. rewrite zdrop_zdrop by lia. done. Qed.

(** A successful read returns the next octets and moves past them. *)
Lemma read_some s n : wf s -> 0 <= n <= zlen (unread s) ->
  read (Some n) s = (Success (ztake n (unread s)), set_position (read_position_ s + n) s).
Proof.
  intros Hwf Hn. pose proof (zlen_unread s Hwf) as Hl. unfold read; simpl.
  rewrite avail_unread by done. destruct Hwf as [? ?].
  do 2 (case_cmp; [lia|]). done.
Qed.

Lemma read_overflow s n : wf s -> zlen (unread s) < n ->
  read (Some n) s = (Failure (SerError kReadOverflow), s).
Proof. intros. unfold read; simpl. rewrite avail_unread by done. by case_cmp; [|lia]. Qed.

Lemma read_all s : wf s -> read None s = read (Some (zlen (unread s))) s.
Proof. intros. unfold read; simpl. by rewrite avail_unread. Qed.

Lemma write_fits s d : size s + zlen d <= kMaxStreamSize ->
  write d s = (Success (), mk (buffer_ s ++ d) (read_position_ s)).
Proof. intros. unfold write. by case_cmp; [lia|]. Qed.

Lemma fifo_step c s : wf s -> client_ok c -> size s + written c <= kMaxStreamSize ->
  (fifo_impl c s).1 = (fifo_spec c (unread s)).1 /\
  unread (fifo_impl c s).2 = (fifo_spec c (unread s)).2.
Proof.
  intros Hwf Hc Hf.
  assert (0 <= read_position_ s <= size s) by apply Hwf.
  pose proof (zlen_unread s Hwf).
  destruct c as [d|b|[n|]|n|p]; cbn [client_ok written default] in *.
  - cbn [fifo_impl fifo_spec]. rewrite write_fits by done. simpl. by rewrite unread_app.
  - simpl. unfold push_back. by rewrite unread_app.
  - simpl. case_cmp; [by rewrite read_overflow|].
    rewrite read_some by (done || lia). simpl. by rewrite ds_unread_advance.
  - simpl. rewrite read_all, read_some by (done || lia). simpl.
    rewrite ds_unread_advance, ztake_ge, zdrop_ge by (done || lia). done.
  - simpl. unfold ignore. rewrite avail_unread by done. split; [done|].
    rewrite ds_unread_advance by (done || lia).
    destruct (Z.le_gt_cases n (zlen (unread s))); [f_equal; lia|].
    by rewrite !zdrop_ge by lia.
  - simpl. split; [done|]. unfold consume, unread at 1; simpl.
    apply unread_consume; [done|]. unfold size_max, default; destruct Hwf; destruct p; simpl in *; lia.
Qed.

Lemma fifo_impl_size c s : wf s -> client_ok c -> size (fifo_impl c s).2 <= size s + written c.
Proof.
  intros [Hp Hz] Hc. destruct c; cbn [client_ok] in *; unfold fifo_impl, write, push_back, read, ignore, consume, size_max;
    cbn [written]; wf_cases; wf_step.
Qed.

Lemma fifo_impl_wf c s : wf s -> client_ok c -> size s + written c <= kMaxStreamSize ->
  wf (fifo_impl c s).2.
Proof.
  intros Hwf Hc Hf. pose proof (written_nonneg c).
  assert (small s) by (unfold small, kMaxStreamSize in *; lia).
  destruct c as [d|b|r|n|p]; cbn [fifo_impl snd].
  - pose proof (exec_preserves_wf (AWrite d) s Hwf) as Hx. simpl in Hx. destruct (write d s); auto.
  - by apply (exec_preserves_wf (APushBack b)).
  - by apply (exec_preserves_wf (ARead r)).
  - by apply (exec_preserves_wf (AIgnore n)).
  - by apply (exec_preserves_wf (AConsume p)).
Qed.

(** C18: A stream refines a FIFO queue of octets: any sequence of writes, reads,
    skips and consumptions returns the results the abstract queue returns, and
    leaves the same unread octets, as long as the data written fits in the
    stream. *)
Theorem fifo_refinement (cs : list client) (s : t) :
  wf s -> Forall client_ok cs -> size s + total_written cs <= kMaxStreamSize ->
  (run fifo_impl cs s).1 = (run fifo_spec cs (unread s)).1 /\
  unread (run fifo_impl cs s).2 = (run fifo_spec cs (unread s)).2.
Proof.
  revert s. induction cs as [|c cs IH]; intros s Hwf Hok Hf; [done|].
  inversion_clear Hok as [|? ? Hc Hcs]. cbn [run total_written foldr] in *.
  pose proof (total_written_nonneg cs) as Hnn. unfold total_written in Hnn.
  destruct (fifo_step c s) as [Hr Hu]; [done|done|lia|].
  pose proof (fifo_impl_size c s Hwf Hc) as Hsz.
  pose proof (fifo_impl_wf c s Hwf Hc ltac:(lia)) as Hwf1.
  destruct (fifo_impl c s) as [r s1], (fifo_spec c (unread s)) as [r' q1]; cbn [fst snd] in *; subst.
  specialize (IH s1 Hwf1 Hcs ltac:(unfold total_written in *; lia)).
  destruct (run fifo_impl cs s1), (run fifo_spec cs (unread s1)); cbn [fst snd] in *.
  destruct IH as [-> ->]. done.
Qed.

Lemma fifo_refinement_witness :
  (run fifo_impl [FWrite [1; 2; 3]; FRead (Some 2); FConsume None; FRead None] empty_stream).1 =
  (run fifo_spec [FWrite [1; 2; 3]; FRead (Some 2); FConsume None; FRead None] (unread empty_stream)).1.
Proof. apply fifo_refinement; [by vm_compute | repeat constructor; by vm_compute | by vm_compute]. Defined.

End DataStreamFacts.
