(* ===== verification/Boost.v ===== *)
(** * Third-party operations

    The sources call Boost and OpenSSL for a few operations whose code is not
    part of the repository.  They are parameters of the model, gathered in the
    classes below; what the theorems rely on is stated as laws of a second
    class.  The instances at the end show that the laws can hold, and let
    examples be evaluated. *)

From S2P Require Import Prelude Text.

(** [boost::asio::ip::address]: a tagged union of the octets of an IPv4 and of
    an IPv6 address in network byte order ([to_bytes()]). *)
Inductive address :=
| V4 (b : Bytes)
| V6 (b : Bytes).

#[global] Instance address_eq_dec : EqDecision address.
Proof. solve_decision. Defined.

Definition is_v4 (a : address) : bool := match a with V4 _ => true | V6 _ => false end.
Definition is_v6 (a : address) : bool := negb (is_v4 a).
Definition to_bytes (a : address) : Bytes := match a with V4 b | V6 b => b end.

(** Four octets or sixteen. *)
Definition address_ok (a : address) : Prop :=
  match a with
  | V4 b => bytes_ok b /\ length b = 4%nat
  | V6 b => bytes_ok b /\ length b = 16%nat
  end.

#[global] Instance address_ok_dec a : Decision (address_ok a).
Proof. destruct a; simpl; unfold bytes_ok; apply _. Defined.

(** Operations of Boost on big integers and on addresses. *)
Class Boost := {
  (** [boost::multiprecision::export_bits(v, out, CHAR_BIT)]: the octets written to [out]. *)
  export_bits : Z -> Bytes;
  (** [boost::multiprecision::import_bits(v, begin, end, CHAR_BIT)] *)
  import_bits : Bytes -> Z;
  (** [address_v6::v4_mapped] *)
  v4_mapped : Bytes -> Bytes;
  (** [address::is_loopback], [address::is_unspecified] *)
  is_loopback : address -> bool;
  is_unspecified : address -> bool;
  is_multicast : address -> bool;
  (** [address_v6::to_v4], [None] when it throws *)
  v6_to_v4 : Bytes -> option Bytes;
  (** [operator<] and [operator>] of addresses *)
  address_compare : address -> address -> comparison;
  (** [make_address_v4] and [make_address_v6] of a text, [None] when they throw;
      [to_string] of either kind *)
  make_address_v4 : Bytes -> option Bytes;
  make_address_v6 : Bytes -> option Bytes;
  v4_to_string : Bytes -> Bytes;
  v6_to_string : Bytes -> Bytes;
}.

(** The characters of an IPv6 address in hexadecimal notation. *)
Definition is_hex_colon (c : Z) : bool :=
  is_digit c || ((65 <=? c) && (c <=? 70)) || ((97 <=? c) && (c <=? 102)) || (c =? 58).

(** Dotted decimal notation. *)
Definition dotted (b : Bytes) : Bytes :=
  match b with
  | [a; b; c; d] => decimal a ++ [46] ++ decimal b ++ [46] ++ decimal c ++ [46] ++ decimal d
  | _ => []
  end.

(** What the documentation of Boost says of them. *)
Class BoostLaws `{Boost} := {
  (** most significant octet first, as many octets as the value needs *)
  export_value v : 0 <= v -> be_value (export_bits v) = v;
  export_ok v : 0 <= v -> bytes_ok (export_bits v);
  export_length n v : 0 <= v < 256 ^ Z.of_nat n -> (0 < n)%nat -> (length (export_bits v) <= n)%nat;
  import_value bs : bytes_ok bs -> import_bits bs = be_value bs;
  (** ::ffff:a.b.c.d *)
  v4_mapped_bytes b : v4_mapped b = replicate 10 0 ++ [255; 255] ++ b;
  (** 0.0.0.0 and :: *)
  is_unspecified_v4 b : is_unspecified (V4 b) = bool_decide (b = replicate 4 0);
  is_unspecified_v6 b : is_unspecified (V6 b) = bool_decide (b = replicate 16 0);
  (** 127.0.0.0/8 *)
  is_loopback_v4 b : is_loopback (V4 b) = bool_decide (head b = Some 127);
  (** a total order *)
  address_compare_eq a b : address_compare a b = Eq <-> a = b;
  address_compare_antisym a b : address_compare b a = CompOpp (address_compare a b);
  (** IPv4 addresses are printed in dotted decimal notation, IPv6 ones in
      hexadecimal unless they embed an IPv4 address; what is printed is parsed *)
  v4_to_string_dotted b : bytes_ok b -> length b = 4%nat -> v4_to_string b = dotted b;
  v6_to_string_chars b : bytes_ok b -> length b = 16%nat -> le_value (take 10 b) <> 0 ->
    v6_to_string b <> [] /\ Forall (λ c, is_hex_colon c = true) (v6_to_string b);
  make_v4_to_string b : bytes_ok b -> length b = 4%nat -> make_address_v4 (v4_to_string b) = Some b;
  make_v6_to_string b : bytes_ok b -> length b = 16%nat -> make_address_v6 (v6_to_string b) = Some b;
}.

(** Digests (OpenSSL). *)
Class Crypto := {
  (** SHA-256 of a sequence of octets; empty when the library fails. *)
  sha256 : Bytes -> Bytes;
  (** SipHash-2-4 of a key and a sequence of octets, as a 64 bit integer. *)
  siphash24 : Bytes -> Bytes -> Z;
}.

Class CryptoLaws `{Crypto} := {
  sha256_length d : length (sha256 d) = 32%nat;
  sha256_ok d : bytes_ok (sha256 d);
  siphash24_range k d : 0 <= siphash24 k d < 2 ^ 64;
}.

(** ** Instances that satisfy the laws *)

(** Octets of a non negative integer, most significant first; [fuel] octets at
    most, and at least one. *)
Fixpoint min_be (fuel : nat) (v : Z) (acc : Bytes) : Bytes :=
  match fuel with
  | O => acc
  | S fuel => if v <? 256 then v :: acc else min_be fuel (v / 256) (v mod 256 :: acc)
  end.

Definition model_export (v : Z) : Bytes := min_be (S (Z.to_nat (Z.log2 v))) v [].

(** Stand-ins for the text forms: dotted decimal, and two hexadecimal digits per
    octet. *)
Definition parse_dotted (l : Bytes) : option Bytes :=
  let (a, l) := span_digits l in
  let (b, l) := span_digits (drop 1 l) in
  let (c, l) := span_digits (drop 1 l) in
  let (d, l) := span_digits (drop 1 l) in
  let bs := digits_value <$> [a; b; c; d] in
  if bool_decide (bytes_ok bs /\ l = []) then Some bs else None.

Definition hex_digit (n : Z) : Z := if n <? 10 then 48 + n else 87 + n.
Definition hex_value (c : Z) : Z := if c <? 58 then c - 48 else c - 87.

Fixpoint model_v6_to_string (b : Bytes) : Bytes :=
  match b with
  | [] => []
  | x :: b => hex_digit (x / 16) :: hex_digit (x mod 16) :: model_v6_to_string b
  end.

Fixpoint model_make_v6 (l : Bytes) : Bytes :=
  match l with
  | x :: y :: l => (16 * hex_value x + hex_value y) :: model_make_v6 l
  | _ => []
  end.

(** Octets compared one by one, a prefix coming first. *)
Fixpoint lex_compare (a b : Bytes) : comparison :=
  match a, b with
  | [], [] => Eq
  | [], _ => Lt
  | _, [] => Gt
  | x :: a, y :: b => match x ?= y with Eq => lex_compare a b | Lt => Lt | Gt => Gt end
  end.

Definition model_compare (a b : address) : comparison :=
  match a, b with
  | V4 a, V4 b | V6 a, V6 b => lex_compare a b
  | V4 _, V6 _ => Lt
  | V6 _, V4 _ => Gt
  end.

Definition model_boost : Boost := {|
  export_bits := model_export;
  import_bits := be_value;
  v4_mapped b := replicate 10 0 ++ [255; 255] ++ b;
  is_loopback a := match a with
                   | V4 b => bool_decide (head b = Some 127)
                   | V6 b => bool_decide (b = replicate 15 0 ++ [1])
                   end;
  is_unspecified a := match a with
                      | V4 b => bool_decide (b = replicate 4 0)
                      | V6 b => bool_decide (b = replicate 16 0)
                      end;
  is_multicast a := match a with
                    | V4 b => bool_decide (224 <= default 0 (head b) < 240)
                    | V6 b => bool_decide (head b = Some 255)
                    end;
  v6_to_v4 b := if decide (take 12 b = replicate 10 0 ++ [255; 255]) then Some (drop 12 b) else None;
  address_compare := model_compare;
  make_address_v4 := parse_dotted;
  make_address_v6 l := Some (model_make_v6 l);
  v4_to_string := dotted;
  v6_to_string := model_v6_to_string;
|}.

(** A stand-in for the digests: only the size of the result matters. *)
Definition model_crypto : Crypto := {|
  sha256 d := le_bytes 32 (zlen d + 7 * le_value d);
  siphash24 k d := (le_value k + 31 * le_value d) mod 2 ^ 64;
|}.

Lemma min_be_spec n v acc :
  0 <= v < 256 ^ Z.of_nat n -> (0 < n)%nat -> bytes_ok acc ->
  bytes_ok (min_be n v acc) /\
  be_value (min_be n v acc) = v * 256 ^ zlen acc + be_value acc.
Proof.
  revert v acc. induction n as [|n IH]; intros v acc Hv Hn Hacc; [lia|]. cbn [min_be].
  assert (Hpow : 256 ^ Z.of_nat (S n) = 256 * 256 ^ Z.of_nat n)
    by (rewrite Nat2Z.inj_succ, Z.pow_succ_r by lia; done).
  case_cmp.
  - split; [constructor; [unfold is_byte; lia | done] | apply be_value_cons].
  - destruct n as [|n]; [simpl in *; lia|].
    destruct (IH (v / 256) (v mod 256 :: acc)) as [Hok Hval].
    + split; [apply Z.div_pos; lia | apply Z.div_lt_upper_bound; lia].
    + lia.
    + constructor; [apply Z.mod_pos_bound; lia | done].
    + split; [exact Hok|]. rewrite Hval, be_value_cons. cbn [length].
      rewrite Nat2Z.inj_succ, Z.pow_succ_r by lia.
      pose proof (Z.div_mod v 256). nia.
Qed.

Lemma min_be_length n v acc k :
  0 <= v < 256 ^ Z.of_nat k -> (0 < k)%nat -> (length (min_be n v acc) <= k + length acc)%nat.
Proof.
  revert v acc k. induction n as [|n IH]; intros v acc k Hv Hk; simpl; [lia|].
  case_cmp; [simpl; lia|]. destruct k as [|[|k]]; [lia|simpl in *; lia|].
  specialize (IH (v / 256) (v mod 256 :: acc) (S k)). simpl length in IH.
  assert (0 <= v / 256 < 256 ^ Z.of_nat (S k)).
  { rewrite (Nat2Z.inj_succ (S k)), Z.pow_succ_r in Hv by lia.
    split; [apply Z.div_pos; lia | apply Z.div_lt_upper_bound; lia]. }
  lia.
Qed.

Lemma model_export_fuel v : 0 <= v -> 0 <= v < 256 ^ Z.of_nat (S (Z.to_nat (Z.log2 v))).
Proof.
  intros Hv. split; [done|]. destruct (Z.eq_dec v 0) as [->|]; [done|].
  rewrite Nat2Z.inj_succ, Z2Nat.id by apply Z.log2_nonneg.
  pose proof (Z.log2_spec v ltac:(lia)) as [_ Hlt].
  eapply Z.lt_le_trans; [apply Hlt|]. apply Z.pow_le_mono_l; lia.
Qed.

Lemma lex_compare_eq a b : lex_compare a b = Eq <-> a = b.
Proof.
  revert b. induction a as [|x a IH]; intros [|y b]; simpl; try (split; done).
  destruct (Z.compare_spec x y) as [->|H|H]; [rewrite IH; split; [by intros ->| by injection 1]|..];
    (split; [done | intros [= -> _]; lia]).
Qed.

Lemma lex_compare_antisym a b : lex_compare b a = CompOpp (lex_compare a b).
Proof.
  revert b. induction a as [|x a IH]; intros [|y b]; simpl; try done.
  rewrite (Z.compare_antisym x y), IH. by destruct (x ?= y).
Qed.

(** *** Dotted decimal text *)

Lemma decimal_octet_value x : is_byte x -> digits_value (decimal x) = x.
Proof. unfold is_byte. intros. apply decimal_value. lia. Qed.

Lemma span_octet x rest : is_byte x -> (forall c r, rest = c :: r -> is_digit c = false) ->
  span_digits (decimal x ++ rest) = (decimal x, rest).
Proof. unfold is_byte. intros Hx Hr. apply span_digits_app; [apply decimal_digits; lia | done]. Qed.

Lemma quad_cases (b : Bytes) : bytes_ok b -> length b = 4%nat ->
  exists w x y z, b = [w; x; y; z] /\ is_byte w /\ is_byte x /\ is_byte y /\ is_byte z.
Proof.
  intros Hb Hl. destruct b as [|w [|x [|y [|z [|]]]]]; try done.
  exists w, x, y, z. split; [done|]. unfold bytes_ok in Hb. rewrite !Forall_cons in Hb. tauto.
Qed.

Lemma parse_dotted_dotted b : bytes_ok b -> length b = 4%nat -> parse_dotted (dotted b) = Some b.
Proof.
  intros Hb Hl. destruct (quad_cases b Hb Hl) as (w & x & y & z & -> & Hw & Hx & Hy & Hz).
  unfold parse_dotted, dotted.
  do 3 (rewrite span_octet; [|done | by intros ?? [= <- _]]; cbn [app skipn]; rewrite ?drop_0).
  rewrite <- (app_nil_r (decimal z)), span_octet by done.
  cbn [fmap list_fmap]. rewrite !decimal_octet_value by done.
  rewrite bool_decide_eq_true_2; done.
Qed.

Lemma hex_value_digit n : 0 <= n < 16 -> hex_value (hex_digit n) = n.
Proof. intros. unfold hex_value, hex_digit. case_cmps; lia. Qed.

Lemma hex_digit_chars n : 0 <= n < 16 -> is_hex_colon (hex_digit n) = true.
Proof.
  intros Hn. apply (check_range (λ n, is_hex_colon (hex_digit n)) 0 16); [by vm_compute | lia].
Qed.

Lemma byte_halves x : is_byte x -> 0 <= x / 16 < 16 /\ 0 <= x mod 16 < 16 /\ 16 * (x / 16) + x mod 16 = x.
Proof.
  unfold is_byte. intros Hx. split_and!; try (apply Z.mod_pos_bound; lia).
  - apply Z.div_pos; lia.
  - apply Z.div_lt_upper_bound; lia.
  - by rewrite <- Z.div_mod.
Qed.

Lemma model_make_v6_to_string b : bytes_ok b -> model_make_v6 (model_v6_to_string b) = b.
Proof.
  unfold bytes_ok. induction 1 as [|x b Hx _ IH]; [done|].
  destruct (byte_halves x Hx) as (H1 & H2 & H3). simpl. by rewrite !hex_value_digit, IH, H3.
Qed.

Lemma model_v6_chars b : bytes_ok b -> Forall (λ c, is_hex_colon c = true) (model_v6_to_string b).
Proof.
  unfold bytes_ok. induction 1 as [|x b Hx _ IH]; [constructor|].
  destruct (byte_halves x Hx) as (H1 & H2 & H3). simpl. auto using Forall_cons_2, hex_digit_chars.
Qed.

Lemma model_boost_laws : @BoostLaws model_boost.
Proof.
  split; simpl; unfold model_export.
  - intros v Hv. destruct (min_be_spec _ v [] (model_export_fuel v Hv)) as [_ ->]; [lia|constructor|].
    simpl. change (be_value []) with 0. lia.
  - intros v Hv. by destruct (min_be_spec _ v [] (model_export_fuel v Hv)) as [? _]; [lia|constructor|].
  - intros n v Hv Hn. pose proof (min_be_length (S (Z.to_nat (Z.log2 v))) v [] n Hv Hn). simpl in *. lia.
  - done.
  - done.
  - done.
  - done.
  - done.
  - intros [a|a] [b|b]; simpl; rewrite ?lex_compare_eq; split; (done || by injection 1 || by intros ->).
  - intros [a|a] [b|b]; simpl; (done || apply lex_compare_antisym).
  - done.
  - intros b Hb Hl _. split; [by destruct b | by apply model_v6_chars].
  - apply parse_dotted_dotted.
  - intros b Hb _. by rewrite model_make_v6_to_string.
Qed.

Lemma model_crypto_laws : @CryptoLaws model_crypto.
Proof.
  split; simpl; intros.
  - done.
  - apply le_bytes_ok.
  - apply Z.mod_pos_bound. lia.
Qed.
