(* ===== verification/Serialize.v ===== *)
(** * Serialization

    Model of [src/src/core/serialization/serialize.hpp] (arithmetic types and
    compact integers) and of class [SDataStream] of [stream.hpp] with its
    [bind] overloads.  An object being (de)serialized is threaded next to the
    stream: a value of type [Ser T] maps an object and a stream to a result, the
    updated object and the updated stream, as the members called
    [serialization] do through their references. *)

From S2P Require Import Prelude Stream Boost.
Export DataStream (read_position_, buffer_).

(** ** Scopes and actions (serialization/base.hpp) *)

Inductive Scope := kNetwork | kStorage | kHash.
Inductive Action := kComputeSize | kSerialize | kDeserialize.

#[global] Instance Action_dec : EqDecision Action.
Proof. solve_decision. Defined.

(** ** Arithmetic types *)

Record int_type := IntType { ssizeof : nat; is_signed : bool }.

Definition uint8_t := IntType 1 false.
Definition uint16_t := IntType 2 false.
Definition uint32_t := IntType 4 false.
Definition uint64_t := IntType 8 false.
Definition int8_t := IntType 1 true.
Definition int32_t := IntType 4 true.
Definition int64_t := IntType 8 true.

Definition bits (ty : int_type) : Z := 8 * Z.of_nat (ssizeof ty).

(** The values of an integer type. *)
Definition in_range (ty : int_type) (v : Z) : Prop :=
  if is_signed ty then - 2 ^ (bits ty - 1) <= v < 2 ^ (bits ty - 1) else 0 <= v < 2 ^ bits ty.

#[global] Instance in_range_dec ty v : Decision (in_range ty v).
Proof. unfold in_range. destruct (is_signed ty); apply _. Defined.

(** [std::bit_cast] to and from the object representation. *)
Definition int_bytes (ty : int_type) (v : Z) : Bytes := le_bytes (ssizeof ty) v.
Definition int_of_bytes (ty : int_type) (bs : Bytes) : Z :=
  if is_signed ty then sign (bits ty) (le_value bs) else le_value bs.

Definition ser_compact_sizeof (value : Z) : Z :=
  if value <? 253 then 1
  else if value <=? 0xFFFF then 3
  else if value <=? 0xFFFFFFFF then 5
  else 9.

Definition write_data (ty : int_type) (obj : Z) : op DataStream.t unit :=
  DataStream.write (int_bytes ty obj).

Definition write_data_bool (obj : bool) : op DataStream.t unit :=
  λ s, (Success (), DataStream.push_back (if obj then 1 else 0) s).

(** A floating point object is its bit pattern. *)
Definition write_data_float (obj : Z) : op DataStream.t unit := write_data uint32_t obj.
Definition write_data_double (obj : Z) : op DataStream.t unit := write_data uint64_t obj.

Definition write_compact (obj : Z) : op DataStream.t unit :=
  λ s,
    let casted := le_bytes 8 obj in
    let num_bytes := ser_compact_sizeof obj in
    let tail (prefix : Z) :=
      DataStream.write (ztake (num_bytes - 1) casted) (DataStream.push_back prefix s) in
    if num_bytes =? 1 then (Success (), DataStream.push_back (default 0 (casted !! 0%nat)) s)
    else if num_bytes =? 3 then tail 253
    else if num_bytes =? 5 then tail 254
    else if num_bytes =? 9 then tail 255
    else (Fault AssertionFailed, s).

Definition read_data (ty : int_type) : op DataStream.t Z :=
  bs <~ DataStream.read (Some (Z.of_nat (ssizeof ty)));; op_ret (int_of_bytes ty bs).

Definition read_data_bool : op DataStream.t bool :=
  bs <~ DataStream.read (Some 1);; op_ret (bool_decide (bs !! 0%nat = Some 1)).

Definition read_as (ty : int_type) : op DataStream.t Z := read_data ty.

Definition read_as_float (bytes_to_read : Z) : op DataStream.t Z :=
  bs <~ DataStream.read (Some bytes_to_read);; op_ret (le_value bs).

Definition read_compact (range_check : bool) : op DataStream.t Z :=
  let check (ret : Z) : op DataStream.t Z :=
    if range_check && (kMaxSerializedCompactSize <? ret) then op_fail (SerError kCompactSizeTooBig)
    else op_ret ret in
  let wide (ty : int_type) (least : Z) : op DataStream.t Z :=
    v <~ read_as ty;;
    if v <? least then op_fail (SerError kNonCanonicalCompactSize) else check v in
  prefix <~ read_as uint8_t;;
  if prefix <? 253 then check prefix
  else if prefix =? 253 then wide uint16_t 253
  else if prefix =? 254 then wide uint32_t 0x10000
  else if prefix =? 255 then wide uint64_t 0x100000000
  else check 0.

(** ** SDataStream *)

Module SDataStream.

Record t := mk {
  base : DataStream.t;
  scope_ : Scope;
  version_ : Z;
  computed_size_ : Z;
}.

Definition set_base (d : DataStream.t) (s : t) : t := mk d (scope_ s) (version_ s) (computed_size_ s).
Definition set_version (v : Z) (s : t) : t := mk (base s) (scope_ s) v (computed_size_ s).
Definition add_computed (n : Z) (s : t) : t :=
  mk (base s) (scope_ s) (version_ s) (computed_size_ s + n).

(** The three constructors. *)
Definition make (scope : Scope) (version : Z) : t := mk DataStream.empty_stream scope version 0.
Definition of_bytes (data : Bytes) (scope : Scope) (version : Z) : t :=
  mk (DataStream.of_bytes data) scope version 0.

Definition computed_size (s : t) : Z := computed_size_ s.
Definition clear (s : t) : t := mk (DataStream.clear (base s)) (scope_ s) (version_ s) 0.

(** Members inherited from [DataStream]. *)
Definition lift {A} (m : op DataStream.t A) : op t A :=
  λ s, let (r, d) := m (base s) in (r, set_base d s).

End SDataStream.

(** ** Objects bound to a stream *)

(** An object of type [T], its stream, and the result of the call. *)
Definition Ser (T : Type) : Type := T -> SDataStream.t -> outcome unit * T * SDataStream.t.

Section Ser.
Context {T : Type}.

(** [if (not result.has_error()) result = q] *)
Definition ser_then (p q : Ser T) : Ser T :=
  λ o s, match p o s with
         | (Success _, o', s') => q o' s'
         | r => r
         end.

Definition ser_ok : Ser T := λ o s, (Success (), o, s).
Definition ser_fail (e : error) : Ser T := λ o s, (Failure e, o, s).

(** [stream.bind(object.field, action)] *)
Definition on_field {F} (get : T -> F) (set : F -> T -> T) (b : Ser F) : Ser T :=
  λ o s, let '(r, f, s') := b (get o) s in (r, set f o, s').

(** A stream operation whose value is stored in the object. *)
Definition store {A} (m : op SDataStream.t A) (set : A -> T -> T) : Ser T :=
  λ o s, match m s with
         | (Success a, s') => (Success (), set a o, s')
         | (Failure e, s') => (Failure e, o, s')
         | (Fault f, s') => (Fault f, o, s')
         end.

(** A stream operation with no value. *)
Definition emit (m : T -> op SDataStream.t unit) : Ser T :=
  λ o s, let (r, s') := m o s in (r, o, s').

Definition count_size (n : T -> Z) : Ser T := λ o s, (Success (), o, SDataStream.add_computed (n o) s).
End Ser.

Notation "p '>>>' q" := (ser_then p q) (at level 62, right associativity) : znode_scope.

(** ** The [bind] overloads *)

Definition bind_integral (ty : int_type) (action : Action) : Ser Z :=
  match action with
  | kComputeSize => count_size (λ _, Z.of_nat (ssizeof ty))
  | kSerialize => emit (λ o, SDataStream.lift (write_data ty o))
  | kDeserialize => store (SDataStream.lift (read_data ty)) (λ v _, v)
  end.

(** [bool] is an [Integral] type of one octet whose [write_data] and
    [read_data] are the dedicated overloads. *)
Definition bind_bool (action : Action) : Ser bool :=
  match action with
  | kComputeSize => count_size (λ _, 1)
  | kSerialize => emit (λ o, SDataStream.lift (write_data_bool o))
  | kDeserialize => store (SDataStream.lift read_data_bool) (λ v _, v)
  end.

(** [std::array<uint8_t, N>] *)
Definition bind_array (n : nat) (action : Action) : Ser Bytes :=
  match action with
  | kComputeSize => count_size (λ _, Z.of_nat n)
  | kSerialize => emit (λ o, SDataStream.lift (DataStream.write o))
  | kDeserialize => store (SDataStream.lift (DataStream.read (Some (Z.of_nat n)))) (λ v _, v)
  end.

(** [Bytes]: the last member of an object, its size is not recorded. *)
Definition bind_bytes (action : Action) : Ser Bytes :=
  match action with
  | kComputeSize => count_size (λ o, zlen o)
  | kSerialize => emit (λ o, SDataStream.lift (DataStream.write o))
  | kDeserialize => store (SDataStream.lift (DataStream.read None)) (λ v _, v)
  end.

Definition bind_string (action : Action) : Ser Bytes :=
  match action with
  | kComputeSize => count_size (λ o, ser_compact_sizeof (zlen o) + zlen o)
  | kSerialize =>
      emit (λ o, SDataStream.lift (write_compact (zlen o) >>; DataStream.write o))
  | kDeserialize =>
      store (SDataStream.lift (n <~ read_compact true;; DataStream.read (Some n))) (λ v _, v)
  end.

Section BoostTypes.
Context `{Boost}.

(** [uint128_t] and [uint256_t]: [export_bits] fills the array from its
    beginning. *)
Definition bind_big (n : nat) (action : Action) : Ser Z :=
  match action with
  | kComputeSize => count_size (λ _, Z.of_nat n)
  | kSerialize =>
      emit (λ o, let digits := export_bits o in
                 if decide (length digits <= n)%nat
                 then SDataStream.lift (DataStream.write (digits ++ replicate (n - length digits) 0))
                 else λ s, (Fault UndefinedBehaviour, s))
  | kDeserialize =>
      store (SDataStream.lift (DataStream.read (Some (Z.of_nat n)))) (λ bs _, import_bits bs)
  end.

Definition bind_address (action : Action) : Ser address :=
  match action with
  | kComputeSize => count_size (λ _, 16)
  | kSerialize =>
      emit (λ o, SDataStream.lift (DataStream.write (match o with V4 b => v4_mapped b | V6 b => b end)))
  | kDeserialize =>
      store (SDataStream.lift (DataStream.read (Some 16)))
        (λ bs _, if le_value (take 8 bs) =? 0 then V4 (drop 12 bs) else V6 bs)
  end.
End BoostTypes.

(** ** Serializable (serialization/serializable.hpp) *)

Section Serializable.
Context {T : Type} (serialization : Action -> Ser T).

Definition serialize : Ser T := serialization kSerialize.
Definition deserialize : Ser T := serialization kDeserialize.
Definition serialized_size (o : T) (s : SDataStream.t) : Z * T * SDataStream.t :=
  match serialization kComputeSize o s with
  | (Success _, o', s') => (SDataStream.computed_size s', o', s')
  | (_, o', s') => (0, o', s')
  end.
End Serializable.

(** ** Laws of serialization

    [writes p o e o']: serializing [o] appends the octets [e] and leaves the
    object [o'].  [reads p e u]: deserializing [e] succeeds, consumes exactly
    [e] and updates the object by [u].  [counts p o n]: the size computation
    adds [n].  [short_read p e]: when less than [e] is available the call
    reports a read overflow. *)

Module Laws.
Import DataStreamFacts.

Definition unread (s : SDataStream.t) : Bytes := DataStreamFacts.unread (SDataStream.base s).
Definition wf (s : SDataStream.t) : Prop := DataStreamFacts.wf (SDataStream.base s).
Definition fits (s : SDataStream.t) (e : Bytes) : Prop :=
  DataStream.size (SDataStream.base s) + zlen e <= kMaxStreamSize.

Definition append (e : Bytes) (s : SDataStream.t) : SDataStream.t :=
  SDataStream.set_base
    (DataStream.mk (buffer_ (SDataStream.base s) ++ e) (read_position_ (SDataStream.base s))) s.

Definition advance (n : Z) (s : SDataStream.t) : SDataStream.t :=
  SDataStream.set_base
    (DataStream.set_position (read_position_ (SDataStream.base s) + n) (SDataStream.base s)) s.

Definition writes {T} (p : Ser T) (o : T) (e : Bytes) (o' : T) : Prop :=
  forall s, fits s e -> p o s = (Success (), o', append e s).

Definition reads {T} (p : Ser T) (e : Bytes) (u : T -> T) : Prop :=
  forall o s rest, wf s -> unread s = e ++ rest -> p o s = (Success (), u o, advance (zlen e) s).

Definition counts {T} (p : Ser T) (o : T) (n : Z) (o' : T) : Prop :=
  forall s, p o s = (Success (), o', SDataStream.add_computed n s).

Definition short_read {T} (p : Ser T) (e : Bytes) : Prop :=
  forall o s, wf s -> unread s `prefix_of` e -> unread s <> e ->
    exists o' s', p o s = (Failure (SerError kReadOverflow), o', s').

(** *** Streams after a call *)

Lemma append_append e1 e2 s : append e2 (append e1 s) = append (e1 ++ e2) s.
Proof. unfold append, SDataStream.set_base; simpl. by rewrite <- app_assoc. Qed.

Lemma append_nil s : append [] s = s.
Proof. unfold append. destruct s as [[] ???]. unfold SDataStream.set_base; simpl. by rewrite app_nil_r. Qed.

Lemma advance_advance n m s : advance m (advance n s) = advance (n + m) s.
Proof. unfold advance, SDataStream.set_base, DataStream.set_position; simpl. do 2 f_equal. lia. Qed.

Lemma advance_0 s : advance 0 s = s.
Proof.
  unfold advance, SDataStream.set_base, DataStream.set_position. destruct s as [[] ???]; simpl.
  by rewrite Z.add_0_r.
Qed.

Lemma add_computed_add n m s :
  SDataStream.add_computed m (SDataStream.add_computed n s) = SDataStream.add_computed (n + m) s.
Proof. unfold SDataStream.add_computed; simpl. f_equal. lia. Qed.

Lemma fits_append e1 e2 s : fits s (e1 ++ e2) -> fits (append e1 s) e2.
Proof. unfold fits, append, DataStream.size; simpl. zlens. lia. Qed.

Lemma fits_app_l e1 e2 s : fits s (e1 ++ e2) -> fits s e1.
Proof. unfold fits. zlens. lia. Qed.

Lemma wf_advance e rest s : wf s -> unread s = e ++ rest -> wf (advance (zlen e) s).
Proof.
  intros Hwf Hu. pose proof (zlen_unread _ Hwf) as Hl. fold (unread s) in Hl.
  rewrite Hu in Hl. zlens. destruct Hwf. split; unfold DataStream.size in *; simpl; lia.
Qed.

Lemma unread_advance e rest s : wf s -> unread s = e ++ rest -> unread (advance (zlen e) s) = rest.
Proof.
  intros Hwf Hu. unfold unread, advance; simpl. rewrite ds_unread_advance by (done || lia).
  fold (unread s). by rewrite Hu, zdrop_app.
Qed.

(** *** Composition *)

Section compose.
Context {T : Type}.
Implicit Types p q : Ser T.

Lemma writes_then p q o e1 o1 e2 o2 :
  writes p o e1 o1 -> writes q o1 e2 o2 -> writes (p >>> q) o (e1 ++ e2) o2.
Proof.
  intros Hp Hq s Hf. unfold ser_then. rewrite (Hp s) by (by eapply fits_app_l).
  rewrite Hq by (by apply fits_append). by rewrite append_append.
Qed.

Lemma reads_then p q e1 u1 e2 u2 :
  reads p e1 u1 -> reads q e2 u2 -> reads (p >>> q) (e1 ++ e2) (λ o, u2 (u1 o)).
Proof.
  intros Hp Hq o s rest Hwf Hu. rewrite <- app_assoc in Hu. unfold ser_then.
  rewrite (Hp o s _ Hwf Hu).
  rewrite (Hq _ _ rest) by (by eapply wf_advance || by eapply unread_advance).
  by rewrite advance_advance, zlen_app.
Qed.

Lemma counts_then p q o n1 o1 n2 o2 :
  counts p o n1 o1 -> counts q o1 n2 o2 -> counts (p >>> q) o (n1 + n2) o2.
Proof. intros Hp Hq s. unfold ser_then. by rewrite Hp, Hq, add_computed_add. Qed.

Lemma prefix_app_cases (x e1 e2 : Bytes) :
  x `prefix_of` e1 ++ e2 -> (x `prefix_of` e1 /\ x <> e1) \/ exists r, x = e1 ++ r /\ r `prefix_of` e2.
Proof.
  intros [k Hk]. revert x Hk. induction e1 as [|b e1 IH]; intros x Hk.
  - right. exists x. split; [done | by exists k].
  - destruct x as [|c x]; [left; split; [apply prefix_nil | done]|].
    simplify_list_eq. destruct (IH x) as [[? ?]|(r & -> & ?)]; [done|..].
    + left. split; [by apply prefix_cons | congruence].
    + right. by exists r.
Qed.

Lemma short_read_then p q e1 u1 e2 :
  short_read p e1 -> reads p e1 u1 -> short_read q e2 -> short_read (p >>> q) (e1 ++ e2).
Proof.
  intros Hp Hr Hq o s Hwf Hpre Hne. unfold ser_then.
  apply prefix_app_cases in Hpre as [[? ?]|(r & Hu & ?)].
  - destruct (Hp o s) as (o' & s' & ->); [done..|]. eauto.
  - rewrite (Hr o s r Hwf Hu).
    apply Hq; [by eapply wf_advance|..]; rewrite (unread_advance e1 r) by done; [done|].
    intros ->. congruence.
Qed.

Context {F : Type} (get : T -> F) (set : F -> T -> T).

Lemma writes_field (b : Ser F) o e f' :
  writes b (get o) e f' -> writes (on_field get set b) o e (set f' o).
Proof. intros Hb s Hf. unfold on_field. by rewrite (Hb s Hf). Qed.

Lemma reads_field (b : Ser F) e v :
  reads b e (λ _, v) -> reads (on_field get set b) e (set v).
Proof. intros Hb o s rest Hwf Hu. unfold on_field. by rewrite (Hb (get o) s rest). Qed.

(** The general form, when the new value depends on the old one. *)
Lemma reads_update (b : Ser F) e u :
  reads b e u -> reads (on_field get set b) e (λ o, set (u (get o)) o).
Proof. intros Hb o s rest Hwf Hu. unfold on_field. by rewrite (Hb (get o) s rest Hwf Hu). Qed.

Lemma counts_field (b : Ser F) o n f' :
  counts b (get o) n f' -> counts (on_field get set b) o n (set f' o).
Proof. intros Hb s. unfold on_field. by rewrite (Hb s). Qed.

Lemma short_read_field (b : Ser F) e : short_read b e -> short_read (on_field get set b) e.
Proof.
  intros Hb o s Hwf Hp Hne. unfold on_field.
  destruct (Hb (get o) s) as (f' & s' & ->); [done..|]. eauto.
Qed.
End compose.

(** *** Primitive operations *)

Lemma lift_read e rest s : wf s -> unread s = e ++ rest ->
  SDataStream.lift (DataStream.read (Some (zlen e))) s = (Success e, advance (zlen e) s).
Proof.
  intros Hwf Hu. unfold SDataStream.lift. unfold unread in Hu.
  rewrite read_some by (try done; rewrite Hu; zlens; lia). by rewrite Hu, ztake_app.
Qed.

Lemma lift_read_short n s : wf s -> zlen (unread s) < n ->
  SDataStream.lift (DataStream.read (Some n)) s = (Failure (SerError kReadOverflow), s).
Proof.
  intros Hwf Hn. unfold SDataStream.lift. rewrite read_overflow by done. by destruct s.
Qed.

Lemma lift_write e s : fits s e -> SDataStream.lift (DataStream.write e) s = (Success (), append e s).
Proof. intros. unfold SDataStream.lift. by rewrite write_fits. Qed.

Lemma prefix_short (x e : Bytes) : x `prefix_of` e -> x <> e -> zlen x < zlen e.
Proof.
  intros [k ->] Hne. zlens. destruct k; [by rewrite app_nil_r in Hne|]. zlens. lia.
Qed.

Lemma lift_bind {A B} (m : op DataStream.t A) (k : A -> op DataStream.t B) s :
  SDataStream.lift (op_bind m k) s = op_bind (SDataStream.lift m) (λ a, SDataStream.lift (k a)) s.
Proof.
  unfold SDataStream.lift, op_bind. destruct (m (SDataStream.base s)) as [[] d]; [|done..].
  simpl. by destruct (k _ d).
Qed.

Lemma lift_ret {A} (a : A) s : SDataStream.lift (op_ret a) s = (Success a, s).
Proof. by destruct s. Qed.

Lemma lift_fail {A} e s : SDataStream.lift (A:=A) (op_fail e) s = (Failure e, s).
Proof. by destruct s. Qed.

Lemma lift_read_data ty e rest s : wf s -> unread s = e ++ rest -> length e = ssizeof ty ->
  SDataStream.lift (read_data ty) s = (Success (int_of_bytes ty e), advance (zlen e) s).
Proof.
  intros Hwf Hu Hl. unfold read_data. rewrite lift_bind. unfold op_bind.
  rewrite <- Hl, (lift_read e rest s) by done. apply lift_ret.
Qed.

Lemma lift_read_data_short ty s : wf s -> zlen (unread s) < Z.of_nat (ssizeof ty) ->
  SDataStream.lift (read_data ty) s = (Failure (SerError kReadOverflow), s).
Proof.
  intros Hwf Hl. unfold read_data. rewrite lift_bind. unfold op_bind. by rewrite lift_read_short.
Qed.

(** *** Integers *)

Lemma bits_pow ty : 2 ^ bits ty = 256 ^ Z.of_nat (ssizeof ty).
Proof. unfold bits. rewrite Z.pow_mul_r by lia. done. Qed.

Lemma int_roundtrip ty v : (0 < ssizeof ty)%nat -> in_range ty v ->
  int_of_bytes ty (int_bytes ty v) = v.
Proof.
  intros Hs Hv. unfold int_of_bytes, int_bytes, in_range, sign in *.
  rewrite le_value_le_bytes, <- bits_pow.
  assert (2 ^ bits ty = 2 * 2 ^ (bits ty - 1)) as Hp.
  { rewrite <- Z.pow_succ_r by (unfold bits; lia). f_equal. lia. }
  destruct (is_signed ty); [|by apply Z.mod_small].
  destruct (Z.lt_ge_cases v 0).
  - rewrite <- (Z.mod_unique v (2 ^ bits ty) (-1) (v + 2 ^ bits ty)) by lia.
    case_cmp; lia.
  - rewrite Z.mod_small by lia. case_cmp; lia.
Qed.

Lemma length_int_bytes ty v : length (int_bytes ty v) = ssizeof ty.
Proof. apply length_le_bytes. Qed.

Lemma integral_writes ty v : writes (bind_integral ty kSerialize) v (int_bytes ty v) v.
Proof. intros s Hf. simpl. unfold emit, write_data. by rewrite lift_write. Qed.

Lemma integral_reads ty v : (0 < ssizeof ty)%nat -> in_range ty v ->
  reads (bind_integral ty kDeserialize) (int_bytes ty v) (λ _, v).
Proof.
  intros Hs Hv o s rest Hwf Hu. simpl. unfold store.
  rewrite (lift_read_data ty _ rest) by (done || apply length_int_bytes).
  by rewrite int_roundtrip.
Qed.

Lemma integral_counts ty v : counts (bind_integral ty kComputeSize) v (zlen (int_bytes ty v)) v.
Proof. intros s. simpl. unfold count_size. by rewrite length_int_bytes. Qed.

Lemma integral_short ty e : length e = ssizeof ty -> short_read (bind_integral ty kDeserialize) e.
Proof.
  intros Hl o s Hwf Hp Hne. simpl. unfold store. pose proof (prefix_short _ _ Hp Hne).
  rewrite lift_read_data_short by (done || lia). eauto.
Qed.

(** *** Arrays, byte strings and booleans *)

Lemma array_writes n v : writes (bind_array n kSerialize) v v v.
Proof. intros s Hf. simpl. unfold emit. by rewrite lift_write. Qed.

Lemma array_reads n v : length v = n -> reads (bind_array n kDeserialize) v (λ _, v).
Proof. intros <- o s rest Hwf Hu. simpl. unfold store. by rewrite (lift_read v rest). Qed.

Lemma array_counts n v : length v = n -> counts (bind_array n kComputeSize) v (zlen v) v.
Proof. intros <- s. done. Qed.

Lemma array_short n e : length e = n -> short_read (bind_array n kDeserialize) e.
Proof.
  intros <- o s Hwf Hp Hne. simpl. unfold store. pose proof (prefix_short _ _ Hp Hne).
  rewrite lift_read_short by done. eauto.
Qed.

Lemma bytes_writes v : writes (bind_bytes kSerialize) v v v.
Proof. intros s Hf. simpl. unfold emit. by rewrite lift_write. Qed.

Lemma bytes_counts v : counts (bind_bytes kComputeSize) v (zlen v) v.
Proof. done. Qed.

(** The unsized byte string takes the rest of the stream. *)
Lemma bytes_reads_all o s : wf s ->
  bind_bytes kDeserialize o s = (Success (), unread s, advance (zlen (unread s)) s).
Proof.
  intros Hwf. simpl. unfold store.
  pose proof (lift_read (unread s) [] s Hwf ltac:(by rewrite app_nil_r)) as Hr.
  unfold SDataStream.lift in *. rewrite read_all by done. fold (unread s).
  by rewrite Hr.
Qed.

(** Objects that serialization leaves as they are, member by member. *)
Section unchanged.
Context {T : Type}.

Lemma keeps_writes_then (p q : Ser T) o e1 e2 :
  writes p o e1 o -> writes q o e2 o -> writes (p >>> q) o (e1 ++ e2) o.
Proof. apply writes_then. Qed.

Lemma keeps_counts_then (p q : Ser T) o n1 n2 :
  counts p o n1 o -> counts q o n2 o -> counts (p >>> q) o (n1 + n2) o.
Proof. apply counts_then. Qed.

Lemma keeps_writes_field {F} (get : T -> F) set (b : Ser F) o e :
  set (get o) o = o -> writes b (get o) e (get o) -> writes (on_field get set b) o e o.
Proof. intros E Hw. rewrite <- E at 2. by apply writes_field. Qed.

Lemma keeps_counts_field {F} (get : T -> F) set (b : Ser F) o n :
  set (get o) o = o -> counts b (get o) n (get o) -> counts (on_field get set b) o n o.
Proof. intros E Hw. rewrite <- E at 2. by apply counts_field. Qed.
End unchanged.

(** [reads_all p e u]: as [reads], for the last member of an object, which may
    depend on where the stream ends. *)
Definition reads_all {T} (p : Ser T) (e : Bytes) (u : T -> T) : Prop :=
  forall o s, wf s -> unread s = e -> p o s = (Success (), u o, advance (zlen e) s).

Lemma reads_all_then {T} (p q : Ser T) e1 u1 e2 u2 :
  reads p e1 u1 -> reads_all q e2 u2 -> reads_all (p >>> q) (e1 ++ e2) (λ o, u2 (u1 o)).
Proof.
  intros Hp Hq o s Hwf Hu. unfold ser_then. rewrite (Hp o s _ Hwf Hu).
  rewrite Hq by (by eapply wf_advance || by eapply unread_advance).
  by rewrite advance_advance, zlen_app.
Qed.

Lemma reads_all_ext {T} (p : Ser T) e u u' : reads_all p e u -> (forall o, u o = u' o) -> reads_all p e u'.
Proof. intros Hp Hu o s Hwf E. by rewrite (Hp o s Hwf E), Hu. Qed.

Lemma reads_ext {T} (p : Ser T) e u u' : reads p e u -> (forall o, u o = u' o) -> reads p e u'.
Proof. intros Hp Hu o s rest Hwf E. by rewrite (Hp o s rest Hwf E), Hu. Qed.

Lemma bytes_field_reads_all {T} (get : T -> Bytes) set e :
  reads_all (on_field get set (bind_bytes kDeserialize)) e (set e).
Proof. intros o s Hwf Hu. unfold on_field. by rewrite bytes_reads_all, Hu. Qed.

Lemma reads_reads_all {T} (p : Ser T) e u : reads p e u -> reads_all p e u.
Proof. intros Hp o s Hwf Hu. apply (Hp o s []); [done | by rewrite app_nil_r]. Qed.

Definition bool_bytes (b : bool) : Bytes := [if b then 1 else 0].

Lemma bool_writes v : writes (bind_bool kSerialize) v (bool_bytes v) v.
Proof. intros s Hf. done. Qed.

Lemma bool_reads v : reads (bind_bool kDeserialize) (bool_bytes v) (λ _, v).
Proof.
  intros o s rest Hwf Hu. simpl. unfold store, read_data_bool. rewrite lift_bind. unfold op_bind.
  pose proof (lift_read (bool_bytes v) rest s Hwf Hu) as Hr.
  change (zlen (bool_bytes v)) with 1 in *. rewrite Hr, lift_ret. by destruct v.
Qed.

Lemma bool_counts v : counts (bind_bool kComputeSize) v (zlen (bool_bytes v)) v.
Proof. done. Qed.

Lemma bool_short v : short_read (bind_bool kDeserialize) (bool_bytes v).
Proof.
  intros o s Hwf Hp Hne. simpl. unfold store, read_data_bool. rewrite lift_bind. unfold op_bind.
  rewrite lift_read_short by (done || by apply (prefix_short _ (bool_bytes v))). eauto.
Qed.

(** *** Compact integers *)

(** The canonical encoding: the shortest of the four forms. *)
Definition compact_bytes (v : Z) : Bytes :=
  if v <? 253 then [v]
  else if v <=? 0xFFFF then 253 :: le_bytes 2 v
  else if v <=? 0xFFFFFFFF then 254 :: le_bytes 4 v
  else 255 :: le_bytes 8 v.

Lemma zlen_compact v : zlen (compact_bytes v) = ser_compact_sizeof v.
Proof. unfold compact_bytes, ser_compact_sizeof. case_cmps; zlens; done. Qed.

Lemma compact_bytes_ok v : 0 <= v -> bytes_ok (compact_bytes v).
Proof.
  intros. unfold compact_bytes. case_cmps; (constructor; [unfold is_byte; lia|]); first [apply le_bytes_ok | constructor].
Qed.

Lemma ztake_le_bytes (n m : nat) v : (n <= m)%nat -> ztake (Z.of_nat n) (le_bytes m v) = le_bytes n v.
Proof.
  intros Hn. unfold ztake. rewrite Nat2Z.id. revert v m Hn.
  induction n as [|n IH]; intros v [|m] Hn; try done; [lia|].
  unfold le_bytes; fold le_bytes. cbn [take]. f_equal. apply IH. lia.
Qed.

Lemma append_push e b s :
  append (b :: e) s = append e (SDataStream.set_base (DataStream.push_back b (SDataStream.base s)) s).
Proof.
  unfold append, SDataStream.set_base, DataStream.push_back; simpl. by rewrite <- app_assoc.
Qed.

Lemma write_compact_fits v s : 0 <= v < 2 ^ 64 -> fits s (compact_bytes v) ->
  SDataStream.lift (write_compact v) s = (Success (), append (compact_bytes v) s).
Proof.
  intros Hv Hf. unfold fits in Hf. rewrite zlen_compact in Hf.
  unfold SDataStream.lift, write_compact, compact_bytes.
  assert (Hd : forall b e, zlen e = ser_compact_sizeof v - 1 ->
    (let (r, d) := DataStream.write e (DataStream.push_back b (SDataStream.base s)) in
     (r, SDataStream.set_base d s)) = (Success (), append (b :: e) s)).
  { intros b e He. rewrite write_fits by (unfold DataStream.size, DataStream.push_back in *; simpl; zlens; lia).
    by rewrite append_push. }
  unfold ser_compact_sizeof in *. case_cmps; try lia; simpl (_ =? _); cbn iota;
    try (rewrite <- Hd by (by zlens); change (3 - 1) with (Z.of_nat 2); change (5 - 1) with (Z.of_nat 4);
         change (9 - 1) with (Z.of_nat 8); by rewrite ztake_le_bytes by lia).
  unfold append, DataStream.push_back. do 4 f_equal. unfold le_bytes; simpl.
  rewrite Z.mod_small by lia. done.
Qed.

Lemma le_value_1 b : le_value [b] = b.
Proof. unfold le_value. lia. Qed.

Lemma lift_read_u8 b rest s : wf s -> unread s = b :: rest ->
  SDataStream.lift (read_as uint8_t) s = (Success b, advance 1 s).
Proof.
  intros Hwf Hu. unfold read_as. rewrite (lift_read_data uint8_t [b] rest) by done.
  unfold int_of_bytes; simpl. by rewrite le_value_1.
Qed.

(** The part of [read_compact] that follows a prefix octet. *)
Definition compact_check (rc : bool) (v : Z) : outcome Z :=
  if rc && (kMaxSerializedCompactSize <? v) then Failure (SerError kCompactSizeTooBig) else Success v.

Definition compact_tail (rc : bool) (ty : int_type) (least : Z) (s : SDataStream.t) : outcome Z * SDataStream.t :=
  match SDataStream.lift (read_as ty) s with
  | (Success v, s') =>
      (if v <? least then Failure (SerError kNonCanonicalCompactSize) else compact_check rc v, s')
  | (Failure e, s') => (Failure e, s')
  | (Fault f, s') => (Fault f, s')
  end.

(** [read_compact] as a case analysis of the prefix octet. *)
Definition compact_body (rc : bool) (b : Z) (s : SDataStream.t) : outcome Z * SDataStream.t :=
  if b <? 253 then (compact_check rc b, s)
  else if b =? 253 then compact_tail rc uint16_t 253 s
  else if b =? 254 then compact_tail rc uint32_t 0x10000 s
  else if b =? 255 then compact_tail rc uint64_t 0x100000000 s
  else (compact_check rc 0, s).

Lemma lift_if {A} (b : bool) (m1 m2 : op DataStream.t A) s :
  SDataStream.lift (if b then m1 else m2) s =
  if b then SDataStream.lift m1 s else SDataStream.lift m2 s.
Proof. by destruct b. Qed.

Lemma read_compact_cons rc b rest s : wf s -> unread s = b :: rest ->
  SDataStream.lift (read_compact rc) s = compact_body rc b (advance 1 s).
Proof.
  intros Hwf Hu. unfold read_compact, compact_body. cbv zeta. rewrite lift_bind. unfold op_bind at 1.
  rewrite (lift_read_u8 b rest) by done.
  assert (Hc : forall v s', SDataStream.lift
    (if rc && (kMaxSerializedCompactSize <? v) then op_fail (SerError kCompactSizeTooBig) else op_ret v) s'
    = (compact_check rc v, s')).
  { intros v s'. unfold compact_check. rewrite lift_if. by destruct (_ && _); rewrite ?lift_fail, ?lift_ret. }
  assert (Ht : forall ty least s', SDataStream.lift (v <~ read_as ty;;
    if v <? least then op_fail (SerError kNonCanonicalCompactSize)
    else if rc && (kMaxSerializedCompactSize <? v) then op_fail (SerError kCompactSizeTooBig) else op_ret v) s'
    = compact_tail rc ty least s').
  { intros ty least s'. rewrite lift_bind. unfold op_bind, compact_tail.
    destruct (SDataStream.lift (read_as ty) s') as [[v| |] s'']; [|done..].
    destruct (v <? least); [by rewrite lift_fail | apply Hc]. }
  destruct (b <? 253); [apply Hc|]. destruct (b =? 253); [apply Ht|].
  destruct (b =? 254); [apply Ht|]. destruct (b =? 255); [apply Ht | apply Hc].
Qed.

Lemma compact_tail_ok rc ty v rest s : wf s -> (0 < ssizeof ty)%nat -> in_range ty v ->
  unread s = int_bytes ty v ++ rest -> forall least, least <= v ->
  compact_tail rc ty least s = (compact_check rc v, advance (Z.of_nat (ssizeof ty)) s).
Proof.
  intros Hwf Hs Hr Hu least Hl. unfold compact_tail, read_as.
  rewrite (lift_read_data ty _ rest) by (done || apply length_int_bytes).
  rewrite int_roundtrip, length_int_bytes by done. by case_cmp; [lia|].
Qed.

Lemma unread_cons b rest s : wf s -> unread s = b :: rest -> wf (advance 1 s) /\ unread (advance 1 s) = rest.
Proof.
  intros Hwf Hu. split.
  - by apply (wf_advance [b] rest).
  - by apply (unread_advance [b] rest).
Qed.

(** Reading a canonical encoding gives the value back. *)
Lemma read_compact_ok rc v rest s : wf s -> 0 <= v < 2 ^ 64 ->
  unread s = compact_bytes v ++ rest ->
  SDataStream.lift (read_compact rc) s = (compact_check rc v, advance (ser_compact_sizeof v) s).
Proof.
  intros Hwf Hv Hu. unfold ser_compact_sizeof, compact_bytes in *.
  case_cmps; simpl in Hu; rewrite (read_compact_cons rc _ _ s Hwf Hu); unfold compact_body;
    destruct (unread_cons _ _ s Hwf Hu) as [Hwf' Hu']; simpl (_ <? _); simpl (_ =? _); cbn iota.
  - by case_cmp; [|lia].
  - rewrite (compact_tail_ok rc uint16_t v rest), advance_advance by
      (try done; unfold in_range, bits; simpl; lia). done.
  - rewrite (compact_tail_ok rc uint32_t v rest), advance_advance by
      (try done; unfold in_range, bits; simpl; lia). done.
  - rewrite (compact_tail_ok rc uint64_t v rest), advance_advance by
      (try done; unfold in_range, bits; simpl; lia). done.
Qed.

(** The octets that follow are read as an integer or the stream is too short. *)
Lemma read_as_cases ty s : wf s -> bytes_ok (unread s) ->
  (exists e rest, unread s = e ++ rest /\ length e = ssizeof ty /\ bytes_ok e /\
     SDataStream.lift (read_as ty) s = (Success (int_of_bytes ty e), advance (Z.of_nat (ssizeof ty)) s)) \/
  (zlen (unread s) < Z.of_nat (ssizeof ty) /\
     SDataStream.lift (read_as ty) s = (Failure (SerError kReadOverflow), s)).
Proof.
  intros Hwf Hok. destruct (Z.le_gt_cases (Z.of_nat (ssizeof ty)) (zlen (unread s))) as [Hl|Hl].
  - left. exists (take (ssizeof ty) (unread s)), (drop (ssizeof ty) (unread s)).
    assert (length (take (ssizeof ty) (unread s)) = ssizeof ty) as Hlen by (rewrite length_take; lia).
    split_and!; [by rewrite take_drop | done | by apply Forall_take |].
    unfold read_as. rewrite (lift_read_data ty _ (drop (ssizeof ty) (unread s))) by
      (by rewrite ?take_drop). by rewrite Hlen.
  - right. split; [done|]. by apply lift_read_data_short.
Qed.

Lemma compact_check_inv rc v w : compact_check rc v = Success w ->
  w = v /\ (rc = true -> v <= kMaxSerializedCompactSize).
Proof.
  unfold compact_check. intros H.
  destruct rc; simpl in H; [|by simplify_eq]. case_cmp_in H; simplify_eq. split; [done | lia].
Qed.

Lemma compact_tail_inv rc ty least v s s' : is_signed ty = false -> wf s -> bytes_ok (unread s) ->
  compact_tail rc ty least s = (Success v, s') ->
  exists rest, unread s = int_bytes ty v ++ rest /\ s' = advance (Z.of_nat (ssizeof ty)) s /\
    least <= v < 2 ^ bits ty /\ (rc = true -> v <= kMaxSerializedCompactSize).
Proof.
  intros Hty Hwf Hok Ht. unfold compact_tail in Ht.
  destruct (read_as_cases ty s Hwf Hok) as [(e & rest & Hu & Hl & He & Hr)|[_ Hr]];
    rewrite Hr in Ht; [|done].
  injection Ht as Hc <-. case_cmp_in Hc; [done|].
  apply compact_check_inv in Hc as [-> Hmax]. unfold int_of_bytes in *. rewrite Hty in *.
  exists rest. split_and!; try done.
  - unfold int_bytes. by rewrite le_bytes_le_value.
  - rewrite bits_pow, <- Hl. by apply le_value_bound.
Qed.

(** A successful read has consumed a canonical encoding of its result. *)
Lemma read_compact_inv rc v s s' : wf s -> bytes_ok (unread s) ->
  SDataStream.lift (read_compact rc) s = (Success v, s') ->
  exists rest, unread s = compact_bytes v ++ rest /\ s' = advance (ser_compact_sizeof v) s /\
    0 <= v < 2 ^ 64 /\ (rc = true -> v <= kMaxSerializedCompactSize).
Proof.
  intros Hwf Hok Hr. destruct (unread s) as [|b t] eqn:Hu.
  { unfold read_compact in Hr. cbv zeta in Hr. rewrite lift_bind in Hr. unfold op_bind, read_as in Hr.
    rewrite lift_read_data_short in Hr by (try done; rewrite Hu; done). done. }
  rewrite (read_compact_cons rc b t s Hwf Hu) in Hr. inversion_clear Hok as [|? ? Hb Ht].
  destruct (unread_cons b t s Hwf Hu) as [Hwf' Hu']. unfold compact_body in Hr. unfold is_byte in Hb.
  assert (Ht' : bytes_ok (unread (advance 1 s))) by (by rewrite Hu').
  unfold compact_bytes, ser_compact_sizeof.
  case_cmp_in Hr; [|case_cmp_in Hr; [|case_cmp_in Hr; [|case_cmp_in Hr; [|lia]]]].
  - injection Hr as Hc <-. apply compact_check_inv in Hc as [-> ?]. exists t.
    case_cmp; [|lia]. split_and!; (done || lia).
  - apply compact_tail_inv in Hr as (rest & Hi & -> & Hv & ?); [|done..]. exists rest.
    unfold bits in Hv; simpl in Hv. case_cmps; try lia. rewrite advance_advance. subst b.
    rewrite Hu' in Hi. rewrite Hi. split_and!; (done || lia).
  - apply compact_tail_inv in Hr as (rest & Hi & -> & Hv & ?); [|done..]. exists rest.
    unfold bits in Hv; simpl in Hv. case_cmps; try lia. rewrite advance_advance. subst b.
    rewrite Hu' in Hi. rewrite Hi. split_and!; (done || lia).
  - apply compact_tail_inv in Hr as (rest & Hi & -> & Hv & ?); [|done..]. exists rest.
    unfold bits in Hv; simpl in Hv. case_cmps; try lia. rewrite advance_advance. subst b.
    rewrite Hu' in Hi. rewrite Hi. split_and!; (done || lia).
Qed.

Lemma compact_tail_short rc ty least s : wf s -> zlen (unread s) < Z.of_nat (ssizeof ty) ->
  compact_tail rc ty least s = (Failure (SerError kReadOverflow), s).
Proof. intros. unfold compact_tail, read_as. by rewrite lift_read_data_short. Qed.

Lemma read_compact_short rc v s : wf s -> unread s `prefix_of` compact_bytes v ->
  unread s <> compact_bytes v ->
  exists s', SDataStream.lift (read_compact rc) s = (Failure (SerError kReadOverflow), s').
Proof.
  intros Hwf Hp Hne. pose proof (prefix_short _ _ Hp Hne) as Hl. destruct (unread s) as [|b t] eqn:Hu.
  { exists s. unfold read_compact. cbv zeta. rewrite lift_bind. unfold op_bind, read_as.
    by rewrite lift_read_data_short by (try done; rewrite Hu; done). }
  rewrite (read_compact_cons rc b t s Hwf Hu). destruct (unread_cons b t s Hwf Hu) as [Hwf' Hu'].
  exists (advance 1 s). unfold compact_bytes in *. destruct Hp as [k Hk].
  clear Hne Hu. revert Hk Hl. generalize dependent (advance 1 s). intros s' Hwf' Hu'.
  case_cmps; intros Hk Hl; simplify_list_eq; zlens; try lia;
    unfold compact_body; simpl; by apply compact_tail_short; [|simpl; lia].
Qed.

(** An encoding longer than needed. *)
Lemma long_form rc b ty least v rest s : wf s -> unread s = b :: int_bytes ty v ++ rest ->
  is_signed ty = false -> (0 < ssizeof ty)%nat -> 0 <= v < least -> least <= 2 ^ bits ty ->
  (forall s', compact_body rc b s' = compact_tail rc ty least s') ->
  (SDataStream.lift (read_compact rc) s).1 = Failure (SerError kNonCanonicalCompactSize).
Proof.
  intros Hwf Hu Hty Hs Hv Hb Hc. rewrite (read_compact_cons rc b _ s Hwf Hu), Hc.
  destruct (unread_cons b _ s Hwf Hu) as [Hwf' Hu']. unfold compact_tail, read_as.
  rewrite (lift_read_data ty _ rest) by (done || apply length_int_bytes).
  rewrite int_roundtrip by (try done; unfold in_range; rewrite Hty; lia). by case_cmp; [|lia].
Qed.

(** *** Strings *)

Definition string_bytes (v : Bytes) : Bytes := compact_bytes (zlen v) ++ v.

Definition string_ok (v : Bytes) : Prop := zlen v <= kMaxSerializedCompactSize.

Lemma zlen_lt_64 (v : Bytes) : string_ok v -> 0 <= zlen v < 2 ^ 64.
Proof. unfold string_ok, kMaxSerializedCompactSize. lia. Qed.

Lemma string_writes v : string_ok v -> writes (bind_string kSerialize) v (string_bytes v) v.
Proof.
  intros Hv s Hf. simpl. unfold emit. rewrite lift_bind. unfold op_bind.
  rewrite write_compact_fits by (by apply zlen_lt_64 || by eapply fits_app_l).
  rewrite lift_write by (by apply fits_append). by rewrite append_append.
Qed.

Lemma compact_check_ok rc v : v <= kMaxSerializedCompactSize -> compact_check rc v = Success v.
Proof. intros. unfold compact_check. case_cmp; [lia|]. by rewrite andb_false_r. Qed.

Lemma string_reads v : string_ok v -> reads (bind_string kDeserialize) (string_bytes v) (λ _, v).
Proof.
  intros Hv o s rest Hwf Hu. unfold string_bytes in Hu. rewrite <- app_assoc in Hu.
  simpl. unfold store. rewrite lift_bind. unfold op_bind.
  rewrite (read_compact_ok true (zlen v) (v ++ rest)) by (done || by apply zlen_lt_64).
  rewrite compact_check_ok by done. rewrite <- zlen_compact.
  rewrite (lift_read v rest) by (by eapply wf_advance || by eapply unread_advance).
  by rewrite advance_advance, <- zlen_app.
Qed.

Lemma string_counts v : counts (bind_string kComputeSize) v (zlen (string_bytes v)) v.
Proof. intros s. simpl. unfold count_size, string_bytes. by rewrite zlen_app, zlen_compact. Qed.

Lemma string_short v : string_ok v -> short_read (bind_string kDeserialize) (string_bytes v).
Proof.
  intros Hv o s Hwf Hp Hne. simpl. unfold store. rewrite lift_bind. unfold op_bind.
  apply prefix_app_cases in Hp as [[? ?]|(r & Hu & Hr)].
  - destruct (read_compact_short true (zlen v) s) as [s' ->]; eauto.
  - rewrite (read_compact_ok true (zlen v) r) by (done || by apply zlen_lt_64).
    rewrite compact_check_ok, <- zlen_compact by done.
    rewrite lift_read_short; [eauto | by eapply wf_advance |].
    rewrite (unread_advance _ r) by done. apply prefix_short; [done|].
    intros ->. unfold string_bytes in *. congruence.
Qed.

(** *** Types of Boost *)

Section boost.
Context `{BoostLaws}.

Definition big_bytes (n : nat) (v : Z) : Bytes := export_bits v ++ replicate (n - length (export_bits v)) 0.

Lemma length_big_bytes n v : (0 < n)%nat -> 0 <= v < 256 ^ Z.of_nat n -> length (big_bytes n v) = n.
Proof.
  intros Hn Hv. pose proof (export_length n v Hv Hn). unfold big_bytes.
  rewrite length_app, length_replicate. lia.
Qed.

Lemma big_writes n v : (0 < n)%nat -> 0 <= v < 256 ^ Z.of_nat n ->
  writes (bind_big n kSerialize) v (big_bytes n v) v.
Proof.
  intros Hn Hv s Hf. simpl. unfold emit. rewrite decide_True by (by apply export_length).
  by rewrite lift_write.
Qed.

Lemma big_counts n v : (0 < n)%nat -> 0 <= v < 256 ^ Z.of_nat n ->
  counts (bind_big n kComputeSize) v (zlen (big_bytes n v)) v.
Proof. intros Hn Hv s. simpl. unfold count_size. by rewrite length_big_bytes. Qed.

Lemma be_value_app bs cs : be_value (bs ++ cs) = be_value bs * 256 ^ zlen cs + be_value cs.
Proof.
  induction bs as [|b bs IH]; [done|].
  rewrite <- app_comm_cons, !be_value_cons, IH. zlens. rewrite Z.pow_add_r by lia. lia.
Qed.

Lemma be_value_zeros n : be_value (replicate n 0) = 0.
Proof.
  induction n as [|n IH]; [done|]. cbn [replicate]. rewrite be_value_cons, IH. lia.
Qed.

(** What is read back: the value is shifted left by the octets the export did
    not need. *)
Definition big_decoded (n : nat) (v : Z) : Z := v * 256 ^ Z.of_nat (n - length (export_bits v)).

Lemma big_reads n v : (0 < n)%nat -> 0 <= v < 256 ^ Z.of_nat n ->
  reads (bind_big n kDeserialize) (big_bytes n v) (λ _, big_decoded n v).
Proof.
  intros Hn Hv o s rest Hwf Hu. simpl. unfold store.
  pose proof (lift_read _ rest s Hwf Hu) as Hr. rewrite length_big_bytes in Hr by done.
  rewrite Hr, length_big_bytes by done. f_equal. f_equal.
  unfold big_bytes, big_decoded. rewrite import_value.
  - rewrite be_value_app, be_value_zeros, length_replicate, export_value by lia. f_equal. lia.
  - apply bytes_ok_app. split; [apply export_ok; lia|].
    apply Forall_replicate. unfold is_byte. lia.
Qed.

Lemma big_decoded_id n v : (0 < n)%nat -> 0 <= v < 256 ^ Z.of_nat n ->
  big_decoded n v = v <-> v = 0 \/ length (export_bits v) = n.
Proof.
  intros Hn Hv. unfold big_decoded. pose proof (export_length n v Hv Hn). split.
  - intros Heq. destruct (Z.eq_dec v 0); [by left|right].
    destruct (decide (length (export_bits v) = n)) as [|Hne]; [done|exfalso].
    assert (1 < 256 ^ Z.of_nat (n - length (export_bits v))) by (apply Z.pow_gt_1; lia). nia.
  - intros [->| ->]; [lia|]. rewrite Nat.sub_diag. lia.
Qed.

Definition addr_bytes (a : address) : Bytes :=
  match a with V4 b => replicate 10 0 ++ [255; 255] ++ b | V6 b => b end.

(** What is read back: an IPv6 address whose first eight octets are zero comes
    back as an IPv4 address. *)
Definition addr_decoded (a : address) : address :=
  match a with
  | V4 b => V4 b
  | V6 b => if le_value (take 8 b) =? 0 then V4 (drop 12 b) else V6 b
  end.

Lemma length_addr_bytes a : address_ok a -> length (addr_bytes a) = 16%nat.
Proof. destruct a as [b|b]; simpl; intros [? Hl]; simpl; by rewrite ?Hl. Qed.

Lemma addr_writes a : writes (bind_address kSerialize) a (addr_bytes a) a.
Proof.
  intros s Hf. simpl. unfold emit.
  replace (match a with V4 b => v4_mapped b | V6 b => b end) with (addr_bytes a)
    by (destruct a; simpl; by rewrite ?v4_mapped_bytes).
  by rewrite lift_write.
Qed.

Lemma addr_counts a : address_ok a -> counts (bind_address kComputeSize) a (zlen (addr_bytes a)) a.
Proof. intros Ha s. by rewrite length_addr_bytes. Qed.

Lemma addr_reads a : address_ok a -> reads (bind_address kDeserialize) (addr_bytes a) (λ _, addr_decoded a).
Proof.
  intros Ha o s rest Hwf Hu. simpl. unfold store.
  pose proof (lift_read _ rest s Hwf Hu) as Hr. rewrite length_addr_bytes in Hr by done.
  change (Z.of_nat 16) with 16 in Hr. rewrite Hr, length_addr_bytes by done. by destruct a as [b|b].
Qed.

Lemma addr_short a : address_ok a -> short_read (bind_address kDeserialize) (addr_bytes a).
Proof.
  intros Ha o s Hwf Hp Hne. simpl. unfold store. pose proof (prefix_short _ _ Hp Hne) as Hl.
  rewrite length_addr_bytes in Hl by done. rewrite lift_read_short by done. eauto.
Qed.
End boost.

#[export] Hint Resolve writes_then reads_then counts_then short_read_then writes_field reads_field
  counts_field short_read_field integral_writes integral_counts array_writes bytes_writes bytes_counts
  bool_writes bool_reads bool_counts bool_short string_counts : znode.

(** Decomposes the (de)serialization of an object into that of its members. *)
Ltac writes_members := repeat apply keeps_writes_then; (apply keeps_writes_field; [done|]).
Ltac counts_members := repeat apply keeps_counts_then; (apply keeps_counts_field; [done|]).
Ltac reads_member lem := eapply reads_all_then; [apply reads_field, lem|].

End Laws.

(** ** Properties *)

Module SerializeTheorems.
Import Laws.

Lemma wf_append e s : wf s -> fits s e -> wf (append e s).
Proof.
  unfold wf, fits, append, DataStreamFacts.wf, DataStream.size, kMaxStreamSize; simpl.
  intros [? ?] ?. zlens. lia.
Qed.

Lemma unread_append e s : wf s -> unread (append e s) = unread s ++ e.
Proof. intros. unfold unread, append; simpl. by rewrite DataStreamFacts.unread_app. Qed.

(** Serializing into an empty stream and deserializing from it again. *)
Lemma roundtrip_of_laws {T} (ser : Action -> Ser T) o e o' u o0 s :
  writes (ser kSerialize) o e o' -> reads (ser kDeserialize) e u ->
  wf s -> unread s = [] -> fits s e ->
  exists s1 s2, ser kSerialize o s = (Success (), o', s1) /\
    ser kDeserialize o0 s1 = (Success (), u o0, s2) /\ unread s2 = [].
Proof.
  intros Hw Hr Hwf Hu Hf. exists (append e s), (advance (zlen e) (append e s)).
  assert (Hu' : unread (append e s) = e ++ []) by (by rewrite unread_append, Hu, app_nil_r).
  split; [by apply Hw|]. pose proof (wf_append e s Hwf Hf).
  split; [by apply (Hr o0 _ []) | by apply Laws.unread_advance].
Qed.

(** A compact integer written to an exhausted stream is read back, whatever
    form it takes, and nothing is left unread; with the range check the value
    must not exceed the allowed maximum. *)
Theorem compact_roundtrip (rc : bool) (v : Z) (s : SDataStream.t) :
  0 <= v < 2 ^ 64 -> (rc = true -> v <= kMaxSerializedCompactSize) ->
  wf s -> unread s = [] -> fits s (compact_bytes v) ->
  exists s1 s2, SDataStream.lift (write_compact v) s = (Success (), s1) /\
    SDataStream.lift (read_compact rc) s1 = (Success v, s2) /\ unread s2 = [].
Proof.
  intros Hv Hrc Hwf Hu Hf. exists (append (compact_bytes v) s).
  exists (advance (zlen (compact_bytes v)) (append (compact_bytes v) s)).
  pose proof (wf_append _ s Hwf Hf).
  assert (Hu' : unread (append (compact_bytes v) s) = compact_bytes v ++ [])
    by (by rewrite unread_append, Hu, app_nil_r).
  split; [by apply write_compact_fits|]. split; [|by apply Laws.unread_advance].
  rewrite (read_compact_ok rc v []), zlen_compact by done.
  destruct rc; [by rewrite compact_check_ok by auto | done].
Qed.

Lemma compact_roundtrip_witness :
  exists s1 s2, SDataStream.lift (write_compact 70000) (SDataStream.make kNetwork 0) = (Success (), s1) /\
    SDataStream.lift (read_compact true) s1 = (Success 70000, s2) /\ unread s2 = [].
Proof. apply (compact_roundtrip true 70000 (SDataStream.make kNetwork 0)); by vm_compute. Defined.

(** C17: Compact integers are read in canonical form only: whatever octets a
    stream holds, a value that is read successfully took exactly its shortest
    encoding, so writing it again reproduces the octets consumed; and it
    respects the range check. *)
Theorem compact_canonical (rc : bool) (v : Z) (s s' : SDataStream.t) :
  wf s -> bytes_ok (unread s) -> SDataStream.lift (read_compact rc) s = (Success v, s') ->
  unread s = compact_bytes v ++ unread s' /\ zlen (compact_bytes v) = ser_compact_sizeof v /\
  (rc = true -> v <= kMaxSerializedCompactSize) /\
  (forall w, fits w (compact_bytes v) ->
    SDataStream.lift (write_compact v) w = (Success (), append (compact_bytes v) w)).
Proof.
  intros Hwf Hok Hr. apply read_compact_inv in Hr as (rest & Hu & -> & Hv & Hmax); [|done..].
  rewrite <- zlen_compact, (Laws.unread_advance _ rest) by done.
  split_and!; try done. intros w Hw. by apply write_compact_fits.
Qed.

Lemma compact_canonical_witness :
  let s := SDataStream.of_bytes [253; 0; 1; 9] kNetwork 0 in
  exists s', SDataStream.lift (read_compact true) s = (Success 256, s') /\
    unread s = compact_bytes 256 ++ unread s'.
Proof.
  intros s. eexists. split; [by vm_compute|].
  eapply (compact_canonical true 256 s); [by vm_compute | repeat constructor; by vm_compute | by vm_compute].
Defined.

(** A value above the maximum is refused when the range check is on, and
    an encoding longer than needed is refused as not canonical, whether or not
    the range is checked. *)
Theorem compact_rejects (rc : bool) (v : Z) (rest : Bytes) (s : SDataStream.t) :
  wf s ->
  (unread s = compact_bytes v ++ rest -> kMaxSerializedCompactSize < v < 2 ^ 64 ->
    (SDataStream.lift (read_compact true) s).1 = Failure (SerError kCompactSizeTooBig)) /\
  (unread s = 253 :: le_bytes 2 v ++ rest -> 0 <= v < 253 ->
    (SDataStream.lift (read_compact rc) s).1 = Failure (SerError kNonCanonicalCompactSize)) /\
  (unread s = 254 :: le_bytes 4 v ++ rest -> 0 <= v <= 0xFFFF ->
    (SDataStream.lift (read_compact rc) s).1 = Failure (SerError kNonCanonicalCompactSize)) /\
  (unread s = 255 :: le_bytes 8 v ++ rest -> 0 <= v <= 0xFFFFFFFF ->
    (SDataStream.lift (read_compact rc) s).1 = Failure (SerError kNonCanonicalCompactSize)).
Proof.
  intros Hwf. split_and!; intros Hu Hv.
  - rewrite (read_compact_ok true v rest) by (done || unfold kMaxSerializedCompactSize in *; lia).
    unfold compact_check. by case_cmp; [|lia].
  - apply (long_form rc 253 uint16_t 253 v rest); first [done | unfold bits; simpl; lia].
  - apply (long_form rc 254 uint32_t 0x10000 v rest); first [done | unfold bits; simpl; lia].
  - apply (long_form rc 255 uint64_t 0x100000000 v rest); first [done | unfold bits; simpl; lia].
Qed.

Lemma compact_rejects_witness :
  (SDataStream.lift (read_compact true) (SDataStream.of_bytes [254; 1; 0; 0; 2] kNetwork 0)).1
    = Failure (SerError kCompactSizeTooBig) /\
  (SDataStream.lift (read_compact false) (SDataStream.of_bytes [253; 7; 0] kNetwork 0)).1
    = Failure (SerError kNonCanonicalCompactSize).
Proof.
  split.
  - destruct (compact_rejects true 0x2000001 [] (SDataStream.of_bytes [254; 1; 0; 0; 2] kNetwork 0)) as (H & _);
      [by vm_compute | apply H; by vm_compute].
  - destruct (compact_rejects false 7 [] (SDataStream.of_bytes [253; 7; 0] kNetwork 0)) as (_ & H & _);
      [by vm_compute | apply H; by vm_compute].
Defined.

Section boost.
Context `{BoostLaws}.

(** An address survives serialization exactly when it is an IPv4 address,
    or an IPv6 address whose first eight octets are not all zero: IPv6
    addresses of ::/64, the loopback address among them, come back as IPv4
    addresses. *)
Theorem address_roundtrip (a o0 : address) (s : SDataStream.t) :
  address_ok a -> wf s -> unread s = [] -> fits s (addr_bytes a) ->
  exists s1 s2 a', bind_address kSerialize a s = (Success (), a, s1) /\
    bind_address kDeserialize o0 s1 = (Success (), a', s2) /\ unread s2 = [] /\
    (a' = a <-> is_v4 a = true \/ le_value (take 8 (to_bytes a)) <> 0).
Proof.
  intros Ha Hwf Hu Hf.
  destruct (roundtrip_of_laws bind_address a (addr_bytes a) a (λ _, addr_decoded a) o0 s)
    as (s1 & s2 & H1 & H2 & H3); auto using addr_writes, addr_reads.
  exists s1, s2, (addr_decoded a). split_and!; try done.
  destruct a as [b|b]; simpl; [tauto|]. case_cmp; split; intros ?; (done || tauto || intuition done).
Qed.

(** A big unsigned integer survives serialization exactly when it is zero
    or its export fills the whole array: shorter exports are read back shifted
    to the left. *)
Theorem big_roundtrip (n : nat) (v o0 : Z) (s : SDataStream.t) :
  (0 < n)%nat -> 0 <= v < 256 ^ Z.of_nat n -> wf s -> unread s = [] -> fits s (big_bytes n v) ->
  exists s1 s2 v', bind_big n kSerialize v s = (Success (), v, s1) /\
    bind_big n kDeserialize o0 s1 = (Success (), v', s2) /\ unread s2 = [] /\
    (v' = v <-> v = 0 \/ length (export_bits v) = n).
Proof.
  intros Hn Hv Hwf Hu Hf.
  destruct (roundtrip_of_laws (bind_big n) v (big_bytes n v) v (λ _, big_decoded n v) o0 s)
    as (s1 & s2 & H1 & H2 & H3); auto using big_writes, big_reads.
  exists s1, s2, (big_decoded n v). split_and!; try done. by apply big_decoded_id.
Qed.
End boost.

Lemma big_roundtrip_witness :
  exists s1 s2 v', @bind_big model_boost 32 kSerialize 1 (SDataStream.make kNetwork 0) = (Success (), 1, s1) /\
    @bind_big model_boost 32 kDeserialize 0 s1 = (Success (), v', s2) /\ unread s2 = [] /\ v' <> 1.
Proof.
  destruct (@big_roundtrip model_boost model_boost_laws 32 1 0 (SDataStream.make kNetwork 0))
    as (s1 & s2 & v' & H1 & H2 & H3 & H4).
  - lia.
  - by vm_compute.
  - by vm_compute.
  - by vm_compute.
  - by vm_compute.
  - exists s1, s2, v'. split_and!; try done. intros E. apply H4 in E as [E|E]; by vm_compute in E.
Defined.

End SerializeTheorems.
