(* ===== verification/Hex.v ===== *)
(** * Hexadecimal encoding

    Model of [src/src/core/encoding/hex.cpp] and [hex.hpp]: the two look-up
    tables, the encoder, and the decoder with its loop unrolled over eight
    characters. *)

From S2P Require Import Prelude.

Definition kHexDigits : Bytes := str "0123456789abcdef".

(** ASCII to value of the digit; 0xff is a bad character. *)
Definition kUnhexTable : list Z :=
  replicate 48 0xff ++ [0; 1; 2; 3; 4; 5; 6; 7; 8; 9] ++ replicate 7 0xff ++
  [0x0a; 0x0b; 0x0c; 0x0d; 0x0e; 0x0f] ++ replicate 26 0xff ++
  [0x0a; 0x0b; 0x0c; 0x0d; 0x0e; 0x0f] ++ replicate 153 0xff.

(** The same, shifted to the upper nibble. *)
Definition kUnhexTable4 : list Z :=
  replicate 48 0xff ++ [0; 0x10; 0x20; 0x30; 0x40; 0x50; 0x60; 0x70; 0x80; 0x90] ++ replicate 7 0xff ++
  [0xa0; 0xb0; 0xc0; 0xd0; 0xe0; 0xf0] ++ replicate 26 0xff ++
  [0xa0; 0xb0; 0xc0; 0xd0; 0xe0; 0xf0] ++ replicate 153 0xff.

Definition unhex (c : Z) : Z := default 0xff (kUnhexTable !! Z.to_nat c).
Definition unhex4 (c : Z) : Z := default 0xff (kUnhexTable4 !! Z.to_nat c).

Definition digit (n : Z) : Z := default 0 (kHexDigits !! Z.to_nat n).

Definition has_prefix (source : Bytes) : bool :=
  match source with
  | c0 :: c1 :: _ => (c0 =? 48) && ((c1 =? 120) || (c1 =? 88))
  | _ => false
  end.

Definition prefix_0x : Bytes := str "0x".

(** The loop of [encode]. *)
Fixpoint encode_loop (bytes : Bytes) : Bytes :=
  match bytes with
  | [] => []
  | b :: bytes => digit (Z.shiftr b 4) :: digit (Z.land b 0x0f) :: encode_loop bytes
  end.

Definition encode (bytes : Bytes) (with_prefix : bool) : Bytes :=
  (if with_prefix then prefix_0x else []) ++ encode_loop bytes.

(** The second loop of [decode]: one octet for each pair of characters. *)
Fixpoint decode_pairs (src : Bytes) : outcome Bytes :=
  match src with
  | c0 :: c1 :: src =>
      let a := unhex4 c0 in
      let b := unhex c1 in
      if (a =? 0xff) || (b =? 0xff) then Failure (EncError kIllegalHexDigit)
      else let? out := decode_pairs src in Success (Z.lor a b :: out)
  | _ => Success []
  end.

(** The unrolled loop, then the second one. *)
Fixpoint decode_unrolled (src : Bytes) : outcome Bytes :=
  match src with
  | c0 :: c1 :: c2 :: c3 :: c4 :: c5 :: c6 :: c7 :: rest =>
      let a := unhex4 c0 in let b := unhex c1 in
      let c := unhex4 c2 in let d := unhex c3 in
      let e := unhex4 c4 in let f := unhex c5 in
      let g := unhex4 c6 in let h := unhex c7 in
      if (Z.lor (Z.lor (Z.lor b d) f) h =? 0xff) || (Z.lor (Z.lor (Z.lor a c) e) g =? 0xff)
      then Failure (EncError kIllegalHexDigit)
      else let? out := decode_unrolled rest in
           Success (Z.lor a b :: Z.lor c d :: Z.lor e f :: Z.lor g h :: out)
  | _ => decode_pairs src
  end.

Definition decode (hex_str : Bytes) : outcome Bytes :=
  let hex_str := if has_prefix hex_str then drop 2 hex_str else hex_str in
  match hex_str with
  | [] => Success []
  | c :: tail =>
      if Z.odd (zlen hex_str) then
        let b := unhex c in
        if b =? 0xff then Failure (EncError kIllegalHexDigit)
        else let? out := decode_unrolled tail in Success (b :: out)
      else decode_unrolled hex_str
  end.

Definition decode_digit (input : Z) : outcome Z :=
  let value := unhex input in
  if value =? 0xff then Failure (EncError kIllegalHexDigit) else Success value.

(** The loop of [reverse_hex] takes pairs from the end of its input; the input
    is given reversed, so that it is read from the front. *)
Fixpoint reverse_pairs (rev_input : Bytes) : Bytes :=
  match rev_input with
  | y :: x :: rest => x :: y :: reverse_pairs rest
  | [x] => [48; x]
  | [] => []
  end.

Definition reverse_hex (input : Bytes) : Bytes :=
  if has_prefix input then prefix_0x ++ reverse_pairs (rev (drop 2 input))
  else reverse_pairs (rev input).

Fixpoint zeroless_view (data : Bytes) : Bytes :=
  match data with
  | 0 :: data => zeroless_view data
  | _ => data
  end.

(** [encode] of an unsigned integral of [n] octets. *)
Definition encode_integral (n : nat) (value : Z) (with_prefix : bool) : Bytes :=
  let bytes := be_bytes n value in
  let hexed := encode (zeroless_view bytes) with_prefix in
  if zlen hexed =? (if with_prefix then 2 else 0) then hexed ++ str "00" else hexed.

(** ** Reference decoder *)

(** Value of one hexadecimal digit. *)
Definition hex_value (c : Z) : option Z :=
  if (48 <=? c) && (c <=? 57) then Some (c - 48)
  else if (65 <=? c) && (c <=? 70) then Some (c - 55)
  else if (97 <=? c) && (c <=? 102) then Some (c - 87)
  else None.

Fixpoint ref_pairs (src : Bytes) : option Bytes :=
  match src with
  | c0 :: c1 :: src =>
      match hex_value c0, hex_value c1, ref_pairs src with
      | Some hi, Some lo, Some out => Some (16 * hi + lo :: out)
      | _, _, _ => None
      end
  | _ => Some []
  end.

(** Optional prefix, an implied leading zero when the count of digits is odd,
    then two digits for each octet. *)
Definition ref_decode (hex_str : Bytes) : option Bytes :=
  let s := if has_prefix hex_str then drop 2 hex_str else hex_str in
  ref_pairs (if Z.odd (zlen s) then 48 :: s else s).

Module HexTheorems.

(** *** The tables *)

Lemma table_row c : is_byte c ->
  match hex_value c with
  | Some v => unhex c = v /\ unhex4 c = 16 * v /\ 0 <= v < 16
  | None => unhex c = 0xff /\ unhex4 c = 0xff
  end.
Proof.
  intros Hc.
  pose proof (check_range (λ c, match hex_value c with
    | Some v => (unhex c =? v) && (unhex4 c =? 16 * v) && (0 <=? v) && (v <? 16)
    | None => (unhex c =? 0xff) && (unhex4 c =? 0xff) end) 0 256 ltac:(by vm_compute) c Hc) as H.
  cbv beta in H. destruct (hex_value c); prop_bools; lia.
Qed.

(** Looking up the digits of an octet. *)
Lemma digit_value n : 0 <= n < 16 -> hex_value (digit n) = Some n /\ is_byte (digit n).
Proof.
  intros Hn.
  pose proof (check_range (λ n, bool_decide (hex_value (digit n) = Some n) && bool_decide (is_byte (digit n)))
    0 16 ltac:(by vm_compute) n Hn) as H.
  cbv beta in H. by prop_bools.
Qed.

Lemma nibbles b : is_byte b ->
  0 <= Z.shiftr b 4 < 16 /\ 0 <= Z.land b 0x0f < 16 /\ 16 * Z.shiftr b 4 + Z.land b 0x0f = b.
Proof.
  intros Hb. change 0x0f with (Z.ones 4). rewrite Z.land_ones, Z.shiftr_div_pow2 by lia.
  change (2 ^ 4) with 16. unfold is_byte in Hb. pose proof (Z.div_mod b 16). pose proof (Z.mod_pos_bound b 16).
  split_and!; try lia. all: (apply Z.div_pos || apply Z.div_lt_upper_bound); lia.
Qed.

(** Entries of the tables: a nibble in its place, or 0xff. *)
Definition is_low (x : Z) : bool := (0 <=? x) && (x <? 16) || (x =? 0xff).
Definition is_high (x : Z) : bool := (0 <=? x) && (x <? 256) && (x mod 16 =? 0) || (x =? 0xff).

Definition lor_facts (x y : Z) : bool :=
  implb (is_low x && is_low y)
    (is_low (Z.lor x y) && Bool.eqb (Z.lor x y =? 0xff) ((x =? 0xff) || (y =? 0xff))) &&
  implb (is_high x && is_high y)
    (is_high (Z.lor x y) && Bool.eqb (Z.lor x y =? 0xff) ((x =? 0xff) || (y =? 0xff))) &&
  implb (is_high x && is_low y && negb (x =? 0xff) && negb (y =? 0xff)) (Z.lor x y =? x + y).

Lemma lor_facts_hold x y : is_byte x -> is_byte y -> lor_facts x y = true.
Proof.
  intros Hx Hy.
  pose proof (check_range (λ x, forallb (lor_facts x) (seqZ 0 256)) 0 256 ltac:(by vm_compute) x Hx) as H.
  exact (check_range _ 0 256 H y Hy).
Qed.

Lemma is_low_byte x : is_low x = true -> is_byte x.
Proof. unfold is_low, is_byte. intros [H|H]%orb_prop; prop_bools; lia. Qed.

Lemma is_high_byte x : is_high x = true -> is_byte x.
Proof. unfold is_high, is_byte. intros [H|H]%orb_prop; prop_bools; lia. Qed.

Lemma lor_low x y : is_low x = true -> is_low y = true ->
  is_low (Z.lor x y) = true /\ (Z.lor x y =? 0xff) = (x =? 0xff) || (y =? 0xff).
Proof.
  intros Hx Hy. pose proof (lor_facts_hold x y (is_low_byte x Hx) (is_low_byte y Hy)) as H.
  unfold lor_facts in H. rewrite Hx, Hy in H. simpl in H. prop_bools. split; [done|].
  by apply Bool.eqb_prop.
Qed.

Lemma lor_high x y : is_high x = true -> is_high y = true ->
  is_high (Z.lor x y) = true /\ (Z.lor x y =? 0xff) = (x =? 0xff) || (y =? 0xff).
Proof.
  intros Hx Hy. pose proof (lor_facts_hold x y (is_high_byte x Hx) (is_high_byte y Hy)) as H.
  unfold lor_facts in H. rewrite Hx, Hy in H. cbn [andb implb] in H. prop_bools. split; [done|].
  by apply Bool.eqb_prop.
Qed.

Lemma unhex_low c : is_byte c -> is_low (unhex c) = true.
Proof.
  intros Hc. pose proof (table_row c Hc) as H. unfold is_low. destruct (hex_value c) as [v|].
  - destruct H as (-> & _ & ?). case_cmps; (done || lia).
  - by destruct H as [-> _].
Qed.

Lemma unhex4_high c : is_byte c -> is_high (unhex4 c) = true.
Proof.
  intros Hc. pose proof (table_row c Hc) as H. unfold is_high. destruct (hex_value c) as [v|].
  - destruct H as (_ & -> & ?). rewrite (Z.mul_comm 16), Z.mod_mul by lia. case_cmps; (done || lia).
  - by destruct H as [_ ->].
Qed.

Lemma lor_4_low a b c d : is_low a = true -> is_low b = true -> is_low c = true -> is_low d = true ->
  (Z.lor (Z.lor (Z.lor a b) c) d =? 0xff) = (a =? 0xff) || (b =? 0xff) || (c =? 0xff) || (d =? 0xff).
Proof.
  intros Ha Hb Hc Hd. destruct (lor_low a b Ha Hb) as [Hab <-].
  destruct (lor_low _ c Hab Hc) as [Habc <-]. by destruct (lor_low _ d Habc Hd) as [_ <-].
Qed.

Lemma lor_4_high a b c d : is_high a = true -> is_high b = true -> is_high c = true -> is_high d = true ->
  (Z.lor (Z.lor (Z.lor a b) c) d =? 0xff) = (a =? 0xff) || (b =? 0xff) || (c =? 0xff) || (d =? 0xff).
Proof.
  intros Ha Hb Hc Hd. destruct (lor_high a b Ha Hb) as [Hab <-].
  destruct (lor_high _ c Hab Hc) as [Habc <-]. by destruct (lor_high _ d Habc Hd) as [_ <-].
Qed.

(** *** The unrolled loop does what the simple one does *)

Lemma decode_pairs_cons c0 c1 src :
  decode_pairs (c0 :: c1 :: src) =
  if (unhex4 c0 =? 0xff) || (unhex c1 =? 0xff) then Failure (EncError kIllegalHexDigit)
  else let? out := decode_pairs src in Success (Z.lor (unhex4 c0) (unhex c1) :: out).
Proof. done. Qed.

Lemma unrolled_pairs src : bytes_ok src -> decode_unrolled src = decode_pairs src.
Proof.
  remember (length src) as n eqn:Hn. revert src Hn.
  induction n as [n IH] using lt_wf_ind. intros src -> Hok.
  destruct src as [|c0 [|c1 [|c2 [|c3 [|c4 [|c5 [|c6 [|c7 rest]]]]]]]]; try done.
  change (bytes_ok ([c0; c1; c2; c3; c4; c5; c6; c7] ++ rest)) in Hok. apply bytes_ok_app in Hok as [Hc Hrest].
  unfold bytes_ok in Hc. rewrite !Forall_cons in Hc. destruct Hc as (? & ? & ? & ? & ? & ? & ? & ? & _).
  cbn [decode_unrolled]. rewrite lor_4_low, lor_4_high by auto using unhex_low, unhex4_high.
  rewrite (IH (length rest)) by (simpl; lia || done).
  rewrite !decode_pairs_cons.
  destruct (unhex4 c0 =? 255), (unhex c1 =? 255); simpl; rewrite ?orb_true_r; try done;
  destruct (unhex4 c2 =? 255), (unhex c3 =? 255); simpl; rewrite ?orb_true_r; try done;
  destruct (unhex4 c4 =? 255), (unhex c5 =? 255); simpl; rewrite ?orb_true_r; try done;
  destruct (unhex4 c6 =? 255), (unhex c7 =? 255); simpl; rewrite ?orb_true_r; try done.
  by destruct (decode_pairs rest).
Qed.

Definition of_ref (r : option Bytes) : outcome Bytes :=
  match r with Some out => Success out | None => Failure (EncError kIllegalHexDigit) end.

Lemma lor_join c0 c1 hi lo : is_byte c0 -> is_byte c1 -> hex_value c0 = Some hi -> hex_value c1 = Some lo ->
  (unhex4 c0 =? 0xff) = false /\ (unhex c1 =? 0xff) = false /\
  Z.lor (unhex4 c0) (unhex c1) = 16 * hi + lo.
Proof.
  intros H0 H1 E0 E1. pose proof (table_row c0 H0) as T0. pose proof (table_row c1 H1) as T1.
  rewrite E0 in T0. rewrite E1 in T1. destruct T0 as (_ & -> & ?), T1 as (-> & _ & ?).
  assert ((16 * hi =? 0xff) = false) as Hh by (apply Z.eqb_neq; lia).
  assert ((lo =? 0xff) = false) as Hl by (apply Z.eqb_neq; lia).
  split_and!; try done.
  pose proof (lor_facts_hold (16 * hi) lo ltac:(unfold is_byte; lia) ltac:(unfold is_byte; lia)) as Hf.
  unfold lor_facts in Hf. rewrite Hh, Hl in Hf.
  assert (is_high (16 * hi) = true) as E.
  { unfold is_high. rewrite (Z.mul_comm 16), Z.mod_mul by lia. case_cmps; (done || lia). }
  assert (is_low lo = true) as E' by (unfold is_low; case_cmps; (done || lia)).
  rewrite E, E' in Hf. cbn [andb implb negb] in Hf. by apply andb_prop in Hf as [_ ?%Z.eqb_eq].
Qed.

Lemma pairs_ref src : bytes_ok src -> decode_pairs src = of_ref (ref_pairs src).
Proof.
  remember (length src) as n eqn:Hn. revert src Hn.
  induction n as [n IH] using lt_wf_ind. intros [|c0 [|c1 rest]] -> Hok; try done.
  unfold bytes_ok in Hok. rewrite !Forall_cons in Hok. destruct Hok as (H0 & H1 & Hr).
  rewrite decode_pairs_cons, (IH (length rest)) by (simpl; lia || done). cbn [ref_pairs].
  pose proof (table_row c0 H0) as T0. pose proof (table_row c1 H1) as T1.
  destruct (hex_value c0) as [hi|] eqn:E0, (hex_value c1) as [lo|] eqn:E1;
    try (destruct T0 as [_ ->]; done); [|destruct T1 as [-> _]; by destruct (unhex4 c0 =? 255)].
  destruct (lor_join c0 c1 hi lo) as (-> & -> & ->); try done. simpl. by destruct (ref_pairs rest).
Qed.

Lemma unprefixed_ok s : bytes_ok s -> bytes_ok (if has_prefix s then drop 2 s else s).
Proof. intros. destruct (has_prefix s); [by apply Forall_drop | done]. Qed.

(** C32: The decoder, with its two tables, its unrolled loop and its treatment of
    an odd count of digits, computes what the plain digit by digit definition
    computes, for every input, and reports an illegal digit where that one
    is undefined. *)
Theorem decode_reference (hex_str : Bytes) :
  bytes_ok hex_str -> decode hex_str = of_ref (ref_decode hex_str).
Proof.
  intros Hok. apply unprefixed_ok in Hok. unfold decode, ref_decode.
  generalize dependent (if has_prefix hex_str then drop 2 hex_str else hex_str). intros [|c t] Hok; [done|].
  destruct (Z.odd (zlen (c :: t))); [|by rewrite unrolled_pairs, pairs_ref].
  unfold bytes_ok in Hok. rewrite Forall_cons in Hok. destruct Hok as [Hc Ht].
  rewrite unrolled_pairs, pairs_ref by done. cbn [ref_pairs].
  change (hex_value 48) with (Some 0). pose proof (table_row c Hc) as T.
  destruct (hex_value c) as [v|]; [|by destruct T as [-> _]].
  destruct T as (-> & _ & ?). destruct (Z.eqb_spec v 255); [lia|].
  destruct (ref_pairs t); simpl; [|done]. by replace (match v with 0 => 0 | Z.pos y => Z.pos y | Z.neg y => Z.neg y end) with v by (by destruct v).
Qed.

Lemma decode_reference_witness :
  bytes_ok (str "0xAbC") /\ decode (str "0xAbC") = of_ref (Some [10; 188]).
Proof.
  assert (bytes_ok (str "0xAbC")) as H by (repeat constructor; by vm_compute).
  split; [exact H|]. rewrite (decode_reference (str "0xAbC") H). by vm_compute.
Defined.

(** *** Encoding *)

Lemma encode_loop_ok bs : bytes_ok bs -> bytes_ok (encode_loop bs).
Proof.
  induction 1 as [|b bs Hb _ IH]; [constructor|]. destruct (nibbles b Hb) as (? & ? & _).
  cbn [encode_loop]. repeat constructor; try apply digit_value; done.
Qed.

Lemma ref_pairs_encode bs : bytes_ok bs -> ref_pairs (encode_loop bs) = Some bs.
Proof.
  induction 1 as [|b bs Hb _ IH]; [done|]. destruct (nibbles b Hb) as (Hh & Hl & Hj).
  cbn [encode_loop ref_pairs]. destruct (digit_value _ Hh) as [-> _], (digit_value _ Hl) as [-> _].
  by rewrite IH, Hj.
Qed.

Lemma zlen_encode_loop bs : zlen (encode_loop bs) = 2 * zlen bs.
Proof. induction bs as [|b bs IH]; [done|]. cbn [encode_loop]. zlens. lia. Qed.

Lemma encode_loop_no_prefix bs : bytes_ok bs -> has_prefix (encode_loop bs) = false.
Proof.
  intros Hok. destruct Hok as [|b bs Hb _]; [done|]. destruct (nibbles b Hb) as (_ & Hl & _).
  cbn [encode_loop has_prefix].
  pose proof (check_range (λ n, negb ((digit n =? 120) || (digit n =? 88))) 0 16 ltac:(by vm_compute) _ Hl) as H.
  cbv beta in H. apply negb_true_iff in H. by rewrite H, andb_false_r.
Qed.

Lemma unprefix_encode bs p : bytes_ok bs ->
  (if has_prefix (encode bs p) then drop 2 (encode bs p) else encode bs p) = encode_loop bs.
Proof. intros Hok. destruct p; [done|]. unfold encode; simpl. by rewrite encode_loop_no_prefix. Qed.

Lemma odd_double n : Z.odd (2 * n) = false.
Proof. by rewrite Z.odd_mul. Qed.

Lemma decode_encode bs p : bytes_ok bs -> decode (encode bs p) = Success bs.
Proof.
  intros Hok. pose proof (encode_loop_ok bs Hok) as Hl.
  unfold decode. rewrite unprefix_encode by done.
  destruct (encode_loop bs) as [|c t] eqn:E; [by destruct bs|].
  rewrite <- E in *. rewrite zlen_encode_loop, odd_double, unrolled_pairs, pairs_ref by done.
  by rewrite ref_pairs_encode.
Qed.

(** Decoding the hexadecimal representation of a byte sequence, with or
    without prefix, gives the sequence back. *)
Theorem hex_roundtrip (bs : Bytes) (with_prefix : bool) :
  bytes_ok bs -> decode (encode bs with_prefix) = Success bs.
Proof. apply decode_encode. Qed.

Lemma hex_roundtrip_witness : decode (encode [0; 255; 16] true) = Success [0; 255; 16].
Proof. apply (hex_roundtrip [0; 255; 16] true). repeat constructor; by vm_compute. Defined.

Lemma encode_loop_app bs cs : encode_loop (bs ++ cs) = encode_loop bs ++ encode_loop cs.
Proof. induction bs as [|b bs IH]; [done|]. simpl. by rewrite IH. Qed.

Lemma reverse_pairs_encode bs : reverse_pairs (rev (encode_loop bs)) = encode_loop (rev bs).
Proof.
  induction bs as [|b bs IH] using rev_ind; [done|].
  rewrite encode_loop_app, !rev_app_distr. cbn [encode_loop rev app reverse_pairs]. by rewrite IH.
Qed.

(** Reversing a hexadecimal representation is the representation of the
    reversed byte sequence, and the prefix stays in front. *)
Theorem reverse_hex_encode (bs : Bytes) (with_prefix : bool) :
  bytes_ok bs -> reverse_hex (encode bs with_prefix) = encode (rev bs) with_prefix.
Proof.
  intros Hok. unfold reverse_hex. destruct with_prefix.
  - change (has_prefix (encode bs true)) with true. cbn iota.
    change (drop 2 (encode bs true)) with (encode_loop bs). by rewrite reverse_pairs_encode.
  - change (encode bs false) with (encode_loop bs). rewrite encode_loop_no_prefix by done.
    apply reverse_pairs_encode.
Qed.

Lemma reverse_hex_encode_witness :
  reverse_hex (encode [1; 2; 3] true) = encode [3; 2; 1] true.
Proof. apply (reverse_hex_encode [1; 2; 3] true). repeat constructor; by vm_compute. Defined.

Lemma be_value_zeroless bs : be_value (zeroless_view bs) = be_value bs.
Proof.
  induction bs as [|b bs IH]; [done|]. destruct b as [|b|b]; try done.
  cbn [zeroless_view]. rewrite IH, be_value_cons. lia.
Qed.

Lemma zeroless_ok bs : bytes_ok bs -> bytes_ok (zeroless_view bs).
Proof. induction 1 as [|b bs Hb ? IH]; [constructor|]. destruct b; simpl; [done|by constructor..]. Qed.

(** The hexadecimal representation of an unsigned integer of any width
    decodes to the octets of that integer, most significant first, without
    leading zeroes but for the value zero. *)
Theorem encode_integral_value (n : nat) (value : Z) (with_prefix : bool) :
  0 <= value < 256 ^ Z.of_nat n ->
  exists bs, decode (encode_integral n value with_prefix) = Success bs /\ be_value bs = value /\
    bs = (if value =? 0 then [0] else zeroless_view (be_bytes n value)).
Proof.
  intros Hv. unfold encode_integral.
  set (z := zeroless_view (be_bytes n value)).
  assert (be_value z = value) as Hz
    by (unfold z; rewrite be_value_zeroless, be_value_be_bytes; by apply Z.mod_small).
  assert (bytes_ok z) as Hok by (apply zeroless_ok, be_bytes_ok).
  replace (zlen (encode z with_prefix) =? (if with_prefix then 2 else 0)) with (zlen z =? 0).
  2: { unfold encode. rewrite zlen_app, zlen_encode_loop. destruct with_prefix; simpl; case_cmps; lia. }
  destruct z as [|b z'] eqn:Ez.
  - change (be_value []) with 0 in Hz. subst value. exists [0]. split_and!; [by destruct with_prefix | done | done].
  - rewrite Z.eqb_neq in * || (destruct (Z.eqb_spec (zlen (b :: z')) 0); [zlens; lia|]).
    exists (b :: z'). rewrite decode_encode by done. split_and!; [done | done |].
    case_cmp; [|done]. exfalso.
    assert (b <> 0) as Hb.
    { intros ->. clear -Ez. unfold z in Ez. revert Ez. generalize (be_bytes n value). intros l.
      induction l as [|x l IH]; [done|]. destruct x; done. }
    rewrite be_value_cons in Hz. unfold bytes_ok in Hok. rewrite Forall_cons in Hok.
    destruct Hok as [? Hz']. unfold is_byte in *.
    pose proof (le_value_bound (rev z') ltac:(by apply bytes_ok_rev)). unfold be_value in Hz.
    pose proof (Z.pow_pos_nonneg 256 (zlen z')). nia.
Qed.

Lemma encode_integral_value_witness :
  exists bs, decode (encode_integral 8 0x1234 true) = Success bs /\ be_value bs = 0x1234.
Proof.
  destruct (encode_integral_value 8 0x1234 true) as (bs & H1 & H2 & _); [by vm_compute|].
  exists bs. split; [exact H1 | exact H2].
Defined.

End HexTheorems.
