(* ===== verification/Base58.v ===== *)
(** * Base58 encoding

    Model of [src/src/core/encoding/base58.cpp].  The sources convert through
    an unbounded integer ([cpp_int]), here [Z]; the two division loops are
    given fuel, one unit for each bit of the integer, and
    [to_digits_complete] shows that it is enough. *)

From S2P Require Import Prelude Boost.

Definition kBase58Digits : Bytes := str "123456789ABCDEFGHJKLMNPQRSTUVWXYZabcdefghijkmnopqrstuvwxyz".
Definition kCheckSumLength : Z := 4.

(** [while (value != 0) { rem = value % b; value /= b; insert rem at the front }] *)
Fixpoint to_digits (b : Z) (fuel : nat) (value : Z) (acc : list Z) : list Z :=
  match fuel with
  | O => acc
  | S fuel => if value =? 0 then acc else to_digits b fuel (value / b) (value mod b :: acc)
  end.

Definition fuel_for (value : Z) : nat := S (Z.to_nat (Z.log2 value)).

(** The loops that convert digits to an integer. *)
Definition from_digits (b : Z) (ds : list Z) : Z := foldl (λ v d, v * b + d) 0 ds.

(** How many elements from the beginning equal [x]. *)
Fixpoint count_leading (x : Z) (l : list Z) : nat :=
  match l with
  | y :: l => if y =? x then S (count_leading x l) else O
  | [] => O
  end.

Definition base58_char (d : Z) : Z := default 0 (kBase58Digits !! Z.to_nat d).

(** [kBase58Digits.find(chr)] *)
Fixpoint find_from (i : Z) (c : Z) (l : list Z) : option Z :=
  match l with
  | [] => None
  | x :: l => if x =? c then Some i else find_from (i + 1) c l
  end.
Definition base58_find (c : Z) : option Z := find_from 0 c kBase58Digits.

Definition base58_encode (input : Bytes) : outcome Bytes :=
  if zlen input =? 0 then Success []
  else if 1024 <? zlen input then Failure (EncError kEnc_InputTooLarge)
  else
    let value := from_digits 256 input in
    let encoded := base58_char <$> to_digits 58 (fuel_for value) value [] in
    Success (replicate (count_leading 0 input) 49 ++ encoded).

Fixpoint find_all (input : Bytes) : option (list Z) :=
  match input with
  | [] => Some []
  | c :: input =>
      match base58_find c, find_all input with
      | Some d, Some ds => Some (d :: ds)
      | _, _ => None
      end
  end.

Definition base58_decode (input : Bytes) : outcome Bytes :=
  if zlen input =? 0 then Success []
  else
    match find_all input with
    | None => Failure (EncError kIllegalBase58Digit)
    | Some ds =>
        let value := from_digits 58 ds in
        Success (replicate (count_leading 49 input) 0 ++ to_digits 256 (fuel_for value) value [])
    end.

Section check.
Context `{Crypto}.

Definition encode_check (input : Bytes) : outcome Bytes :=
  base58_encode (input ++ ztake kCheckSumLength (sha256 input)).

Definition decode_check (input : Bytes) : outcome Bytes :=
  match base58_decode input with
  | Success decoded =>
      if zlen decoded <? kCheckSumLength then Failure (EncError kInputTooNarrow)
      else
        let original := ztake (zlen decoded - kCheckSumLength) decoded in
        let checksum := zdrop (zlen decoded - kCheckSumLength) decoded in
        if bool_decide (checksum `prefix_of` sha256 original) then Success original
        else Failure (EncError kIllegalBase58Digit)
  | r => r
  end.
End check.

Module Base58Theorems.

Definition digits_in (b : Z) (ds : list Z) : Prop := Forall (λ d, 0 <= d < b) ds.

(** Digits without a leading zero. *)
Definition canonical (ds : list Z) : Prop := head ds <> Some 0.

Lemma from_digits_snoc b ds d : from_digits b (ds ++ [d]) = from_digits b ds * b + d.
Proof. unfold from_digits. by rewrite foldl_app. Qed.

Lemma from_digits_nonneg b ds : 0 <= b -> digits_in b ds -> 0 <= from_digits b ds.
Proof.
  intros Hb. induction ds as [|d ds IH] using rev_ind; intros Hd; [done|].
  rewrite from_digits_snoc. apply Forall_app in Hd as [Hds Hd]. rewrite Forall_singleton in Hd.
  specialize (IH Hds). nia.
Qed.

Lemma from_digits_pos b ds : 1 < b -> digits_in b ds -> canonical ds -> ds <> [] -> 0 < from_digits b ds.
Proof.
  intros Hb. induction ds as [|d ds IH] using rev_ind; intros Hd Hc Hn; [done|].
  rewrite from_digits_snoc. apply Forall_app in Hd as [Hds Hd]. rewrite Forall_singleton in Hd.
  destruct ds as [|x ds]; [unfold canonical in Hc; simpl in *; unfold from_digits; simpl;
    destruct (Z.eq_dec d 0) as [->|]; [done|lia]|].
  specialize (IH Hds Hc ltac:(done)). nia.
Qed.

Lemma fuel_for_step b v : 1 < b -> 0 < v -> 0 <= v / b /\ v < 2 ^ Z.of_nat (fuel_for v).
Proof.
  intros Hb Hv. split; [apply Z.div_pos; lia|]. unfold fuel_for.
  rewrite Nat2Z.inj_succ, Z2Nat.id by apply Z.log2_nonneg. apply Z.log2_spec. lia.
Qed.

Lemma div_halves b v k : 1 < b -> 0 <= v < 2 ^ Z.of_nat (S k) -> 0 <= v / b < 2 ^ Z.of_nat k.
Proof.
  intros Hb [? Hv]. rewrite Nat2Z.inj_succ, Z.pow_succ_r in Hv by lia.
  split; [apply Z.div_pos; lia|]. apply Z.div_lt_upper_bound; [lia|]. nia.
Qed.

(** With fuel for its bits, the division loop reaches zero, and its result does
    not depend on the fuel. *)
Lemma to_digits_complete b ds fuel acc : 1 < b -> digits_in b ds -> canonical ds ->
  from_digits b ds < 2 ^ Z.of_nat fuel -> to_digits b fuel (from_digits b ds) acc = ds ++ acc.
Proof.
  intros Hb. revert fuel acc. induction ds as [|d ds IH] using rev_ind; intros fuel acc Hd Hc Hf.
  { destruct fuel; simpl; by rewrite ?Z.eqb_refl. }
  assert (0 < from_digits b (ds ++ [d])) as Hpos by (apply from_digits_pos; try done; by destruct ds).
  apply Forall_app in Hd as [Hds Hd]. rewrite Forall_singleton in Hd.
  pose proof (from_digits_nonneg b ds ltac:(lia) Hds) as Hnn.
  destruct fuel as [|fuel]; [simpl in Hf; lia|]. cbn [to_digits].
  case_cmp; [lia|]. pose proof (div_halves b _ fuel Hb (conj (Z.lt_le_incl _ _ Hpos) Hf)) as Hdv.
  rewrite from_digits_snoc in *.
  rewrite Z.div_add_l, Z.div_small, Z.add_0_r in * by lia.
  rewrite Z.add_comm, Z.mod_add, Z.mod_small by lia.
  rewrite IH; [by rewrite <- app_assoc | done | | lia].
  unfold canonical in *. by destruct ds.
Qed.

Lemma to_digits_spec b fuel v acc : 1 < b -> 0 <= v < 2 ^ Z.of_nat fuel ->
  exists ds, to_digits b fuel v acc = ds ++ acc /\ digits_in b ds /\ canonical ds /\ from_digits b ds = v.
Proof.
  intros Hb. revert v acc. induction fuel as [|fuel IH]; intros v acc Hv.
  { exists []. simpl in Hv. split_and!; [done | constructor | done | unfold from_digits; simpl; lia]. }
  cbn [to_digits]. case_cmp.
  - exists []. split_and!; [done | constructor | done | unfold from_digits; simpl; lia].
  - destruct (IH (v / b) (v mod b :: acc) (div_halves b v fuel Hb Hv)) as (ds & -> & Hd & Hc & Hval).
    exists (ds ++ [v mod b]). rewrite <- app_assoc. split_and!; [done | | |].
    + apply Forall_app. split; [done|]. constructor; [apply Z.mod_pos_bound; lia | constructor].
    + destruct ds; [|done]. unfold canonical, from_digits in *. simpl in *. intros E. simplify_eq.
      pose proof (Z.div_mod v b). lia.
    + rewrite from_digits_snoc, Hval. pose proof (Z.div_mod v b). lia.
Qed.

Lemma fuel_for_bound v : 0 <= v -> v < 2 ^ Z.of_nat (fuel_for v).
Proof.
  intros Hv. destruct (Z.eq_dec v 0) as [->|]; [done|]. by apply (fuel_for_step 2); lia.
Qed.

(** A list is a run of [x] followed by a list that does not start with [x]. *)
Lemma split_leading x l : exists t, l = replicate (count_leading x l) x ++ t /\ head t <> Some x.
Proof.
  induction l as [|y l (t & Hl & Ht)]; [by exists []|]. simpl. case_cmp.
  - subst. exists t. simpl. by rewrite <- Hl.
  - exists (y :: l). split; [done|]. simpl. congruence.
Qed.

Lemma count_leading_app x n t : head t <> Some x -> count_leading x (replicate n x ++ t) = n.
Proof.
  intros Ht. induction n as [|n IH]; simpl; [|by rewrite Z.eqb_refl, IH].
  destruct t as [|y t]; simpl in *; [done|]. case_cmp; congruence.
Qed.

Lemma from_digits_zeros b n ds : from_digits b (replicate n 0 ++ ds) = from_digits b ds.
Proof.
  unfold from_digits. rewrite foldl_app. f_equal. induction n; simpl; [done|]. by rewrite Z.add_0_r.
Qed.

Lemma base58_row d : 0 <= d < 58 -> base58_find (base58_char d) = Some d /\ (d = 0 <-> base58_char d = 49).
Proof.
  intros Hd.
  pose proof (check_range (λ d, bool_decide (base58_find (base58_char d) = Some d) &&
    Bool.eqb (d =? 0) (base58_char d =? 49)) 0 58 ltac:(by vm_compute) d Hd) as H.
  cbv beta in H. apply andb_prop in H as [H1%bool_decide_eq_true H2%Bool.eqb_prop]. split; [done|].
  rewrite <- (Z.eqb_eq d 0), H2. apply Z.eqb_eq.
Qed.

Lemma find_all_chars ds : digits_in 58 ds -> find_all (base58_char <$> ds) = Some ds.
Proof.
  induction 1 as [|d ds Hd _ IH]; [done|]. rewrite fmap_cons. cbn [find_all].
  destruct (base58_row d Hd) as [-> _]. by rewrite IH.
Qed.

Lemma find_all_app cs1 cs2 ds1 ds2 : find_all cs1 = Some ds1 -> find_all cs2 = Some ds2 ->
  find_all (cs1 ++ cs2) = Some (ds1 ++ ds2).
Proof.
  revert ds1. induction cs1 as [|c cs1 IH]; intros ds1 H1 H2; [by simplify_eq/=|].
  cbn [app find_all] in *. destruct (base58_find c), (find_all cs1) as [ds|]; simplify_eq.
  by rewrite (IH ds).
Qed.

Lemma find_all_ones n : find_all (replicate n 49) = Some (replicate n 0).
Proof. induction n as [|n IH]; [done|]. cbn [replicate find_all]. by rewrite IH. Qed.

Lemma chars_head ds : digits_in 58 ds -> canonical ds -> head (base58_char <$> ds) <> Some 49.
Proof.
  intros Hd Hc. destruct Hd as [|d ds Hd _]; [done|]. unfold canonical in Hc. simpl in *.
  destruct (base58_row d Hd) as [_ Hz]. intros E. simplify_eq. apply Hc. f_equal. by apply Hz.
Qed.

Lemma bytes_digits bs : bytes_ok bs -> digits_in 256 bs.
Proof. done. Qed.

Lemma decode_encode58 bs : bytes_ok bs -> zlen bs <= 1024 ->
  exists cs, base58_encode bs = Success cs /\ base58_decode cs = Success bs.
Proof.
  intros Hok Hlen. unfold base58_encode. destruct (Z.eqb_spec (zlen bs) 0).
  { exists []. split; [done|]. destruct bs; [done | zlens; lia]. }
  case_cmp; [lia|]. eexists; split; [done|].
  destruct (split_leading 0 bs) as (t & Hbs & Ht).
  set (z := count_leading 0 bs) in *.
  assert (Hv : from_digits 256 bs = from_digits 256 t) by (rewrite Hbs; apply from_digits_zeros).
  assert (digits_in 256 t) as Htd by (rewrite Hbs in Hok; by apply Forall_app in Hok as [_ ?]).
  pose proof (from_digits_nonneg 256 t ltac:(lia) Htd) as Hnn.
  rewrite Hv. pose proof (fuel_for_bound _ Hnn) as Hfuel.
  destruct (to_digits_spec 58 (fuel_for (from_digits 256 t)) (from_digits 256 t) []) as (ds & -> & Hd & Hc & Hval);
    [lia..|]. rewrite app_nil_r.
  unfold base58_decode. rewrite count_leading_app by (by apply chars_head).
  rewrite (find_all_app _ _ _ ds (find_all_ones z)) by (by apply find_all_chars).
  rewrite from_digits_zeros, Hval, (to_digits_complete 256 t), app_nil_r, <- Hbs by (done || lia).
  case_cmp; [|done]. exfalso. zlens.
  assert (ds = []) as -> by (destruct ds; [done|]; zlens; lia).
  assert (t = []) as ->.
  { destruct t as [|x t]; [done|]. pose proof (from_digits_pos 256 (x :: t)) as Hp.
    unfold from_digits at 1 in Hval. simpl in Hval. specialize (Hp ltac:(lia) Htd Ht ltac:(done)). lia. }
  rewrite Hbs in *. zlens. lia.
Qed.

(** Base58 is lossless on every byte sequence the encoder accepts: the
    leading zero octets and all the others come back. *)
Theorem base58_roundtrip (bs : Bytes) : bytes_ok bs -> zlen bs <= 1024 ->
  exists cs, base58_encode bs = Success cs /\ base58_decode cs = Success bs.
Proof. apply decode_encode58. Qed.

Lemma base58_roundtrip_witness :
  exists cs, base58_encode [0; 0; 1; 255] = Success cs /\ base58_decode cs = Success [0; 0; 1; 255].
Proof. apply (base58_roundtrip [0; 0; 1; 255]); [repeat constructor; by vm_compute | by vm_compute]. Defined.

Lemma sha256_take `{CryptoLaws} d : zlen (ztake kCheckSumLength (sha256 d)) = 4.
Proof. rewrite zlen_ztake by done. by rewrite sha256_length. Qed.

Lemma sha256_take_ok `{CryptoLaws} d : bytes_ok (ztake kCheckSumLength (sha256 d)).
Proof. unfold ztake. apply Forall_take, sha256_ok. Qed.

(** C33: A payload encoded with its checksum decodes, checksum verified, to the
    payload; and whatever text the checked decoder accepts carries the first
    four octets of the digest of what it returns. *)
Theorem base58check `{CryptoLaws} :
  (forall bs, bytes_ok bs -> zlen bs <= 1020 ->
    exists cs, encode_check bs = Success cs /\ decode_check cs = Success bs) /\
  (forall cs bs, decode_check cs = Success bs ->
    base58_decode cs = Success (bs ++ ztake kCheckSumLength (sha256 bs))).
Proof.
  split.
  - intros bs Hok Hlen. pose proof (sha256_take bs) as Ht. unfold encode_check.
    destruct (decode_encode58 (bs ++ ztake kCheckSumLength (sha256 bs))) as (cs & He & Hd).
    { apply bytes_ok_app. split; [done | apply sha256_take_ok]. }
    { zlens. lia. }
    exists cs. split; [done|]. unfold decode_check. rewrite Hd, zlen_app, Ht.
    unfold kCheckSumLength in *. case_cmp; [lia|].
    replace (zlen bs + 4 - 4) with (zlen bs) by lia. rewrite ztake_app, zdrop_app.
    rewrite bool_decide_eq_true_2; [done|]. exists (zdrop 4 (sha256 bs)). by rewrite ztake_zdrop.
  - intros cs bs Hd. unfold decode_check in Hd. destruct (base58_decode cs) as [d| |]; [|done..].
    case_cmp_in Hd; [done|]. case_bool_decide as Hp; [|done]. simplify_eq.
    f_equal. destruct Hp as [k Hk]. unfold kCheckSumLength in *.
    rewrite Hk at 1. rewrite <- (ztake_zdrop (zlen d - 4) d) at 1. f_equal.
    set (chk := zdrop (zlen d - 4) d) in *.
    assert (zlen chk = 4) as Hl by (unfold chk; zlens; lia).
    rewrite <- Hl at 1. by rewrite ztake_app.
Qed.

Lemma base58check_witness :
  exists cs, @encode_check model_crypto [1; 2; 3] = Success cs /\ @decode_check model_crypto cs = Success [1; 2; 3].
Proof.
  apply (@base58check model_crypto model_crypto_laws); [repeat constructor; by vm_compute | by vm_compute].
Defined.

End Base58Theorems.
