(* ===== verification/Types.v ===== *)
(** * Hashes, inventory items and block headers

    Model of [src/src/core/types/hash.hpp], [inventory.cpp] and [block.cpp].
    A [Hash<BITS>] is the list of its [BITS / 8] octets. *)

From S2P Require Import Prelude Stream Boost Serialize Hex.

(** ** Hash *)

Module Hash.

Definition zero (n : nat) : Bytes := replicate n 0.

(** [Hash(ByteView init)]: aligned to the right, disregarded when too long. *)
Definition of_view (n : nat) (init : Bytes) : Bytes :=
  if Z.of_nat n <? zlen init then zero n else replicate (n - length init) 0 ++ init.

(** [Hash(uint64_t value)] *)
Definition of_uint64 (n : nat) (value : Z) : outcome Bytes :=
  if 8 <=? Z.of_nat n then Success (replicate (n - 8) 0 ++ be_bytes 8 value)
  else Fault AssertionFailed.

Definition from_hex (n : nat) (input : Bytes) (reverse : bool) : outcome Bytes :=
  let? parsed_bytes := Hex.decode input in
  Success (of_view n (if reverse then rev parsed_bytes else parsed_bytes)).

Definition to_hex (bytes_ : Bytes) (reverse with_prefix : bool) : Bytes :=
  Hex.encode (if reverse then rev bytes_ else bytes_) with_prefix.

(** [memcmp] on two arrays of the same size. *)
Fixpoint compare (a b : Bytes) : comparison :=
  match a, b with
  | x :: a, y :: b => match x ?= y with Eq => compare a b | c => c end
  | _, _ => Eq
  end.

Definition eqb (a b : Bytes) : bool := match compare a b with Eq => true | _ => false end.

(** [operator bool] *)
Definition to_bool (bytes_ : Bytes) : bool := existsb (λ byte, 0 <? byte) bytes_.

Definition serialization (n : nat) (action : Action) : Ser Bytes := bind_array n action.

End Hash.

Definition h160_size : nat := 20.
Definition h256_size : nat := 32.

Definition hash_ok (n : nat) (h : Bytes) : Prop := bytes_ok h /\ length h = n.

#[global] Instance hash_ok_dec n h : Decision (hash_ok n h).
Proof. unfold hash_ok, bytes_ok. apply _. Defined.

(** ** InventoryItem *)

Module InventoryItem.

Inductive Kind := kError | kTx | kBlock | kFilteredBlock.

Record t := mk { type_ : Kind; identifier_ : Bytes }.

Definition set_type (k : Kind) (o : t) : t := mk k (identifier_ o).
Definition set_identifier (h : Bytes) (o : t) : t := mk (type_ o) h.

(** [static_cast<uint32_t>(type_)] and [magic_enum::enum_cast]. *)
Definition to_uint (k : Kind) : Z :=
  match k with kError => 0 | kTx => 1 | kBlock => 2 | kFilteredBlock => 3 end.
Definition enum_cast (v : Z) : option Kind :=
  if v =? 0 then Some kError else if v =? 1 then Some kTx
  else if v =? 2 then Some kBlock else if v =? 3 then Some kFilteredBlock else None.

Definition initial : t := mk kError (Hash.zero h256_size).
Definition reset (o : t) : t := initial.

Definition bind_identifier (action : Action) : Ser t :=
  on_field identifier_ set_identifier (Hash.serialization h256_size action).

Definition serialization (action : Action) : Ser t :=
  λ o s,
    if decide (action = kSerialize) then
      match bind_integral uint32_t action (to_uint (type_ o)) s with
      | (Success _, _, s') => bind_identifier action o s'
      | (r, _, s') => (r, o, s')
      end
    else
      match bind_integral uint32_t action 0 s with
      | (Success _, type, s') =>
          match enum_cast type with
          | None => (Failure (SerError kInvalidInventoryType), o, s')
          | Some k => bind_identifier action (set_type k o) s'
          end
      | (r, _, s') => (r, o, s')
      end.

End InventoryItem.

(** ** BlockHeader *)

Definition kBlockHeaderSerializedSize : Z := 140.

Module BlockHeader.

Record t := mk {
  version : Z; parent_hash : Bytes; merkle_root : Bytes; scct_root : Bytes;
  time : Z; bits : Z; nonce : Z; solution : Bytes;
}.

Definition set_version v h := mk v (parent_hash h) (merkle_root h) (scct_root h) (time h) (bits h) (nonce h) (solution h).
Definition set_parent v h := mk (version h) v (merkle_root h) (scct_root h) (time h) (bits h) (nonce h) (solution h).
Definition set_merkle v h := mk (version h) (parent_hash h) v (scct_root h) (time h) (bits h) (nonce h) (solution h).
Definition set_scct v h := mk (version h) (parent_hash h) (merkle_root h) v (time h) (bits h) (nonce h) (solution h).
Definition set_time v h := mk (version h) (parent_hash h) (merkle_root h) (scct_root h) v (bits h) (nonce h) (solution h).
Definition set_bits v h := mk (version h) (parent_hash h) (merkle_root h) (scct_root h) (time h) v (nonce h) (solution h).
Definition set_nonce v h := mk (version h) (parent_hash h) (merkle_root h) (scct_root h) (time h) (bits h) v (solution h).
Definition set_solution v h := mk (version h) (parent_hash h) (merkle_root h) (scct_root h) (time h) (bits h) (nonce h) v.

Definition reset (h : t) : t :=
  mk 0 (Hash.zero h256_size) (Hash.zero h256_size) (Hash.zero h256_size) 0 0 0 [].

Section serialization.
Context `{Boost}.

(** The members bound after the version has been copied to the stream. *)
Definition bind_members (action : Action) : Ser t :=
  on_field parent_hash set_parent (Hash.serialization h256_size action) >>>
  on_field merkle_root set_merkle (Hash.serialization h256_size action) >>>
  on_field scct_root set_scct (Hash.serialization h256_size action) >>>
  on_field time set_time (bind_integral uint32_t action) >>>
  on_field bits set_bits (bind_integral uint32_t action) >>>
  on_field nonce set_nonce (bind_big 32 action) >>>
  on_field solution set_solution (bind_bytes action).

Definition serialization (action : Action) : Ser t :=
  on_field version set_version (bind_integral int32_t action) >>>
  (λ h s, (Success (), h, SDataStream.set_version (version h) s)) >>>
  bind_members action.
End serialization.

(** [if (auto cmp = c; cmp != 0) return cmp;] *)
Definition or_else (c d : comparison) : comparison := match c with Eq => d | _ => c end.

(** [operator<=>]: the solution is not compared. *)
Definition compare (a b : t) : comparison :=
  or_else (version a ?= version b)
  (or_else (Hash.compare (parent_hash a) (parent_hash b))
  (or_else (Hash.compare (merkle_root a) (merkle_root b))
  (or_else (Hash.compare (scct_root a) (scct_root b))
  (or_else (time a ?= time b)
  (or_else (bits a ?= bits b) (nonce a ?= nonce b)))))).

(** The values the members can hold. *)
Definition wf (h : t) : Prop :=
  in_range int32_t (version h) /\ hash_ok h256_size (parent_hash h) /\
  hash_ok h256_size (merkle_root h) /\ hash_ok h256_size (scct_root h) /\
  in_range uint32_t (time h) /\ in_range uint32_t (bits h) /\
  0 <= nonce h < 256 ^ Z.of_nat 32 /\ bytes_ok (solution h).

End BlockHeader.


(** ** Properties *)

Module TypesTheorems.
Import Laws SerializeTheorems.

(** *** Hash *)

(** The order of [memcmp] is the order of the values read most significant
    octet first. *)
Lemma compare_be_value a b : bytes_ok a -> bytes_ok b -> length a = length b ->
  Hash.compare a b = (be_value a ?= be_value b).
Proof.
  unfold bytes_ok. intros Ha. revert b. induction Ha as [|x a Hx Ha IH]; intros [|y b] Hb Hl; try done.
  apply Forall_cons in Hb as [Hy Hb]. injection Hl as Hl. simpl. rewrite !be_value_cons, <- Hl.
  pose proof (le_value_bound (rev a) (bytes_ok_rev _ Ha)) as Ba.
  pose proof (le_value_bound (rev b) (bytes_ok_rev _ Hb)) as Bb.
  rewrite !length_rev, <- ?Hl in *. fold (be_value a) in Ba. fold (be_value b) in Bb.
  unfold is_byte in *.
  destruct (Z.compare_spec x y) as [->|Hlt|Hlt].
  - rewrite IH by done. symmetry. apply Z.add_compare_mono_l.
  - symmetry. apply Z.compare_lt_iff. nia.
  - symmetry. apply Z.compare_gt_iff. nia.
Qed.

Lemma be_value_inj a b : bytes_ok a -> bytes_ok b -> length a = length b ->
  be_value a = be_value b -> a = b.
Proof.
  intros Ha Hb Hl E. rewrite <- (rev_involutive a), <- (rev_involutive b). f_equal.
  apply le_value_inj; [by apply bytes_ok_rev..| by rewrite !length_rev | done].
Qed.

Lemma hash_eqb_spec n a b : hash_ok n a -> hash_ok n b -> Hash.eqb a b = bool_decide (a = b).
Proof.
  intros [Ha La] [Hb Lb]. unfold Hash.eqb. rewrite compare_be_value by congruence.
  destruct (Z.compare_spec (be_value a) (be_value b)) as [E|E|E]; symmetry.
  - apply bool_decide_eq_true. apply be_value_inj; congruence.
  - apply bool_decide_eq_false. intros ->. lia.
  - apply bool_decide_eq_false. intros ->. lia.
Qed.

Lemma of_view_exact n h : length h = n -> Hash.of_view n h = h.
Proof. intros <-. unfold Hash.of_view. case_cmp; [lia|]. by rewrite Nat.sub_diag. Qed.

(** The comparison operators of hashes are a total order, the one of the
    numbers the octets spell most significant first; equality is equality of
    octets; and a hash built from an integer holds that integer. *)
Theorem hash_order (n : nat) (a b : Bytes) (v : Z) :
  hash_ok n a -> hash_ok n b -> 0 <= v < 2 ^ 64 -> (8 <= n)%nat ->
  Hash.compare a b = (be_value a ?= be_value b) /\
  Hash.eqb a b = bool_decide (a = b) /\
  (exists h, Hash.of_uint64 n v = Success h /\ hash_ok n h /\ be_value h = v).
Proof.
  intros Ha Hb Hv Hn. split_and!.
  - destruct Ha, Hb. apply compare_be_value; congruence.
  - by apply (hash_eqb_spec n).
  - unfold Hash.of_uint64. case_cmp; [|lia]. eexists. split; [done|]. split; [split|].
    + apply bytes_ok_app. split; [apply Forall_replicate; by vm_compute | apply be_bytes_ok].
    + autorewrite with znode. lia.
    + rewrite be_value_app, be_value_zeros, be_value_be_bytes, Z.mul_0_l.
      change (256 ^ Z.of_nat 8) with (2 ^ 64). rewrite Z.mod_small; lia.
Qed.

Lemma hash_order_witness :
  Hash.compare (replicate 31 0 ++ [7]) (1 :: replicate 31 0) = Lt /\
  Hash.eqb (replicate 32 3) (replicate 32 3) = true.
Proof.
  split.
  - destruct (hash_order 32 (replicate 31 0 ++ [7]) (1 :: replicate 31 0) 5) as (-> & _);
      [decide_now.. | lia | lia | by vm_compute].
  - destruct (hash_order 32 (replicate 32 3) (replicate 32 3) 5) as (_ & -> & _);
      [decide_now.. | lia | lia | by vm_compute].
Defined.

(** Parsing the hexadecimal form of a hash gives the hash back, in either
    byte order and with or without prefix; a text that spells more octets
    than the hash has gives the zero hash, without an error, and a shorter one
    is padded on the left. *)
Theorem hash_hex_roundtrip (n : nat) (h x : Bytes) (reverse with_prefix : bool) :
  hash_ok n h -> bytes_ok x ->
  Hash.from_hex n (Hash.to_hex h reverse with_prefix) reverse = Success h /\
  Hash.from_hex n (Hash.to_hex x false with_prefix) false =
    Success (if zlen x <=? Z.of_nat n then replicate (n - length x) 0 ++ x else Hash.zero n).
Proof.
  intros [Hok Hl] Hx. unfold Hash.from_hex, Hash.to_hex. split.
  - destruct reverse; rewrite HexTheorems.decode_encode by auto with znode; simpl;
      by rewrite ?rev_involutive, of_view_exact.
  - rewrite HexTheorems.decode_encode by done. simpl. unfold Hash.of_view.
    case_cmps; (lia || done).
Qed.

Lemma hash_hex_roundtrip_witness :
  Hash.from_hex 32 (Hash.to_hex (replicate 31 0 ++ [200]) true true) true = Success (replicate 31 0 ++ [200]) /\
  Hash.from_hex 4 (Hash.to_hex [1; 2; 3; 4; 5] false false) false = Success [0; 0; 0; 0].
Proof.
  split.
  - apply (hash_hex_roundtrip 32 (replicate 31 0 ++ [200]) [] true true); decide_now.
  - destruct (hash_hex_roundtrip 4 [0; 0; 0; 0] [1; 2; 3; 4; 5] false false) as (_ & ->);
      [decide_now.. | by vm_compute].
Defined.

(** *** InventoryItem *)

Definition item_bytes (o : InventoryItem.t) : Bytes :=
  int_bytes uint32_t (InventoryItem.to_uint (InventoryItem.type_ o)) ++ InventoryItem.identifier_ o.

Definition item_ok (o : InventoryItem.t) : Prop := hash_ok h256_size (InventoryItem.identifier_ o).

Lemma zlen_item o : item_ok o -> zlen (item_bytes o) = 36.
Proof. intros [_ Hl]. unfold item_bytes. zlens. rewrite length_int_bytes, Hl. done. Qed.

Lemma enum_cast_to_uint k : InventoryItem.enum_cast (InventoryItem.to_uint k) = Some k.
Proof. by destruct k. Qed.

Lemma to_uint_range k : in_range uint32_t (InventoryItem.to_uint k).
Proof. by destruct k. Qed.

Lemma four_pos : (0 < ssizeof uint32_t)%nat.
Proof. simpl. lia. Qed.

Lemma item_writes o : writes (InventoryItem.serialization kSerialize) o (item_bytes o) o.
Proof.
  intros s Hf. unfold InventoryItem.serialization. rewrite decide_True by done.
  unfold item_bytes in *. rewrite integral_writes by (by eapply fits_app_l).
  unfold InventoryItem.bind_identifier, on_field.
  rewrite array_writes by (by apply fits_append). rewrite append_append. by destruct o.
Qed.

Lemma item_reads o : item_ok o -> reads (InventoryItem.serialization kDeserialize) (item_bytes o) (λ _, o).
Proof.
  intros [_ Hl] o0 s rest Hwf Hu. unfold InventoryItem.serialization. rewrite decide_False by done.
  unfold item_bytes in Hu. rewrite <- app_assoc in Hu.
  rewrite (integral_reads uint32_t _ four_pos (to_uint_range _) _ _ _ Hwf Hu).
  cbv beta iota. rewrite enum_cast_to_uint. unfold InventoryItem.bind_identifier, on_field, Hash.serialization.
  rewrite (array_reads h256_size _ Hl _ _ rest) by (by eapply wf_advance || by eapply unread_advance).
  rewrite advance_advance. unfold item_bytes. rewrite zlen_app. by destruct o.
Qed.

(** The size computation goes through the branch meant for deserialization. *)
Lemma item_counts o : item_ok o ->
  counts (InventoryItem.serialization kComputeSize) o 36 (InventoryItem.set_type InventoryItem.kError o).
Proof.
  intros _ s. unfold InventoryItem.serialization. rewrite decide_False by done.
  change 36 with (4 + 32). by rewrite <- add_computed_add.
Qed.

(** An inventory item survives serialization, takes 36 octets and any type
    number above 3 is refused; but computing its size also sets the type of the
    item to kError, so an item whose size was asked for is not serialized as
    it was. *)
Theorem inventory_item (o o0 : InventoryItem.t) (s : SDataStream.t) (rest : Bytes) (ty : Z) :
  item_ok o -> wf s -> unread s = [] -> fits s (item_bytes o) ->
  (exists s1 s2, serialize InventoryItem.serialization o s = (Success (), o, s1) /\
    deserialize InventoryItem.serialization o0 s1 = (Success (), o, s2) /\ unread s2 = []) /\
  (serialized_size InventoryItem.serialization o (SDataStream.make kNetwork 0)).1 =
    (36, InventoryItem.set_type InventoryItem.kError o) /\
  (forall s', wf s' -> 3 < ty < 2 ^ 32 -> unread s' = int_bytes uint32_t ty ++ rest ->
    (deserialize InventoryItem.serialization o0 s').1 = (Failure (SerError kInvalidInventoryType), o0)).
Proof.
  intros Ho Hwf Hu Hf. split_and!.
  - apply (roundtrip_of_laws InventoryItem.serialization o (item_bytes o) o (λ _, o));
      auto using item_writes, item_reads.
  - done.
  - intros s' Hwf' Hty Hu'. unfold deserialize, InventoryItem.serialization. rewrite decide_False by done.
    assert (Hr : in_range uint32_t ty) by (split; [lia | apply Hty]).
    rewrite (integral_reads uint32_t ty four_pos Hr _ _ _ Hwf' Hu').
    cbv beta iota. unfold InventoryItem.enum_cast. case_cmps; (lia || done).
Qed.

Definition sample_item : InventoryItem.t := InventoryItem.mk InventoryItem.kBlock (replicate 32 9).

Lemma inventory_item_witness :
  (serialized_size InventoryItem.serialization sample_item (SDataStream.make kNetwork 0)).1 =
    (36, InventoryItem.mk InventoryItem.kError (replicate 32 9)) /\
  (deserialize InventoryItem.serialization sample_item (SDataStream.of_bytes [7; 0; 0; 0] kNetwork 0)).1
    = (Failure (SerError kInvalidInventoryType), sample_item).
Proof.
  destruct (inventory_item sample_item sample_item (SDataStream.make kNetwork 0) [] 7) as (_ & H1 & H2);
    [decide_now | by vm_compute | by vm_compute | by vm_compute |].
  split; [exact H1 | apply H2; by vm_compute].
Defined.

(** *** BlockHeader *)

Section header.
Context `{BoostLaws}.
Import BlockHeader.

Definition members_bytes (h : t) : Bytes :=
  parent_hash h ++ merkle_root h ++ scct_root h ++ int_bytes uint32_t (time h) ++
  int_bytes uint32_t (bits h) ++ big_bytes 32 (nonce h) ++ solution h.

Definition header_bytes (h : t) : Bytes := int_bytes int32_t (version h) ++ members_bytes h.

Lemma zlen_header h : wf h -> zlen (header_bytes h) = kBlockHeaderSerializedSize + zlen (solution h).
Proof.
  intros (_ & [_ L1] & [_ L2] & [_ L3] & _ & _ & Hn & _). unfold header_bytes, members_bytes.
  zlens. rewrite !length_int_bytes, L1, L2, L3, length_big_bytes by (done || lia).
  unfold kBlockHeaderSerializedSize, h256_size. simpl ssizeof. lia.
Qed.

Lemma members_writes h : wf h -> writes (bind_members kSerialize) h (members_bytes h) h.
Proof.
  intros (_ & _ & _ & _ & _ & _ & Hn & _). destruct h. unfold bind_members, members_bytes.
  writes_members; auto using integral_writes, array_writes, bytes_writes, big_writes, Nat.lt_0_succ.
Qed.

Lemma members_counts h : wf h -> counts (bind_members kComputeSize) h (zlen (members_bytes h)) h.
Proof.
  intros (_ & [_ L1] & [_ L2] & [_ L3] & _ & _ & Hn & _). destruct h. unfold bind_members, members_bytes.
  rewrite !zlen_app.
  counts_members; auto using integral_counts, array_counts, bytes_counts, big_counts, Nat.lt_0_succ.
Qed.

(** The members are read one after the other, the solution takes what is left. *)
Definition set_members (h o : t) : t :=
  mk (version o) (parent_hash h) (merkle_root h) (scct_root h) (time h) (bits h)
     (big_decoded 32 (nonce h)) (solution h).

Lemma members_reads h : wf h -> reads_all (bind_members kDeserialize) (members_bytes h) (set_members h).
Proof.
  intros (_ & [_ L1] & [_ L2] & [_ L3] & Ht & Hb & Hn & _). unfold bind_members, members_bytes.
  eapply reads_all_ext; [|].
  { do 3 (reads_member (array_reads h256_size); [done|]).
    do 2 (reads_member (integral_reads uint32_t); [apply four_pos | done |]).
    reads_member (big_reads 32); [lia | done |]. apply bytes_field_reads_all. }
  by intros [].
Qed.

(** The octets that [version] and then the other members produce. *)
Lemma header_writes h s : wf h -> fits s (header_bytes h) ->
  serialization kSerialize h s =
    (Success (), h, append (header_bytes h) (SDataStream.set_version (version h) s)).
Proof.
  intros Hh Hf. unfold serialization, header_bytes in *. unfold ser_then at 1, on_field.
  rewrite integral_writes by (by eapply fits_app_l). destruct h as [v p m c t b n x]. cbv beta iota.
  unfold ser_then. rewrite (members_writes (mk v p m c t b n x) Hh) by (by apply fits_append in Hf).
  by rewrite <- append_append.
Qed.

Lemma header_reads h o s : wf h -> Laws.wf s -> unread s = header_bytes h ->
  exists s', serialization kDeserialize o s = (Success (), set_members h (set_version (version h) o), s') /\
    unread s' = [] /\ SDataStream.version_ s' = version h.
Proof.
  intros Hh Hwf Hu. unfold serialization, header_bytes in *. unfold ser_then at 1, on_field.
  pose proof (proj1 Hh) as Hv.
  rewrite (integral_reads int32_t (version h) (Nat.lt_0_succ 3) Hv _ _ _ Hwf Hu). cbv beta iota. unfold ser_then.
  set (s1 := SDataStream.set_version _ _).
  assert (Hwf1 : Laws.wf s1) by (by eapply wf_advance).
  assert (Hu1 : unread s1 = members_bytes h) by (by eapply unread_advance).
  rewrite (members_reads h Hh _ s1 Hwf1 Hu1). eexists. split; [done|]. split; [|done].
  apply unread_advance; [done | by rewrite Hu1, app_nil_r].
Qed.

(** A block header occupies 140 octets plus its solution, which is what the
    size computation reports; every member is restored by deserialization, the
    nonce exactly when it is zero or its export fills all 32 octets, and the
    stream takes the version of the header. *)
Theorem block_header (h o : t) (s : SDataStream.t) :
  wf h -> Laws.wf s -> unread s = [] -> fits s (header_bytes h) ->
  (serialized_size serialization h (SDataStream.make kNetwork 0)).1 =
    (kBlockHeaderSerializedSize + zlen (solution h), h) /\
  exists s1 s2 h', serialize serialization h s = (Success (), h, s1) /\
    deserialize serialization o s1 = (Success (), h', s2) /\ unread s2 = [] /\
    SDataStream.version_ s2 = version h /\
    set_nonce (nonce h) h' = h /\
    (h' = h <-> nonce h = 0 \/ length (export_bits (nonce h)) = 32%nat).
Proof.
  intros Hh Hwf Hu Hf. split.
  - rewrite <- (zlen_header h Hh). unfold serialized_size, serialization, ser_then at 1, on_field.
    rewrite integral_counts. cbv beta iota. unfold ser_then.
    replace (set_version (version h) h) with h by (by destruct h).
    rewrite (members_counts h Hh). unfold header_bytes. by rewrite zlen_app.
  - pose proof (header_writes h s Hh Hf) as Hw. eexists.
    set (s1 := append _ _) in Hw.
    assert (Hwf1 : Laws.wf s1) by (by apply (wf_append _ (SDataStream.set_version (version h) s))).
    assert (Hu1 : unread s1 = header_bytes h)
      by (unfold s1; rewrite unread_append by done; change (unread _) with (unread s); by rewrite Hu).
    destruct (header_reads h o s1 Hh Hwf1 Hu1) as (s2 & Hr & Hu2 & Hv2).
    exists s2, (set_members h (set_version (version h) o)). split_and!; try done.
    + by destruct h, o.
    + rewrite <- (big_decoded_id 32) by (lia || apply Hh).
      destruct h, o; unfold set_members; simpl. split; [by injection 1 | by intros ->].
Qed.
End header.

(** A lexicographic step: equality goes on to the next member. *)
Lemma compare_then c d :
  (BlockHeader.or_else c d = Eq <-> c = Eq /\ d = Eq) /\
  BlockHeader.or_else (CompOpp c) (CompOpp d) = CompOpp (BlockHeader.or_else c d).
Proof. destruct c, d; simpl; intuition done. Qed.

Lemma hash_compare_eq n a b : hash_ok n a -> hash_ok n b -> Hash.compare a b = Eq <-> a = b.
Proof.
  intros [Ha La] [Hb Lb]. rewrite compare_be_value, Z.compare_eq_iff by congruence.
  split; [apply be_value_inj; congruence | by intros ->].
Qed.

Lemma hash_compare_antisym a b : Hash.compare b a = CompOpp (Hash.compare a b).
Proof.
  revert b. induction a as [|x a IH]; intros [|y b]; try done. simpl.
  rewrite (Z.compare_antisym x y), IH. by destruct (x ?= y).
Qed.

(** The comparison of block headers is a lexicographic order on all the members
    but the solution: headers that compare equal can differ only there. *)
Lemma block_header_order (a b : BlockHeader.t) :
  BlockHeader.wf a -> BlockHeader.wf b ->
  (BlockHeader.compare a b = Eq <-> BlockHeader.set_solution [] a = BlockHeader.set_solution [] b) /\
  BlockHeader.compare b a = CompOpp (BlockHeader.compare a b).
Proof.
  intros (_ & P1 & M1 & S1 & _) (_ & P2 & M2 & S2 & _). unfold BlockHeader.compare. split.
  - rewrite !(proj1 (compare_then _ _)), !Z.compare_eq_iff, !(hash_compare_eq h256_size) by done.
    destruct a, b; unfold BlockHeader.set_solution; simpl.
    split; [intros (-> & -> & -> & -> & -> & -> & ->); done | by injection 1].
  - rewrite (hash_compare_antisym (BlockHeader.parent_hash a)), (hash_compare_antisym (BlockHeader.merkle_root a)),
      (hash_compare_antisym (BlockHeader.scct_root a)), (Z.compare_antisym (BlockHeader.version a)),
      (Z.compare_antisym (BlockHeader.time a)), (Z.compare_antisym (BlockHeader.bits a)),
      (Z.compare_antisym (BlockHeader.nonce a)).
    by rewrite !(proj2 (compare_then _ _)).
Qed.

End TypesTheorems.
