(* ===== verification/Random.v ===== *)
(** * Random numbers and the Jenkins hash

    Models of [src/src/core/common/random.hpp], [random.cpp] and of
    [src/src/core/crypto/jenkins.cpp] with its use in
    [src/src/core/types/hash.hpp].  The generator of the standard library is an
    argument: the draw it makes from a range. *)

From S2P Require Import Prelude Types.
#[local] Open Scope Z_scope.

Module Random.

(** A draw from a range, both ends included. *)
Definition draw_ok (draw : Z -> Z -> Z) : Prop := forall lo hi, lo <= hi -> lo <= draw lo hi <= hi.

Definition randomize (draw : Z -> Z -> Z) (lo hi : Z) : Z := if lo =? hi then lo else draw lo hi.

(** [randomize(val, percentage)] for an unsigned type of [w] bits. [scaled p v]
    is the product of [v] and [p] percent in double precision, as an integer: of
    its argument, the percentage, only what exceeds 100 matters. *)
Definition randomize_around (w : Z) (draw : Z -> Z -> Z) (scaled : Z -> Z -> Z) (val percentage : Z) : Z :=
  if (val =? 0) || (percentage =? 0) then val
  else
    let percentage := Z.max 100 (Z.abs percentage) in
    let variance := scaled percentage val in
    if variance =? 0 then val
    else
      let lo := if variance <? val then val - variance else 0 in
      let hi := if val <? 2 ^ w - 1 - variance then val + variance else 2 ^ w - 1 in
      randomize draw lo hi.

(** The thread local state of [randbits]. *)
Record bits_state := { bit_buffer : Z; bit_buffer_size : Z }.

Definition randbits (draw : Z -> Z -> Z) (bits : Z) (s : bits_state) : Z * bits_state :=
  if bits =? 0 then (0, s)
  else
    let bits := Z.min bits 63 in
    if 32 <? bits then (Z.shiftr (randomize draw 0 (2 ^ 64 - 1)) (64 - bits), s)
    else
      let s := if bit_buffer_size s <? bits then
                 let b := randomize draw 0 (2 ^ 64 - 1) in
                 {| bit_buffer := b; bit_buffer_size := wrap 8 (wrap 64 (b * 8)) |}
               else s in
      (Z.land (bit_buffer s) (Z.shiftr (2 ^ 64 - 1) (64 - bits)),
       {| bit_buffer := Z.shiftr (bit_buffer s) bits; bit_buffer_size := wrap 8 (bit_buffer_size s - bits) |}).

(** ** Properties *)

Lemma randomize_range draw lo hi : draw_ok draw -> lo <= hi -> lo <= randomize draw lo hi <= hi.
Proof. intros Hd Hl. unfold randomize. destruct (Z.eqb_spec lo hi); [lia|]. by apply Hd. Qed.

Lemma mask_of_bits bits : 0 < bits <= 64 -> Z.shiftr (2 ^ 64 - 1) (64 - bits) = Z.ones bits.
Proof.
  intros Hb. replace (2 ^ 64 - 1) with (Z.ones 64) by done. rewrite Z.shiftr_div_pow2 by lia.
  rewrite Z.ones_div_pow2 by lia. f_equal. lia.
Qed.

(** The result has at most the bits asked for. *)
Lemma randbits_range draw bits s : draw_ok draw -> 0 <= bits <= 63 -> 0 <= bit_buffer s ->
  0 <= (randbits draw bits s).1 < 2 ^ bits /\ 0 <= bit_buffer (randbits draw bits s).2.
Proof.
  intros Hd Hb Hs. unfold randbits. destruct (Z.eqb_spec bits 0) as [->|Hn]; [by simpl|]. cbv zeta.
  rewrite Z.min_l by lia. pose proof (randomize_range draw 0 (2 ^ 64 - 1) Hd ltac:(done)) as Hr. destruct (Z.ltb_spec 32 bits).
  - cbn [fst snd]. split; [|done]. rewrite Z.shiftr_div_pow2 by lia. split; [apply Z.div_pos; lia|].
    apply Z.div_lt_upper_bound; [lia|]. rewrite <- Z.pow_add_r by lia. replace (64 - bits + bits) with 64 by lia. lia.
  - set (s' := if bit_buffer_size s <? bits then _ else s). assert (Hs' : 0 <= bit_buffer s').
    { unfold s'. destruct (_ <? _); cbn; lia. }
    cbn [fst snd bit_buffer]. rewrite mask_of_bits, Z.land_ones by lia. split; [apply Z.mod_pos_bound; lia|].
    by apply Z.shiftr_nonneg.
Qed.

(** The count of buffered bits is computed from the value of the buffer instead
    of its width: a buffer of five bits is taken for one of 248, and eight draws
    of 30 bits are made from it, of which the last seven are zero. *)
Lemma randbits_exhausted (draw : Z -> Z -> Z) : draw 0 (2 ^ 64 - 1) = 31 ->
  let s0 := {| bit_buffer := 0; bit_buffer_size := 0 |} in
  let step := λ s, (randbits draw 30 s).2 in
  (randbits draw 30 s0).1 = 31 /\
  forall n, (n < 7)%nat -> (randbits draw 30 (Nat.iter n step (step s0))).1 = 0.
Proof.
  intros Hd s0 step.
  assert (H0 : randbits draw 30 s0 = (31, {| bit_buffer := 0; bit_buffer_size := 218 |})).
  { unfold randbits, randomize. simpl bit_buffer_size. cbv beta iota zeta delta [s0 bit_buffer_size bit_buffer].
    change (30 =? 0) with false. change (Z.min 30 63) with 30. change (32 <? 30) with false. change (0 <? 30) with true.
    change (0 =? 2 ^ 64 - 1) with false. cbv iota. rewrite Hd. done. }
  unfold step at 2. rewrite H0. split; [done|]. intros n Hn.
  do 7 (destruct n as [|n]; [done|]). lia.
Qed.

(** For percentages up to 100 the range does not depend on the percentage: it
    goes from zero to twice the value. *)
Lemma randomize_ignores_percentage w draw scaled val percentage :
  (forall v, scaled 100 v = v) -> draw_ok draw -> 0 < val -> 2 * val < 2 ^ w - 1 -> 0 < Z.abs percentage <= 100 ->
  randomize_around w draw scaled val percentage = draw 0 (2 * val).
Proof.
  intros Hs Hd Hv Hw Hp. unfold randomize_around. rewrite !(proj2 (Z.eqb_neq _ 0)) by lia. cbn [orb]. cbv zeta.
  rewrite Z.max_l, Hs by lia. rewrite (proj2 (Z.eqb_neq _ 0)) by lia. rewrite Z.ltb_irrefl.
  rewrite (proj2 (Z.ltb_lt _ _)) by lia. unfold randomize. rewrite (proj2 (Z.eqb_neq _ _)) by lia. f_equal. lia.
Qed.

(** [draw i] is the draw for the octet or the letter at [i]. *)
Definition get_random_bytes (draw : nat -> Z -> Z -> Z) (size : nat) : Bytes := (λ i, wrap 8 (draw i 0 255)) <$> seq 0 size.

Definition kAlphaNum : Bytes := str "0123456789abcdefghijklmnopqrstuvwxyz".

Definition get_random_alpha_string (draw : nat -> Z -> Z -> Z) (length : nat) : Bytes :=
  (λ i, default 48 (kAlphaNum !! Z.to_nat (randomize (draw i) 0 (zlen kAlphaNum - 1)))) <$> seq 0 length.

(** As many letters as were asked for, all of the alphabet: the index of a draw is within it. *)
Lemma random_alpha draw n : (forall i, draw_ok (draw i)) ->
  length (get_random_alpha_string draw n) = n /\ Forall (λ c, c ∈ kAlphaNum) (get_random_alpha_string draw n).
Proof.
  intros Hd. unfold get_random_alpha_string. split; [by rewrite length_fmap, length_seq|]. apply Forall_fmap, Forall_forall. intros i _. cbn [compose].
  set (k := Z.to_nat _). assert (Hk : (k < length kAlphaNum)%nat).
  { unfold k. change (length kAlphaNum) with 36%nat. unfold randomize. case_match; [lia|]. specialize (Hd i 0 35 ltac:(lia)). change (Z.of_nat 36 - 1) with 35. lia. }
  destruct (lookup_lt_is_Some_2 kAlphaNum k Hk) as [c Hc]. rewrite Hc. by apply list_elem_of_lookup_2 in Hc.
Qed.

End Random.

(** ** Jenkins lookup3 *)

Module Jenkins.

Definition w32 (z : Z) : Z := wrap 32 z.

(** [std::rotl] *)
Definition rotl (x k : Z) : Z := Z.lor (w32 (Z.shiftl x k)) (Z.shiftr x (32 - k)).

Record abc := { a : Z; b : Z; c : Z }.

Definition HashMix (s : abc) : abc :=
  let '{| a := a; b := b; c := c |} := s in
  let a := w32 (a - c) in let a := Z.lxor a (rotl c 4) in let c := w32 (c + b) in
  let b := w32 (b - a) in let b := Z.lxor b (rotl a 6) in let a := w32 (a + c) in
  let c := w32 (c - b) in let c := Z.lxor c (rotl b 8) in let b := w32 (b + a) in
  let a := w32 (a - c) in let a := Z.lxor a (rotl c 16) in let c := w32 (c + b) in
  let b := w32 (b - a) in let b := Z.lxor b (rotl a 19) in let a := w32 (a + c) in
  let c := w32 (c - b) in let c := Z.lxor c (rotl b 4) in let b := w32 (b + a) in
  {| a := a; b := b; c := c |}.

Definition HashFinal (s : abc) : abc :=
  let '{| a := a; b := b; c := c |} := s in
  let c := Z.lxor c b in let c := w32 (c - rotl b 14) in
  let a := Z.lxor a c in let a := w32 (a - rotl c 11) in
  let b := Z.lxor b a in let b := w32 (b - rotl a 25) in
  let c := Z.lxor c b in let c := w32 (c - rotl b 16) in
  let a := Z.lxor a c in let a := w32 (a - rotl c 4) in
  let b := Z.lxor b a in let b := w32 (b - rotl a 14) in
  let c := Z.lxor c b in let c := w32 (c - rotl b 24) in
  {| a := a; b := b; c := c |}.

(** The loop over whole blocks, as long as more than three words are left. *)
Fixpoint hash_blocks (source salt : list Z) (s : abc) : list Z * list Z * abc :=
  match source, salt with
  | s0 :: s1 :: s2 :: ((_ :: _) as source), t0 :: t1 :: t2 :: salt =>
      hash_blocks source salt
        (HashMix {| a := w32 (a s + Z.lxor s0 t0); b := w32 (w32 (b s + Z.lxor s1 t1) + Z.lxor s2 t2); c := c s |})
  | _, _ => (source, salt, s)
  end.

(** The switch on what is left. *)
Definition hash_tail (source salt : list Z) (s : abc) : abc :=
  match source, salt with
  | [s0; s1; s2], [t0; t1; t2] =>
      HashFinal {| a := a s; b := w32 (b s + Z.lxor s1 t1); c := w32 (c s + Z.lxor s2 t2) |}
  | [s0; s1], [t0; t1] => HashFinal {| a := a s; b := w32 (b s + Z.lxor s1 t1); c := c s |}
  | [s0], [t0] => HashFinal s
  | _, _ => s
  end.

Definition Hash (source salt : list Z) : Z :=
  let width := w32 (4 * zlen source) in
  let a := w32 (0xdeadbeef + width) in
  let '(source, salt, s) := hash_blocks source salt {| a := a; b := a; c := a |} in
  let s := hash_tail source salt s in
  Z.lor (Z.shiftl (b s) 32) (c s).

(** The words of a hash, on a little endian machine. *)
Fixpoint words (n : nat) (bs : Bytes) : list Z :=
  match n with O => [] | S n => le_value (take 4 bs) :: words n (drop 4 bs) end.

(** [Hash<BITS>::hash] *)
Definition hash (size : nat) (h salt : Bytes) : Z :=
  Hash (words (size / 4) h) (words (size / 4) salt).

(** ** Properties *)

(** Three words at a time. *)
Definition flatten (l : list (Z * Z * Z)) : list Z := concat ((λ t, [t.1.1; t.1.2; t.2]) <$> l).

Fixpoint mix_blocks (l m : list (Z * Z * Z)) (s : abc) : abc :=
  match l, m with
  | (s0, s1, s2) :: l, (t0, t1, t2) :: m =>
      mix_blocks l m
        (HashMix {| a := w32 (a s + Z.lxor s0 t0); b := w32 (w32 (b s + Z.lxor s1 t1) + Z.lxor s2 t2); c := c s |})
  | _, _ => s
  end.

Lemma hash_blocks_spec l : forall m x tail t s, length l = length m -> (length tail <= 2)%nat ->
  hash_blocks (flatten l ++ x :: tail) (flatten m ++ t) s = (x :: tail, t, mix_blocks l m s).
Proof.
  induction l as [|[[s0 s1] s2] l IH]; intros [|[[t0 t1] t2] m] x tail t s Hl Ht; try done.
  - cbn [flatten fmap list_fmap concat app mix_blocks]. destruct tail as [|y [|z [|]]]; simpl in Ht; try lia; done.
  - unfold flatten. cbn [fmap list_fmap concat app fst snd]. fold (flatten l) (flatten m). cbn [hash_blocks mix_blocks].
    rewrite <- IH by (simpl in Hl; lia). by destruct l as [|[[? ?] ?] ?].
Qed.

Lemma hash_tail_blind x y tail t s : hash_tail (x :: tail) t s = hash_tail (y :: tail) t s.
Proof. done. Qed.

Lemma length_words n bs : length (words n bs) = n.
Proof. revert bs. induction n as [|n IH]; intros bs; [done|]. cbn. by rewrite IH. Qed.

(** The first word of the last block does not take part: messages that differ
    there have the same hash. *)
Lemma hash_first_of_tail l m x y tail t : length l = length m -> (length tail <= 2)%nat ->
  Hash (flatten l ++ x :: tail) (flatten m ++ t) = Hash (flatten l ++ y :: tail) (flatten m ++ t).
Proof.
  intros Hl Ht. unfold Hash. rewrite !length_app. cbn [length]. rewrite !hash_blocks_spec by done.
  by rewrite (hash_tail_blind x y).
Qed.

Lemma hash_eight w0 w1 w2 w3 w4 w5 x y w7 t0 t1 t2 t3 t4 t5 t6 t7 :
  Hash [w0; w1; w2; w3; w4; w5; x; w7] [t0; t1; t2; t3; t4; t5; t6; t7] =
  Hash [w0; w1; w2; w3; w4; w5; y; w7] [t0; t1; t2; t3; t4; t5; t6; t7].
Proof.
  exact (hash_first_of_tail [(w0, w1, w2); (w3, w4, w5)] [(t0, t1, t2); (t3, t4, t5)] x y [w7] [t6; t7] eq_refl
    ltac:(simpl; lia)).
Qed.

(** Two hashes of 256 bits that agree on all octets but those from the 25th to
    the 28th are hashed to the same value, whatever the salt: the last block of
    their eight words has two, and of these only the second takes part. *)
Theorem jenkins_blind (h h' salt : Bytes) :
  length h = 32%nat -> length h' = 32%nat -> take 24 h = take 24 h' -> drop 28 h = drop 28 h' ->
  hash h256_size h salt = hash h256_size h' salt.
Proof.
  intros L L' E1 E2.
  do 32 (destruct h as [|? h]; [discriminate L|]). destruct h; [|discriminate L].
  do 32 (destruct h' as [|? h']; [discriminate L'|]). destruct h'; [|discriminate L'].
  cbn [take drop] in E1, E2. injection E1 as -> -> -> -> -> -> -> -> -> -> -> -> -> -> -> -> -> -> -> -> -> -> -> ->.
  injection E2 as -> -> -> ->. unfold hash. change (h256_size / 4)%nat with 8%nat.
  set (t := words 8 salt). assert (Ht : length t = 8%nat) by apply length_words.
  clearbody t. do 8 (destruct t as [|? t]; [discriminate Ht|]). destruct t; [|discriminate Ht]. cbn [words take drop].
  apply hash_eight.
Qed.

End Jenkins.
