(* ===== verification/Amounts.v ===== *)
(** * Amounts

    Model of [src/src/core/types/amounts.cpp] and [amounts.hpp].  An [Amount] is
    its [int64_t] value; arithmetic that leaves the range of the type is
    undefined behaviour. *)

From S2P Require Import Prelude Stream Serialize Text.

Definition kKB : Z := 1000.
Definition kCoinMaxDecimals : Z := 8.
Definition kCoin : Z := 100000000.
Definition kCoinMaxSupply : Z := 21000000.
Definition kCurrency : Bytes := str "ZEN".

Module Amount.

Definition kMax : Z := kCoinMaxSupply * kCoin.

Definition valid_money (value_ : Z) : bool := (0 <=? value_) && (value_ <=? kMax).

(** The result of signed arithmetic. *)
Definition int64 (z : Z) : outcome Z :=
  if decide (in_range int64_t z) then Success z else Fault UndefinedBehaviour.

Definition add (value_ value : Z) : outcome Z := int64 (value_ + value).
Definition sub (value_ value : Z) : outcome Z := int64 (value_ - value).
Definition mul (value_ value : Z) : outcome Z := int64 (value_ * value).
Definition div (value_ value : Z) : outcome Z :=
  if value =? 0 then Fault UndefinedBehaviour else int64 (Z.quot value_ value).
Definition rem (value_ value : Z) : outcome Z :=
  if value =? 0 then Fault UndefinedBehaviour
  else let? _ := int64 (Z.quot value_ value) in int64 (Z.rem value_ value).

(** The groups matched by [^(\d{0,8})(\.\d{0,8})?$]; the second one without its
    point, absent when the group is. *)
Definition match_pattern (input : Bytes) : option (Bytes * option Bytes) :=
  let (whole, rest) := span_digits input in
  if zlen (decimal kCoinMaxSupply) <? zlen whole then None
  else match rest with
       | [] => Some (whole, None)
       | c :: fract =>
           if (c =? 46) && (zlen fract <=? kCoinMaxDecimals) && forallb is_digit fract
           then Some (whole, Some fract) else None
       end.

(** [resize(n, '0')] *)
Definition resize (n : Z) (l : Bytes) : Bytes :=
  ztake n l ++ replicate (Z.to_nat n - length l) 48.

Definition from_string (input : Bytes) : outcome Z :=
  match match_pattern input with
  | None => Failure (Errc invalid_argument)
  | Some (whole_part, fract_part) =>
      let fract_part := match fract_part with None => [] | Some f => resize kCoinMaxDecimals f end in
      let? scaled := mul (digits_value whole_part) kCoin in
      let? value := add scaled (digits_value fract_part) in
      if negb (valid_money value) then Failure (Errc result_out_of_range) else Success value
  end.

(** The loop that strips trailing zeroes, and the point when it comes last; on
    the reversed text. *)
Fixpoint strip (formatted : Bytes) : Bytes :=
  match formatted with
  | [] => []
  | c :: l => if c =? 48 then strip l else if c =? 46 then l else formatted
  end.

Definition to_string (value_ : Z) : Bytes :=
  if value_ =? 0 then str "0 " ++ kCurrency
  else
    let quot := Z.quot value_ kCoin in
    let rem := Z.rem value_ kCoin in
    let (sign, rem) := if value_ <? 0 then ([45], rem * -1) else ([], rem) in
    let formatted := sign ++ decimal quot ++ [46] ++ padded 8 rem in
    rev (strip (rev formatted)) ++ str " " ++ kCurrency.

End Amount.

Module FeeRate.

(** [FeeRate(paid, size)], [size] being a [size_t]. *)
Definition make (paid size : Z) : outcome Z :=
  if size =? 0 then Success 0
  else let? scaled := Amount.mul paid kKB in Amount.div scaled (sign 64 size).

Definition fee (value_ bytes_size : Z) : outcome Z :=
  let? scaled := Amount.mul value_ (sign 64 bytes_size) in
  let? ret := Amount.div scaled kKB in
  Success (if ret =? 0 then value_ else ret).

Definition to_string (value_ : Z) : Bytes := Amount.to_string value_ ++ str "/K".

End FeeRate.

(** ** Properties *)

Module AmountTheorems.
Import Amount.

(** The text of a positive amount without the currency. *)
Definition strip_fraction (f : Bytes) : Bytes := rev (strip (rev f)).

Lemma strip_zeros_cons (l r : Bytes) : all_digits l ->
  strip (rev l ++ 46 :: r) =
    match strip (rev l) with [] => r | s => s ++ 46 :: r end.
Proof.
  intros Hl. induction l as [|c l IH] using rev_ind; [done|].
  apply Forall_app in Hl as [Hl Hc]. apply Forall_cons in Hc as [Hc _].
  rewrite rev_app_distr. simpl. case_cmp; [by apply IH|].
  unfold is_digit in Hc. prop_bools. case_cmp; [lia|done].
Qed.

(** Stripping undoes zero padding. *)
Lemma strip_fraction_spec (l : Bytes) : all_digits l ->
  exists k, l = strip_fraction l ++ replicate k 48.
Proof.
  unfold strip_fraction. intros Hl. induction l as [|c l IH] using rev_ind; [by exists O|].
  apply Forall_app in Hl as [Hl Hc]. apply Forall_cons in Hc as [Hc _].
  rewrite rev_app_distr. simpl. case_cmp; [subst|].
  - destruct (IH Hl) as [k Hk]. exists (S k). rewrite replicate_S_end, app_assoc. by rewrite <- Hk.
  - unfold is_digit in Hc. prop_bools. case_cmp; [lia|]. exists O. simpl. by rewrite rev_involutive, app_nil_r.
Qed.

Definition with_point (f : Bytes) : Bytes := match f with [] => [] | _ => 46 :: f end.

Definition magnitude (v : Z) : Bytes :=
  decimal (v / kCoin) ++ with_point (strip_fraction (padded 8 (v mod kCoin))).

Lemma strip_formatted (pre : Bytes) (r : Z) :
  rev (strip (rev (pre ++ [46] ++ padded 8 r))) =
  pre ++ with_point (strip_fraction (padded 8 r)).
Proof.
  rewrite !rev_app_distr, <- app_assoc. change (rev [46] ++ rev pre) with (46 :: rev pre).
  rewrite strip_zeros_cons by apply padded_digits. unfold strip_fraction.
  destruct (strip (rev (padded 8 r))) as [|c l].
  - simpl. by rewrite rev_involutive, app_nil_r.
  - rewrite rev_app_distr. simpl rev at 1. rewrite rev_involutive, <- app_assoc. simpl app.
    destruct (rev l ++ [c]) eqn:E; [by apply app_nil in E as [_ ?]|done].
Qed.

Lemma to_string_pos v : 0 < v -> to_string v = magnitude v ++ str " ZEN".
Proof.
  intros Hv. unfold to_string, magnitude. case_cmps; try lia.
  rewrite Z.quot_div_nonneg, Z.rem_mod_nonneg by (unfold kCoin; lia). rewrite app_nil_l.
  rewrite (strip_formatted (decimal (v / kCoin)) (v mod kCoin)). done.
Qed.

Lemma decimal_neg q : 0 < q -> decimal (- q) = 45 :: decimal q.
Proof. intros Hq. unfold decimal. case_cmps; try lia. by rewrite Z.opp_involutive. Qed.

Lemma to_string_neg v : 0 < v ->
  to_string (- v) = 45 :: (if v <? kCoin then [] else [45]) ++ to_string v.
Proof.
  intros Hv. rewrite (to_string_pos v) by done. unfold to_string.
  rewrite (proj2 (Z.eqb_neq (- v) 0)), (proj2 (Z.ltb_lt (- v) 0)) by lia.
  assert (Hc : kCoin <> 0) by (unfold kCoin; lia).
  rewrite Z.quot_opp_l, Z.rem_opp_l by done.
  rewrite Z.quot_div_nonneg, Z.rem_mod_nonneg by (unfold kCoin; lia).
  replace (- (v mod kCoin) * -1) with (v mod kCoin) by lia.
  rewrite (app_assoc [45]), strip_formatted. unfold magnitude. rewrite <- !app_assoc. cbn [app]. f_equal.
  case_cmp.
  - by rewrite Z.div_small by lia.
  - rewrite decimal_neg by (apply Z.div_str_pos; unfold kCoin in *; lia). done.
Qed.

Lemma match_magnitude v : 0 <= v <= kMax -> exists f,
  match_pattern (magnitude v) = Some (decimal (v / kCoin), f) /\
  digits_value (match f with None => [] | Some f => resize kCoinMaxDecimals f end) = v mod kCoin.
Proof.
  intros Hv. unfold match_pattern, magnitude.
  assert (Hq : 0 <= v / kCoin < 10 ^ Z.of_nat 8)
    by (unfold kMax, kCoinMaxSupply, kCoin in *; split; [apply Z.div_pos | apply Z.div_lt_upper_bound]; lia).
  assert (Hr : 0 <= v mod kCoin < 10 ^ 8) by (unfold kCoin; apply Z.mod_pos_bound; lia).
  assert (Hl : (length (decimal (v / kCoin)) <= 8)%nat).
  { unfold decimal. case_cmp; [lia|]. by apply length_decimal_fuel. }
  set (p := padded 8 (v mod kCoin)).
  assert (Hp : all_digits p) by apply padded_digits.
  destruct (strip_fraction_spec p Hp) as [k Hk].
  assert (Hlen : length p = 8%nat) by apply length_padded.
  assert (Hval : digits_value p = v mod kCoin)
    by (unfold p; rewrite padded_value, Z.mod_small; simpl; lia).
  set (f := strip_fraction p) in *.
  rewrite Hk, length_app, length_replicate in Hlen.
  rewrite span_digits_app; [|apply decimal_digits; lia | by destruct f; intros ?? [= <- <-]].
  change (zlen (decimal kCoinMaxSupply)) with 8. case_cmp; [lia|]. clear H.
  destruct f as [|c f'] eqn:Ef; simpl with_point; cbv iota.
  - exists None. split; [done|]. rewrite <- Hval, Hk, app_nil_l. by rewrite digits_value_zeros.
  - rewrite <- Ef in *. exists (Some f). rewrite Z.eqb_refl. simpl andb.
    rewrite (proj2 (Z.leb_le _ _)) by (unfold kCoinMaxDecimals; lia). simpl andb.
    rewrite (proj2 (forallb_forall _ _)).
    + split; [done|]. rewrite <- Hval, Hk. unfold resize, kCoinMaxDecimals.
      rewrite ztake_ge by lia. do 3 f_equal. lia.
    + rewrite Hk in Hp. apply Forall_app in Hp as [Hp _].
      intros x Hx. rewrite Forall_forall in Hp. apply Hp. by apply list_elem_of_In.
Qed.

Lemma zlen_fraction (f : option Bytes) :
  zlen (match f with None => [] | Some f => resize kCoinMaxDecimals f end) <= 8.
Proof.
  destruct f as [f|]; [|simpl; lia]. unfold resize, kCoinMaxDecimals. zlens. lia.
Qed.

Lemma match_pattern_digits input whole f : match_pattern input = Some (whole, f) ->
  all_digits whole /\ zlen whole <= 8 /\
  all_digits (match f with None => [] | Some f => resize kCoinMaxDecimals f end).
Proof.
  unfold match_pattern. destruct (span_digits input) as [w rest] eqn:Es.
  apply span_digits_spec in Es as (_ & Hw & _). change (zlen (decimal kCoinMaxSupply)) with 8.
  case_cmp; [done|]. destruct rest as [|c r].
  - intros [= <- <-]. split_and!; [done | done | constructor].
  - destruct (_ && _) eqn:E; [|done]. intros [= <- <-]. prop_bools. split_and!; [done | done |].
    unfold resize. apply Forall_app. split.
    + apply Forall_take, Forall_forall. intros x Hx. eapply forallb_forall; [done|]. by apply list_elem_of_In.
    + by apply Forall_replicate.
Qed.

Lemma from_string_spec input whole f :
  match_pattern input = Some (whole, f) ->
  let value := digits_value whole * kCoin +
    digits_value (match f with None => [] | Some f => resize kCoinMaxDecimals f end) in
  from_string input = if valid_money value then Success value else Failure (Errc result_out_of_range).
Proof.
  intros Hm value. unfold from_string. rewrite Hm.
  set (fr := match f with None => [] | Some f => resize kCoinMaxDecimals f end).
  destruct (match_pattern_digits _ _ _ Hm) as (Hw & Hwl & Hf).
  pose proof (digits_value_bound whole Hw). pose proof (digits_value_bound fr Hf).
  assert (10 ^ zlen whole <= 10 ^ 8) by (apply Z.pow_le_mono_r; lia).
  assert (10 ^ zlen fr <= 10 ^ 8) by (apply Z.pow_le_mono_r; [lia | apply zlen_fraction]).
  unfold mul, add, int64, in_range. simpl is_signed. cbv iota. unfold bits. simpl ssizeof.
  rewrite decide_True by (unfold kCoin; lia). simpl. rewrite decide_True by (unfold kCoin; lia). simpl.
  change (digits_value whole * kCoin + digits_value fr) with value. by destruct (valid_money value).
Qed.

(** Printing and parsing amounts: the text of a valid amount, without the
    currency, parses back to it; the text of a negative amount is the one of its
    opposite after a minus sign, but from one coin on it carries two. *)
Theorem amount_text (v n : Z) :
  0 <= v <= kMax -> 0 < n <= 2 ^ 63 ->
  (exists text, to_string v = text ++ str " ZEN" /\ from_string text = Success v) /\
  to_string (- n) = 45 :: (if n <? kCoin then [] else [45]) ++ to_string n.
Proof.
  intros Hv Hn. split; [|by apply to_string_neg; lia].
  destruct (Z.eq_dec v 0) as [->|]; [by exists [48]|].
  exists (magnitude v). split; [apply to_string_pos; lia|].
  destruct (match_magnitude v Hv) as (f & Hm & Hf).
  rewrite (from_string_spec _ _ _ Hm), Hf, decimal_value, (Z.mul_comm (v / kCoin)).
  - rewrite <- Z.div_mod by (unfold kCoin; lia).
    unfold valid_money. rewrite !(proj2 (Z.leb_le _ _)) by lia. done.
  - unfold kMax, kCoinMaxSupply, kCoin in *. split; [apply Z.div_pos | apply Z.div_lt_upper_bound]; lia.
Qed.

(** What parses is a valid amount, namely whole coins plus the decimals
    read as hundred millionths; every other text is reported as an invalid
    argument, or as out of range when it has the right shape; parsing never
    overflows. *)
Theorem amount_parse (input : Bytes) :
  match from_string input with
  | Success v => 0 <= v <= kMax /\ exists whole f, match_pattern input = Some (whole, f) /\
      v = digits_value whole * kCoin +
        digits_value (match f with None => [] | Some f => resize kCoinMaxDecimals f end)
  | Failure e => (e = Errc invalid_argument /\ match_pattern input = None) \/
      (e = Errc result_out_of_range /\ exists p, match_pattern input = Some p)
  | Fault _ => False
  end.
Proof.
  destruct (match_pattern input) as [[whole f]|] eqn:E.
  - rewrite (from_string_spec _ _ _ E). destruct (valid_money _) eqn:Hv.
    + unfold valid_money in Hv. prop_bools. split; [lia | eauto].
    + right. eauto.
  - unfold from_string. rewrite E. by left.
Qed.

(** The fee of a rate over a size: rounded down, but the rate itself when that
    gives nothing; never more than what was paid for the same size. *)
Lemma fee_spec (paid size : Z) : 0 <= paid <= kMax -> 0 < size <= 4096 ->
  exists rate, FeeRate.make paid size = Success rate /\ rate = paid * kKB / size /\
    exists f, FeeRate.fee rate size = Success f /\
      (f = rate \/ (f = rate * size / kKB /\ f <= paid)).
Proof.
  intros Hp Hs. unfold FeeRate.make, FeeRate.fee, mul, div, int64, in_range, sign.
  simpl is_signed. cbv iota. unfold bits, kKB, kMax, kCoinMaxSupply, kCoin in *. simpl ssizeof.
  case_cmp; [|lia]. case_cmp; [lia|].
  rewrite decide_True by lia. simpl outcome_bind.
  rewrite Z.quot_div_nonneg by lia.
  pose proof (Z.div_pos (paid * 1000) size ltac:(lia) ltac:(lia)).
  pose proof (Z.mul_div_le (paid * 1000) size ltac:(lia)).
  assert (paid * 1000 / size <= paid * 1000) by nia.
  rewrite decide_True by lia. simpl outcome_bind.
  eexists. split; [done|]. split; [done|].
  rewrite decide_True by nia. simpl outcome_bind. rewrite Z.quot_div_nonneg by nia.
  pose proof (Z.div_pos (paid * 1000 / size * size) 1000 ltac:(nia) ltac:(lia)).
  pose proof (Z.mul_div_le (paid * 1000 / size * size) 1000 ltac:(lia)).
  rewrite decide_True by nia. simpl outcome_bind. eexists. split; [done|].
  case_cmp; [by left|right]. split; [done | nia].
Qed.

End AmountTheorems.
