(* ===== verification/Containers.v ===== *)
(** * Bounded containers

    Models of [LruSet] ([src/src/core/common/lru_set.hpp]), [CappedSet]
    ([capped_set.hpp]) and [ObjectPool] ([object_pool.hpp]).  The locks these
    classes take around every member make each call atomic; a history of calls
    is the sequence in which the lock was taken. *)

From stdpp Require Import gmap.
From S2P Require Import Prelude.

(** ** LruSet *)

Module LruSet.
Section LruSet.
Context {Key : Type} `{Countable Key}.

(** A node of the [std::list] has an identity, which is what the iterators in
    [map_] hold; [next_] is the identity of the node created next. *)
Record t := mk {
  max_size_ : nat;
  list_ : list (nat * Key);
  map_ : gmap Key nat;
  next_ : nat;
}.

Definition make (max_size : nat) : t := mk max_size [] ∅ 0.

(** [list_.splice(list_.begin(), list_, it)] *)
Definition splice (it : nat) (l : list (nat * Key)) : list (nat * Key) :=
  filter (λ n, n.1 = it) l ++ filter (λ n, n.1 <> it) l.

Definition insert (item : Key) (s : t) : bool * t :=
  match map_ s !! item with
  | Some it => (false, mk (max_size_ s) (splice it (list_ s)) (map_ s) (next_ s))
  | None =>
      let list' := (next_ s, item) :: list_ s in
      let map' := <[item := next_ s]> (map_ s) in
      if decide (max_size_ s < length list')%nat then
        match last list' with
        | Some back => (true, mk (max_size_ s) (removelast list') (delete back.2 map') (S (next_ s)))
        | None => (true, mk (max_size_ s) list' map' (S (next_ s)))
        end
      else (true, mk (max_size_ s) list' map' (S (next_ s)))
  end.

(** [front] and [back] of an empty list are undefined. *)
Definition front (s : t) : outcome Key :=
  match head (list_ s) with Some n => Success n.2 | None => Fault UndefinedBehaviour end.
Definition back (s : t) : outcome Key :=
  match last (list_ s) with Some n => Success n.2 | None => Fault UndefinedBehaviour end.
Definition contains (item : Key) (s : t) : bool := bool_decide (is_Some (map_ s !! item)).
Definition size (s : t) : nat := length (list_ s).
Definition empty (s : t) : bool := bool_decide (list_ s = []).
Definition items (s : t) : list Key := (list_ s).*2.
Definition clear (s : t) : t := mk (max_size_ s) [] ∅ (next_ s).

End LruSet.
Arguments t Key {_ _}.
End LruSet.

(** ** CappedSet *)

Module CappedSet.
Section CappedSet.
Context {T : Type} `{Countable T}.

(** The queue holds iterators to elements of the set; an iterator is
    represented by the element it points to. *)
Record t := mk { capacity_ : nat; items_ : gset T; items_queue_ : list T }.

Definition make (capacity : nat) : outcome t :=
  if decide (capacity = 0%nat) then Fault AssertionFailed else Success (mk capacity ∅ []).

Definition insert (item : T) (s : t) : outcome bool * t :=
  if decide (item ∈ items_ s) then (Success false, s)
  else if decide (size (items_ s) = capacity_ s) then
    match items_queue_ s with
    | [] => (Fault UndefinedBehaviour, s)
    | front :: q =>
        (Success true, mk (capacity_ s) ({[item]} ∪ items_ s ∖ {[front]}) (q ++ [item]))
    end
  else (Success true, mk (capacity_ s) ({[item]} ∪ items_ s) (items_queue_ s ++ [item])).

Definition contains (item : T) (s : t) : bool := bool_decide (item ∈ items_ s).
Definition size (s : t) : nat := stdpp.base.size (items_ s).
Definition empty (s : t) : bool := bool_decide (items_ s = ∅).
Definition clear (s : t) : t := mk (capacity_ s) ∅ [].

End CappedSet.
Arguments t T {_ _}.
End CappedSet.

(** ** ObjectPool *)

Module ObjectPool.
Section ObjectPool.
Context {T : Type}.

(** A stack of owned pointers. *)
Definition add (ptr : T) (pool_ : list T) : list T := ptr :: pool_.
Definition acquire (pool_ : list T) : option T * list T :=
  match pool_ with [] => (None, []) | p :: rest => (Some p, rest) end.
Definition empty (pool_ : list T) : bool := bool_decide (length pool_ = 0%nat).
Definition size (pool_ : list T) : nat := length pool_.

End ObjectPool.
End ObjectPool.

(** ** Properties *)

Module ContainersTheorems.

(** *** LruSet refines a list with move-to-front *)

Section lru.
Context {Key : Type} `{Countable Key}.
Abbreviation lru := (LruSet.t Key).

(** The abstract set: the keys, most recently used first. *)
Definition lru_spec (max : nat) (item : Key) (l : list Key) : bool * list Key :=
  if decide (item ∈ l) then (false, item :: filter (λ k, k <> item) l)
  else (true, take max (item :: l)).

(** The map is the inverse of the list, whose nodes and keys are distinct. *)
Record lru_inv (s : lru) : Prop := {
  inv_keys : NoDup (LruSet.list_ s).*2;
  inv_nodes : NoDup (LruSet.list_ s).*1;
  inv_fresh : forall n, n ∈ (LruSet.list_ s).*1 -> (n < LruSet.next_ s)%nat;
  inv_map : forall k n, LruSet.map_ s !! k = Some n <-> (n, k) ∈ LruSet.list_ s;
  inv_size : (length (LruSet.list_ s) <= LruSet.max_size_ s)%nat;
}.

Lemma filter_keep {A} (P : A -> Prop) `{forall x, Decision (P x)} (l : list A) :
  (forall x, x ∈ l -> P x) -> filter P l = l.
Proof.
  induction l as [|x l IH]; intros Hl; [done|].
  rewrite filter_cons_True, IH; [done | intros; apply Hl; set_solver | apply Hl; set_solver].
Qed.

Lemma filter_drop_all {A} (P : A -> Prop) `{forall x, Decision (P x)} (l : list A) :
  (forall x, x ∈ l -> ~ P x) -> filter P l = [].
Proof.
  induction l as [|x l IH]; intros Hl; [done|].
  rewrite filter_cons_False; [apply IH; intros; apply Hl; set_solver | apply Hl; set_solver].
Qed.

(** Moving a node to the front, seen through nodes and through keys. *)
Lemma splice_split (it : nat) (item : Key) (l : list (nat * Key)) :
  NoDup l.*1 -> NoDup l.*2 -> (it, item) ∈ l ->
  exists l1 l2, l = l1 ++ (it, item) :: l2 /\
    LruSet.splice it l = (it, item) :: l1 ++ l2 /\ filter (λ k, k <> item) l.*2 = (l1 ++ l2).*2.
Proof.
  intros Hn Hk Hin. apply list_elem_of_split in Hin as (l1 & l2 & ->). exists l1, l2.
  rewrite fmap_app, fmap_cons in Hn. rewrite fmap_app, fmap_cons in Hk. simpl in Hn, Hk.
  apply NoDup_app in Hn as (_ & Hn1 & Hn2). apply NoDup_cons in Hn2 as [Hn2 _].
  apply NoDup_app in Hk as (_ & Hk1 & Hk2). apply NoDup_cons in Hk2 as [Hk2 _].
  assert (Hnode : forall n, n ∈ l1 \/ n ∈ l2 -> n.1 <> it).
  { intros [m j] [Hm|Hm] E; simpl in E; subst.
    - apply (Hn1 it); [by apply list_elem_of_fmap; exists (it, j) | set_solver].
    - apply Hn2. apply list_elem_of_fmap. by exists (it, j). }
  split; [done|]. split.
  - unfold LruSet.splice. rewrite !filter_app, filter_cons_True, filter_cons_False by (simpl; naive_solver).
    rewrite !(filter_drop_all (λ n, n.1 = it)), !(filter_keep (λ n, n.1 <> it)) by auto. done.
  - rewrite fmap_app, fmap_cons, filter_app, filter_cons_False by naive_solver.
    rewrite !filter_keep, fmap_app; [done|..].
    + intros k Hin ->. by apply Hk2.
    + intros k Hin ->. apply (Hk1 item Hin), elem_of_cons. by left.
Qed.

Lemma lru_inv_splice s it item :
  lru_inv s -> LruSet.map_ s !! item = Some it ->
  lru_inv (LruSet.mk (LruSet.max_size_ s) (LruSet.splice it (LruSet.list_ s)) (LruSet.map_ s) (LruSet.next_ s)) /\
  (LruSet.splice it (LruSet.list_ s)).*2 = item :: filter (λ k, k <> item) (LruSet.items s).
Proof.
  intros [Hk Hn Hf Hm Hs] Hit. apply Hm in Hit as Hin.
  destruct (splice_split it item _ Hn Hk Hin) as (l1 & l2 & El & Es & Ef).
  unfold LruSet.items. rewrite Ef, Es. split; [|done].
  assert (Hperm : (it, item) :: l1 ++ l2 ≡ₚ LruSet.list_ s) by (rewrite El; apply Permutation_middle).
  split; cbn [LruSet.list_ LruSet.map_ LruSet.next_ LruSet.max_size_].
  - by rewrite Hperm.
  - by rewrite Hperm.
  - intros n. rewrite Hperm. apply Hf.
  - intros k n. by rewrite Hperm.
  - by rewrite Hperm.
Qed.

(** Adding a node for a key that is not there. *)
Lemma lru_inv_cons s item :
  lru_inv s -> LruSet.map_ s !! item = None ->
  let l := (LruSet.next_ s, item) :: LruSet.list_ s in
  NoDup l.*2 /\ NoDup l.*1 /\ (forall n, n ∈ l.*1 -> (n < S (LruSet.next_ s))%nat) /\
  (forall k n, <[item := LruSet.next_ s]> (LruSet.map_ s) !! k = Some n <-> (n, k) ∈ l).
Proof.
  intros [Hk Hn Hf Hm Hs] Hit l. unfold l. simpl. split_and!.
  - apply NoDup_cons. split; [|done]. intros ([n k] & -> & Hin)%list_elem_of_fmap.
    apply Hm in Hin. simpl in Hit. congruence.
  - apply NoDup_cons. split; [|done]. intros Hin. apply Hf in Hin. lia.
  - intros n [->|Hin]%elem_of_cons; [lia|]. apply Hf in Hin. lia.
  - intros k n. rewrite elem_of_cons. destruct (decide (k = item)) as [->|Hne].
    + rewrite lookup_insert_eq. split; [intros [= <-]; by left|].
      intros [[= ->]|Hin]; [done|]. apply Hm in Hin. congruence.
    + rewrite lookup_insert_ne, Hm by done. split; [by right|]. intros [[= -> ->]|?]; done.
Qed.

Lemma lru_inv_drop_last max l m next back :
  NoDup l.*2 -> NoDup l.*1 -> (forall n, n ∈ l.*1 -> (n < next)%nat) ->
  (forall k n, m !! k = Some n <-> (n, k) ∈ l) -> length l = S max -> last l = Some back ->
  lru_inv (LruSet.mk max (removelast l) (delete back.2 m) next) /\ (removelast l).*2 = take max l.*2.
Proof.
  intros Hk Hn Hf Hm Hl Hback. apply last_Some in Hback as [l' ->].
  rewrite removelast_last. rewrite length_app in Hl. simpl in Hl.
  rewrite fmap_app in Hk. rewrite fmap_app in Hn. setoid_rewrite fmap_app in Hf. rewrite fmap_app. simpl in *.
  apply NoDup_app in Hk as (Hk & Hk' & _). apply NoDup_app in Hn as (Hn & Hn' & _).
  assert (length l' = max) as <- by lia.
  split; [split; simpl|].
  - done.
  - done.
  - intros n Hin. apply Hf, elem_of_app. by left.
  - intros k n. rewrite lookup_delete_Some, Hm, elem_of_app, list_elem_of_singleton. split.
    + intros [Hne [?|Heq]]; [done|]. subst. simpl in Hne. done.
    + intros Hin. split; [|by left]. intros <-.
      apply (Hk' back.2); [by apply list_elem_of_fmap; exists (n, back.2) | by apply elem_of_cons; left].
  - done.
  - by rewrite take_app_length' by (by rewrite length_fmap).
Qed.

Lemma lru_insert s item :
  lru_inv s ->
  lru_inv (LruSet.insert item s).2 /\ LruSet.max_size_ (LruSet.insert item s).2 = LruSet.max_size_ s /\
  ((LruSet.insert item s).1, LruSet.items (LruSet.insert item s).2) =
    lru_spec (LruSet.max_size_ s) item (LruSet.items s).
Proof.
  intros Hs. pose proof Hs as [Hk Hn Hf Hm Hsz]. unfold LruSet.insert, lru_spec.
  destruct (LruSet.map_ s !! item) as [it|] eqn:E.
  - destruct (lru_inv_splice s it item Hs E) as [Hinv Hitems]. split; [done|]. split; [done|].
    rewrite decide_True; [by simpl; unfold LruSet.items at 1; simpl; rewrite Hitems|].
    apply Hm in E. apply list_elem_of_fmap. by exists (it, item).
  - rewrite (decide_False (P := item ∈ LruSet.items s)).
    2:{ intros ([n k] & -> & Hin)%list_elem_of_fmap. apply Hm in Hin. simpl in E. congruence. }
    destruct (lru_inv_cons s item Hs E) as (Hk' & Hn' & Hf' & Hm').
    case_decide as Hd.
    + destruct (last ((LruSet.next_ s, item) :: LruSet.list_ s)) as [back|] eqn:El;
        [|by apply last_None in El].
      destruct (lru_inv_drop_last (LruSet.max_size_ s) _ _ _ back Hk' Hn' Hf' Hm') as [Hinv Hitems];
        [simpl in *; lia | done |].
      split; [exact Hinv|]. split; [done|]. simpl fst. f_equal. exact Hitems.
    + split; [by split; simpl in *; try done; lia|]. split; [done|]. simpl.
      rewrite take_ge; [done|]. unfold LruSet.items. simpl in *. rewrite length_fmap. lia.
Qed.

(** A history of calls. *)
Inductive lru_call := Insert (k : Key) | Clear.

Fixpoint lru_run (cs : list lru_call) (s : lru) : list bool * lru :=
  match cs with
  | [] => ([], s)
  | Insert k :: cs => let (b, s') := LruSet.insert k s in let (bs, s'') := lru_run cs s' in (b :: bs, s'')
  | Clear :: cs => lru_run cs (LruSet.clear s)
  end.

Fixpoint lru_spec_run (max : nat) (cs : list lru_call) (l : list Key) : list bool * list Key :=
  match cs with
  | [] => ([], l)
  | Insert k :: cs => let (b, l') := lru_spec max k l in let (bs, l'') := lru_spec_run max cs l' in (b :: bs, l'')
  | Clear :: cs => lru_spec_run max cs []
  end.

Lemma lru_inv_empty max next : lru_inv (LruSet.mk max [] ∅ next).
Proof.
  split; simpl; [constructor | constructor | | | lia].
  - intros n Hin. by apply elem_of_nil in Hin.
  - intros k n. rewrite lookup_empty. split; [done|]. intros Hin. by apply elem_of_nil in Hin.
Qed.

Lemma lru_run_spec cs s : lru_inv s ->
  lru_inv (lru_run cs s).2 /\
  lru_spec_run (LruSet.max_size_ s) cs (LruSet.items s) = ((lru_run cs s).1, LruSet.items (lru_run cs s).2) /\
  LruSet.max_size_ (lru_run cs s).2 = LruSet.max_size_ s.
Proof.
  revert s. induction cs as [|[k|] cs IH]; intros s Hs; simpl; [done|..].
  - destruct (lru_insert s k Hs) as (Hinv & Hmax & Hspec).
    destruct (LruSet.insert k s) as [b s'] eqn:Ei. simpl in *. rewrite <- Hspec, <- Hmax.
    destruct (IH s' Hinv) as (? & E & ?). rewrite E. destruct (lru_run cs s') as [bs s'']. done.
  - apply (IH (LruSet.clear s)). apply lru_inv_empty.
Qed.

(** C19: Whatever the history of insert and clear calls on an LruSet, the results
    and the contents are those of a plain list of distinct keys on which an
    insert of a known key moves it to the front, and an insert of a new key
    puts it there and drops what exceeds the maximum size; the index always
    agrees with the list. *)
Theorem lru_refinement (max : nat) (cs : list lru_call) (k : Key) :
  let s := (lru_run cs (LruSet.make max)).2 in
  lru_spec_run max cs [] = ((lru_run cs (LruSet.make max)).1, LruSet.items s) /\
  NoDup (LruSet.items s) /\ (LruSet.size s <= max)%nat /\
  LruSet.contains k s = bool_decide (k ∈ LruSet.items s).
Proof.
  intros s. destruct (lru_run_spec cs (LruSet.make max)) as ([Hk Hn Hf Hm Hs] & Hrun & Hmax);
    [apply lru_inv_empty|]. split_and!; [done | done | by rewrite Hmax in Hs |].
  unfold LruSet.contains. apply bool_decide_ext. unfold LruSet.items. rewrite list_elem_of_fmap. split.
  - intros [n Hn']. apply Hm in Hn'. by exists (n, k).
  - intros ([n j] & -> & Hin). exists n. by apply Hm.
Qed.
End lru.

(** *** CappedSet evicts in order of insertion *)

Section capped.
Context {T : Type} `{Countable T}.
Abbreviation capped := (CappedSet.t T).

(** The elements of the set are those the queue points to, each once. *)
Record capped_inv (s : capped) : Prop := {
  inv_queue : NoDup (CappedSet.items_queue_ s);
  inv_items : CappedSet.items_ s = list_to_set (CappedSet.items_queue_ s);
  inv_capacity : (length (CappedSet.items_queue_ s) <= CappedSet.capacity_ s)%nat;
  inv_positive : (0 < CappedSet.capacity_ s)%nat;
}.

(** The abstract set: a FIFO of distinct elements. *)
Definition capped_spec (capacity : nat) (item : T) (q : list T) : bool * list T :=
  if decide (item ∈ q) then (false, q)
  else (true, drop (S (length q) - capacity) (q ++ [item])).

Lemma capped_insert s item : capped_inv s ->
  exists b s', CappedSet.insert item s = (Success b, s') /\ capped_inv s' /\
    CappedSet.capacity_ s' = CappedSet.capacity_ s /\
    capped_spec (CappedSet.capacity_ s) item (CappedSet.items_queue_ s) = (b, CappedSet.items_queue_ s').
Proof.
  intros [Hq Hi Hc Hp]. unfold CappedSet.insert, capped_spec.
  assert (Hin : item ∈ CappedSet.items_ s <-> item ∈ CappedSet.items_queue_ s)
    by (rewrite Hi; apply elem_of_list_to_set).
  assert (Hsize : base.size (CappedSet.items_ s) = length (CappedSet.items_queue_ s))
    by (rewrite Hi; by apply size_list_to_set).
  destruct (decide (item ∈ CappedSet.items_ s)) as [Hd|Hd];
    [rewrite decide_True by tauto; by exists false, s|].
  rewrite (decide_False (P := item ∈ CappedSet.items_queue_ s)) by tauto.
  rewrite Hsize. case_decide as Hfull.
  - destruct (CappedSet.items_queue_ s) as [|front q] eqn:Eq; [simpl in *; lia|].
    eexists true, _. split; [done|]. apply NoDup_cons in Hq as [Hf Hq]. split; [split; simpl|].
    + apply NoDup_app. split_and!; [done | set_solver | apply NoDup_singleton].
    + rewrite Hi. set_solver.
    + rewrite length_app. simpl in *. lia.
    + done.
    + split; [done|]. simpl in *. rewrite <- Hfull. f_equal.
      replace (S (S (length q)) - S (length q))%nat with 1%nat by lia. done.
  - eexists true, _. split; [done|]. split; [split; simpl|].
    + apply NoDup_app. split_and!; [done | set_solver | apply NoDup_singleton].
    + rewrite Hi. set_solver.
    + rewrite length_app. simpl. lia.
    + done.
    + split; [done|]. simpl. replace (S (length _) - _)%nat with 0%nat by lia. done.
Qed.

Fixpoint capped_run (items : list T) (s : capped) : list bool * capped :=
  match items with
  | [] => ([], s)
  | x :: xs =>
      match CappedSet.insert x s with
      | (Success b, s') => let (bs, s'') := capped_run xs s' in (b :: bs, s'')
      | (_, s') => ([], s')
      end
  end.

Fixpoint capped_spec_run (capacity : nat) (items : list T) (q : list T) : list bool * list T :=
  match items with
  | [] => ([], q)
  | x :: xs =>
      let (b, q') := capped_spec capacity x q in
      let (bs, q'') := capped_spec_run capacity xs q' in (b :: bs, q'')
  end.

Lemma capped_run_spec items s : capped_inv s ->
  capped_inv (capped_run items s).2 /\
  capped_spec_run (CappedSet.capacity_ s) items (CappedSet.items_queue_ s) =
    ((capped_run items s).1, CappedSet.items_queue_ (capped_run items s).2) /\
  CappedSet.capacity_ (capped_run items s).2 = CappedSet.capacity_ s.
Proof.
  revert s. induction items as [|x xs IH]; intros s Hs; simpl; [done|].
  destruct (capped_insert s x Hs) as (b & s' & -> & Hs' & Hc & ->).
  destruct (IH s' Hs') as (? & E & ?). rewrite <- Hc, E. by destruct (capped_run xs s').
Qed.

(** Whatever is inserted, a CappedSet behaves as a queue of distinct
    elements: an insert of a known element changes nothing, an insert of a new
    one evicts the oldest when the capacity is reached; set and queue always
    hold the same elements, so no stored iterator dangles; a capacity of zero
    is refused by an assertion. *)
Theorem capped_refinement (capacity : nat) (items : list T) (x : T) :
  match CappedSet.make capacity with
  | Success s0 =>
      let s := (capped_run items s0).2 in
      (0 < capacity)%nat /\ length (capped_run items s0).1 = length items /\
      capped_spec_run capacity items [] = ((capped_run items s0).1, CappedSet.items_queue_ s) /\
      (CappedSet.size s <= capacity)%nat /\
      CappedSet.contains x s = bool_decide (x ∈ CappedSet.items_queue_ s)
  | r => capacity = 0%nat /\ r = Fault AssertionFailed
  end.
Proof.
  unfold CappedSet.make. case_decide as Hc; [done|].
  set (s0 := CappedSet.mk capacity ∅ []). assert (H0 : capped_inv s0)
    by (split; simpl; [constructor | done | lia | lia]).
  destruct (capped_run_spec items s0 H0) as ([Hq Hi Hl Hp] & Hrun & Hcap). split_and!.
  - lia.
  - clear -H0. revert H0. generalize s0. induction items as [|y ys IH]; intros s Hs; simpl; [done|].
    destruct (capped_insert s y Hs) as (b & s' & -> & Hs' & _ & _).
    specialize (IH s' Hs'). destruct (capped_run ys s'). simpl in *. lia.
  - done.
  - unfold CappedSet.size. rewrite Hi, size_list_to_set by done. by rewrite Hcap in Hl.
  - unfold CappedSet.contains. apply bool_decide_ext. rewrite Hi. apply elem_of_list_to_set.
Qed.
End capped.

(** *** ObjectPool hands out each object once, last in first out *)

Lemma pool_lifo {T} (ptr : T) (pool : list T) :
  ObjectPool.acquire (ObjectPool.add ptr pool) = (Some ptr, pool) /\
  (ObjectPool.empty pool = true <-> (ObjectPool.acquire pool).1 = None).
Proof.
  split; [done|]. unfold ObjectPool.empty. rewrite bool_decide_eq_true. by destruct pool.
Qed.

End ContainersTheorems.
