(* ===== verification/Protocol.v ===== *)
(** * Protocol tables

    Model of [src/src/infra/network/protocol.hpp], [protocol.cpp] (message types
    and their command strings) and [messages.hpp] (the definition of every
    message). *)

From Stdlib Require Import String.
From S2P Require Import Prelude Stream Serialize Types.
#[local] Open Scope string_scope.
#[local] Open Scope Z_scope.

(** ** Constants *)

Definition kDefaultProtocolVersion : Z := 170002.
Definition kMinSupportedProtocolVersion : Z := kDefaultProtocolVersion.
Definition kMaxSupportedProtocolVersion : Z := kDefaultProtocolVersion.
Definition kMaxProtocolMessageLength : Z := 4 * 2 ^ 20.
Definition kMessageHeaderMagicLength : nat := 4.
Definition kMessageHeaderCommandLength : nat := 12.
Definition kMessageHeaderChecksumLength : nat := 4.
Definition kMessageHeaderLength : Z :=
  Z.of_nat kMessageHeaderMagicLength + Z.of_nat kMessageHeaderCommandLength + 4
  + Z.of_nat kMessageHeaderChecksumLength.

Definition kMaxInvItems : Z := 50000.
Definition kInvItemSize : Z := 36.
Definition kMaxAddrItems : Z := 1000.
Definition kAddrItemSize : Z := 30.
Definition kMaxGetHeadersItems : Z := 2000.
Definition kMaxHeadersItems : Z := 160.

(** ** Message types and commands *)

Inductive MessageType :=
| kVersion | kVerAck | kInv | kAddr | kPing | kPong | kGetHeaders | kHeaders | kGetAddr | kMemPool
| kReject | kGetData | kNotFound | kMissingOrUnknown.

#[global] Instance MessageType_dec : EqDecision MessageType.
Proof. solve_decision. Defined.

(** [magic_enum::enum_values<MessageType>()] *)
Definition enum_values : list MessageType :=
  [kVersion; kVerAck; kInv; kAddr; kPing; kPong; kGetHeaders; kHeaders; kGetAddr; kMemPool;
   kReject; kGetData; kNotFound; kMissingOrUnknown].

(** [static_cast<size_t>(type)] *)
Definition type_index (t : MessageType) : nat :=
  match t with
  | kVersion => 0 | kVerAck => 1 | kInv => 2 | kAddr => 3 | kPing => 4 | kPong => 5
  | kGetHeaders => 6 | kHeaders => 7 | kGetAddr => 8 | kMemPool => 9 | kReject => 10
  | kGetData => 11 | kNotFound => 12 | kMissingOrUnknown => 13
  end.

(** [magic_enum::enum_name] *)
Definition enum_name (t : MessageType) : Bytes :=
  str match t with
      | kVersion => "kVersion" | kVerAck => "kVerAck" | kInv => "kInv" | kAddr => "kAddr"
      | kPing => "kPing" | kPong => "kPong" | kGetHeaders => "kGetHeaders" | kHeaders => "kHeaders"
      | kGetAddr => "kGetAddr" | kMemPool => "kMemPool" | kReject => "kReject"
      | kGetData => "kGetData" | kNotFound => "kNotFound" | kMissingOrUnknown => "kMissingOrUnknown"
      end.

Definition tolower (c : Z) : Z := if (65 <=? c) && (c <=? 90) then c + 32 else c.

(** [Bytes::resize(n, 0)] *)
Definition pad_to (n : nat) (l : Bytes) : Bytes := take n l ++ replicate (n - length l) 0.

Definition get_command_from_message_type (t : MessageType) (check_length : bool) : outcome Bytes :=
  let label := drop 1 (enum_name t) in
  if check_length && negb (Nat.leb (length label) kMessageHeaderCommandLength)
  then Fault AssertionFailed
  else Success (pad_to kMessageHeaderCommandLength (tolower <$> label)).

(** The loop of [get_commands]. *)
Fixpoint commands_of (ts : list MessageType) : outcome (list (Bytes * MessageType)) :=
  match ts with
  | [] => Success []
  | t :: ts =>
      if decide (t = kMissingOrUnknown) then commands_of ts
      else let? label := get_command_from_message_type t true in
           let? rest := commands_of ts in
           Success ((label, t) :: rest)
  end.

Definition get_commands : outcome (list (Bytes * MessageType)) := commands_of enum_values.

Definition message_type_from_command (command : Bytes) : MessageType :=
  match get_commands with
  | Success commands =>
      match list_find (λ c, c.1 = command) commands with
      | Some (_, (_, message_type)) => message_type
      | None => kMissingOrUnknown
      end
  | _ => kMissingOrUnknown
  end.

Definition is_known_command (command : Bytes) : bool :=
  if bool_decide (command = []) || negb (Nat.leb (length command) kMessageHeaderCommandLength) then false
  else bool_decide (message_type_from_command (pad_to kMessageHeaderCommandLength command) <> kMissingOrUnknown).

Definition command_from_message_type (t : MessageType) (check_length : bool) : outcome Bytes :=
  get_command_from_message_type t check_length.

(** ** Message definitions *)

Record MessageDefinition := {
  command : Bytes;
  message_type : MessageType;
  is_vectorized : bool;
  max_vector_items : option Z;
  vector_item_size : option Z;
  min_payload_length : option Z;
  max_payload_length : option Z;
  min_protocol_version : option Z;
  max_protocol_version : option Z;
}.

Definition define (c : string) (t : MessageType) (lo hi : option Z) : MessageDefinition :=
  {| command := str c; message_type := t; is_vectorized := false; max_vector_items := None;
     vector_item_size := None; min_payload_length := lo; max_payload_length := hi;
     min_protocol_version := None; max_protocol_version := None |}.

Definition define_vector (c : string) (t : MessageType) (items : Z) (size lo hi : option Z) : MessageDefinition :=
  {| command := str c; message_type := t; is_vectorized := true; max_vector_items := Some items;
     vector_item_size := size; min_payload_length := lo; max_payload_length := hi;
     min_protocol_version := None; max_protocol_version := None |}.

Definition kMessageVersion := define "version" kVersion (Some 46) (Some 1024).
Definition kMessageVerAck := define "verack" kVerAck (Some 0) (Some 0).
Definition kMessageInv := define_vector "inv" kInv kMaxInvItems (Some kInvItemSize)
  (Some (1 + kInvItemSize)) (Some (ser_compact_sizeof kMaxInvItems + kMaxInvItems * kInvItemSize)).
Definition kMessageGetData := define_vector "getdata" kGetData kMaxInvItems (Some kInvItemSize)
  (Some (1 + kInvItemSize)) (Some (ser_compact_sizeof kMaxInvItems + kMaxInvItems * kInvItemSize)).
Definition kMessageAddr := define_vector "addr" kAddr kMaxAddrItems (Some kAddrItemSize)
  (Some (1 + kAddrItemSize)) (Some (ser_compact_sizeof kMaxAddrItems + kMaxAddrItems * kAddrItemSize)).
Definition kMessagePing := define "ping" kPing (Some 8) (Some 8).
Definition kMessagePong := define "pong" kPong (Some 8) (Some 8).
Definition kMessageGetheaders := define_vector "getheaders" kGetHeaders kMaxGetHeadersItems
  (Some (Z.of_nat h256_size)) (Some (4 + 1 + Z.of_nat h256_size * 2))
  (Some (4 + ser_compact_sizeof kMaxGetHeadersItems + Z.of_nat h256_size * (kMaxGetHeadersItems + 1))).
Definition kMessageHeaders := define_vector "headers" kHeaders kMaxHeadersItems None (Some (1 + 140)) None.
Definition kMessageGetAddr := define "getaddr" kGetAddr (Some 0) (Some 0).
Definition kMessageMempool := define "mempool" kMemPool (Some 0) (Some 0).
Definition kMessageReject := define "reject" kReject (Some 3) (Some (12 + 1 + 256 + 32)).
Definition kMessageNotFound := define_vector "notfound" kNotFound kMaxInvItems (Some kInvItemSize)
  (Some (1 + kInvItemSize)) (Some (ser_compact_sizeof kMaxInvItems + kMaxInvItems * kInvItemSize)).
Definition kMessageMissingOrUnknown := define "" kMissingOrUnknown None None.

Definition kMessageDefinitions : list MessageDefinition :=
  [kMessageVersion; kMessageVerAck; kMessageInv; kMessageAddr; kMessagePing; kMessagePong;
   kMessageGetheaders; kMessageHeaders; kMessageGetAddr; kMessageMempool; kMessageReject;
   kMessageGetData; kMessageNotFound; kMessageMissingOrUnknown].

(** [kMessageDefinitions[static_cast<size_t>(type)]] *)
Definition definition_of (t : MessageType) : MessageDefinition :=
  default kMessageMissingOrUnknown (kMessageDefinitions !! type_index t).

(** [MessageHeader]'s and [Node]'s bounds on the payload of a message. *)
Definition payload_lower (t : MessageType) : Z := default 0 (min_payload_length (definition_of t)).
Definition payload_upper (t : MessageType) : Z :=
  default kMaxProtocolMessageLength (max_payload_length (definition_of t)).

(** ** Rejection codes *)

Inductive RejectionCode :=
| kOk | kMalformed | kInvalid | kObsolete | kDuplicate | kNonstandard | kDust | kInsufficientFee
| kCheckpoint | kCheckBlockAtHeightNotFound | kSideChainIdNotFound | kInsufficientSideChainFunds
| kAbsurdlyHighFee | kHasConflicts | kNoCoinsForInput | kInvalidProof | kSideChainCumulativeCommTree
| kActiveCertDataHash | kTooManyCswInputsForSideChain.

#[global] Instance RejectionCode_dec : EqDecision RejectionCode.
Proof. solve_decision. Defined.

Definition rejection_codes : list (Z * RejectionCode) :=
  [(0x00, kOk); (0x01, kMalformed); (0x10, kInvalid); (0x11, kObsolete); (0x12, kDuplicate);
   (0x40, kNonstandard); (0x41, kDust); (0x42, kInsufficientFee); (0x43, kCheckpoint);
   (0x44, kCheckBlockAtHeightNotFound); (0x45, kSideChainIdNotFound); (0x46, kInsufficientSideChainFunds);
   (0x47, kAbsurdlyHighFee); (0x48, kHasConflicts); (0x49, kNoCoinsForInput); (0x4a, kInvalidProof);
   (0x4b, kSideChainCumulativeCommTree); (0x4c, kActiveCertDataHash); (0x4d, kTooManyCswInputsForSideChain)].

(** [static_cast<int8_t>] and [magic_enum::enum_cast<RejectionCode>]. *)
Definition code_value (c : RejectionCode) : Z :=
  match list_find (λ p, p.2 = c) rejection_codes with Some (_, (v, _)) => v | None => 0 end.
Definition code_cast (v : Z) : option RejectionCode :=
  match list_find (λ p, p.1 = v) rejection_codes with Some (_, (_, c)) => Some c | None => None end.

(** ** Properties *)

Module ProtocolTheorems.

(** The table of commands, evaluated. *)
Definition command_table : list (Bytes * MessageType) :=
  Eval vm_compute in match get_commands with Success cs => cs | _ => [] end.

Lemma get_commands_table : get_commands = Success command_table.
Proof. by vm_compute. Qed.

Lemma type_from_command_spec c t : message_type_from_command c = t ->
  t = kMissingOrUnknown \/ (c, t) ∈ command_table.
Proof.
  unfold message_type_from_command. rewrite get_commands_table.
  destruct (list_find _ _) as [[i [c' t']]|] eqn:E; [|by left].
  apply list_find_Some in E as (Hi & Hc & _). simpl in Hc. subst. intros <-. right.
  by apply list_elem_of_lookup_2 in Hi.
Qed.

Lemma definition_type t : message_type (definition_of t) = t.
Proof. by destruct t. Qed.

Lemma command_known t : t <> kMissingOrUnknown ->
  message_type_from_command (pad_to kMessageHeaderCommandLength (command (definition_of t))) = t.
Proof. by destruct t; intros Ht; try (exfalso; by apply Ht); vm_compute. Qed.

Lemma length_command c t : message_type_from_command c = t -> t <> kMissingOrUnknown ->
  c = pad_to kMessageHeaderCommandLength (command (definition_of t)).
Proof.
  intros H Ht. apply type_from_command_spec in H as [H|H]; [done|].
  unfold command_table in H.
  repeat (apply elem_of_cons in H as [H|H]; [injection H as -> ->; by vm_compute|]).
  by apply elem_of_nil in H.
Qed.

(** C40: The table of message definitions is indexed by message type, and it
    agrees with the command strings derived from the names of the enumerators:
    every type but the placeholder has exactly one command field, its name in
    lower case padded with zeroes, which is recognised as that type; every other
    field is unknown; and no command needs more than the field holds. *)
Theorem command_table_consistent (t : MessageType) (c : Bytes) :
  message_type (definition_of t) = t /\
  (t <> kMissingOrUnknown ->
    command_from_message_type t true =
      Success (pad_to kMessageHeaderCommandLength (command (definition_of t))) /\
    (message_type_from_command c = t <->
      c = pad_to kMessageHeaderCommandLength (command (definition_of t))) /\
    is_known_command (command (definition_of t)) = true).
Proof.
  split; [apply definition_type|]. intros Ht. split_and!.
  - by destruct t; try (exfalso; by apply Ht); vm_compute.
  - split; [intros H; by apply length_command | intros ->; by apply command_known].
  - by destruct t; try (exfalso; by apply Ht); vm_compute.
Qed.

Lemma command_table_consistent_witness :
  message_type_from_command (pad_to kMessageHeaderCommandLength (str "getheaders")) = kGetHeaders /\
  is_known_command (str "reject") = true.
Proof.
  split.
  - destruct (command_table_consistent kGetHeaders (pad_to kMessageHeaderCommandLength (str "getheaders")))
      as [_ H]. destruct H as (_ & H & _); [done|]. apply H. by vm_compute.
  - destruct (command_table_consistent kReject []) as [_ H]. destruct H as (_ & _ & H); [done|]. exact H.
Defined.

Lemma code_cast_value c : code_cast (code_value c) = Some c.
Proof. by destruct c. Qed.

Lemma code_value_range c : in_range int8_t (code_value c).
Proof. by destruct c. Qed.

(** A padded command is known exactly when the text before the padding is. *)
Lemma known_length c : is_known_command c = true -> (0 < length c <= 12)%nat.
Proof.
  unfold is_known_command. destruct (_ || _) eqn:E; [done|]. intros _. prop_bools.
  apply Nat.leb_le in H0. unfold kMessageHeaderCommandLength in H0. destruct c; [done|]. simpl in *. lia.
Qed.

End ProtocolTheorems.
