(* ===== verification/Misc.v ===== *)
(** * Helpers on text and data

    Model of [src/src/core/common/misc.cpp]: shortening of text, amounts of data
    written by people, and the search for duplicate items in a payload. *)

From Stdlib Require Import String.
From stdpp Require Import gmap.
From S2P Require Import Prelude Text Protocol.
#[local] Open Scope Z_scope.

(** ** abridge *)

(** White space of the classic locale, as [boost::algorithm::trim_right] sees it. *)
Definition is_space (c : Z) : bool := (c =? 32) || ((9 <=? c) && (c <=? 13)).

Fixpoint drop_spaces (l : Bytes) : Bytes :=
  match l with
  | c :: l' => if is_space c then drop_spaces l' else l
  | [] => []
  end.

Definition trim_right (l : Bytes) : Bytes := rev (drop_spaces (rev l)).

Definition abridge (input : Bytes) (length : Z) : Bytes :=
  if zlen input <=? length then input
  else trim_right (ztake length input) ++ str "...".

(** ** parse_human_bytes *)

(** The multiplier of a suffix, already in lower case; [None] when the pattern
    does not allow it. *)
Definition suffix_multiplier (suffix : Bytes) : option Z :=
  let named s := bool_decide (suffix = str s) in
  if named ""%string || named "b"%string then Some 1
  else if named "kb"%string then Some (10 ^ 3)
  else if named "mb"%string then Some (10 ^ 6)
  else if named "gb"%string then Some (10 ^ 9)
  else if named "tb"%string then Some (10 ^ 12)
  else if named "kib"%string then Some (2 ^ 10)
  else if named "mib"%string then Some (2 ^ 20)
  else if named "gib"%string then Some (2 ^ 30)
  else if named "tib"%string then Some (2 ^ 40)
  else None.

Fixpoint drop_blanks (l : Bytes) : Bytes :=
  match l with
  | c :: l' => if c =? 32 then drop_blanks l' else l
  | [] => []
  end.

(** The groups of [^(\d{0,10})(\.\d{1,3})?\ *?(B|KB|...|TiB)?$], the second one
    without its point. *)
Definition match_human (input : Bytes) : option (Bytes * Bytes * Z) :=
  let (whole, rest) := span_digits input in
  if 10 <? zlen whole then None
  else
    let tail (fract rest : Bytes) :=
      match suffix_multiplier (tolower <$> drop_blanks rest) with
      | Some m => Some (whole, fract, m)
      | None => None
      end in
    match rest with
    | c :: r =>
        if c =? 46 then
          let (fract, rest') := span_digits r in
          if (1 <=? zlen fract) && (zlen fract <=? 3) then tail fract rest' else None
        else tail [] rest
    | [] => tail [] []
    end.

Definition parse_human_bytes (input : Bytes) : outcome Z :=
  match input with
  | [] => Success 0
  | _ =>
      match match_human input with
      | None => Failure (Errc invalid_argument)
      | Some (whole_part, fract_part, multiplier) =>
          let value := wrap 64 (digits_value whole_part * multiplier) in
          if (1 <? multiplier) && negb (bool_decide (fract_part = []))
          then
            let base := 10 ^ zlen fract_part in
            Success (wrap 64 (value + wrap 64 (multiplier * digits_value fract_part) / base))
          else Success value
      end
  end.

(** ** to_human_bytes *)

(** [binary_suffixes], which has five elements. *)
Definition binary_suffixes : list Bytes := [str "B"; str "KiB"; str "MiB"; str "GiB"; str "TiB"].

(** The loop with [binary]: divisions by 1024 are exact, so that after [index] of them
    the value is [input / 1024 ^ index]. *)
Fixpoint human_loop (turns : nat) (input index : Z) : Z :=
  match turns with
  | O => index
  | S turns => if 1024 ^ (index + 1) <=? input then human_loop turns input (index + 1) else index
  end.

(** Rounding to an integer, a tie to the even one. *)
Definition round_half_even (a b : Z) : Z :=
  let q := a / b in
  let r := a mod b in
  if 2 * r <? b then q else if b <? 2 * r then q + 1 else if Z.even q then q else q + 1.

(** [to_human_bytes(input, true)].  There is no suffix for five divisions. *)
Definition to_human_bytes_binary (input : Z) : outcome Bytes :=
  let index := human_loop 5 input 0 in
  match binary_suffixes !! Z.to_nat index with
  | None => Fault UndefinedBehaviour
  | Some suffix =>
      if 0 <? index then
        let hundredths := round_half_even (100 * input) (1024 ^ index) in
        Success (decimal (hundredths / 100) ++ [46] ++ padded 2 (hundredths mod 100) ++ [32] ++ suffix)
      else Success (decimal input ++ [32] ++ suffix)
  end.

(** ** count_duplicate_data_chunks *)

(** The chunks [data.substr(i * chunk_size, chunk_size)]. *)
Fixpoint chunks_of (n size : nat) (data : Bytes) : list Bytes :=
  match n with
  | O => []
  | S n => take size data :: chunks_of n size (drop size data)
  end.

(** The loop, over the remaining chunks. *)
Fixpoint count_loop (chunks : list Bytes) (unique : gset Bytes) (count max_count : Z) : Z :=
  match chunks with
  | [] => count
  | c :: cs =>
      if decide (c ∈ unique) then
        let count := count + 1 in
        if negb (max_count =? 0) && (count =? max_count) then count
        else count_loop cs unique count max_count
      else count_loop cs ({[c]} ∪ unique) count max_count
  end.

Definition data_chunks (data : Bytes) (chunk_size : Z) : list Bytes :=
  chunks_of (Z.to_nat (zlen data / chunk_size)) (Z.to_nat chunk_size) data.

Definition count_duplicate_data_chunks (data : Bytes) (chunk_size max_count : Z) : Z :=
  if (chunk_size =? 0) || (zlen data <? chunk_size) then 0
  else count_loop (data_chunks data chunk_size) ∅ 0 max_count.

(** ** Properties *)

Module MiscTheorems.

Lemma count_loop_ge cs u n m : n <= count_loop cs u n m.
Proof.
  revert u n. induction cs as [|c cs IH]; intros u n; simpl; [lia|].
  case_decide; [|apply IH]. destruct (_ && _); [lia|]. specialize (IH u (n + 1)). lia.
Qed.

Lemma count_loop_zero cs u m :
  count_loop cs u 0 m = 0 <-> NoDup cs /\ forall c, c ∈ cs -> c ∉ u.
Proof.
  revert u. induction cs as [|c cs IH]; intros u; simpl.
  - split; [|done]. intros _. split; [constructor|]. intros c Hc. by apply elem_of_nil in Hc.
  - case_decide as Hd.
    + split.
      * destruct (_ && _); [lia|]. pose proof (count_loop_ge cs u (0 + 1) m). lia.
      * intros [_ H]. exfalso. apply (H c); [|done]. apply elem_of_cons. by left.
    + rewrite IH, NoDup_cons. split.
      * intros [Hn Hu]. split; [split; [|done]|].
        -- intros Hin. apply (Hu c Hin). set_solver.
        -- intros c' [->|Hin]%elem_of_cons; [done|]. specialize (Hu c' Hin). set_solver.
      * intros [[Hc Hn] Hu]. split; [done|]. intros c' Hin. apply not_elem_of_union. split.
        -- intros ->%elem_of_singleton. done.
        -- apply Hu, elem_of_cons. by right.
Qed.

(** Whatever the limit on the count, no duplicate is reported exactly when the
    whole chunks of the data are pairwise distinct. *)
Lemma no_duplicates_spec data size m : 0 < size ->
  count_duplicate_data_chunks data size m = 0 <-> NoDup (data_chunks data size).
Proof.
  intros Hs. unfold count_duplicate_data_chunks.
  destruct (_ || _) eqn:E.
  - split; [|done]. intros _. apply orb_true_iff in E as [E|E]; prop_bools; [lia|].
    unfold data_chunks. rewrite Z.div_small by lia. constructor.
  - rewrite count_loop_zero. split; [by intros [? _] | intros H; split; [done | set_solver]].
Qed.

Lemma count_nonneg data size m : 0 <= count_duplicate_data_chunks data size m.
Proof. unfold count_duplicate_data_chunks. destruct (_ || _); [lia | apply count_loop_ge]. Qed.

Lemma count_loop_all cs u n :
  count_loop cs u n 0 = n + zlen cs - Z.of_nat (size ((list_to_set cs ∪ u) ∖ u)).
Proof.
  revert u n. induction cs as [|c cs IH]; intros u n; simpl.
  - replace ((∅ ∪ u) ∖ u) with (∅ : gset Bytes) by set_solver. rewrite size_empty. lia.
  - case_decide as Hd.
    + rewrite IH. replace (({[c]} ∪ list_to_set cs ∪ u) ∖ u) with ((list_to_set cs ∪ u) ∖ u) by set_solver. lia.
    + rewrite IH. set (rest := (list_to_set cs ∪ ({[c]} ∪ u)) ∖ ({[c]} ∪ u) : gset Bytes).
      assert (E : ({[c]} ∪ list_to_set cs ∪ u) ∖ u = {[c]} ∪ rest).
      { apply set_eq. intros x. destruct (decide (x = c)); set_solver. }
      assert (D : ({[c]} : gset Bytes) ## rest) by set_solver.
      rewrite E, (size_union _ _ D), size_singleton. lia.
Qed.

(** The search for duplicates in a payload, which sorts its chunks into a
    set and stops at the given count, reports none exactly when the chunks are
    pairwise distinct, and with no limit counts the chunks in excess of the
    distinct ones. *)
Theorem duplicates_spec (data : Bytes) (size max_count : Z) :
  0 < size ->
  (count_duplicate_data_chunks data size max_count = 0 <-> NoDup (data_chunks data size)) /\
  count_duplicate_data_chunks data size 0 =
    zlen (data_chunks data size) - Z.of_nat (base.size (list_to_set (C := gset Bytes) (data_chunks data size))).
Proof.
  intros Hs. split; [by apply no_duplicates_spec|].
  unfold count_duplicate_data_chunks. destruct (_ || _) eqn:E.
  - apply orb_true_iff in E as [E|E]; prop_bools; [lia|].
    unfold data_chunks. rewrite Z.div_small by lia. done.
  - rewrite count_loop_all. repeat f_equal. set_solver.
Qed.

Lemma duplicates_spec_witness :
  count_duplicate_data_chunks [1; 2; 1; 2; 3; 4; 1; 2; 9] 2 0 = 2 /\
  count_duplicate_data_chunks [1; 2; 2; 1; 1] 2 1 = 0.
Proof.
  split.
  - rewrite (proj2 (duplicates_spec [1; 2; 1; 2; 3; 4; 1; 2; 9] 2 0 ltac:(lia))). by vm_compute.
  - apply (proj1 (duplicates_spec [1; 2; 2; 1; 1] 2 1 ltac:(lia))). decide_now.
Defined.

(** An abridged text is at most three characters longer than asked. *)
(** ** Sizes in text *)

(** The number of divisions. *)
Lemma human_loop_spec turns input index : 0 <= index -> 1024 ^ index <= input \/ index = 0 ->
  let k := human_loop turns input index in
  index <= k <= index + Z.of_nat turns /\ (1024 ^ k <= input \/ k = 0) /\ (k < index + Z.of_nat turns -> input < 1024 ^ (k + 1)).
Proof.
  revert index. induction turns as [|turns IH]; intros index H0 Hi; cbn [human_loop].
  - split_and!; [lia | lia | done | lia].
  - case_cmp; [|split_and!; [lia | lia | done | lia]].
    destruct (IH (index + 1)) as (I1 & I2 & I3); [lia | by left |]. split_and!; [lia | lia | done |]. intros Hk. apply I3. lia.
Qed.

Lemma round_half_even_near a b : 0 <= a -> 0 < b -> let q := round_half_even a b in
  0 <= q /\ 2 * Z.abs (b * q - a) <= b /\ (a mod b = 0 -> b * q = a).
Proof.
  intros Ha Hb. unfold round_half_even. pose proof (Z.div_mod a b) as E. pose proof (Z.mod_pos_bound a b Hb). pose proof (Z.div_pos a b Ha Hb).
  case_cmps; [| |destruct (Z.even (a / b))]; split_and!; try lia; nia.
Qed.

Lemma padded_two v : exists c d, padded 2 v = [c; d] /\ is_digit c = true /\ is_digit d = true.
Proof.
  pose proof (padded_digits 2 v) as Hp. unfold all_digits in Hp. pose proof (length_padded 2 v). destruct (padded 2 v) as [|c [|d [|]]]; try done.
  apply Forall_cons in Hp as [Hc Hp]. apply Forall_cons in Hp as [Hd _]. eauto.
Qed.

Lemma length_decimal v : 0 <= v < 10 ^ 10 -> zlen (decimal v) <= 10.
Proof.
  intros Hv. unfold decimal. case_cmp; [lia|]. pose proof (length_decimal_fuel 20 v 9 Hv). lia.
Qed.

(** A text with a fraction is read. *)
Lemma parse_fraction w f suffix m : 0 <= w < 10 ^ 10 -> 0 <= f < 100 -> suffix_multiplier (tolower <$> drop_blanks ([32] ++ suffix)) = Some m ->
  1 < m <= 2 ^ 40 -> w * m < 2 ^ 63 ->
  parse_human_bytes (decimal w ++ [46] ++ padded 2 f ++ [32] ++ suffix) = Success (m * (100 * w + f) / 100).
Proof.
  intros Hw Hf Hs Hm Ho. unfold parse_human_bytes. destruct (decimal w ++ _) as [|x l] eqn:E.
  { apply app_eq_nil in E as [E _]. by apply decimal_neq_nil in E. }
  rewrite <- E. clear E x l. unfold match_human. rewrite span_digits_app; [|apply decimal_digits; lia | by intros c r [= <-]].
  pose proof (length_decimal w Hw). rewrite (proj2 (Z.ltb_ge _ _)) by lia. cbn [app]. change (46 =? 46) with true. cbv iota.
  change (32 :: suffix) with ([32] ++ suffix). rewrite span_digits_app; [|apply padded_digits|by intros c r [= <-]].
  rewrite length_padded. change ((1 <=? Z.of_nat 2) && (Z.of_nat 2 <=? 3)) with true. cbv iota. cbn [app] in Hs |- *. rewrite Hs.
  rewrite (proj2 (Z.ltb_lt 1 m)) by lia. destruct (padded_two f) as (c & d & Ep & _). rewrite bool_decide_false by (by rewrite Ep). cbn [andb negb].
  rewrite length_padded, decimal_value, padded_value by lia. change (10 ^ Z.of_nat 2) with 100. rewrite (Z.mod_small f) by lia.
  unfold wrap. rewrite (Z.mod_small (w * m)), (Z.mod_small (m * f)) by nia.
  assert (Hq : 0 <= m * f / 100 <= m * f) by (split; [apply Z.div_pos; nia | apply Z.div_le_upper_bound; nia]).
  rewrite Z.mod_small by nia. f_equal.
  replace (m * (100 * w + f)) with (w * m * 100 + m * f) by lia. by rewrite Z.div_add_l by lia.
Qed.

(** A text without a fraction is read. *)
Lemma parse_whole w : 0 <= w < 10 ^ 10 -> parse_human_bytes (decimal w ++ [32] ++ str "B") = Success w.
Proof.
  intros Hw. unfold parse_human_bytes. destruct (decimal w ++ _) as [|x l] eqn:E.
  { apply app_eq_nil in E as [E _]. by apply decimal_neq_nil in E. }
  rewrite <- E. clear E x l. unfold match_human. rewrite span_digits_app; [|apply decimal_digits; lia | by intros c r [= <-]].
  pose proof (length_decimal w Hw). rewrite (proj2 (Z.ltb_ge _ _)) by lia. cbn [app]. change (32 =? 46) with false. cbv iota.
  change (suffix_multiplier _) with (Some 1). cbv iota beta. change (1 <? 1) with false. cbn [andb].
  unfold wrap. by rewrite decimal_value, Z.mul_1_r, Z.mod_small by lia.
Qed.

(** The unit of a size: what its suffix stands for. *)
Definition human_unit (n : Z) : Z := 1024 ^ human_loop 5 n 0.

(** a size below a pebibyte is written in units of 1024 and read back to within half a
    hundredth of its unit, and exactly when it is a multiple of the unit, as the sizes are that the
    settings start with; from a pebibyte on there is no suffix, and the text is that of
    whatever follows the table in memory. *)
Theorem human_bytes_roundtrip (n : Z) : 0 <= n < 2 ^ 64 ->
  if n <? 2 ^ 50 then
    exists text m, to_human_bytes_binary n = Success text /\ parse_human_bytes text = Success m /\
      200 * Z.abs (m - n) <= human_unit n + 199 /\ (n mod human_unit n = 0 -> m = n)
  else to_human_bytes_binary n = Fault UndefinedBehaviour.
Proof.
  intros Hn. unfold to_human_bytes_binary, human_unit. destruct (human_loop_spec 5 n 0) as (K1 & K2 & K3); [lia | by right |].
  set (k := human_loop 5 n 0) in *. clearbody k. case_cmp.
  - assert (Hk : k <> 5) by (intros ->; destruct K2 as [K2|]; [change (1024 ^ 5) with (2 ^ 50) in K2|]; lia).
    specialize (K3 ltac:(lia)). destruct (Z.eq_dec k 0) as [->|Hk0].
    + change (1024 ^ (0 + 1)) with 1024 in K3. cbn [Z.to_nat binary_suffixes lookup list_lookup]. change (0 <? 0) with false. cbv iota.
      eexists _, n. split; [reflexivity|]. split_and!; [|cbn; lia|done]. rewrite parse_whole by lia. done.
    + rewrite (proj2 (Z.ltb_lt 0 k)) by lia. destruct K2 as [K2|]; [|lia].
      assert (E : 1024 ^ (k + 1) = 1024 * 1024 ^ k) by (rewrite Z.pow_add_r by lia; lia). rewrite E in K3. clear E.
      assert (Hs : exists suffix, binary_suffixes !! Z.to_nat k = Some suffix /\
        suffix_multiplier (tolower <$> drop_blanks ([32] ++ suffix)) = Some (1024 ^ k)).
      { assert (C : k = 1 \/ k = 2 \/ k = 3 \/ k = 4) by lia. destruct C as [-> | [-> | [-> | ->]]]; eexists; (split; [reflexivity|]); by vm_compute. }
      destruct Hs as (suffix & -> & Hs).
      assert (Hu : 1 < 1024 ^ k <= 2 ^ 40).
      { split; [apply (Z.pow_gt_1 1024 k); lia|]. change (2 ^ 40) with (1024 ^ 4). apply Z.pow_le_mono_r; lia. }
      set (u := 1024 ^ k) in *. clearbody u. destruct (round_half_even_near (100 * n) u) as (R1 & R2 & R3); [lia | lia |].
      set (h := round_half_even (100 * n) u) in *. clearbody h.
      pose proof (Z.div_mod h 100 ltac:(lia)) as D. pose proof (Z.mod_pos_bound h 100 ltac:(lia)).
      assert (Hh : h <= 102400) by nia.
      eexists _, _. split; [reflexivity|]. rewrite (parse_fraction _ _ _ u); try done; [|lia..|nia].
      replace (100 * (h / 100) + h mod 100) with h by lia. split; [reflexivity|].
      pose proof (Z.div_mod (u * h) 100 ltac:(lia)) as Du. pose proof (Z.mod_pos_bound (u * h) 100 ltac:(lia)).
      set (q := u * h / 100) in *. split; [lia|]. intros Hm. assert (Hm' : (100 * n) mod u = 0).
      { rewrite Z.mul_mod, Hm by lia. by rewrite Z.mul_0_r, Z.mod_0_l by lia. }
      specialize (R3 Hm'). unfold q. rewrite R3, (Z.mul_comm 100). by apply Z.div_mul.
  - assert (Hk : k = 5).
    { destruct (Z.eq_dec k 5); [done|]. specialize (K3 ltac:(lia)). assert (1024 ^ (k + 1) <= 1024 ^ 5) by (apply Z.pow_le_mono_r; lia).
      change (1024 ^ 5) with (2 ^ 50) in *. lia. }
    by rewrite Hk.
Qed.

Lemma human_bytes_roundtrip_witness : exists m, parse_human_bytes (str "512.00 GiB") = Success m /\ m = 512 * 2 ^ 30.
Proof.
  pose proof (human_bytes_roundtrip (512 * 2 ^ 30) ltac:(lia)) as H. change (512 * 2 ^ 30 <? 2 ^ 50) with true in H.
  destruct H as (text & m & E1 & E2 & _ & E4). exists m. vm_compute in E1. injection E1 as <-. split; [exact E2|]. by apply E4.
Defined.

Lemma drop_spaces_length l : (length (drop_spaces l) <= length l)%nat.
Proof. induction l as [|c l IH]; simpl; [lia|]. destruct (is_space c); simpl; lia. Qed.

Lemma abridge_length input n : 0 <= n -> zlen (abridge input n) <= n + 3.
Proof.
  intros Hn. unfold abridge. case_cmp; [lia|]. rewrite zlen_app. unfold trim_right.
  pose proof (drop_spaces_length (rev (ztake n input))) as Hl. rewrite length_rev in Hl.
  rewrite length_rev. assert (zlen (ztake n input) <= n) by (rewrite zlen_ztake; lia).
  change (zlen (str "...")) with 3. lia.
Qed.

End MiscTheorems.
