(* ===== verification/Json.v ===== *)
(** * JSON

    The values of [nlohmann::json] that the sources build and take apart, as the
    library documents them: an object is ordered by its keys, a numeric value
    converts to any arithmetic type.  The text of a value is the class [Json]. *)
From S2P Require Import Prelude Boost.

Inductive json :=
| JNull
| JBool (b : bool)
| JInt (z : Z)
(** A number with a fraction or an exponent, by its value cut off. *)
| JFloat (z : Z)
| JString (s : Bytes)
| JArray (l : list json)
| JObject (m : list (Bytes * json)).

(** [json["key"] = v] on an object. *)
Fixpoint json_insert (k : Bytes) (v : json) (m : list (Bytes * json)) : list (Bytes * json) :=
  match m with
  | [] => [(k, v)]
  | p :: m' =>
      match lex_compare k p.1 with
      | Lt => (k, v) :: m
      | Eq => (k, v) :: m'
      | Gt => p :: json_insert k v m'
      end
  end.
Definition json_set (k : Bytes) (v : json) (j : json) : json :=
  match j with JObject m => JObject (json_insert k v m) | _ => j end.

Fixpoint json_find (k : Bytes) (m : list (Bytes * json)) : option json :=
  match m with
  | [] => None
  | p :: m => if bool_decide (p.1 = k) then Some p.2 else json_find k m
  end.
(** [contains] together with [operator[]] *)
Definition json_get (k : Bytes) (j : json) : option json :=
  match j with JObject m => json_find k m | _ => None end.

Definition is_number_integer (j : json) : bool := match j with JInt _ => true | _ => false end.
Definition is_object (j : json) : bool := match j with JObject _ => true | _ => false end.

(** [get<T>] for an unsigned type of [w] bits, in a function that may not throw; a
    fraction out of the type's range has no value. *)
Definition json_arithmetic (w : Z) (j : json) : outcome Z :=
  match j with
  | JInt z => Success (wrap w z)
  | JFloat z => if (0 <=? z) && (z <? 2 ^ w) then Success z else Fault UndefinedBehaviour
  | JBool b => Success (if b then 1 else 0)
  | _ => Fault Terminated
  end.

Fixpoint outcome_map {A B} (f : A -> outcome B) (l : list A) : outcome (list B) :=
  match l with
  | [] => Success []
  | x :: l => let? y := f x in let? r := outcome_map f l in Success (y :: r)
  end.

(** [get<std::array<uint8_t, n>>]: elements beyond the [n]th are not read. *)
Definition json_octets (n : nat) (j : json) : outcome Bytes :=
  match j with
  | JArray l => if decide (length l < n)%nat then Fault Terminated else outcome_map (json_arithmetic 8) (take n l)
  | _ => Fault Terminated
  end.

(** [dump], and [parse] without exceptions. *)
Class Json := {
  dump : json -> Bytes;
  parse : Bytes -> option json;
}.

(** Values that the library keeps exactly: no fractions, integers of 64 bits, text in
    ASCII, keys in order. *)
Definition ascii_text (s : Bytes) : bool := forallb (λ c, (0 <=? c) && (c <? 128)) s.
Fixpoint keys_ordered (m : list (Bytes * json)) : bool :=
  match m with
  | p :: ((q :: _) as m') => match lex_compare p.1 q.1 with Lt => keys_ordered m' | _ => false end
  | _ => true
  end.
Fixpoint plain (j : json) : bool :=
  match j with
  | JFloat _ => false
  | JInt z => (- 2 ^ 63 <=? z) && (z <? 2 ^ 64)
  | JString s => ascii_text s
  | JArray l => forallb plain l
  | JObject m => keys_ordered m && forallb (λ p, ascii_text p.1 && plain p.2) m
  | _ => true
  end.

Class JsonLaws `{Json} : Prop := {
  parse_dump j : plain j = true -> parse (dump j) = Some j;
}.

(** ** Properties *)

Lemma json_find_insert k v k' m :
  json_find k' (json_insert k v m) = if decide (k' = k) then Some v else json_find k' m.
Proof.
  induction m as [|p m IH]; cbn [json_insert json_find].
  - case_decide as Hk; [by rewrite bool_decide_true | by rewrite bool_decide_false].
  - destruct (lex_compare k p.1) eqn:E; cbn [json_find fst snd].
    + apply lex_compare_eq in E as ->. case_decide as Hk; [by rewrite bool_decide_true|]. by rewrite !bool_decide_false.
    + case_decide as Hk; [by rewrite bool_decide_true | by rewrite bool_decide_false].
    + rewrite IH. case_decide as Hk; [|done]. subst k'. rewrite bool_decide_false; [done|].
      intros <-. by rewrite (proj2 (lex_compare_eq _ _)) in E.
Qed.

Lemma outcome_map_octets l : bytes_ok l -> outcome_map (json_arithmetic 8) (JInt <$> l) = Success l.
Proof.
  induction 1 as [|b l Hb _ IH]; [done|]. cbn [fmap list_fmap outcome_map json_arithmetic outcome_bind].
  unfold is_byte in Hb. unfold wrap. rewrite Z.mod_small, IH by lia. done.
Qed.

Lemma json_octets_array l : bytes_ok l -> json_octets (length l) (JArray (JInt <$> l)) = Success l.
Proof.
  intros Hl. unfold json_octets. rewrite decide_False by (rewrite length_fmap; lia).
  rewrite take_ge by (by rewrite length_fmap). by apply outcome_map_octets.
Qed.

(** ** An instance of the laws: every value with a tag and its length in front *)

Section json_rect.
Context (P : json -> Prop) (Hnull : P JNull) (Hbool : forall b, P (JBool b)) (Hint : forall z, P (JInt z))
  (Hfloat : forall z, P (JFloat z)) (Hstring : forall s, P (JString s)) (Harray : forall l, Forall P l -> P (JArray l))
  (Hobject : forall m, Forall (λ p, P p.2) m -> P (JObject m)).

Fixpoint json_nested (j : json) : P j :=
  match j with
  | JNull => Hnull
  | JBool b => Hbool b
  | JInt z => Hint z
  | JFloat z => Hfloat z
  | JString s => Hstring s
  | JArray l => Harray l ((fix go l : Forall P l :=
      match l with [] => Forall_nil_2 _ | j :: l => Forall_cons_2 _ j l (json_nested j) (go l) end) l)
  | JObject m => Hobject m ((fix go m : Forall (λ p, P p.2) m :=
      match m with [] => Forall_nil_2 _ | p :: m => Forall_cons_2 (λ p, P p.2) p m (json_nested p.2) (go m) end) m)
  end.
End json_rect.

Fixpoint tagged (j : json) : Bytes :=
  match j with
  | JNull => [0]
  | JBool b => [1; if b then 1 else 0]
  | JInt z => [2; z]
  | JFloat z => [3; z]
  | JString s => 4 :: zlen s :: s
  | JArray l => 5 :: zlen l :: mjoin (tagged <$> l)
  | JObject m => 6 :: zlen m :: mjoin ((λ p, zlen p.1 :: p.1 ++ tagged p.2) <$> m)
  end.

Section untag.
Context (untag : Bytes -> option (json * Bytes)).

Fixpoint untag_array (n : nat) (t : Bytes) : option (list json * Bytes) :=
  match n with
  | O => Some ([], t)
  | S n =>
      match untag t with
      | Some (j, t) => match untag_array n t with Some (l, t) => Some (j :: l, t) | None => None end
      | None => None
      end
  end.
Fixpoint untag_object (n : nat) (t : Bytes) : option (list (Bytes * json) * Bytes) :=
  match n, t with
  | O, _ => Some ([], t)
  | S n, k :: t =>
      match untag (zdrop k t) with
      | Some (j, t') => match untag_object n t' with Some (m, t') => Some ((ztake k t, j) :: m, t') | None => None end
      | None => None
      end
  | S n, [] => None
  end.
End untag.

Fixpoint untag (fuel : nat) (t : Bytes) : option (json * Bytes) :=
  match fuel, t with
  | S fuel, tag :: t =>
      if tag =? 0 then Some (JNull, t)
      else
        match t with
        | [] => None
        | v :: t =>
            if tag =? 1 then Some (JBool (v =? 1), t)
            else if tag =? 2 then Some (JInt v, t)
            else if tag =? 3 then Some (JFloat v, t)
            else if tag =? 4 then Some (JString (ztake v t), zdrop v t)
            else if tag =? 5 then
              match untag_array (untag fuel) (Z.to_nat v) t with Some (l, t) => Some (JArray l, t) | None => None end
            else match untag_object (untag fuel) (Z.to_nat v) t with Some (m, t) => Some (JObject m, t) | None => None end
        end
  | _, _ => None
  end.

Lemma untag_array_spec f l rest : Forall (λ j, forall rest, f (tagged j ++ rest) = Some (j, rest)) l ->
  untag_array f (length l) (mjoin (tagged <$> l) ++ rest) = Some (l, rest).
Proof.
  induction 1 as [|j l Hj _ IH]; [done|]. cbn [length untag_array]. rewrite fmap_cons.
  change (mjoin (tagged j :: (tagged <$> l))) with (tagged j ++ mjoin (tagged <$> l)). rewrite <- app_assoc, Hj. cbv iota beta. by rewrite IH.
Qed.

Lemma untag_object_spec f m rest : Forall (λ p : Bytes * json, forall rest, f (tagged p.2 ++ rest) = Some (p.2, rest)) m ->
  untag_object f (length m) (mjoin ((λ p, zlen p.1 :: p.1 ++ tagged p.2) <$> m) ++ rest) = Some (m, rest).
Proof.
  induction 1 as [|[k j] m Hj _ IH]; [done|]. rewrite fmap_cons.
  set (tail := _ <$> m) in *. change (mjoin (?x :: tail)) with (x ++ mjoin tail). cbn [length fst snd app untag_object] in *. rewrite <- !app_assoc, zdrop_app, ztake_app, Hj. cbv iota beta. by rewrite IH.
Qed.

(** The nesting of a value bounds the fuel. *)
Fixpoint nesting (j : json) : nat :=
  match j with
  | JArray l => S (list_max (nesting <$> l))
  | JObject m => S (list_max ((λ p, nesting p.2) <$> m))
  | _ => 1
  end.

Lemma untag_tagged j : forall fuel rest, (nesting j <= fuel)%nat -> untag fuel (tagged j ++ rest) = Some (j, rest).
Proof.
  induction j as [|b|z|z|s|l IH|m IH] using json_nested; intros [|fuel] rest Hf; cbn [nesting] in Hf; try lia; try done.
  - by destruct b.
  - cbn [tagged app untag Z.eqb]. cbn. by rewrite ztake_app, zdrop_app.
  - cbn. rewrite Nat2Z.id, untag_array_spec; [done|]. apply Forall_forall. intros j Hj rest'.
    rewrite Forall_forall in IH. apply IH; [done|].
    assert (nesting j <= list_max (nesting <$> l))%nat; [|lia]. pose proof (proj1 (list_max_le (nesting <$> l) _) (le_n _)) as Hm.
    rewrite List.Forall_forall in Hm. apply Hm. apply list_elem_of_In. by apply list_elem_of_fmap_2.
  - cbn. rewrite Nat2Z.id, untag_object_spec; [done|]. apply Forall_forall. intros p Hp rest'.
    rewrite Forall_forall in IH. apply IH; [done|].
    assert (nesting p.2 <= list_max ((λ p, nesting p.2) <$> m))%nat; [|lia].
    pose proof (proj1 (list_max_le ((λ p : Bytes * json, nesting p.2) <$> m) _) (le_n _)) as Hm.
    rewrite List.Forall_forall in Hm. apply Hm. apply list_elem_of_In. by apply (list_elem_of_fmap_2 (λ p : Bytes * json, nesting p.2)).
Qed.

Definition model_json : Json := {|
  dump j := Z.of_nat (nesting j) :: tagged j;
  parse t := match t with n :: t => fst <$> untag (Z.to_nat n) t | [] => None end;
|}.

Lemma model_json_laws : @JsonLaws model_json.
Proof.
  split. intros j _. cbn. rewrite Nat2Z.id. rewrite <- (app_nil_r (tagged j)), untag_tagged by done. done.
Qed.
