(* ===== verification/Stopwatch.v ===== *)
(** * Stopwatch: measured times and their text

    [infra/common/stopwatch.cpp].  Time points and durations are integers of
    nanoseconds; each call that reads the clock takes what it reads. *)
From S2P Require Import Prelude Text.

Module StopWatch.

Record t := mk {
  started_ : bool;
  start_time_ : Z;
  laps_ : list (Z * Z);
}.

Definition make : t := mk false 0 [].

Definition lap (now : Z) (w : t) : (Z * Z) * t :=
  match last (laps_ w) with
  | Some (time_point, _) =>
      if negb (started_ w) then ((0, 0), w)
      else
        let l := (now, now - time_point) in
        (l, mk (started_ w) (start_time_ w) (laps_ w ++ [l]))
  | None => ((0, 0), w)
  end.

Definition stop (now : Z) (w : t) : (Z * Z) * t :=
  if negb (started_ w) then ((0, 0), w)
  else
    let (ret, w) := lap now w in
    (ret, mk false (start_time_ w) (laps_ w)).

Definition reset (now : Z) (w : t) : t :=
  let w := (stop now w).2 in
  mk (started_ w) 0 [].

(** Without a reset a start time that has been set is kept. *)
Definition start (with_reset : bool) (now : Z) (w : t) : Z * t :=
  let w := if with_reset then reset now w else w in
  if started_ w then (start_time_ w, w)
  else
    let start_time := if start_time_ w =? 0 then now else start_time_ w in
    let l :=
      match last (laps_ w) with
      | Some (time_point, _) => (start_time, start_time - time_point)
      | None => (start_time, 0)
      end in
    (start_time, mk true start_time (laps_ w ++ [l])).

Definition since_start (origin : Z) (w : t) : Z :=
  if start_time_ w =? 0 then 0 else origin - start_time_ w.

Definition second : Z := 10 ^ 9.

(** A count with its unit, after a space when something precedes it. *)
Definition field (need_space : bool) (count : Z) (unit_ : Z) : Bytes :=
  if count =? 0 then [] else (if need_space then [32] else []) ++ decimal count ++ [unit_].

(** [setw(3)] with zeroes, after the point; nothing for zero. *)
Definition fraction (count : Z) : Bytes := if count =? 0 then [] else 46 :: padded 3 count.

Definition format (duration : Z) : Bytes :=
  if 60 * second <=? duration then
    let d := duration / (86400 * second) in
    let duration := duration - d * (86400 * second) in
    let h := duration / (3600 * second) in
    let duration := duration - h * (3600 * second) in
    let m := duration / (60 * second) in
    let duration := duration - m * (60 * second) in
    let s := duration / second in
    let space1 := negb (d =? 0) in
    let space2 := space1 || negb (h =? 0) in
    let space3 := space2 || negb (m =? 0) in
    field false d 100 ++ field space1 h 104 ++ field space2 m 109 ++ field space3 s 115
  else if second <=? duration then
    let s := duration / second in
    let ms := (duration - s * second) / 10 ^ 6 in
    decimal s ++ fraction ms ++ str "s"
  else if 10 ^ 6 <=? duration then
    let ms := duration / 10 ^ 6 in
    let us := (duration - ms * 10 ^ 6) / 10 ^ 3 in
    decimal ms ++ fraction us ++ str "ms"
  else if 10 ^ 3 <=? duration then decimal (duration / 10 ^ 3) ++ str "us"
  else if 1 <=? duration then decimal duration ++ str "ns"
  else str "nil".

End StopWatch.

Module StopWatchFacts.
Import StopWatch.

(** ** Laps *)

(** The laps after a start: each with the time since the one before. *)
Fixpoint laps_from (time_point : Z) (times : list Z) : list (Z * Z) :=
  match times with
  | [] => []
  | now :: times => (now, now - time_point) :: laps_from now times
  end.

Lemma laps_run times : forall st laps time_point d, 
  foldl (λ w now, (lap now w).2) (mk true st (laps ++ [(time_point, d)])) times =
    mk true st (laps ++ (time_point, d) :: laps_from time_point times).
Proof.
  induction times as [|now times IH]; intros st laps time_point d; [done|]. cbn [foldl laps_from].
  unfold lap at 2. cbn [laps_ started_ start_time_]. rewrite last_snoc. cbn [negb snd].
  rewrite IH. by rewrite <- app_assoc.
Qed.

Lemma laps_sum times time_point :
  foldr (λ l s, l.2 + s) 0 (laps_from time_point times) = default time_point (last times) - time_point.
Proof.
  revert time_point. induction times as [|now times IH]; intros tp; cbn [laps_from foldr]; [cbn; lia|].
  rewrite IH. cbn [snd]. rewrite last_cons. destruct (last times); cbn; lia.
Qed.

(** Of a watch that is started once, the laps are the times between the calls, and
    they add up to the time since the start. *)
Lemma laps_add_up t0 times : t0 <> 0 ->
  let w := foldl (λ w now, (lap now w).2) (start false t0 make).2 times in
  laps_ w = (t0, 0) :: laps_from t0 times /\
  since_start (default t0 (last times)) w = foldr (λ l s, l.2 + s) 0 (laps_ w).
Proof.
  intros Ht. cbv zeta. change (start false t0 make).2 with (mk true t0 ([] ++ [(t0, 0)])).
  rewrite (laps_run times t0 [] t0 0). cbn [snd laps_ app]. split; [done|]. cbn [foldr snd]. rewrite laps_sum.
  unfold since_start. cbn [start_time_]. rewrite (proj2 (Z.eqb_neq _ _)) by done. lia.
Qed.

(** A watch that has been stopped and is started again without a reset restarts at its
    first start: it records a lap of negative duration, and the next lap counts the
    first run and the pause again. *)
Lemma restart_rewinds t0 t1 t2 t3 : t0 <> 0 ->
  let w := (stop t1 (start false t0 make).2).2 in
  let (started, w) := start false t2 w in
  started = t0 /\ last (laps_ w) = Some (t0, t0 - t1) /\ (lap t3 w).1 = (t3, t3 - t0).
Proof.
  intros Ht. unfold start, make. cbn [started_ start_time_ laps_ last]. change (0 =? 0) with true. cbv iota.
  unfold stop, lap. cbn. by rewrite (proj2 (Z.eqb_neq _ _)).
Qed.

(** ** Text *)

(** Reads the counts and units of a long duration, in seconds. *)
Definition unit_seconds (c : Z) : Z :=
  if c =? 100 then 86400 else if c =? 104 then 3600 else if c =? 109 then 60 else 1.
Definition skip_space (l : Bytes) : Bytes := if bool_decide (head l = Some 32) then tail l else l.
Fixpoint read_duration (fuel : nat) (l : Bytes) : Z :=
  match fuel with
  | O => 0
  | S fuel =>
      match span_digits (skip_space l) with
      | (a, c :: rest) => digits_value a * unit_seconds c + read_duration fuel rest
      | _ => 0
      end
  end.

Lemma skip_space_digits l rest : all_digits l -> l <> [] -> skip_space (l ++ rest) = l ++ rest.
Proof.
  intros Hl Hn. unfold skip_space. destruct Hl as [|c l Hc _]; [done|]. rewrite bool_decide_eq_false_2; [done|].
  intros [= ->]. done.
Qed.

Lemma read_field sp count c rest fuel : 0 <= count < 2 ^ 64 -> is_digit c = false -> (0 < fuel)%nat ->
  exists fuel', (fuel <= S fuel')%nat /\
    read_duration fuel (field sp count c ++ rest) = count * unit_seconds c + read_duration fuel' rest.
Proof.
  intros Hc Hd Hf. unfold field. case_cmp; [exists fuel; subst; split; [lia | done]|].
  destruct fuel as [|fuel]; [lia|]. exists fuel. split; [lia|]. cbn [read_duration].
  assert (Hs : skip_space (((if sp then [32] else []) ++ decimal count ++ [c]) ++ rest) = decimal count ++ c :: rest).
  { rewrite <- !app_assoc. destruct sp; [done|]. apply (skip_space_digits (decimal count) (c :: rest)); [apply decimal_digits; lia | apply decimal_neq_nil]. }
  rewrite Hs, span_digits_app, decimal_value by (done || (apply decimal_digits; lia) || by intros ?? [= <- <-]). done.
Qed.

Lemma div_bounds a k : 0 < k -> k * (a / k) <= a < k * (a / k + 1).
Proof. intros Hk. split; [by apply Z.mul_div_le | rewrite Z.add_1_r; by apply Z.mul_succ_div_gt]. Qed.

(** The text of a duration of a minute or more tells its seconds, the rest cut off. *)
Lemma format_read duration : 60 * second <= duration < 2 ^ 63 -> read_duration 4 (format duration) = duration / second.
Proof.
  intros [Hl Hh]. unfold format. rewrite (proj2 (Z.leb_le _ _)) by done. cbv zeta.
  set (d := duration / (86400 * second)). set (r1 := duration - _). set (h := r1 / _). set (r2 := r1 - _).
  set (m := r2 / _). set (r3 := r2 - _). set (s := r3 / _). unfold second in *.
  pose proof (div_bounds duration (86400 * 10 ^ 9) ltac:(lia)) as Hd. pose proof (div_bounds r1 (3600 * 10 ^ 9) ltac:(lia)) as Hm.
  pose proof (div_bounds r2 (60 * 10 ^ 9) ltac:(lia)) as Hn. pose proof (div_bounds r3 (10 ^ 9) ltac:(lia)) as Hs.
  change (duration / (86400 * 10 ^ 9)) with d in Hd. change (r1 / (3600 * 10 ^ 9)) with h in Hm.
  change (r2 / (60 * 10 ^ 9)) with m in Hn. change (r3 / 10 ^ 9) with s in Hs.
  set (b1 := negb _). set (b2 := b1 || _). set (b3 := b2 || _).
  destruct (read_field false d 100 (field b1 h 104 ++ field b2 m 109 ++ field b3 s 115) 4) as (f1 & L1 & ->); [lia | done | lia|].
  destruct (read_field b1 h 104 (field b2 m 109 ++ field b3 s 115) f1) as (f2 & L2 & ->); [lia | done | lia|].
  destruct (read_field b2 m 109 (field b3 s 115) f2) as (f3 & L3 & ->); [lia | done | lia|].
  destruct (read_field b3 s 115 [] f3) as (f4 & L4 & E); [lia | done | lia|]. rewrite app_nil_r in E. rewrite E.
  assert (read_duration f4 [] = 0) as -> by (by destruct f4).
  change (unit_seconds 100) with 86400. change (unit_seconds 104) with 3600. change (unit_seconds 109) with 60.
  change (unit_seconds 115) with 1. apply (Z.div_unique_pos _ _ _ (r3 - 10 ^ 9 * s)); lia.
Qed.

End StopWatchFacts.
