(* ===== verification/Digest.v ===== *)
(** * Digest: message digests and their composition

    [core/crypto/md.hpp], [hmac.hpp] and [hash160.cpp]: the wrapper of OpenSSL's
    digest contexts, which are recycled through a pool, and what is built on it.
    OpenSSL is the class [Evp]; its laws say that a context hashes what it has been
    given since it was initialized. *)
From S2P Require Import Prelude Containers.

Class Evp := {
  name : Type;
  ctx : Type;
  digest_name : name -> Bytes;
  digest_size : name -> Z;
  block_size : name -> Z;
  (** [EVP_MD_CTX_new], [EVP_DigestInit_ex] with a digest and without one. *)
  ctx_new : ctx;
  digest_init : name -> ctx -> ctx;
  digest_reinit : ctx -> ctx;
  digest_update : Bytes -> ctx -> ctx;
  (** [EVP_DigestFinal_ex]: nothing on failure. *)
  digest_final : ctx -> option Bytes * ctx;
  (** [EVP_MD_CTX_get0_md_data], as words. *)
  md_data : ctx -> option (list Z);
}.

(** [hash] is the digest as a function; [absorbed] is what a context has been given:
    nothing when it has not been initialized, and the digest only once it has been
    finalized, until it is initialized again. *)
Class EvpLaws `{Evp} (hash : name -> Bytes -> Bytes) (absorbed : ctx -> option (name * option Bytes)) : Prop := {
  init_absorbed n c : absorbed (digest_init n c) = Some (n, Some []);
  reinit_absorbed n d c : absorbed c = Some (n, d) -> absorbed (digest_reinit c) = Some (n, Some []);
  update_absorbed n x d c : absorbed c = Some (n, Some x) -> absorbed (digest_update d c) = Some (n, Some (x ++ d));
  final_absorbed n x c : absorbed c = Some (n, Some x) ->
    (digest_final c).1 = Some (hash n x) /\ absorbed (digest_final c).2 = Some (n, None);
  hash_length n d : zlen (hash n d) = digest_size n;
  digest_size_bound n : 0 < digest_size n <= block_size n;
}.

Module MessageDigest.
Section MessageDigest.
Context `{Evp}.

Record t := mk {
  digest_ : name;
  digest_context_ : ctx;
  ingested_size_ : Z;
}.

(** The context comes from the pool of contexts, and goes back to it. *)
Definition make (n : name) (MDContexts : list ctx) : t * list ctx :=
  let (c, pool) :=
    if ObjectPool.empty MDContexts then (Some ctx_new, MDContexts) else ObjectPool.acquire MDContexts in
  (mk n (digest_init n (default ctx_new c)) 0, pool).
Definition destroy (d : t) (MDContexts : list ctx) : list ctx := ObjectPool.add (digest_context_ d) MDContexts.

Definition init (d : t) : t := mk (digest_ d) (digest_reinit (digest_context_ d)) 0.

Definition update (data : Bytes) (d : t) : t :=
  if bool_decide (data = []) then d
  else mk (digest_ d) (digest_update data (digest_context_ d)) (wrap 64 (ingested_size_ d + zlen data)).

Definition init_with (data : Bytes) (d : t) : t := update data (init d).
Definition make_with (n : name) (data : Bytes) (MDContexts : list ctx) : t * list ctx :=
  let (d, pool) := make n MDContexts in (update data d, pool).

(** An integer of [width] octets, in the order of the machine. *)
Definition update_integral (width : nat) (v : Z) (d : t) : t := update (le_bytes width v) d.

Definition finalize (compress : bool) (d : t) : Bytes * t :=
  let ret := replicate (Z.to_nat (digest_size (digest_ d))) 0 in
  if negb compress then
    let (r, c) := digest_final (digest_context_ d) in
    (default [] r, mk (digest_ d) c (ingested_size_ d))
  else if bool_decide (digest_name (digest_ d) = str "SHA256")
          && (ingested_size_ d =? block_size (digest_ d)) then
    match md_data (digest_context_ d) with
    | Some words => (mjoin (be_bytes 4 <$> take 8 words), d)
    | None => (ret, d)
    end
  else (ret, d).

End MessageDigest.
End MessageDigest.

(** ** HMAC *)

Module Hmac.
Section Hmac.
Context `{Evp}.

Record t := mk { inner : MessageDigest.t; outer : MessageDigest.t }.

(** [rkey.resize(n, 0)] *)
Definition resize (n : Z) (k : Bytes) : Bytes := ztake n k ++ replicate (Z.to_nat (n - zlen k)) 0.

Definition init (initial_data : Bytes) (h : t) : t :=
  let inner := MessageDigest.init (inner h) in
  let outer := MessageDigest.init (outer h) in
  let block := block_size (MessageDigest.digest_ inner) in
  let (rkey, inner) :=
    if block <? zlen initial_data then
      let inner := MessageDigest.update initial_data inner in
      let (rkey, inner) := MessageDigest.finalize false inner in
      (rkey, MessageDigest.init inner)
    else (initial_data, inner) in
  let rkey := resize block rkey in
  let rkey := (λ b, Z.lxor b 0x5c) <$> rkey in
  let outer := MessageDigest.update rkey outer in
  let rkey := (λ b, Z.lxor b (Z.lxor 0x5c 0x36)) <$> rkey in
  let inner := MessageDigest.update rkey inner in
  mk inner outer.

Definition update (data : Bytes) (h : t) : t := mk (MessageDigest.update data (inner h)) (outer h).

Definition finalize (h : t) : Bytes * t :=
  let (tmp, inner) := MessageDigest.finalize false (inner h) in
  if bool_decide (tmp = []) then (tmp, mk inner (outer h))
  else
    let outer := MessageDigest.update tmp (outer h) in
    let (ret, outer) := MessageDigest.finalize false outer in
    (ret, mk inner outer).

End Hmac.
End Hmac.

(** ** SHA-256 and RIPEMD-160 *)

Module Hash160.
Section Hash160.
Context `{Evp} (sha256_name ripemd160_name : name).

Abbreviation t := MessageDigest.t.

Definition make (data : Bytes) (pool : list ctx) : t * list ctx := MessageDigest.make_with sha256_name data pool.
Definition init (data : Bytes) (h : t) : t := MessageDigest.init_with data h.
Definition update (data : Bytes) (h : t) : t := MessageDigest.update data h.

Definition kEmptyHash : Bytes :=
  [0xb4; 0x72; 0xa2; 0x66; 0xd0; 0xbd; 0x89; 0xc1; 0x37; 0x06;
   0xa4; 0x13; 0x2c; 0xcf; 0xb1; 0x6f; 0x7c; 0x3b; 0x9f; 0xcb].

Definition finalize (pool : list ctx) (h : t) : Bytes * t * list ctx :=
  if MessageDigest.ingested_size_ h =? 0 then (kEmptyHash, h, pool)
  else
    let (data, h) := MessageDigest.finalize false h in
    if bool_decide (data = []) then (data, h, pool)
    else
      let (outer, pool) := MessageDigest.make_with ripemd160_name data pool in
      let (ret, outer) := MessageDigest.finalize false outer in
      (ret, h, MessageDigest.destroy outer pool).

End Hash160.
End Hash160.

(** ** Properties *)

Module DigestFacts.
Section DigestFacts.
Context `{EvpLaws}.

(** The digest has been given [x]; or it is of kind [n], whatever it has been used for. *)
Definition has (n : name) (x : Bytes) (d : MessageDigest.t) : Prop :=
  MessageDigest.digest_ d = n /\ absorbed (MessageDigest.digest_context_ d) = Some (n, Some x).
Definition kind (n : name) (d : MessageDigest.t) : Prop :=
  MessageDigest.digest_ d = n /\ exists x, absorbed (MessageDigest.digest_context_ d) = Some (n, x).

Lemma kind_has n x d : has n x d -> kind n d.
Proof. intros [Hn Hx]. split; eauto. Qed.

Lemma has_make n pool : has n [] (MessageDigest.make n pool).1.
Proof.
  unfold MessageDigest.make. destruct (if ObjectPool.empty pool then _ else _) as [c p]. split; [done | apply init_absorbed].
Qed.

Lemma has_init n d : kind n d -> has n [] (MessageDigest.init d).
Proof. intros (Hn & x & Hx). split; [done|]. by eapply reinit_absorbed. Qed.

Lemma has_update n x data d : has n x d -> has n (x ++ data) (MessageDigest.update data d).
Proof.
  intros [Hn Hx]. unfold MessageDigest.update. case_bool_decide as Hd.
  - subst data. rewrite app_nil_r. by split.
  - split; [done|]. by apply update_absorbed.
Qed.

Lemma has_updates n chunks x d : has n x d -> has n (x ++ mjoin chunks) (foldl (λ d c, MessageDigest.update c d) d chunks).
Proof.
  revert x d. induction chunks as [|c chunks IH]; intros x d Hd; cbn; [by rewrite app_nil_r|].
  rewrite app_assoc. by apply IH, has_update.
Qed.

Lemma has_finalize n x d : has n x d ->
  (MessageDigest.finalize false d).1 = hash n x /\ kind n (MessageDigest.finalize false d).2.
Proof.
  intros [Hn Hx]. unfold MessageDigest.finalize. cbn [negb]. destruct (final_absorbed n x _ Hx) as [Hr Hc].
  destruct (digest_final _) as [r c]. cbn in *. subst r. split; [done|]. split; [done | eauto].
Qed.

Lemma hash_not_nil n x : hash n x <> [].
Proof. intros Hn. pose proof (hash_length n x) as Hl. pose proof (digest_size_bound n). rewrite Hn in Hl. cbn in Hl. lia. Qed.

(** *** HMAC *)

(** RFC 2104. *)
Definition hmac (n : name) (key text : Bytes) : Bytes :=
  let k := if block_size n <? zlen key then hash n key else key in
  let k := k ++ replicate (Z.to_nat (block_size n - zlen k)) 0 in
  hash n ((Z.lxor 0x5c <$> k) ++ hash n ((Z.lxor 0x36 <$> k) ++ text)).

Lemma xor_pads (k : Bytes) : (λ b, Z.lxor b (Z.lxor 0x5c 0x36)) <$> ((λ b, Z.lxor b 0x5c) <$> k) = Z.lxor 0x36 <$> k.
Proof.
  rewrite <- list_fmap_compose. apply list_fmap_ext. intros _ b _. cbn [compose].
  rewrite Z.lxor_assoc, <- (Z.lxor_assoc 0x5c), Z.lxor_nilpotent, Z.lxor_0_l. apply Z.lxor_comm.
Qed.

Lemma xor_outer (k : Bytes) : (λ b, Z.lxor b 0x5c) <$> k = Z.lxor 0x5c <$> k.
Proof. apply list_fmap_ext. intros _ b _. apply Z.lxor_comm. Qed.

(** The state of an HMAC: the keys padded, and then the text. *)
Definition keyed (n : name) (key text : Bytes) (h : Hmac.t) : Prop :=
  let k := if block_size n <? zlen key then hash n key else key in
  let k := k ++ replicate (Z.to_nat (block_size n - zlen k)) 0 in
  has n ((Z.lxor 0x36 <$> k) ++ text) (Hmac.inner h) /\ has n (Z.lxor 0x5c <$> k) (Hmac.outer h).

Lemma resize_short b k : zlen k <= b -> Hmac.resize b k = k ++ replicate (Z.to_nat (b - zlen k)) 0.
Proof. intros Hk. unfold Hmac.resize. by rewrite ztake_ge. Qed.

Lemma keyed_init n key h : kind n (Hmac.inner h) -> kind n (Hmac.outer h) -> keyed n key [] (Hmac.init key h).
Proof.
  intros Hi Ho. apply has_init in Hi. apply has_init in Ho. unfold Hmac.init, keyed. cbv zeta.
  set (inner := MessageDigest.init (Hmac.inner h)) in *. set (outer := MessageDigest.init (Hmac.outer h)) in *.
  replace (MessageDigest.digest_ inner) with n by (by destruct Hi). rewrite app_nil_r.
  pose proof (digest_size_bound n). case_cmp.
  - destruct (has_finalize _ _ _ (has_update _ _ key _ Hi)) as [Hr Hk].
    destruct (MessageDigest.finalize false (MessageDigest.update key inner)) as [r inner']. cbn in Hr, Hk |- *. subst r.
    rewrite resize_short, xor_pads, xor_outer by (rewrite hash_length; lia).
    split; [apply (has_update n []); by apply has_init | by apply (has_update n [])].
  - rewrite resize_short, xor_pads, xor_outer by lia. split; by apply (has_update n []).
Qed.

Lemma keyed_updates n key chunks text h : keyed n key text h ->
  keyed n key (text ++ mjoin chunks) (foldl (λ h c, Hmac.update c h) h chunks).
Proof.
  revert text h. induction chunks as [|c chunks IH]; intros text h Hk; cbn; [by rewrite app_nil_r|].
  rewrite app_assoc. apply IH. destruct Hk as [Hi Ho]. split; [|done]. rewrite app_assoc. by apply has_update.
Qed.

Lemma keyed_finalize n key text h : keyed n key text h -> (Hmac.finalize h).1 = hmac n key text /\
  kind n (Hmac.inner (Hmac.finalize h).2) /\ kind n (Hmac.outer (Hmac.finalize h).2).
Proof.
  intros [Hi Ho]. unfold Hmac.finalize, hmac. destruct (has_finalize _ _ _ Hi) as [Hr Hk].
  destruct (MessageDigest.finalize false (Hmac.inner h)) as [tmp inner]. cbn in Hr, Hk. subst tmp.
  rewrite bool_decide_eq_false_2 by apply hash_not_nil.
  set (tmp := hash n _). pose proof (has_finalize _ _ _ (has_update _ _ tmp _ Ho)) as [Hr Hk'].
  destruct (MessageDigest.finalize false (MessageDigest.update _ _)) as [ret outer]. cbn in Hr, Hk' |- *. by subst ret.
Qed.

(** C30: Keyed again at any time, whatever it has been used for, an HMAC computes RFC 2104
    of the key and of the text it is given, in any number of pieces; and it can be
    keyed again after that. *)
Theorem hmac_rfc2104 n key chunks h : kind n (Hmac.inner h) -> kind n (Hmac.outer h) ->
  let r := Hmac.finalize (foldl (λ h c, Hmac.update c h) (Hmac.init key h) chunks) in
  r.1 = hmac n key (mjoin chunks) /\ kind n (Hmac.inner r.2) /\ kind n (Hmac.outer r.2).
Proof. intros Hi Ho. by apply keyed_finalize, (keyed_updates n key chunks []), keyed_init. Qed.

(** *** Hash160 *)

(** The size that has been ingested is that of the octets, as long as it fits. *)
Definition sized (n : name) (x : Bytes) (d : MessageDigest.t) : Prop :=
  has n x d /\ MessageDigest.ingested_size_ d = zlen x.

Lemma sized_update n x data d : sized n x d -> zlen (x ++ data) < 2 ^ 64 -> sized n (x ++ data) (MessageDigest.update data d).
Proof.
  intros [Hx Hs] Hl. split; [by apply has_update|]. unfold MessageDigest.update. case_bool_decide as Hd.
  - subst data. by rewrite app_nil_r.
  - cbn. unfold wrap. rewrite Hs, <- zlen_app, Z.mod_small by lia. done.
Qed.

(** The contexts of the pool may have been used for anything: the result is RIPEMD-160 of
    SHA-256, with a constant for the empty text. *)
Lemma hash160_composed sha rip x pool h : sized sha x h -> x <> [] -> zlen x < 2 ^ 64 ->
  (Hash160.finalize rip pool h).1.1 = hash rip (hash sha x).
Proof.
  intros [Hx Hs] Hn Hl. unfold Hash160.finalize. rewrite Hs, (proj2 (Z.eqb_neq _ _)) by (destruct x; [done | cbn; lia]).
  destruct (has_finalize _ _ _ Hx) as [Hr _]. destruct (MessageDigest.finalize false h) as [data h']. cbn in Hr. subst data.
  rewrite bool_decide_eq_false_2 by apply hash_not_nil. unfold MessageDigest.make_with.
  pose proof (has_make rip pool) as Hm. destruct (MessageDigest.make rip pool) as [outer pool']. cbn in Hm.
  destruct (has_finalize _ _ _ (has_update _ _ (hash sha x) _ Hm)) as [Hr _].
  destruct (MessageDigest.finalize false (MessageDigest.update _ _)) as [ret outer']. done.
Qed.

End DigestFacts.

(** ** Instances of the laws: contexts that keep what they are given, over any two digests
    of the right sizes. *)
Definition model_evp (h : bool -> Bytes -> Bytes) : Evp := {|
  name := bool;
  ctx := option (bool * option Bytes);
  digest_name n := if n then str "SHA256" else str "RIPEMD160";
  digest_size n := if n then 32 else 20;
  block_size _ := 64;
  ctx_new := None;
  digest_init n _ := Some (n, Some []);
  digest_reinit c := match c with Some (n, _) => Some (n, Some []) | None => None end;
  digest_update d c := match c with Some (n, Some x) => Some (n, Some (x ++ d)) | c => c end;
  digest_final c := match c with Some (n, Some x) => (Some (h n x), Some (n, None)) | c => (None, c) end;
  md_data _ := None;
|}.

Lemma model_evp_laws (h : bool -> Bytes -> Bytes) : (forall n d, zlen (h n d) = if n then 32 else 20) ->
  @EvpLaws (model_evp h) h (λ c : option (bool * option Bytes), c).
Proof.
  intros Hl. split; cbn; try done.
  - by intros n d c ->.
  - by intros n x d c ->.
  - by intros n x c ->.
  - intros []; lia.
Qed.

(** Digests that add the octets up. *)
Definition model_hash (n : bool) (x : Bytes) : Bytes :=
  replicate (if n then 32 else 20)%nat (foldr Z.add (zlen x) x mod 256).

Lemma length_model_hash n d : zlen (model_hash n d) = if n then 32 else 20.
Proof. unfold model_hash. by rewrite length_replicate; destruct n. Qed.

Lemma hmac_rfc2104_witness :
  let M := model_evp model_hash in
  let h := @Hmac.mk M (@MessageDigest.make M true []).1 (@MessageDigest.make M true [None]).1 in
  (@Hmac.finalize M (Hmac.update (str "text") (Hmac.init (str "key") h))).1 =
    @hmac M model_hash true (str "key") (str "text").
Proof.
  intros M h. refine (proj1 (@hmac_rfc2104 M _ _ (model_evp_laws _ length_model_hash) true (str "key") [str "text"] h _ _));
    (split; [reflexivity | exists (Some []); reflexivity]).
Defined.

End DigestFacts.
