(* ===== verification/Memory.v ===== *)
(** * Memory: pages locked against swapping

    [core/common/memory.hpp] and [secure_bytes.hpp]: the manager of locked pages,
    which counts how many ranges use a page and asks the operating system to lock
    it for the first and to unlock it after the last; and the allocator of secrets
    on top of it.  The operating system is a class with the laws of [mlock] and
    [munlock].  Addresses are 64 bits wide. *)
From stdpp Require Import sorting.
From S2P Require Import Prelude.

(** What [mlock] and [munlock] do to the operating system's state. *)
Class Locker (L : Type) := {
  lock : L -> Z -> Z -> bool * L;
  unlock : L -> Z -> Z -> bool * L;
}.

(** Their documented behaviour, on the set of locked pages: a call that fails leaves
    the locks of the address range unchanged, and locks do not nest. *)
Class LockerLaws (L : Type) `{Locker L} (held : L -> gset Z) : Prop := {
  lock_held l p n : held (lock l p n).2 = if (lock l p n).1 then {[p]} ∪ held l else held l;
  unlock_held l p n : held (unlock l p n).2 = if (unlock l p n).1 then held l ∖ {[p]} else held l;
}.

Module LockedPagesManager.
Section LockedPagesManager.
Context {L : Type} `{Locker L}.

Record t := mk {
  locker_ : L;
  page_size_ : Z;
  locked_pages_ : gmap Z Z;
}.

Definition make (page_size : Z) (locker : L) : outcome t :=
  if negb ((512 <=? page_size) && (page_size <=? 2 ^ 30)) then Fault AssertionFailed
  else if negb (Z.land page_size (page_size - 1) =? 0) then Fault AssertionFailed
  else Success (mk locker page_size ∅).

Definition page_mask_ (m : t) : Z := wrap 64 (Z.lnot (page_size_ m - 1)).

Definition get_range_boundaries (address size : Z) (m : t) : Z * Z :=
  (Z.land address (page_mask_ m), Z.land (wrap 64 (address + size - 1)) (page_mask_ m)).

(** The bodies of the loops; the result [true] goes on to the next page. *)
Definition lock_page (page : Z) (m : t) : outcome bool * t :=
  match locked_pages_ m !! page with
  | Some n => (Success true, mk (locker_ m) (page_size_ m) (<[page := n + 1]> (locked_pages_ m)))
  | None =>
      let (ok, l) := lock (locker_ m) page (page_size_ m) in
      (Success ok, mk l (page_size_ m) (if ok then <[page := 1]> (locked_pages_ m) else locked_pages_ m))
  end.

Definition unlock_page (page : Z) (m : t) : outcome bool * t :=
  match locked_pages_ m !! page with
  | None => (Success true, m)
  | Some n =>
      if negb (0 <? n) then (Fault AssertionFailed, m)
      else if n - 1 =? 0 then
        let (ok, l) := unlock (locker_ m) page (page_size_ m) in
        (Success ok, mk l (page_size_ m) (if ok then delete page (locked_pages_ m) else locked_pages_ m))
      else (Success true, mk (locker_ m) (page_size_ m) (<[page := n - 1]> (locked_pages_ m)))
  end.

(** [for (page = start; page <= end; page += page_size_)], whose page wraps around: no
    result when the loop is still running after [fuel] turns. *)
Fixpoint page_loop (body : Z -> t -> outcome bool * t) (ps : Z) (fuel : nat) (page last : Z) (m : t)
    : option (outcome bool * t) :=
  match fuel with
  | O => None
  | S fuel =>
      if page <=? last then
        match body page m with
        | (Success true, m) => page_loop body ps fuel (wrap 64 (page + ps)) last m
        | r => Some r
        end
      else Some (Success true, m)
  end.

Definition for_pages (body : Z -> t -> outcome bool * t) (address size : Z) (m : t) : option (outcome bool * t) :=
  if (address =? 0) || (size =? 0) then Some (Success false, m)
  else
    let (start, last) := get_range_boundaries address size m in
    page_loop body (page_size_ m) (Z.to_nat ((last - start) / page_size_ m + 2)) start last m.

Definition lock_range : Z -> Z -> t -> option (outcome bool * t) := for_pages lock_page.
Definition unlock_range : Z -> Z -> t -> option (outcome bool * t) := for_pages unlock_page.

Definition size (m : t) : Z := Z.of_nat (base.size (locked_pages_ m)).
Definition empty (m : t) : bool := bool_decide (locked_pages_ m = ∅).
Definition contains (address : Z) (m : t) : bool :=
  bool_decide (is_Some (locked_pages_ m !! Z.land address (page_mask_ m))).

(** In the order of the keys; a page that cannot be unlocked stays. *)
Definition clear_page (m : t) (page : Z) : t :=
  let (ok, l) := unlock (locker_ m) page (page_size_ m) in
  mk l (page_size_ m) (if ok then delete page (locked_pages_ m) else locked_pages_ m).
Definition clear (m : t) : t :=
  foldl clear_page m (merge_sort Z.le (elements (dom (locked_pages_ m)))).

End LockedPagesManager.
End LockedPagesManager.

(** ** The allocator of secrets *)

Module secure_allocator.
Section secure_allocator.
Context {L : Type} `{Locker L}.
Import LockedPagesManager.

(** The memory of the process: octets by address. *)
Definition memory := gmap Z Z.

Definition memory_cleanse (ptr size : Z) (mem : memory) : memory :=
  foldr (λ a mem, <[a := 0]> mem) mem (seqZ ptr size).

(** [ptr] is what the base allocator returns for [n] objects of [width] octets; the
    result of the lock is ignored. *)
Definition allocate (width ptr n : Z) (m : t) : option t :=
  if ptr =? 0 then Some m else snd <$> lock_range ptr (wrap 64 (width * n)) m.

Definition deallocate (width ptr n : Z) (mem : memory) (m : t) : option (memory * t) :=
  if ptr =? 0 then Some (mem, m)
  else
    let size := wrap 64 (width * n) in
    let mem := memory_cleanse ptr size mem in
    match unlock_range ptr size m with Some (_, m) => Some (mem, m) | None => None end.

End secure_allocator.
End secure_allocator.

(** ** Pages of a range *)

Lemma is_pow2 z : 0 < z -> Z.land z (z - 1) = 0 -> exists k, 0 <= k /\ z = 2 ^ k.
Proof.
  intros Hz Hl. exists (Z.log2 z). split; [apply Z.log2_nonneg|].
  destruct (Z.log2_spec z Hz) as [H1 H2]. destruct (decide (z = 2 ^ Z.log2 z)) as [|Hn]; [done|]. exfalso.
  assert (Hb : Z.testbit (Z.land z (z - 1)) (Z.log2 z) = true).
  { rewrite Z.land_spec, Z.bit_log2 by done. cbn. assert (Z.log2 (z - 1) = Z.log2 z) as <-.
    { apply Z.log2_unique; [apply Z.log2_nonneg | lia]. }
    apply Z.bit_log2. assert (0 < 2 ^ Z.log2 z) by (apply Z.pow_pos_nonneg; [lia | apply Z.log2_nonneg]). lia. }
  by rewrite Hl, Z.bits_0 in Hb.
Qed.

Lemma land_page_mask k a : 0 <= k < 64 -> 0 <= a < 2 ^ 64 -> Z.land a (wrap 64 (Z.lnot (2 ^ k - 1))) = a - a mod 2 ^ k.
Proof.
  intros Hk Ha. unfold wrap. rewrite <- Z.land_ones, Z.land_assoc by lia.
  replace (2 ^ k - 1) with (Z.ones k) by (rewrite Z.ones_equiv; lia).
  rewrite <- Z.ldiff_land, Z.land_ones, Z.ldiff_ones_r, Z.shiftl_mul_pow2, Z.shiftr_div_pow2 by lia.
  pose proof (Z.pow_pos_nonneg 2 k ltac:(lia) ltac:(lia)). pose proof (Z.div_mod a (2 ^ k) ltac:(lia)).
  pose proof (Z.mod_pos_bound a (2 ^ k) ltac:(lia)). pose proof (Z.div_pos a (2 ^ k) ltac:(lia) ltac:(lia)).
  rewrite Z.mod_small; [lia|]. split; [nia|lia].
Qed.

(** [n] pages from [start] on. *)
Fixpoint pages (ps : Z) (n : nat) (start : Z) : list Z :=
  match n with
  | O => []
  | S n => start :: pages ps n (start + ps)
  end.

Lemma elem_of_pages ps n start p : 0 < ps ->
  p ∈ pages ps n start <-> exists i, 0 <= i < Z.of_nat n /\ p = start + i * ps.
Proof.
  intros Hp. revert start. induction n as [|n IH]; intros start; cbn [pages].
  - rewrite elem_of_nil. split; [done|]. intros (i & ? & _). lia.
  - rewrite elem_of_cons, IH. split.
    + intros [-> | (i & Hi & ->)]; [exists 0; lia|]. exists (i + 1). lia.
    + intros (i & Hi & ->). destruct (decide (i = 0)) as [-> | Hn]; [left; lia|]. right. exists (i - 1). lia.
Qed.

Lemma NoDup_pages ps n start : 0 < ps -> NoDup (pages ps n start).
Proof.
  intros Hp. revert start. induction n as [|n IH]; intros start; constructor; [|apply IH].
  rewrite elem_of_pages by done. intros (i & Hi & Hq). nia.
Qed.
