(* ===== verification/MemoryFacts.v ===== *)
(** * MemoryFacts: the manager of locked pages

    Over any history of calls the pages recorded as locked are the pages that the
    operating system has locked; while no call fails, a page is locked exactly
    while a live range touches it.  A lock that fails half way breaks this, since
    the allocator ignores it. *)
From stdpp Require Import sorting.
From S2P Require Import Prelude Memory.

Module MemoryFacts.
Import LockedPagesManager secure_allocator.

Section MemoryFacts.
Context {L : Type} (held : L -> gset Z) `{LockerLaws L held}.
Implicit Types m : t (L := L).

(** ** Loops over pages *)

Fixpoint over (body : Z -> t -> outcome bool * t) (l : list Z) (m : t) : outcome bool * t (L := L) :=
  match l with
  | [] => (Success true, m)
  | p :: l => match body p m with (Success true, m) => over body l m | r => r end
  end.

Lemma page_loop_over body ps n fuel start m : 0 < ps -> 0 <= start -> start + Z.of_nat n * ps < 2 ^ 64 ->
  (n < fuel)%nat ->
  page_loop body ps fuel start (start + (Z.of_nat n - 1) * ps) m = Some (over body (pages ps n start) m).
Proof.
  intros Hp. revert fuel start m. induction n as [|n IH]; intros [|fuel] start m Hs Hb Hf; try lia; cbn [page_loop pages over].
  - rewrite (proj2 (Z.leb_gt _ _)) by lia. done.
  - rewrite (proj2 (Z.leb_le _ _)) by nia. destruct (body start m) as [[[]| |] m']; [|done..].
    unfold wrap. rewrite Z.mod_small by nia.
    replace (start + (Z.of_nat (S n) - 1) * ps) with (start + ps + (Z.of_nat n - 1) * ps) by lia.
    apply IH; lia.
Qed.

Definition good_size (ps : Z) : Prop := exists k, 0 <= k < 64 /\ ps = 2 ^ k.

(** The pages that a range touches. *)
Definition range_pages (ps a s : Z) : list Z :=
  pages ps (Z.to_nat ((a + s - 1) / ps - a / ps + 1)) (a - a mod ps).

(** A range that does not reach the last page of the address space. *)
Definition in_space (ps a s : Z) : Prop := 0 < a /\ 0 < s /\ a + s + ps <= 2 ^ 64.

Lemma good_size_pos ps : good_size ps -> 0 < ps.
Proof. intros (k & Hk & ->). apply Z.pow_pos_nonneg; lia. Qed.

Lemma for_pages_over body a s m : good_size (page_size_ m) -> in_space (page_size_ m) a s ->
  for_pages body a s m = Some (over body (range_pages (page_size_ m) a s) m).
Proof.
  intros Hg (Ha & Hs & Hb). pose proof (good_size_pos _ Hg) as Hp. destruct Hg as (k & Hk & Hps).
  unfold for_pages, get_range_boundaries, page_mask_, range_pages. set (ps := page_size_ m) in *.
  rewrite !(proj2 (Z.eqb_neq _ _)) by lia. cbn [orb].
  assert (Hw : wrap 64 (a + s - 1) = a + s - 1) by (apply Z.mod_small; lia).
  rewrite Hw, Hps, !land_page_mask by lia. rewrite <- Hps.
  pose proof (Z.div_mod a ps ltac:(lia)) as Ea. pose proof (Z.div_mod (a + s - 1) ps ltac:(lia)) as Eb.
  pose proof (Z.mod_pos_bound a ps Hp). pose proof (Z.mod_pos_bound (a + s - 1) ps Hp).
  assert (Hd : a / ps <= (a + s - 1) / ps) by (apply Z.div_le_mono; lia).
  set (qa := a / ps) in *. set (qb := (a + s - 1) / ps) in *.
  replace (a + s - 1 - (a + s - 1) mod ps) with (ps * qb) by lia. replace (a - a mod ps) with (ps * qa) by lia.
  replace ((ps * qb - ps * qa) / ps) with (qb - qa) by (rewrite <- Z.mul_sub_distr_l, Z.mul_comm, Z.div_mul; lia).
  rewrite <- (page_loop_over body ps (Z.to_nat (qb - qa + 1)) (Z.to_nat (qb - qa + 2))); rewrite ?Z2Nat.id by lia;
    [f_equal; lia | lia | | lia | lia].
  assert (0 <= qa) by (apply Z.div_pos; lia). nia.
Qed.

Lemma elem_of_range_pages ps a s p : 0 < ps -> 0 < a -> 0 < s -> p ∈ range_pages ps a s <->
  p mod ps = 0 /\ a < p + ps /\ p < a + s.
Proof.
  intros Hp Ha Hs. unfold range_pages. rewrite elem_of_pages by done.
  pose proof (Z.div_mod a ps ltac:(lia)) as Ea. pose proof (Z.div_mod (a + s - 1) ps ltac:(lia)) as Eb.
  pose proof (Z.mod_pos_bound a ps Hp). pose proof (Z.mod_pos_bound (a + s - 1) ps Hp).
  assert (Hd : a / ps <= (a + s - 1) / ps) by (apply Z.div_le_mono; lia).
  rewrite Z2Nat.id by lia. set (qa := a / ps) in *. set (qb := (a + s - 1) / ps) in *.
  split.
  - intros (i & Hi & ->). replace (a - a mod ps + i * ps) with ((qa + i) * ps) by lia.
    rewrite Z.mod_mul by lia. split_and!; [done | nia | nia].
  - intros (Hm & Hl & Hr). apply Z.div_exact in Hm; [|lia]. exists (p / ps - qa). split; [nia | lia].
Qed.

(** ** What is recorded is what is locked *)

Record wf (m : t) : Prop := {
  wf_size : good_size (page_size_ m);
  wf_held : held (locker_ m) = dom (locked_pages_ m);
  wf_pos : forall p n, locked_pages_ m !! p = Some n -> 0 < n;
}.

Lemma wf_make ps l m : held l = ∅ -> make ps l = Success m -> wf m /\ locked_pages_ m = ∅ /\ page_size_ m = ps.
Proof.
  intros Hl. unfold make. destruct (negb _) eqn:E1; [done|]. destruct (negb (Z.land _ _ =? 0)) eqn:E2; [done|].
  intros [= <-]. prop_bools. split; [split; cbn|done].
  - destruct (is_pow2 ps) as (k & Hk & ->); [lia | done|]. exists k. split; [|done]. split; [done|].
    destruct (Z.lt_ge_cases k 64) as [|Hn]; [done|]. pose proof (Z.pow_le_mono_r 2 64 k ltac:(lia) Hn). lia.
  - by rewrite Hl, dom_empty_L.
  - intros p n. by rewrite lookup_empty.
Qed.

Lemma wf_insert m p n : wf m -> p ∈ dom (locked_pages_ m) -> 0 < n ->
  wf (mk (locker_ m) (page_size_ m) (<[p := n]> (locked_pages_ m))).
Proof.
  intros [Hg Hh Hk] Hp Hn. split; cbn; [done | rewrite dom_insert_L, Hh; set_solver|].
  intros q k. rewrite lookup_insert. case_decide; [by intros [= <-] | apply Hk].
Qed.

Lemma wf_lock_page p m : wf m -> wf (lock_page p m).2 /\ exists b, (lock_page p m).1 = Success b.
Proof.
  intros Hw. unfold lock_page. destruct (locked_pages_ m !! p) as [n|] eqn:E.
  - split; [|eauto]. apply wf_insert; [done | by apply elem_of_dom_2 in E |]. apply (wf_pos _ Hw) in E. lia.
  - pose proof (lock_held (locker_ m) p (page_size_ m)) as Hl. destruct (lock _ _ _) as [ok l]. cbn in *.
    split; [|eauto]. destruct Hw as [Hg Hh Hk]. split; cbn; [done| |].
    + rewrite Hl, Hh. destruct ok; [by rewrite dom_insert_L | done].
    + intros q n. destruct ok; [|apply Hk]. rewrite lookup_insert. case_decide; [by intros [= <-] | apply Hk].
Qed.

Lemma wf_unlock_page p m : wf m -> wf (unlock_page p m).2 /\ exists b, (unlock_page p m).1 = Success b.
Proof.
  intros Hw. unfold unlock_page. destruct (locked_pages_ m !! p) as [n|] eqn:E; [|eauto].
  pose proof (wf_pos _ Hw _ _ E) as Hn. rewrite (proj2 (Z.ltb_lt _ _)) by done. cbn [negb]. case_cmp.
  - pose proof (unlock_held (locker_ m) p (page_size_ m)) as Hl. destruct (unlock _ _ _) as [ok l]. cbn in *.
    split; [|eauto]. destruct Hw as [Hg Hh Hk]. split; cbn; [done| |].
    + rewrite Hl, Hh. destruct ok; [by rewrite dom_delete_L | done].
    + intros q k. destruct ok; [|apply Hk]. rewrite lookup_delete. case_decide; [done | apply Hk].
  - split; [|eauto]. apply wf_insert; [done | by apply elem_of_dom_2 in E | lia].
Qed.

Lemma wf_for_pages body a s m r m' :
  (forall p m, wf m -> wf (body p m).2 /\ exists b, (body p m).1 = Success b) ->
  wf m -> for_pages body a s m = Some (r, m') -> wf m' /\ exists b, r = Success b.
Proof.
  intros Hb Hw. unfold for_pages. destruct (_ || _); [intros [= <- <-]; eauto|].
  destruct (get_range_boundaries a s m) as [start last]. generalize (Z.to_nat ((last - start) / page_size_ m + 2)).
  generalize (page_size_ m). intros ps fuel. revert start m Hw.
  induction fuel as [|fuel IH]; intros start m Hw; cbn [page_loop]; [done|].
  destruct (start <=? last); [|intros [= <- <-]; eauto].
  destruct (Hb start m Hw) as [Hw' (b & Hs)]. destruct (body start m) as [r1 m1]. cbn in *. subst r1.
  destruct b; [by apply IH | intros [= <- <-]; eauto].
Qed.

Lemma wf_clear m : wf m -> wf (clear m).
Proof.
  unfold clear. generalize (merge_sort Z.le (elements (dom (locked_pages_ m)))). intros l. revert m.
  induction l as [|p l IH]; intros m Hw; [done|]. cbn [foldl]. apply IH. unfold clear_page.
  pose proof (unlock_held (locker_ m) p (page_size_ m)) as Hl. destruct (unlock _ _ _) as [ok l']. cbn in *.
  destruct Hw as [Hg Hh Hk]. split; cbn; [done | |].
  - rewrite Hl, Hh. destruct ok; [by rewrite dom_delete_L | done].
  - intros q k. destruct ok; [|apply Hk]. rewrite lookup_delete. case_decide; [done | apply Hk].
Qed.

(** A call of the manager. *)
Inductive step : t -> t -> Prop :=
| step_lock a s r m m' : lock_range a s m = Some (r, m') -> step m m'
| step_unlock a s r m m' : unlock_range a s m = Some (r, m') -> step m m'
| step_clear m : step m (clear m).

Lemma wf_step m m' : step m m' -> wf m -> wf m'.
Proof.
  intros [a s r m1 m2 E | a s r m1 m2 E | m1] Hw; [| |by apply wf_clear].
  - by destruct (wf_for_pages _ _ _ _ _ _ wf_lock_page Hw E).
  - by destruct (wf_for_pages _ _ _ _ _ _ wf_unlock_page Hw E).
Qed.

Lemma wf_steps m m' : rtc step m m' -> wf m -> wf m'.
Proof. induction 1; eauto using wf_step. Qed.

(** ** Counting *)

Definition cnt (m : t (L := L)) (p : Z) : Z := default 0 (locked_pages_ m !! p).

(** A body that changes the count of its page by [d], and not below zero. *)
Definition counts (body : Z -> t -> outcome bool * t) (d : Z) : Prop := forall p m m', wf m ->
  body p m = (Success true, m') ->
  wf m' /\ page_size_ m' = page_size_ m /\
  forall q, cnt m' q = Z.max 0 (cnt m q + if decide (q = p) then d else 0).

Lemma cnt_nonneg m q : wf m -> 0 <= cnt m q.
Proof.
  intros Hw. unfold cnt. destruct (locked_pages_ m !! q) as [n|] eqn:E; cbn; [|lia]. apply (wf_pos _ Hw) in E. lia.
Qed.

Lemma counts_lock : counts lock_page 1.
Proof.
  intros p m m' Hw Hs. destruct (wf_lock_page p m Hw) as [Hw' _]. rewrite Hs in Hw'. split; [done|].
  pose proof (λ q, cnt_nonneg m q Hw) as Hc. unfold cnt, lock_page in *. destruct (locked_pages_ m !! p) as [n|] eqn:E.
  - injection Hs as <-. split; [done|]. intros q. cbn. specialize (Hc q). rewrite lookup_insert.
    destruct (decide (q = p)) as [-> | Hn]; [rewrite decide_True by done; rewrite E in *; cbn in *; lia|].
    rewrite decide_False by done. cbn in *. lia.
  - destruct (lock _ _ _) as [ok l]. injection Hs as -> <-. split; [done|]. intros q. cbn. specialize (Hc q).
    rewrite lookup_insert. destruct (decide (q = p)) as [-> | Hn]; [by rewrite decide_True, E|].
    rewrite decide_False by done. cbn in *. lia.
Qed.

Lemma counts_unlock : counts unlock_page (-1).
Proof.
  intros p m m' Hw Hs. destruct (wf_unlock_page p m Hw) as [Hw' _]. rewrite Hs in Hw'. split; [done|].
  pose proof (λ q, cnt_nonneg m q Hw) as Hc. unfold cnt, unlock_page in *.
  destruct (locked_pages_ m !! p) as [n|] eqn:E.
  - pose proof (wf_pos _ Hw _ _ E) as Hn. rewrite (proj2 (Z.ltb_lt _ _)) in Hs by done. cbn [negb] in Hs.
    case_cmp_in Hs.
    + destruct (unlock _ _ _) as [ok l]. injection Hs as -> <-. split; [done|]. intros q. cbn. specialize (Hc q).
      rewrite lookup_delete. destruct (decide (q = p)) as [-> | Hq]; [rewrite decide_True, E by done; cbn; lia|].
      rewrite decide_False by done. cbn in *. lia.
    + injection Hs as <-. split; [done|]. intros q. cbn. specialize (Hc q). rewrite lookup_insert.
      destruct (decide (q = p)) as [-> | Hq]; [rewrite decide_True, E by done; cbn; lia|].
      rewrite decide_False by done. cbn in *. lia.
  - injection Hs as <-. split; [done|]. intros q. specialize (Hc q).
    destruct (decide (q = p)) as [-> | Hq]; [by rewrite E|]. lia.
Qed.

Lemma counts_over body d l m m' : counts body d -> NoDup l -> wf m -> over body l m = (Success true, m') ->
  wf m' /\ page_size_ m' = page_size_ m /\ forall q, cnt m' q = Z.max 0 (cnt m q + if decide (q ∈ l) then d else 0).
Proof.
  intros Hb Hl. revert m. induction Hl as [|p l Hp Hl IH]; intros m Hw; cbn [over].
  { intros [= <-]. split_and!; [done..|]. intros q. pose proof (cnt_nonneg m q Hw). rewrite decide_False by set_solver. lia. }
  destruct (body p m) as [[[]| |] m1] eqn:E; try done. destruct (Hb _ _ _ Hw E) as (Hw1 & Hp1 & Hc1).
  intros Hr. destruct (IH m1 Hw1 Hr) as (Hw2 & Hp2 & Hc2). split_and!; [done | congruence|].
  intros q. pose proof (cnt_nonneg m q Hw). rewrite Hc2, Hc1. destruct (decide (q = p)) as [-> | Hn].
  - rewrite (decide_False (P := p ∈ l)), decide_True by set_solver. lia.
  - destruct (decide (q ∈ l)); [rewrite decide_True by set_solver | rewrite decide_False by set_solver]; lia.
Qed.

(** The page at [p] has an octet of the range [r]. *)
Definition touches (ps p : Z) (r : Z * Z) : Prop := p mod ps = 0 /\ r.1 < p + ps /\ p < r.1 + r.2.

#[global] Instance touches_dec ps p r : Decision (touches ps p r).
Proof. unfold touches. apply _. Defined.

Definition users (ps p : Z) (live : list (Z * Z)) : Z := zlen (filter (touches ps p) live).

(** A client that locks ranges and unlocks what it has locked, while no call fails. *)
Inductive use : t * list (Z * Z) -> t * list (Z * Z) -> Prop :=
| use_lock a s m m' live : in_space (page_size_ m) a s ->
    lock_range a s m = Some (Success true, m') -> use (m, live) (m', (a, s) :: live)
| use_unlock a s m m' l1 l2 :
    unlock_range a s m = Some (Success true, m') -> use (m, l1 ++ (a, s) :: l2) (m', l1 ++ l2).

Record counted (m : t) (live : list (Z * Z)) : Prop := {
  ct_wf : wf m;
  ct_space : Forall (λ r, in_space (page_size_ m) r.1 r.2) live;
  ct_cnt : forall q, cnt m q = users (page_size_ m) q live;
}.

Lemma users_cons ps p a s live : 0 < ps -> in_space ps a s ->
  users ps p ((a, s) :: live) = (if decide (p ∈ range_pages ps a s) then 1 else 0) + users ps p live.
Proof.
  intros Hp (Ha & Hs & _). unfold users. rewrite filter_cons. pose proof (elem_of_range_pages ps a s p Hp Ha Hs) as He.
  destruct (decide (touches ps p (a, s))) as [Ht|Ht].
  - rewrite decide_True by (by apply He). rewrite zlen_cons. lia.
  - rewrite decide_False; [done|]. by rewrite He.
Qed.

Lemma users_middle ps p a s l1 l2 : users ps p (l1 ++ (a, s) :: l2) = users ps p ((a, s) :: l1 ++ l2).
Proof.
  unfold users. rewrite !filter_app, !filter_cons. case_decide; rewrite ?filter_app, ?length_app; cbn; rewrite ?length_app; lia.
Qed.

Lemma counted_use st st' : use st st' -> counted st.1 st.2 -> counted st'.1 st'.2 /\ page_size_ st'.1 = page_size_ st.1.
Proof.
  intros [a s m m' live Hi Hr | a s m m' l1 l2 Hr] [Hw Hf Hc]; cbn in *.
  - unfold lock_range in Hr. rewrite for_pages_over in Hr by (by destruct Hw). injection Hr as Hr.
    pose proof (good_size_pos _ (wf_size _ Hw)) as Hp.
    destruct (counts_over _ _ _ _ _ counts_lock (NoDup_pages _ _ _ Hp) Hw Hr) as (Hw' & Hs & Hq).
    split; [|done]. split; [done | rewrite Hs; by constructor|]. intros q. rewrite Hq, Hs, users_cons, <- Hc by done.
    pose proof (cnt_nonneg m q Hw). change (pages _ _ _) with (range_pages (page_size_ m) a s). case_decide; lia.
  - apply Forall_app in Hf as [Hf1 Hf2]. apply Forall_cons in Hf2 as [Hi Hf2]. cbn in Hi.
    unfold unlock_range in Hr. rewrite for_pages_over in Hr by (by destruct Hw). injection Hr as Hr.
    pose proof (good_size_pos _ (wf_size _ Hw)) as Hp.
    destruct (counts_over _ _ _ _ _ counts_unlock (NoDup_pages _ _ _ Hp) Hw Hr) as (Hw' & Hs & Hq).
    split; [|done]. split; [done | rewrite Hs; by apply Forall_app|]. intros q.
    rewrite Hq, Hs, Hc, users_middle, users_cons by done. change (pages _ _ _) with (range_pages (page_size_ m) a s).
    unfold users. case_decide; lia.
Qed.

Lemma counted_uses st st' : rtc use st st' -> counted st.1 st.2 -> counted st'.1 st'.2 /\ page_size_ st'.1 = page_size_ st.1.
Proof.
  induction 1 as [|x y z Hs _ IH]; [done|]. intros Hc. destruct (counted_use _ _ Hs Hc) as [Hy Hp].
  destruct (IH Hy) as [Hz Hq]. split; [done | congruence].
Qed.

Lemma counted_history ps l m0 m live : held l = ∅ -> make ps l = Success m0 -> rtc use (m0, []) (m, live) ->
  counted m live /\ page_size_ m = ps.
Proof.
  intros Hl Hm Hr. destruct (wf_make ps l m0 Hl Hm) as (Hw & He & Hp).
  destruct (counted_uses _ _ Hr) as [Hc Hs]; [|split; [done | cbn in *; congruence]].
  split; cbn; [done | by constructor | intros q; unfold cnt; by rewrite He].
Qed.

Lemma counted_lookup m live p : counted m live ->
  locked_pages_ m !! p = if decide (users (page_size_ m) p live = 0) then None else Some (users (page_size_ m) p live).
Proof.
  intros [Hw _ Hc]. rewrite <- Hc. unfold cnt. destruct (locked_pages_ m !! p) as [n|] eqn:E; cbn; [|done].
  apply (wf_pos _ Hw) in E. rewrite decide_False by lia. done.
Qed.

Lemma range_pages_two ps a x : 0 < ps -> a mod ps = 0 -> 0 < x <= ps -> range_pages ps a (ps + x) = [a; a + ps].
Proof.
  intros Hp Hm Hx. unfold range_pages. rewrite Hm, Z.sub_0_r. apply Z.div_exact in Hm; [|lia].
  replace (a + (ps + x) - 1) with ((x - 1) + (a / ps + 1) * ps) by lia. rewrite Z.div_add, Z.div_small by lia.
  replace (Z.to_nat (0 + (a / ps + 1) - a / ps + 1)) with 2%nat by lia. done.
Qed.

(** ** Properties *)

(** Whatever sequence of calls, locks that the system refuses included, the pages
    that the manager has recorded are those the operating system has locked, with
    positive counts; no assertion fails; and calls return for every range that does
    not reach the last page of the address space. *)
Theorem pages_held ps l m0 m : held l = ∅ -> make ps l = Success m0 -> rtc step m0 m ->
  held (locker_ m) = dom (locked_pages_ m) /\ (forall p n, locked_pages_ m !! p = Some n -> 0 < n) /\
  (forall a s r m', lock_range a s m = Some (r, m') \/ unlock_range a s m = Some (r, m') -> exists b, r = Success b) /\
  (forall a s, in_space (page_size_ m) a s -> is_Some (lock_range a s m) /\ is_Some (unlock_range a s m)).
Proof.
  intros Hl Hm Hr. destruct (wf_make ps l m0 Hl Hm) as [Hw _]. apply (wf_steps _ _ Hr) in Hw.
  split_and!; [by destruct Hw.. | |].
  - intros a s r m' [E|E]; [exact (proj2 (wf_for_pages _ _ _ _ _ _ wf_lock_page Hw E))|].
    exact (proj2 (wf_for_pages _ _ _ _ _ _ wf_unlock_page Hw E)).
  - intros a s Hi. unfold lock_range, unlock_range. rewrite !for_pages_over by (by destruct Hw). eauto.
Qed.

(** C29: While no call fails, a page is recorded with the number of live ranges that
    touch it, and it is locked, and [contains] says so, exactly while there is one. *)
Theorem pages_counted ps l m0 m live : held l = ∅ -> make ps l = Success m0 -> rtc use (m0, []) (m, live) ->
  (forall p, locked_pages_ m !! p = if decide (users ps p live = 0) then None else Some (users ps p live)) /\
  (forall p, p ∈ held (locker_ m) <-> Exists (touches ps p) live) /\
  (forall x, 0 <= x < 2 ^ 64 -> contains x m = true <-> Exists (touches ps (x - x mod ps)) live).
Proof.
  intros Hl Hm Hr. destruct (counted_history _ _ _ _ _ Hl Hm Hr) as [Hc Hs].
  assert (Hk : forall p, locked_pages_ m !! p = if decide (users ps p live = 0) then None else Some (users ps p live)).
  { intros p. rewrite <- Hs. by apply counted_lookup. }
  assert (Hx : forall p, is_Some (locked_pages_ m !! p) <-> Exists (touches ps p) live).
  { intros p. rewrite Hk, Exists_exists. unfold users.
    pose proof (list_elem_of_filter (touches ps p) live) as Hf. destruct (filter (touches ps p) live) as [|r k].
    - cbn. split; [by intros []|]. intros (y & Hy & Ht). by destruct (proj1 (elem_of_nil y) (proj2 (Hf y) (conj Ht Hy))).
    - rewrite decide_False by (cbn; lia). split; [|by eauto]. intros _. exists r.
      by destruct (proj1 (Hf r) ltac:(left)). }
  split_and!; [done | |].
  - intros p. rewrite (wf_held _ (ct_wf _ _ Hc)), elem_of_dom. apply Hx.
  - intros x Hb. unfold contains, page_mask_. destruct (wf_size _ (ct_wf _ _ Hc)) as (k & Hk2 & E).
    rewrite E, land_page_mask, <- E, Hs by done. rewrite bool_decide_eq_true. apply Hx.
Qed.

(** C31: The allocator ignores a lock that fails half way, and unlocks the whole range
    later: when the first page of a buffer is refused, freeing the buffer unlocks the
    page where it ends, though another live range is there. *)
Theorem secret_unlocked ps l m0 m live a x mem : held l = ∅ -> make ps l = Success m0 ->
  rtc use (m0, []) (m, live) -> in_space ps a (ps + x) -> a mod ps = 0 -> 0 < x <= ps ->
  users ps a live = 0 -> users ps (a + ps) live = 1 ->
  (lock (locker_ m) a ps).1 = false -> (forall k, (unlock k (a + ps) ps).1 = true) ->
  exists m1 m2, allocate 1 a (ps + x) m = Some m1 /\
    deallocate 1 a (ps + x) mem m1 = Some (memory_cleanse a (ps + x) mem, m2) /\
    a + ps ∈ held (locker_ m1) /\ ~ a + ps ∈ held (locker_ m2).
Proof.
  intros Hl Hm Hr Hi Ha Hx H0' H1' Hk Hu. destruct (counted_history _ _ _ _ _ Hl Hm Hr) as [Hc Hs]. pose proof (good_size_pos _ (wf_size _ (ct_wf _ _ Hc))) as Hpos.
  pose proof (counted_lookup m live a Hc) as La. pose proof (counted_lookup m live (a + ps) Hc) as Lb.
  rewrite Hs in La, Lb, Hpos. rewrite H0' in La. rewrite H1' in Lb.
  rewrite decide_True in La by done. rewrite decide_False in Lb by lia.
  assert (Hn : wrap 64 (1 * (ps + x)) = ps + x) by (unfold wrap; rewrite Z.mod_small; destruct Hi; lia).
  pose proof (lock_held (locker_ m) a ps) as Hlk. rewrite Hk in Hlk.
  assert (El : over lock_page [a; a + ps] m = (Success false, mk (lock (locker_ m) a ps).2 ps (locked_pages_ m))).
  { cbn. unfold lock_page. rewrite La, Hs. destruct (lock _ _ _) as [ok l']. cbn in *. by subst ok. }
  assert (Eu : over unlock_page [a; a + ps] (mk (lock (locker_ m) a ps).2 ps (locked_pages_ m)) =
    (Success true, mk (unlock (lock (locker_ m) a ps).2 (a + ps) ps).2 ps (delete (a + ps) (locked_pages_ m)))).
  { unfold unlock_page. cbn [over locked_pages_ locker_ page_size_]. rewrite La. cbn [locked_pages_ locker_ page_size_].
    rewrite Lb. change (negb (0 <? 1)) with false. change (1 - 1 =? 0) with true. cbv iota.
    specialize (Hu (lock (locker_ m) a ps).2). destruct (unlock _ _ _) as [ok l']. cbn in *. by subst ok. }
  destruct (ct_wf _ _ Hc) as [Hg Hh _]. rewrite Hs in Hg.
  exists (mk (lock (locker_ m) a ps).2 ps (locked_pages_ m)).
  exists (mk (unlock (lock (locker_ m) a ps).2 (a + ps) ps).2 ps (delete (a + ps) (locked_pages_ m))).
  unfold allocate, deallocate, lock_range, unlock_range.
  rewrite (proj2 (Z.eqb_neq a 0)) by (destruct Hi; lia). rewrite Hn. split_and!.
  - rewrite for_pages_over by (by rewrite Hs). rewrite Hs, range_pages_two, El by done. done.
  - rewrite for_pages_over by done. cbn [page_size_]. rewrite range_pages_two, Eu by done. done.
  - cbn. rewrite Hlk, Hh, elem_of_dom, Lb. done.
  - cbn. rewrite unlock_held, Hu, Hlk. set_solver.
Qed.

End MemoryFacts.

(** ** A locker for examples: pages below [n] are refused. *)
Record os := mk_os { held_ : gset Z; refused : Z }.
#[local] Instance os_locker : Locker os := {
  lock k p _ := if p <? refused k then (false, k) else (true, mk_os ({[p]} ∪ held_ k) (refused k));
  unlock k p _ := (true, mk_os (held_ k ∖ {[p]}) (refused k));
}.
#[local] Instance os_laws : LockerLaws os held_.
Proof. split; intros k p n; cbn; [by destruct (p <? refused k) | done]. Qed.

Definition m_start : t := mk (mk_os ∅ 8192) 4096 ∅.

(** Two buffers of 40 octets on one page, of which the first is freed. *)
Lemma pages_counted_witness : exists m' : t, rtc use (m_start, []) (m', [(8300, 40)]) /\ contains 8192 m' = true.
Proof.
  assert (Hu : exists m', rtc use (m_start, []) (m', [(8300, 40)])).
  { eexists. eapply rtc_l; [apply (use_lock 8200 40); [vm_compute; split_and!; done | vm_compute; reflexivity]|].
    eapply rtc_l; [apply (use_lock 8300 40); [vm_compute; split_and!; done | vm_compute; reflexivity]|].
    eapply rtc_once. apply (use_unlock 8200 40 _ _ [(8300, 40)] []). vm_compute. reflexivity. }
  destruct Hu as [m' Hu]. exists m'. split; [done|].
  apply (proj2 (proj2 (pages_counted held_ 4096 (mk_os ∅ 8192) m_start m' _ eq_refl eq_refl Hu))); [lia|].
  constructor. vm_compute. split_and!; done.
Defined.

(** A secret of 16 octets at 8208, and a buffer that starts one page before. *)
Lemma secret_unlocked_witness : exists m m1 m2 : t, rtc use (m_start, []) (m, [(8208, 16)]) /\
  allocate 1 4096 (4096 + 16) m = Some m1 /\ 8192 ∈ held_ (locker_ m1) /\ ~ 8192 ∈ held_ (locker_ m2).
Proof.
  assert (Hu : exists m', lock_range 8208 16 m_start = Some (Success true, m') /\ (lock (locker_ m') 4096 4096).1 = false)
    by (exists (default m_start (snd <$> lock_range 8208 16 m_start)); split; vm_compute; reflexivity).
  destruct Hu as (m & Hm & Hk).
  assert (Hr : rtc use (m_start, []) (m, [(8208, 16)])).
  { apply rtc_once. apply use_lock; [vm_compute; split_and!; done | done]. }
  destruct (secret_unlocked held_ 4096 (mk_os ∅ 8192) m_start m [(8208, 16)] 4096 16 ∅ eq_refl eq_refl Hr)
    as (m1 & m2 & Ha & _ & H1 & H2); [vm_compute; split_and!; done | reflexivity | lia |
      vm_compute; reflexivity | vm_compute; reflexivity | exact Hk | intros k; reflexivity|].
  exists m, m1, m2. repeat split; assumption.
Defined.

End MemoryFacts.
