(* ===== verification/Params.v ===== *)
(** * Params: the files of the zero knowledge proofs

    [node/zk/params.cpp] and [params.hpp]: the files that must be in the data
    directory, the check of their sizes and checksums, and their download.  The
    directory is a map from names to entries; what the system, the user and the
    server answer are arguments. *)
From S2P Require Import Prelude Hex Containers Digest.

Record ParamFile := mk_param {
  file_name : Bytes;
  expected_checksum : Bytes;
  expected_size : Z;
}.

Definition kSproutProvingKey : ParamFile :=
  mk_param (str "sprout-proving.key") (str "8bc20a7f013b2b58970cddd2e7ea028975c88ae7ceb9259a5344a16bc2c0eef7") 910173851.
Definition kSproutVerifyingKey : ParamFile :=
  mk_param (str "sprout-verifying.key") (str "4bd498dae0aacfd8e98dc306338d017d9c08dd0918ead18172bd0aec2fc5df82") 1449.
Definition kSproutGroth16Params : ParamFile :=
  mk_param (str "sprout-groth16.params") (str "b685d700c60328498fbde589c8c7c484c722b788b265b72af448a5bf0ee55b50") 725523612.
Definition kSaplingOutputParams : ParamFile :=
  mk_param (str "sapling-output.params") (str "2f0ebbcbb9bb0bcffe95a397e7eba89c29eb4dde6191c339db88570e3f3fb0e4") 3592860.
Definition kSaplingSpendParams : ParamFile :=
  mk_param (str "sapling-spend.params") (str "8e48ffd23abb3a5fd9c5589204f32d9c31285a04b78096ba40a79b75677efc13") 47958396.
Definition kParamFiles : list ParamFile :=
  [kSproutProvingKey; kSproutVerifyingKey; kSaplingOutputParams; kSaplingSpendParams; kSproutGroth16Params].

Definition kTrustedDownloadHost : Bytes := str "downloads.horizen.io".
Definition kTrustedDownloadPath : Bytes := str "/file/TrustedSetup/".

Module Params.
Section Params.
Context `{Evp} (sha256_name : name).

Inductive entry := Regular (content : Bytes) | Special.

(** The directory, the answers of [signalled] to come, and the pool of contexts. *)
Record world := mk_world {
  files : gmap Bytes entry;
  signals : list bool;
  contexts : list ctx;
}.

(** What a connection to the server gives: whether its name is found, how far the
    connection gets, what is read from it, a
    buffer at a time, and whether reading ends with an error other than the end of
    the stream. *)
Record session := mk_session {
  resolved : bool;
  connected : bool;
  handshaken : bool;
  opened : bool;
  requested : bool;
  reads : list Bytes;
  truncated : bool;
}.

(** [os::Signals::signalled], [std::filesystem::remove], the user and the server. *)
Context (remove_result : Bytes -> outcome bool) (can_open : Bytes -> bool) (confirmed : bool)
  (server : Bytes -> session).

Definition signalled (w : world) : bool * world :=
  match signals w with
  | [] => (false, w)
  | s :: l => (s, mk_world (files w) l (contexts w))
  end.

Definition set_files (f : gmap Bytes entry) (w : world) : world := mk_world f (signals w) (contexts w).

(** [while (not file.eof())] with a buffer of 32 MiB: a read that does not fill it meets
    the end. *)
Fixpoint read_loop (fuel : nat) (buffer : Z) (rest : Bytes) (digest : MessageDigest.t) : option MessageDigest.t :=
  match fuel with
  | O => None
  | S fuel =>
      let chunk := ztake buffer rest in
      let digest := if zlen chunk =? 0 then digest else MessageDigest.update chunk digest in
      if zlen chunk <? buffer then Some digest else read_loop fuel buffer (zdrop buffer rest) digest
  end.

Definition get_file_sha256_checksum (file : Bytes) (w : world) : outcome (option Bytes) * world :=
  match files w !! file with
  | None => (Success None, w)
  | Some Special => (Failure (Thrown std_runtime_error), w)
  | Some (Regular content) =>
      if negb (can_open file) then (Success None, w)
      else
        let (digest, pool) := MessageDigest.make sha256_name (contexts w) in
        match read_loop (S (length content)) (32 * 2 ^ 20) content digest with
        | None => (Success None, w)
        | Some digest =>
            let (ret, digest) := MessageDigest.finalize false digest in
            (Success (Some ret), mk_world (files w) (signals w) (MessageDigest.destroy digest pool))
        end
  end.

Definition validate_file_checksum (file expected_checksum : Bytes) : op world bool :=
  actual_checksum <~ get_file_sha256_checksum file ;;
  match actual_checksum with
  | None => op_ret false
  | Some actual => op_ret (bool_decide (actual = expected_checksum))
  end.

(** [response.find("\r\n\r\n")] *)
Definition separator : Bytes := [13; 10; 13; 10].
Fixpoint find (pos : Z) (l : Bytes) : option Z :=
  match l with
  | [] => None
  | _ :: rest => if bool_decide (take 4 l = separator) then Some pos else find (pos + 1) rest
  end.

(** What is written to the file, read by read; a read of nothing ends the loop. *)
Fixpoint receive (headers_completed : bool) (reads : list Bytes) (written : Bytes) : Bytes :=
  match reads with
  | [] => written
  | data :: reads =>
      if bool_decide (data = []) then written
      else if negb headers_completed then
        match find 0 data with
        | Some pos => receive true reads (written ++ zdrop (pos + 4) data)
        | None => receive false reads written
        end
      else receive true reads (written ++ data)
  end.

Definition request (param_file : ParamFile) : Bytes :=
  let crlf := [13; 10] in
  str "GET " ++ kTrustedDownloadPath ++ file_name param_file ++ str " HTTP/1.1" ++ crlf ++
  str "Host: " ++ kTrustedDownloadHost ++ crlf ++ str "User-Agent: zen++" ++ crlf ++
  str "Accept: */*" ++ crlf ++ str "Connection: close" ++ crlf ++ crlf.

(** A name that is not found throws; the other errors are returned.  Opening the file
    for output empties it. *)
Definition download_param_file (param_file : ParamFile) (w : world) : outcome bool * world :=
  let s := server (request param_file) in
  if negb (resolved s) then (Failure (Thrown boost_system_error), w)
  else if negb (connected s) then (Success false, w)
  else if negb (handshaken s) then (Success false, w)
  else if negb (opened s) then (Success false, w)
  else if negb (requested s) then (Success false, set_files (<[file_name param_file := Regular []]> (files w)) w)
  else
    let w := set_files (<[file_name param_file := Regular (receive false (reads s) [])]> (files w)) w in
    (Success (negb (truncated s)), w).

(** What the first loop does with a file: go on, download it, or return. *)
Inductive verdict := Good | Errored | Stop.

Definition remove_errored (file : Bytes) (w : world) : outcome verdict * world :=
  match remove_result file with
  | Success true => (Success Errored, set_files (delete file (files w)) w)
  | Success false => (Success Stop, w)
  | Failure e => (Failure e, w)
  | Fault f => (Fault f, w)
  end.

Definition check_file (no_checksums : bool) (param_file : ParamFile) (w : world) : outcome verdict * world :=
  let (stop, w) := signalled w in
  if stop then (Success Stop, w)
  else
    match files w !! file_name param_file with
    | None => (Success Errored, w)
    | Some Special => (Success Stop, w)
    | Some (Regular content) =>
        if negb (zlen content =? expected_size param_file) then remove_errored (file_name param_file) w
        else if no_checksums then (Success Good, w)
        else
          match decode (expected_checksum param_file) with
          | Success expected =>
              (ok <~ validate_file_checksum (file_name param_file) expected ;;
               if negb ok then remove_errored (file_name param_file) else op_ret Good) w
          | _ => (Fault AssertionFailed, w)
          end
    end.

Fixpoint check_files (no_checksums : bool) (l errored : list ParamFile) : op world (option (list ParamFile)) :=
  match l with
  | [] => op_ret (Some errored)
  | p :: l =>
      v <~ check_file no_checksums p ;;
      match v with
      | Stop => op_ret None
      | Errored => check_files no_checksums l (errored ++ [p])
      | Good => check_files no_checksums l errored
      end
  end.

(** A turn of the second loop; [file_size] throws when there is no file. *)
Definition fetch_file (param_file : ParamFile) (w : world) : outcome bool * world :=
  let (stop, w) := signalled w in
  if stop then (Success false, w)
  else
    (ok <~ download_param_file param_file ;;
     if negb ok then op_ret false
     else fun w =>
       match files w !! file_name param_file with
       | Some (Regular content) =>
           if negb (zlen content =? expected_size param_file) then (Success false, w)
           else
             match decode (expected_checksum param_file) with
             | Success expected => validate_file_checksum (file_name param_file) expected w
             | _ => (Fault AssertionFailed, w)
             end
       | _ => (Failure (Thrown std_runtime_error), w)
       end) w.

Fixpoint fetch_files (l : list ParamFile) : op world bool :=
  match l with
  | [] => op_ret true
  | p :: l => ok <~ fetch_file p ;; if negb ok then op_ret false else fetch_files l
  end.

Definition validate_param_files (no_checksums : bool) : op world bool :=
  errored_param_files <~ check_files no_checksums kParamFiles [] ;;
  match errored_param_files with
  | None => op_ret false
  | Some [] => op_ret true
  | Some l => if negb confirmed then op_ret false else fetch_files l
  end.

End Params.
End Params.
