(* ===== verification/ParamsFacts.v ===== *)
(** * ParamsFacts: what the check of the parameters ensures

    A check that succeeds leaves every file in place, complete and with its checksum;
    files that were right are kept; and it succeeds when the files that are missing
    are served. *)
From S2P Require Import Prelude Hex Containers Digest Params.

Module ParamsFacts.
Import Params DigestFacts.

Section ParamsFacts.
Context `{EvpLaws} (sha256_name : name).
Context (remove_result : Bytes -> outcome bool) (can_open : Bytes -> bool) (confirmed : bool)
  (server : Bytes -> session).
Implicit Types w : world.

Abbreviation has := (DigestFacts.has (absorbed := absorbed)).
Abbreviation checksum := (validate_file_checksum sha256_name can_open).
Abbreviation check := (check_file sha256_name remove_result can_open).
Abbreviation checks := (check_files sha256_name remove_result can_open).
Abbreviation fetch := (fetch_file sha256_name can_open server).
Abbreviation fetches := (fetch_files sha256_name can_open server).
Abbreviation validate := (validate_param_files sha256_name remove_result can_open confirmed server).

(** ** Checksums *)

Lemma read_loop_all n buffer fuel rest x d : 0 < buffer -> has n x d -> (length rest < fuel)%nat ->
  exists d', read_loop fuel buffer rest d = Some d' /\ has n (x ++ rest) d'.
Proof.
  intros Hb. revert rest x d. induction fuel as [|fuel IH]; intros rest x d Hd Hf; [lia|]. cbn [read_loop].
  assert (Hu : has n (x ++ ztake buffer rest)
    (if zlen (ztake buffer rest) =? 0 then d else MessageDigest.update (ztake buffer rest) d)).
  { case_cmp; [|by apply has_update]. destruct (ztake buffer rest); [by rewrite app_nil_r | done]. }
  set (d1 := if zlen _ =? 0 then d else _) in *. clearbody d1. rewrite zlen_ztake by lia. case_cmp.
  - eexists. split; [done|]. by rewrite ztake_ge in Hu by lia.
  - destruct (IH (zdrop buffer rest) _ _ Hu) as (d' & Hr & Hd'); [unfold zdrop; rewrite length_drop; lia|].
    exists d'. split; [done|]. by rewrite <- app_assoc, ztake_zdrop in Hd'.
Qed.

(** The content is what is hashed, and checking it changes no file. *)
Lemma checksum_regular file c expected w : files w !! file = Some (Regular c) -> can_open file = true ->
  (checksum file expected w).1 = Success (bool_decide (hash sha256_name c = expected)).
Proof.
  intros Hf Ho. unfold validate_file_checksum, op_bind, get_file_sha256_checksum. rewrite Hf, Ho. cbn [negb].
  pose proof (has_make sha256_name (contexts w)) as Hm. destruct (MessageDigest.make _ _) as [d pool]. cbn in Hm.
  destruct (read_loop_all sha256_name (32 * 2 ^ 20) (S (length c)) c [] d ltac:(lia) Hm ltac:(lia)) as (d' & -> & Hd).
  destruct (has_finalize _ _ _ Hd) as [Hr _]. destruct (MessageDigest.finalize false d') as [ret d'']. cbn in Hr. by subst ret.
Qed.

Lemma checksum_files file expected w r w' : checksum file expected w = (r, w') ->
  files w' = files w /\ signals w' = signals w.
Proof.
  unfold validate_file_checksum, op_bind, get_file_sha256_checksum.
  destruct (files w !! file) as [[c|]|]; [|by intros [= <- <-]..]. destruct (negb _); [by intros [= <- <-]|].
  destruct (MessageDigest.make _ _) as [d pool]. destruct (read_loop _ _ _ _) as [d'|]; [|by intros [= <- <-]].
  destruct (MessageDigest.finalize false d') as [ret d'']. by intros [= <- <-].
Qed.

Lemma checksum_true file c expected w w' : files w !! file = Some (Regular c) ->
  checksum file expected w = (Success true, w') -> hash sha256_name c = expected.
Proof.
  intros Hf Hc. destruct (can_open file) eqn:Ho.
  - pose proof (checksum_regular file c expected w Hf Ho) as Hr. rewrite Hc in Hr. injection Hr as Hr.
    symmetry in Hr. by prop_bools.
  - unfold validate_file_checksum, op_bind, get_file_sha256_checksum in Hc. by rewrite Hf, Ho in Hc.
Qed.

(** ** The files *)

(** The file is there, of its size, and with its checksum where these are checked. *)
Definition sound (no_checksums : bool) (p : ParamFile) (f : gmap Bytes entry) : Prop :=
  exists c, f !! file_name p = Some (Regular c) /\ zlen c = expected_size p /\
    (no_checksums = false -> decode (expected_checksum p) = Success (hash sha256_name c)).

(** No other file has changed. *)
Definition frame (p : ParamFile) (f f' : gmap Bytes entry) : Prop :=
  forall q, q <> file_name p -> f' !! q = f !! q.

Lemma sound_weaken nc p f : sound false p f -> sound nc p f.
Proof. intros (c & Hf & Hs & Hd). exists c. auto. Qed.

Lemma signalled_files w : files (signalled w).2 = files w.
Proof. unfold signalled. by destruct (signals w). Qed.

Lemma remove_frame p w r w' : remove_errored remove_result (file_name p) w = (r, w') ->
  frame p (files w) (files w') /\ r <> Success Good.
Proof.
  unfold remove_errored, frame. destruct (remove_result _) as [[]| |]; intros [= <- <-]; try done.
  split; [|done]. intros q Hq. cbn. by rewrite lookup_delete_ne.
Qed.

Lemma check_file_spec nc p w r w' : check nc p w = (r, w') ->
  frame p (files w) (files w') /\ (r = Success Good -> sound nc p (files w') /\ files w' = files w).
Proof.
  unfold check_file. pose proof (signalled_files w) as Hg. destruct (signalled w) as [stop w1]. cbn in Hg. rewrite <- Hg.
  destruct stop; [by intros [= <- <-]|]. destruct (files w1 !! file_name p) as [[c|]|] eqn:Hf; [|by intros [= <- <-]..].
  destruct (negb (zlen c =? expected_size p)) eqn:Hs; [intros Hr; by destruct (remove_frame _ _ _ _ Hr)|]. prop_bools.
  destruct nc. { intros [= <- <-]. split; [done|]. intros _. split; [|done]. by exists c. }
  destruct (decode (expected_checksum p)) as [e| |] eqn:He; [|by intros [= <- <-]..]. unfold op_bind.
  destruct (checksum (file_name p) e w1) as [r1 w2] eqn:Hc. destruct (checksum_files _ _ _ _ _ Hc) as [Hw _].
  destruct r1 as [[]| |]; cbn [negb]; rewrite <- Hw; [intros [= <- <-]| |by intros [= <- <-]..].
  - split; [done|]. intros _. split; [|done]. exists c. rewrite Hw, He. split_and!; [done..|]. intros _. f_equal. symmetry.
    by eapply checksum_true.
  - intros Hr. by destruct (remove_frame _ _ _ _ Hr).
Qed.

(** The file is right, as far as it is checked, and can be opened where it must be. *)
Definition intact (nc : bool) (p : ParamFile) (f : gmap Bytes entry) : Prop :=
  sound nc p f /\ (nc = true \/ can_open (file_name p) = true).

(** Such a file is not removed, and the check goes on, unless it is told to stop. *)
Lemma check_file_kept nc p w : intact nc p (files w) ->
  files (check nc p w).2 = files w /\
  (check nc p w).1 = Success (if (signalled w).1 then Stop else Good) /\
  signals (check nc p w).2 = tail (signals w).
Proof.
  intros [(c & Hf & Hs & Hd) Ho]. unfold check_file. pose proof (signalled_files w) as Hg.
  assert (Ht : signals (signalled w).2 = tail (signals w)) by (unfold signalled; by destruct (signals w) eqn:E).
  destruct (signalled w) as [stop w1]. cbn in Hg, Ht. destruct stop; [done|]. rewrite Hg, Hf, Hs, Z.eqb_refl. cbn [negb].
  destruct nc; [done|]. destruct Ho as [?|Ho]; [done|]. rewrite (Hd eq_refl). unfold op_bind.
  pose proof (checksum_regular (file_name p) c (hash sha256_name c) w1 ltac:(by rewrite Hg) Ho) as Hr.
  destruct (checksum _ _ w1) as [r w2] eqn:Hc. destruct (checksum_files _ _ _ _ _ Hc) as [Hw Hsg]. cbn in Hr. subst r.
  rewrite bool_decide_eq_true_2 by done. cbn. split_and!; congruence.
Qed.

Lemma frame_files p f f' q : frame p f f' -> file_name q <> file_name p -> f' !! file_name q = f !! file_name q.
Proof. intros Hf Hn. by apply Hf. Qed.

Lemma sound_frame nc p q f f' : frame p f f' -> file_name q <> file_name p -> sound nc q f -> sound nc q f'.
Proof. intros Hf Hn (c & Hc & Hr). exists c. by rewrite (frame_files p f). Qed.

Lemma intact_frame nc p q f f' : frame p f f' -> file_name q <> file_name p -> intact nc q f -> intact nc q f'.
Proof. intros Hf Hn [Hs Ho]. split; [by eapply sound_frame | done]. Qed.

Lemma fetch_file_spec p w r w' : fetch p w = (r, w') ->
  frame p (files w) (files w') /\ (r = Success true -> sound false p (files w')).
Proof.
  unfold fetch_file. pose proof (signalled_files w) as Hg. destruct (signalled w) as [stop w1]. cbn in Hg. rewrite <- Hg.
  destruct stop; [by intros [= <- <-]|]. unfold op_bind. destruct (download_param_file server p w1) as [r1 w2] eqn:Ed.
  assert (Hw : frame p (files w1) (files w2)).
  { revert Ed. unfold download_param_file, frame. intros Ed q Hq.
    repeat (case_match; [injection Ed as <- <-; cbn; by rewrite ?lookup_insert_ne|]).
    injection Ed as <- <-. cbn. by rewrite lookup_insert_ne. }
  destruct r1 as [ok| |]; [|by intros [= <- <-]..]. destruct (negb ok); [by intros [= <- <-]|]. destruct (files w2 !! file_name p) as [[c|]|] eqn:Hf; [|by intros [= <- <-]..].
  destruct (negb (zlen c =? expected_size p)) eqn:Hs; [by intros [= <- <-]|]. prop_bools.
  destruct (decode (expected_checksum p)) as [e| |] eqn:He; [|by intros [= <- <-]..].
  intros Hc. destruct (checksum_files _ _ _ _ _ Hc) as [-> _]. split; [done|]. intros ->. exists c. split_and!; [done..|].
  intros _. rewrite He. f_equal. symmetry. by eapply checksum_true.
Qed.

(** ** The loops *)

Abbreviation names l := (file_name <$> (l : list ParamFile)).

Lemma check_files_cons nc p l errs w r w' : checks nc (p :: l) errs w = (r, w') ->
  (exists v, check nc p w = (v, w') /\ forall e, r <> Success (Some e)) \/
  exists (b : bool) w1, check nc p w = (Success (if b then Good else Errored), w1) /\
    checks nc l (errs ++ if b then [] else [p]) w1 = (r, w').
Proof.
  cbn [check_files]. unfold op_bind. destruct (check nc p w) as [[[]| |] w1]; intros Hr.
  - right. exists true, w1. by rewrite app_nil_r.
  - right. by exists false, w1.
  - injection Hr as <- <-. eauto.
  - injection Hr as <- <-. eauto.
  - injection Hr as <- <-. eauto.
Qed.

Lemma names_ne p q l : ~ file_name p ∈ names l -> q ∈ l -> file_name q <> file_name p.
Proof. intros Hp Hq Hn. apply Hp. rewrite <- Hn. by apply list_elem_of_fmap_2. Qed.

Lemma check_files_frame nc l errs w r w' q : checks nc l errs w = (r, w') -> ~ q ∈ names l ->
  files w' !! q = files w !! q.
Proof.
  revert errs w. induction l as [|p l IH]; intros errs w Hr Hq; [by injection Hr as <- <-|].
  rewrite fmap_cons, not_elem_of_cons in Hq. destruct Hq as [Hn Hq].
  apply check_files_cons in Hr as [(v & Hc & _)|(b & w1 & Hc & Hr)]; apply check_file_spec in Hc as [Hf _].
  - by apply Hf.
  - rewrite (IH _ _ Hr Hq). by apply Hf.
Qed.

(** A file that was right stays as it was. *)
Lemma check_files_kept nc l errs w r w' q : NoDup (names l) -> checks nc l errs w = (r, w') -> q ∈ l ->
  intact nc q (files w) -> files w' !! file_name q = files w !! file_name q.
Proof.
  revert errs w. induction l as [|p l IH]; intros errs w Hl Hr Hq Hs; [by apply elem_of_nil in Hq|].
  rewrite fmap_cons in Hl. apply NoDup_cons in Hl as [Hp Hl]. pose proof (check_file_kept nc p w) as Hk.
  apply elem_of_cons in Hq as [-> | Hq].
  - destruct (Hk Hs) as (Hw & _). apply check_files_cons in Hr as [(v & Hc & _)|(b & w1 & Hc & Hr)]; rewrite Hc in Hw; cbn in Hw.
    + by rewrite Hw.
    + by rewrite (check_files_frame _ _ _ _ _ _ _ Hr Hp), Hw.
  - pose proof (names_ne _ _ _ Hp Hq) as Hn. apply check_files_cons in Hr as [(v & Hc & _)|(b & w1 & Hc & Hr)].
    + by apply check_file_spec in Hc as [Hf _]; apply Hf.
    + apply check_file_spec in Hc as [Hf _]. rewrite (IH _ _ Hl Hr Hq); [by apply Hf | by eapply intact_frame].
Qed.

(** Every file is right or one of those to fetch, which the right ones are not. *)
Lemma check_files_result nc l errs w errs' w' : NoDup (names l) -> checks nc l errs w = (Success (Some errs'), w') ->
  exists extra, errs' = errs ++ extra /\ extra `sublist_of` l /\
    (forall p, p ∈ l -> p ∈ extra \/ sound nc p (files w')) /\
    (forall p, p ∈ extra -> ~ intact nc p (files w)).
Proof.
  revert errs w. induction l as [|p l IH]; intros errs w Hl Hr.
  { injection Hr as <- <-. exists []. rewrite app_nil_r. split_and!; [done.. | |]; by intros p ?%elem_of_nil. }
  rewrite fmap_cons in Hl. apply NoDup_cons in Hl as [Hp Hl].
  apply check_files_cons in Hr as [(v & _ & Hn)|(b & w1 & Hc & Hr)]; [by destruct (Hn errs')|].
  destruct (IH _ _ Hl Hr) as (extra & -> & Hs & Hor & Hno). exists ((if b then [] else [p]) ++ extra). rewrite app_assoc.
  pose proof (check_file_kept nc p w) as Hk. rewrite Hc in Hk. destruct (check_file_spec _ _ _ _ _ Hc) as [Hf Hg].
  split; [done|]. split; [destruct b; [by apply sublist_cons | by apply sublist_skip]|]. split.
  - intros q [-> | Hq]%elem_of_cons; [|destruct (Hor q Hq); [left; set_solver | by right]].
    destruct b; [|left; set_solver]. right. destruct (Hg eq_refl) as [(c & Hc' & Hd) _]. exists c.
    by rewrite (check_files_frame _ _ _ _ _ _ _ Hr Hp).
  - intros q Hq Hsq. apply elem_of_app in Hq as [Hq|Hq].
    + destruct b; [by apply elem_of_nil in Hq|]. apply list_elem_of_singleton in Hq as ->.
      destruct (Hk Hsq) as (_ & Hv & _). by destruct (signalled w).1.
    + apply (Hno q); [done|]. eapply intact_frame; [done | | done]. apply (names_ne _ _ l); [done|]. by eapply elem_of_sublist.
Qed.

Lemma fetch_files_spec l w r w' : NoDup (names l) -> fetches l w = (r, w') ->
  (forall q, ~ q ∈ names l -> files w' !! q = files w !! q) /\
  (r = Success true -> forall p, p ∈ l -> sound false p (files w')).
Proof.
  revert w. induction l as [|p l IH]; intros w Hl Hr; cbn [fetch_files] in Hr.
  { injection Hr as <- <-. split; [done|]. by intros _ p ?%elem_of_nil. }
  rewrite fmap_cons in *. apply NoDup_cons in Hl as [Hp Hl]. unfold op_bind in Hr.
  destruct (fetch p w) as [r1 w1] eqn:Ef. destruct (fetch_file_spec _ _ _ _ Ef) as [Hf Hg].
  assert (Hstop : w1 = w' -> r <> Success true -> (forall q, ~ q ∈ file_name p :: names l -> files w' !! q = files w !! q) /\
    (r = Success true -> forall p0, p0 ∈ p :: l -> sound false p0 (files w'))).
  { intros -> Hn. split; [|done]. intros q Hq. apply Hf. set_solver. }
  destruct r1 as [[]| |]; cbn in Hr; [|injection Hr as <- <-; by apply Hstop..].
  destruct (IH _ Hl Hr) as [Ha Hb]. split; [intros q Hq; rewrite Ha by set_solver; apply Hf; set_solver|].
  intros -> q [-> | Hq]%elem_of_cons; [|by apply Hb]. destruct (Hg eq_refl) as (c & Hc & Hd). exists c. by rewrite Ha.
Qed.

Lemma names_distinct : NoDup (names kParamFiles).
Proof. decide_now. Qed.

Lemma names_inj l p q : NoDup (names l) -> p ∈ l -> q ∈ l -> file_name p = file_name q -> p = q.
Proof.
  induction l as [|x l IH]; intros Hl Hp Hq He; [by apply elem_of_nil in Hp|].
  rewrite fmap_cons in Hl. apply NoDup_cons in Hl as [Hx Hl].
  apply elem_of_cons in Hp as [-> | Hp]; apply elem_of_cons in Hq as [-> | Hq]; [done | | |by apply IH].
  - by destruct (names_ne _ _ _ Hx Hq).
  - by destruct (names_ne _ _ _ Hx Hp).
Qed.

(** ** Downloads *)

Lemma find_app pos l rest : (forall i, 0 <= i < zlen l -> take 4 (zdrop i (l ++ separator ++ rest)) <> separator) ->
  find pos (l ++ separator ++ rest) = Some (pos + zlen l).
Proof.
  revert pos. induction l as [|c l IH]; intros pos Hn.
  - cbn. rewrite bool_decide_eq_true_2 by done. f_equal. lia.
  - cbn [find app]. rewrite bool_decide_eq_false_2 by (apply (Hn 0); rewrite zlen_cons; lia).
    rewrite IH; [rewrite zlen_cons; f_equal; lia|]. intros i Hi.
    specialize (Hn (i + 1) ltac:(rewrite zlen_cons; lia)). rewrite <- app_comm_cons in Hn.
    unfold zdrop in *. by rewrite Z2Nat.inj_add, Nat.add_comm in Hn by lia.
Qed.

Lemma receive_rest reads written : Forall (λ d, d <> []) reads -> receive true reads written = written ++ mjoin reads.
Proof.
  intros Hr. revert written. induction Hr as [|d reads Hd _ IH]; intros written; cbn [receive mjoin]; [by rewrite app_nil_r|].
  rewrite bool_decide_eq_false_2 by done. cbn [negb]. by rewrite IH, <- app_assoc.
Qed.

(** Where the headers end in the first read, what follows them is the file. *)
Lemma receive_body head body reads :
  (forall i, 0 <= i < zlen head -> take 4 (zdrop i (head ++ separator ++ body)) <> separator) ->
  Forall (λ d, d <> []) reads ->
  receive false ((head ++ separator ++ body) :: reads) [] = body ++ mjoin reads.
Proof.
  intros Hn Hr. cbn [receive]. rewrite bool_decide_eq_false_2 by (by destruct head). cbn [negb].
  rewrite find_app by done. rewrite receive_rest by done. rewrite app_nil_l. f_equal.
  replace (0 + zlen head + 4) with (zlen (head ++ separator)) by (rewrite zlen_app; cbn; lia).
  by rewrite app_assoc, zdrop_app.
Qed.

(** The server has the file. *)
Definition served (p : ParamFile) : Prop :=
  let s := server (request p) in
  resolved s = true /\ connected s = true /\ handshaken s = true /\ opened s = true /\ requested s = true /\ truncated s = false /\
  zlen (receive false (reads s) []) = expected_size p /\
  decode (expected_checksum p) = Success (hash sha256_name (receive false (reads s) [])).

Lemma quiet_signalled w : Forall (λ s, s = false) (signals w) ->
  (signalled w).1 = false /\ Forall (λ s, s = false) (signals (signalled w).2).
Proof.
  unfold signalled. destruct (signals w) as [|s l] eqn:E; [cbn; by rewrite E|]. by intros [Hs Hl]%Forall_cons.
Qed.

Lemma fetch_served p w : Forall (λ s, s = false) (signals w) -> served p -> can_open (file_name p) = true ->
  (fetch p w).1 = Success true /\ Forall (λ s, s = false) (signals (fetch p w).2).
Proof.
  intros Hq (Hn & H1 & H2 & H3 & H4 & H5 & H6 & H7) Ho. unfold fetch_file.
  destruct (quiet_signalled w Hq) as [Hs Hq']. destruct (signalled w) as [stop w1]. cbn in Hs, Hq'. subst stop.
  unfold op_bind, download_param_file. rewrite Hn, H1, H2, H3, H4, H5. cbn [negb set_files files]. rewrite lookup_insert_eq, H6, Z.eqb_refl, H7.
  cbn [negb]. set (w2 := set_files _ w1).
  pose proof (checksum_regular (file_name p) _ (hash sha256_name (receive false (reads (server (request p))) [])) w2
    ltac:(apply lookup_insert_eq) Ho) as Hr.
  destruct (checksum _ _ w2) as [r w3] eqn:Hc. destruct (checksum_files _ _ _ _ _ Hc) as [_ Hsg]. cbn in *.
  by rewrite Hr, bool_decide_eq_true_2, Hsg.
Qed.

Lemma fetches_served l w : Forall (λ s, s = false) (signals w) ->
  (forall p, p ∈ l -> served p /\ can_open (file_name p) = true) -> (fetches l w).1 = Success true.
Proof.
  revert w. induction l as [|p l IH]; intros w Hq Hl; cbn [fetch_files]; [done|]. unfold op_bind.
  destruct (Hl p ltac:(left)) as [Hs Ho]. destruct (fetch_served p w Hq Hs Ho) as [Hr Hq'].
  destruct (fetch p w) as [r w1]. cbn in Hr, Hq'. subst r. cbn. apply IH; [done|]. intros q Hq''. apply Hl. by right.
Qed.

(** What stands in the way of no check: a file that is right, one that is missing, or
    one that can be removed. *)
Definition manageable (nc : bool) (p : ParamFile) (f : gmap Bytes entry) : Prop :=
  intact nc p f \/ f !! file_name p = None \/
  exists c, f !! file_name p = Some (Regular c) /\ remove_result (file_name p) = Success true.

Lemma manageable_frame nc p q f f' : frame p f f' -> file_name q <> file_name p -> manageable nc q f -> manageable nc q f'.
Proof.
  intros Hf Hn. unfold manageable. rewrite (frame_files p f f' q Hf Hn). intros [Hi|?]; [left | by right].
  by eapply intact_frame.
Qed.

Lemma checksums_decode p : p ∈ kParamFiles -> exists e, decode (expected_checksum p) = Success e.
Proof. revert p. apply Forall_forall. repeat (constructor; [vm_compute; eauto|]). constructor. Qed.

(** A file that is not right is removed, whatever makes it fail the check. *)
Lemma check_file_removed nc p w c : p ∈ kParamFiles -> Forall (λ s, s = false) (signals w) ->
  files w !! file_name p = Some (Regular c) -> remove_result (file_name p) = Success true -> ~ intact nc p (files w) ->
  exists w1, check nc p w = (Success Errored, w1) /\ files w1 !! file_name p = None /\ Forall (λ s, s = false) (signals w1).
Proof.
  intros Hp Hq Hf Hr Hi. pose proof (signalled_files w) as Hg. destruct (quiet_signalled w Hq) as [Hs Hq'].
  unfold check_file. destruct (signalled w) as [stop w1]. cbn in Hg, Hs, Hq'. subst stop. rewrite Hg, Hf.
  assert (Hrm : forall w2, signals w2 = signals w1 -> exists w3, remove_errored remove_result (file_name p) w2 = (Success Errored, w3) /\
    files w3 !! file_name p = None /\ Forall (λ s, s = false) (signals w3)).
  { intros w2 Hw. unfold remove_errored. rewrite Hr. eexists. split; [done|]. cbn. by rewrite lookup_delete_eq, Hw. }
  destruct (zlen c =? expected_size p) eqn:Es; cbn [negb]; [|by apply Hrm]. prop_bools.
  destruct nc; [destruct Hi; split; [by exists c | by left]|]. destruct (checksums_decode p Hp) as [e He]. rewrite He. unfold op_bind.
  assert (Hc : (checksum (file_name p) e w1).1 = Success false).
  { destruct (can_open (file_name p)) eqn:Ho.
    - rewrite (checksum_regular _ c) by (by rewrite ?Hg). rewrite bool_decide_eq_false_2; [done|]. intros <-.
      destruct Hi. split; [by exists c | by right].
    - unfold validate_file_checksum, op_bind, get_file_sha256_checksum. by rewrite Hg, Hf, Ho. }
  destruct (checksum _ e w1) as [r w2] eqn:Ec. destruct (checksum_files _ _ _ _ _ Ec) as [_ Hw]. cbn in Hc. subst r. by apply Hrm.
Qed.

Lemma intact_dec nc p f : p ∈ kParamFiles -> intact nc p f \/ ~ intact nc p f.
Proof.
  intros Hp. unfold intact, sound. destruct (checksums_decode p Hp) as [e ->].
  destruct (f !! file_name p) as [[c|]|]; [|right; intros [(c & Hc & _) _]; by congruence..].
  destruct (decide (zlen c = expected_size p)) as [Hs|Hs]; [|right; intros [(c' & Hc & Hd & _) _]; by simplify_eq].
  destruct nc; [left; split; [by exists c | by left]|].
  destruct (decide (e = hash sha256_name c)) as [->|He]; [|right; intros [(c' & Hc & _ & Hd) _]; injection Hc as ->; by injection (Hd eq_refl)].
  destruct (can_open _); [left; split; [by exists c | by right] | right; by intros [_ []]].
Qed.

Lemma check_file_total nc p w : p ∈ kParamFiles -> Forall (λ s, s = false) (signals w) -> manageable nc p (files w) ->
  exists (b : bool) w1, check nc p w = (Success (if b then Good else Errored), w1) /\ Forall (λ s, s = false) (signals w1) /\
    (if b then intact nc p (files w) else ~ intact nc p (files w) /\ files w1 !! file_name p = None).
Proof.
  intros Hp Hq Hm. destruct (quiet_signalled w Hq) as [Hs Hq'].
  destruct (intact_dec nc p (files w) Hp) as [Hi|Hi].
  - destruct (check_file_kept nc p w Hi) as (_ & Hr & Ht). rewrite Hs in Hr. exists true, (check nc p w).2.
    split_and!; [by rewrite <- Hr; destruct (check nc p w) | rewrite Ht; by destruct Hq | done].
  - destruct Hm as [?|[Hn|(c & Hf & Hr)]]; [done| |].
    + exists false, (signalled w).2. pose proof (signalled_files w) as Hg. unfold check_file.
      destruct (signalled w) as [stop w1]. cbn in *. subst stop. by rewrite Hg, Hn.
    + destruct (check_file_removed nc p w c Hp Hq Hf Hr Hi) as (w1 & Hc & Hn & Hq1). by exists false, w1.
Qed.

(** Where nothing stands in the way the first loop finds exactly the files that are not
    right, and none of these is there any more. *)
Lemma checks_total nc l errs w : NoDup (names l) -> l ⊆ kParamFiles -> Forall (λ s, s = false) (signals w) ->
  (forall p, p ∈ l -> manageable nc p (files w)) ->
  exists extra w', checks nc l errs w = (Success (Some (errs ++ extra)), w') /\ Forall (λ s, s = false) (signals w') /\
    extra ⊆ l /\ forall p, p ∈ l -> ~ p ∈ extra /\ intact nc p (files w) \/
      p ∈ extra /\ ~ intact nc p (files w) /\ files w' !! file_name p = None.
Proof.
  revert errs w. induction l as [|p l IH]; intros errs w Hd Hin Hq Hm.
  { exists [], w. rewrite app_nil_r. split_and!; [done..|]. by intros p ?%elem_of_nil. }
  rewrite fmap_cons in Hd. apply NoDup_cons in Hd as [Hp Hd].
  destruct (check_file_total nc p w) as (b & w1 & Hc & Hq1 & Hb); [apply Hin; left | done | apply Hm; left|].
  destruct (check_file_spec _ _ _ _ _ Hc) as [Hf _].
  assert (Hne : forall q, q ∈ l -> file_name q <> file_name p) by (intros q; by apply names_ne).
  destruct (IH (errs ++ if b then [] else [p]) w1 Hd) as (extra & w' & Hr & Hq2 & He & Hx); [set_solver | done | |].
  { intros q Hl. eapply manageable_frame; [done | by apply Hne | apply Hm; by right]. }
  exists ((if b then [] else [p]) ++ extra), w'. rewrite app_assoc.
  split_and!; [cbn [check_files]; unfold op_bind; rewrite Hc; destruct b; [by rewrite app_nil_r in * | done] | done
              | destruct b; set_solver|].
  intros q [-> | Hl]%elem_of_cons.
  - destruct b; [left; split; [|done]; intros Hi%He; by destruct (Hne p Hi) | right].
    destruct Hb as [Hi Hn]. split_and!; [set_solver | done|]. by rewrite (check_files_frame _ _ _ _ _ _ _ Hr Hp).
  - assert (Hiff : intact nc q (files w1) <-> intact nc q (files w)).
    { unfold intact, sound. by rewrite (frame_files p (files w) (files w1) q Hf (Hne q Hl)). }
    assert (Hq0 : q ∈ (if b then [] else [p]) -> False).
    { destruct b; [by intros ?%elem_of_nil | intros ->%list_elem_of_singleton; by destruct (Hne p Hl)]. }
    rewrite elem_of_app, <- Hiff. destruct (Hx q Hl) as [[? ?]|(? & ? & ?)]; [left | right]; tauto.
Qed.

(** ** Properties *)

Lemma validate_sound nc w r w' : validate nc w = (r, w') ->
  (r = Success true -> forall p, p ∈ kParamFiles -> sound nc p (files w')) /\
  (forall p, p ∈ kParamFiles -> intact nc p (files w) -> files w' !! file_name p = files w !! file_name p).
Proof.
  unfold validate_param_files, op_bind. destruct (checks nc kParamFiles [] w) as [r1 w1] eqn:Ec.
  pose proof (λ q, check_files_kept _ _ _ _ _ _ q names_distinct Ec) as Hk.
  destruct r1 as [[e|]| |]; [|by intros [= <- <-]..].
  destruct (check_files_result _ _ _ _ _ _ names_distinct Ec) as (extra & -> & Hsub & Hor & Hno). cbn [app].
  destruct extra as [|p0 l0] eqn:Ee.
  { intros [= <- <-]. split; [|done]. intros _ p Hp. destruct (Hor p Hp) as [?%elem_of_nil|]; done. }
  rewrite <- Ee in *. clear Ee. destruct (negb confirmed); [by intros [= <- <-]|]. intros Hr.
  assert (Hd : NoDup (names extra)) by (eapply sublist_NoDup, fmap_sublist, Hsub; apply names_distinct).
  destruct (fetch_files_spec _ _ _ _ Hd Hr) as [Hf Hg].
  assert (Hn : forall p, p ∈ kParamFiles -> file_name p ∈ names extra -> p ∈ extra).
  { intros p Hp (q & Hq & Hi)%list_elem_of_fmap.
    by rewrite (names_inj _ p q names_distinct Hp (elem_of_sublist _ _ _ Hi Hsub) Hq). }
  split.
  - intros -> p Hp. destruct (decide (file_name p ∈ names extra)) as [Hx|Hx]; [by apply sound_weaken, Hg, Hn|].
    destruct (Hor p Hp) as [Hi|(c & Hc & Hr')]; [destruct Hx; by apply list_elem_of_fmap_2|]. exists c. by rewrite Hf.
  - intros p Hp Hs. rewrite Hf; [by apply Hk|]. intros Hx%Hn; [|done]. by destruct (Hno p Hx Hs).
Qed.

(** The files that are not right are gone when the user does not want them fetched. *)
Lemma validate_refused nc w : Forall (λ s, s = false) (signals w) ->
  (forall p, p ∈ kParamFiles -> manageable nc p (files w)) -> confirmed = false ->
  forall p, p ∈ kParamFiles -> ~ intact nc p (files w) ->
  (validate nc w).1 = Success false /\ files (validate nc w).2 !! file_name p = None.
Proof.
  intros Hq Hm Hc p Hp Hi. unfold validate_param_files, op_bind.
  destruct (checks_total nc kParamFiles [] w names_distinct ltac:(done) Hq Hm) as (extra & w1 & -> & _ & _ & Hx). cbn [app].
  destruct (Hx p Hp) as [[_ ?]|(He & _ & Hn)]; [done|]. destruct extra as [|q l]; [by apply elem_of_nil in He|]. by rewrite Hc.
Qed.

(** C24: When the check of the parameters succeeds, every file is in the directory, of its
    size and with its checksum, or of its size when checksums were not asked for.
    Whatever the result, a file that was right and that can be opened is left as it was,
    and so is one of the right size when checksums are not asked for.  But a right file
    that cannot be opened when its checksum is asked for is taken for a wrong one: when
    no signal comes, what is there can be removed and the user refuses the download, the
    check fails and the file is gone. *)
Theorem params_validated nc w r w' : validate nc w = (r, w') ->
  (r = Success true -> forall p, p ∈ kParamFiles -> sound nc p (files w')) /\
  (forall p, p ∈ kParamFiles -> sound nc p (files w) -> nc = true \/ can_open (file_name p) = true ->
    files w' !! file_name p = files w !! file_name p) /\
  (Forall (λ s, s = false) (signals w) -> (forall p, p ∈ kParamFiles -> manageable nc p (files w)) -> confirmed = false ->
    forall p, p ∈ kParamFiles -> sound false p (files w) -> nc = false -> can_open (file_name p) = false ->
    r = Success false /\ files w' !! file_name p = None).
Proof.
  intros Hr. destruct (validate_sound _ _ _ _ Hr) as [H1 H2]. split_and!; [done | intros p Hp Hs Ho; by apply H2 |].
  intros Hq Hm Hc p Hp _ -> Ho. destruct (validate_refused false w Hq Hm Hc p Hp) as [H3 H4].
  - intros [_ [|Ho']]; congruence.
  - by rewrite Hr in H3, H4.
Qed.

Lemma validate_ready nc w : Forall (λ s, s = false) (signals w) -> confirmed = true ->
  (forall p, p ∈ kParamFiles -> intact nc p (files w) \/
    manageable nc p (files w) /\ served p /\ can_open (file_name p) = true) ->
  (validate nc w).1 = Success true /\
  forall p, p ∈ kParamFiles -> ~ intact nc p (files w) -> sound false p (files (validate nc w).2).
Proof.
  intros Hq Hc Hl. unfold validate_param_files, op_bind.
  destruct (checks_total nc kParamFiles [] w names_distinct ltac:(done) Hq) as (extra & w1 & Ec & Hq1 & Hin & Hx).
  { intros p Hp. destruct (Hl p Hp) as [?|[? _]]; [by left | done]. }
  rewrite Ec. cbn [app].
  assert (He : forall p, p ∈ kParamFiles -> ~ intact nc p (files w) -> p ∈ extra).
  { intros p Hp Hn. by destruct (Hx p Hp) as [[_ ?]|[? _]]. }
  assert (Hd : NoDup (names extra)).
  { destruct (check_files_result _ _ _ _ _ _ names_distinct Ec) as (extra' & [= ->] & Hsub & _).
    eapply sublist_NoDup, fmap_sublist, Hsub. apply names_distinct. }
  assert (Hf : (fetches extra w1).1 = Success true).
  { apply fetches_served; [done|]. intros p Hp. destruct (Hx p (Hin p Hp)) as [[? _]|(_ & Hi & _)]; [done|].
    by destruct (Hl p (Hin p Hp)) as [?|[_ ?]]. }
  destruct extra as [|p0 l0]; [split; [done|]; intros p Hp Hn; by apply He, elem_of_nil in Hn|].
  rewrite Hc. cbn [negb]. split; [done|]. destruct (fetches (p0 :: l0) w1) as [r w'] eqn:Ef. cbn in Hf. subst r.
  intros p Hp Hn. apply (proj2 (fetch_files_spec _ _ _ _ Hd Ef)); [done | by apply He].
Qed.

(** C25: The check succeeds when no signal comes, the user agrees, and every file either is
    right (of its size, where checksums are not asked for) and can be opened where its
    checksum is asked for, or is missing or wrong but removable, and then is served and
    can be opened once it is there.  The files that were right are left as they were, and
    those that were not have been fetched, with their sizes and their checksums whether or
    not checksums were asked for. *)
Theorem params_fetched nc w : Forall (λ s, s = false) (signals w) -> confirmed = true ->
  (forall p, p ∈ kParamFiles -> intact nc p (files w) \/
    manageable nc p (files w) /\ served p /\ can_open (file_name p) = true) ->
  exists w', validate nc w = (Success true, w') /\ forall p, p ∈ kParamFiles ->
    (intact nc p (files w) -> files w' !! file_name p = files w !! file_name p) /\
    (~ intact nc p (files w) -> sound false p (files w')).
Proof.
  intros Hq Hc Hl. destruct (validate_ready nc w Hq Hc Hl) as [Hr Hs]. destruct (validate nc w) as [r w'] eqn:E.
  cbn in Hr, Hs. subst r. exists w'. split; [done|]. intros p Hp. split; [by apply (validate_sound _ _ _ _ E) | by apply Hs].
Qed.

End ParamsFacts.

(** ** A server of files of the right sizes, and a digest that knows them by their sizes *)

Definition body_of (request_ : Bytes) : Bytes :=
  replicate (Z.to_nat (foldr (λ p z, if bool_decide (request p = request_) then expected_size p else z) 0 kParamFiles)) 0.

Definition ex_server (request_ : Bytes) : session :=
  mk_session true true true true true [str "HTTP/1.1 200 OK" ++ separator ++ body_of request_] false.

Definition ex_hash (n : bool) (x : Bytes) : Bytes :=
  if n then
    foldr (λ p d, if zlen x =? expected_size p then match decode (expected_checksum p) with Success e => e | _ => d end else d)
      (replicate 32 0) kParamFiles
  else replicate 20 0.

Lemma length_ex_hash n d : zlen (ex_hash n d) = if n then 32 else 20.
Proof. destruct n; [|done]. unfold ex_hash. generalize (zlen d). intros z. cbn [foldr kParamFiles]. case_cmps; vm_compute; reflexivity. Qed.

Abbreviation ex_evp := (model_evp ex_hash).
Definition ex_world : @world ex_evp := mk_world ∅ [] [].

Lemma ex_body p : p ∈ kParamFiles -> zlen (body_of (request p)) = expected_size p.
Proof.
  intros Hp. unfold body_of. rewrite length_replicate. revert p Hp. apply Forall_forall.
  repeat (constructor; [rewrite Z2Nat.id by (vm_compute; discriminate); vm_compute; reflexivity|]). constructor.
Qed.

Lemma ex_checksum p : p ∈ kParamFiles ->
  decode (expected_checksum p) = Success (ex_hash true (body_of (request p))).
Proof.
  intros Hp. unfold ex_hash. rewrite (ex_body p Hp). revert p Hp. apply Forall_forall.
  repeat (constructor; [vm_compute; reflexivity|]). constructor.
Qed.

Lemma ex_served p : p ∈ kParamFiles -> @served ex_evp ex_hash true ex_server p.
Proof.
  intros Hp. pose proof (ex_body p Hp) as Hb. pose proof (ex_checksum p Hp) as Hc. unfold served.
  assert (Hr : receive false (reads (ex_server (request p))) [] = body_of (request p)).
  { unfold ex_server. cbn [reads]. generalize (body_of (request p)). intros b. reflexivity. }
  rewrite Hr. split_and!; done.
Qed.

Lemma ex_ready p : p ∈ kParamFiles ->
  @intact ex_evp ex_hash true (λ _, true) false p (files ex_world) \/
  @manageable ex_evp ex_hash true (λ _, Success true) (λ _, true) false p (files ex_world) /\
  @served ex_evp ex_hash true ex_server p /\ (λ _ : Bytes, true) (file_name p) = true.
Proof. intros Hp. right. split_and!; [right; left; apply lookup_empty | by apply ex_served | done]. Qed.

Abbreviation ex_validate := (@validate_param_files ex_evp true (λ _, Success true) (λ _, true) true ex_server false).

(** A small right file that cannot be opened, beside no others. *)
Definition ex_key : Bytes := replicate 1449 0.
Definition ex_locked : @world ex_evp := mk_world {[file_name kSproutVerifyingKey := Regular ex_key]} [] [].
Abbreviation ex_refuse := (@validate_param_files ex_evp true (λ _, Success true) (λ _, false) false ex_server false).

Lemma ex_locked_manageable p : p ∈ kParamFiles ->
  @manageable ex_evp ex_hash true (λ _, Success true) (λ _, false) false p (files ex_locked).
Proof.
  intros _. right. cbn [files ex_locked]. destruct (decide (file_name kSproutVerifyingKey = file_name p)) as [<-|Hn].
  - right. exists ex_key. split; [apply lookup_singleton_eq | done].
  - left. by apply lookup_singleton_ne.
Qed.

Lemma ex_locked_sound : @sound ex_evp ex_hash true false kSproutVerifyingKey (files ex_locked).
Proof. exists ex_key. split_and!; [apply lookup_singleton_eq | vm_compute; reflexivity..]. Qed.

Lemma params_validated_witness :
  ((ex_validate ex_world).1 = Success true /\
   forall p, p ∈ kParamFiles -> @sound ex_evp ex_hash true false p (files (ex_validate ex_world).2)) /\
  (ex_refuse ex_locked).1 = Success false /\ files (ex_refuse ex_locked).2 !! file_name kSproutVerifyingKey = None.
Proof.
  split.
  - pose proof (@validate_ready ex_evp ex_hash _ (model_evp_laws _ length_ex_hash) true (λ _, Success true) (λ _, true)
      true ex_server false ex_world (Forall_nil_2 _) eq_refl ex_ready) as [Hr _].
    split; [exact Hr|].
    apply (@params_validated ex_evp ex_hash _ (model_evp_laws _ length_ex_hash) true (λ _, Success true) (λ _, true)
      true ex_server false ex_world (ex_validate ex_world).1 (ex_validate ex_world).2); [apply surjective_pairing | exact Hr].
  - apply (@params_validated ex_evp ex_hash _ (model_evp_laws _ length_ex_hash) true (λ _, Success true) (λ _, false)
      false ex_server false ex_locked (ex_refuse ex_locked).1 (ex_refuse ex_locked).2 (surjective_pairing _)).
    + constructor.
    + exact ex_locked_manageable.
    + reflexivity.
    + right. left.
    + exact ex_locked_sound.
    + reflexivity.
    + reflexivity.
Defined.

Lemma params_fetched_witness : exists w', ex_validate ex_world = (Success true, w') /\
  forall p, p ∈ kParamFiles -> @sound ex_evp ex_hash true false p (files w').
Proof.
  destruct (@params_fetched ex_evp ex_hash _ (model_evp_laws _ length_ex_hash) true (λ _, Success true) (λ _, true)
    true ex_server false ex_world (Forall_nil_2 _) eq_refl ex_ready) as (w' & Hr & Hs).
  exists w'. split; [exact Hr|]. intros p Hp. apply (Hs p Hp). intros [(c & Hc & _) _]. discriminate Hc.
Defined.

End ParamsFacts.
