(* ===== verification/Addresses.v ===== *)
(** * Network addresses

    Model of [src/src/infra/network/addresses.cpp] and [addresses.hpp]:
    addresses and their reserved ranges, endpoints, subnets, and the services
    that nodes advertise.  An [IPAddress] is the Boost address it wraps. *)

From Stdlib Require Import String Btauto.
From S2P Require Import Prelude Text Stream Boost Serialize Types Protocol.
#[local] Open Scope Z_scope.

(** ** NodeServicesType *)

Definition kNone : Z := 0.
Definition kNodeNetwork : Z := Z.shiftl 1 0.
Definition kNodeGetUTXO : Z := Z.shiftl 1 1.
Definition kNodeBloom : Z := Z.shiftl 1 2.
Definition kNodeWitness : Z := Z.shiftl 1 3.
Definition kNodeXthin : Z := Z.shiftl 1 4.
Definition kNodeCompactFilters : Z := Z.shiftl 1 6.
Definition kNodeNetworkLimited : Z := Z.shiftl 1 10.
Definition kNodeNetworkAll : Z :=
  Z.lor kNodeNetwork (Z.lor kNodeGetUTXO (Z.lor kNodeBloom (Z.lor kNodeWitness
    (Z.lor kNodeXthin (Z.lor kNodeCompactFilters kNodeNetworkLimited))))).

(** ** IPAddress *)

Inductive IPAddressReservationType :=
| kNotReserved | kRFC1918 | kRFC2544 | kRFC6598 | kRFC5737 | kRFC3927 | kRFC3849 | kRFC3964
| kRFC4193 | kRFC4380 | kRFC4843 | kRFC4862 | kRFC6052 | kRFC6145.

#[global] Instance IPAddressReservationType_dec : EqDecision IPAddressReservationType.
Proof. solve_decision. Defined.

Inductive IPAddressType := kIPv4 | kIPv6.

(** [addr_bytes[i]] *)
Definition octet (b : Bytes) (i : nat) : Z := default 0 (b !! i).

Module IPAddress.
Section IPAddress.
Context `{Boost}.

(** [IPAddress()] *)
Definition default_address : address := V4 (replicate 4 0).

Definition is_any (value_ : address) : bool :=
  match value_ with
  | V4 b => bool_decide (b = replicate 4 0)
  | V6 b => bool_decide (b = replicate 16 0)
  end.

Definition is_valid (value_ : address) : bool := negb (is_any value_ || is_unspecified value_).

Definition get_type (value_ : address) : IPAddressType := if is_v4 value_ then kIPv4 else kIPv6.

Definition address_v4_reservation (b : Bytes) : IPAddressReservationType :=
  let a i := octet b i in
  let ret := kNotReserved in
  let ret := if (a 0%nat =? 10) || ((a 0%nat =? 172) && (16 <=? a 1%nat) && (a 1%nat <=? 31))
                || ((a 0%nat =? 192) && (a 1%nat =? 168)) then kRFC1918 else ret in
  let ret := if (a 0%nat =? 192) && ((a 1%nat =? 18) || (a 1%nat =? 19)) then kRFC2544 else ret in
  let ret := if (a 0%nat =? 100) && ((64 <=? a 1%nat) && (a 1%nat <=? 127)) then kRFC6598 else ret in
  let ret := if ((a 0%nat =? 192) && (a 1%nat =? 0) && (a 2%nat =? 2))
                || ((a 0%nat =? 198) && (a 1%nat =? 51) && (a 2%nat =? 100))
                || ((a 0%nat =? 203) && (a 1%nat =? 0) && (a 2%nat =? 113)) then kRFC5737 else ret in
  if (a 0%nat =? 169) && (a 1%nat =? 254) then kRFC3927 else ret.

Definition address_v6_reservation (b : Bytes) : IPAddressReservationType :=
  let a i := octet b i in
  let ret := kNotReserved in
  let ret := if (a 0%nat =? 0x20) && (a 1%nat =? 0x01) && (a 2%nat =? 0x0D) && (a 3%nat =? 0xB8)
             then kRFC3849 else ret in
  let ret := if (a 0%nat =? 0x20) && (a 1%nat =? 0x02) then kRFC3964 else ret in
  let ret := if (a 0%nat =? 0xFC) || (a 0%nat =? 0xFD) then kRFC4193 else ret in
  let ret := if (a 0%nat =? 0x20) && (a 1%nat =? 0x01) && (a 2%nat =? 0x00) && (a 3%nat =? 0x00)
             then kRFC4380 else ret in
  let ret := if (a 0%nat =? 0x20) && (a 1%nat =? 0x01) && (a 2%nat =? 0x00)
                && (Z.land (a 3%nat) 0xF0 =? 0x10) then kRFC4843 else ret in
  let ret := if (a 0%nat =? 0xFE) && (a 1%nat =? 0x80) then kRFC4862 else ret in
  let ret := if (a 0%nat =? 0x00) && (a 1%nat =? 0x64) && (a 2%nat =? 0xFF) && (a 3%nat =? 0x9B)
             then kRFC6052 else ret in
  if (a 0%nat =? 0) && (a 1%nat =? 0) && (a 2%nat =? 0xFF) && (a 3%nat =? 0xFF)
     && (a 4%nat =? 0) && (a 5%nat =? 0) && (a 6%nat =? 0) && (a 7%nat =? 0)
     && (a 8%nat =? 0) && (a 9%nat =? 0) && (a 10%nat =? 0) && (a 11%nat =? 0)
     && (a 12%nat =? 0) && (a 13%nat =? 0) && (a 14%nat =? 0) && (a 15%nat =? 0)
  then kRFC6145 else ret.

Definition address_reservation (value_ : address) : IPAddressReservationType :=
  if is_unspecified value_ then kNotReserved
  else match value_ with
       | V4 b => address_v4_reservation b
       | V6 b => address_v6_reservation b
       end.

Definition is_reserved (value_ : address) : bool :=
  bool_decide (address_reservation value_ <> kNotReserved).

Definition is_routable (value_ : address) : bool :=
  if negb (is_valid value_) || is_loopback value_ then false
  else match address_reservation value_ with
       | kRFC1918 | kRFC2544 | kRFC3927 | kRFC4862 | kRFC6598 | kRFC5737 | kRFC4193 | kRFC4843
       | kRFC3849 => false
       | _ => true
       end.

Definition serialization (action : Action) : Ser address := bind_address action.

(** *** The patterns of the text forms *)

(** [\d{1,3}] *)
Definition match_octet (l : Bytes) : option (Bytes * Bytes) :=
  let (ds, rest) := span_digits l in
  if (1 <=? zlen ds) && (zlen ds <=? 3) then Some (ds, rest) else None.

(** [\d{1,3}\.\d{1,3}\.\d{1,3}\.\d{1,3}]: [n] octets after the first. *)
Fixpoint match_octets (n : nat) (l : Bytes) : option (Bytes * Bytes) :=
  match match_octet l with
  | None => None
  | Some (ds, rest) =>
      match n with
      | O => Some (ds, rest)
      | S n =>
          match rest with
          | c :: rest' =>
              if c =? 46 then
                match match_octets n rest' with
                | Some (text, r) => Some (ds ++ c :: text, r)
                | None => None
                end
              else None
          | [] => None
          end
      end
  end.

(** [(?::(\d+))?] up to the end of the text. *)
Definition match_port (l : Bytes) : option (option Bytes) :=
  match l with
  | [] => Some None
  | c :: ds => if (c =? 58) && negb (bool_decide (ds = [])) && forallb is_digit ds then Some (Some ds) else None
  end.

Definition skip_open (l : Bytes) : Bytes := match l with c :: l' => if c =? 91 then l' else l | [] => [] end.
Definition skip_close (l : Bytes) : Bytes := match l with c :: l' => if c =? 93 then l' else l | [] => [] end.

(** The longest run of [[0-9a-f:]], ignoring case. *)
Fixpoint span_hex_colon (l : Bytes) : Bytes * Bytes :=
  match l with
  | c :: l' => if is_hex_colon c then let (a, b) := span_hex_colon l' in (c :: a, b) else ([], l)
  | [] => ([], [])
  end.

(** The first group and the port of [kIPv4Pattern], [kIPv6Pattern] and
    [kIPv6IPv4Pattern].  The patterns are matched against the whole text; no
    backtracking is needed since what follows a greedy run is never a character
    of the run. *)
Definition kIPv4Pattern (l : Bytes) : option (Bytes * option Bytes) :=
  match match_octets 3 l with
  | Some (text, rest) => match match_port rest with Some p => Some (text, p) | None => None end
  | None => None
  end.

Definition kIPv6Pattern (l : Bytes) : option (Bytes * option Bytes) :=
  let (run, rest) := span_hex_colon (skip_open l) in
  if bool_decide (run = []) then None
  else match match_port (skip_close rest) with Some p => Some (run, p) | None => None end.

Definition kIPv6IPv4Pattern (l : Bytes) : option (Bytes * option Bytes) :=
  let l := skip_open l in
  if bool_decide ((tolower <$> take 7 l) = str "::ffff:")
  then match match_octets 3 (drop 7 l) with
       | Some (text, rest) =>
           match match_port (skip_close rest) with Some p => Some (take 7 l ++ text, p) | None => None end
       | None => None
       end
  else None.

Definition bad_address {A} : outcome A := Failure (Errc bad_address).

Definition from_string (input : Bytes) : outcome address :=
  match input with
  | [] => Success default_address
  | _ =>
      match kIPv6IPv4Pattern input with
      | Some (text, _) =>
          match make_address_v6 text with
          | Some b => match v6_to_v4 b with Some b4 => Success (V4 b4) | None => bad_address end
          | None => bad_address
          end
      | None =>
          match kIPv6Pattern input with
          | Some (text, _) =>
              match make_address_v6 text with Some b => Success (V6 b) | None => bad_address end
          | None =>
              match kIPv4Pattern input with
              | Some (text, _) =>
                  match make_address_v4 text with Some b => Success (V4 b) | None => bad_address end
              | None => bad_address
              end
          end
      end
  end.

Definition to_string (value_ : address) : Bytes :=
  match value_ with
  | V6 b => [91] ++ v6_to_string b ++ [93]
  | V4 b => v4_to_string b
  end.

End IPAddress.
End IPAddress.

(** ** IPEndpoint *)

Definition UINT16_MAX : Z := 65535.

Definition bswap_16 (x : Z) : Z := Z.lor (Z.shiftl (Z.land x 255) 8) (Z.land (Z.shiftr x 8) 255).

Module IPEndpoint.

Record t := mk { address_ : address; port_ : Z }.

#[global] Instance t_dec : EqDecision t.
Proof. solve_decision. Defined.

Definition set_address a (o : t) : t := mk a (port_ o).
Definition set_port p (o : t) : t := mk (address_ o) p.

Section IPEndpoint.
Context `{Boost}.

Definition of_address (a : address) : t := mk a 0.
Definition of_port (p : Z) : t := mk IPAddress.default_address p.

Definition is_valid (o : t) : bool :=
  IPAddress.is_valid (address_ o) && ((1 <? port_ o) && (port_ o <? UINT16_MAX)).

Definition is_routable (o : t) : bool := is_valid o && IPAddress.is_routable (address_ o).

(** [matches[address_match]] and [matches[port_match]]: the pattern of embedded
    IPv4 addresses has no fourth group, so its port is never matched. *)
Definition match_groups (input : Bytes) : option (Bytes * option Bytes) :=
  match IPAddress.kIPv6IPv4Pattern input with
  | Some (text, _) => Some (text, None)
  | None =>
      match IPAddress.kIPv4Pattern input with
      | Some m => Some m
      | None => IPAddress.kIPv6Pattern input
      end
  end.

Definition from_string (input : Bytes) : outcome t :=
  match input with
  | [] => Success (of_address IPAddress.default_address)
  | _ =>
      match match_groups input with
      | None => Failure (Errc invalid_argument)
      | Some (text, port) =>
          let? parsed_address := IPAddress.from_string text in
          match port with
          | None => Success (of_address parsed_address)
          | Some ds =>
              if 2 ^ 64 <=? digits_value ds then Failure (Errc invalid_argument)
              else if UINT16_MAX <=? digits_value ds then Failure (Errc value_too_large)
              else Success (mk parsed_address (digits_value ds))
          end
      end
  end.

Definition to_string (o : t) : Bytes := IPAddress.to_string (address_ o) ++ [58] ++ decimal (port_ o).

Definition to_bytes (o : t) : Bytes :=
  (if IPAddress.is_valid (address_ o) then Boost.to_bytes (address_ o) else []) ++
  [wrap 8 (Z.shiftr (port_ o) 8); wrap 8 (Z.land (port_ o) 0xFF)].

(** The port is swapped around the call, whatever it returns. *)
Definition bind_port (action : Action) : Ser Z :=
  λ p s, let '(r, p', s') := bind_integral uint16_t action (bswap_16 p) s in (r, bswap_16 p', s').

Definition serialization (action : Action) : Ser t :=
  on_field address_ set_address (IPAddress.serialization action) >>>
  on_field port_ set_port (bind_port action).

Definition compare (a b : t) : comparison :=
  match address_compare (address_ a) (address_ b) with
  | Eq => port_ a ?= port_ b
  | Lt => Lt
  | Gt => Gt
  end.

(** [IPEndpointHasher::operator()], with the key drawn at construction. *)
Definition hash `{Crypto} (seed_key_ : Bytes) (o : t) : Z :=
  siphash24 seed_key_
    (str (match IPAddress.get_type (address_ o) with kIPv4 => "kIPv4" | kIPv6 => "kIPv6" end) ++
     Boost.to_bytes (address_ o) ++ decimal (port_ o)).

End IPEndpoint.
End IPEndpoint.

(** ** IPSubNet *)

Module IPSubNet.

Record t := mk { base_address_ : address; prefix_length_ : Z }.

(** [to_uint] of an IPv4 address. *)
Definition to_uint (b : Bytes) : Z := be_value b.

(** [0xFFFFFFFFU << (32U - prefix_length)]; a shift by 32 is undefined. *)
Definition mask_v4 (prefix_length : Z) : outcome Z :=
  if prefix_length =? 0 then Fault UndefinedBehaviour
  else Success (wrap 32 (Z.shiftl 0xFFFFFFFF (32 - prefix_length))).

(** The sixteen octets of the mask of an IPv6 prefix. *)
Definition mask_v6 (prefix_length : Z) : Bytes :=
  (λ i, if i <? prefix_length / 8 then 0xFF
        else if (i =? prefix_length / 8) && negb (prefix_length mod 8 =? 0)
             then Z.land 0xFF (Z.shiftl 0xFF (8 - prefix_length mod 8))
             else 0) <$> seqZ 0 16.

Section IPSubNet.
Context `{Boost}.

Definition is_valid (o : t) : bool :=
  IPAddress.is_valid (base_address_ o) &&
  ((0 <? prefix_length_ o) && (prefix_length_ o <=? (if is_v4 (base_address_ o) then 32 else 128))).

Definition contains_address (o : t) (a : address) : outcome bool :=
  if negb (is_valid o) || (is_unspecified a || is_loopback a) then Success false
  else match base_address_ o, a with
       | V4 subnet, V4 b =>
           let? mask := mask_v4 (prefix_length_ o) in
           Success (Z.land (to_uint b) mask =? to_uint subnet)
       | V6 subnet, V6 b =>
           Success (forallb (λ '(x, m, y), Z.land x m =? y)
             (combine (combine b (mask_v6 (prefix_length_ o))) subnet))
       | _, _ => Success false
       end.

Definition contains (o : t) (a : address) : outcome bool :=
  if negb (is_valid o) || negb (IPAddress.is_valid a) then Success false else contains_address o a.

Definition calculate_subnet_base_address (a : address) (prefix_length : Z) : outcome address :=
  match a with
  | V4 b =>
      if 32 <? prefix_length then Failure (Errc value_too_large)
      else
        let? mask := mask_v4 prefix_length in
        let subnet_int := Z.land mask (to_uint b) in
        Success (V4 [Z.land (Z.shiftr subnet_int 24) 0xFF; Z.land (Z.shiftr subnet_int 16) 0xFF;
                     Z.land (Z.shiftr subnet_int 8) 0xFF; Z.land subnet_int 0xFF])
  | V6 b =>
      if 128 <? prefix_length then Failure (Errc value_too_large)
      else Success (V6 ((λ '(x, m), Z.land x m) <$> combine b (mask_v6 prefix_length)))
  end.

Definition base_of (a : address) (prefix_length : Z) : outcome address :=
  if negb (IPAddress.is_valid a) then Failure (Errc invalid_argument)
  else calculate_subnet_base_address a prefix_length.

(** [^([0-9]{1,3}).([0-9]{1,3}).([0-9]{1,3}).([0-9]{1,3})$]: the point stands for
    any character but a line terminator; longer groups are tried first. *)
Definition any_char (c : Z) : bool := negb ((c =? 10) || (c =? 13)).

Definition split_lengths (l : Bytes) (ns : list nat) : option (list Bytes) :=
  (fix go (ns : list nat) (l : Bytes) : option (list Bytes) :=
     match ns with
     | [] => None
     | [n] => if decide (length l = n) then (if forallb is_digit l then Some [l] else None) else None
     | n :: ns =>
         if decide (n < length l)%nat then
           if forallb is_digit (take n l) && any_char (octet l n)
           then match go ns (drop (S n) l) with Some gs => Some (take n l :: gs) | None => None end
           else None
         else None
     end) ns l.

Definition group_lengths : list (list nat) :=
  i ← [3%nat; 2%nat; 1%nat]; j ← [3%nat; 2%nat; 1%nat]; k ← [3%nat; 2%nat; 1%nat];
  n ← [3%nat; 2%nat; 1%nat]; [[i; j; k; n]].

Definition decimal_notation_pattern (l : Bytes) : option (list Bytes) :=
  head (omap (split_lengths l) group_lengths).

Definition popcount (v : Z) : Z := foldr (λ i n, (if Z.testbit v i then 1 else 0) + n) 0 (seqZ 0 16).

(** The loop over the octets of a dotted mask. *)
Fixpoint mask_length (octets : list Bytes) (zero_found : bool) (ret : Z) : outcome Z :=
  match octets with
  | [] => Success ret
  | o :: os =>
      let v := digits_value o in
      if v =? 0 then mask_length os true ret
      else if bool_decide (v ∈ [128; 192; 224; 240; 248; 252; 254; 255])
           then if zero_found then Failure (Errc illegal_byte_sequence)
                else mask_length os zero_found (ret + popcount v)
           else Failure (Errc invalid_argument)
  end.

Definition parse_prefix_length (input : Bytes) : outcome Z :=
  match input with
  | [] => Failure (Errc invalid_argument)
  | _ =>
      match decimal_notation_pattern input with
      | Some octets => mask_length octets false 0
      | None =>
          if (zlen input <=? 3) && forallb is_digit input
          then if 128 <? digits_value input then Failure (Errc value_too_large)
               else Success (digits_value input)
          else Failure (Errc invalid_argument)
      end
  end.

(** [boost::split(parts, input, boost::is_any_of("/"))] *)
Fixpoint split_slash (l : Bytes) : list Bytes :=
  match l with
  | [] => [[]]
  | c :: l' =>
      if c =? 47 then [] :: split_slash l'
      else match split_slash l' with p :: ps => (c :: p) :: ps | [] => [[c]] end
  end.

Definition from_string (input : Bytes) : outcome t :=
  match input with
  | [] => Success (mk IPAddress.default_address 0)
  | _ =>
      match split_slash input with
      | [a] =>
          let? parsed_address := IPAddress.from_string a in
          Success (mk parsed_address (if is_v4 parsed_address then 32 else 128))
      | [a; p] =>
          let? parsed_address := IPAddress.from_string a in
          let? parsed_prefix_length := parse_prefix_length p in
          if is_v4 parsed_address && (32 <? parsed_prefix_length) then Failure (Errc value_too_large)
          else Success (mk parsed_address parsed_prefix_length)
      | _ => Failure (Errc invalid_argument)
      end
  end.

Definition to_string (o : t) : Bytes :=
  match base_address_ o with V4 b => v4_to_string b | V6 b => v6_to_string b end ++
  [47] ++ decimal (prefix_length_ o).

End IPSubNet.
End IPSubNet.


(** ** Services of nodes *)

(** [static_cast<uint32_t>(time)] around the binding of a time point: the time
    is truncated, whatever the call returns. *)
Definition bind_seconds (action : Action) : Ser Z :=
  λ t s, bind_integral uint32_t action (wrap 32 t) s.

Definition kTimeInit : Z := 100000000.

Module NodeService.

Record t := mk { time_ : Z; services_ : Z; endpoint_ : IPEndpoint.t }.

Definition set_time v (o : t) : t := mk v (services_ o) (endpoint_ o).
Definition set_services v (o : t) : t := mk (time_ o) v (endpoint_ o).
Definition set_endpoint v (o : t) : t := mk (time_ o) (services_ o) v.

#[global] Instance t_dec : EqDecision t.
Proof. solve_decision. Defined.

Definition of_endpoint (e : IPEndpoint.t) : t := mk kTimeInit 0 e.
Definition initial : t := of_endpoint (IPEndpoint.of_address IPAddress.default_address).

Section serialization.
Context `{Boost}.

Definition serialization (action : Action) : Ser t :=
  on_field time_ set_time (bind_seconds action) >>>
  on_field services_ set_services (bind_integral uint64_t action) >>>
  on_field endpoint_ set_endpoint (IPEndpoint.serialization action).
End serialization.
End NodeService.

(** [VersionNodeService] is a [NodeService] serialized without its time. *)
Module VersionNodeService.
Section serialization.
Context `{Boost}.

Definition serialization (action : Action) : Ser NodeService.t :=
  on_field NodeService.services_ NodeService.set_services (bind_integral uint64_t action) >>>
  on_field NodeService.endpoint_ NodeService.set_endpoint (IPEndpoint.serialization action).
End serialization.
End VersionNodeService.

Module NodeServiceInfo.

Definition kMaxDaysSinceLastSeen : Z := 30 * 86400.
Definition kNewPeerMaxRetries : Z := 3.
Definition kRecentConnectionDays : Z := 7 * 86400.
Definition kMaxReconnectionFailures : Z := 10.

Record t := mk {
  service_ : NodeService.t;
  user_agent_ : Bytes;
  origin_ : address;
  last_connection_attempt_ : Z;
  last_connection_success_ : Z;
  connection_attempts_ : Z;
  random_pos_ : Z;
  tried_ref_ : option Z;
  new_refs_ : gset Z;
}.

Definition make (service : NodeService.t) (source : address) : t :=
  mk service [] source 0 0 0 0 None ∅.

Definition set_service v (o : t) := mk v (user_agent_ o) (origin_ o) (last_connection_attempt_ o)
  (last_connection_success_ o) (connection_attempts_ o) (random_pos_ o) (tried_ref_ o) (new_refs_ o).
Definition set_user_agent v (o : t) := mk (service_ o) v (origin_ o) (last_connection_attempt_ o)
  (last_connection_success_ o) (connection_attempts_ o) (random_pos_ o) (tried_ref_ o) (new_refs_ o).
Definition set_origin v (o : t) := mk (service_ o) (user_agent_ o) v (last_connection_attempt_ o)
  (last_connection_success_ o) (connection_attempts_ o) (random_pos_ o) (tried_ref_ o) (new_refs_ o).
Definition set_attempt v (o : t) := mk (service_ o) (user_agent_ o) (origin_ o) v
  (last_connection_success_ o) (connection_attempts_ o) (random_pos_ o) (tried_ref_ o) (new_refs_ o).
Definition set_success v (o : t) := mk (service_ o) (user_agent_ o) (origin_ o) (last_connection_attempt_ o)
  v (connection_attempts_ o) (random_pos_ o) (tried_ref_ o) (new_refs_ o).
Definition set_attempts v (o : t) := mk (service_ o) (user_agent_ o) (origin_ o) (last_connection_attempt_ o)
  (last_connection_success_ o) v (random_pos_ o) (tried_ref_ o) (new_refs_ o).
Definition set_random_pos v (o : t) := mk (service_ o) (user_agent_ o) (origin_ o) (last_connection_attempt_ o)
  (last_connection_success_ o) (connection_attempts_ o) v (tried_ref_ o) (new_refs_ o).
Definition set_tried_ref v (o : t) := mk (service_ o) (user_agent_ o) (origin_ o) (last_connection_attempt_ o)
  (last_connection_success_ o) (connection_attempts_ o) (random_pos_ o) v (new_refs_ o).
Definition set_new_refs v (o : t) := mk (service_ o) (user_agent_ o) (origin_ o) (last_connection_attempt_ o)
  (last_connection_success_ o) (connection_attempts_ o) (random_pos_ o) (tried_ref_ o) v.

Section serialization.
Context `{Boost}.

Definition serialization (action : Action) : Ser t :=
  on_field service_ set_service (NodeService.serialization action) >>>
  on_field user_agent_ set_user_agent (bind_string action) >>>
  on_field origin_ set_origin (IPAddress.serialization action) >>>
  on_field last_connection_attempt_ set_attempt (bind_seconds action) >>>
  on_field last_connection_success_ set_success (bind_seconds action) >>>
  on_field connection_attempts_ set_attempts (bind_integral uint32_t action) >>>
  on_field random_pos_ set_random_pos (bind_integral uint32_t action).
End serialization.

Definition is_bad (now : Z) (o : t) : bool :=
  if now - 60 <? last_connection_attempt_ o then false
  else if now + 600 <? NodeService.time_ (service_ o) then true
  else if NodeService.time_ (service_ o) <? now - kMaxDaysSinceLastSeen then true
  else if (last_connection_success_ o =? 0) && (kNewPeerMaxRetries <? connection_attempts_ o) then true
  else if (last_connection_success_ o <? now - kRecentConnectionDays)
          && (kMaxReconnectionFailures <? connection_attempts_ o) then true
  else false.

End NodeServiceInfo.

(** ** Properties *)

Module AddressesTheorems.
Import Laws SerializeTheorems.

(** *** Byte order of ports *)

Definition bswap_fine (x : Z) : bool :=
  (bswap_16 (bswap_16 x) =? x) && (0 <=? bswap_16 x) && (bswap_16 x <? 65536) &&
  bool_decide (le_bytes 2 (bswap_16 x) = be_bytes 2 x).

Lemma bswap_check x : 0 <= x < 65536 -> bswap_fine x = true.
Proof.
  intros Hx. rewrite (Z.div_mod x 256) by lia.
  assert (0 <= x / 256 < 256) by (split; [apply Z.div_pos | apply Z.div_lt_upper_bound]; lia).
  pose proof (Z.mod_pos_bound x 256 ltac:(lia)).
  apply (check_range (λ l, bswap_fine (256 * (x / 256) + l)) 0 256); [|lia].
  apply (check_range (λ h, forallb (λ l, bswap_fine (256 * h + l)) (seqZ 0 256)) 0 256); [|lia].
  vm_cast_no_check (eq_refl true).
Qed.

Lemma bswap_involutive x : 0 <= x < 65536 -> bswap_16 (bswap_16 x) = x.
Proof. intros Hx. pose proof (bswap_check x Hx) as Hb. unfold bswap_fine in Hb. prop_bools. lia. Qed.

Lemma bswap_range x : 0 <= x < 65536 -> in_range uint16_t (bswap_16 x).
Proof. intros Hx. pose proof (bswap_check x Hx) as Hb. unfold bswap_fine in Hb. prop_bools. split; [lia | done]. Qed.

(** The port goes on the wire most significant octet first. *)
Lemma bswap_bytes x : 0 <= x < 65536 -> int_bytes uint16_t (bswap_16 x) = be_bytes 2 x.
Proof. intros Hx. pose proof (bswap_check x Hx) as Hb. unfold bswap_fine in Hb. prop_bools. done. Qed.

Lemma two_pos : (0 < ssizeof uint16_t)%nat.
Proof. simpl. lia. Qed.

Lemma port_writes p : 0 <= p < 65536 -> writes (IPEndpoint.bind_port kSerialize) p (be_bytes 2 p) p.
Proof.
  intros Hp s Hf. unfold IPEndpoint.bind_port. rewrite <- bswap_bytes in * by done.
  by rewrite integral_writes, bswap_involutive.
Qed.

Lemma port_reads p : 0 <= p < 65536 -> reads (IPEndpoint.bind_port kDeserialize) (be_bytes 2 p) (λ _, p).
Proof.
  intros Hp o s rest Hwf Hu. unfold IPEndpoint.bind_port. rewrite <- bswap_bytes in * by done.
  rewrite (integral_reads uint16_t _ two_pos (bswap_range p Hp) _ _ _ Hwf Hu).
  by rewrite bswap_involutive.
Qed.

Lemma port_counts p : 0 <= p < 65536 -> counts (IPEndpoint.bind_port kComputeSize) p 2 p.
Proof. intros Hp s. unfold IPEndpoint.bind_port. rewrite integral_counts. by rewrite bswap_involutive. Qed.

Lemma port_short p : short_read (IPEndpoint.bind_port kDeserialize) (be_bytes 2 p).
Proof.
  intros o s Hwf Hp Hne. unfold IPEndpoint.bind_port.
  destruct (integral_short uint16_t (be_bytes 2 p) (length_be_bytes 2 p) (bswap_16 o) s Hwf Hp Hne)
    as (o' & s' & ->). eauto.
Qed.

Lemma seconds_writes t : 0 <= t < 2 ^ 32 -> writes (bind_seconds kSerialize) t (int_bytes uint32_t t) t.
Proof. intros Ht s Hf. unfold bind_seconds, wrap. rewrite Z.mod_small by done. by apply integral_writes. Qed.

Lemma seconds_reads t : 0 <= t < 2 ^ 32 -> reads (bind_seconds kDeserialize) (int_bytes uint32_t t) (λ _, t).
Proof.
  intros Ht o s rest Hwf Hu. unfold bind_seconds.
  by apply (integral_reads uint32_t t TypesTheorems.four_pos Ht _ _ rest).
Qed.

Lemma seconds_counts t : 0 <= t < 2 ^ 32 -> counts (bind_seconds kComputeSize) t 4 t.
Proof. intros Ht s. unfold bind_seconds, wrap. rewrite Z.mod_small by done. done. Qed.

Lemma seconds_short e : length e = 4%nat -> short_read (bind_seconds kDeserialize) e.
Proof. intros He o s. by apply (integral_short uint32_t e He). Qed.

(** *** Serialization of endpoints and services *)

Definition endpoint_ok (e : IPEndpoint.t) : Prop :=
  address_ok (IPEndpoint.address_ e) /\ 0 <= IPEndpoint.port_ e < 65536.

Definition service_ok (o : NodeService.t) : Prop :=
  0 <= NodeService.time_ o < 2 ^ 32 /\ 0 <= NodeService.services_ o < 2 ^ 64 /\
  endpoint_ok (NodeService.endpoint_ o).

#[global] Instance endpoint_ok_dec e : Decision (endpoint_ok e).
Proof. unfold endpoint_ok. apply _. Defined.
#[global] Instance service_ok_dec o : Decision (service_ok o).
Proof. unfold service_ok. apply _. Defined.

Section boost.
Context `{BoostLaws}.

Definition endpoint_bytes (e : IPEndpoint.t) : Bytes :=
  addr_bytes (IPEndpoint.address_ e) ++ be_bytes 2 (IPEndpoint.port_ e).
Definition endpoint_decoded (e : IPEndpoint.t) : IPEndpoint.t :=
  IPEndpoint.set_address (addr_decoded (IPEndpoint.address_ e)) e.

Lemma endpoint_writes e : endpoint_ok e ->
  writes (IPEndpoint.serialization kSerialize) e (endpoint_bytes e) e.
Proof. intros [Ha Hp]. destruct e. writes_members; [apply addr_writes | by apply port_writes]. Qed.

Lemma endpoint_reads e : endpoint_ok e ->
  reads (IPEndpoint.serialization kDeserialize) (endpoint_bytes e) (λ _, endpoint_decoded e).
Proof.
  intros [Ha Hp]. eapply reads_ext.
  { eapply reads_then; apply reads_field; [by apply addr_reads | by apply port_reads]. }
  by intros [].
Qed.

Lemma endpoint_counts e : endpoint_ok e -> counts (IPEndpoint.serialization kComputeSize) e 18 e.
Proof.
  intros [Ha Hp]. destruct e as [a p]. change 18 with (16 + 2). counts_members; [by intros ? | by apply port_counts].
Qed.

Lemma endpoint_short e : endpoint_ok e -> short_read (IPEndpoint.serialization kDeserialize) (endpoint_bytes e).
Proof.
  intros [Ha Hp]. eapply short_read_then; [by apply short_read_field, addr_short | |].
  - by apply reads_field, addr_reads.
  - apply short_read_field, port_short.
Qed.

Lemma zlen_endpoint e : endpoint_ok e -> zlen (endpoint_bytes e) = 18.
Proof.
  intros [Ha Hp]. unfold endpoint_bytes. rewrite zlen_app, length_addr_bytes, length_be_bytes by done. done.
Qed.

Definition version_service_bytes (o : NodeService.t) : Bytes :=
  int_bytes uint64_t (NodeService.services_ o) ++ endpoint_bytes (NodeService.endpoint_ o).
Definition service_bytes (o : NodeService.t) : Bytes :=
  int_bytes uint32_t (NodeService.time_ o) ++ version_service_bytes o.
Definition service_decoded (o : NodeService.t) : NodeService.t :=
  NodeService.set_endpoint (endpoint_decoded (NodeService.endpoint_ o)) o.

Lemma eight_pos : (0 < ssizeof uint64_t)%nat.
Proof. simpl. lia. Qed.

Lemma service_writes o : service_ok o -> writes (NodeService.serialization kSerialize) o (service_bytes o) o.
Proof.
  intros (Ht & Hs & He). destruct o.
  writes_members; auto using seconds_writes, integral_writes, endpoint_writes.
Qed.

Lemma service_reads o : service_ok o ->
  reads (NodeService.serialization kDeserialize) (service_bytes o) (λ _, service_decoded o).
Proof.
  intros (Ht & Hs & He). eapply reads_ext.
  { eapply reads_then; [by apply reads_field, seconds_reads|].
    eapply reads_then; apply reads_field; [by apply integral_reads; [apply eight_pos|] | by apply endpoint_reads]. }
  by intros [].
Qed.

Lemma service_counts o : service_ok o -> counts (NodeService.serialization kComputeSize) o kAddrItemSize o.
Proof.
  intros (Ht & Hs & He). destruct o. change kAddrItemSize with (4 + (8 + 18)).
  counts_members; [by apply seconds_counts | by intros ? | by apply endpoint_counts].
Qed.

Lemma service_short o : service_ok o -> short_read (NodeService.serialization kDeserialize) (service_bytes o).
Proof.
  intros (Ht & Hs & He).
  eapply short_read_then; [apply short_read_field, seconds_short, length_int_bytes | by apply reads_field, seconds_reads |].
  eapply short_read_then; [apply short_read_field, integral_short, length_int_bytes
    | by apply reads_field, integral_reads; [apply eight_pos|] |].
  by apply short_read_field, endpoint_short.
Qed.

Lemma zlen_service o : service_ok o -> zlen (service_bytes o) = kAddrItemSize.
Proof.
  intros (Ht & Hs & He). unfold service_bytes, version_service_bytes.
  rewrite !zlen_app, !length_int_bytes, zlen_endpoint by done. done.
Qed.

Lemma version_service_writes o : service_ok o ->
  writes (VersionNodeService.serialization kSerialize) o (version_service_bytes o) o.
Proof. intros (Ht & Hs & He). destruct o. writes_members; auto using integral_writes, endpoint_writes. Qed.

Lemma version_service_reads o : service_ok o ->
  reads (VersionNodeService.serialization kDeserialize) (version_service_bytes o)
    (λ o0, NodeService.set_time (NodeService.time_ o0) (service_decoded o)).
Proof.
  intros (Ht & Hs & He). eapply reads_ext.
  { eapply reads_then; apply reads_field; [by apply integral_reads; [apply eight_pos|] | by apply endpoint_reads]. }
  by intros [].
Qed.

Lemma version_service_counts o : service_ok o ->
  counts (VersionNodeService.serialization kComputeSize) o (zlen (version_service_bytes o)) o.
Proof.
  intros (Ht & Hs & He). unfold version_service_bytes. rewrite zlen_app, (zlen_endpoint _ He).
  destruct o. counts_members; [apply integral_counts | by apply endpoint_counts].
Qed.

(** The persisted description of a service; its references are not stored. *)
Definition info_ok (o : NodeServiceInfo.t) : Prop :=
  service_ok (NodeServiceInfo.service_ o) /\ string_ok (NodeServiceInfo.user_agent_ o) /\
  address_ok (NodeServiceInfo.origin_ o) /\ 0 <= NodeServiceInfo.last_connection_attempt_ o < 2 ^ 32 /\
  0 <= NodeServiceInfo.last_connection_success_ o < 2 ^ 32 /\
  0 <= NodeServiceInfo.connection_attempts_ o < 2 ^ 32 /\ 0 <= NodeServiceInfo.random_pos_ o < 2 ^ 32.

Definition info_bytes (o : NodeServiceInfo.t) : Bytes :=
  service_bytes (NodeServiceInfo.service_ o) ++ string_bytes (NodeServiceInfo.user_agent_ o) ++
  addr_bytes (NodeServiceInfo.origin_ o) ++ int_bytes uint32_t (NodeServiceInfo.last_connection_attempt_ o) ++
  int_bytes uint32_t (NodeServiceInfo.last_connection_success_ o) ++
  int_bytes uint32_t (NodeServiceInfo.connection_attempts_ o) ++ int_bytes uint32_t (NodeServiceInfo.random_pos_ o).

Definition info_decoded (o o0 : NodeServiceInfo.t) : NodeServiceInfo.t :=
  NodeServiceInfo.mk (service_decoded (NodeServiceInfo.service_ o)) (NodeServiceInfo.user_agent_ o)
    (addr_decoded (NodeServiceInfo.origin_ o)) (NodeServiceInfo.last_connection_attempt_ o)
    (NodeServiceInfo.last_connection_success_ o) (NodeServiceInfo.connection_attempts_ o)
    (NodeServiceInfo.random_pos_ o) (NodeServiceInfo.tried_ref_ o0) (NodeServiceInfo.new_refs_ o0).

Lemma info_writes o : info_ok o -> writes (NodeServiceInfo.serialization kSerialize) o (info_bytes o) o.
Proof.
  intros (Hs & Hu & Ha & H1 & H2 & H3 & H4). destruct o.
  writes_members; auto using service_writes, string_writes, addr_writes, seconds_writes, integral_writes.
Qed.

Lemma info_reads o : info_ok o ->
  reads (NodeServiceInfo.serialization kDeserialize) (info_bytes o) (info_decoded o).
Proof.
  intros (Hs & Hu & Ha & H1 & H2 & H3 & H4). eapply reads_ext.
  { eapply reads_then; [by apply reads_field, service_reads|].
    eapply reads_then; [by apply reads_field, string_reads|].
    eapply reads_then; [by apply reads_field, addr_reads|].
    do 2 (eapply reads_then; [by apply reads_field, seconds_reads|]).
    eapply reads_then; apply reads_field, integral_reads; (apply TypesTheorems.four_pos || done). }
  by intros [].
Qed.

(** An advertised service takes 30 octets on the wire, 26 in a version
    message where its time is left out, and the port goes most significant
    octet first; reading the octets back restores the service and the persisted
    record of a node, except for IPv6 addresses within ::/64; and a shorter
    input is a read overflow. *)
Theorem node_service_wire (o o0 : NodeService.t) (i i0 : NodeServiceInfo.t) (s : SDataStream.t) :
  service_ok o -> info_ok i -> wf s -> unread s = [] -> fits s (info_bytes i) -> fits s (service_bytes o) ->
  zlen (service_bytes o) = 30 /\ zlen (version_service_bytes o) = 26 /\
  (serialized_size NodeService.serialization o (SDataStream.make kNetwork 0)).1 = (30, o) /\
  (exists s1 s2, serialize NodeService.serialization o s = (Success (), o, s1) /\
    unread s1 = service_bytes o /\
    deserialize NodeService.serialization o0 s1 = (Success (), service_decoded o, s2) /\ unread s2 = []) /\
  (exists s1 s2, serialize NodeServiceInfo.serialization i s = (Success (), i, s1) /\
    deserialize NodeServiceInfo.serialization i0 s1 = (Success (), info_decoded i i0, s2) /\ unread s2 = []) /\
  (forall s', wf s' -> unread s' `prefix_of` service_bytes o -> unread s' <> service_bytes o ->
    (deserialize NodeService.serialization o0 s').1.1 = Failure (SerError kReadOverflow)).
Proof.
  intros Ho Hi Hwf Hu Hf Hfs. split_and!.
  - by apply zlen_service.
  - pose proof (zlen_service o Ho) as Hz. unfold service_bytes in Hz.
    rewrite zlen_app, length_int_bytes in Hz. unfold kAddrItemSize in Hz. simpl ssizeof in Hz. lia.
  - unfold serialized_size. by rewrite (service_counts o Ho).
  - exists (append (service_bytes o) s), (advance (zlen (service_bytes o)) (append (service_bytes o) s)).
    assert (Hu' : unread (append (service_bytes o) s) = service_bytes o) by (by rewrite unread_append, Hu).
    pose proof (wf_append _ _ Hwf Hfs). split_and!; [by apply service_writes | done | |].
    + apply (service_reads o Ho o0 _ []); [done | by rewrite app_nil_r].
    + apply Laws.unread_advance; [done | by rewrite app_nil_r].
  - apply (roundtrip_of_laws NodeServiceInfo.serialization i (info_bytes i) i (info_decoded i));
      auto using info_writes, info_reads.
  - intros s' Hwf' Hp Hne. destruct (service_short o Ho o0 s' Hwf' Hp Hne) as (o' & s'' & E).
    unfold deserialize. by rewrite E.
Qed.
End boost.

(** *** Text of endpoints *)

Lemma match_octet_decimal x rest : is_byte x -> (forall c r, rest = c :: r -> is_digit c = false) ->
  IPAddress.match_octet (decimal x ++ rest) = Some (decimal x, rest).
Proof.
  intros Hx Hr. unfold IPAddress.match_octet. rewrite span_octet by done.
  assert (Hlo : decimal x <> []) by apply decimal_neq_nil.
  assert (Hhi : (length (decimal x) <= 3)%nat).
  { unfold decimal, is_byte in *. case_cmp; [lia|]. apply length_decimal_fuel. simpl. lia. }
  destruct (decimal x) as [|c l]; [done|]. zlens. simpl length in Hhi.
  rewrite !(proj2 (Z.leb_le _ _)) by lia. done.
Qed.

Lemma match_octets_dotted b rest : bytes_ok b -> length b = 4%nat ->
  (forall c r, rest = c :: r -> is_digit c = false) ->
  IPAddress.match_octets 3 (dotted b ++ rest) = Some (dotted b, rest).
Proof.
  intros Hb Hl Hr. destruct (quad_cases b Hb Hl) as (w & x & y & z & -> & Hw & Hx & Hy & Hz).
  unfold dotted. rewrite <- !app_assoc. cbn [app IPAddress.match_octets].
  do 3 (rewrite match_octet_decimal; [|done | by intros ?? [= <- _]]; cbv iota; cbn [IPAddress.match_octets]).
  by rewrite match_octet_decimal by done.
Qed.

Lemma match_octets_point n l p : IPAddress.match_octets (S n) l = Some p -> 46 ∈ l.
Proof.
  cbn [IPAddress.match_octets]. unfold IPAddress.match_octet.
  destruct (span_digits l) as [ds rest] eqn:E. destruct (_ && _); [|done].
  apply span_digits_spec in E as (-> & _ & _). destruct rest as [|c r]; [done|].
  case_cmp; [subst; set_solver | done].
Qed.

Lemma span_hex_colon_app l rest : Forall (λ c, is_hex_colon c = true) l ->
  (forall c r, rest = c :: r -> is_hex_colon c = false) ->
  IPAddress.span_hex_colon (l ++ rest) = (l, rest).
Proof.
  intros Hl Hr. induction Hl as [|c l Hc _ IH]; simpl.
  - destruct rest as [|c r]; [done|]. simpl. by rewrite (Hr c r).
  - by rewrite Hc, IH.
Qed.

Lemma match_port_decimal p : 0 <= p -> IPAddress.match_port (58 :: decimal p) = Some (Some (decimal p)).
Proof.
  intros Hp. unfold IPAddress.match_port. simpl.
  rewrite bool_decide_eq_false_2 by apply decimal_neq_nil. simpl.
  rewrite (proj2 (forallb_forall _ _)); [done|]. intros c Hc.
  pose proof (decimal_digits p Hp) as Hd. unfold all_digits in Hd. rewrite Forall_forall in Hd.
  apply Hd. by apply list_elem_of_In.
Qed.

Lemma skip_open_sub c l : c ∈ IPAddress.skip_open l -> c ∈ l.
Proof. destruct l as [|x l]; simpl; [done|]. case_cmp; [|done]. intros. apply elem_of_cons. by right. Qed.

(** A text with no point is no IPv4 address, embedded or not. *)
Lemma no_embedded_v4 l : 46 ∉ l -> IPAddress.kIPv6IPv4Pattern l = None.
Proof.
  intros Hl. unfold IPAddress.kIPv6IPv4Pattern. destruct (bool_decide _); [|done].
  destruct (IPAddress.match_octets 3 _) as [[text rest]|] eqn:E; [|done].
  apply match_octets_point in E. destruct Hl. apply skip_open_sub.
  rewrite <- (take_drop 7 (IPAddress.skip_open l)). apply elem_of_app. by right.
Qed.

Lemma digit_not_open c l : is_digit c = true ->
  IPAddress.skip_open (c :: l) = c :: l /\ IPAddress.kIPv6IPv4Pattern (c :: l) = None.
Proof.
  intros Hc. unfold is_digit in Hc. prop_bools.
  assert (E : IPAddress.skip_open (c :: l) = c :: l) by (simpl; case_cmp; [lia | done]).
  split; [done|]. unfold IPAddress.kIPv6IPv4Pattern. rewrite E. rewrite bool_decide_eq_false_2; [done|].
  simpl. intros [= Ec]. unfold tolower in Ec. destruct (_ && _) eqn:Eu; prop_bools; lia.
Qed.

Lemma dotted_head b : bytes_ok b -> length b = 4%nat ->
  exists c l, is_digit c = true /\ dotted b = c :: l.
Proof.
  intros Hb Hl. destruct (quad_cases b Hb Hl) as (w & x & y & z & -> & Hw & _). unfold dotted.
  pose proof (decimal_neq_nil w). unfold is_byte in Hw. pose proof (decimal_digits w ltac:(lia)) as Hd.
  destruct (decimal w) as [|c l]; [done|]. apply Forall_cons in Hd as [? _]. simpl. eauto.
Qed.

(** The run of hexadecimal digits and colons stops at the first point. *)
Lemma dotted_not_v6 b rest : bytes_ok b -> length b = 4%nat ->
  IPAddress.kIPv6Pattern (dotted b ++ rest) = None.
Proof.
  intros Hb Hl. destruct (dotted_head b Hb Hl) as (c & l & Hc & E).
  unfold IPAddress.kIPv6Pattern. rewrite E. cbn [app].
  rewrite (proj1 (digit_not_open c (l ++ rest) Hc)). rewrite app_comm_cons, <- E.
  destruct (quad_cases b Hb Hl) as (w & x & y & z & -> & Hw & _). unfold dotted.
  rewrite <- app_assoc, span_hex_colon_app.
  - destruct (bool_decide _); [done|]. done.
  - unfold is_byte in Hw. eapply Forall_impl; [apply decimal_digits; lia|].
    intros d Hd. unfold is_hex_colon. simpl in Hd. by rewrite Hd.
  - by intros ?? [= <- _].
Qed.

Section text.
Context `{BoostLaws}.

Lemma address_text_v4 b : bytes_ok b -> length b = 4%nat ->
  IPAddress.from_string (dotted b) = Success (V4 b).
Proof.
  intros Hb Hl. destruct (dotted_head b Hb Hl) as (c & l & Hc & E).
  pose proof (dotted_not_v6 b [] Hb Hl) as H6. rewrite app_nil_r in H6.
  pose proof (match_octets_dotted b [] Hb Hl ltac:(done)) as H4. rewrite app_nil_r in H4.
  unfold IPAddress.from_string, IPAddress.kIPv4Pattern. rewrite H6, H4. simpl.
  rewrite <- v4_to_string_dotted, make_v4_to_string by done. rewrite v4_to_string_dotted, E by done.
  by rewrite (proj2 (digit_not_open c l Hc)).
Qed.

Lemma address_text_v6 b : bytes_ok b -> length b = 16%nat -> le_value (take 10 b) <> 0 ->
  IPAddress.from_string (v6_to_string b) = Success (V6 b) /\ 46 ∉ v6_to_string b.
Proof.
  intros Hb Hl Hz. destruct (v6_to_string_chars b Hb Hl Hz) as [Hne Hch].
  assert (Hp : 46 ∉ v6_to_string b).
  { intros Hin. rewrite Forall_forall in Hch. by apply Hch in Hin. }
  split; [|done]. unfold IPAddress.from_string, IPAddress.kIPv6Pattern.
  destruct (v6_to_string b) as [|c l] eqn:E; [done|]. rewrite no_embedded_v4 by done.
  assert (Ho : IPAddress.skip_open (c :: l) = c :: l).
  { simpl. case_cmp; [|done]. subst. apply Forall_cons in Hch as [Hc _]. done. }
  rewrite Ho, <- (app_nil_r (c :: l)), span_hex_colon_app by done. simpl.
  rewrite <- E, make_v6_to_string by done. done.
Qed.

Lemma bracketed_v6 t p : t <> [] -> Forall (λ c, is_hex_colon c = true) t -> 0 <= p ->
  IPAddress.kIPv6Pattern ([91] ++ t ++ [93] ++ [58] ++ decimal p) = Some (t, Some (decimal p)).
Proof.
  intros Hne Hch Hp. unfold IPAddress.kIPv6Pattern. cbn [app IPAddress.skip_open]. rewrite Z.eqb_refl.
  rewrite span_hex_colon_app by (done || by intros ?? [= <- _]).
  rewrite bool_decide_eq_false_2 by done. cbn [IPAddress.skip_close]. rewrite Z.eqb_refl.
  by rewrite match_port_decimal by lia.
Qed.

Lemma parsed_endpoint a input text p :
  input <> [] -> IPEndpoint.match_groups input = Some (text, Some (decimal p)) ->
  IPAddress.from_string text = Success a -> 0 <= p < 65536 ->
  IPEndpoint.from_string input =
    (if p =? UINT16_MAX then Failure (Errc value_too_large) else Success (IPEndpoint.mk a p)).
Proof.
  intros Hi Hg Ha Hp. unfold IPEndpoint.from_string. destruct input as [|c l]; [done|].
  rewrite Hg, Ha. simpl. rewrite decimal_value by lia. unfold UINT16_MAX. case_cmps; (lia || done).
Qed.

(** Printing an endpoint and parsing the text gives the endpoint back, for
    every IPv4 address and every IPv6 address that embeds none, and every port
    but 65535, which is printed but refused as too large. *)
Theorem endpoint_text (e : IPEndpoint.t) :
  endpoint_ok e -> match IPEndpoint.address_ e with V4 _ => True | V6 b => le_value (take 10 b) <> 0 end ->
  IPEndpoint.from_string (IPEndpoint.to_string e) =
  (if IPEndpoint.port_ e =? UINT16_MAX then Failure (Errc value_too_large) else Success e).
Proof.
  destruct e as [[b|b] p]; intros [[Hb Hl] Hp] Hz; simpl in Hb, Hl, Hp, Hz;
    unfold IPEndpoint.to_string, IPAddress.to_string; simpl IPEndpoint.address_;
    simpl IPEndpoint.port_.
  - destruct (dotted_head b Hb Hl) as (c & l & Hc & E). rewrite v4_to_string_dotted by done.
    apply (parsed_endpoint (V4 b) _ (dotted b)); [by rewrite E | | by apply address_text_v4 | done].
    unfold IPEndpoint.match_groups, IPAddress.kIPv4Pattern.
    rewrite match_octets_dotted by (done || by intros ?? [= <- _]).
    cbn [app]. rewrite match_port_decimal by lia. rewrite E. cbn [app].
    by rewrite (proj2 (digit_not_open c _ Hc)).
  - destruct (address_text_v6 b Hb Hl Hz) as [Ht Hpt].
    destruct (v6_to_string_chars b Hb Hl Hz) as [Hne Hch].
    set (t := v6_to_string b) in *. rewrite <- !app_assoc.
    apply (parsed_endpoint (V6 b) _ t); [done | | done | done].
    unfold IPEndpoint.match_groups. rewrite no_embedded_v4; [by apply bracketed_v6; [..|lia]|].
    rewrite !elem_of_app. intros [?|[?|[?|[?|Hd]]]]; [set_solver..|].
    pose proof (decimal_digits p ltac:(lia)) as Hd'. unfold all_digits in Hd'.
    rewrite Forall_forall in Hd'. by apply Hd' in Hd.
Qed.
End text.

(** *** Subnets *)

Lemma be_bytes_4 z :
  [Z.land (Z.shiftr z 24) 0xFF; Z.land (Z.shiftr z 16) 0xFF; Z.land (Z.shiftr z 8) 0xFF; Z.land z 0xFF]
  = be_bytes 4 z.
Proof.
  change 0xFF with (Z.ones 8). rewrite !Z.land_ones, !Z.shiftr_div_pow2 by lia.
  change (be_bytes 4 z) with [z / 256 / 256 / 256 mod 256; z / 256 / 256 mod 256; z / 256 mod 256; z mod 256].
  rewrite !Z.div_div by lia. done.
Qed.

Lemma mask_v4_bound p : 0 < p -> exists m, IPSubNet.mask_v4 p = Success m /\ 0 <= m < 2 ^ 32.
Proof.
  intros Hp. unfold IPSubNet.mask_v4. case_cmp; [lia|]. eexists. split; [done|].
  apply Z.mod_pos_bound. lia.
Qed.

Lemma land_bound m x : 0 <= m < 2 ^ 32 -> 0 <= x -> 0 <= Z.land m x < 2 ^ 32.
Proof.
  intros Hm Hx. replace (Z.land m x) with (Z.land m x mod 2 ^ 32); [apply Z.mod_pos_bound; lia|].
  rewrite <- (Z.land_ones (Z.land m x)), <- Z.land_assoc, (Z.land_comm x), Z.land_assoc by lia.
  by rewrite Z.land_ones, (Z.mod_small m) by lia.
Qed.

Lemma be_value_bound b : bytes_ok b -> 0 <= be_value b < 256 ^ zlen b.
Proof.
  intros Hb. unfold be_value. rewrite <- (length_rev b). apply le_value_bound. auto with znode.
Qed.

Lemma be_bytes_eq_iff n z b : bytes_ok b -> length b = n -> 0 <= z < 256 ^ Z.of_nat n ->
  be_bytes n z = b <-> z = be_value b.
Proof.
  intros Hb Hl Hz. split.
  - intros <-. by rewrite be_value_be_bytes, Z.mod_small.
  - intros ->. by apply be_bytes_be_value.
Qed.

Lemma forallb_combine (l : list (Z * Z)) (s : Bytes) : length l = length s ->
  forallb (λ '(x, m, y), Z.land x m =? y) (combine l s) =
  bool_decide ((λ '(x, m), Z.land x m) <$> l = s).
Proof.
  revert s. induction l as [|[x m] l IH]; intros [|y s] Hl; try done. injection Hl as Hl.
  simpl. rewrite (IH s Hl). case_cmp.
  - subst. simpl. apply bool_decide_ext. split; [intros E; f_equal; exact E | by injection 1].
  - simpl. symmetry. apply bool_decide_eq_false. by injection 1.
Qed.

Lemma land_mask_idem (l m : Bytes) :
  ((λ '(x, m), Z.land x m) <$> combine ((λ '(x, m), Z.land x m) <$> combine l m) m) =
  ((λ '(x, m), Z.land x m) <$> combine l m).
Proof.
  revert m. induction l as [|x l IH]; intros [|y m]; try done. simpl. rewrite IH.
  by rewrite <- Z.land_assoc, Z.land_diag.
Qed.

Section subnets.
Context `{Boost}.

(** Masking an address twice is masking it once. *)
Lemma subnet_base_idem a p n : address_ok a -> 0 < p ->
  IPSubNet.calculate_subnet_base_address a p = Success n ->
  IPSubNet.calculate_subnet_base_address n p = Success n.
Proof.
  destruct a as [b|b]; intros [Hb Hl] Hp; unfold IPSubNet.calculate_subnet_base_address.
  - case_cmp; [done|]. destruct (mask_v4_bound p Hp) as (m & -> & Hm). simpl.
    pose proof (be_value_bound b Hb) as Hv. rewrite Hl in Hv.
    intros [= <-]. rewrite !be_bytes_4. unfold IPSubNet.to_uint.
    rewrite be_value_be_bytes, Z.mod_small by (apply land_bound; [done | lia]).
    rewrite Z.land_assoc, Z.land_diag. done.
  - case_cmp; [done|]. intros [= <-]. by rewrite land_mask_idem.
Qed.

Lemma contains_spec o a : address_ok (IPSubNet.base_address_ o) -> address_ok a ->
  IPSubNet.is_valid o = true -> is_unspecified a = false -> is_loopback a = false ->
  is_v4 a = is_v4 (IPSubNet.base_address_ o) ->
  exists n, IPSubNet.calculate_subnet_base_address a (IPSubNet.prefix_length_ o) = Success n /\
    IPSubNet.contains_address o a = Success (bool_decide (n = IPSubNet.base_address_ o)).
Proof.
  destruct o as [base p]. simpl. intros Hbase Ha Hv Hu Hlo Hsame.
  unfold IPSubNet.contains_address. rewrite Hv, Hu, Hlo. simpl.
  unfold IPSubNet.is_valid in Hv. simpl in Hv. apply andb_prop in Hv as [_ Hv].
  apply andb_prop in Hv as [Hp Hmax]. prop_bools.
  destruct base as [sb|sb], a as [b|b]; try done; simpl in Hmax; destruct Hbase as [Hsb Hsl], Ha as [Hb Hl].
  - unfold IPSubNet.calculate_subnet_base_address. case_cmp; [lia|].
    destruct (mask_v4_bound p Hp) as (m & -> & Hm). simpl. eexists. split; [done|].
    rewrite be_bytes_4. f_equal. unfold IPSubNet.to_uint. rewrite Z.land_comm.
    pose proof (be_value_bound b Hb) as Hvb. rewrite Hl in Hvb.
    pose proof (land_bound m (be_value b) Hm ltac:(lia)) as Hland.
    symmetry. case_cmp.
    + apply bool_decide_eq_true. f_equal. by apply be_bytes_eq_iff.
    + apply bool_decide_eq_false. intros [= E]. by apply be_bytes_eq_iff in E.
  - unfold IPSubNet.calculate_subnet_base_address. case_cmp; [lia|]. eexists. split; [done|].
    rewrite forallb_combine.
    + f_equal. apply bool_decide_ext. split; [by intros -> | by injection 1].
    + rewrite length_combine, Hl, Hsl. unfold IPSubNet.mask_v6. rewrite length_fmap, length_seqZ. done.
Qed.

(** A valid subnet contains exactly the addresses of its own kind that mask
    to its base address, unspecified and loopback addresses apart; so when the
    base address has bits set beyond the prefix, as in 192.168.1.5/24, the
    subnet contains no address at all. *)
Theorem subnet_contains (o : IPSubNet.t) (a : address) :
  address_ok (IPSubNet.base_address_ o) -> address_ok a ->
  IPSubNet.is_valid o = true -> is_unspecified a = false -> is_loopback a = false ->
  is_v4 a = is_v4 (IPSubNet.base_address_ o) ->
  (exists n, IPSubNet.calculate_subnet_base_address a (IPSubNet.prefix_length_ o) = Success n /\
    IPSubNet.contains_address o a = Success (bool_decide (n = IPSubNet.base_address_ o))) /\
  (IPSubNet.calculate_subnet_base_address (IPSubNet.base_address_ o) (IPSubNet.prefix_length_ o)
     <> Success (IPSubNet.base_address_ o) -> IPSubNet.contains_address o a = Success false).
Proof.
  intros Hb Ha Hv Hu Hl Hs.
  destruct (contains_spec o a Hb Ha Hv Hu Hl Hs) as (n & Hn & Hc).
  split; [eauto|]. intros Hhost. rewrite Hc. f_equal. apply bool_decide_eq_false. intros ->.
  apply Hhost. eapply subnet_base_idem; [exact Ha | | exact Hn].
  unfold IPSubNet.is_valid in Hv. prop_bools. lia.
Qed.
End subnets.

(** *** Prefix lengths *)

(** The dotted mask of a prefix length. *)
Definition dotted_mask (p : Z) : Bytes := dotted (be_bytes 4 (2 ^ 32 - 2 ^ (32 - p))).

(** Every dotted mask and every number up to 128 is read as its length, but a
    mask whose ones are not contiguous is accepted as well. *)
Lemma prefix_lengths p : 0 <= p <= 32 ->
  IPSubNet.parse_prefix_length (dotted_mask p) = Success p.
Proof.
  intros Hp. pose (f p := bool_decide (IPSubNet.parse_prefix_length (dotted_mask p) = Success p)).
  apply (bool_decide_eq_true (IPSubNet.parse_prefix_length (dotted_mask p) = Success p)).
  apply (check_range f 0 33); [by vm_compute | lia].
Qed.

Lemma prefix_numbers p : 0 <= p <= 128 -> IPSubNet.parse_prefix_length (decimal p) = Success p.
Proof.
  intros Hp. pose (f p := bool_decide (IPSubNet.parse_prefix_length (decimal p) = Success p)).
  apply (bool_decide_eq_true (IPSubNet.parse_prefix_length (decimal p) = Success p)).
  apply (check_range f 0 129); [by vm_compute | lia].
Qed.

Lemma prefix_not_contiguous :
  IPSubNet.parse_prefix_length (str "255.128.255.0") = Success 17 /\
  IPSubNet.parse_prefix_length (str "255x255x255x0") = Success 24.
Proof. split; by vm_compute. Qed.

(** *** Routable addresses *)

(** The blocks of IPv4 addresses that are not routable, as a base address and a
    prefix length. *)
Definition unroutable_v4 : list (Bytes * Z) :=
  [([0; 0; 0; 0], 32); ([127; 0; 0; 0], 8); ([10; 0; 0; 0], 8); ([172; 16; 0; 0], 12); ([192; 168; 0; 0], 16);
   ([192; 18; 0; 0], 15); ([100; 64; 0; 0], 10); ([192; 0; 2; 0], 24); ([198; 51; 100; 0], 24);
   ([203; 0; 113; 0], 24); ([169; 254; 0; 0], 16)].

Definition in_block (v : Z) (block : Bytes * Z) : bool :=
  (be_value block.1 <=? v) && (v <? be_value block.1 + 2 ^ (32 - block.2)).

Lemma quad_value w x y z : be_value [w; x; y; z] = w * 16777216 + x * 65536 + y * 256 + z.
Proof. unfold be_value. cbn [rev app]. rewrite !le_value_cons. change (le_value []) with 0. lia. Qed.

(** The reservation of an IPv4 address is one of its five kinds or none. *)
Lemma v4_reservation_cases `{Boost} b :
  let a i := octet b i in
  let private := (a 0%nat =? 10) || ((a 0%nat =? 172) && (16 <=? a 1%nat) && (a 1%nat <=? 31))
                 || ((a 0%nat =? 192) && (a 1%nat =? 168)) in
  let inter := (a 0%nat =? 192) && ((a 1%nat =? 18) || (a 1%nat =? 19)) in
  let shared := (a 0%nat =? 100) && ((64 <=? a 1%nat) && (a 1%nat <=? 127)) in
  let docs := ((a 0%nat =? 192) && (a 1%nat =? 0) && (a 2%nat =? 2))
              || ((a 0%nat =? 198) && (a 1%nat =? 51) && (a 2%nat =? 100))
              || ((a 0%nat =? 203) && (a 1%nat =? 0) && (a 2%nat =? 113)) in
  let link := (a 0%nat =? 169) && (a 1%nat =? 254) in
  match IPAddress.address_v4_reservation b with
  | kRFC1918 | kRFC2544 | kRFC3927 | kRFC4862 | kRFC6598 | kRFC5737 | kRFC4193 | kRFC4843 | kRFC3849 => false
  | _ => true
  end = negb (private || inter || shared || docs || link).
Proof.
  unfold IPAddress.address_v4_reservation. cbv beta zeta.
  match goal with |- context [if ?c then kRFC1918 else _] => generalize c; intros c1 end.
  match goal with |- context [if ?c then kRFC2544 else _] => generalize c; intros c2 end.
  match goal with |- context [if ?c then kRFC6598 else _] => generalize c; intros c3 end.
  match goal with |- context [if ?c then kRFC5737 else _] => generalize c; intros c4 end.
  match goal with |- context [if ?c then kRFC3927 else _] => generalize c; intros c5 end.
  by destruct c1, c2, c3, c4, c5.
Qed.

(** Membership in a block, octet by octet. *)
Lemma in_blocks (w x y z a b c : Z) : is_byte w -> is_byte x -> is_byte y -> is_byte z ->
  is_byte a -> is_byte b -> is_byte c ->
  let v := be_value [w; x; y; z] in
  in_block v ([0; 0; 0; 0], 32) = (v =? 0) /\
  in_block v ([a; 0; 0; 0], 8) = (w =? a) /\
  in_block v ([a; b; 0; 0], 16) = (w =? a) && (x =? b) /\
  in_block v ([a; b; c; 0], 24) = (w =? a) && (x =? b) && (y =? c) /\
  in_block v ([172; 16; 0; 0], 12) = (w =? 172) && (16 <=? x) && (x <=? 31) /\
  in_block v ([192; 18; 0; 0], 15) = (w =? 192) && ((x =? 18) || (x =? 19)) /\
  in_block v ([100; 64; 0; 0], 10) = (w =? 100) && ((64 <=? x) && (x <=? 127)).
Proof.
  intros Hw Hx Hy Hz Ha Hb Hc v. unfold v, in_block, is_byte in *. cbn [fst snd]. rewrite !quad_value.
  split_and!; apply eq_true_iff_eq;
    rewrite ?andb_true_iff, ?orb_true_iff, ?Z.leb_le, ?Z.ltb_lt, ?Z.eqb_eq; simpl; lia.
Qed.

Section routable.
Context `{BoostLaws}.

(** An IPv4 address is routable exactly when it is outside a list of eleven
    blocks: the unspecified address, the loopback block, and the blocks the
    sources name by their RFC. The block of RFC 2544 is listed as 192.18.0.0/15,
    so the addresses of 198.18.0.0/15 are routable. *)
Theorem routable_v4 (b : Bytes) :
  bytes_ok b -> length b = 4%nat ->
  IPAddress.is_routable (V4 b) = negb (existsb (in_block (be_value b)) unroutable_v4) /\
  (octet b 0 = 198 -> 18 <= octet b 1 <= 19 -> IPAddress.is_routable (V4 b) = true).
Proof.
  intros Hb Hl. destruct (quad_cases b Hb Hl) as (w & x & y & z & -> & Hw & Hx & Hy & Hz).
  assert (E : IPAddress.is_routable (V4 [w; x; y; z]) = negb (
    (be_value [w; x; y; z] =? 0) || (w =? 127) || (w =? 10) || ((w =? 172) && (16 <=? x) && (x <=? 31)) ||
    ((w =? 192) && (x =? 168)) || ((w =? 192) && ((x =? 18) || (x =? 19))) ||
    ((w =? 100) && ((64 <=? x) && (x <=? 127))) || ((w =? 192) && (x =? 0) && (y =? 2)) ||
    ((w =? 198) && (x =? 51) && (y =? 100)) || ((w =? 203) && (x =? 0) && (y =? 113)) ||
    ((w =? 169) && (x =? 254)))).
  { unfold IPAddress.is_routable, IPAddress.is_valid, IPAddress.is_any, IPAddress.address_reservation.
    rewrite is_unspecified_v4, is_loopback_v4, orb_diag, negb_involutive.
    assert (E0 : bool_decide ([w; x; y; z] = replicate 4 0) = (be_value [w; x; y; z] =? 0)).
    { rewrite quad_value. unfold is_byte in *. apply eq_true_iff_eq.
      rewrite bool_decide_eq_true, Z.eqb_eq. split; [by intros [= -> -> -> ->]|].
      intros E. assert (w = 0 /\ x = 0 /\ y = 0 /\ z = 0) as (-> & -> & -> & ->) by lia. done. }
    assert (E1 : bool_decide (head [w; x; y; z] = Some 127) = (w =? 127)).
    { apply eq_true_iff_eq. rewrite bool_decide_eq_true, Z.eqb_eq. split; [by intros [= ->] | by intros ->]. }
    rewrite E0, E1. destruct (be_value [w; x; y; z] =? 0); [done|]. destruct (w =? 127); [done|].
    simpl orb at 1. cbv iota. rewrite v4_reservation_cases. cbv zeta beta.
    change (octet [w; x; y; z] 0) with w. change (octet [w; x; y; z] 1) with x.
    change (octet [w; x; y; z] 2) with y. f_equal. btauto. }
  split.
  - rewrite E. f_equal. unfold existsb, unroutable_v4.
    destruct (in_blocks w x y z 127 0 0) as (-> & -> & _); [done..|].
    destruct (in_blocks w x y z 10 0 0) as (_ & -> & _); [done..|].
    destruct (in_blocks w x y z 192 168 0) as (_ & _ & -> & _ & -> & -> & ->); [done..|].
    destruct (in_blocks w x y z 169 254 0) as (_ & _ & -> & _); [done..|].
    destruct (in_blocks w x y z 192 0 2) as (_ & _ & _ & -> & _); [done..|].
    destruct (in_blocks w x y z 198 51 100) as (_ & _ & _ & -> & _); [done..|].
    destruct (in_blocks w x y z 203 0 113) as (_ & _ & _ & -> & _); [done..|].
    btauto.
  - change (octet [w; x; y; z] 0) with w. change (octet [w; x; y; z] 1) with x.
    intros -> Hx'. rewrite E, quad_value. unfold is_byte in *. simpl andb.
    rewrite (proj2 (Z.eqb_neq _ 0)), (proj2 (Z.eqb_neq x 51)) by lia. done.
Qed.
End routable.

End AddressesTheorems.
