(* ===== verification/NatOption.v ===== *)
(** * NatOption: the public address of the node

    [infra/nat/option.cpp] and [detector.cpp], and the check of the command line's
    value, [cmd/common/nat_validator.cpp].  What the network answers is an argument. *)
From S2P Require Import Prelude Text Stream Boost Serialize Random Protocol Addresses.

Module Nat.
Section Nat.
Context `{Boost}.

Inductive NatType := kNone | kAuto | kStun | kIp.

Record Option_ := mk { type_ : NatType; address_ : address }.
Definition default_option : Option_ := mk kAuto IPAddress.default_address.

Definition lexical_cast (input : Bytes) (value : Option_) : bool * Option_ :=
  if bool_decide (input = []) then (true, value)
  else if iequals input (str "none") then (true, mk kNone (address_ value))
  else if iequals input (str "stun") then (true, mk kStun (address_ value))
  else if iequals input (str "auto") then (true, mk kAuto (address_ value))
  else
    match IPAddress.from_string input with
    | Success a => (true, mk kIp a)
    | _ => (false, value)
    end.

(** The validator: whether the value is accepted, and the value, which it may rewrite. *)
Definition NatOptionValidator (value : Bytes) : bool * Bytes :=
  if bool_decide (value = []) then (true, str "auto")
  else if iequals value (str "none") then (true, str "none")
  else if iequals value (str "auto") then (true, str "auto")
  else (negb (has_error (IPAddress.from_string value)), value).

(** The local address of a socket, if it connects; the text of the answer, if there is
    one; the octets of the response, if there is one.  An error leaves the option as it is. *)
Definition resolve_local (local : option address) (o : Option_) : Option_ :=
  match local with Some a => mk (type_ o) a | None => o end.

Definition resolve_auto (body : option Bytes) (o : Option_) : Option_ :=
  match body with
  | Some public_ip => match IPAddress.from_string public_ip with Success a => mk (type_ o) a | _ => o end
  | None => o
  end.

(** The message that is sent: random octets, of which the first eight are set. *)
Definition stun_request (draw : nat -> Z -> Z -> Z) : Bytes :=
  [0; 1; 0; 0; 33; 18; 164; 66] ++ drop 8 (Random.get_random_bytes draw 24).

(** [n] octets of the buffer of 64 KiB, which is zero behind the response. *)
Definition octets (data : Bytes) (from n : nat) : Bytes := (λ i, default 0 (data !! i)) <$> seq from n.

Definition resolve_stun (response : option Bytes) (o : Option_) : Option_ :=
  match response with
  | Some data =>
      if le_value (octets data 20 4) =? 1
      then mk (type_ o) (V4 (be_bytes 4 (le_value (octets data 28 4))))
      else mk (type_ o) (V6 (octets data 28 16))
  | None => o
  end.

Definition resolve (local : option address) (body response : option Bytes) (o : Option_) : Option_ :=
  match type_ o with
  | kNone => resolve_local local o
  | kAuto => resolve_auto body o
  | kStun => resolve_stun response o
  | kIp => o
  end.

(** ** Properties *)

Lemma to_upper_letter c k : to_upper c = k -> 65 <= k <= 90 -> c = k \/ c = k + 32.
Proof.
  unfold to_upper. intros <- Hk. destruct (_ && _) eqn:E; prop_bools; [right; lia | by left].
Qed.

Lemma stun_no_address value : iequals value (str "stun") = true -> has_error (IPAddress.from_string value) = true.
Proof.
  intros Hv. apply bool_decide_eq_true in Hv. change (to_upper <$> str "stun") with [83; 84; 85; 78] in Hv.
  destruct value as [|a [|b [|c [|d []]]]]; try done. injection Hv as Ha Hb Hc Hd.
  apply to_upper_letter in Ha; [|lia]. apply to_upper_letter in Hb; [|lia].
  apply to_upper_letter in Hc; [|lia]. apply to_upper_letter in Hd; [|lia].
  destruct Ha as [-> | ->]; destruct Hb as [-> | ->]; destruct Hc as [-> | ->]; destruct Hd as [-> | ->]; reflexivity.
Qed.

(** A value that the validator accepts is converted to an option, which asks for no
    detection by STUN; and an address is what the text says. *)
Lemma validated_option value o : (NatOptionValidator value).1 = true ->
  let r := lexical_cast (NatOptionValidator value).2 o in
  r.1 = true /\ type_ r.2 <> kStun /\
  (type_ r.2 = kIp -> IPAddress.from_string value = Success (address_ r.2)).
Proof.
  unfold NatOptionValidator. case_bool_decide as H1; [done|]. destruct (iequals value (str "none")) eqn:H2; [done|].
  destruct (iequals value (str "auto")) eqn:H3; [done|]. cbn [fst snd]. unfold lexical_cast.
  rewrite bool_decide_eq_false_2, H2, H3 by done. destruct (iequals value (str "stun")) eqn:H4.
  - by rewrite stun_no_address.
  - by destruct (IPAddress.from_string value).
Qed.

(** ** STUN *)

(** A binding response of RFC 5389 whose first attribute is MAPPED-ADDRESS or XOR-MAPPED-ADDRESS: the type, the length,
    the cookie, the identifier of the transaction, then the attribute, of family 1 for IPv4. *)
Definition stun_response (xored : bool) (length_ transaction port addr rest : Bytes) : Bytes :=
  [1; 1] ++ length_ ++ [33; 18; 164; 66] ++ transaction ++ [0; if xored then 32 else 1] ++ [0; 8] ++ [0; 1] ++ port ++ addr ++ rest.

(** The type of the attribute is compared as a host integer of 32 bits together with its length, so that it never
    matches: the four octets of an IPv4 address become the first ones of an IPv6 address.  The request has
    four octets more than its header announces. *)
Lemma stun_misread xored length_ transaction port addr rest o :
  length length_ = 2%nat -> length transaction = 12%nat -> length port = 2%nat -> length addr = 4%nat ->
  resolve_stun (Some (stun_response xored length_ transaction port addr rest)) o = mk (type_ o) (V6 (addr ++ octets rest 0 12)) /\
  forall draw, length (stun_request draw) = 24%nat /\ be_value (take 2 (drop 2 (stun_request draw))) = 0.
Proof.
  intros H1 H2 H3 H4. split; [|by intros draw].
  destruct length_ as [|? [|? []]]; try done. destruct port as [|? [|? []]]; try done. destruct addr as [|? [|? [|? [|? []]]]]; try done.
  do 12 (destruct transaction as [|? transaction]; [done|]). destruct transaction; [|done]. unfold resolve_stun, stun_response.
  by destruct xored.
Qed.
End Nat.
End Nat.
