(* ===== verification/Meters.v ===== *)
(** * Meters

    Models of [src/src/infra/network/ping_meter.cpp] and [traffic_meter.cpp],
    and of the start and stop states of [src/src/infra/concurrency/stoppable.cpp].
    Times are nanoseconds of the steady clock, passed as arguments. *)

From S2P Require Import Prelude.
#[local] Open Scope Z_scope.

(** [duration_cast] truncates towards zero. *)
Definition to_milliseconds (d : Z) : Z := Z.quot d 1000000.
Definition to_seconds (d : Z) : Z := Z.quot d 1000000000.

Module PingMeter.

(** [time_point::min()] is [None]. *)
Record t := mk {
  ping_in_progress_ : bool;
  ping_start_ : option Z;
  ping_nonce_ : option Z;
  ping_duration_ms_ema_ : Z;
  ping_duration_ms_min_ : Z;
  ping_duration_ms_max_ : Z;
}.

Definition fresh : t := mk false (Some 0) None 0 0 0.

Definition start_sample (now : Z) (m : t) : t :=
  if ping_in_progress_ m then m
  else mk true (Some now) (ping_nonce_ m) (ping_duration_ms_ema_ m) (ping_duration_ms_min_ m) (ping_duration_ms_max_ m).

(** The time elapsed since the start; from [time_point::min()] it is not representable. *)
Definition elapsed (now : Z) (m : t) : option Z :=
  match ping_start_ m with Some s => Some (now - s) | None => None end.

(** [average] is the rounded moving average in single precision; the clock is
    read twice. *)
Definition end_sample (average : Z -> Z -> Z) (time_now now : Z) : op t unit :=
  λ m,
    if negb (ping_in_progress_ m) then (Success (), m)
    else
      match elapsed time_now m, elapsed now m with
      | Some d0, Some d =>
          if d0 <? 0 then (Fault AssertionFailed, m)
          else
            let ms := to_milliseconds d in
            let reset e lo hi := mk false None None e lo hi in
            let ema := ping_duration_ms_ema_ m in
            let lo := ping_duration_ms_min_ m in
            let hi := ping_duration_ms_max_ m in
            (Success (),
             if ms <? 0 then reset ema lo hi
             else if ema =? 0 then reset ms ms ms
             else reset (average ms ema) (if ms <? lo then ms else lo) (if hi <? ms then ms else hi))
      | _, _ => (Fault UndefinedBehaviour, m)
      end.

Definition set_nonce (nonce : Z) (m : t) : t :=
  mk (ping_in_progress_ m) (ping_start_ m) (Some nonce) (ping_duration_ms_ema_ m) (ping_duration_ms_min_ m) (ping_duration_ms_max_ m).
Definition get_nonce (m : t) : option Z := ping_nonce_ m.
Definition pending_sample (m : t) : bool := ping_in_progress_ m.
Definition get_ema (m : t) : Z := ping_duration_ms_ema_ m.
Definition get_min (m : t) : Z := ping_duration_ms_min_ m.
Definition get_max (m : t) : Z := ping_duration_ms_max_ m.

Definition pending_sample_duration (now : Z) (m : t) : outcome Z :=
  if negb (ping_in_progress_ m) then Success 0
  else match elapsed now m with
       | Some d => if d <? 0 then Fault AssertionFailed else Success (to_milliseconds d)
       | None => Fault UndefinedBehaviour
       end.

(** A sample in progress has a start. *)
Definition wf (m : t) : Prop := ping_in_progress_ m = true -> is_Some (ping_start_ m).

Lemma wf_fresh : wf fresh.
Proof. done. Qed.

Lemma wf_start now m : wf m -> wf (start_sample now m).
Proof. unfold wf, start_sample. destruct (ping_in_progress_ m) eqn:E; [by rewrite E | intros _ _; eauto]. Qed.

Lemma wf_set_nonce n m : wf m -> wf (set_nonce n m).
Proof. done. Qed.

(** Once a sample has ended there is neither a sample nor a nonce. *)
Lemma end_sample_spec average t0 t1 m : wf m -> ping_in_progress_ m = true ->
  (forall s, ping_start_ m = Some s -> s <= t0) ->
  exists m', end_sample average t0 t1 m = (Success (), m') /\ wf m' /\
    ping_in_progress_ m' = false /\ ping_nonce_ m' = None.
Proof.
  intros Hwf Hp Ht. destruct (Hwf Hp) as [s Hs]. unfold end_sample, elapsed. rewrite Hp, Hs. cbn [negb].
  specialize (Ht s Hs). case_cmp; [lia|]. cbv zeta. eexists. split; [done|].
  repeat case_cmp; by split_and!.
Qed.

End PingMeter.

Module TrafficMeter.

Record t := mk {
  start_time_ : Z;
  interval_time_ : Z;
  cumulative_inbound_bytes_ : Z;
  cumulative_outbound_bytes_ : Z;
  interval_inbound_bytes_ : Z;
  interval_outbound_bytes_ : Z;
}.

Definition fresh (now : Z) : t := mk now now 0 0 0 0.

Definition update_inbound (bytes : Z) (m : t) : t :=
  mk (start_time_ m) (interval_time_ m) (wrap 64 (cumulative_inbound_bytes_ m + bytes)) (cumulative_outbound_bytes_ m)
    (wrap 64 (interval_inbound_bytes_ m + bytes)) (interval_outbound_bytes_ m).

Definition update_outbound (bytes : Z) (m : t) : t :=
  mk (start_time_ m) (interval_time_ m) (cumulative_inbound_bytes_ m) (wrap 64 (cumulative_outbound_bytes_ m + bytes))
    (interval_inbound_bytes_ m) (wrap 64 (interval_outbound_bytes_ m + bytes)).

Definition get_cumulative_bytes (m : t) : Z * Z := (cumulative_inbound_bytes_ m, cumulative_outbound_bytes_ m).

(** [seconds ? bytes / seconds : bytes], the seconds as an unsigned long. *)
Definition per_second (bytes elapsed : Z) : Z :=
  let s := wrap 64 (to_seconds elapsed) in if s =? 0 then bytes else bytes / s.

Definition get_cumulative_speed (now : Z) (m : t) : Z * Z :=
  (per_second (cumulative_inbound_bytes_ m) (now - start_time_ m),
   per_second (cumulative_outbound_bytes_ m) (now - start_time_ m)).

Definition reset_intervals (now : Z) (m : t) : t :=
  mk (start_time_ m) now (cumulative_inbound_bytes_ m) (cumulative_outbound_bytes_ m) 0 0.

Definition get_interval_bytes (reset_interval : bool) (now : Z) (m : t) : Z * Z * t :=
  (interval_inbound_bytes_ m, interval_outbound_bytes_ m, if reset_interval then reset_intervals now m else m).

Definition get_interval_speed (reset_interval : bool) (now : Z) (m : t) : Z * Z * t :=
  (per_second (interval_inbound_bytes_ m) (now - interval_time_ m),
   per_second (interval_outbound_bytes_ m) (now - interval_time_ m),
   if reset_interval then reset_intervals now m else m).

Definition reset (now : Z) (m : t) : t := fresh now.

(** What the intervals report adds up to the cumulative count. *)
Inductive event := Inbound (n : Z) | Outbound (n : Z) | Report (now : Z).

Definition step (e : event) (st : t * (Z * Z)) : t * (Z * Z) :=
  let (m, reported) := st in
  match e with
  | Inbound n => (update_inbound n m, reported)
  | Outbound n => (update_outbound n m, reported)
  | Report now =>
      let '(i, o, m') := get_interval_bytes true now m in (m', (reported.1 + i, reported.2 + o))
  end.

Lemma intervals_sum es now :
  let '(m, (ri, ro)) := foldl (λ st e, step e st) (fresh now, (0, 0)) es in
  wrap 64 (ri + interval_inbound_bytes_ m) = cumulative_inbound_bytes_ m /\
  wrap 64 (ro + interval_outbound_bytes_ m) = cumulative_outbound_bytes_ m.
Proof.
  set (P := λ st : t * (Z * Z), let '(m, (ri, ro)) := st in
    wrap 64 (ri + interval_inbound_bytes_ m) = cumulative_inbound_bytes_ m /\
    wrap 64 (ro + interval_outbound_bytes_ m) = cumulative_outbound_bytes_ m).
  assert (Hstep : forall e st, P st -> P (step e st)).
  { intros e [m [ri ro]] [H1 H2]. unfold wrap in *. destruct e; simpl; unfold wrap.
    - rewrite <- H1, Zplus_mod_idemp_r, Zplus_mod_idemp_l, Z.add_assoc. done.
    - rewrite <- H2, Zplus_mod_idemp_r, Zplus_mod_idemp_l, Z.add_assoc. done.
    - rewrite !Z.add_0_r. done. }
  enough (H : forall st, P st -> P (foldl (λ st e, step e st) st es)) by (apply H; done).
  induction es as [|e es IH]; intros st Hst; [done|]. simpl. apply IH, Hstep, Hst.
Qed.

End TrafficMeter.

(** ** Stoppable *)

Module Stoppable.

Inductive ComponentStatus := kNotStarted | kStarted | kStopping.

#[global] Instance ComponentStatus_dec : EqDecision ComponentStatus.
Proof. solve_decision. Defined.

Definition start (s : ComponentStatus) : bool * ComponentStatus :=
  match s with kNotStarted => (true, kStarted) | _ => (false, s) end.
Definition stop (s : ComponentStatus) : bool * ComponentStatus :=
  match s with kStarted => (true, kStopping) | _ => (false, s) end.
Definition is_running (s : ComponentStatus) : bool := bool_decide (s = kStarted).
Definition set_stopped (s : ComponentStatus) : ComponentStatus := kNotStarted.

(** [wait_stopped] of one thread and [set_stopped] of another.  The waiter holds its mutex while it looks at the
    state, and gives it back when it blocks; [set_stopped] takes no mutex, so that its two halves may come anywhere. *)
Inductive waiter := Looking | About | Blocked | Returned.
Inductive wait_event := Look | Block | Store | Notify | Spurious.

Definition wait_step (e : wait_event) (s : ComponentStatus * waiter) : option (ComponentStatus * waiter) :=
  match e, s with
  | Look, (st, Looking) => Some (st, if bool_decide (st = kNotStarted) then Returned else About)
  | Block, (st, About) => Some (st, Blocked)
  | Store, (st, w) => Some (set_stopped st, w)
  | Notify, (st, Blocked) | Spurious, (st, Blocked) => Some (st, Looking)
  | Notify, s => Some s
  | _, _ => None
  end.

Fixpoint wait_run (l : list wait_event) (s : ComponentStatus * waiter) : option (ComponentStatus * waiter) :=
  match l with
  | [] => Some s
  | e :: l => match wait_step e s with Some s => wait_run l s | None => None end
  end.

(** A wait that comes back has seen the end; but a component that is stopped between the look at the state and the
    block is waited for until it is stopped again or the wake up is spurious. *)
Lemma wait_safe l s : wait_run l (kStopping, Looking) = Some s -> s.2 = Returned -> s.1 = kNotStarted.
Proof.
  assert (K : forall l s s', (s.2 = Returned -> s.1 = kNotStarted) -> wait_run l s = Some s' -> s'.2 = Returned -> s'.1 = kNotStarted).
  { clear. intros l. induction l as [|e l IH]; intros s s' Hs; cbn [wait_run]; [by intros [= <-]|].
    destruct (wait_step e s) as [s1|] eqn:E; [|done]. apply IH. clear IH. destruct s as [st w]. cbn in Hs.
    destruct e, w; cbn in E; simplify_eq; cbn; try done. case_bool_decide; done. }
  intros E. by apply (K l (kStopping, Looking)).
Qed.

Lemma wait_lost : exists s, wait_run [Look; Store; Notify; Block] (kStopping, Looking) = Some s /\ s.1 = kNotStarted /\
  forall l s', forallb (λ e, match e with Notify | Spurious => false | _ => true end) l = true -> wait_run l s = Some s' -> s'.2 = Blocked.
Proof.
  exists (kNotStarted, Blocked). split; [done|]. split; [done|]. intros l.
  assert (K : forall st s', forallb (λ e, match e with Notify | Spurious => false | _ => true end) l = true -> wait_run l (st, Blocked) = Some s' -> s'.2 = Blocked).
  { induction l as [|e l IH]; intros st s' Hl; cbn [wait_run]; [by intros [= <-]|]. destruct e; try done. cbn in *. by apply IH. }
  apply K.
Qed.

End Stoppable.

(** ** The clock *)

Module Clock.

(** The verdict on the answer of the time server: [len] octets, with the transmitted
    time in seconds since 1900.  The conversion of the difference from [double] is
    defined for the differences that fit 32 bits, which are all until 2106. *)
Definition check_system_time (len transmitted_time system_time max_skew_seconds : Z) : outcome unit :=
  if negb (len =? 48) then Failure (NetError kInvalidNtpResponse)
  else
    let transmitted_time := wrap 32 (transmitted_time - 2208988800) in
    if negb (max_skew_seconds =? 0) then
      let delta_time := wrap 32 (Z.abs (system_time - transmitted_time)) in
      if max_skew_seconds <? delta_time then Failure (NetError kInvalidSystemTime) else Success ()
    else Success ().

(** The seconds since 1900 wrap around in 2036, the check does not: any time of the
    server that fits 32 bits since 1970 is compared as it is. *)
Lemma clock_skew server system max_skew : 0 <= server < 2 ^ 32 -> 0 <= system < 2 ^ 32 -> 0 < max_skew ->
  check_system_time 48 (wrap 32 (server + 2208988800)) system max_skew =
    if max_skew <? Z.abs (system - server) then Failure (NetError kInvalidSystemTime) else Success ().
Proof.
  intros Hs Hy Hm. unfold check_system_time. cbv zeta. change (negb (48 =? 48)) with false. cbv iota.
  rewrite (proj2 (Z.eqb_neq _ _)) by lia. cbn [negb]. unfold wrap. rewrite Zminus_mod_idemp_l, Z.add_simpl_r, (Z.mod_small server) by done.
  by rewrite (Z.mod_small (Z.abs _)) by lia.
Qed.

End Clock.
