(* ===== verification/Payloads.v ===== *)
(** * Message payloads

    Model of [src/src/infra/network/payloads.cpp] and [payloads.hpp]: the payload
    classes of protocol messages and their (de)serialization. *)

From S2P Require Import Prelude Text Stream Boost Serialize Types Protocol Addresses.
#[local] Open Scope Z_scope.

(** ** Vectors of serializable items *)

(** The loop over the items, which stops at the first error; every item is
    updated in place. *)
Fixpoint ser_items {T} (b : Ser T) (items : list T) (s : SDataStream.t)
    : outcome unit * list T * SDataStream.t :=
  match items with
  | [] => (Success (), [], s)
  | x :: xs =>
      let '(r, x', s') := b x s in
      match r with
      | Success _ => let '(r', xs', s'') := ser_items b xs s' in (r', x' :: xs', s'')
      | _ => (r, x' :: xs, s')
      end
  end.

(** [std::vector::resize] *)
Definition resize_items {T} (fresh : T) (n : Z) (l : list T) : list T :=
  ztake n l ++ replicate (Z.to_nat n - length l) fresh.

(** The writing half shared by the vector payloads: size checks, count, items. *)
Definition write_vector {T} (item : Ser T) (max : Z) : Ser (list T) :=
  λ items s,
    let vector_size := zlen items in
    if vector_size =? 0 then (Failure (NetError kMessagePayloadEmptyVector), items, s)
    else if max <? vector_size then (Failure (NetError kMessagePayloadOversizedVector), items, s)
    else match SDataStream.lift (write_compact vector_size) s with
         | (Success _, s') => ser_items item items s'
         | (r, s') => (r, items, s')
         end.

(** The reading half: count, size checks, items. *)
Definition read_vector {T} (item : Ser T) (fresh : T) (max : Z) : Ser (list T) :=
  λ items s,
    match SDataStream.lift (read_compact true) s with
    | (Success n, s') =>
        if n =? 0 then (Failure (NetError kMessagePayloadEmptyVector), items, s')
        else if max <? n then (Failure (NetError kMessagePayloadOversizedVector), items, s')
        else ser_items item (resize_items fresh n items) s'
    | (Failure e, s') => (Failure e, items, s')
    | (Fault f, s') => (Fault f, items, s')
    end.

(** ** MsgVersionPayload *)

Module MsgVersionPayload.

Record t := mk {
  protocol_version_ : Z;
  services_ : Z;
  timestamp_ : Z;
  recipient_service_ : NodeService.t;
  sender_service_ : NodeService.t;
  nonce_ : Z;
  user_agent_ : Bytes;
  last_block_height_ : Z;
  relay_ : bool;
}.

Definition fresh : t := mk 0 kNone 0 NodeService.initial NodeService.initial 0 [] 0 false.

Definition set_protocol_version v o := mk v (services_ o) (timestamp_ o) (recipient_service_ o) (sender_service_ o) (nonce_ o) (user_agent_ o) (last_block_height_ o) (relay_ o).
Definition set_services v o := mk (protocol_version_ o) v (timestamp_ o) (recipient_service_ o) (sender_service_ o) (nonce_ o) (user_agent_ o) (last_block_height_ o) (relay_ o).
Definition set_timestamp v o := mk (protocol_version_ o) (services_ o) v (recipient_service_ o) (sender_service_ o) (nonce_ o) (user_agent_ o) (last_block_height_ o) (relay_ o).
Definition set_recipient v o := mk (protocol_version_ o) (services_ o) (timestamp_ o) v (sender_service_ o) (nonce_ o) (user_agent_ o) (last_block_height_ o) (relay_ o).
Definition set_sender v o := mk (protocol_version_ o) (services_ o) (timestamp_ o) (recipient_service_ o) v (nonce_ o) (user_agent_ o) (last_block_height_ o) (relay_ o).
Definition set_nonce v o := mk (protocol_version_ o) (services_ o) (timestamp_ o) (recipient_service_ o) (sender_service_ o) v (user_agent_ o) (last_block_height_ o) (relay_ o).
Definition set_user_agent v o := mk (protocol_version_ o) (services_ o) (timestamp_ o) (recipient_service_ o) (sender_service_ o) (nonce_ o) v (last_block_height_ o) (relay_ o).
Definition set_height v o := mk (protocol_version_ o) (services_ o) (timestamp_ o) (recipient_service_ o) (sender_service_ o) (nonce_ o) (user_agent_ o) v (relay_ o).
Definition set_relay v o := mk (protocol_version_ o) (services_ o) (timestamp_ o) (recipient_service_ o) (sender_service_ o) (nonce_ o) (user_agent_ o) (last_block_height_ o) v.

Section serialization.
Context `{Boost}.

Definition bind_members (action : Action) : Ser t :=
  on_field protocol_version_ set_protocol_version (bind_integral int32_t action) >>>
  on_field services_ set_services (bind_integral uint64_t action) >>>
  on_field timestamp_ set_timestamp (bind_integral int64_t action) >>>
  on_field recipient_service_ set_recipient (VersionNodeService.serialization action) >>>
  on_field sender_service_ set_sender (VersionNodeService.serialization action) >>>
  on_field nonce_ set_nonce (bind_integral uint64_t action) >>>
  on_field user_agent_ set_user_agent (bind_string action) >>>
  on_field last_block_height_ set_height (bind_integral int32_t action) >>>
  on_field relay_ set_relay (bind_bool action).

(** The checks on timestamp and height override the error of a member. *)
Definition serialization (action : Action) : Ser t :=
  λ o s,
    let '(r, o', s') := bind_members action o s in
    match r with
    | Fault f => (Fault f, o', s')
    | _ =>
        if decide (action = kDeserialize) then
          if timestamp_ o' <? 0 then (Failure (NetError kMessagePayloadInvalidTimestamp), o', s')
          else if last_block_height_ o' <? 0 then (Failure (NetError kMessagePayloadInvalidLastBlockHeight), o', s')
          else (r, o', s')
        else (r, o', s')
    end.
End serialization.
End MsgVersionPayload.

(** ** MsgGetHeadersPayload *)

Module MsgGetHeadersPayload.

Record t := mk { protocol_version_ : Z; block_locator_hashes_ : list Bytes; hash_stop_ : Bytes }.

Definition fresh : t := mk 0 [] (Hash.zero h256_size).

Definition set_protocol_version v o := mk v (block_locator_hashes_ o) (hash_stop_ o).
Definition set_hashes v o := mk (protocol_version_ o) v (hash_stop_ o).
Definition set_stop v o := mk (protocol_version_ o) (block_locator_hashes_ o) v.

Definition bind_hashes (action : Action) : Ser (list Bytes) :=
  if decide (action = kSerialize)
  then write_vector (Hash.serialization h256_size kSerialize) kMaxGetHeadersItems
  else read_vector (Hash.serialization h256_size kDeserialize) (Hash.zero h256_size) kMaxHeadersItems.

(** [hash_stop_.serialize] or [hash_stop_.deserialize] *)
Definition bind_stop (action : Action) : Ser Bytes :=
  Hash.serialization h256_size (if decide (action = kSerialize) then kSerialize else kDeserialize).

Definition serialization (action : Action) : Ser t :=
  λ o s,
    let version := if decide (action = kSerialize) then wrap 32 (SDataStream.version_ s) else 0 in
    (on_field protocol_version_ set_protocol_version (bind_integral uint32_t action) >>>
     on_field block_locator_hashes_ set_hashes (bind_hashes action) >>>
     on_field hash_stop_ set_stop (bind_stop action)) (set_protocol_version version o) s.

End MsgGetHeadersPayload.

(** ** MsgAddrPayload and MsgInventoryPayload *)

Module MsgAddrPayload.
Section serialization.
Context `{Boost}.

Definition serialization (action : Action) : Ser (list NodeService.t) :=
  if decide (action = kSerialize)
  then write_vector (NodeService.serialization kSerialize) kMaxAddrItems
  else read_vector (NodeService.serialization kDeserialize) NodeService.initial kMaxAddrItems.
End serialization.
End MsgAddrPayload.

Module MsgInventoryPayload.

Definition serialization (action : Action) : Ser (list InventoryItem.t) :=
  if decide (action = kSerialize)
  then write_vector (InventoryItem.serialization kSerialize) kMaxInvItems
  else read_vector (InventoryItem.serialization kDeserialize) InventoryItem.initial kMaxInvItems.

End MsgInventoryPayload.

(** ** MsgRejectPayload *)

Module MsgRejectPayload.

Record t := mk {
  rejected_command_ : Bytes;
  rejection_code_ : RejectionCode;
  reason_ : Bytes;
  extra_data_ : option Bytes;
}.

Definition fresh : t := mk [] kOk [] None.

Definition set_command v o := mk v (rejection_code_ o) (reason_ o) (extra_data_ o).
Definition set_reason v o := mk (rejected_command_ o) (rejection_code_ o) v (extra_data_ o).
Definition set_extra v o := mk (rejected_command_ o) (rejection_code_ o) (reason_ o) v.

(** A local copy of the code is bound; the member is left as it is. *)
Definition bind_code (action : Action) (code : t -> Z) : Ser t :=
  λ o s, let '(r, _, s') := bind_integral int8_t action (code o) s in (r, o, s').

Definition write (action : Action) : Ser t :=
  λ o s,
    if negb (is_known_command (rejected_command_ o)) then (Failure (NetError kUnknownRejectedCommand), o, s)
    else if 256 <? zlen (reason_ o) then (Failure (SerError kStringTooBig), o, s)
    else (on_field rejected_command_ set_command (bind_string action) >>>
          bind_code action (λ o, code_value (rejection_code_ o)) >>>
          on_field reason_ set_reason (bind_string action) >>>
          (λ o s, match extra_data_ o with
                  | Some h => let '(r, h', s') := Hash.serialization h256_size action h s in (r, set_extra (Some h') o, s')
                  | None => (Success (), o, s)
                  end)) o s.

Definition read (action : Action) : Ser t :=
  on_field rejected_command_ set_command (bind_string action) >>>
  (λ o s, if is_known_command (rejected_command_ o) then (Success (), o, s)
          else (Failure (NetError kUnknownRejectedCommand), o, s)) >>>
  (λ o s, match bind_integral int8_t action 0 s with
          | (Success _, code, s') =>
              match code_cast code with
              | Some _ => (Success (), o, s')
              | None => (Failure (SerError kInvalidRejectionCode), o, s')
              end
          | (r, _, s') => (r, o, s')
          end) >>>
  on_field reason_ set_reason (bind_string action) >>>
  (λ o s,
    if 256 <? zlen (reason_ o) then (Failure (SerError kStringTooBig), o, s)
    else if Z.of_nat h256_size <=? DataStream.avail (SDataStream.base s) then
      match Hash.serialization h256_size action (Hash.zero h256_size) s with
      | (Success _, h, s') => (Success (), set_extra (Some h) o, s')
      | (r, _, s') => (r, o, s')
      end
    else (Success (), o, s)).

Definition serialization (action : Action) : Ser t :=
  if decide (action = kSerialize) then write action else read action.

End MsgRejectPayload.

(** ** MessagePayload *)

Inductive MessagePayload :=
| MsgNull (message_type : MessageType)
| MsgVersion (v : MsgVersionPayload.t)
| MsgPingPong (message_type : MessageType) (nonce_ : Z)
| MsgGetHeaders (g : MsgGetHeadersPayload.t)
| MsgAddr (identifiers_ : list NodeService.t)
| MsgInventory (message_type : MessageType) (items_ : list InventoryItem.t)
| MsgReject (r : MsgRejectPayload.t).

Definition payload_type (p : MessagePayload) : MessageType :=
  match p with
  | MsgNull t => t
  | MsgVersion _ => kVersion
  | MsgPingPong t _ => t
  | MsgGetHeaders _ => kGetHeaders
  | MsgAddr _ => kAddr
  | MsgInventory t _ => t
  | MsgReject _ => kReject
  end.

(** The assertions of the constructors. *)
Definition make_null (t : MessageType) : outcome MessagePayload :=
  if decide (t = kVerAck \/ t = kMemPool \/ t = kGetAddr) then Success (MsgNull t) else Fault AssertionFailed.
Definition make_ping_pong (t : MessageType) (nonce : Z) : outcome MessagePayload :=
  if decide (t = kPing \/ t = kPong) then Success (MsgPingPong t nonce) else Fault AssertionFailed.
Definition make_inventory (t : MessageType) : outcome MessagePayload :=
  if decide (t = kInv \/ t = kGetData \/ t = kNotFound) then Success (MsgInventory t []) else Fault AssertionFailed.

(** [MessagePayload::from_type]; [None] is the null pointer. *)
Definition from_type (t : MessageType) : outcome (option MessagePayload) :=
  match t with
  | kVersion => Success (Some (MsgVersion MsgVersionPayload.fresh))
  | kPing | kPong => let? p := make_ping_pong t 0 in Success (Some p)
  | kGetHeaders => Success (Some (MsgGetHeaders MsgGetHeadersPayload.fresh))
  | kAddr => Success (Some (MsgAddr []))
  | kInv | kGetData | kNotFound => let? p := make_inventory t in Success (Some p)
  | kReject => Success (Some (MsgReject MsgRejectPayload.fresh))
  | kVerAck | kMemPool | kGetAddr | kMissingOrUnknown => let? p := make_null t in Success (Some p)
  | kHeaders => Success None
  end.

Section payload.
Context `{Boost}.

(** The virtual member [serialization]. *)
Definition payload_serialization (action : Action) : Ser MessagePayload :=
  λ p s,
    match p with
    | MsgNull t => (Success (), p, s)
    | MsgVersion v => let '(r, v', s') := MsgVersionPayload.serialization action v s in (r, MsgVersion v', s')
    | MsgPingPong t n => let '(r, n', s') := bind_integral uint64_t action n s in (r, MsgPingPong t n', s')
    | MsgGetHeaders g => let '(r, g', s') := MsgGetHeadersPayload.serialization action g s in (r, MsgGetHeaders g', s')
    | MsgAddr l => let '(r, l', s') := MsgAddrPayload.serialization action l s in (r, MsgAddr l', s')
    | MsgInventory t l => let '(r, l', s') := MsgInventoryPayload.serialization action l s in (r, MsgInventory t l', s')
    | MsgReject j => let '(r, j', s') := MsgRejectPayload.serialization action j s in (r, MsgReject j', s')
    end.
End payload.

(** ** Properties *)

Module PayloadsTheorems.
Import Laws SerializeTheorems TypesTheorems AddressesTheorems.

(** *** Vectors *)

Section vectors.
Context {T : Type} (item : Action -> Ser T) (enc : T -> Bytes) (dec : T -> T).

Definition vector_bytes (l : list T) : Bytes := compact_bytes (zlen l) ++ concat (enc <$> l).

Lemma items_writes l : Forall (λ x, writes (item kSerialize) x (enc x) x) l ->
  writes (ser_items (item kSerialize)) l (concat (enc <$> l)) l.
Proof.
  intros Hl. induction Hl as [|x l Hx _ IH]; intros s Hf; simpl.
  - by rewrite append_nil.
  - simpl in Hf. rewrite Hx by (by eapply fits_app_l). rewrite IH by (by apply fits_append).
    by rewrite append_append.
Qed.

Lemma items_reads l : Forall (λ x, reads (item kDeserialize) (enc x) (λ _, dec x)) l ->
  forall o s rest, length o = length l -> wf s -> unread s = concat (enc <$> l) ++ rest ->
  ser_items (item kDeserialize) o s = (Success (), dec <$> l, advance (zlen (concat (enc <$> l))) s).
Proof.
  intros Hl. induction Hl as [|x l Hx _ IH]; intros [|y o] s rest Ho Hwf Hu; try done; simpl.
  - change (zlen []) with 0. by rewrite advance_0.
  - simpl in Hu. rewrite <- app_assoc in Hu. rewrite (Hx y s _ Hwf Hu).
    rewrite (IH o _ rest); [| by injection Ho | by eapply wf_advance | by eapply Laws.unread_advance].
    by rewrite advance_advance, zlen_app.
Qed.

Lemma vector_writes max l : 0 < zlen l <= max -> max < 2 ^ 64 ->
  Forall (λ x, writes (item kSerialize) x (enc x) x) l ->
  writes (write_vector (item kSerialize) max) l (vector_bytes l) l.
Proof.
  intros Hl Hm Hi s Hf. unfold write_vector, vector_bytes in *. case_cmp; [lia|]. case_cmp; [lia|].
  rewrite write_compact_fits by (lia || by eapply fits_app_l).
  rewrite items_writes by (done || by apply fits_append). by rewrite append_append.
Qed.

Lemma length_resize (fresh : T) n l : 0 <= n -> zlen (resize_items fresh n l) = n.
Proof. intros Hn. unfold resize_items. rewrite zlen_app, zlen_ztake, length_replicate by done. lia. Qed.

Lemma vector_reads fresh max l : 0 < zlen l <= max -> max <= kMaxSerializedCompactSize ->
  Forall (λ x, reads (item kDeserialize) (enc x) (λ _, dec x)) l ->
  reads (read_vector (item kDeserialize) fresh max) (vector_bytes l) (λ _, dec <$> l).
Proof.
  intros Hl Hm Hi o s rest Hwf Hu. unfold read_vector, vector_bytes in *. rewrite <- app_assoc in Hu.
  rewrite (read_compact_ok true (zlen l) _ s Hwf ltac:(unfold kMaxSerializedCompactSize in *; lia) Hu).
  rewrite compact_check_ok by lia. case_cmp; [lia|]. case_cmp; [lia|]. rewrite <- zlen_compact.
  rewrite (items_reads l Hi _ _ rest).
  - by rewrite advance_advance, zlen_app.
  - pose proof (length_resize fresh (zlen l) o ltac:(lia)). lia.
  - by eapply wf_advance.
  - by eapply Laws.unread_advance.
Qed.

Lemma vector_oversized fresh max l rest o s : max < zlen l <= kMaxSerializedCompactSize -> 0 <= max ->
  wf s -> unread s = vector_bytes l ++ rest ->
  (read_vector (item kDeserialize) fresh max o s).1 = (Failure (NetError kMessagePayloadOversizedVector), o).
Proof.
  intros Hl Hm Hwf Hu. unfold read_vector, vector_bytes in *. rewrite <- app_assoc in Hu.
  rewrite (read_compact_ok true (zlen l) _ s Hwf ltac:(unfold kMaxSerializedCompactSize in *; lia) Hu).
  rewrite compact_check_ok by lia. case_cmp; [|lia]. by case_cmp; [lia|].
Qed.

Lemma zlen_concat n l : Forall (λ x, zlen (enc x) = n) l -> zlen (concat (enc <$> l)) = zlen l * n.
Proof. induction 1 as [|x l Hx _ IH]; [done|]. rewrite fmap_cons. cbn [concat]. rewrite zlen_app, zlen_cons, IH, Hx. lia. Qed.

Lemma zlen_vector n l : Forall (λ x, zlen (enc x) = n) l ->
  zlen (vector_bytes l) = ser_compact_sizeof (zlen l) + zlen l * n.
Proof. intros Hl. unfold vector_bytes. by rewrite zlen_app, zlen_compact, (zlen_concat n). Qed.
End vectors.

(** *** Payloads *)

Definition version_ok (v : MsgVersionPayload.t) : Prop :=
  in_range int32_t (MsgVersionPayload.protocol_version_ v) /\
  0 <= MsgVersionPayload.services_ v < 2 ^ 64 /\ 0 <= MsgVersionPayload.timestamp_ v < 2 ^ 63 /\
  service_ok (MsgVersionPayload.recipient_service_ v) /\ service_ok (MsgVersionPayload.sender_service_ v) /\
  0 <= MsgVersionPayload.nonce_ v < 2 ^ 64 /\ string_ok (MsgVersionPayload.user_agent_ v) /\
  0 <= MsgVersionPayload.last_block_height_ v < 2 ^ 31.

Definition reject_ok (r : MsgRejectPayload.t) : Prop :=
  is_known_command (MsgRejectPayload.rejected_command_ r) = true /\
  zlen (MsgRejectPayload.reason_ r) <= 256 /\
  match MsgRejectPayload.extra_data_ r with Some h => hash_ok h256_size h | None => True end.

(** Payloads that respect the ranges of their members and the limits of the
    protocol. *)
Definition payload_ok (p : MessagePayload) : Prop :=
  match p with
  | MsgNull t => t = kVerAck \/ t = kMemPool \/ t = kGetAddr
  | MsgVersion v => version_ok v
  | MsgPingPong t n => (t = kPing \/ t = kPong) /\ 0 <= n < 2 ^ 64
  | MsgGetHeaders g =>
      0 < zlen (MsgGetHeadersPayload.block_locator_hashes_ g) <= kMaxGetHeadersItems /\
      Forall (hash_ok h256_size) (MsgGetHeadersPayload.block_locator_hashes_ g) /\
      hash_ok h256_size (MsgGetHeadersPayload.hash_stop_ g)
  | MsgAddr l => 0 < zlen l <= kMaxAddrItems /\ Forall service_ok l
  | MsgInventory t l => (t = kInv \/ t = kGetData \/ t = kNotFound) /\ 0 < zlen l <= kMaxInvItems /\ Forall item_ok l
  | MsgReject r => reject_ok r
  end.

Section boost.
Context `{BoostLaws}.

Definition version_bytes (v : MsgVersionPayload.t) : Bytes :=
  int_bytes int32_t (MsgVersionPayload.protocol_version_ v) ++ int_bytes uint64_t (MsgVersionPayload.services_ v) ++
  int_bytes int64_t (MsgVersionPayload.timestamp_ v) ++
  version_service_bytes (MsgVersionPayload.recipient_service_ v) ++
  version_service_bytes (MsgVersionPayload.sender_service_ v) ++ int_bytes uint64_t (MsgVersionPayload.nonce_ v) ++
  string_bytes (MsgVersionPayload.user_agent_ v) ++ int_bytes int32_t (MsgVersionPayload.last_block_height_ v) ++
  bool_bytes (MsgVersionPayload.relay_ v).

Definition reject_bytes (r : MsgRejectPayload.t) : Bytes :=
  string_bytes (MsgRejectPayload.rejected_command_ r) ++
  int_bytes int8_t (code_value (MsgRejectPayload.rejection_code_ r)) ++
  string_bytes (MsgRejectPayload.reason_ r) ++ default [] (MsgRejectPayload.extra_data_ r).

(** The octets of a payload, for the protocol version of the stream. *)
Definition payload_bytes (version : Z) (p : MessagePayload) : Bytes :=
  match p with
  | MsgNull _ => []
  | MsgVersion v => version_bytes v
  | MsgPingPong _ n => int_bytes uint64_t n
  | MsgGetHeaders g =>
      int_bytes uint32_t (wrap 32 version) ++
      vector_bytes id (MsgGetHeadersPayload.block_locator_hashes_ g) ++ MsgGetHeadersPayload.hash_stop_ g
  | MsgAddr l => vector_bytes service_bytes l
  | MsgInventory _ l => vector_bytes item_bytes l
  | MsgReject r => reject_bytes r
  end.

(** What the size of the octets is, and how it compares with the limits of the
    message. *)
Lemma zlen_version_service o : service_ok o -> zlen (version_service_bytes o) = 26.
Proof.
  intros Ho. pose proof (zlen_service o Ho) as Hz. unfold service_bytes in Hz.
  rewrite zlen_app, length_int_bytes in Hz. unfold kAddrItemSize in Hz. simpl ssizeof in Hz. lia.
Qed.

Lemma compact_sizeof_bound n m : 0 <= n <= m -> 1 <= ser_compact_sizeof n <= ser_compact_sizeof m.
Proof. intros Hn. unfold ser_compact_sizeof. case_cmps; lia. Qed.

Lemma payload_length version p : payload_ok p ->
  match p with
  | MsgVersion v => payload_lower kVersion <= zlen (payload_bytes version p) /\
      (zlen (payload_bytes version p) <= payload_upper kVersion <-> zlen (MsgVersionPayload.user_agent_ v) <= 936) /\
      zlen (payload_bytes version p) <= zlen (MsgVersionPayload.user_agent_ v) + 94
  | MsgReject r => payload_lower kReject <= zlen (payload_bytes version p) <= payload_upper kReject + 4
  | _ => payload_lower (payload_type p) <= zlen (payload_bytes version p) <= payload_upper (payload_type p)
  end.
Proof.
  destruct p as [t|v|t n|g|l|t l|r]; simpl payload_ok; intros Hp.
  - by destruct Hp as [->|[->| ->]].
  - destruct Hp as (_ & _ & _ & H1 & H2 & _ & Hu & _). cbn [payload_type payload_bytes]. unfold version_bytes, string_bytes.
    rewrite !zlen_app, !length_int_bytes, !zlen_version_service, zlen_compact by done.
    pose proof (compact_sizeof_bound (zlen (MsgVersionPayload.user_agent_ v)) 936) as L1.
    pose proof (compact_sizeof_bound 937 (zlen (MsgVersionPayload.user_agent_ v))) as L2.
    pose proof (compact_sizeof_bound (zlen (MsgVersionPayload.user_agent_ v)) (2 ^ 32)) as L3.
    change (ser_compact_sizeof 936) with 3 in L1. change (ser_compact_sizeof 937) with 3 in L2. change (ser_compact_sizeof (2 ^ 32)) with 9 in L3.
    change (payload_lower kVersion) with 46. change (payload_upper kVersion) with 1024.
    unfold bool_bytes. simpl ssizeof. simpl length. unfold string_ok, kMaxSerializedCompactSize in Hu. lia.
  - destruct Hp as [[->| ->] _]; cbn [payload_type payload_bytes]; by rewrite length_int_bytes.
  - destruct Hp as (Hl & Hh & [_ Hs]). cbn [payload_type payload_bytes].
    rewrite !zlen_app, length_int_bytes, Hs.
    rewrite (zlen_vector id 32) by (eapply Forall_impl; [exact Hh|]; intros h [_ E]; unfold id; by rewrite E).
    pose proof (compact_sizeof_bound _ _ (conj (Z.lt_le_incl _ _ (proj1 Hl)) (proj2 Hl))) as Hc.
    change (ser_compact_sizeof kMaxGetHeadersItems) with 3 in Hc. unfold kMaxGetHeadersItems in Hl.
    change (payload_lower kGetHeaders) with 69. change (payload_upper kGetHeaders) with 64039.
    unfold h256_size. simpl ssizeof. lia.
  - destruct Hp as (Hl & Hs). cbn [payload_type payload_bytes].
    rewrite (zlen_vector service_bytes 30) by (eapply Forall_impl; [exact Hs | apply zlen_service]).
    pose proof (compact_sizeof_bound _ _ (conj (Z.lt_le_incl _ _ (proj1 Hl)) (proj2 Hl))) as Hc.
    change (ser_compact_sizeof kMaxAddrItems) with 3 in Hc. unfold kMaxAddrItems in Hl.
    change (payload_lower kAddr) with 31. change (payload_upper kAddr) with 30003. lia.
  - destruct Hp as (Ht & Hl & Hs). cbn [payload_type payload_bytes].
    rewrite (zlen_vector item_bytes 36) by (eapply Forall_impl; [exact Hs | apply zlen_item]).
    pose proof (compact_sizeof_bound _ _ (conj (Z.lt_le_incl _ _ (proj1 Hl)) (proj2 Hl))) as Hc.
    change (ser_compact_sizeof kMaxInvItems) with 3 in Hc. unfold kMaxInvItems in Hl.
    destruct Ht as [->|[->| ->]];
      [change (payload_lower kInv) with 37; change (payload_upper kInv) with 1800003
      | change (payload_lower kGetData) with 37; change (payload_upper kGetData) with 1800003
      | change (payload_lower kNotFound) with 37; change (payload_upper kNotFound) with 1800003]; lia.
  - destruct Hp as (Hk & Hr & He). cbn [payload_bytes]. unfold reject_bytes, string_bytes.
    rewrite !zlen_app, !zlen_compact, length_int_bytes.
    apply ProtocolTheorems.known_length in Hk.
    pose proof (compact_sizeof_bound (zlen (MsgRejectPayload.reason_ r)) 256) as H1.
    pose proof (compact_sizeof_bound (zlen (MsgRejectPayload.rejected_command_ r)) 12) as H2.
    change (ser_compact_sizeof 256) with 3 in H1. change (ser_compact_sizeof 12) with 1 in H2.
    change (payload_lower kReject) with 3. change (payload_upper kReject) with 301. simpl ssizeof.
    destruct (MsgRejectPayload.extra_data_ r) as [h|]; simpl default; [destruct He as [_ ->]|]; unfold h256_size;
      simpl length; lia.
Qed.
(** *** Version *)

Definition version_decoded (v o0 : MsgVersionPayload.t) : MsgVersionPayload.t :=
  MsgVersionPayload.set_recipient
    (NodeService.set_time (NodeService.time_ (MsgVersionPayload.recipient_service_ o0))
       (service_decoded (MsgVersionPayload.recipient_service_ v)))
  (MsgVersionPayload.set_sender
    (NodeService.set_time (NodeService.time_ (MsgVersionPayload.sender_service_ o0))
       (service_decoded (MsgVersionPayload.sender_service_ v))) v).

Lemma signed_range (n : nat) v : (0 < n)%nat -> 0 <= v < 2 ^ (8 * Z.of_nat n - 1) ->
  in_range (IntType n true) v.
Proof. intros Hn Hv. unfold in_range, bits. simpl. lia. Qed.

Lemma agent_ok v : version_ok v -> string_ok (MsgVersionPayload.user_agent_ v).
Proof. by intros (_ & _ & _ & _ & _ & _ & Hu & _). Qed.

Lemma version_writes v : version_ok v ->
  writes (MsgVersionPayload.serialization kSerialize) v (version_bytes v) v.
Proof.
  intros Hv s Hf. unfold MsgVersionPayload.serialization.
  assert (Hw : writes (MsgVersionPayload.bind_members kSerialize) v (version_bytes v) v).
  { pose proof (agent_ok v Hv) as Hag. destruct Hv as (_ & _ & _ & S1 & S2 & _). destruct v.
    writes_members; auto using integral_writes, version_service_writes, string_writes, bool_writes. }
  by rewrite Hw.
Qed.

Lemma version_members_reads v : version_ok v ->
  reads (MsgVersionPayload.bind_members kDeserialize) (version_bytes v) (version_decoded v).
Proof.
  intros Hv. pose proof (agent_ok v Hv) as Hag. destruct Hv as (Hpv & Hs & Ht & S1 & S2 & Hn & _ & Hh).
  eapply reads_ext.
  { eapply reads_then; [apply reads_field, integral_reads; [simpl; lia | done]|].
    eapply reads_then; [apply reads_field, integral_reads; [simpl; lia | done]|].
    eapply reads_then; [apply reads_field, integral_reads; [simpl; lia | by apply signed_range; [lia|]]|].
    eapply reads_then; [apply reads_update, version_service_reads; done|].
    eapply reads_then; [apply reads_update, version_service_reads; done|].
    eapply reads_then; [apply reads_field, integral_reads; [simpl; lia | done]|].
    eapply reads_then; [apply reads_field, string_reads; done|].
    eapply reads_then; [apply reads_field, integral_reads; [simpl; lia | by apply signed_range; [lia|]]|].
    apply reads_field, bool_reads. }
  by intros [].
Qed.

Lemma version_reads v : version_ok v ->
  reads (MsgVersionPayload.serialization kDeserialize) (version_bytes v) (version_decoded v).
Proof.
  intros Hv o s rest Hwf Hu. unfold MsgVersionPayload.serialization.
  rewrite (version_members_reads v Hv o s rest Hwf Hu). destruct Hv as (_ & _ & Ht & _ & _ & _ & _ & Hh).
  rewrite decide_True by done. simpl. case_cmp; [lia|]. by case_cmp; [lia|].
Qed.

(** *** Getheaders *)

Lemma hashes_writes l : 0 < zlen l <= kMaxGetHeadersItems ->
  writes (MsgGetHeadersPayload.bind_hashes kSerialize) l (vector_bytes id l) l.
Proof.
  intros Hl. unfold MsgGetHeadersPayload.bind_hashes. rewrite decide_True by done.
  apply (vector_writes (Hash.serialization h256_size) id); [done | by vm_compute |].
  apply Forall_forall. intros x _. apply array_writes.
Qed.

Lemma hashes_reads l : 0 < zlen l <= kMaxHeadersItems -> Forall (hash_ok h256_size) l ->
  reads (MsgGetHeadersPayload.bind_hashes kDeserialize) (vector_bytes id l) (λ _, l).
Proof.
  intros Hl Hh. unfold MsgGetHeadersPayload.bind_hashes. rewrite decide_False by done.
  eapply reads_ext.
  { apply (vector_reads (Hash.serialization h256_size) id id); [done | by vm_compute |].
    eapply Forall_impl; [exact Hh|]. intros x [_ Hx]. by apply array_reads. }
  intros o. apply list_fmap_id.
Qed.

Definition getheaders_bytes (version : Z) (g : MsgGetHeadersPayload.t) : Bytes :=
  payload_bytes version (MsgGetHeaders g).

Lemma getheaders_writes g s : payload_ok (MsgGetHeaders g) ->
  fits s (getheaders_bytes (SDataStream.version_ s) g) ->
  MsgGetHeadersPayload.serialization kSerialize g s =
    (Success (), MsgGetHeadersPayload.set_protocol_version (wrap 32 (SDataStream.version_ s)) g,
     append (getheaders_bytes (SDataStream.version_ s) g) s).
Proof.
  intros (Hl & Hh & Hs) Hf. unfold MsgGetHeadersPayload.serialization. rewrite decide_True by done.
  set (v := wrap 32 (SDataStream.version_ s)).
  assert (Hw : writes (on_field MsgGetHeadersPayload.protocol_version_ MsgGetHeadersPayload.set_protocol_version
      (bind_integral uint32_t kSerialize) >>>
    on_field MsgGetHeadersPayload.block_locator_hashes_ MsgGetHeadersPayload.set_hashes
      (MsgGetHeadersPayload.bind_hashes kSerialize) >>>
    on_field MsgGetHeadersPayload.hash_stop_ MsgGetHeadersPayload.set_stop (MsgGetHeadersPayload.bind_stop kSerialize))
    (MsgGetHeadersPayload.set_protocol_version v g) (getheaders_bytes (SDataStream.version_ s) g)
    (MsgGetHeadersPayload.set_protocol_version v g)).
  { destruct g. unfold getheaders_bytes, payload_bytes. writes_members;
      [apply integral_writes | by apply hashes_writes | apply array_writes]. }
  by apply Hw.
Qed.

Lemma getheaders_reads version g o : payload_ok (MsgGetHeaders g) ->
  zlen (MsgGetHeadersPayload.block_locator_hashes_ g) <= kMaxHeadersItems ->
  forall s rest, wf s -> unread s = getheaders_bytes version g ++ rest ->
  MsgGetHeadersPayload.serialization kDeserialize o s =
    (Success (), MsgGetHeadersPayload.set_protocol_version (wrap 32 version) g,
     advance (zlen (getheaders_bytes version g)) s).
Proof.
  intros (Hl & Hh & [_ Hs]) Hmax s rest Hwf Hu. unfold MsgGetHeadersPayload.serialization.
  rewrite decide_False by done.
  assert (Hr : reads (on_field MsgGetHeadersPayload.protocol_version_ MsgGetHeadersPayload.set_protocol_version
      (bind_integral uint32_t kDeserialize) >>>
    on_field MsgGetHeadersPayload.block_locator_hashes_ MsgGetHeadersPayload.set_hashes
      (MsgGetHeadersPayload.bind_hashes kDeserialize) >>>
    on_field MsgGetHeadersPayload.hash_stop_ MsgGetHeadersPayload.set_stop (MsgGetHeadersPayload.bind_stop kDeserialize))
    (getheaders_bytes version g) (λ _, MsgGetHeadersPayload.set_protocol_version (wrap 32 version) g)).
  { eapply reads_ext.
    { eapply reads_then; [apply reads_field, (integral_reads uint32_t (wrap 32 version)) |].
      - simpl. lia.
      - exact (Z.mod_pos_bound version (2 ^ 32) eq_refl).
      - eapply reads_then; apply reads_field; [apply hashes_reads; [lia | done] | by apply array_reads]. }
    by destruct g. }
  by apply (Hr _ _ rest).
Qed.

Lemma getheaders_oversized version g o : payload_ok (MsgGetHeaders g) ->
  kMaxHeadersItems < zlen (MsgGetHeadersPayload.block_locator_hashes_ g) ->
  forall s rest, wf s -> unread s = getheaders_bytes version g ++ rest ->
  (MsgGetHeadersPayload.serialization kDeserialize o s).1.1 =
    Failure (NetError kMessagePayloadOversizedVector).
Proof.
  intros (Hl & Hh & _) Hmax s rest Hwf Hu. unfold MsgGetHeadersPayload.serialization.
  rewrite decide_False by done. unfold getheaders_bytes, payload_bytes in Hu. rewrite <- !app_assoc in Hu.
  unfold ser_then at 1, on_field at 1.
  rewrite (integral_reads uint32_t (wrap 32 version) four_pos (Z.mod_pos_bound version (2 ^ 32) eq_refl) _ _ _ Hwf Hu).
  cbv beta iota. unfold ser_then, on_field at 1, MsgGetHeadersPayload.bind_hashes. rewrite decide_False by done.
  set (o1 := MsgGetHeadersPayload.set_protocol_version (wrap 32 version) _).
  assert (Ho : (read_vector (Hash.serialization h256_size kDeserialize) (Hash.zero h256_size) kMaxHeadersItems
    (MsgGetHeadersPayload.block_locator_hashes_ o1)
    (advance (zlen (int_bytes uint32_t (wrap 32 version))) s)).1 =
    (Failure (NetError kMessagePayloadOversizedVector), MsgGetHeadersPayload.block_locator_hashes_ o1)).
  { eapply (vector_oversized (Hash.serialization h256_size) id _ _ (MsgGetHeadersPayload.block_locator_hashes_ g)).
    - unfold kMaxGetHeadersItems, kMaxSerializedCompactSize in *. lia.
    - by vm_compute.
    - by eapply wf_advance.
    - by eapply Laws.unread_advance. }
  destruct (read_vector _ _ _ _ _) as [[r l'] s']. simpl in Ho. by injection Ho as -> _.
Qed.
(** *** Reject *)

Lemma command_ok r : reject_ok r -> string_ok (MsgRejectPayload.rejected_command_ r).
Proof.
  intros (Hk & _). apply ProtocolTheorems.known_length in Hk. unfold string_ok, kMaxSerializedCompactSize. lia.
Qed.

Lemma reason_ok r : reject_ok r -> string_ok (MsgRejectPayload.reason_ r).
Proof. intros (_ & Hr & _). unfold string_ok, kMaxSerializedCompactSize. lia. Qed.

Lemma reject_writes r : reject_ok r ->
  writes (MsgRejectPayload.serialization kSerialize) r (reject_bytes r) r.
Proof.
  intros Hok s Hf. pose proof (command_ok r Hok) as Hc. pose proof (reason_ok r Hok) as Hr.
  destruct Hok as (Hk & Hlen & He). unfold MsgRejectPayload.serialization. rewrite decide_True by done.
  unfold MsgRejectPayload.write. rewrite Hk. simpl negb. cbv iota. case_cmp; [lia|].
  revert s Hf. change (writes (on_field MsgRejectPayload.rejected_command_ MsgRejectPayload.set_command
      (bind_string kSerialize) >>>
    MsgRejectPayload.bind_code kSerialize (λ o, code_value (MsgRejectPayload.rejection_code_ o)) >>>
    on_field MsgRejectPayload.reason_ MsgRejectPayload.set_reason (bind_string kSerialize) >>>
    (λ o s, match MsgRejectPayload.extra_data_ o with
            | Some h => let '(r, h', s') := Hash.serialization h256_size kSerialize h s in
                        (r, MsgRejectPayload.set_extra (Some h') o, s')
            | None => (Success (), o, s)
            end)) r (reject_bytes r) r).
  unfold reject_bytes. repeat apply keeps_writes_then.
  - apply keeps_writes_field; [by destruct r | by apply string_writes].
  - intros s Hf. unfold MsgRejectPayload.bind_code. by rewrite integral_writes.
  - apply keeps_writes_field; [by destruct r | by apply string_writes].
  - intros s Hf. destruct r as [c k t [h|]]; cbn [MsgRejectPayload.extra_data_ default] in *;
      [|by rewrite append_nil]. unfold Hash.serialization. by rewrite array_writes.
Qed.

Definition reject_decoded (r o0 : MsgRejectPayload.t) : MsgRejectPayload.t :=
  MsgRejectPayload.mk (MsgRejectPayload.rejected_command_ r) (MsgRejectPayload.rejection_code_ o0)
    (MsgRejectPayload.reason_ r)
    (match MsgRejectPayload.extra_data_ r with Some h => Some h | None => MsgRejectPayload.extra_data_ o0 end).

(** The last part of a reject payload is there when enough octets are left. *)
Lemma reject_extra_reads (e : option Bytes) (reason : Bytes) :
  zlen reason <= 256 -> match e with Some h => hash_ok h256_size h | None => True end ->
  forall o s, wf s -> unread s = default [] e -> MsgRejectPayload.reason_ o = reason ->
  (if 256 <? zlen (MsgRejectPayload.reason_ o) then (Failure (SerError kStringTooBig), o, s)
   else if Z.of_nat h256_size <=? DataStream.avail (SDataStream.base s) then
     match Hash.serialization h256_size kDeserialize (Hash.zero h256_size) s with
     | (Success _, h, s') => (Success (), MsgRejectPayload.set_extra (Some h) o, s')
     | (r, _, s') => (r, o, s')
     end
   else (Success (), o, s)) =
  (Success (), match e with Some h => MsgRejectPayload.set_extra (Some h) o | None => o end,
   advance (zlen (default [] e)) s).
Proof.
  intros Hl He o s Hwf Hu Hr. rewrite Hr. case_cmp; [lia|].
  rewrite DataStreamFacts.avail_unread by done. change (DataStreamFacts.unread _) with (unread s). rewrite Hu.
  destruct e as [h|]; simpl default.
  - destruct He as [_ Hh]. rewrite Hh. case_cmp; [|lia]. unfold Hash.serialization.
    rewrite (array_reads h256_size h Hh _ s []) by (done || by rewrite app_nil_r). by rewrite Hh.
  - case_cmp; [unfold h256_size in *; simpl in *; lia|]. change (zlen []) with 0. by rewrite advance_0.
Qed.

Lemma reject_reads r : reject_ok r ->
  reads_all (MsgRejectPayload.serialization kDeserialize) (reject_bytes r) (reject_decoded r).
Proof.
  intros Hok. pose proof (command_ok r Hok) as Hc. pose proof (reason_ok r Hok) as Hr.
  destruct Hok as (Hk & Hlen & He). unfold MsgRejectPayload.serialization. rewrite decide_False by done.
  unfold MsgRejectPayload.read, reject_bytes.
  intros o s Hwf Hu. unfold ser_then at 1.
  rewrite (reads_field _ _ _ _ _ (string_reads _ Hc) o s _ Hwf Hu). cbv beta iota.
  unfold ser_then at 1. simpl MsgRejectPayload.rejected_command_. rewrite Hk. cbv iota.
  unfold ser_then at 1.
  pose proof (wf_advance _ _ _ Hwf Hu) as Hwf1. pose proof (Laws.unread_advance _ _ _ Hwf Hu) as Hu1.
  set (s1 := advance (zlen (string_bytes (MsgRejectPayload.rejected_command_ r))) s) in *.
  rewrite (integral_reads int8_t _ (Nat.lt_0_succ 0) (ProtocolTheorems.code_value_range _) _ _ _ Hwf1 Hu1).
  cbv beta iota. rewrite ProtocolTheorems.code_cast_value. cbv iota. unfold ser_then at 1.
  pose proof (wf_advance _ _ _ Hwf1 Hu1) as Hwf2. pose proof (Laws.unread_advance _ _ _ Hwf1 Hu1) as Hu2.
  set (s2 := advance (zlen (int_bytes int8_t _)) s1) in *.
  rewrite (reads_field _ _ _ _ _ (string_reads _ Hr) _ s2 _ Hwf2 Hu2). cbv beta iota.
  pose proof (wf_advance _ _ _ Hwf2 Hu2) as Hwf3. pose proof (Laws.unread_advance _ _ _ Hwf2 Hu2) as Hu3.
  rewrite (reject_extra_reads _ (MsgRejectPayload.reason_ r) Hlen He _ _ Hwf3 Hu3) by done.
  unfold s2, s1. rewrite !advance_advance.
  match goal with |- (_, _, advance ?x _) = (_, _, advance ?y _) => replace x with y by (rewrite !zlen_app; lia) end.
  unfold reject_decoded. by destruct r as [? ? ? [h|]], o.
Qed.

(** *** All payloads *)

(** The object after serialization: only getheaders changes. *)
Definition payload_written (version : Z) (p : MessagePayload) : MessagePayload :=
  match p with
  | MsgGetHeaders g => MsgGetHeaders (MsgGetHeadersPayload.set_protocol_version (wrap 32 version) g)
  | p => p
  end.

(** What a fresh payload holds after deserialization. *)
Definition payload_decoded (version : Z) (p : MessagePayload) : MessagePayload :=
  match p with
  | MsgVersion v => MsgVersion (version_decoded v MsgVersionPayload.fresh)
  | MsgAddr l => MsgAddr (service_decoded <$> l)
  | MsgReject r => MsgReject (reject_decoded r MsgRejectPayload.fresh)
  | p => payload_written version p
  end.

(** Payloads whose members are all carried: an address outside of ::/64, no times in a version, the code of an accepted
    message in a reject, and the version of the protocol in a getheaders. *)
Definition address_kept (o : NodeService.t) : Prop :=
  match IPEndpoint.address_ (NodeService.endpoint_ o) with V4 _ => True | V6 b => le_value (take 8 b) <> 0 end.
Definition payload_kept (version : Z) (p : MessagePayload) : Prop :=
  match p with
  | MsgVersion v => forall o, o = MsgVersionPayload.recipient_service_ v \/ o = MsgVersionPayload.sender_service_ v ->
      address_kept o /\ NodeService.time_ o = NodeService.time_ NodeService.initial
  | MsgGetHeaders g => MsgGetHeadersPayload.protocol_version_ g = wrap 32 version
  | MsgAddr l => Forall address_kept l
  | MsgReject r => MsgRejectPayload.rejection_code_ r = kOk
  | _ => True
  end.

Lemma service_kept o : address_kept o -> service_decoded o = o.
Proof.
  destruct o as [t f [[b|b] port]]; cbn; [done|]. unfold service_decoded, endpoint_decoded. cbn. intros Hk. by rewrite (proj2 (Z.eqb_neq _ _)).
Qed.

Lemma decoded_kept version p : payload_kept version p -> payload_decoded version p = p.
Proof.
  destruct p as [t|v|t n|g|l|t l|r]; cbn [payload_kept payload_decoded payload_written]; try done; intros Hk.
  - destruct (Hk _ (or_introl eq_refl)) as [A1 T1], (Hk _ (or_intror eq_refl)) as [A2 T2]. unfold version_decoded.
    rewrite !service_kept by done. destruct v as [a b c [t1 f1 e1] [t2 f2 e2] d e f g]. cbn in *. by subst.
  - destruct g. cbn in *. by subst.
  - f_equal. induction Hk as [|o l Ho _ IH]; [done|]. cbn [fmap list_fmap]. by rewrite service_kept, IH.
  - destruct r as [c k m [h|]]; cbn in *; by subst.
Qed.

(** Readers accept at most 160 locator hashes. *)
Definition payload_readable (p : MessagePayload) : Prop :=
  match p with
  | MsgGetHeaders g => zlen (MsgGetHeadersPayload.block_locator_hashes_ g) <= kMaxHeadersItems
  | _ => True
  end.

Lemma payload_writes p s : payload_ok p -> fits s (payload_bytes (SDataStream.version_ s) p) ->
  payload_serialization kSerialize p s =
    (Success (), payload_written (SDataStream.version_ s) p, append (payload_bytes (SDataStream.version_ s) p) s).
Proof.
  destruct p as [t|v|t n|g|l|t l|r]; simpl payload_ok; intros Hp Hf; unfold payload_serialization.
  - cbn [payload_bytes payload_written]. by rewrite append_nil.
  - by rewrite version_writes.
  - by rewrite integral_writes.
  - by rewrite getheaders_writes.
  - destruct Hp as (Hl & Hs). unfold MsgAddrPayload.serialization. rewrite decide_True by done.
    rewrite (vector_writes NodeService.serialization service_bytes); [done | done | by vm_compute | | done].
    eapply Forall_impl; [exact Hs | apply service_writes].
  - destruct Hp as (_ & Hl & Hs). unfold MsgInventoryPayload.serialization. rewrite decide_True by done.
    rewrite (vector_writes InventoryItem.serialization item_bytes); [done | done | by vm_compute | | done].
    apply Forall_forall. intros. apply item_writes.
  - by rewrite reject_writes.
Qed.

Lemma payload_reads version p p0 : payload_ok p -> payload_readable p ->
  from_type (payload_type p) = Success (Some p0) ->
  forall s, wf s -> unread s = payload_bytes version p ->
  payload_serialization kDeserialize p0 s =
    (Success (), payload_decoded version p, advance (zlen (payload_bytes version p)) s).
Proof.
  destruct p as [t|v|t n|g|l|t l|r]; simpl payload_ok; intros Hp Hread Hfresh s Hwf Hu;
    cbn [payload_type] in Hfresh.
  - destruct Hp as [->|[->| ->]]; injection Hfresh as <-; cbn [payload_bytes];
      change (zlen []) with 0; by rewrite advance_0.
  - injection Hfresh as <-. unfold payload_serialization.
    by rewrite (reads_reads_all _ _ _ (version_reads v Hp) _ s Hwf Hu).
  - destruct Hp as [[->| ->] Hn]; injection Hfresh as <-; unfold payload_serialization;
      by rewrite (reads_reads_all _ _ _ (integral_reads uint64_t n eight_pos Hn) _ s Hwf Hu).
  - injection Hfresh as <-. unfold payload_serialization.
    rewrite (getheaders_reads version g _ Hp Hread s []); [done | done | by rewrite app_nil_r].
  - destruct Hp as (Hl & Hs). injection Hfresh as <-. unfold payload_serialization, MsgAddrPayload.serialization.
    rewrite decide_False by done.
    rewrite (reads_reads_all _ (vector_bytes service_bytes l) (λ _, service_decoded <$> l)); [done | | done | done].
    apply (vector_reads NodeService.serialization service_bytes service_decoded); [done | by vm_compute |].
    eapply Forall_impl; [exact Hs | apply service_reads].
  - destruct Hp as (Ht & Hl & Hs).
    assert (p0 = MsgInventory t []) as -> by (destruct Ht as [->|[->| ->]]; by injection Hfresh as <-).
    unfold payload_serialization, MsgInventoryPayload.serialization. rewrite decide_False by done.
    rewrite (reads_reads_all _ (vector_bytes item_bytes l) (λ _, id <$> l)); [| | done | done].
    + by rewrite list_fmap_id.
    + apply (vector_reads InventoryItem.serialization item_bytes id); [done | by vm_compute |].
      eapply Forall_impl; [exact Hs | apply item_reads].
  - injection Hfresh as <-. unfold payload_serialization. by rewrite (reject_reads r Hp _ s Hwf Hu).
Qed.
(** C16: Every payload within the limits of the protocol is serialized, and a
    fresh payload of the same type reads it back leaving nothing unread: all
    members are restored, except for the addresses within ::/64, the times that
    a version message does not carry and the code of a reject, which is read but
    not stored. A getheaders payload with more than 160 hashes is written but
    refused on reading. *)
Theorem payload_roundtrip (p p0 : MessagePayload) (s : SDataStream.t) :
  payload_ok p -> from_type (payload_type p) = Success (Some p0) ->
  wf s -> unread s = [] -> fits s (payload_bytes (SDataStream.version_ s) p) ->
  exists s1, serialize payload_serialization p s =
      (Success (), payload_written (SDataStream.version_ s) p, s1) /\
    unread s1 = payload_bytes (SDataStream.version_ s) p /\
    (payload_readable p -> exists s2, deserialize payload_serialization p0 s1 =
      (Success (), payload_decoded (SDataStream.version_ s) p, s2) /\ unread s2 = []) /\
    (~ payload_readable p -> (deserialize payload_serialization p0 s1).1.1 =
      Failure (NetError kMessagePayloadOversizedVector)).
Proof.
  intros Hp Hfresh Hwf Hu Hf. set (e := payload_bytes (SDataStream.version_ s) p) in *.
  assert (Hu1 : unread (append e s) = e) by (by rewrite unread_append, Hu).
  pose proof (wf_append e s Hwf Hf) as Hwf1.
  exists (append e s). split_and!; [by apply payload_writes | done | |].
  - intros Hr. exists (advance (zlen e) (append e s)). split; [by apply payload_reads|].
    apply Laws.unread_advance; [done | by rewrite Hu1, app_nil_r].
  - destruct p as [| | |g| | |]; intros Hr; try (exfalso; by apply Hr).
    injection Hfresh as <-. unfold deserialize, payload_serialization.
    pose proof (getheaders_oversized (SDataStream.version_ s) g MsgGetHeadersPayload.fresh Hp) as Ho.
    specialize (Ho ltac:(simpl in Hr; lia) (append e s) [] Hwf1 ltac:(by rewrite app_nil_r)).
    destruct (MsgGetHeadersPayload.serialization _ _ _) as [[r g'] s']. done.
Qed.

(** The size computation of a vector payload reads the stream instead. *)
Lemma vector_size_zero t l :
  (serialized_size payload_serialization (MsgInventory t l) (SDataStream.make kNetwork 0)).1.1 = 0.
Proof. done. Qed.

(** Every payload within the limits of the protocol fits in a stream of its own. *)
Lemma payload_fits version p : payload_ok p -> fits (SDataStream.make kNetwork version) (payload_bytes version p).
Proof.
  intros Hp. pose proof (payload_length version p Hp) as Hl. unfold fits, kMaxStreamSize.
  change (DataStream.size (SDataStream.base (SDataStream.make kNetwork version))) with 0.
  assert (Hu : forall t, payload_upper t <= kMaxProtocolMessageLength) by (intros []; by vm_compute).
  change kMaxProtocolMessageLength with 0x400000 in Hu.
  destruct p as [t|v|t n|g|l|t l|r]; cbn [payload_type] in Hl; try (pose proof (Hu t)).
  2: { apply agent_ok in Hp. unfold string_ok, kMaxSerializedCompactSize in Hp. lia. }
  all: first [lia | pose proof (Hu kGetHeaders); lia | pose proof (Hu kAddr); lia | pose proof (Hu kReject); lia].
Qed.

(** C39: What the serialization of a payload within the limits of the protocol writes, against the lengths that its message
    definition allows.  It is never too short; and it is never too long, except for two types.  A version is too long
    when its user agent has more than 936 octets, which nothing checks.  A reject may exceed its bound, which
    leaves out the two length prefixes, by at most four octets: one of a getheaders message with a full reason and extra
    data has 303 octets against an upper bound of 301. *)
Theorem payload_limits (version : Z) (p : MessagePayload) :
  payload_ok p ->
  (exists p' s, serialize payload_serialization p (SDataStream.make kNetwork version) = (Success (), p', s) /\
     payload_lower (payload_type p) <= zlen (unread s) /\
     match p with
     | MsgVersion v => zlen (unread s) <= payload_upper kVersion <-> zlen (MsgVersionPayload.user_agent_ v) <= 936
     | MsgReject _ => zlen (unread s) <= payload_upper kReject + 4
     | _ => zlen (unread s) <= payload_upper (payload_type p)
     end) /\
  exists r p' s, payload_ok (MsgReject r) /\
    serialize payload_serialization (MsgReject r) (SDataStream.make kNetwork version) = (Success (), p', s) /\
    zlen (unread s) = payload_upper kReject + 2.
Proof.
  assert (Hw : forall q, payload_ok q -> exists q' s, serialize payload_serialization q (SDataStream.make kNetwork version) = (Success (), q', s) /\
    unread s = payload_bytes version q).
  { intros q Hq. pose proof (payload_fits version q Hq) as Hf. eexists _, _. split; [by apply payload_writes|].
    by rewrite unread_append. }
  intros Hp. split.
  - destruct (Hw p Hp) as (p' & s & E & U). exists p', s. rewrite U. split; [done|]. pose proof (payload_length version p Hp) as Hl.
    destruct p as [t|v|t n|g|l|t l|r]; tauto.
  - set (r := MsgRejectPayload.mk (str "getheaders") kInvalid (replicate 256 65) (Some (replicate 32 0))).
    assert (Hr : payload_ok (MsgReject r)) by (split; [by vm_compute|]; split; [by vm_compute|]; decide_now).
    destruct (Hw (MsgReject r) Hr) as (p' & s & E & U). exists r, p', s. rewrite U. split_and!; [done | done | by vm_compute].
Qed.
End boost.

Lemma sample_inventory_ok : payload_ok (MsgInventory kInv [sample_item]).
Proof. split_and!; [by left | by vm_compute | by vm_compute |]. apply Forall_singleton. unfold item_ok. decide_now. Qed.

Definition sample_reject : MsgRejectPayload.t :=
  MsgRejectPayload.mk (str "inv") kDust (str "no") (Some (replicate 32 7)).

Lemma payload_roundtrip_witness :
  exists s1 s2, serialize (@payload_serialization model_boost) (MsgReject sample_reject)
      (SDataStream.make kNetwork 170002) = (Success (), MsgReject sample_reject, s1) /\
    deserialize (@payload_serialization model_boost) (MsgReject MsgRejectPayload.fresh) s1 =
      (Success (), MsgReject (MsgRejectPayload.mk (str "inv") kOk (str "no") (Some (replicate 32 7))), s2) /\
    unread s2 = [].
Proof.
  destruct (@payload_roundtrip model_boost model_boost_laws (MsgReject sample_reject)
    (MsgReject MsgRejectPayload.fresh) (SDataStream.make kNetwork 170002)) as (s1 & H1 & H2 & H3 & _).
  - split; [by vm_compute|]. split; [by vm_compute | decide_now].
  - done.
  - by vm_compute.
  - by vm_compute.
  - by vm_compute.
  - destruct H3 as (s2 & H3 & H4); [exact I|]. exists s1, s2. split_and!; [exact H1 | exact H3 | exact H4].
Defined.

Lemma payload_limits_witness : exists p' s,
  serialize (@payload_serialization model_boost) (MsgInventory kInv [sample_item]) (SDataStream.make kNetwork 0) = (Success (), p', s) /\
  37 <= zlen (unread s) <= 1800003.
Proof.
  destruct (@payload_limits model_boost model_boost_laws 0 (MsgInventory kInv [sample_item]) sample_inventory_ok) as ((p' & s & E & L & U) & _).
  exists p', s. split; [exact E|]. split; [exact L | exact U].
Defined.

End PayloadsTheorems.
