(* ===== verification/JsonForms.v ===== *)
(** * JSON forms

    Models of [to_json] of services, inventory items and payloads
    ([src/src/infra/network/addresses.cpp], [payloads.cpp], [payloads.hpp],
    [src/src/core/types/inventory.cpp]).  The enumerators of [NodeServicesType], with
    their names, are those that magic_enum gives, which is an argument. *)

From S2P Require Import Prelude Text Calendar Boost Hex Types Protocol Json Addresses Payloads.
#[local] Open Scope Z_scope.

Module JsonForms.

(** An object, by the assignments to its keys. *)
Definition json_object (l : list (Bytes * json)) : json := fold_left (λ j p, json_set p.1 p.2 j) l (JObject []).

(** [substr(1)] of a name, without its k *)
Definition short_name (name : Bytes) : json := JString (drop 1 name).

Definition kind_name (k : InventoryItem.Kind) : Bytes :=
  str match k with
      | InventoryItem.kError => "kError" | InventoryItem.kTx => "kTx" | InventoryItem.kBlock => "kBlock"
      | InventoryItem.kFilteredBlock => "kFilteredBlock"
      end.

Definition code_name (c : RejectionCode) : Bytes :=
  str match c with
      | kOk => "kOk" | kMalformed => "kMalformed" | kInvalid => "kInvalid" | kObsolete => "kObsolete" | kDuplicate => "kDuplicate"
      | kNonstandard => "kNonstandard" | kDust => "kDust" | kInsufficientFee => "kInsufficientFee" | kCheckpoint => "kCheckpoint"
      | kCheckBlockAtHeightNotFound => "kCheckBlockAtHeightNotFound" | kSideChainIdNotFound => "kSideChainIdNotFound"
      | kInsufficientSideChainFunds => "kInsufficientSideChainFunds" | kAbsurdlyHighFee => "kAbsurdlyHighFee"
      | kHasConflicts => "kHasConflicts" | kNoCoinsForInput => "kNoCoinsForInput" | kInvalidProof => "kInvalidProof"
      | kSideChainCumulativeCommTree => "kSideChainCumulativeCommTree" | kActiveCertDataHash => "kActiveCertDataHash"
      | kTooManyCswInputsForSideChain => "kTooManyCswInputsForSideChain"
      end.

Section Forms.
Context `{Boost} (service_types : list (Z * Bytes)).

(** An enumerator is listed that is neither zero nor all, and whose bits the services have. *)
Definition listed (services : Z) (p : Z * Bytes) : Prop := p.1 <> 0 /\ p.1 <> kNodeNetworkAll /\ Z.land services p.1 <> 0.
#[global] Instance listed_dec services p : Decision (listed services p).
Proof. unfold listed. apply _. Defined.

Definition services_json (services : Z) : json :=
  JArray ((λ p : Z * Bytes, short_name p.2) <$> filter (listed services) service_types).

Definition service_to_json (o : NodeService.t) : outcome json :=
  let? time := Calendar.format_ISO8601 (NodeService.time_ o) true in
  Success (json_object [(str "time", JString time); (str "services", services_json (NodeService.services_ o));
    (str "endpoint", JString (IPEndpoint.to_string (NodeService.endpoint_ o)))]).

Definition version_service_to_json (o : NodeService.t) : json :=
  json_object [(str "services", services_json (NodeService.services_ o));
    (str "endpoint", JString (IPEndpoint.to_string (NodeService.endpoint_ o)))].

Definition service_info_to_json (o : NodeServiceInfo.t) : outcome json :=
  let? service := service_to_json (NodeServiceInfo.service_ o) in
  let? attempt := Calendar.format_ISO8601 (NodeServiceInfo.last_connection_attempt_ o) true in
  let? success := Calendar.format_ISO8601 (NodeServiceInfo.last_connection_success_ o) true in
  Success (json_object [(str "service", service); (str "origin", JString (IPAddress.to_string (NodeServiceInfo.origin_ o)));
    (str "last_connection_attempt", JString attempt); (str "last_connection_success", JString success);
    (str "connection_attempts", JInt (NodeServiceInfo.connection_attempts_ o))]).

Definition item_to_json (o : InventoryItem.t) : json :=
  json_object [(str "type", short_name (kind_name (InventoryItem.type_ o)));
    (str "identifier", JString (Hash.to_hex (InventoryItem.identifier_ o) true true))].

(** [command] and [data] *)
Definition message_json (t : MessageType) (data : json) : json :=
  json_object [(str "command", short_name (enum_name t)); (str "data", data)].

Definition version_to_json (v : MsgVersionPayload.t) : json :=
  message_json kVersion (json_object [
    (str "protocol_version", JInt (MsgVersionPayload.protocol_version_ v));
    (str "services", services_json (MsgVersionPayload.services_ v));
    (str "timestamp", JInt (MsgVersionPayload.timestamp_ v));
    (str "recipient_service", version_service_to_json (MsgVersionPayload.recipient_service_ v));
    (str "sender_service", version_service_to_json (MsgVersionPayload.sender_service_ v));
    (str "nonce", JInt (MsgVersionPayload.nonce_ v));
    (str "user_agent", JString (MsgVersionPayload.user_agent_ v));
    (str "last_block_height", JInt (MsgVersionPayload.last_block_height_ v));
    (str "relay", JBool (MsgVersionPayload.relay_ v))]).

Definition ping_pong_to_json (t : MessageType) (nonce : Z) : json := message_json t (json_object [(str "nonce", JInt nonce)]).

Definition get_headers_to_json (g : MsgGetHeadersPayload.t) : json :=
  message_json kGetHeaders (json_object [
    (str "protocol_version", JInt (MsgGetHeadersPayload.protocol_version_ g));
    (str "hashes", JArray ((λ h, JString (Hash.to_hex h true true)) <$> MsgGetHeadersPayload.block_locator_hashes_ g));
    (str "hash_stop", JString (Hash.to_hex (MsgGetHeadersPayload.hash_stop_ g) true true))]).

Definition addr_to_json (l : list NodeService.t) : outcome json :=
  let? identifiers := outcome_map service_to_json l in
  Success (message_json kAddr (json_object [(str "identifiers", JArray identifiers)])).

Definition inventory_to_json (t : MessageType) (l : list InventoryItem.t) : json :=
  message_json t (json_object [(str "items", JArray (item_to_json <$> l))]).

Definition reject_to_json (r : MsgRejectPayload.t) : json :=
  message_json kReject (json_object (
    [(str "rejected_command", JString (MsgRejectPayload.rejected_command_ r));
     (str "rejection_code", short_name (code_name (MsgRejectPayload.rejection_code_ r)));
     (str "reason", JString (MsgRejectPayload.reason_ r))] ++
    match MsgRejectPayload.extra_data_ r with
    | Some h => [(str "extra_data", JString (Hash.to_hex h false false))]
    | None => []
    end)).

(** The braces of [MsgNullPayload::to_json] make an array of the object. *)
Definition to_json (p : MessagePayload) : outcome json :=
  match p with
  | MsgNull _ => Success (JArray [JObject []])
  | MsgVersion v => Success (version_to_json v)
  | MsgPingPong t n => Success (ping_pong_to_json t n)
  | MsgGetHeaders g => Success (get_headers_to_json g)
  | MsgAddr l => addr_to_json l
  | MsgInventory t l => Success (inventory_to_json t l)
  | MsgReject r => Success (reject_to_json r)
  end.
End Forms.
End JsonForms.

(** ** Properties *)

Module JsonFormsFacts.
Import JsonForms AddressesTheorems PayloadsTheorems TypesTheorems.

(** *** Objects *)

Lemma json_object_snoc l k v : json_object (l ++ [(k, v)]) = json_set k v (json_object l).
Proof. unfold json_object. by rewrite fold_left_app. Qed.

Lemma json_object_members l : exists m, json_object l = JObject m.
Proof. induction l as [|[k v] l [m IH]] using rev_ind; [by exists []|]. rewrite json_object_snoc, IH. by eexists. Qed.

Lemma json_get_set k v j k' m : j = JObject m -> json_get k' (json_set k v j) = if decide (k' = k) then Some v else json_get k' j.
Proof. intros ->. apply json_find_insert. Qed.

Lemma json_get_object l k v : NoDup l.*1 -> (k, v) ∈ l -> json_get k (json_object l) = Some v.
Proof.
  induction l as [|[k' v'] l IH] using rev_ind; [by intros _ ?%not_elem_of_nil|]. rewrite fmap_app, json_object_snoc. intros (Hn & Hd & _)%NoDup_app Hin.
  destruct (json_object_members l) as [m Hm]. rewrite (json_get_set _ _ _ _ m) by done. apply elem_of_app in Hin as [Hin|Hin].
  - rewrite decide_False; [by apply IH|]. intros ->. apply (Hd k'); [|by apply list_elem_of_singleton].
    by apply (list_elem_of_fmap_2 fst l (k', v)).
  - apply list_elem_of_singleton in Hin as [= -> ->]. by rewrite decide_True.
Qed.

Lemma json_get_absent l k : k ∉ l.*1 -> json_get k (json_object l) = None.
Proof.
  induction l as [|[k' v'] l IH] using rev_ind; [done|]. rewrite fmap_app, json_object_snoc, not_elem_of_app. intros [Hl Hk].
  destruct (json_object_members l) as [m Hm]. rewrite (json_get_set _ _ _ _ m) by done.
  rewrite decide_False; [by apply IH|]. intros ->. by apply Hk, list_elem_of_singleton.
Qed.

(** Objects with the same keys and equal forms have the same values. *)
Lemma json_object_inj l l' : bool_decide (NoDup l.*1) = true -> l'.*1 = l.*1 -> json_object l = json_object l' -> l = l'.
Proof.
  intros Hn%bool_decide_eq_true_1 Hk E. apply list_eq_Forall2, Forall2_same_length_lookup. split.
  { by rewrite <- (length_fmap fst l), <- Hk, length_fmap. }
  intros i [k v] [k' v'] Hi Hi'. assert (k = k') as <-.
  { assert (l.*1 !! i = Some k) as H1 by (by rewrite list_lookup_fmap, Hi). rewrite <- Hk, list_lookup_fmap, Hi' in H1. by injection H1. }
  f_equal. apply list_elem_of_lookup_2, json_get_object in Hi; [|done]. apply list_elem_of_lookup_2, json_get_object in Hi'; [|by rewrite Hk].
  congruence.
Qed.

(** *** Members *)

Lemma success_inj {A} (a b : A) : Success a = Success b -> a = b.
Proof. by intros [= ->]. Qed.

Lemma jstring_eq a b : JString a = JString b -> a = b.
Proof. by intros [= ->]. Qed.

Lemma jarray_eq a b : JArray a = JArray b -> a = b.
Proof. by intros [= ->]. Qed.

Lemma cons_eq {A} (a b : A) l k : a :: l = b :: k -> a = b /\ l = k.
Proof. by intros [= -> ->]. Qed.

Lemma enum_name_inj t u : short_name (enum_name t) = short_name (enum_name u) -> t = u.
Proof. by destruct t, u. Qed.

Lemma kind_name_inj t u : short_name (kind_name t) = short_name (kind_name u) -> t = u.
Proof. by destruct t, u. Qed.

Lemma code_name_inj t u : short_name (code_name t) = short_name (code_name u) -> t = u.
Proof. by destruct t, u. Qed.

Lemma to_hex_inj h k reverse with_prefix : bytes_ok h -> bytes_ok k -> Hash.to_hex h reverse with_prefix = Hash.to_hex k reverse with_prefix -> h = k.
Proof.
  unfold Hash.to_hex. intros Hh Hk E. apply (f_equal Hex.decode) in E. destruct reverse;
    rewrite !HexTheorems.decode_encode in E by auto with znode; injection E as E; [|done]. apply (f_equal (@rev Z)) in E. by rewrite !rev_involutive in E.
Qed.

Lemma iso8601_inj t u : 0 <= t < 2 ^ 32 -> 0 <= u < 2 ^ 32 -> Calendar.format_ISO8601 t true = Calendar.format_ISO8601 u true -> t = u.
Proof.
  intros Ht Hu E. destruct (CalendarFacts.iso8601_roundtrip t) as (a & Ea & _ & Pa & _); [unfold CalendarFacts.year_10000; lia|].
  destruct (CalendarFacts.iso8601_roundtrip u) as (b & Eb & _ & Pb & _); [unfold CalendarFacts.year_10000; lia|]. congruence.
Qed.

(** A text that ends in a colon and digits is that of one head and one number. *)
Lemma last_colon a b p q : all_digits p -> all_digits q -> a ++ [58] ++ p = b ++ [58] ++ q -> a = b /\ p = q.
Proof.
  intros Hp. revert q. induction p as [|c p IH] using rev_ind; intros q Hq E.
  - destruct q as [|d q _] using rev_ind.
    + rewrite app_nil_r in E. cbn [app] in E. apply app_inj_tail in E as [-> _]. done.
    + rewrite app_nil_r, !app_assoc in E. apply app_inj_tail in E as [_ <-]. apply Forall_app in Hq as [_ Hq].
      by apply Forall_cons in Hq as [Hq _].
  - apply Forall_app in Hp as [Hp Hc]. apply Forall_cons in Hc as [Hc _]. destruct q as [|d q _] using rev_ind.
    + rewrite app_nil_r, !app_assoc in E. apply app_inj_tail in E as [_ ->]. done.
    + apply Forall_app in Hq as [Hq _]. rewrite !app_assoc in E. apply app_inj_tail in E as [E ->]. rewrite <- !app_assoc in E.
      destruct (IH Hp q Hq E) as [-> ->]. done.
Qed.

Section Text.
Context `{BoostLaws}.

Lemma address_text_inj a b : address_ok a -> address_ok b -> IPAddress.to_string a = IPAddress.to_string b -> a = b.
Proof.
  intros Ha Hb. destruct a as [a|a], b as [b|b]; destruct Ha as [Ha La], Hb as [Hb Lb]; unfold IPAddress.to_string; intros E.
  - apply (f_equal make_address_v4) in E. rewrite !make_v4_to_string in E by done. by injection E as ->.
  - rewrite v4_to_string_dotted in E by done. destruct (dotted_head a Ha La) as (c & l & Hc & Ed). rewrite Ed in E. by injection E as -> _.
  - rewrite v4_to_string_dotted in E by done. destruct (dotted_head b Hb Lb) as (c & l & Hc & Ed). rewrite Ed in E. by injection E as <- _.
  - injection E as E. apply app_inj_tail in E as [E _]. apply (f_equal make_address_v6) in E.
    rewrite !make_v6_to_string in E by done. by injection E as ->.
Qed.

Lemma decimal_inj v w : 0 <= v < 2 ^ 64 -> 0 <= w < 2 ^ 64 -> decimal v = decimal w -> v = w.
Proof. intros Hv Hw E. apply (f_equal digits_value) in E. by rewrite !decimal_value in E. Qed.

Lemma endpoint_text_inj e f : endpoint_ok e -> endpoint_ok f -> IPEndpoint.to_string e = IPEndpoint.to_string f -> e = f.
Proof.
  destruct e as [a p], f as [b q]. intros [Ha Hp] [Hb Hq]. cbn in Ha, Hp, Hb, Hq. unfold IPEndpoint.to_string. cbn [IPEndpoint.address_ IPEndpoint.port_]. intros E.
  apply last_colon in E as [Ea Ep]; [|apply decimal_digits; lia..]. apply address_text_inj in Ea as ->; [|done..].
  by apply decimal_inj in Ep as ->; [|lia..].
Qed.
End Text.

(** *** What a form says *)

Section Forms.
Context `{BoostLaws} (service_types : list (Z * Bytes)).
(** Enumerators have names of their own. *)
Context (Hnames : NoDup ((λ p : Z * Bytes, drop 1 p.2) <$> service_types)).

(** Services that have the same of the bits that are listed. *)
Definition same_services (s t : Z) : Prop := Forall (λ p, listed s p <-> listed t p) service_types.

Lemma services_json_eq s t : services_json service_types s = services_json service_types t <-> same_services s t.
Proof.
  unfold services_json, same_services. split.
  - intros [= E]. apply Forall_forall. intros p Hp.
    assert (Hf : forall u, listed u p <-> short_name p.2 ∈ ((λ p : Z * Bytes, short_name p.2) <$> filter (listed u) service_types)).
    { intros u. split; [intros Hl; apply (list_elem_of_fmap_2 (λ p : Z * Bytes, short_name p.2)), list_elem_of_filter; done|].
      intros (q & Eq & [Hl Hq]%list_elem_of_filter)%list_elem_of_fmap_1. injection Eq as Eq.
      apply list_elem_of_lookup in Hp as [i Hi], Hq as [j Hj].
      assert (i = j) as ->; [|congruence].
      eapply (NoDup_lookup _ _ _ (drop 1 p.2) Hnames); rewrite list_lookup_fmap; [by rewrite Hi | by rewrite Hj; cbn; rewrite Eq]. }
    by rewrite (Hf s), (Hf t), E.
  - intros Hs. do 2 f_equal. clear Hnames. induction Hs as [|p l Hp _ IH]; [done|].
    destruct (decide (listed s p)); [rewrite !filter_cons_True by tauto | rewrite !filter_cons_False by tauto]; by rewrite IH.
Qed.

Definition same_service (o o' : NodeService.t) : Prop :=
  same_services (NodeService.services_ o) (NodeService.services_ o') /\ NodeService.endpoint_ o = NodeService.endpoint_ o'.

(** Payloads that differ in what the forms leave out at most: unlisted services, the time
    of a service in a version, and the type of a payload without data. *)
Definition same_payload (p q : MessagePayload) : Prop :=
  match p, q with
  | MsgNull _, MsgNull _ => True
  | MsgVersion v, MsgVersion w =>
      MsgVersionPayload.protocol_version_ v = MsgVersionPayload.protocol_version_ w /\
      same_services (MsgVersionPayload.services_ v) (MsgVersionPayload.services_ w) /\
      MsgVersionPayload.timestamp_ v = MsgVersionPayload.timestamp_ w /\
      same_service (MsgVersionPayload.recipient_service_ v) (MsgVersionPayload.recipient_service_ w) /\
      same_service (MsgVersionPayload.sender_service_ v) (MsgVersionPayload.sender_service_ w) /\
      MsgVersionPayload.nonce_ v = MsgVersionPayload.nonce_ w /\ MsgVersionPayload.user_agent_ v = MsgVersionPayload.user_agent_ w /\
      MsgVersionPayload.last_block_height_ v = MsgVersionPayload.last_block_height_ w /\
      MsgVersionPayload.relay_ v = MsgVersionPayload.relay_ w
  | MsgPingPong t n, MsgPingPong u m => t = u /\ n = m
  | MsgGetHeaders g, MsgGetHeaders h => g = h
  | MsgAddr l, MsgAddr k => Forall2 (λ o o', NodeService.time_ o = NodeService.time_ o' /\ same_service o o') l k
  | MsgInventory t l, MsgInventory u k => t = u /\ l = k
  | MsgReject r, MsgReject r' => r = r'
  | _, _ => False
  end.

Lemma version_service_eq o o' : service_ok o -> service_ok o' ->
  version_service_to_json service_types o = version_service_to_json service_types o' <-> same_service o o'.
Proof.
  intros (_ & _ & Ho) (_ & _ & Ho'). unfold version_service_to_json, same_service. rewrite <- services_json_eq. split.
  - intros [= Es Ee]%json_object_inj; [|done..]. split; [unfold services_json; by rewrite Es | by apply endpoint_text_inj].
  - by intros [-> ->].
Qed.

(** The form of a service with its time. *)
Lemma service_form o : service_ok o -> exists time, Calendar.format_ISO8601 (NodeService.time_ o) true = Success time /\
  service_to_json service_types o = Success (json_object [(str "time", JString time); (str "services", services_json service_types (NodeService.services_ o));
    (str "endpoint", JString (IPEndpoint.to_string (NodeService.endpoint_ o)))]).
Proof.
  intros (Ht & _). destruct (CalendarFacts.iso8601_roundtrip (NodeService.time_ o)) as (time & E & _); [unfold CalendarFacts.year_10000; lia|].
  exists time. unfold service_to_json. by rewrite E.
Qed.

Lemma service_eq o o' : service_ok o -> service_ok o' ->
  service_to_json service_types o = service_to_json service_types o' <-> NodeService.time_ o = NodeService.time_ o' /\ same_service o o'.
Proof.
  intros Ho Ho'. destruct (service_form o Ho) as (a & Ea & ->), (service_form o' Ho') as (b & Eb & ->).
  destruct Ho as (Ht & _ & He), Ho' as (Ht' & _ & He'). unfold same_service. rewrite <- services_json_eq. split.
  - intros E%success_inj%json_object_inj; [|done..]. injection E as -> Es Ee. split; [apply iso8601_inj; congruence|].
    split; [unfold services_json; by rewrite Es | by apply endpoint_text_inj].
  - intros (E & -> & ->). rewrite E, Eb in Ea. by injection Ea as ->.
Qed.

Lemma services_form l : Forall service_ok l -> exists r, outcome_map (service_to_json service_types) l = Success r.
Proof.
  induction 1 as [|x l Hx _ [r IH]]; [by eexists|]. destruct (service_form x Hx) as (c & _ & E). cbn [outcome_map]. rewrite E, IH.
  by eexists.
Qed.

Lemma addr_eq l k : Forall service_ok l -> Forall service_ok k ->
  outcome_map (service_to_json service_types) l = outcome_map (service_to_json service_types) k <->
  Forall2 (λ o o', NodeService.time_ o = NodeService.time_ o' /\ same_service o o') l k.
Proof.
  intros Hl. revert k. induction Hl as [|o l Ho Hl IH]; intros [|o' k] Hk.
  - split; [constructor | done].
  - apply Forall_cons in Hk as [Ho' Hk]. split; [|by intros ?%Forall2_nil_inv_l].
    cbn [outcome_map]. destruct (service_form o' Ho') as (b & _ & ->). cbn [outcome_bind]. by destruct (outcome_map _ k).
  - split; [|by intros ?%Forall2_nil_inv_r]. cbn [outcome_map]. destruct (service_form o Ho) as (a & _ & ->). cbn [outcome_bind]. by destruct (outcome_map _ l).
  - apply Forall_cons in Hk as [Ho' Hk]. rewrite Forall2_cons, <- IH, <- service_eq by done. cbn [outcome_map].
    destruct (service_form o Ho) as (a & _ & ->), (service_form o' Ho') as (b & _ & ->). cbn [outcome_bind].
    destruct (services_form l Hl) as [r ->], (services_form k Hk) as [r' ->]. cbn [outcome_bind]. split; [intros E%success_inj | intros [E%success_inj F%success_inj]; by rewrite E, F].
    by apply cons_eq in E as [-> ->].
Qed.

Lemma message_json_eq t u d e : message_json t d = message_json u e <-> t = u /\ d = e.
Proof.
  split; [|by intros [-> ->]]. unfold message_json. intros E%json_object_inj; [|done..].
  apply cons_eq in E as [[= En] E]. apply cons_eq in E as [E _]. split; [apply enum_name_inj; unfold short_name; by rewrite En|]. by injection E.
Qed.

Lemma version_eq v w : version_ok v -> version_ok w ->
  version_to_json service_types v = version_to_json service_types w <-> same_payload (MsgVersion v) (MsgVersion w).
Proof.
  intros (_ & _ & _ & Hr & Hs & _) (_ & _ & _ & Hr' & Hs' & _). unfold version_to_json. rewrite message_json_eq. cbn [same_payload].
  rewrite <- (services_json_eq (MsgVersionPayload.services_ v)), <- !version_service_eq by done. split.
  - intros [_ E%json_object_inj]; [|done..].
    do 9 (apply cons_eq in E as [?%(f_equal snd) E]; cbn [snd] in * ). split_and!; congruence.
  - intros (-> & -> & -> & -> & -> & -> & -> & -> & ->). done.
Qed.

(** Lists whose elements have injective forms. *)
Lemma fmap_inj {A B} (P : A -> Prop) (f : A -> B) l k : (forall x y, P x -> P y -> f x = f y -> x = y) ->
  Forall P l -> Forall P k -> f <$> l = f <$> k -> l = k.
Proof.
  intros Hf Hl. revert k. induction Hl as [|x l Hx _ IH]; intros [|y k] Hk E; [done..|]. apply Forall_cons in Hk as [Hy Hk].
  rewrite !fmap_cons in E. apply cons_eq in E as [E1 E2]. f_equal; [by apply Hf | by apply IH].
Qed.

Lemma get_headers_eq g h : payload_ok (MsgGetHeaders g) -> payload_ok (MsgGetHeaders h) -> get_headers_to_json g = get_headers_to_json h -> g = h.
Proof.
  intros (_ & Hg & Sg) (_ & Hh & Sh). unfold get_headers_to_json. intros [_ E%json_object_inj]%message_json_eq; [|done..].
  apply cons_eq in E as [[= E1] E]. apply cons_eq in E as [E2%(f_equal snd) E]. apply cons_eq in E as [E3%(f_equal snd) _]. cbn [snd] in E2, E3.
  apply jarray_eq in E2. apply (fmap_inj (hash_ok h256_size)) in E2; [| |done..].
  - apply jstring_eq, to_hex_inj in E3; [|apply Sg|apply Sh]. destruct g, h. cbn in *. congruence.
  - intros x y Hx Hy Exy%jstring_eq. apply to_hex_inj in Exy; [done | apply Hx | apply Hy].
Qed.

Lemma item_eq x y : item_ok x -> item_ok y -> item_to_json x = item_to_json y -> x = y.
Proof.
  intros [Hx _] [Hy _]. unfold item_to_json. intros E%json_object_inj; [|done..]. apply cons_eq in E as [E1%(f_equal snd) E].
  apply cons_eq in E as [E2%(f_equal snd) _]. cbn [snd] in E1, E2. apply kind_name_inj in E1.
  apply jstring_eq, to_hex_inj in E2; [|done..]. destruct x, y. cbn in *. congruence.
Qed.

Lemma inventory_eq t u l k : Forall item_ok l -> Forall item_ok k -> inventory_to_json t l = inventory_to_json u k -> t = u /\ l = k.
Proof.
  intros Hl Hk. unfold inventory_to_json. intros [-> E%json_object_inj]%message_json_eq; [|done..]. apply cons_eq in E as [E%(f_equal snd) _]. cbn [snd] in E.
  apply jarray_eq in E. split; [done|]. by apply (fmap_inj item_ok item_to_json); [apply item_eq|..].
Qed.

Lemma reject_eq r r' : reject_ok r -> reject_ok r' -> reject_to_json r = reject_to_json r' -> r = r'.
Proof.
  intros (_ & _ & He) (_ & _ & He'). unfold reject_to_json. intros [_ E]%message_json_eq.
  destruct r as [c k m [h|]], r' as [c' k' m' [h'|]]; cbn [MsgRejectPayload.rejected_command_ MsgRejectPayload.rejection_code_ MsgRejectPayload.reason_ MsgRejectPayload.extra_data_ app] in *.
  2,3: exfalso; apply (f_equal (json_get (str "extra_data"))) in E; vm_compute in E; done.
  all: apply json_object_inj in E; [|done..]; apply cons_eq in E as [[= E1] E]; apply cons_eq in E as [E2%(f_equal snd) E];
    apply cons_eq in E as [[= E3] E]; cbn [snd] in E2; apply code_name_inj in E2.
  2: congruence.
  apply cons_eq in E as [E4%(f_equal snd) _]. cbn [snd] in E4. apply jstring_eq, to_hex_inj in E4; [congruence | apply He | apply He'].
Qed.

(** A payload with data has the form of a message of its type. *)
Lemma to_json_message p : payload_ok p -> match p with MsgNull _ => True | _ => exists d, to_json service_types p = Success (message_json (payload_type p) d) end.
Proof.
  destruct p as [t|v|t n|g|l|t l|r]; intros Hp; [done | | | | | |]; try by eexists.
  destruct Hp as [_ Hl]. destruct (services_form l Hl) as [r E]. exists (json_object [(str "identifiers", JArray r)]). cbn [to_json].
  unfold addr_to_json. by rewrite E.
Qed.

Definition is_null (p : MessagePayload) : bool := match p with MsgNull _ => true | _ => false end.

Lemma to_json_type p q : payload_ok p -> payload_ok q -> to_json service_types p = to_json service_types q ->
  is_null p = is_null q /\ (is_null p = false -> payload_type p = payload_type q).
Proof.
  assert (Hn : forall t d, JArray [JObject []] <> message_json t d).
  { intros t d. unfold message_json. destruct (json_object_members [(str "command", short_name (enum_name t)); (str "data", d)]) as [m ->]. done. }
  intros Hp%to_json_message Hq%to_json_message E. destruct (is_null p) eqn:Np, (is_null q) eqn:Nq; [by split | | |].
  - destruct p; try done. cbn [to_json] in E. destruct q; try done; destruct Hq as [d Hq]; rewrite Hq in E; by apply success_inj, Hn in E.
  - destruct q; try done. cbn [to_json] in E. destruct p; try done; destruct Hp as [d Hp]; rewrite Hp in E; by apply success_inj, eq_sym, Hn in E.
  - split; [done|]. intros _. assert (exists d e, to_json service_types p = Success (message_json (payload_type p) d) /\
      to_json service_types q = Success (message_json (payload_type q) e)) as (d & e & Ep & Eq).
    { destruct p; try done; destruct q; try done; destruct Hp as [d Hp], Hq as [e Hq]; by exists d, e. }
    rewrite Ep, Eq in E. apply success_inj, message_json_eq in E. apply E.
Qed.

(** Payloads of one type that are within the limits are of one kind. *)
Lemma same_kind p q : payload_ok p -> payload_ok q -> is_null p = is_null q -> (is_null p = false -> payload_type p = payload_type q) ->
  match p, q with
  | MsgNull _, MsgNull _ | MsgVersion _, MsgVersion _ | MsgPingPong _ _, MsgPingPong _ _ | MsgGetHeaders _, MsgGetHeaders _
  | MsgAddr _, MsgAddr _ | MsgInventory _ _, MsgInventory _ _ | MsgReject _, MsgReject _ => True
  | _, _ => False
  end.
Proof.
  intros Hp Hq Hn Ht. destruct p, q; try done; cbn [is_null payload_type payload_ok] in *; specialize (Ht eq_refl); subst; try done; naive_solver.
Qed.

Lemma to_json_inj p q : payload_ok p -> payload_ok q -> to_json service_types p = to_json service_types q -> same_payload p q.
Proof.
  intros Hp Hq E. destruct (to_json_type p q Hp Hq E) as [Hn Ht]. pose proof (same_kind p q Hp Hq Hn Ht) as Hk.
  destruct p as [t|v|t n|g|l|t l|r], q as [u|w|u m|h|k|u k|r']; try done; cbn [to_json] in E; cbn [same_payload]; [|..|].
  - apply success_inj in E. by apply version_eq.
  - apply success_inj, message_json_eq in E as [-> E%json_object_inj]; [|done..]. by injection E.
  - apply success_inj in E. by apply get_headers_eq.
  - destruct Hp as [_ Hl], Hq as [_ Hk']. apply addr_eq; [done..|]. unfold addr_to_json in E.
    destruct (services_form l Hl) as [a Ea], (services_form k Hk') as [b Eb]. rewrite Ea, Eb in *. cbn [outcome_bind] in E.
    apply success_inj, message_json_eq in E as [_ E%json_object_inj]; [|done..]. apply cons_eq in E as [E%(f_equal snd) _].
    cbn [snd] in E. apply jarray_eq in E. by rewrite E.
  - apply success_inj in E. apply inventory_eq; [apply Hp | apply Hq | done].
  - apply success_inj in E. by apply reject_eq.
Qed.

(** Every payload within the limits of the protocol has a form in JSON, and two of them have the
    same form exactly when they are the same but for what no form says: services that are not
    enumerated, the time of a service in a version, and which of the payloads without data it is. *)
Theorem payload_json (p q : MessagePayload) : payload_ok p -> payload_ok q ->
  (exists j, to_json service_types p = Success j) /\
  (to_json service_types p = to_json service_types q <-> same_payload p q).
Proof.
  intros Hp Hq. split.
  { pose proof (to_json_message p Hp) as Hm. destruct p; [by eexists|..]; destruct Hm as [d Hm]; by eexists. }
  split; [by apply to_json_inj|]. destruct p as [t|v|t n|g|l|t l|r], q as [u|w|u m|h|k|u k|r']; try done; cbn [same_payload to_json].
  - intros E. f_equal. by apply version_eq.
  - by intros [-> ->].
  - by intros ->.
  - intros E. destruct Hp as [_ Hl], Hq as [_ Hk]. unfold addr_to_json. by rewrite (proj2 (addr_eq l k Hl Hk) E).
  - by intros [-> ->].
  - by intros ->.
Qed.

End Forms.

(** The enumerators of the header. *)
Definition all_service_types : list (Z * Bytes) :=
  [(kNodeNetwork, str "kNodeNetwork"); (kNodeGetUTXO, str "kNodeGetUTXO"); (kNodeBloom, str "kNodeBloom"); (kNodeWitness, str "kNodeWitness");
   (kNodeXthin, str "kNodeXthin"); (kNodeCompactFilters, str "kNodeCompactFilters"); (kNodeNetworkLimited, str "kNodeNetworkLimited")].

Example ping_form : @to_json model_boost all_service_types (MsgPingPong kPing 7) =
  Success (JObject [(str "command", JString (str "Ping")); (str "data", JObject [(str "nonce", JInt 7)])]).
Proof. by vm_compute. Qed.

Lemma payload_json_witness :
  @to_json model_boost all_service_types (MsgPingPong kPing 7) <> @to_json model_boost all_service_types (MsgPingPong kPong 7).
Proof.
  intros E. apply (@payload_json model_boost model_boost_laws all_service_types ltac:(apply (bool_decide_unpack _); vm_compute; exact I)
    (MsgPingPong kPing 7) (MsgPingPong kPong 7)) in E; [by destruct E | split; [by left | lia] | split; [by right | lia]].
Defined.

End JsonFormsFacts.
