(* ===== verification/Message.v ===== *)
(** * Messages

    Model of [src/src/infra/network/message.cpp] and [message.hpp]: the message
    header, the reassembly of messages out of the octets that arrive, and the
    framing of payloads; with [Hash256] of
    [src/src/core/crypto/hash256.cpp], whose SHA-256 is a parameter. *)

From stdpp Require Import gmap.
From S2P Require Import Prelude Text Stream Boost Serialize Types Protocol Misc Addresses Payloads.
#[local] Open Scope Z_scope.

(** ** Hash256 *)

Module Hash256.

(** The octets given to the hasher and their count. *)
Record t := mk { ingested_ : Bytes; ingested_size_ : Z }.

Definition make (data : Bytes) : t := mk data (zlen data).
Definition init (data : Bytes) (h : t) : t := mk data (zlen data).
Definition update (data : Bytes) (h : t) : t := mk (ingested_ h ++ data) (ingested_size_ h + zlen data).

Definition kEmptyHash : Bytes :=
  [0x5d; 0xf6; 0xe0; 0xe2; 0x76; 0x13; 0x59; 0xd3; 0x0a; 0x82; 0x75;
   0x05; 0x8e; 0x29; 0x9f; 0xcc; 0x03; 0x81; 0x53; 0x45; 0x45; 0xf5;
   0x5c; 0xf4; 0x3e; 0x41; 0x98; 0x3f; 0x5d; 0x4c; 0x94; 0x56].

Definition finalize `{Crypto} (h : t) : Bytes :=
  if ingested_size_ h =? 0 then kEmptyHash
  else
    let data := sha256 (ingested_ h) in
    if bool_decide (data = []) then data else sha256 data.

End Hash256.

(** ** MessageHeader *)

Module MessageHeader.

Record t := mk {
  network_magic : Bytes;
  command : Bytes;
  payload_length : Z;
  payload_checksum : Bytes;
  message_type_ : MessageType;
}.

Definition fresh : t :=
  mk (replicate 4 0) (replicate 12 0) 0 (replicate 4 0) kMissingOrUnknown.

Definition set_magic v h := mk v (command h) (payload_length h) (payload_checksum h) (message_type_ h).
Definition set_command v h := mk (network_magic h) v (payload_length h) (payload_checksum h) (message_type_ h).
Definition set_length v h := mk (network_magic h) (command h) v (payload_checksum h) (message_type_ h).
Definition set_checksum v h := mk (network_magic h) (command h) (payload_length h) v (message_type_ h).
Definition set_message_type v h := mk (network_magic h) (command h) (payload_length h) (payload_checksum h) v.

Definition reset (h : t) : t := fresh.

Definition pristine (h : t) : bool :=
  forallb (λ b, b =? 0) (network_magic h) && forallb (λ b, b =? 0) (command h)
  && forallb (λ b, b =? 0) (payload_checksum h)
  && bool_decide (message_type_ h = kMissingOrUnknown) && (payload_length h =? 0).

Definition get_definition (h : t) : MessageDefinition := definition_of (message_type_ h).
Definition get_type (h : t) : MessageType := Protocol.message_type (get_definition h).

(** [memcpy] of the command over the beginning of the field. *)
Definition set_type (type : MessageType) (h : t) : t :=
  if negb (pristine h) then h
  else
    let c := take 12 (Protocol.command (definition_of type)) in
    set_message_type type (set_command (c ++ drop (length c) (command h)) h).

Definition serialization (action : Action) : Ser t :=
  on_field network_magic set_magic (bind_array kMessageHeaderMagicLength action) >>>
  on_field command set_command (bind_array kMessageHeaderCommandLength action) >>>
  on_field payload_length set_length (bind_integral uint32_t action) >>>
  on_field payload_checksum set_checksum (bind_array kMessageHeaderChecksumLength action).

(** [boost::algorithm::clamp] *)
Definition clamp (v lo hi : Z) : Z := if v <? lo then lo else if hi <? v then hi else v.

(** The comparison with an optional bound. *)
Definition below (v : Z) (bound : option Z) : bool := match bound with Some b => v <? b | None => false end.
Definition above (v : Z) (bound : option Z) : bool := match bound with Some b => b <? v | None => false end.

Definition validate (protocol_version : Z) (magic : Bytes) : op t unit :=
  λ h,
    if negb (zlen magic =? zlen (network_magic h)) then (Failure (NetError kMessageHeaderInvalidMagic), h)
    else if negb (bool_decide (network_magic h = magic)) then (Failure (NetError kMessageHeaderInvalidMagic), h)
    else
      let h := set_message_type (message_type_from_command (command h)) h in
      if bool_decide (message_type_ h = kMissingOrUnknown)
      then (Failure (NetError kMessageHeaderIllegalCommand), h)
      else if kMaxProtocolMessageLength <? payload_length h
      then (Failure (NetError kMessageHeaderIllegalPayloadLength), h)
      else
        let d := get_definition h in
        if below protocol_version (min_protocol_version d)
        then (Failure (NetError kUnsupportedMessageTypeForProtocolVersion), h)
        else if above protocol_version (max_protocol_version d)
        then (Failure (NetError kDeprecatedMessageTypeForProtocolVersion), h)
        else if negb (clamp (payload_length h) (default 0 (min_payload_length d))
                        (default kMaxProtocolMessageLength (max_payload_length d)) =? payload_length h)
        then (Failure (NetError kMessageHeaderIllegalPayloadLength), h)
        else if (payload_length h =? 0) && negb (bool_decide (payload_checksum h = take 4 Hash256.kEmptyHash))
        then (Failure (NetError kMessageHeaderInvalidChecksum), h)
        else (Success (), h).

End MessageHeader.

(** ** Message *)

Module Message.

Record t := mk {
  header_ : MessageHeader.t;
  ser_stream_ : SDataStream.t;
  network_magic_ : Bytes;
  header_validated_ : bool;
  payload_validated_ : bool;
}.

(** The constructor with version and magic. *)
Definition make (version : Z) (magic : Bytes) : t :=
  mk MessageHeader.fresh (SDataStream.make kNetwork version) magic false false.

Definition set_header v m := mk v (ser_stream_ m) (network_magic_ m) (header_validated_ m) (payload_validated_ m).
Definition set_stream v m := mk (header_ m) v (network_magic_ m) (header_validated_ m) (payload_validated_ m).
Definition set_validated hv pv m := mk (header_ m) (ser_stream_ m) (network_magic_ m) hv pv.

Definition size (m : t) : Z := DataStream.size (SDataStream.base (ser_stream_ m)).
Definition avail (m : t) : Z := DataStream.avail (SDataStream.base (ser_stream_ m)).
Definition tellg (m : t) : Z := DataStream.tellg (SDataStream.base (ser_stream_ m)).
Definition get_version (m : t) : Z := SDataStream.version_ (ser_stream_ m).
Definition is_complete (m : t) : bool := header_validated_ m && payload_validated_ m.
Definition get_type (m : t) : MessageType := MessageHeader.get_type (header_ m).

Definition reset (m : t) : t :=
  mk (MessageHeader.reset (header_ m)) (SDataStream.clear (ser_stream_ m)) (network_magic_ m) false false.

(** Operations of the stream and of the header, on the message. *)
Definition on_stream {A} (f : op SDataStream.t A) : op t A :=
  λ m, let (r, s) := f (ser_stream_ m) in (r, set_stream s m).
Definition on_data {A} (f : op DataStream.t A) : op t A := on_stream (SDataStream.lift f).
Definition on_header {A} (f : op MessageHeader.t A) : op t A :=
  λ m, let (r, h) := f (header_ m) in (r, set_header h m).

(** [ser_stream_.seekg(position)] *)
Definition seekg (position : Z) : op t Z :=
  on_data (λ d, let (p, d') := DataStream.seekg position d in (Success p, d')).

(** [ASSERT(ser_stream_.seekg(position) == position)] *)
Definition assert_seekg (position : Z) : op t unit :=
  p <~ seekg position;; op_assert (p =? position).

(** [gsl::finally]: the action runs on every exit. *)
Definition finally {A} (m : op t A) (cleanup : t -> t) : op t A :=
  λ s, let (r, s') := m s in (r, cleanup s').

Definition op_error {S A} (e : net_error) : op S A := op_fail (NetError e).

Section Message.
Context `{Crypto}.

Definition deserialize_header : op t unit :=
  λ m, let '(r, h, s) := MessageHeader.serialization kDeserialize (header_ m) (ser_stream_ m) in
       (r, set_stream s (set_header h m)).

Definition validate_header : op t unit :=
  λ m,
    if header_validated_ m then (Success (), m)
    else if size m <? kMessageHeaderLength then (Failure (NetError kMessageHeaderIncomplete), m)
    else
      (deserialize_header >>;
       on_header (MessageHeader.validate (get_version m) (network_magic_ m)) >>;
       λ m', (Success (), set_validated true (MessageHeader.payload_length (header_ m') =? 0) m')) m.

Definition validate_payload_vector (definition : MessageDefinition) : op t unit :=
  let offset := if decide (Protocol.message_type definition = kGetHeaders) then 4 else 0 in
  let pos := kMessageHeaderLength + offset in
  p <~ seekg pos;;
  λ m,
    if negb (p =? pos) || (avail m <? 1) then (Failure (NetError kMessageBodyIncomplete), m)
    else
      match on_data (read_compact true) m with
      | (Success num_elements, m') =>
          if num_elements =? 0 then (Failure (NetError kMessagePayloadEmptyVector), m')
          else if default kMaxSerializedCompactSize (max_vector_items definition) <? num_elements
          then (Failure (NetError kMessagePayloadOversizedVector), m')
          else
            match vector_item_size definition with
            | None => (Success (), m')
            | Some item =>
                let extra := if decide (Protocol.message_type definition = kGetHeaders) then item else 0 in
                let expected_vector_data_size := num_elements * item + extra + ser_compact_sizeof num_elements in
                if negb (MessageHeader.payload_length (header_ m') =? expected_vector_data_size + offset)
                then (Failure (NetError kMessagePayloadLengthMismatchesVectorSize), m')
                else (Success (), m')
            end
      | (Failure (SerError kReadOverflow), m') => (Failure (NetError kMessageBodyIncomplete), m')
      | (Failure e, m') => (Failure e, m')
      | (Fault f, m') => (Fault f, m')
      end.

(** [memcmp] of the first octets of a digest, which must have that many. *)
Definition validate_payload_checksum : op t unit :=
  payload_view <~ on_data (DataStream.read None);;
  λ m,
    if negb (zlen payload_view =? MessageHeader.payload_length (header_ m)) then (Fault AssertionFailed, m)
    else
      let payload_hash := Hash256.finalize (Hash256.make payload_view) in
      if zlen payload_hash <? Z.of_nat kMessageHeaderChecksumLength then (Fault UndefinedBehaviour, m)
      else if negb (bool_decide (take kMessageHeaderChecksumLength payload_hash
                                 = MessageHeader.payload_checksum (header_ m)))
      then (Failure (NetError kMessageHeaderInvalidChecksum), m)
      else (Success (), m).

Definition validate_payload : op t unit :=
  λ m,
    if payload_validated_ m then (Success (), m)
    else if negb (header_validated_ m) then (Failure (NetError kMessageHeaderIncomplete), m)
    else
      let payload_incomplete := negb (avail m =? MessageHeader.payload_length (header_ m)) in
      let definition := MessageHeader.get_definition (header_ m) in
      finally
        ((if is_vectorized definition then
            validate_payload_vector definition >>;
            match vector_item_size definition with
            | Some item =>
                if payload_incomplete then op_ret ()
                else
                  λ m', match on_data (DataStream.read None) m' with
                        | (Success payload_view, m'') =>
                            if 0 <? count_duplicate_data_chunks payload_view item 1
                            then (Failure (NetError kMessagePayloadDuplicateVectorItems), m'')
                            else (Success (), m'')
                        | (_, m'') => (Fault AssertionFailed, m'')
                        end
            | None => op_ret ()
            end
          else op_ret ()) >>;
         (if payload_incomplete then op_error kMessageBodyIncomplete
          else
            assert_seekg kMessageHeaderLength >>;
            validate_payload_checksum >>;
            λ m', (Success (), set_validated (header_validated_ m') true m')))
        (λ m', (seekg kMessageHeaderLength m').2) m.

Definition validate : op t unit :=
  λ m,
    if kMaxProtocolMessageLength <? size m then (Failure (NetError kMessageSizeOverflow), m)
    else if is_complete m then (Success (), m)
    else
      (validate_header >>;
       λ m1, let (result, m2) := validate_payload m1 in
             match assert_seekg kMessageHeaderLength m2 with
             | (Success _, m3) => (result, m3)
             | (r, m3) => (r, m3)
             end) m.

(** The loop of [write]: [None] when the fuel does not suffice. *)
Fixpoint write_loop (fuel : nat) (result : outcome unit) (input : Bytes) (m : t)
    : option (outcome unit * Bytes * t) :=
  match fuel with
  | O => None
  | S fuel =>
      if bool_decide (input = []) then Some (result, input, m)
      else
        let header_mode := tellg m <? kMessageHeaderLength in
        let wanted := wrap 64 ((if header_mode then kMessageHeaderLength
                                else MessageHeader.payload_length (header_ m)) - avail m) in
        let bytes_to_read := Z.min wanted (zlen input) in
        match on_data (DataStream.write (ztake bytes_to_read input)) m with
        | (Success _, m1) =>
            let input' := zdrop bytes_to_read input in
            match validate m1 with
            | (Success _, m2) => Some (Success (), input', m2)
            | (r, m2) =>
                if bool_decide (r = Failure (NetError kMessageHeaderIncomplete))
                   || bool_decide (r = Failure (NetError kMessageBodyIncomplete))
                then write_loop fuel r input' m2
                else Some (r, input', m2)
            end
        | (r, m1) => Some (r, input, m1)
        end
  end.

(** Every turn of the loop but the last consumes input. *)
Definition write (input : Bytes) (m : t) : option (outcome unit * Bytes * t) :=
  if bool_decide (input = []) then
    if negb (header_validated_ m) then Some (Failure (NetError kMessageHeaderIncomplete), input, m)
    else if negb (payload_validated_ m) then Some (Failure (NetError kMessageBodyIncomplete), input, m)
    else Some (Success (), input, m)
  else if is_complete m then Some (Failure (NetError kMessageWriteNotPermitted), input, m)
  else write_loop (S (length input)) (Success ()) input m.

Context `{Boost}.

(** [push] also leaves its mark on the payload. *)
Definition push (payload : MessagePayload) (m : t) : outcome unit * MessagePayload * t :=
  if negb (MessageHeader.pristine (header_ m)) then (Failure (NetError kMessagePushNotPermitted), payload, m)
  else if bool_decide (payload_type payload = kMissingOrUnknown)
  then (Failure (NetError kMessageUnknownCommand), payload, m)
  else
    let h := MessageHeader.set_magic (network_magic_ m) (MessageHeader.set_type (payload_type payload) (header_ m)) in
    let m := set_stream (SDataStream.clear (ser_stream_ m)) (set_header h m) in
    let '(r, h, s) := MessageHeader.serialization kSerialize (header_ m) (ser_stream_ m) in
    let m := set_stream s (set_header h m) in
    match r with
    | Success _ =>
        if negb (size m =? kMessageHeaderLength) then (Fault AssertionFailed, payload, m)
        else
          let '(r, payload, s) := payload_serialization kSerialize payload (ser_stream_ m) in
          let m := set_stream s m in
          match r with
          | Success _ =>
              let m := set_header (MessageHeader.set_length (wrap 32 (size m - kMessageHeaderLength)) (header_ m)) m in
              let finish : op t unit :=
                assert_seekg kMessageHeaderLength >>;
                payload_view <~ on_data (DataStream.read None);;
                let payload_hash := Hash256.finalize (Hash256.make payload_view) in
                (λ m, if zlen payload_hash <? Z.of_nat kMessageHeaderChecksumLength
                      then (Fault UndefinedBehaviour, m)
                      else (Success (), set_header (MessageHeader.set_checksum
                              (take kMessageHeaderChecksumLength payload_hash) (header_ m)) m)) >>;
                (λ m, on_data (DataStream.poke 16 (int_bytes uint32_t (MessageHeader.payload_length (header_ m)))) m) >>;
                (λ m, on_data (DataStream.poke 20 (MessageHeader.payload_checksum (header_ m))) m) >>;
                assert_seekg 0 >>;
                validate in
              let (r, m) := finish m in (r, payload, m)
          | r => (r, payload, m)
          end
    | r => (r, payload, m)
    end.

End Message.
End Message.
