(* ===== verification/MessageFacts.v ===== *)
(** * Properties of messages

    The abstract meaning of the octets received for a message ([classify]) and
    the proofs that [Message::write] computes it, however the octets are cut
    into chunks, and that [Message::push] produces octets that are accepted. *)

From stdpp Require Import gmap.
From S2P Require Import Prelude Text Stream Boost Serialize Types Protocol Misc Addresses Payloads Message.
#[local] Open Scope Z_scope.

Module MessageSpec.

(** ** What a sequence of octets means *)

(** A compact integer at the beginning of [bs]: its value and its size. *)
Definition parse_wide (n least : Z) (r : Bytes) : outcome (Z * Z) :=
  if zlen r <? n then Failure (SerError kReadOverflow)
  else
    let v := le_value (ztake n r) in
    if v <? least then Failure (SerError kNonCanonicalCompactSize)
    else if kMaxSerializedCompactSize <? v then Failure (SerError kCompactSizeTooBig)
    else Success (v, 1 + n).

Definition parse_compact (bs : Bytes) : outcome (Z * Z) :=
  match bs with
  | [] => Failure (SerError kReadOverflow)
  | b :: r =>
      if b <? 253 then Success (b, 1)
      else if b =? 253 then parse_wide 2 253 r
      else if b =? 254 then parse_wide 4 0x10000 r
      else parse_wide 8 0x100000000 r
  end.

(** Forgets the value of a result. *)
Definition unit_of {A} (r : outcome A) : outcome unit := let? _ := r in Success ().
Definition value_of (r : outcome (Z * Z)) : outcome Z := let? (v, _) := r in Success v.

(** Where the count of items of a payload is. *)
Definition count_offset (d : MessageDefinition) : Z :=
  if decide (message_type d = kGetHeaders) then 4 else 0.

(** The checks on the count of items, for the octets [p] of a payload of [len]
    octets that have arrived; the size of the count when they pass. *)
Definition vector_check (d : MessageDefinition) (len : Z) (p : Bytes) : outcome Z :=
  if zlen p <? count_offset d + 1 then Failure (NetError kMessageBodyIncomplete)
  else
    match parse_compact (zdrop (count_offset d) p) with
    | Success (n, k) =>
        if n =? 0 then Failure (NetError kMessagePayloadEmptyVector)
        else if default kMaxSerializedCompactSize (max_vector_items d) <? n
        then Failure (NetError kMessagePayloadOversizedVector)
        else
          match vector_item_size d with
          | None => Success k
          | Some item =>
              let extra := if decide (message_type d = kGetHeaders) then item else 0 in
              if len =? n * item + extra + ser_compact_sizeof n + count_offset d then Success k
              else Failure (NetError kMessagePayloadLengthMismatchesVectorSize)
          end
    | Failure (SerError kReadOverflow) => Failure (NetError kMessageBodyIncomplete)
    | Failure e => Failure e
    | Fault f => Fault f
    end.

(** No two items of the vector are the same. *)
Definition duplicate_check (d : MessageDefinition) (k : Z) (p : Bytes) : outcome unit :=
  match vector_item_size d with
  | Some item =>
      if 0 <? count_duplicate_data_chunks (zdrop (count_offset d + k) p) item 1
      then Failure (NetError kMessagePayloadDuplicateVectorItems) else Success ()
  | None => Success ()
  end.

Section spec.
Context `{Crypto}.

Definition checksum (p : Bytes) : Bytes := take 4 (Hash256.finalize (Hash256.make p)).

Definition checksum_check (h : MessageHeader.t) (p : Bytes) : outcome unit :=
  if bool_decide (checksum p = MessageHeader.payload_checksum h) then Success ()
  else Failure (NetError kMessageHeaderInvalidChecksum).

(** The octets [p] of a payload against its header: the item count as soon as
    it is there, and the rest when everything is. *)
Definition payload_check (h : MessageHeader.t) (p : Bytes) : outcome unit :=
  let d := MessageHeader.get_definition h in
  let len := MessageHeader.payload_length h in
  let complete := zlen p =? len in
  let? _ := (if is_vectorized d then
               let? k := vector_check d len p in
               if complete then duplicate_check d k p else Success ()
             else Success ()) in
  if complete then checksum_check h p else Failure (NetError kMessageBodyIncomplete).

(** The header that 24 octets spell. *)
Definition header_of (bs : Bytes) : MessageHeader.t :=
  MessageHeader.mk (ztake 4 bs) (ztake 12 (zdrop 4 bs)) (le_value (ztake 4 (zdrop 16 bs)))
    (ztake 4 (zdrop 20 bs)) (message_type_from_command (ztake 12 (zdrop 4 bs))).

Definition header_check (version : Z) (magic : Bytes) (h : MessageHeader.t) : outcome unit :=
  (MessageHeader.validate version magic h).1.

(** The octets a message extends over, once its header is there. *)
Definition frame_length (bs : Bytes) : Z := kMessageHeaderLength + MessageHeader.payload_length (header_of bs).

(** What has been received, [bs], means: a complete message, an incomplete one,
    or an error. *)
Definition classify (version : Z) (magic bs : Bytes) : outcome unit :=
  if zlen bs <? kMessageHeaderLength then Failure (NetError kMessageHeaderIncomplete)
  else
    let h := header_of bs in
    let? _ := header_check version magic h in
    if MessageHeader.payload_length h =? 0 then Success ()
    else payload_check h (zdrop kMessageHeaderLength (ztake (frame_length bs) bs)).

End spec.

Definition incomplete (r : outcome unit) : bool :=
  bool_decide (r = Failure (NetError kMessageHeaderIncomplete))
  || bool_decide (r = Failure (NetError kMessageBodyIncomplete)).

End MessageSpec.

Module MessageProofs.
Import MessageSpec.

(** ** States of a message by the contents of its stream *)

Definition place (acc : Bytes) (p : Z) (m : Message.t) : Message.t :=
  Message.set_stream (SDataStream.set_base (DataStream.mk acc p) (Message.ser_stream_ m)) m.

Lemma place_place acc p acc' p' m : place acc p (place acc' p' m) = place acc p m.
Proof. done. Qed.

Lemma on_data_place {A} (f : op DataStream.t A) acc p m :
  Message.on_data f (place acc p m) =
  (let (r, d) := f (DataStream.mk acc p) in (r, place (buffer_ d) (read_position_ d) m)).
Proof.
  unfold Message.on_data, Message.on_stream, SDataStream.lift, place. simpl.
  destruct (f (DataStream.mk acc p)) as [r d]. by destruct d.
Qed.

Lemma seekg_place n acc p m : Message.seekg n (place acc p m) =
  (Success (Z.min n (zlen acc)), place acc (Z.min n (zlen acc)) m).
Proof. unfold Message.seekg. by rewrite on_data_place. Qed.

Lemma assert_seekg_place n acc p m : 0 <= n <= zlen acc ->
  Message.assert_seekg n (place acc p m) = (Success (), place acc n m).
Proof.
  intros Hn. unfold Message.assert_seekg, op_bind. rewrite seekg_place, Z.min_l by lia.
  unfold op_assert. by rewrite Z.eqb_refl.
Qed.

Lemma avail_place acc p m : 0 <= p <= zlen acc -> zlen acc < 2 ^ 64 ->
  Message.avail (place acc p m) = zlen acc - p.
Proof.
  intros Hp Hl. unfold Message.avail, place; simpl. by rewrite DataStreamFacts.avail_wf.
Qed.

Lemma read_rest acc p m : 0 <= p <= zlen acc -> zlen acc < 2 ^ 64 ->
  Message.on_data (DataStream.read None) (place acc p m) = (Success (zdrop p acc), place acc (zlen acc) m).
Proof.
  intros Hp Hl. rewrite on_data_place.
  assert (Hwf : DataStreamFacts.wf (DataStream.mk acc p)) by done.
  unfold DataStream.read. simpl default. rewrite DataStreamFacts.avail_wf by done.
  unfold DataStream.size. simpl. case_cmp; [lia|]. case_cmp; [lia|].
  rewrite ztake_ge by (zlens; lia). by replace (p + (zlen acc - p)) with (zlen acc) by lia.
Qed.

(** ** Compact integers *)

Lemma read_data_at ty acc p : 0 <= p <= zlen acc -> zlen acc < 2 ^ 64 ->
  let n := Z.of_nat (ssizeof ty) in
  read_data ty (DataStream.mk acc p) =
  if zlen acc - p <? n then (Failure (SerError kReadOverflow), DataStream.mk acc p)
  else (Success (int_of_bytes ty (ztake n (zdrop p acc))), DataStream.mk acc (p + n)).
Proof.
  intros Hp Hl n. unfold read_data, op_bind, DataStream.read. simpl default.
  rewrite DataStreamFacts.avail_wf by done. unfold DataStream.size. simpl. fold n.
  case_cmp; [done|]. by case_cmp; [lia|].
Qed.

(** The wide forms, after the prefix octet. *)
Lemma read_wide ty least acc p :
  is_signed ty = false -> 0 <= p <= zlen acc -> zlen acc < 2 ^ 64 ->
  let r := parse_wide (Z.of_nat (ssizeof ty)) least (zdrop p acc) in
  exists p', op_bind (read_as ty) (λ v,
    if v <? least then op_fail (SerError kNonCanonicalCompactSize)
    else if true && (kMaxSerializedCompactSize <? v) then op_fail (SerError kCompactSizeTooBig) else op_ret v)
    (DataStream.mk acc p) = (value_of r, DataStream.mk acc p') /\ p <= p' <= zlen acc /\
  (forall v k, r = Success (v, k) -> p' = p + k - 1).
Proof.
  intros Hs Hp Hl r. unfold r, parse_wide, op_bind, read_as. rewrite read_data_at by done. cbv zeta.
  rewrite zlen_zdrop, Z.max_r by lia. case_cmp; [exists p; split_and!; (done || lia)|]. exists (p + Z.of_nat (ssizeof ty)).
  unfold int_of_bytes. rewrite Hs. simpl andb.
  split; [repeat case_cmp; done|]. split; [lia|]. intros v k. repeat case_cmp; try done. intros [= <- <-]. lia.
Qed.

Lemma read_compact_place acc p m : 0 <= p <= zlen acc -> zlen acc < 2 ^ 64 -> bytes_ok acc ->
  exists p', Message.on_data (read_compact true) (place acc p m) =
    (value_of (parse_compact (zdrop p acc)), place acc p' m) /\ 0 <= p' <= zlen acc /\
    (forall v k, parse_compact (zdrop p acc) = Success (v, k) -> p' = p + k).
Proof.
  intros Hp Hl Hok. rewrite on_data_place. unfold read_compact. cbv zeta. unfold op_bind at 1, read_as at 1.
  rewrite (read_data_at uint8_t) by done. cbv zeta. change (Z.of_nat (ssizeof uint8_t)) with 1.
  assert (Hz : zlen (zdrop p acc) = zlen acc - p) by (zlens; lia).
  unfold parse_compact. destruct (zdrop p acc) as [|b r] eqn:E.
  { change (zlen []) with 0 in Hz. case_cmp; [|lia]. exists p. split_and!; (done || lia). }
  rewrite zlen_cons in Hz. rewrite (proj2 (Z.ltb_ge (zlen acc - p) 1)) by lia.
  assert (Hb : is_byte b).
  { assert (Hd : bytes_ok (zdrop p acc)) by (by apply Forall_drop). rewrite E in Hd. by apply Forall_cons in Hd as [? _]. }
  assert (Hr : zdrop (p + 1) acc = r) by (rewrite <- zdrop_zdrop, E by lia; done).
  change (int_of_bytes uint8_t (ztake 1 (b :: r))) with (b + 256 * 0).
  rewrite Z.mul_0_r, Z.add_0_r. unfold is_byte in Hb.
  destruct (b <? 253) eqn:E1.
  { prop_bools. unfold kMaxSerializedCompactSize at 1. simpl andb. case_cmp; [lia|].
    exists (p + 1). split; [done|]. split; [lia|]. by intros v k [= <- <-]. }
  assert (Hw : forall ty least, is_signed ty = false -> exists p',
    (let (r0, d) := op_bind (read_as ty) (λ v,
      if v <? least then op_fail (SerError kNonCanonicalCompactSize)
      else if true && (kMaxSerializedCompactSize <? v) then op_fail (SerError kCompactSizeTooBig) else op_ret v)
      (DataStream.mk acc (p + 1)) in (r0, place (buffer_ d) (read_position_ d) m)) =
    (value_of (parse_wide (Z.of_nat (ssizeof ty)) least r), place acc p' m) /\ 0 <= p' <= zlen acc /\
    (forall v k, parse_wide (Z.of_nat (ssizeof ty)) least r = Success (v, k) -> p' = p + k)).
  { intros ty least Hty. destruct (read_wide ty least acc (p + 1) Hty) as (p' & -> & Hb' & Hp'); [lia | done |].
    rewrite Hr in *. exists p'. split; [done|]. split; [lia|]. intros v k Hv. rewrite (Hp' v k Hv). lia. }
  destruct (b =? 253) eqn:E2; [apply (Hw uint16_t 253 eq_refl)|].
  destruct (b =? 254) eqn:E3; [apply (Hw uint32_t 0x10000 eq_refl)|].
  prop_bools. destruct (Z.eqb_spec b 255); [apply (Hw uint64_t 0x100000000 eq_refl) | lia].
Qed.

(** What has been recognised stays recognised when more octets arrive. *)
Lemma parse_compact_app bs q : parse_compact bs <> Failure (SerError kReadOverflow) ->
  parse_compact (bs ++ q) = parse_compact bs.
Proof.
  unfold parse_compact. destruct bs as [|b r]; [done|]. rewrite <- app_comm_cons.
  assert (Hw : forall n least, 0 <= n -> parse_wide n least r <> Failure (SerError kReadOverflow) ->
    parse_wide n least (r ++ q) = parse_wide n least r).
  { intros n least Hn. unfold parse_wide. rewrite zlen_app.
    destruct (Z.ltb_spec (zlen r) n); [done|]. intros _. rewrite (proj2 (Z.ltb_ge _ _)) by lia.
    unfold ztake. by rewrite take_app_le by lia. }
  destruct (b <? 253); [done|]. destruct (b =? 253); [by apply Hw|].
  destruct (b =? 254); by apply Hw.
Qed.

Lemma parse_compact_size bs v k : parse_compact bs = Success (v, k) -> 1 <= k <= zlen bs.
Proof.
  unfold parse_compact. destruct bs as [|b r]; [done|]. rewrite zlen_cons.
  assert (Hw : forall n least, 0 <= n -> parse_wide n least r = Success (v, k) -> 1 <= k <= zlen r + 1).
  { intros n least Hn. unfold parse_wide. repeat case_cmp; try done. intros [= _ <-]. lia. }
  destruct (b <? 253); [intros [= _ <-]; lia|]. destruct (b =? 253); [by apply Hw|].
  destruct (b =? 254); by apply Hw.
Qed.

Lemma vector_check_size d len p k : vector_check d len p = Success k -> 1 <= k.
Proof.
  unfold vector_check. case_cmp; [done|].
  destruct (parse_compact _) as [[n k']|e|f] eqn:E; [|by destruct e as [[]| | | |]|done].
  apply parse_compact_size in E. destruct (n =? 0); [done|]. destruct (_ <? n); [done|].
  destruct (vector_item_size d); [destruct (len =? _)|]; try done; intros [= <-]; lia.
Qed.

(** ** Validation of a payload *)

Lemma vector_place d acc m :
  kMessageHeaderLength <= zlen acc < 2 ^ 64 -> bytes_ok acc ->
  let r := vector_check d (MessageHeader.payload_length (Message.header_ m)) (zdrop kMessageHeaderLength acc) in
  exists p', Message.validate_payload_vector d (place acc kMessageHeaderLength m) = (unit_of r, place acc p' m) /\
    0 <= p' <= zlen acc /\
    (forall k, r = Success k -> p' = kMessageHeaderLength + (count_offset d + k)).
Proof.
  intros Hl Hok r. unfold r, Message.validate_payload_vector, vector_check. fold (count_offset d).
  assert (Hoff : 0 <= count_offset d <= 4) by (unfold count_offset; case_decide; lia).
  set (off := count_offset d) in *. assert (H24 : kMessageHeaderLength = 24) by done.
  unfold op_bind. rewrite seekg_place. rewrite zlen_zdrop by lia.
  destruct (Z.ltb_spec (Z.max 0 (zlen acc - kMessageHeaderLength)) (off + 1)).
  - exists (Z.min (kMessageHeaderLength + off) (zlen acc)). rewrite avail_place by lia.
    destruct (Z.eqb_spec (Z.min (kMessageHeaderLength + off) (zlen acc)) (kMessageHeaderLength + off)); simpl.
    + case_cmp; [|lia]. split; [done|]. split; [lia | done].
    + split; [done|]. split; [lia | done].
  - rewrite Z.min_l, Z.eqb_refl by lia. rewrite avail_place by lia. simpl negb. simpl orb.
    rewrite (proj2 (Z.ltb_ge _ _)) by lia. cbv iota.
    destruct (read_compact_place acc (kMessageHeaderLength + off) m) as (p' & -> & Hb & Hp'); [lia | lia | done |].
    rewrite zdrop_zdrop by lia.
    exists p'. destruct (parse_compact (zdrop (kMessageHeaderLength + off) acc)) as [[n k]|e|f] eqn:E.
    + specialize (Hp' n k eq_refl). simpl value_of. cbv beta iota.
      destruct (n =? 0); [by split; [|split]|]. destruct (_ <? n); [by split; [|split]|].
      destruct (vector_item_size d) as [item|].
      * cbv zeta. change (Message.header_ (place acc p' m)) with (Message.header_ m).
        destruct (_ =? _); simpl; split; [done | | done |]; (split; [done|]); [|done]. intros k' [= <-]. lia.
      * split; [done|]. split; [done|]. intros k' [= <-]. lia.
    + simpl value_of. destruct e as [[]| | | |]; simpl; by split; [|split].
    + simpl. by split; [|split].
Qed.

(** ** Headers *)

Definition header_bytes (h : MessageHeader.t) : Bytes :=
  MessageHeader.network_magic h ++ MessageHeader.command h ++
  int_bytes uint32_t (MessageHeader.payload_length h) ++ MessageHeader.payload_checksum h.

Definition header_ok (h : MessageHeader.t) : Prop :=
  length (MessageHeader.network_magic h) = 4%nat /\ length (MessageHeader.command h) = 12%nat /\
  in_range uint32_t (MessageHeader.payload_length h) /\ length (MessageHeader.payload_checksum h) = 4%nat.

Lemma zlen_header_bytes h : header_ok h -> zlen (header_bytes h) = kMessageHeaderLength.
Proof.
  intros (H1 & H2 & _ & H4). unfold header_bytes.
  rewrite !zlen_app, Laws.length_int_bytes, H1, H2, H4. done.
Qed.

Lemma msg_header_writes h : Laws.writes (MessageHeader.serialization kSerialize) h (header_bytes h) h.
Proof. destruct h. Laws.writes_members; auto using Laws.array_writes, Laws.integral_writes. Qed.

Lemma msg_header_reads h : header_ok h ->
  Laws.reads (MessageHeader.serialization kDeserialize) (header_bytes h)
    (λ h0, MessageHeader.set_message_type (MessageHeader.message_type_ h0) h).
Proof.
  intros (H1 & H2 & H3 & H4). eapply Laws.reads_ext.
  { eapply Laws.reads_then; [by apply Laws.reads_field, Laws.array_reads|].
    eapply Laws.reads_then; [by apply Laws.reads_field, Laws.array_reads|].
    eapply Laws.reads_then; [apply Laws.reads_field, Laws.integral_reads; [simpl; lia | done]|].
    by apply Laws.reads_field, Laws.array_reads. }
  by intros [].
Qed.

Lemma header_of_ok acc : bytes_ok acc -> kMessageHeaderLength <= zlen acc -> header_ok (header_of acc).
Proof.
  intros Hok Hl. assert (H24 : kMessageHeaderLength = 24) by done.
  assert (Hl3 : length (ztake 4 (zdrop 16 acc)) = 4%nat) by (unfold ztake, zdrop; rewrite length_take, length_drop; lia).
  unfold header_ok, header_of. cbn [MessageHeader.network_magic MessageHeader.command MessageHeader.payload_length
    MessageHeader.payload_checksum]. split_and!.
  - unfold ztake. rewrite length_take. lia.
  - unfold ztake, zdrop. rewrite length_take, length_drop. lia.
  - pose proof (le_value_bound (ztake 4 (zdrop 16 acc))) as Hb. rewrite Hl3 in Hb.
    apply Hb. by apply Forall_take, Forall_drop.
  - unfold ztake, zdrop. rewrite length_take, length_drop. lia.
Qed.

Lemma header_of_bytes acc : bytes_ok acc -> kMessageHeaderLength <= zlen acc ->
  header_bytes (header_of acc) ++ zdrop kMessageHeaderLength acc = acc.
Proof.
  intros Hok Hl. assert (H24 : kMessageHeaderLength = 24) by done. rewrite H24 in *.
  unfold header_bytes, header_of, int_bytes. cbn [MessageHeader.network_magic MessageHeader.command
    MessageHeader.payload_length MessageHeader.payload_checksum].
  rewrite le_bytes_le_value; [| by apply Forall_take, Forall_drop |
    change (ssizeof uint32_t) with 4%nat; unfold ztake, zdrop; rewrite length_take, length_drop; lia].
  rewrite <- !app_assoc.
  change 24 with (20 + 4). rewrite <- (zdrop_zdrop 4 20 acc), ztake_zdrop by lia.
  change 20 with (16 + 4). rewrite <- (zdrop_zdrop 4 16 acc), ztake_zdrop by lia.
  change (zdrop 16 acc) with (zdrop (4 + 12) acc). rewrite <- (zdrop_zdrop 12 4 acc), ztake_zdrop by lia. apply ztake_zdrop.
Qed.

(** The type a header had before does not matter to its validation. *)
Lemma validate_header_type v magic h t :
  (MessageHeader.validate v magic (MessageHeader.set_message_type t h)).1 = (MessageHeader.validate v magic h).1 /\
  ((MessageHeader.validate v magic h).1 = Success () ->
   MessageHeader.validate v magic (MessageHeader.set_message_type t h) =
     (Success (), MessageHeader.set_message_type (message_type_from_command (MessageHeader.command h)) h)).
Proof.
  destruct h. unfold MessageHeader.validate, MessageHeader.get_definition, MessageHeader.set_message_type.
  cbn [MessageHeader.network_magic MessageHeader.command MessageHeader.payload_length
    MessageHeader.payload_checksum MessageHeader.message_type_]. cbv zeta.
  repeat match goal with |- context [if ?c then _ else _] => destruct c; [by split|] end. by split.
Qed.

Lemma deserialize_header_place acc m :
  kMessageHeaderLength <= zlen acc < 2 ^ 64 -> bytes_ok acc ->
  Message.deserialize_header (place acc 0 m) =
    (Success (), place acc kMessageHeaderLength (Message.set_header
       (MessageHeader.set_message_type (MessageHeader.message_type_ (Message.header_ m)) (header_of acc)) m)).
Proof.
  intros Hl Hok. unfold Message.deserialize_header.
  pose proof (header_of_ok acc Hok (proj1 Hl)) as Hh.
  rewrite (msg_header_reads (header_of acc) Hh _ _ (zdrop kMessageHeaderLength acc)).
  - rewrite zlen_header_bytes by done. done.
  - change (0 <= 0 <= zlen acc /\ zlen acc < 2 ^ 64). pose proof (zlen_nonneg acc). lia.
  - unfold Laws.unread, DataStreamFacts.unread. simpl. rewrite header_of_bytes by (done || lia). done.
Qed.

Section crypto.
Context `{CryptoLaws}.

Lemma length_hash256 p : length (Hash256.finalize (Hash256.make p)) = 32%nat.
Proof.
  unfold Hash256.finalize. destruct (_ =? _); [done|]. cbv zeta. rewrite bool_decide_eq_false_2.
  - apply sha256_length.
  - intros E. pose proof (sha256_length (Hash256.ingested_ (Hash256.make p))) as L. by rewrite E in L.
Qed.

Lemma checksum_place acc m :
  kMessageHeaderLength <= zlen acc < 2 ^ 64 ->
  zlen (zdrop kMessageHeaderLength acc) = MessageHeader.payload_length (Message.header_ m) ->
  Message.validate_payload_checksum (place acc kMessageHeaderLength m) =
    (checksum_check (Message.header_ m) (zdrop kMessageHeaderLength acc), place acc (zlen acc) m).
Proof.
  intros Hl Hlen. unfold Message.validate_payload_checksum, op_bind. rewrite read_rest by (unfold kMessageHeaderLength in *; simpl in *; lia).
  change (Message.header_ (place acc (zlen acc) m)) with (Message.header_ m).
  rewrite Hlen, Z.eqb_refl. simpl negb. cbv iota zeta. rewrite length_hash256. simpl (_ <? _). cbv iota.
  unfold checksum_check, checksum. by destruct (bool_decide _).
Qed.

(** The state of a message whose header is [h] and whose stream holds [acc], the
    header behind it. *)
Definition body (h : MessageHeader.t) (s : SDataStream.t) (magic acc : Bytes) (p : Z) (pv : bool) : Message.t :=
  place acc p (Message.mk h s magic true pv).

Definition succeeded (r : outcome unit) : bool := match r with Success _ => true | _ => false end.

(** The part of [validate_payload] that follows the checks on the items. *)
Lemma payload_tail h s magic acc q :
  kMessageHeaderLength <= zlen acc < 2 ^ 64 ->
  let p := zdrop kMessageHeaderLength acc in
  let m := Message.mk h s magic true false in
  let r := if zlen p =? MessageHeader.payload_length h then checksum_check h p
           else Failure (NetError kMessageBodyIncomplete) in
  exists q', (if negb (zlen p =? MessageHeader.payload_length h) then Message.op_error kMessageBodyIncomplete
     else Message.assert_seekg kMessageHeaderLength >>;
          Message.validate_payload_checksum >>;
          λ m', (Success (), Message.set_validated (Message.header_validated_ m') true m')) (place acc q m) =
    (r, body h s magic acc q' (succeeded r)).
Proof.
  intros Hl p m r. unfold r. assert (H24 : kMessageHeaderLength = 24) by done.
  destruct (Z.eqb_spec (zlen p) (MessageHeader.payload_length h)) as [E|E]; cbv [negb]; [|by exists q].
  exists (zlen acc). unfold op_bind. cbv beta iota. rewrite assert_seekg_place by lia.
  rewrite checksum_place by done. change (Message.header_ m) with h. fold p.
  by destruct (checksum_check h p) as [[]| |].
Qed.

Lemma payload_place h s magic acc :
  kMessageHeaderLength <= zlen acc < 2 ^ 64 -> bytes_ok acc ->
  let p := zdrop kMessageHeaderLength acc in
  Message.validate_payload (body h s magic acc kMessageHeaderLength false) =
    (payload_check h p, body h s magic acc kMessageHeaderLength (succeeded (payload_check h p))).
Proof.
  intros Hl Hok p. set (m := Message.mk h s magic true false).
  assert (H24 : kMessageHeaderLength = 24) by done.
  assert (Hp : zlen p = zlen acc - kMessageHeaderLength) by (unfold p; rewrite zlen_zdrop; lia).
  assert (Hmin : Z.min kMessageHeaderLength (zlen acc) = kMessageHeaderLength) by lia.
  unfold Message.validate_payload.
  change (Message.payload_validated_ (body h s magic acc kMessageHeaderLength false)) with false.
  change (Message.header_validated_ (body h s magic acc kMessageHeaderLength false)) with true.
  change (Message.header_ (body h s magic acc kMessageHeaderLength false)) with h.
  unfold body. fold m. change (negb true) with false. cbv iota. rewrite avail_place, <- Hp by lia.
  unfold payload_check. cbv zeta. set (d := MessageHeader.get_definition h).
  set (complete := zlen p =? MessageHeader.payload_length h).
  pose proof (λ q, payload_tail h s magic acc q Hl) as Htail. cbv zeta in Htail. fold p m complete in Htail.
  unfold Message.finally. unfold op_bind at 1.
  destruct (is_vectorized d) eqn:Ev.
  - unfold op_bind at 1. destruct (vector_place d acc m Hl Hok) as (q & Hv & Hq & Hk). fold p in Hv, Hk.
    change (Message.header_ m) with h in Hv, Hk. rewrite Hv.
    destruct (vector_check d (MessageHeader.payload_length h) p) as [k|e|f] eqn:Ec;
      cbn [unit_of outcome_bind]; cbv beta iota; [|by rewrite seekg_place, Hmin..].
    specialize (Hk k eq_refl).
    destruct (vector_item_size d) as [item|] eqn:Ei.
    + destruct complete eqn:Ecomp; cbn [negb] in Htail |- *; cbv iota in Htail |- *.
      * rewrite read_rest by lia.
        assert (Hz : zdrop q acc = zdrop (count_offset d + k) p)
          by (unfold p; rewrite zdrop_zdrop; [by rewrite Hk | apply vector_check_size in Ec; unfold count_offset; case_decide; lia | lia]).
        unfold duplicate_check. rewrite Ei, Hz. destruct (0 <? _); cbn [outcome_bind]; cbv beta iota;
          [by rewrite seekg_place, Hmin|].
        destruct (Htail (zlen acc)) as (q' & ->). unfold body. by rewrite seekg_place, Hmin.
      * unfold op_ret. cbn [outcome_bind]. cbv beta iota. destruct (Htail q) as (q' & ->). unfold body. by rewrite seekg_place, Hmin.
    + unfold duplicate_check, op_ret. rewrite Ei. cbv beta iota.
      destruct (Htail q) as (q' & ->). unfold body. rewrite seekg_place, Hmin. by destruct complete.
  - unfold op_ret. cbn [outcome_bind]. cbv beta iota. destruct (Htail kMessageHeaderLength) as (q' & ->). unfold body. by rewrite seekg_place, Hmin.
Qed.
(** ** Validation of a message *)

(** A message whose header has not been read yet. *)
Definition head (h : MessageHeader.t) (s : SDataStream.t) (magic acc : Bytes) : Message.t :=
  place acc 0 (Message.mk h s magic false false).

Lemma validate_header_place h s magic acc :
  kMessageHeaderLength <= zlen acc < 2 ^ 64 -> bytes_ok acc ->
  let r := header_check (SDataStream.version_ s) magic (header_of acc) in
  (Message.validate_header (head h s magic acc)).1 = r /\
  (r = Success () -> (Message.validate_header (head h s magic acc)).2 =
     body (header_of acc) s magic acc kMessageHeaderLength (MessageHeader.payload_length (header_of acc) =? 0)).
Proof.
  intros Hl Hok r. set (m := Message.mk h s magic false false).
  set (h1 := MessageHeader.set_message_type (MessageHeader.message_type_ h) (header_of acc)).
  assert (E : Message.validate_header (head h s magic acc) =
    (Message.on_header (MessageHeader.validate (SDataStream.version_ s) magic) >>;
     λ m', (Success (), Message.set_validated true (MessageHeader.payload_length (Message.header_ m') =? 0) m'))
      (place acc kMessageHeaderLength (Message.set_header h1 m))).
  { unfold Message.validate_header.
    change (Message.header_validated_ (head h s magic acc)) with false. cbv iota.
    change (Message.size (head h s magic acc)) with (zlen acc).
    rewrite (proj2 (Z.ltb_ge _ _)) by lia. unfold op_bind at 1. unfold head at 1. fold m.
    by rewrite deserialize_header_place. }
  rewrite E. unfold op_bind, Message.on_header.
  change (Message.header_ (place acc kMessageHeaderLength (Message.set_header h1 m))) with h1.
  destruct (validate_header_type (SDataStream.version_ s) magic (header_of acc) (MessageHeader.message_type_ h)) as [H1 H2].
  fold h1 in H1, H2. unfold r, header_check. split.
  - rewrite <- H1. by destruct (MessageHeader.validate _ _ h1) as [[[]| |] ?].
  - intros E'. by rewrite (H2 E').
Qed.

(** Neither header nor payload checks report an incomplete header, and header
    checks report no incomplete body. *)
Lemma header_check_errors v magic h :
  header_check v magic h <> Failure (NetError kMessageHeaderIncomplete) /\
  header_check v magic h <> Failure (NetError kMessageBodyIncomplete).
Proof.
  unfold header_check, MessageHeader.validate. cbv zeta.
  repeat match goal with |- context [if ?c then _ else _] => destruct c; [by split|] end. by split.
Qed.

Lemma parse_compact_no_net bs e : parse_compact bs <> Failure (NetError e).
Proof.
  unfold parse_compact, parse_wide. destruct bs as [|b r]; [done|].
  repeat match goal with |- context [if ?c then _ else _] => destruct c; [done|] end. cbv zeta.
  repeat match goal with |- context [if ?c then _ else _] => destruct c; try done end.
Qed.

Lemma vector_check_errors d len p : vector_check d len p <> Failure (NetError kMessageHeaderIncomplete).
Proof.
  unfold vector_check. destruct (_ <? _); [done|].
  destruct (parse_compact _) as [[n k]|e|f] eqn:E; [| |done].
  - destruct (n =? 0); [done|]. destruct (_ <? n); [done|].
    destruct (vector_item_size d); [|done]. cbv zeta. by destruct (len =? _).
  - destruct e as [[]|e|e|e|e]; try done. by apply parse_compact_no_net in E.
Qed.

Lemma payload_check_errors h p : payload_check h p <> Failure (NetError kMessageHeaderIncomplete).
Proof.
  unfold payload_check, duplicate_check, checksum_check. cbv zeta.
  set (d := MessageHeader.get_definition h). set (c := zlen p =? _). intros E. revert E.
  assert (Hend : (if c then if bool_decide (checksum p = MessageHeader.payload_checksum h) then Success ()
      else Failure (NetError kMessageHeaderInvalidChecksum)
    else Failure (NetError kMessageBodyIncomplete)) <> Failure (NetError kMessageHeaderIncomplete))
    by (destruct c; [case_bool_decide|]; done).
  destruct (is_vectorized d); [|done].
  pose proof (vector_check_errors d (MessageHeader.payload_length h) p) as Hv.
  destruct (vector_check _ _ _) as [k|e|f]; simpl; [|by intros [= ->]|done].
  destruct c; [|done]. destruct (vector_item_size d) as [item|]; [|done].
  destruct (0 <? _); [done|]. done.
Qed.

(** [validate] once the header is known. *)
Definition validate_rest : op Message.t unit := λ m1,
  let (result, m2) := Message.validate_payload m1 in
  match Message.assert_seekg kMessageHeaderLength m2 with
  | (Success _, m3) => (result, m3)
  | (r, m3) => (r, m3)
  end.

Lemma validate_eq m : Message.validate m =
  if kMaxProtocolMessageLength <? Message.size m then (Failure (NetError kMessageSizeOverflow), m)
  else if Message.is_complete m then (Success (), m)
  else (Message.validate_header >>; validate_rest) m.
Proof. done. Qed.

Lemma validate_rest_place h s magic acc (z : bool) :
  kMessageHeaderLength <= zlen acc < 2 ^ 64 -> bytes_ok acc ->
  let r := if z then Success () else payload_check h (zdrop kMessageHeaderLength acc) in
  validate_rest (body h s magic acc kMessageHeaderLength z) =
    (r, body h s magic acc kMessageHeaderLength (succeeded r)).
Proof.
  intros Hl Hok r. unfold r, validate_rest. assert (H24 : kMessageHeaderLength = 24) by done. destruct z.
  - unfold Message.validate_payload.
    change (Message.payload_validated_ (body h s magic acc kMessageHeaderLength true)) with true.
    cbv iota. unfold body. by rewrite assert_seekg_place by lia.
  - rewrite payload_place by done. unfold body. by rewrite assert_seekg_place by lia.
Qed.

(** What [validate] returns is what the octets mean, provided they do not go
    beyond the message; and the state it leaves. *)
Lemma validate_head h s magic acc :
  bytes_ok acc -> zlen acc <= kMaxProtocolMessageLength ->
  (kMessageHeaderLength <= zlen acc -> zlen acc <= frame_length acc) ->
  let r := classify (SDataStream.version_ s) magic acc in
  (Message.validate (head h s magic acc)).1 = r /\
  (r = Success () -> (Message.validate (head h s magic acc)).2 =
     body (header_of acc) s magic acc kMessageHeaderLength true) /\
  (r = Failure (NetError kMessageHeaderIncomplete) -> (Message.validate (head h s magic acc)).2 = head h s magic acc) /\
  (r = Failure (NetError kMessageBodyIncomplete) -> (Message.validate (head h s magic acc)).2 =
     body (header_of acc) s magic acc kMessageHeaderLength false).
Proof.
  intros Hok Hmax Hframe r. rewrite validate_eq.
  change (Message.size (head h s magic acc)) with (zlen acc). rewrite (proj2 (Z.ltb_ge _ _)) by lia.
  change (Message.is_complete (head h s magic acc)) with false. cbv iota.
  unfold r, classify. destruct (Z.ltb_spec (zlen acc) kMessageHeaderLength) as [Hlt|Hge].
  - unfold op_bind, Message.validate_header. change (Message.header_validated_ (head h s magic acc)) with false.
    change (Message.size (head h s magic acc)) with (zlen acc). rewrite (proj2 (Z.ltb_lt _ _)) by lia.
    split_and!; done.
  - specialize (Hframe Hge). assert (Hl : kMessageHeaderLength <= zlen acc < 2 ^ 64)
      by (unfold kMaxProtocolMessageLength in *; lia).
    destruct (validate_header_place h s magic acc Hl Hok) as [H1 H2].
    destruct (header_check_errors (SDataStream.version_ s) magic (header_of acc)) as [He1 He2].
    unfold op_bind. destruct (Message.validate_header (head h s magic acc)) as [r1 m1]. simpl in H1, H2. subst r1.
    cbv zeta. destruct (header_check _ _ (header_of acc)) as [[]|e|f]; cbn [outcome_bind]; [|split_and!; done..].
    rewrite (H2 eq_refl), validate_rest_place by done. rewrite (ztake_ge (frame_length acc)) by lia.
    pose proof (payload_check_errors (header_of acc) (zdrop kMessageHeaderLength acc)) as He.
    destruct (_ =? 0); [by split_and!|]. cbn [fst snd].
    destruct (payload_check _ _) as [[]|e|f]; split_and!; try done; by intros [= ->].
Qed.

Lemma validate_body h s magic acc :
  bytes_ok acc -> kMessageHeaderLength <= zlen acc <= kMaxProtocolMessageLength ->
  zlen acc <= frame_length acc -> h = header_of acc ->
  header_check (SDataStream.version_ s) magic h = Success () -> MessageHeader.payload_length h <> 0 ->
  let r := classify (SDataStream.version_ s) magic acc in
  Message.validate (body h s magic acc kMessageHeaderLength false) =
    (r, body h s magic acc kMessageHeaderLength (succeeded r)).
Proof.
  intros Hok Hl Hframe -> Hc Hz r. rewrite validate_eq.
  change (Message.size (body (header_of acc) s magic acc kMessageHeaderLength false)) with (zlen acc).
  rewrite (proj2 (Z.ltb_ge _ _)) by lia.
  change (Message.is_complete (body (header_of acc) s magic acc kMessageHeaderLength false)) with false. cbv iota.
  unfold op_bind, Message.validate_header.
  change (Message.header_validated_ (body (header_of acc) s magic acc kMessageHeaderLength false)) with true. cbv iota.
  assert (Hmax : kMaxProtocolMessageLength < 2 ^ 64) by done.
  rewrite validate_rest_place by (done || lia). cbv iota.
  assert (Hr : r = payload_check (header_of acc) (zdrop kMessageHeaderLength acc)).
  { unfold r, classify. rewrite (proj2 (Z.ltb_ge _ _)) by lia. cbv zeta. rewrite Hc. cbn [outcome_bind].
    rewrite (proj2 (Z.eqb_neq _ _)) by done. by rewrite ztake_ge by lia. }
  by rewrite Hr.
Qed.
End crypto.

End MessageProofs.
