(* ===== verification/Reassembly.v ===== *)
(** * Reassembly and framing of messages

    [Message::write] computes what the octets received so far mean
    ([MessageSpec.classify]), however they are cut into chunks, and
    [Message::push] produces octets that a peer accepts. *)

From stdpp Require Import gmap.
From S2P Require Import Prelude Text Stream Boost Serialize Types Protocol Misc Addresses Payloads Message MessageFacts.
#[local] Open Scope Z_scope.

Module Reassembly.
Import Laws TypesTheorems AddressesTheorems PayloadsTheorems MessageSpec MessageProofs.

(** ** What more octets change *)

Lemma ztake_app_le n (a b : Bytes) : n <= zlen a -> ztake n (a ++ b) = ztake n a.
Proof. intros. unfold ztake. rewrite take_app_le; [done | lia]. Qed.

Lemma header_of_app a b : kMessageHeaderLength <= zlen a -> header_of (a ++ b) = header_of a.
Proof.
  intros H. assert (H24 : kMessageHeaderLength = 24) by done. unfold header_of.
  rewrite !zdrop_app_le by lia. by rewrite !ztake_app_le by (zlens; lia).
Qed.

Lemma frame_length_app a b : kMessageHeaderLength <= zlen a -> frame_length (a ++ b) = frame_length a.
Proof. intros H. unfold frame_length. by rewrite header_of_app. Qed.

Lemma count_offset_bounds d : 0 <= count_offset d <= 4.
Proof. unfold count_offset. case_decide; lia. Qed.

Lemma vector_check_app d len p q :
  vector_check d len p <> Failure (NetError kMessageBodyIncomplete) ->
  vector_check d len (p ++ q) = vector_check d len p.
Proof.
  pose proof (count_offset_bounds d) as Ho. unfold vector_check. rewrite zlen_app.
  destruct (Z.ltb_spec (zlen p) (count_offset d + 1)); [done|].
  rewrite (proj2 (Z.ltb_ge _ _)) by (pose proof (zlen_nonneg q); lia).
  rewrite zdrop_app_le by lia. intros Hn. rewrite parse_compact_app; [done|].
  intros E. by rewrite E in Hn.
Qed.

(** A count is readable from nine octets. *)
Lemma parse_compact_long bs : 9 <= zlen bs -> parse_compact bs <> Failure (SerError kReadOverflow).
Proof.
  unfold parse_compact. destruct bs as [|b r]; [done|]. rewrite zlen_cons. intros Hl.
  assert (Hw : forall n least, n <= 8 -> parse_wide n least r <> Failure (SerError kReadOverflow)).
  { intros n least Hn. unfold parse_wide. repeat case_cmp; done || lia. }
  repeat (case_cmp; [done || by apply Hw|]). by apply Hw.
Qed.

Section crypto.
Context `{CryptoLaws}.

(** Every payload that starts with a count is long enough to hold it. *)
Lemma vectorized_minimum t : is_vectorized (definition_of t) = true ->
  count_offset (definition_of t) + 9 <= payload_lower t.
Proof. destruct t; intros E; try discriminate E; by vm_compute. Qed.

Lemma payload_lower_nonneg t : 0 <= payload_lower t.
Proof. by destruct t. Qed.

Lemma header_check_length v magic h : header_check v magic h = Success () ->
  payload_lower (message_type_from_command (MessageHeader.command h)) <= MessageHeader.payload_length h
    <= kMaxProtocolMessageLength.
Proof.
  unfold header_check, MessageHeader.validate. cbv zeta.
  destruct (negb _); [done|]. destruct (negb _); [done|]. destruct (bool_decide _); [done|].
  unfold MessageHeader.set_message_type, MessageHeader.get_definition.
  cbn [MessageHeader.payload_length MessageHeader.message_type_ MessageHeader.payload_checksum].
  case_cmp; [done|]. destruct (MessageHeader.below _ _); [done|]. destruct (MessageHeader.above _ _); [done|].
  destruct (negb (MessageHeader.clamp _ _ _ =? _)) eqn:E; [done|]. intros _. split; [|done].
  apply negb_false_iff, Z.eqb_eq in E. unfold MessageHeader.clamp in E. unfold payload_lower.
  revert E. repeat case_cmp; intros; lia.
Qed.

(** A payload that is all there is never reported as incomplete. *)
Lemma payload_check_full h p :
  payload_lower (MessageHeader.message_type_ h) <= MessageHeader.payload_length h ->
  zlen p = MessageHeader.payload_length h -> payload_check h p <> Failure (NetError kMessageBodyIncomplete).
Proof.
  intros Hmin Hp. unfold payload_check, duplicate_check, checksum_check. cbv zeta. rewrite Hp, Z.eqb_refl.
  destruct (is_vectorized _) eqn:E; cbn [outcome_bind]; [|by case_bool_decide].
  apply vectorized_minimum in E. unfold MessageHeader.get_definition in *.
  set (d := definition_of (MessageHeader.message_type_ h)) in *. pose proof (count_offset_bounds d).
  assert (Hv : vector_check d (MessageHeader.payload_length h) p <> Failure (NetError kMessageBodyIncomplete)).
  { unfold vector_check. case_cmp; [lia|]. pose proof (parse_compact_long (zdrop (count_offset d) p)) as Hl.
    destruct (parse_compact _) as [[n k]|e|f] eqn:Ep; [|by destruct e as [[]| | | |]; try done;
      [exfalso; apply Hl; [zlens; lia | done] | apply parse_compact_no_net in Ep]|done].
    repeat case_cmp; try done. destruct (vector_item_size d); [|done]. by case_cmp. }
  destruct (vector_check _ _ _) as [k|e|f]; cbn [outcome_bind]; [|by intros [= ->]; apply Hv|done].
  destruct (vector_item_size d); cbn [outcome_bind]; [|by case_bool_decide].
  case_cmp; cbn [outcome_bind]; [done | by case_bool_decide].
Qed.

(** A payload that is not all there is incomplete unless the count is wrong. *)
Lemma payload_check_partial h p : zlen p < MessageHeader.payload_length h ->
  payload_check h p = Failure (NetError kMessageBodyIncomplete) \/
  (is_vectorized (MessageHeader.get_definition h) = true /\
   vector_check (MessageHeader.get_definition h) (MessageHeader.payload_length h) p <>
     Failure (NetError kMessageBodyIncomplete) /\
   forall k, vector_check (MessageHeader.get_definition h) (MessageHeader.payload_length h) p <> Success k).
Proof.
  intros Hp. unfold payload_check. cbv zeta. rewrite (proj2 (Z.eqb_neq _ _)) by lia.
  destruct (is_vectorized _); [|by left].
  destruct (vector_check _ _ _) as [k|e|f]; cbn [outcome_bind]; [by left| |by right].
  destruct (decide (e = NetError kMessageBodyIncomplete)) as [->|Hn]; [by left|].
  right. split; [done|]. split; [|done]. by intros [= ->].
Qed.

Lemma payload_check_app h p q :
  zlen p < MessageHeader.payload_length h -> payload_check h p <> Failure (NetError kMessageBodyIncomplete) ->
  payload_check h (p ++ q) = payload_check h p.
Proof.
  intros Hp Hn. destruct (payload_check_partial h p Hp) as [E|(Ev & Hv & Hk)]; [done|].
  unfold payload_check. cbv zeta. rewrite Ev, vector_check_app by done.
  destruct (vector_check _ _ _) as [k|e|f]; [|done..]. by destruct (Hk k).
Qed.

(** Once the octets mean something final, more octets do not change it. *)
Lemma classify_app v magic a b :
  incomplete (classify v magic a) = false -> classify v magic (a ++ b) = classify v magic a.
Proof.
  unfold incomplete. intros Hi. apply orb_false_iff in Hi as [H1 H2].
  apply bool_decide_eq_false in H1, H2. revert H1 H2. unfold classify. rewrite zlen_app.
  destruct (Z.ltb_spec (zlen a) kMessageHeaderLength); [done|].
  rewrite (proj2 (Z.ltb_ge _ _)) by (pose proof (zlen_nonneg b); lia).
  cbv zeta. rewrite header_of_app, frame_length_app by done.
  destruct (header_check _ _ _) as [[]|e|f]; cbn [outcome_bind]; [|done..].
  destruct (_ =? 0); [done|]. intros _ Hn. assert (H24 : kMessageHeaderLength = 24) by done.
  destruct (Z.le_gt_cases (frame_length a) (zlen a)) as [Hf|Hf].
  { by rewrite ztake_app_le by done. }
  rewrite (ztake_ge (frame_length a) a) in Hn |- * by lia.
  unfold ztake. rewrite take_app_ge by lia. rewrite zdrop_app_le by lia.
  apply payload_check_app; [|done]. unfold frame_length in Hf. zlens; lia.
Qed.

(** ** States while a message is received *)

(** [acc] has been received and more is needed. *)
Inductive receiving (s : SDataStream.t) (magic acc : Bytes) : Message.t -> Prop :=
| receiving_head h :
    bytes_ok acc -> zlen acc < kMessageHeaderLength -> receiving s magic acc (head h s magic acc)
| receiving_body :
    bytes_ok acc -> kMessageHeaderLength <= zlen acc < frame_length acc ->
    header_check (SDataStream.version_ s) magic (header_of acc) = Success () ->
    receiving s magic acc (body (header_of acc) s magic acc kMessageHeaderLength false).

(** [acc] is a message. *)
Definition received (s : SDataStream.t) (magic acc : Bytes) : Message.t :=
  body (header_of acc) s magic acc kMessageHeaderLength true.

(** A message with its header fits the bound on the size of messages. *)
Definition fits_limit (bs : Bytes) : Prop :=
  kMessageHeaderLength <= zlen bs -> frame_length bs <= kMaxProtocolMessageLength.

Lemma classify_partial v magic acc :
  kMessageHeaderLength <= zlen acc < frame_length acc -> header_check v magic (header_of acc) = Success () ->
  classify v magic acc = payload_check (header_of acc) (zdrop kMessageHeaderLength acc).
Proof.
  intros Hl Hc. unfold classify. rewrite (proj2 (Z.ltb_ge _ _)) by lia. cbv zeta. rewrite Hc. cbn [outcome_bind].
  unfold frame_length in Hl. rewrite (proj2 (Z.eqb_neq _ _)) by lia. by rewrite ztake_ge by (unfold frame_length; lia).
Qed.

(** Octets that mean an incomplete message have a valid header and go up to some
    place before the end of the message. *)
Lemma classify_body_incomplete v magic acc :
  classify v magic acc = Failure (NetError kMessageBodyIncomplete) ->
  kMessageHeaderLength <= zlen acc < frame_length acc /\ header_check v magic (header_of acc) = Success ().
Proof.
  unfold classify. destruct (Z.ltb_spec (zlen acc) kMessageHeaderLength) as [|Hl]; [done|]. cbv zeta.
  destruct (header_check_errors v magic (header_of acc)) as [_ He].
  destruct (header_check _ _ _) as [[]|e|f] eqn:Ec; cbn [outcome_bind]; [|done..].
  destruct (Z.eqb_spec (MessageHeader.payload_length (header_of acc)) 0) as [|Hz]; [done|]. intros Hp.
  split; [|done]. split; [done|]. apply Z.nle_gt. intros Hf.
  apply (payload_check_full (header_of acc)) in Hp; [done | |].
  - apply header_check_length in Ec. apply Ec.
  - assert (H24 : kMessageHeaderLength = 24) by done. unfold frame_length in *.
    pose proof (proj1 (header_check_length _ _ _ Ec)) as Hm. pose proof (payload_lower_nonneg
      (message_type_from_command (MessageHeader.command (header_of acc)))).
    rewrite zlen_zdrop, zlen_ztake; lia.
Qed.

(** A complete message is as long as its header says. *)
Lemma classify_success v magic acc : classify v magic acc = Success () ->
  kMessageHeaderLength <= zlen acc /\ frame_length acc <= zlen acc.
Proof.
  unfold classify. destruct (Z.ltb_spec (zlen acc) kMessageHeaderLength) as [|Hl]; [done|]. cbv zeta.
  destruct (header_check _ _ _) as [[]|e|f]; cbn [outcome_bind]; [|done..]. unfold frame_length.
  destruct (Z.eqb_spec (MessageHeader.payload_length (header_of acc)) 0) as [|Hz]; [lia|]. intros Hp.
  split; [done|]. apply Z.nlt_ge. intros Hf. rewrite ztake_ge in Hp by lia.
  destruct (payload_check_partial (header_of acc) (zdrop kMessageHeaderLength acc)) as [E|(Ev & _ & Hk)].
  - assert (H24 : kMessageHeaderLength = 24) by done. rewrite zlen_zdrop; lia.
  - by rewrite E in Hp.
  - unfold payload_check in Hp. cbv zeta in Hp. rewrite Ev in Hp.
    destruct (vector_check _ _ _) as [k|e|f]; [|done..]. by destruct (Hk k).
Qed.

(** ** The loop of [write] *)

Lemma write_place data acc p m : zlen acc + zlen data <= kMaxProtocolMessageLength ->
  Message.on_data (DataStream.write data) (place acc p m) = (Success (), place (acc ++ data) p m).
Proof.
  intros Hl. rewrite on_data_place. unfold DataStream.write, DataStream.size. cbn [buffer_ read_position_].
  assert (kMaxProtocolMessageLength <= kMaxStreamSize) by done. case_cmp; [lia | done].
Qed.

(** The octets that one turn of the loop takes. *)
Definition wanted (m : Message.t) : Z :=
  wrap 64 ((if Message.tellg m <? kMessageHeaderLength then kMessageHeaderLength
            else MessageHeader.payload_length (Message.header_ m)) - Message.avail m).

Definition turn_ok (s : SDataStream.t) (magic acc : Bytes) (res : outcome unit * Message.t) : Prop :=
  res.1 = classify (SDataStream.version_ s) magic acc /\
  (res.1 = Success () -> res.2 = received s magic acc /\ zlen acc = frame_length acc) /\
  (incomplete res.1 = true -> receiving s magic acc res.2).

Lemma incomplete_cases r : incomplete r = true ->
  r = Failure (NetError kMessageHeaderIncomplete) \/ r = Failure (NetError kMessageBodyIncomplete).
Proof. unfold incomplete. intros E. apply orb_true_iff in E as [E|E]; apply bool_decide_eq_true in E; auto. Qed.

Lemma classify_header_incomplete v magic acc :
  classify v magic acc = Failure (NetError kMessageHeaderIncomplete) -> zlen acc < kMessageHeaderLength.
Proof.
  unfold classify. destruct (Z.ltb_spec (zlen acc) kMessageHeaderLength) as [|Hl]; [done|]. cbv zeta.
  destruct (header_check_errors v magic (header_of acc)) as [He _].
  destruct (header_check _ _ _) as [[]|e|f]; cbn [outcome_bind]; [|done..].
  destruct (_ =? 0); [done|]. intros E. by apply payload_check_errors in E.
Qed.

Lemma frame_length_min acc : bytes_ok acc -> kMessageHeaderLength <= zlen acc -> kMessageHeaderLength <= frame_length acc.
Proof. intros Hok Hl. destruct (header_of_ok acc Hok Hl) as (_ & _ & [Hp _] & _). unfold frame_length. change (0 <= MessageHeader.payload_length (header_of acc)) in Hp. lia. Qed.

Lemma turn_head h s magic acc : bytes_ok acc -> zlen acc <= kMessageHeaderLength ->
  turn_ok s magic acc (Message.validate (head h s magic acc)).
Proof.
  intros Hok Hl. assert (H24 : kMessageHeaderLength = 24) by done.
  assert (Hmax : kMessageHeaderLength <= kMaxProtocolMessageLength) by done.
  destruct (validate_head h s magic acc Hok) as (H1 & H2 & H3 & H4); [lia | |].
  { intros Hge. pose proof (frame_length_min acc Hok Hge). lia. }
  split; [done|]. rewrite H1. split.
  - intros E. split; [by apply H2|]. destruct (classify_success _ _ _ E).
    pose proof (frame_length_min acc Hok). lia.
  - intros E. apply incomplete_cases in E as [E|E].
    + rewrite H3 by done. apply receiving_head; [done|]. by apply classify_header_incomplete in E.
    + rewrite H4 by done. apply classify_body_incomplete in E as [? ?]. by apply receiving_body.
Qed.

Lemma turn_body s magic acc : bytes_ok acc -> kMessageHeaderLength <= zlen acc <= frame_length acc ->
  frame_length acc <= kMaxProtocolMessageLength ->
  header_check (SDataStream.version_ s) magic (header_of acc) = Success () ->
  MessageHeader.payload_length (header_of acc) <> 0 ->
  turn_ok s magic acc (Message.validate (body (header_of acc) s magic acc kMessageHeaderLength false)).
Proof.
  intros Hok Hl Hmax Hc Hz. rewrite validate_body by (done || lia). unfold turn_ok; cbn [fst snd]. split; [done|]. split.
  - intros E. rewrite E. split; [done|]. apply classify_success in E. lia.
  - intros E. apply incomplete_cases in E as [E|E].
    + apply classify_header_incomplete in E. lia.
    + rewrite E. apply classify_body_incomplete in E as [? ?]. by apply receiving_body.
Qed.

Lemma wanted_head h s magic acc : zlen acc < kMessageHeaderLength ->
  wanted (head h s magic acc) = kMessageHeaderLength - zlen acc.
Proof.
  intros Hl. unfold wanted. change (Message.tellg (head h s magic acc) <? kMessageHeaderLength) with true. cbv iota.
  assert (H24 : kMessageHeaderLength = 24) by done. pose proof (zlen_nonneg acc).
  unfold head. rewrite avail_place by lia. unfold wrap. rewrite Z.sub_0_r. apply Z.mod_small. lia.
Qed.

Lemma wanted_body h s magic acc : kMessageHeaderLength <= zlen acc <= kMessageHeaderLength + MessageHeader.payload_length h ->
  MessageHeader.payload_length h < 2 ^ 32 ->
  wanted (body h s magic acc kMessageHeaderLength false) =
    kMessageHeaderLength + MessageHeader.payload_length h - zlen acc.
Proof.
  intros Hl Hp. unfold wanted.
  change (Message.tellg (body h s magic acc kMessageHeaderLength false) <? kMessageHeaderLength) with false. cbv iota.
  assert (H24 : kMessageHeaderLength = 24) by done.
  unfold body. rewrite avail_place by lia. cbn [Message.header_ place Message.set_stream]. unfold wrap.
  rewrite Z.mod_small by lia. lia.
Qed.

(** A turn takes at least one octet and never goes beyond the message. *)
Lemma turn s magic acc m input : receiving s magic acc m -> input <> [] -> bytes_ok input -> fits_limit (acc ++ input) ->
  let n := Z.min (wanted m) (zlen input) in
  1 <= n <= zlen input /\
  exists m1, Message.on_data (DataStream.write (ztake n input)) m = (Success (), m1) /\
    turn_ok s magic (acc ++ ztake n input) (Message.validate m1).
Proof.
  intros Hr Hin Hoki Hfit n. assert (H24 : kMessageHeaderLength = 24) by done.
  assert (Hpos : 1 <= zlen input) by (destruct input; [done | rewrite zlen_cons; pose proof (zlen_nonneg input); lia]).
  assert (Hmax : kMessageHeaderLength <= kMaxProtocolMessageLength) by done.
  assert (Hokn : bytes_ok (ztake n input)) by (by apply Forall_take).
  destruct Hr as [h Hok Hl|Hok Hl Hc].
  - assert (Hw : wanted (head h s magic acc) = kMessageHeaderLength - zlen acc) by (by apply wanted_head).
    assert (Hn : zlen (ztake n input) = n) by (rewrite zlen_ztake; unfold n; lia).
    split; [unfold n; lia|]. exists (head h s magic (acc ++ ztake n input)). split.
    + unfold head. apply write_place. unfold n in *. lia.
    + apply turn_head; [by apply bytes_ok_app|]. rewrite zlen_app. unfold n in *. lia.
  - pose proof (header_check_length _ _ _ Hc) as Hp. unfold frame_length in Hl.
    assert (kMaxProtocolMessageLength < 2 ^ 32) by done.
    assert (Hw : wanted (body (header_of acc) s magic acc kMessageHeaderLength false) = frame_length acc - zlen acc)
      by (apply wanted_body; lia).
    unfold frame_length in Hw.
    assert (Hn : zlen (ztake n input) = n) by (rewrite zlen_ztake; unfold n; lia).
    assert (Hfr : frame_length acc <= kMaxProtocolMessageLength)
      by (rewrite <- (frame_length_app acc input) by lia; apply Hfit; rewrite zlen_app; lia).
    unfold frame_length in Hfr. split; [unfold n; lia|].
    exists (body (header_of acc) s magic (acc ++ ztake n input) kMessageHeaderLength false). split.
    + unfold body. apply write_place. unfold n in *. lia.
    + rewrite <- (header_of_app acc (ztake n input)) by lia.
      apply turn_body; rewrite ?header_of_app, ?frame_length_app, ?zlen_app by lia.
      * by apply bytes_ok_app.
      * unfold frame_length, n in *. lia.
      * done.
      * done.
      * lia.
Qed.

(** What [write] returns for the octets [total] received since the beginning. *)
Definition write_ok (s : SDataStream.t) (magic total : Bytes) (res : outcome unit * Bytes * Message.t) : Prop :=
  let '(r, rest, m) := res in
  r = classify (SDataStream.version_ s) magic total /\
  (incomplete r = true -> rest = [] /\ receiving s magic total m) /\
  (r = Success () -> rest = zdrop (frame_length total) total /\
                     m = received s magic (ztake (frame_length total) total)).

Lemma write_loop_ok fuel r0 s magic acc m input : receiving s magic acc m -> bytes_ok input ->
  fits_limit (acc ++ input) -> (length input < fuel)%nat -> input <> [] ->
  exists res, Message.write_loop fuel r0 input m = Some res /\ write_ok s magic (acc ++ input) res.
Proof.
  revert r0 acc m input. induction fuel as [|fuel IH]; intros r0 acc m input Hr Hok Hfit Hfuel Hin; [lia|].
  cbn [Message.write_loop]. rewrite bool_decide_eq_false_2 by done. cbv zeta. fold (wanted m).
  destruct (turn s magic acc m input Hr Hin Hok Hfit) as (Hn & m1 & -> & H1 & H2 & H3).
  set (n := Z.min (wanted m) (zlen input)) in *.
  assert (Ht : (acc ++ ztake n input) ++ zdrop n input = acc ++ input) by (by rewrite <- app_assoc, ztake_zdrop).
  assert (Hcl : forall r, r = classify (SDataStream.version_ s) magic (acc ++ ztake n input) ->
    incomplete r = false -> classify (SDataStream.version_ s) magic (acc ++ input) = r).
  { intros r -> Hi. rewrite <- Ht. by apply classify_app. }
  destruct (Message.validate m1) as [r m2]. cbn [fst snd] in *.
  assert (Hfail : forall r' : outcome unit, r = r' -> r' <> Success () ->
    exists res, (if bool_decide (r' = Failure (NetError kMessageHeaderIncomplete))
       || bool_decide (r' = Failure (NetError kMessageBodyIncomplete))
     then Message.write_loop fuel r' (zdrop n input) m2 else Some (r', zdrop n input, m2)) = Some res /\
    write_ok s magic (acc ++ input) res).
  { intros r' <- Hns. fold (incomplete r). destruct (incomplete r) eqn:Ei.
    - specialize (H3 eq_refl). destruct (decide (zdrop n input = [])) as [E|E].
      + rewrite E. rewrite E, app_nil_r in Ht. destruct fuel as [|fuel]; [destruct input; [done | simpl in Hfuel; lia]|].
        cbn [Message.write_loop]. rewrite bool_decide_eq_true_2 by done. eexists; split; [done|].
        unfold write_ok. rewrite <- Ht. by split_and!.
      + rewrite <- Ht. apply IH; [done | by apply Forall_drop | by rewrite Ht | | done].
        unfold zdrop. rewrite length_drop. lia.
    - eexists; split; [done|]. unfold write_ok. rewrite (Hcl r H1 Ei). split_and!; done || by rewrite Ei. }
  destruct r as [[]|e|f]; [|by apply Hfail..].
  destruct (H2 eq_refl) as [-> Hl]. eexists; split; [done|]. unfold write_ok.
  pose proof (Hcl (Success ()) H1 eq_refl) as Hs. rewrite Hs. split_and!; [done | done |]. intros _.
  assert (Hfr : frame_length (acc ++ input) = zlen (acc ++ ztake n input)).
  { rewrite <- Ht, frame_length_app; [done|]. apply (classify_success (SDataStream.version_ s) magic). done. }
  rewrite Hfr, <- Ht. split.
  - unfold zdrop at 2. rewrite drop_app_ge by lia. replace (_ - _)%nat with 0%nat by lia. done.
  - by rewrite ztake_app_le, (ztake_ge (zlen (acc ++ ztake n input))) by lia.
Qed.

Lemma receiving_flags s magic acc m : receiving s magic acc m ->
  Message.is_complete m = false /\ Message.network_magic_ m = magic /\ Message.get_version m = SDataStream.version_ s.
Proof. by destruct 1. Qed.

Lemma receiving_bytes s magic acc m : receiving s magic acc m -> bytes_ok acc.
Proof. by destruct 1. Qed.

Lemma receiving_make version magic :
  receiving (SDataStream.make kNetwork version) magic [] (Message.make version magic).
Proof. apply (receiving_head (SDataStream.make kNetwork version) magic [] MessageHeader.fresh); [by apply Forall_nil | done]. Qed.

Lemma receiving_reset version magic m : Message.network_magic_ m = magic -> Message.get_version m = version ->
  exists s, SDataStream.version_ s = version /\ receiving s magic [] (Message.reset m).
Proof.
  intros <- <-. exists (SDataStream.clear (Message.ser_stream_ m)). split; [done|].
  apply (receiving_head (SDataStream.clear (Message.ser_stream_ m)) (Message.network_magic_ m) [] MessageHeader.fresh);
    [by apply Forall_nil | done].
Qed.

Lemma write_ok_step s magic acc m input : receiving s magic acc m -> bytes_ok input ->
  fits_limit (acc ++ input) -> input <> [] ->
  exists res, Message.write input m = Some res /\ write_ok s magic (acc ++ input) res.
Proof.
  intros Hr Hok Hfit Hin. unfold Message.write. rewrite bool_decide_eq_false_2 by done.
  destruct (receiving_flags _ _ _ _ Hr) as (-> & _). apply write_loop_ok; done || lia.
Qed.

(** ** Framing *)

Definition header_for (magic : Bytes) (t : MessageType) (payload : Bytes) : MessageHeader.t :=
  MessageHeader.mk magic (pad_to kMessageHeaderCommandLength (Protocol.command (definition_of t)))
    (zlen payload) (checksum payload) t.

(** The octets of a message. *)
Definition frame (magic : Bytes) (t : MessageType) (payload : Bytes) : Bytes :=
  header_bytes (header_for magic t payload) ++ payload.

Lemma header_of_header_bytes h rest : header_ok h ->
  header_of (header_bytes h ++ rest) =
    MessageHeader.set_message_type (message_type_from_command (MessageHeader.command h)) h.
Proof.
  intros (H1 & H2 & H3 & H4). destruct h as [a b n c t].
  cbn [MessageHeader.network_magic MessageHeader.command MessageHeader.payload_length
    MessageHeader.payload_checksum] in *.
  pose proof (Laws.length_int_bytes uint32_t n) as Hn. set (nb := int_bytes uint32_t n) in *.
  change (ssizeof uint32_t) with 4%nat in Hn.
  unfold header_of, header_bytes, MessageHeader.set_message_type.
  cbn [MessageHeader.network_magic MessageHeader.command MessageHeader.payload_length MessageHeader.payload_checksum].
  fold nb. rewrite <- !app_assoc. unfold ztake, zdrop.
  change (Z.to_nat 4) with 4%nat. change (Z.to_nat 12) with 12%nat. change (Z.to_nat 16) with (4 + 12)%nat.
  change (Z.to_nat 20) with (4 + (12 + 4))%nat. rewrite <- !drop_drop.
  rewrite (take_app_length' a) by done. rewrite !(drop_app_length' a) by done.
  rewrite (take_app_length' b) by done. rewrite !(drop_app_length' b) by done.
  rewrite (take_app_length' nb) by done. rewrite !(drop_app_length' nb) by done.
  rewrite (take_app_length' c) by done.
  assert (Hv : le_value nb = n) by (apply (Laws.int_roundtrip uint32_t n); [simpl; lia | exact H3]). by rewrite Hv.
Qed.

Lemma length_checksum p : length (checksum p) = 4%nat.
Proof. unfold checksum. rewrite length_take, length_hash256. done. Qed.

Lemma length_pad n l : length (pad_to n l) = n.
Proof. unfold pad_to. rewrite length_app, length_take, length_replicate. lia. Qed.

Lemma header_for_ok magic t payload : length magic = 4%nat -> zlen payload < 2 ^ 32 ->
  header_ok (header_for magic t payload).
Proof.
  intros Hm Hp. unfold header_ok, header_for. cbn [MessageHeader.network_magic MessageHeader.command
    MessageHeader.payload_length MessageHeader.payload_checksum].
  rewrite length_pad, length_checksum. pose proof (zlen_nonneg payload). by split_and!.
Qed.

Lemma header_of_frame magic t payload : length magic = 4%nat -> zlen payload < 2 ^ 32 -> t <> kMissingOrUnknown ->
  header_of (frame magic t payload) = header_for magic t payload.
Proof.
  intros Hm Hp Ht. unfold frame. rewrite header_of_header_bytes by (by apply header_for_ok).
  cbn [MessageHeader.command header_for]. by rewrite ProtocolTheorems.command_known.
Qed.

Lemma header_for_check v magic t payload : length magic = 4%nat -> t <> kMissingOrUnknown ->
  zlen payload <= kMaxProtocolMessageLength -> payload_lower t <= zlen payload <= payload_upper t ->
  header_check v magic (header_for magic t payload) = Success ().
Proof.
  intros Hm Ht Hp Hb. unfold header_check, MessageHeader.validate, header_for.
  unfold MessageHeader.set_message_type, MessageHeader.get_definition.
  cbn [MessageHeader.network_magic MessageHeader.command MessageHeader.payload_length
    MessageHeader.payload_checksum MessageHeader.message_type_]. cbv zeta.
  rewrite Z.eqb_refl, ProtocolTheorems.command_known by done. rewrite bool_decide_eq_true_2 by done.
  rewrite bool_decide_eq_false_2 by done. cbn [negb]. case_cmp; [lia|].
  assert (Hlo : min_protocol_version (definition_of t) = None) by (by destruct t).
  assert (Hhi : max_protocol_version (definition_of t) = None) by (by destruct t).
  rewrite Hlo, Hhi. cbn [MessageHeader.below MessageHeader.above].
  unfold payload_lower, payload_upper in Hb. unfold MessageHeader.clamp.
  rewrite (proj2 (Z.ltb_ge _ _)), (proj2 (Z.ltb_ge (default _ (max_payload_length _)) _)), Z.eqb_refl by lia.
  cbn [negb]. destruct (Z.eqb_spec (zlen payload) 0) as [E|E]; [|done].
  destruct payload; [|rewrite zlen_cons in E; pose proof (zlen_nonneg payload); lia]. by rewrite bool_decide_eq_true_2.
Qed.

Lemma parse_compact_bytes n r : 0 <= n <= kMaxSerializedCompactSize ->
  parse_compact (compact_bytes n ++ r) = Success (n, ser_compact_sizeof n).
Proof.
  intros Hn. unfold compact_bytes, ser_compact_sizeof, parse_compact.
  assert (Hm : kMaxSerializedCompactSize < 2 ^ 32) by done.
  assert (Hw : forall (k : nat) least, least <= n < 256 ^ Z.of_nat k ->
    parse_wide (Z.of_nat k) least (le_bytes k n ++ r) = Success (n, 1 + Z.of_nat k)).
  { intros k least Hk. unfold parse_wide. rewrite zlen_app, length_le_bytes.
    pose proof (zlen_nonneg r). case_cmp; [lia|].
    assert (E : ztake (Z.of_nat k) (le_bytes k n ++ r) = le_bytes k n)
      by (unfold ztake; rewrite Nat2Z.id, take_app_length'; [done | by rewrite length_le_bytes]).
    rewrite E, le_value_le_bytes, Z.mod_small by lia. case_cmp; [lia|]. case_cmp; [lia|]. done. }
  destruct (Z.ltb_spec n 253) as [H1|H1].
  { rewrite <- app_comm_cons. by rewrite (proj2 (Z.ltb_lt _ _)). }
  destruct (Z.leb_spec n 0xffff) as [H2|H2]; [apply (Hw 2%nat 253); lia|].
  destruct (Z.leb_spec n 0xffffffff) as [H3|H3]; [apply (Hw 4%nat 0x10000); lia | lia].
Qed.

Lemma chunks_of_concat n (items : list Bytes) : Forall (λ i, length i = n) items ->
  chunks_of (length items) n (concat items) = items.
Proof.
  induction 1 as [|i items Hi _ IH]; [done|]. cbn [length chunks_of concat].
  by rewrite take_app_length', drop_app_length', IH.
Qed.

Lemma data_chunks_concat n (items : list Bytes) : (0 < n)%nat -> Forall (λ i, length i = n) items ->
  data_chunks (concat items) (Z.of_nat n) = items.
Proof.
  intros Hn Hi. unfold data_chunks.
  assert (zlen (concat items) = zlen items * Z.of_nat n) as ->.
  { clear -Hi. induction Hi as [|i items Hi _ IH]; [done|]. cbn [concat]. rewrite zlen_app, zlen_cons, IH. lia. }
  rewrite Z.div_mul by lia. rewrite !Nat2Z.id. by apply chunks_of_concat.
Qed.

Context `{BoostLaws}.

(** The items of a payload, the stop hash of getheaders among them. *)
Definition payload_items (p : MessagePayload) : list Bytes :=
  match p with
  | MsgGetHeaders g => MsgGetHeadersPayload.block_locator_hashes_ g ++ [MsgGetHeadersPayload.hash_stop_ g]
  | MsgAddr l => service_bytes <$> l
  | MsgInventory _ l => item_bytes <$> l
  | _ => []
  end.

(** The octets of a vectorized payload: what precedes the count, the count and
    the items. *)
Lemma payload_shape version p : payload_ok p -> is_vectorized (definition_of (payload_type p)) = true ->
  let d := definition_of (payload_type p) in
  exists pre n (size : nat), payload_bytes version p = pre ++ compact_bytes n ++ concat (payload_items p) /\
    zlen pre = count_offset d /\ 0 < n <= default kMaxSerializedCompactSize (max_vector_items d) /\
    n <= kMaxSerializedCompactSize /\
    vector_item_size d = Some (Z.of_nat size) /\ (0 < size)%nat /\ Forall (λ i, length i = size) (payload_items p) /\
    zlen (payload_items p) = n + (if decide (message_type d = kGetHeaders) then 1 else 0).
Proof.
  destruct p as [t|v|t n|g|l|t l|r]; simpl payload_ok; intros Hp Hv.
  - by destruct Hp as [->|[->| ->]].
  - done.
  - by destruct Hp as [[->| ->] _].
  - destruct Hp as (Hl & Hh & [_ Hs]). exists (int_bytes uint32_t (wrap 32 version)),
      (zlen (MsgGetHeadersPayload.block_locator_hashes_ g)), 32%nat. cbn [payload_bytes payload_items payload_type].
    assert (Hm : kMaxGetHeadersItems <= kMaxSerializedCompactSize) by done.
    split_and!; try done; try lia; try exact (proj2 Hl).
    + unfold vector_bytes. rewrite list_fmap_id, concat_app, <- !app_assoc. cbn [concat]. by rewrite app_nil_r.
    + apply Forall_app. split; [|by apply Forall_singleton]. eapply Forall_impl; [exact Hh|]. by intros h [_ E].
    + rewrite zlen_app. done.
  - destruct Hp as (Hl & Hs). exists [], (zlen l), 30%nat. cbn [payload_bytes payload_items payload_type].
    assert (Hm : kMaxAddrItems <= kMaxSerializedCompactSize) by done. split_and!; try done; try lia; try exact (proj2 Hl).
    + apply Forall_fmap. eapply Forall_impl; [exact Hs|]. intros o Ho. apply zlen_service in Ho.
      unfold kAddrItemSize in Ho. change (length (service_bytes o) = 30%nat). lia.
    + rewrite length_fmap. change (zlen l = zlen l + 0). lia.
  - destruct Hp as (Ht & Hl & Hs). exists [], (zlen l), 36%nat. cbn [payload_bytes payload_items payload_type].
    assert (Hm : kMaxInvItems <= kMaxSerializedCompactSize) by done.
    assert (Hf : Forall (λ i, length i = 36%nat) (item_bytes <$> l)).
    { apply Forall_fmap. eapply Forall_impl; [exact Hs|]. intros o Ho. apply zlen_item in Ho. simpl. unfold kInvItemSize in Ho. simpl in Ho. lia. }
    destruct Ht as [->|[->| ->]]; split_and!; try done; try lia; try exact (proj2 Hl);
      rewrite length_fmap; change (zlen l = zlen l + 0); lia.
  - done.
Qed.

Lemma payload_frame_check version magic p : payload_ok p -> NoDup (payload_items p) ->
  payload_check (header_for magic (payload_type p) (payload_bytes version p)) (payload_bytes version p) = Success ().
Proof.
  intros Hp Hnd. unfold payload_check, MessageHeader.get_definition, header_for, checksum_check.
  cbn [MessageHeader.payload_length MessageHeader.message_type_ MessageHeader.payload_checksum]. cbv zeta.
  rewrite Z.eqb_refl. rewrite bool_decide_eq_true_2 by done.
  destruct (is_vectorized _) eqn:Ev; [|done].
  destruct (payload_shape version p Hp Ev) as (pre & n & size & Hb & Hpre & Hn & Hm & Hi & Hpos & Hs & Hz).
  set (d := definition_of (payload_type p)) in *. pose proof (count_offset_bounds d) as Ho.
  assert (Hd : zdrop (count_offset d) (payload_bytes version p) = compact_bytes n ++ concat (payload_items p)).
  { rewrite Hb, <- Hpre. unfold zdrop. rewrite Nat2Z.id. apply drop_app_length. }
  assert (Hl : zlen (concat (payload_items p)) = zlen (payload_items p) * Z.of_nat size).
  { clear -Hs. induction Hs as [|i l Hi _ IH]; [done|]. cbn [concat]. rewrite zlen_app, zlen_cons, IH. lia. }
  assert (Hlen : zlen (payload_bytes version p) =
    n * Z.of_nat size + (if decide (message_type d = kGetHeaders) then Z.of_nat size else 0) +
    ser_compact_sizeof n + count_offset d).
  { rewrite Hb, !zlen_app, zlen_compact, Hl, Hz, Hpre. case_decide; lia. }
  pose proof (zlen_compact n) as Hc. pose proof (zlen_nonneg (compact_bytes n)) as Hc0. rewrite Hc in Hc0.
  assert (Hvec : vector_check d (zlen (payload_bytes version p)) (payload_bytes version p) =
    Success (ser_compact_sizeof n)).
  { assert (1 <= ser_compact_sizeof n) by (unfold ser_compact_sizeof; repeat case_cmp; lia).
    unfold vector_check. rewrite Hd, parse_compact_bytes, Hi by lia.
    rewrite (proj2 (Z.ltb_ge _ _)) by (rewrite Hlen; case_decide; lia).
    case_cmp; [lia|]. case_cmp; [lia|]. cbv zeta. by rewrite Hlen, Z.eqb_refl. }
  rewrite Hvec. cbn [outcome_bind]. unfold duplicate_check. rewrite Hi.
  rewrite <- (zdrop_zdrop (ser_compact_sizeof n) (count_offset d)) by lia.
  rewrite Hd, <- Hc. unfold zdrop at 1. rewrite Nat2Z.id, drop_app_length.
  assert (Hpos' : 0 < Z.of_nat size) by lia.
  rewrite (proj2 (MiscTheorems.no_duplicates_spec _ _ _ Hpos')); [done|]. by rewrite data_chunks_concat.
Qed.

Lemma payload_type_known p : payload_ok p ->
  payload_type p <> kMissingOrUnknown /\ payload_upper (payload_type p) + kMessageHeaderLength <= kMaxProtocolMessageLength.
Proof.
  destruct p as [t|v|t n|g|l|t l|r]; simpl payload_ok; intros Hp; try done.
  - by destruct Hp as [->|[->| ->]].
  - by destruct Hp as [[->| ->] _].
  - by destruct Hp as [[->|[->| ->]] _].
Qed.

Lemma payload_lower_bound version p : payload_ok p ->
  payload_lower (payload_type p) <= zlen (payload_bytes version p).
Proof. intros Hp. pose proof (payload_length version p Hp) as Hl. destruct p; apply Hl. Qed.

(** A payload that may be sent: within the limits, without repetitions, and not
    longer than its definition allows. *)
Definition sendable (version : Z) (p : MessagePayload) : Prop :=
  payload_ok p /\ NoDup (payload_items p) /\ bytes_ok (payload_bytes version p) /\
  zlen (payload_bytes version p) <= payload_upper (payload_type p).

Definition payload_frame (version : Z) (magic : Bytes) (p : MessagePayload) : Bytes :=
  frame magic (payload_type p) (payload_bytes version p).

Lemma zlen_header_for magic t payload : length magic = 4%nat -> zlen payload < 2 ^ 32 ->
  zlen (header_bytes (header_for magic t payload)) = kMessageHeaderLength.
Proof. intros. by apply zlen_header_bytes, header_for_ok. Qed.

Lemma classify_frame v version magic p : length magic = 4%nat -> sendable version p ->
  header_of (payload_frame version magic p) = header_for magic (payload_type p) (payload_bytes version p) /\
  frame_length (payload_frame version magic p) = zlen (payload_frame version magic p) /\
  zlen (payload_frame version magic p) <= kMaxProtocolMessageLength /\
  zdrop kMessageHeaderLength (payload_frame version magic p) = payload_bytes version p /\
  classify v magic (payload_frame version magic p) = Success ().
Proof.
  intros Hm (Hp & Hnd & _ & Hu). destruct (payload_type_known p Hp) as [Ht Hmax].
  pose proof (payload_lower_bound version p Hp) as Hlo. unfold payload_frame.
  assert (H24 : kMessageHeaderLength = 24) by done. assert (Hk : kMaxProtocolMessageLength < 2 ^ 32) by done.
  set (t := payload_type p) in *. set (e := payload_bytes version p) in *.
  assert (He : zlen e < 2 ^ 32) by lia. pose proof (header_of_frame magic t e Hm He Ht) as Hh.
  pose proof (zlen_header_for magic t e Hm He) as Hz.
  assert (Hl : zlen (frame magic t e) = kMessageHeaderLength + zlen e) by (unfold frame; rewrite zlen_app, Hz; lia).
  assert (Hf : frame_length (frame magic t e) = zlen (frame magic t e)) by (unfold frame_length; rewrite Hh, Hl; done).
  assert (Hd : zdrop kMessageHeaderLength (frame magic t e) = e).
  { unfold frame. rewrite <- Hz. unfold zdrop. rewrite Nat2Z.id. apply drop_app_length. }
  split_and!; [done | done | lia | done |]. unfold classify. rewrite Hf, (ztake_ge (zlen _)), Hd by lia.
  pose proof (zlen_nonneg e). rewrite (proj2 (Z.ltb_ge _ _)) by lia. cbv zeta. rewrite Hh.
  rewrite (header_for_check v magic t e) by (done || lia). cbn [outcome_bind].
  destruct (_ =? 0); [done|]. by apply payload_frame_check.
Qed.

(** *** push *)

Lemma poke_place a b c data p m : zlen b = zlen data ->
  Message.on_data (DataStream.poke (zlen a) data) (place (a ++ b ++ c) p m) = (Success (), place (a ++ data ++ c) p m).
Proof.
  intros Hb. rewrite on_data_place. unfold DataStream.poke, DataStream.size. cbn [buffer_ read_position_].
  pose proof (zlen_nonneg a). pose proof (zlen_nonneg c). rewrite !zlen_app.
  rewrite (proj2 (Z.ltb_ge _ _)), (proj2 (Z.ltb_ge _ _)) by lia. cbn [orb buffer_ read_position_].
  unfold ztake, zdrop. rewrite Nat2Z.id, take_app_length. rewrite Z2Nat.inj_add, !Nat2Z.id by lia.
  rewrite <- drop_drop, drop_app_length, drop_app_length'; [done | lia].
Qed.

(** The header as [push] starts with it. *)
Definition header_blank (magic : Bytes) (t : MessageType) : MessageHeader.t :=
  MessageHeader.mk magic (pad_to kMessageHeaderCommandLength (Protocol.command (definition_of t))) 0 (replicate 4 0) t.

Lemma set_type_fresh magic t :
  MessageHeader.set_magic magic (MessageHeader.set_type t MessageHeader.fresh) = header_blank magic t.
Proof. by destruct t. Qed.

Lemma header_blank_ok magic t : length magic = 4%nat -> header_ok (header_blank magic t).
Proof. intros Hm. unfold header_ok, header_blank. cbn [MessageHeader.network_magic MessageHeader.command
  MessageHeader.payload_length MessageHeader.payload_checksum]. rewrite length_pad. by split_and!. Qed.

(** What [push] does once header and payload are in the stream. *)
Definition push_finish : op Message.t unit :=
  Message.assert_seekg kMessageHeaderLength >>;
  payload_view <~ Message.on_data (DataStream.read None);;
  let payload_hash := Hash256.finalize (Hash256.make payload_view) in
  (λ m, if zlen payload_hash <? Z.of_nat kMessageHeaderChecksumLength
        then (Fault UndefinedBehaviour, m)
        else (Success (), Message.set_header (MessageHeader.set_checksum
                (take kMessageHeaderChecksumLength payload_hash) (Message.header_ m)) m)) >>;
  (λ m, Message.on_data (DataStream.poke 16 (int_bytes uint32_t (MessageHeader.payload_length (Message.header_ m)))) m) >>;
  (λ m, Message.on_data (DataStream.poke 20 (MessageHeader.payload_checksum (Message.header_ m))) m) >>;
  Message.assert_seekg 0 >>;
  Message.validate.

Lemma push_finish_place magic t e s : length magic = 4%nat -> zlen e < 2 ^ 32 ->
  push_finish (place (header_bytes (header_blank magic t) ++ e) 0
    (Message.mk (MessageHeader.set_length (zlen e) (header_blank magic t)) s magic false false)) =
  Message.validate (head (header_for magic t e) s magic (frame magic t e)).
Proof.
  intros Hm He. pose proof (zlen_header_bytes _ (header_blank_ok magic t Hm)) as Hh.
  set (acc := header_bytes (header_blank magic t) ++ e).
  assert (H24 : kMessageHeaderLength = 24) by done. pose proof (zlen_nonneg e) as He0.
  assert (Hacc : zlen acc = kMessageHeaderLength + zlen e) by (unfold acc; rewrite zlen_app; lia).
  assert (Hd : zdrop kMessageHeaderLength acc = e)
    by (unfold acc; rewrite <- Hh; unfold zdrop; rewrite Nat2Z.id; apply drop_app_length).
  unfold push_finish, op_bind. rewrite assert_seekg_place by lia. rewrite read_rest by lia. rewrite Hd. cbv zeta.
  rewrite length_hash256. change (Z.of_nat 32 <? Z.of_nat kMessageHeaderChecksumLength) with false. cbv iota.
  change (take kMessageHeaderChecksumLength (Hash256.finalize (Hash256.make e))) with (checksum e).
  set (m := Message.mk _ s magic false false).
  change (Message.set_header _ (place acc (zlen acc) m)) with
    (place acc (zlen acc) (Message.mk (header_for magic t e) s magic false false)).
  set (cmd := pad_to kMessageHeaderCommandLength (Protocol.command (definition_of t))).
  assert (Hc : length cmd = 12%nat) by apply length_pad.
  set (m' := Message.mk (header_for magic t e) s magic false false).
  change (MessageHeader.payload_length (Message.header_ (place acc (zlen acc) m'))) with (zlen e).
  assert (E1 : acc = (magic ++ cmd) ++ int_bytes uint32_t 0 ++ (replicate 4 0 ++ e))
    by (unfold acc, header_bytes, header_blank, cmd; simpl; by rewrite <- !app_assoc).
  assert (L1 : zlen (magic ++ cmd) = 16) by (rewrite zlen_app, Hm, Hc; done).
  rewrite E1 at 1. rewrite <- L1 at 1.
  rewrite (poke_place (magic ++ cmd) (int_bytes uint32_t 0)) by (rewrite !length_int_bytes; done).
  change (MessageHeader.payload_checksum (Message.header_ (place _ _ m'))) with (checksum e).
  assert (L2 : zlen ((magic ++ cmd) ++ int_bytes uint32_t (zlen e)) = 20)
    by (rewrite zlen_app, length_int_bytes, L1; done).
  rewrite app_assoc. rewrite <- L2 at 1.
  rewrite poke_place by (rewrite length_checksum; done).
  assert (E2 : ((magic ++ cmd) ++ int_bytes uint32_t (zlen e)) ++ checksum e ++ e = frame magic t e)
    by (unfold frame, header_bytes, header_for, cmd; simpl; by rewrite <- !app_assoc).
  rewrite E2, assert_seekg_place; [done|]. pose proof (zlen_nonneg (frame magic t e)). lia.
Qed.

Lemma push_eq payload m : Message.push payload m =
  if negb (MessageHeader.pristine (Message.header_ m)) then (Failure (NetError kMessagePushNotPermitted), payload, m)
  else if bool_decide (payload_type payload = kMissingOrUnknown)
  then (Failure (NetError kMessageUnknownCommand), payload, m)
  else
    let h := MessageHeader.set_magic (Message.network_magic_ m)
               (MessageHeader.set_type (payload_type payload) (Message.header_ m)) in
    let m := Message.set_stream (SDataStream.clear (Message.ser_stream_ m)) (Message.set_header h m) in
    let '(r, h, s) := MessageHeader.serialization kSerialize (Message.header_ m) (Message.ser_stream_ m) in
    let m := Message.set_stream s (Message.set_header h m) in
    match r with
    | Success _ =>
        if negb (Message.size m =? kMessageHeaderLength) then (Fault AssertionFailed, payload, m)
        else
          let '(r, payload, s) := payload_serialization kSerialize payload (Message.ser_stream_ m) in
          let m := Message.set_stream s m in
          match r with
          | Success _ =>
              let m := Message.set_header (MessageHeader.set_length
                         (wrap 32 (Message.size m - kMessageHeaderLength)) (Message.header_ m)) m in
              let (r, m) := push_finish m in (r, payload, m)
          | r => (r, payload, m)
          end
    | r => (r, payload, m)
    end.
Proof. done. Qed.

Lemma frame_bytes_ok magic t e : bytes_ok magic -> bytes_ok e -> bytes_ok (frame magic t e).
Proof.
  intros Hm He. unfold frame, header_bytes, header_for.
  cbn [MessageHeader.network_magic MessageHeader.command MessageHeader.payload_length MessageHeader.payload_checksum].
  rewrite !bytes_ok_app. split_and!; try done.
  - unfold pad_to. destruct t; decide_now.
  - apply le_bytes_ok.
  - unfold checksum, Hash256.finalize. apply Forall_take. destruct (_ =? _); [decide_now|].
    cbv zeta. case_bool_decide; apply sha256_ok.
Qed.

Lemma push_make version magic p : length magic = 4%nat -> bytes_ok magic -> sendable version p ->
  Message.push p (Message.make version magic) =
    (Success (), payload_written version p,
     received (SDataStream.make kNetwork version) magic (payload_frame version magic p)).
Proof.
  intros Hm Hokm Hs. destruct (classify_frame version version magic p Hm Hs) as (Hh & Hf & Hmax & Hd & Hc).
  destruct Hs as (Hp & Hnd & Hok & Hu). destruct (payload_type_known p Hp) as [Ht Hlim].
  set (t := payload_type p) in *. set (e := payload_bytes version p) in *. set (s := SDataStream.make kNetwork version).
  change (payload_frame version magic p) with (frame magic t e) in *.
  assert (Hk : kMaxProtocolMessageLength <= kMaxStreamSize) by done. assert (Hk' : kMaxProtocolMessageLength < 2 ^ 32) by done.
  assert (H24 : kMessageHeaderLength = 24) by done. pose proof (zlen_nonneg e).
  pose proof (zlen_header_bytes _ (header_blank_ok magic t Hm)) as Hz.
  rewrite push_eq. change (negb (MessageHeader.pristine _)) with false. cbv iota. fold t.
  rewrite bool_decide_eq_false_2 by done. cbv zeta.
  change (MessageHeader.set_magic _ _) with (MessageHeader.set_magic magic (MessageHeader.set_type t MessageHeader.fresh)).
  rewrite set_type_fresh.
  change (SDataStream.clear _) with s. set (m0 := Message.set_stream s _).
  change (Message.header_ m0) with (header_blank magic t). change (Message.ser_stream_ m0) with s.
  rewrite (msg_header_writes (header_blank magic t) s) by (unfold fits; change (DataStream.size _) with 0; lia).
  change (Message.set_stream (append _ s) (Message.set_header _ m0)) with
    (place (header_bytes (header_blank magic t)) 0 (Message.mk (header_blank magic t) s magic false false)).
  change (Message.size (place ?a _ _)) with (zlen a). rewrite Hz, Z.eqb_refl. cbn [negb].
  change (Message.ser_stream_ (place _ _ _)) with (append (header_bytes (header_blank magic t)) s).
  rewrite payload_writes; [| done |].
  2: { unfold fits. change (DataStream.size _) with (zlen (header_bytes (header_blank magic t))).
       change (SDataStream.version_ _) with version. fold e. lia. }
  change (SDataStream.version_ _) with version. fold e.
  change (Message.set_stream (append e _) _) with
    (place (header_bytes (header_blank magic t) ++ e) 0 (Message.mk (header_blank magic t) s magic false false)).
  change (Message.size (place ?a _ _)) with (zlen a). rewrite zlen_app, Hz.
  replace (wrap 32 _) with (zlen e) by (unfold wrap; rewrite Z.mod_small; lia).
  change (Message.set_header _ (place ?a ?b _)) with
    (place a b (Message.mk (MessageHeader.set_length (zlen e) (header_blank magic t)) s magic false false)).
  rewrite push_finish_place by (done || lia).
  destruct (validate_head (header_for magic t e) s magic (frame magic t e)) as (H5 & H6 & _);
    [by apply frame_bytes_ok | done | by rewrite Hf |].
  change (SDataStream.version_ s) with version in *. rewrite Hc in H5. specialize (H6 Hc).
  destruct (Message.validate _) as [r m]. simpl in H5, H6. by subst.
Qed.

(** The payload is there in the stream of a message that has been received. *)
Lemma received_stream version magic p : length magic = 4%nat -> sendable version p ->
  let s := Message.ser_stream_ (received (SDataStream.make kNetwork version) magic (payload_frame version magic p)) in
  wf s /\ unread s = payload_bytes version p.
Proof.
  intros Hm Hs s. destruct (classify_frame version version magic p Hm Hs) as (Hh & Hf & Hmax & Hd & Hc).
  apply classify_success in Hc as [Hc _]. split; [|exact Hd].
  change (0 <= kMessageHeaderLength <= zlen (payload_frame version magic p) /\ zlen (payload_frame version magic p) < 2 ^ 64).
  assert (kMaxProtocolMessageLength < 2 ^ 64) by done. assert (0 <= kMessageHeaderLength) by done. lia.
Qed.

Lemma received_payload version magic p p0 : length magic = 4%nat -> sendable version p -> payload_readable p ->
  from_type (payload_type p) = Success (Some p0) ->
  let s := Message.ser_stream_ (received (SDataStream.make kNetwork version) magic (payload_frame version magic p)) in
  exists s', deserialize payload_serialization p0 s = (Success (), payload_decoded version p, s') /\ unread s' = [] /\ wf s'.
Proof.
  intros Hm Hs Hr Hf0 s. destruct (received_stream version magic p Hm Hs) as [Hwf Hd]. fold s in Hwf, Hd. destruct Hs as (Hp & _).
  assert (Hu : unread s = payload_bytes version p ++ []) by (rewrite app_nil_r; exact Hd).
  exists (advance (zlen (payload_bytes version p)) s). split; [by apply payload_reads|]. split.
  - by apply Laws.unread_advance.
  - by eapply Laws.wf_advance.
Qed.

(** A payload that readers refuse. *)
Lemma received_refused version magic p p0 : length magic = 4%nat -> sendable version p -> ~ payload_readable p ->
  from_type (payload_type p) = Success (Some p0) ->
  (deserialize payload_serialization p0
    (Message.ser_stream_ (received (SDataStream.make kNetwork version) magic (payload_frame version magic p)))).1.1 =
  Failure (NetError kMessagePayloadOversizedVector).
Proof.
  intros Hm Hs Hr Hf0. destruct (received_stream version magic p Hm Hs) as [Hwf Hd]. set (s := Message.ser_stream_ _) in *. destruct Hs as (Hp & _).
  destruct p as [| | |g| | |]; try (exfalso; by apply Hr). injection Hf0 as <-. unfold deserialize, payload_serialization.
  pose proof (getheaders_oversized version g MsgGetHeadersPayload.fresh Hp ltac:(simpl in Hr; lia) s [] Hwf ltac:(by rewrite app_nil_r)) as Ho.
  destruct (MsgGetHeadersPayload.serialization _ _ _) as [[r g'] s']. done.
Qed.

(** Chunks given to a message one after the other, until it is complete or
    refused: the result, the octets left and the message. *)
Fixpoint feed (c : Bytes) (cs : list Bytes) (m : Message.t) : option (outcome unit * Bytes * Message.t) :=
  match Message.write c m with
  | Some (r, rest, m') =>
      match cs with
      | [] => Some (r, rest, m')
      | c' :: cs' => if incomplete r then feed c' cs' m' else Some (r, rest ++ concat cs, m')
      end
  | None => None
  end.

Lemma feed_ok s magic acc m c cs : receiving s magic acc m -> Forall (λ c, c <> [] /\ bytes_ok c) (c :: cs) ->
  fits_limit (acc ++ concat (c :: cs)) ->
  exists res, feed c cs m = Some res /\ write_ok s magic (acc ++ concat (c :: cs)) res.
Proof.
  revert acc m c. induction cs as [|c' cs IH]; intros acc m c Hr Hcs Hfit;
    apply Forall_cons in Hcs as [[Hc Hok] Hcs]; cbn [concat feed] in *.
  - rewrite app_nil_r in *. destruct (write_ok_step s magic acc m c Hr Hok Hfit Hc) as ([[r rest] m'] & -> & Hw).
    by exists (r, rest, m').
  - set (more := c' ++ concat cs) in *. rewrite app_assoc in Hfit |- *.
    assert (Hfit' : fits_limit (acc ++ c)).
    { intros Hl. rewrite <- (frame_length_app _ more) by done. apply Hfit. rewrite zlen_app. pose proof (zlen_nonneg more). lia. }
    destruct (write_ok_step s magic acc m c Hr Hok Hfit' Hc) as ([[r rest] m'] & -> & Hw1 & Hw2 & Hw3).
    destruct (incomplete r) eqn:Ei.
    + destruct (Hw2 eq_refl) as [_ Hr']. by apply IH.
    + eexists; split; [done|]. subst r. unfold write_ok. rewrite (classify_app _ _ (acc ++ c) more) by done. split; [done|].
      rewrite Ei. split; [done|]. intros E. destruct (Hw3 E) as [-> ->]. apply classify_success in E as [E1 E2].
      assert (Hacc : bytes_ok (acc ++ c)) by (apply bytes_ok_app; split; [by eapply receiving_bytes | done]).
      pose proof (frame_length_min (acc ++ c) Hacc E1). assert (0 <= kMessageHeaderLength) by done.
      rewrite (frame_length_app (acc ++ c) more) by done.
      rewrite (zdrop_app_le _ (acc ++ c) more), (ztake_app_le _ (acc ++ c) more) by lia. done.
Qed.

(** C13: Receiving octets terminates and means what the format says: whatever a
    message has received so far, [write] on more octets returns the meaning of
    all of them together. An incomplete message has taken all of them and is
    ready for more; a complete one has taken its own octets only, leaves the
    others to the next message, and stands at the beginning of its payload. The
    one proviso is that header and payload fit the maximum size of a message. *)
Theorem write_refines (s : SDataStream.t) (magic acc input : Bytes) (m : Message.t) :
  receiving s magic acc m -> bytes_ok input -> fits_limit (acc ++ input) -> input <> [] ->
  exists r rest m', Message.write input m = Some (r, rest, m') /\
    r = classify (SDataStream.version_ s) magic (acc ++ input) /\
    (incomplete r = true -> rest = [] /\ receiving s magic (acc ++ input) m') /\
    (r = Success () ->
       let n := frame_length (acc ++ input) in
       rest = zdrop n (acc ++ input) /\ m' = received s magic (ztake n (acc ++ input))).
Proof.
  intros Hr Hok Hfit Hin. destruct (write_ok_step s magic acc m input Hr Hok Hfit Hin) as ([[r rest] m'] & Hw & H5 & H6 & H7).
  exists r, rest, m'. by split_and!.
Qed.

(** How the network cuts the octets into chunks does not matter: fed to a
    fresh message, any sequence of non-empty chunks ends with the meaning of their
    concatenation, the same octets left over, and the same complete message. *)
Theorem reassembly_chunks (version : Z) (magic c : Bytes) (cs : list Bytes) :
  Forall (λ c, c <> [] /\ bytes_ok c) (c :: cs) -> fits_limit (concat (c :: cs)) ->
  let bs := concat (c :: cs) in
  exists r rest m', feed c cs (Message.make version magic) = Some (r, rest, m') /\
    r = classify version magic bs /\
    (incomplete r = true -> rest = [] /\ Message.is_complete m' = false) /\
    (r = Success () ->
       rest = zdrop (frame_length bs) bs /\
       buffer_ (SDataStream.base (Message.ser_stream_ m')) = ztake (frame_length bs) bs /\
       Message.header_ m' = header_of bs /\
       Message.is_complete m' = true /\ Message.tellg m' = kMessageHeaderLength).
Proof.
  intros Hcs Hfit bs.
  destruct (feed_ok (SDataStream.make kNetwork version) magic [] (Message.make version magic) c cs) as ([[r rest] m'] & Hf & H5 & H6 & H7);
    [apply receiving_make | done | done |].
  exists r, rest, m'. split; [done|]. split; [done|]. split.
  - intros E. destruct (H6 E) as [-> Hr]. split; [done|]. by apply receiving_flags in Hr as [? _].
  - intros E. destruct (H7 E) as [-> ->]. split_and!; try done.
    change (Message.header_ (received _ _ ?a)) with (header_of a). rewrite E in H5. symmetry in H5.
    apply classify_success in H5 as [H8 H9]. rewrite <- (ztake_zdrop (frame_length ([] ++ concat (c :: cs))) bs).
    assert (Hb : bytes_ok bs).
    { clear -Hcs. unfold bs. induction Hcs as [|c' l [_ Hc] _ IH]; [by apply Forall_nil|]. cbn [concat]. by apply bytes_ok_app. }
    rewrite app_nil_l in *. fold bs in H8, H9 |- *. pose proof (frame_length_min bs Hb H8).
    assert (0 <= kMessageHeaderLength) by done.
    rewrite header_of_app; [done|]. rewrite zlen_ztake; lia.
Qed.

(** C1: Every payload within the limits of the protocol, without repeated items and not longer than its message definition
    allows, reaches the peer: [push] frames it, and the frame, cut into chunks in any way, is accepted by a fresh message as a
    whole message of the same type.  A fresh payload reads it from there leaving nothing over, and holds what was sent, except for what
    is not carried: an address within ::/64 comes back as an IPv4 address, a version has no times of services, a
    reject comes back with its default code, and a getheaders takes the version of the protocol from the
    stream.  Only a getheaders with more than 160 hashes, which is framed and accepted all the same, is refused when it is read. *)
Theorem push_roundtrip (version : Z) (magic c : Bytes) (cs : list Bytes) (p p0 : MessagePayload) :
  length magic = 4%nat -> bytes_ok magic -> sendable version p ->
  from_type (payload_type p) = Success (Some p0) ->
  Forall (λ c, c <> []) (c :: cs) -> concat (c :: cs) = payload_frame version magic p ->
  exists m m', Message.push p (Message.make version magic) = (Success (), payload_written version p, m) /\
    buffer_ (SDataStream.base (Message.ser_stream_ m)) = payload_frame version magic p /\
    feed c cs (Message.make version magic) = Some (Success (), [], m') /\
    Message.get_type m' = payload_type p /\
    (payload_readable p -> exists s',
       deserialize payload_serialization p0 (Message.ser_stream_ m') = (Success (), payload_decoded version p, s') /\ unread s' = []) /\
    (~ payload_readable p ->
       (deserialize payload_serialization p0 (Message.ser_stream_ m')).1.1 = Failure (NetError kMessagePayloadOversizedVector)) /\
    (payload_kept version p -> payload_decoded version p = p).
Proof.
  intros Hm Hokm Hs Hf0 Hcs Hc. destruct (classify_frame version version magic p Hm Hs) as (Hh & Hf & Hmax & Hd & Hcl).
  set (s := SDataStream.make kNetwork version) in *.
  exists (received s magic (payload_frame version magic p)), (received s magic (payload_frame version magic p)).
  split; [by apply push_make|]. split; [done|]. split; [|split; [|split; [|split; [|by apply decoded_kept]]]].
  - assert (Hokf : bytes_ok (concat (c :: cs))) by (rewrite Hc; apply frame_bytes_ok; [done | apply Hs]).
    destruct (feed_ok s magic [] (Message.make version magic) c cs) as ([[r rest] m'] & -> & Hw);
      [apply receiving_make | | rewrite app_nil_l, Hc; intros _; lia |].
    { clear -Hcs Hokf. induction (c :: cs) as [|a l IH]; [by apply Forall_nil|]. cbn [concat] in Hokf.
      apply bytes_ok_app in Hokf as [Ha Hl]. apply Forall_cons in Hcs as [Hn Hcs]. apply Forall_cons. by auto. }
    unfold write_ok in Hw. rewrite app_nil_l, Hc, Hf in Hw. destruct Hw as (-> & _ & H6).
    change (SDataStream.version_ s) with version in *. rewrite Hcl in H6 |- *. destruct (H6 eq_refl) as [-> ->]. by rewrite zdrop_ge, ztake_ge by lia.
  - unfold Message.get_type, MessageHeader.get_type, MessageHeader.get_definition, received.
    change (Message.header_ (body ?h _ _ _ _ _)) with h. rewrite Hh. apply ProtocolTheorems.definition_type.
  - intros Hr. destruct (received_payload version magic p p0 Hm Hs Hr Hf0) as (s' & Hdes & Hun & _). by exists s'.
  - intros Hr. by apply received_refused.
Qed.
End crypto.

Definition sample_magic : Bytes := [0x63; 0x61; 0x73; 0x68].
Definition sample_ping : MessagePayload := MsgPingPong kPing 77.
Definition sample_inv : MessagePayload := MsgInventory kInv [sample_item].

Lemma write_refines_witness : exists rest m',
  @Message.write model_crypto (sample_magic ++ [1; 2]) (Message.make 170002 sample_magic) =
    Some (Failure (NetError kMessageHeaderIncomplete), rest, m') /\ rest = [].
Proof.
  destruct (@write_refines model_crypto model_crypto_laws (SDataStream.make kNetwork 170002) sample_magic []
    (sample_magic ++ [1; 2]) (Message.make 170002 sample_magic)) as (r & rest & m' & Hw & Hr & Hi & _).
  - apply receiving_make.
  - decide_now.
  - intros Hl. by exfalso.
  - done.
  - exists rest, m'. subst r. split; [exact Hw|]. by apply Hi.
Defined.

Lemma push_roundtrip_witness : exists m' s',
  let e := @payload_frame model_crypto 170002 sample_magic sample_inv in
  @feed model_crypto (ztake 10 e) [zdrop 10 e] (Message.make 170002 sample_magic) = Some (Success (), [], m') /\
  deserialize (@payload_serialization model_boost) (MsgInventory kInv []) (Message.ser_stream_ m') =
    (Success (), sample_inv, s').
Proof.
  destruct (@push_roundtrip model_crypto model_crypto_laws model_boost model_boost_laws 170002 sample_magic
    (ztake 10 (@payload_frame model_crypto 170002 sample_magic sample_inv))
    [zdrop 10 (@payload_frame model_crypto 170002 sample_magic sample_inv)]
    sample_inv (MsgInventory kInv [])) as (m & m' & _ & _ & Hf & _ & Hd & _).
  - done.
  - decide_now.
  - split; [exact sample_inventory_ok|]. split; [decide_now|]. split; [decide_now | by vm_compute].
  - done.
  - decide_now.
  - by vm_compute.
  - destruct (Hd I) as (s' & Hs & _). exists m', s'. split; [exact Hf | exact Hs].
Defined.
End Reassembly.
