(* ===== verification/Chain.v ===== *)
(** * Known chains

    Models of [src/src/core/chain/config.cpp] and [seeds.cpp]: the configurations
    that the program knows, their look up by number and by name, and the hosts
    that seed the address book, and the JSON form of a configuration. *)

From stdpp Require Import gmap.
From S2P Require Import Prelude Text Boost Json.
#[local] Open Scope Z_scope.

Inductive SealEngineType := kNoProof | kEquihash.

Module ChainConfig.
Record t := mk {
  identifier_ : Z;
  magic_ : Bytes;
  default_port_ : Z;
  seal_engine_type_ : SealEngineType;
  genesis_hash_ : Bytes;
  merkle_root_hash_ : Bytes;
}.
End ChainConfig.

Definition kMainNetConfig : ChainConfig.t := ChainConfig.mk 1 [0x63; 0x61; 0x73; 0x68] 9033 kEquihash
  (str "0x0007104ccda289427919efc39dc9e4d499804b7bebc22df55f8b834301260602")
  (str "0x19612bcf00ea7611d315d7f43554fa983c6e8c30cba17e52c679e0e80abf7d42").

Definition kTestNetConfig : ChainConfig.t := ChainConfig.mk 2 [0xbf; 0xf2; 0xcd; 0xe6] 19033 kEquihash
  (str "0x03e1c4bb705c871bf9bfda3e74b7f8f86bff267993c215a89d5795e3708e5e1f")
  (str "0x19612bcf00ea7611d315d7f43554fa983c6e8c30cba17e52c679e0e80abf7d42").

Definition kRegTestConfig : ChainConfig.t := ChainConfig.mk 3 [0x2f; 0x54; 0xcc; 0x9d] 19133 kEquihash
  (str "0x0da5ee723b7923feb580518541c6f098206330dbc711a6678922c11f2ccf1abb")
  (str "0x19612bcf00ea7611d315d7f43554fa983c6e8c30cba17e52c679e0e80abf7d42").

Definition kKnownChainConfigs : list (Bytes * ChainConfig.t) :=
  [(str "mainnet", kMainNetConfig); (str "testnet", kTestNetConfig); (str "regtest", kRegTestConfig)].

Definition lookup_known_chain (identifier : Z) : option (Bytes * ChainConfig.t) :=
  find (λ p, ChainConfig.identifier_ p.2 =? identifier) kKnownChainConfigs.

Definition lookup_known_chain_by_name (identifier : Bytes) : option (Bytes * ChainConfig.t) :=
  find (λ p, iequals p.1 identifier) kKnownChainConfigs.

Definition lookup_known_chain_name (identifier : Z) : Bytes :=
  match lookup_known_chain identifier with Some p => p.1 | None => str "unknown" end.

Definition get_known_chains_map : gmap Bytes Z :=
  foldl (λ ret p, <[p.1 := ChainConfig.identifier_ p.2]> ret) ∅ kKnownChainConfigs.

Definition kMainNetSeeds : list Bytes :=
  [str "mainnet.horizen.global"; str "mainnet.zensystem.io"; str "node1.zenchain.info"].
Definition kTestNetSeeds : list Bytes :=
  [str "testnet.horizen.global"; str "testnet.zensystem.io"; str "node1.zenchain.info"].
Definition kRegTestSeeds : list Bytes := [].

Definition get_chain_seeds (chain_config : ChainConfig.t) : outcome (list Bytes) :=
  let id := ChainConfig.identifier_ chain_config in
  if id =? 1 then Success kMainNetSeeds
  else if id =? 2 then Success kTestNetSeeds
  else if id =? 3 then Success kRegTestSeeds
  else Fault AssertionFailed.

(** ** JSON *)

(** [magic_enum::enum_name] and [enum_cast] *)
Definition seal_engine_name (t : SealEngineType) : Bytes :=
  match t with kNoProof => str "kNoProof" | kEquihash => str "kEquihash" end.
Definition seal_engine_cast (name : Bytes) : option SealEngineType :=
  find (λ t, bool_decide (seal_engine_name t = name)) [kNoProof; kEquihash].

(** [name.erase(name.find('k'), 1)] *)
Fixpoint erase_k (name : Bytes) : Bytes :=
  match name with
  | [] => []
  | c :: name => if c =? 107 then name else c :: erase_k name
  end.

(** The name is taken from the vector without a check of the index. *)
Definition to_json (c : ChainConfig.t) : outcome json :=
  match kKnownChainConfigs !! Z.to_nat (wrap 32 (ChainConfig.identifier_ c - 1)) with
  | None => Fault UndefinedBehaviour
  | Some known =>
      let ret := json_set (str "chainId") (JInt (ChainConfig.identifier_ c)) (JObject []) in
      let ret := json_set (str "chainName") (JString known.1) ret in
      let ret := json_set (str "chainMagic") (JArray (JInt <$> ChainConfig.magic_ c)) ret in
      let ret := json_set (str "defaultPort") (JInt (ChainConfig.default_port_ c)) ret in
      let consensus_name := erase_k (seal_engine_name (ChainConfig.seal_engine_type_ c)) in
      let parameters := json_set (str "N") (JInt 9) (json_set (str "K") (JInt 200) (JObject [])) in
      let consensus_object := json_set consensus_name parameters (JObject []) in
      Success (json_set (str "consensus") consensus_object ret)
  end.

(** The last object of the consensus is the one that counts. *)
Fixpoint read_consensus (items : list (Bytes * json)) (t : SealEngineType) : outcome SealEngineType :=
  match items with
  | [] => Success t
  | (key, value) :: items =>
      if is_object value then
        match seal_engine_cast (str "k" ++ key) with
        | Some t => read_consensus items t
        | None => Fault Terminated
        end
      else read_consensus items t
  end.

(** No value is a text that could not be parsed.  A constant object has no value for a
    key that is missing. *)
Definition from_json (j : option json) : outcome (option ChainConfig.t) :=
  match j with
  | None => Success None
  | Some j =>
      match json_get (str "chainId") j with
      | None => Success None
      | Some id =>
          if negb (is_number_integer id) then Success None
          else
            let? identifier := json_arithmetic 32 id in
            match json_get (str "chainMagic") j, json_get (str "defaultPort") j with
            | Some magic, Some port =>
                let? magic := json_octets 4 magic in
                let? port := json_arithmetic 16 port in
                let? engine :=
                  match json_get (str "consensus") j with
                  | Some (JObject items) => read_consensus items kNoProof
                  | _ => Success kNoProof
                  end in
                Success (Some (ChainConfig.mk identifier magic port engine [] []))
            | _, _ => Fault UndefinedBehaviour
            end
      end
  end.

Module ChainFacts.

(** A chain is found by its number and by its name, in any case of its letters,
    and its number and its name tell each other. *)
Lemma lookup_agree name c : lookup_known_chain_by_name name = Some c ->
  lookup_known_chain (ChainConfig.identifier_ c.2) = Some c /\ lookup_known_chain_name (ChainConfig.identifier_ c.2) = c.1 /\
  iequals c.1 name = true /\ get_known_chains_map !! c.1 = Some (ChainConfig.identifier_ c.2) /\
  exists seeds, get_chain_seeds c.2 = Success seeds.
Proof.
  unfold lookup_known_chain_by_name. intros Hf. pose proof (find_some _ _ Hf) as [Hin He].
  split_and!; [..|exact He | |]; clear Hf He; destruct Hin as [<-|[<-|[<-|[]]]]; try (by vm_compute); eexists; reflexivity.
Qed.

Lemma lookup_upper name : lookup_known_chain_by_name (to_upper <$> name) = lookup_known_chain_by_name name.
Proof.
  assert (Hi : forall a, iequals a (to_upper <$> name) = iequals a name).
  { intros a. unfold iequals. apply bool_decide_ext. rewrite <- list_fmap_compose.
    replace ((to_upper ∘ to_upper) <$> name) with (to_upper <$> name); [done|]. apply list_fmap_ext. intros _ x _. unfold compose, to_upper.
    destruct (Z.leb_spec 97 x), (Z.leb_spec x 122); cbn [andb]; destruct (Z.leb_spec 97 x), (Z.leb_spec x 122); cbn [andb]; try lia;
      destruct (Z.leb_spec 97 (x - 32)); cbn [andb]; try lia; done. }
  unfold lookup_known_chain_by_name. cbn [find kKnownChainConfigs]. by rewrite !Hi.
Qed.

(** The chains are told apart on the wire and by the port. *)
Lemma chains_distinct : NoDup ((λ p : Bytes * ChainConfig.t, ChainConfig.magic_ p.2) <$> kKnownChainConfigs) /\
  NoDup ((λ p : Bytes * ChainConfig.t, ChainConfig.default_port_ p.2) <$> kKnownChainConfigs).
Proof. split; by apply (bool_decide_eq_true_1 (NoDup _)). Qed.

(** ** JSON *)

(** A configuration as its JSON form tells it: the hashes of the genesis block are not
    in it. *)
Definition forget_hashes (c : ChainConfig.t) : ChainConfig.t :=
  ChainConfig.mk (ChainConfig.identifier_ c) (ChainConfig.magic_ c) (ChainConfig.default_port_ c)
    (ChainConfig.seal_engine_type_ c) [] [].

Definition json_form (c : ChainConfig.t) (name : Bytes) : json :=
  JObject [(str "chainId", JInt (ChainConfig.identifier_ c));
           (str "chainMagic", JArray (JInt <$> ChainConfig.magic_ c));
           (str "chainName", JString name);
           (str "consensus", JObject [(erase_k (seal_engine_name (ChainConfig.seal_engine_type_ c)),
             JObject [(str "K", JInt 200); (str "N", JInt 9)])]);
           (str "defaultPort", JInt (ChainConfig.default_port_ c))].

(** The configurations whose JSON form can be written and read. *)
Definition json_ready (c : ChainConfig.t) : Prop :=
  1 <= ChainConfig.identifier_ c <= 3 /\ bytes_ok (ChainConfig.magic_ c) /\ length (ChainConfig.magic_ c) = 4%nat /\
  0 <= ChainConfig.default_port_ c < 65536.

Lemma to_json_form c : json_ready c -> exists name, ascii_text name = true /\ to_json c = Success (json_form c name).
Proof.
  intros (Hi & _). assert (Hk : is_Some (kKnownChainConfigs !! Z.to_nat (wrap 32 (ChainConfig.identifier_ c - 1)))).
  { unfold wrap. rewrite Z.mod_small by lia. apply lookup_lt_is_Some. cbn. lia. }
  destruct Hk as [known Hk]. exists known.1. unfold to_json. rewrite Hk. split; [|done].
  apply list_elem_of_lookup_2 in Hk. revert known Hk. apply Forall_forall. decide_now.
Qed.

Lemma plain_octets l : bytes_ok l -> forallb plain (JInt <$> l) = true.
Proof.
  unfold bytes_ok, is_byte. induction 1 as [|b l Hb _ IH]; [done|]. rewrite fmap_cons. cbn [forallb plain]. rewrite IH, andb_true_r.
  apply andb_true_iff. split; [apply Z.leb_le | apply Z.ltb_lt]; lia.
Qed.

Lemma plain_form c name : json_ready c -> ascii_text name = true -> plain (json_form c name) = true.
Proof.
  intros (Hi & Hm & _ & Hp) Hn. assert (Hz : forall z, 0 <= z < 65536 -> plain (JInt z) = true).
  { intros z Hz. cbn [plain]. apply andb_true_iff. split; [apply Z.leb_le | apply Z.ltb_lt]; lia. }
  unfold json_form. cbn [plain]. apply andb_true_iff. split; [done|]. cbn [forallb fst snd].
  rewrite (Hz _ Hp), (Hz (ChainConfig.identifier_ c)) by lia. cbn [plain]. rewrite Hn, plain_octets by done.
  by destruct (ChainConfig.seal_engine_type_ c).
Qed.

Lemma from_form c name : json_ready c -> from_json (Some (json_form c name)) = Success (Some (forget_hashes c)).
Proof.
  intros (Hi & Hm & Hl & Hp). unfold from_json.
  change (json_get (str "chainId") (json_form c name)) with (Some (JInt (ChainConfig.identifier_ c))).
  change (json_get (str "chainMagic") (json_form c name)) with (Some (JArray (JInt <$> ChainConfig.magic_ c))).
  change (json_get (str "defaultPort") (json_form c name)) with (Some (JInt (ChainConfig.default_port_ c))).
  change (json_get (str "consensus") (json_form c name)) with
    (Some (JObject [(erase_k (seal_engine_name (ChainConfig.seal_engine_type_ c)), JObject [(str "K", JInt 200); (str "N", JInt 9)])])).
  cbn [is_number_integer negb json_arithmetic outcome_bind]. rewrite <- Hl, json_octets_array by done. cbn [outcome_bind].
  unfold wrap, forget_hashes. rewrite !Z.mod_small by lia. by destruct (ChainConfig.seal_engine_type_ c).
Qed.

Lemma known_ready p : p ∈ kKnownChainConfigs -> json_ready p.2.
Proof. revert p. apply Forall_forall. repeat (constructor; [unfold json_ready, bytes_ok; decide_now|]). constructor. Qed.

End ChainFacts.
