(* ===== verification/Database.v ===== *)
(** * The database

    Models of [src/src/infra/database/mdbx.cpp], [access_layer.cpp] and
    [stages.cpp].  libmdbx is a parameter: the class [Mdbx] has the operations
    that the sources call on transactions and cursors, the class [MdbxLaws] what
    they rely on: a table is a sequence of records in the order of their keys, and
    a cursor is on a record, between records after it has erased one, or on
    none.

    Loops over a cursor are recursions on a measure: the number of records bounds
    the number of turns.  What a call back does is a function on a state of its
    own.

    The environment and its tables are in [Environment]. *)

From stdpp Require Import sorting.
From S2P Require Import Prelude Text Boost.
#[local] Open Scope Z_scope.

Abbreviation row := (Bytes * Bytes)%type.

(** ** The order of keys *)

Definition key_lt (a b : Bytes) : Prop := lex_compare a b = Lt.
Definition rows_sorted (l : list row) : Prop := StronglySorted (λ a b : row, key_lt a.1 b.1) l.

(** A record replaced, or put at its place. *)
Fixpoint insert_row (k v : Bytes) (l : list row) : list row :=
  match l with
  | [] => [(k, v)]
  | r :: l' =>
      match lex_compare k r.1 with
      | Lt => (k, v) :: l
      | Eq => (k, v) :: l'
      | Gt => r :: insert_row k v l'
      end
  end.

Fixpoint find_row (k : Bytes) (l : list row) : option Bytes :=
  match l with
  | [] => None
  | r :: l => if bool_decide (r.1 = k) then Some r.2 else find_row k l
  end.

(** The number of records before the first whose key is not less than [k]. *)
Fixpoint lower_index (k : Bytes) (l : list row) : nat :=
  match l with
  | [] => O
  | r :: l => match lex_compare r.1 k with Lt => S (lower_index k l) | _ => O end
  end.

Definition starts_with (prefix k : Bytes) : bool := bool_decide (take (length prefix) k = prefix).

(** ** libmdbx *)

(** Records change in write transactions only: in one that is read only libmdbx throws, and the laws say nothing. *)

Inductive place := Unset | At (i : nat) | Gap (i : nat).

Class Mdbx := {
  txn : Type;
  cursor : Type;
  is_readonly : txn -> bool;
  open_cursor : Bytes -> txn -> cursor;
  cursor_txn : cursor -> txn;
  clear_map : Bytes -> txn -> txn;
  rows : cursor -> list row;
  map_name : cursor -> Bytes;
  position : cursor -> place;
  eof : cursor -> bool;
  current : cursor -> option row;
  to_first : cursor -> option row * cursor;
  to_last : cursor -> option row * cursor;
  to_next : cursor -> option row * cursor;
  to_previous : cursor -> option row * cursor;
  lower_bound : Bytes -> cursor -> option row * cursor;
  seek : Bytes -> cursor -> bool * cursor;
  upsert : Bytes -> Bytes -> cursor -> cursor;
  erase : cursor -> bool * cursor;
}.

(** The records of a table. *)
Definition table `{Mdbx} (name : Bytes) (t : txn) : list row := rows (open_cursor name t).

(** A cursor that has moved: to record [i], if there is one. *)
Definition moved_to `{Mdbx} (i : nat) (c : cursor) (r : option row * cursor) : Prop :=
  r.1 = rows c !! i /\ rows r.2 = rows c /\ map_name r.2 = map_name c /\ cursor_txn r.2 = cursor_txn c /\
  position r.2 = (if decide (i < length (rows c))%nat then At i else Unset).

(** A cursor that has left the records. *)
Definition moved_out `{Mdbx} (c : cursor) (r : option row * cursor) : Prop :=
  r.1 = None /\ rows r.2 = rows c /\ map_name r.2 = map_name c /\ cursor_txn r.2 = cursor_txn c /\ position r.2 = Unset.

Class MdbxLaws `{Mdbx} : Prop := {
  table_sorted name t : rows_sorted (table name t);
  rows_table c : rows c = table (map_name c) (cursor_txn c);
  position_bound c i : position c = At i -> (i < length (rows c))%nat;
  open_name name t : map_name (open_cursor name t) = name;
  open_txn name t : cursor_txn (open_cursor name t) = t;
  open_position name t : position (open_cursor name t) = Unset;
  eof_unset c : position c = Unset -> eof c = true;
  eof_at c i : position c = At i -> eof c = false;
  current_at c i : position c = At i -> current c = rows c !! i;
  to_first_moves c : moved_to 0 c (to_first c);
  to_last_moves c : moved_to (length (rows c) - 1) c (to_last c);
  to_next_at c i : position c = At i -> moved_to (S i) c (to_next c);
  to_next_gap c i : position c = Gap i -> moved_to i c (to_next c);
  to_previous_at c i : position c = At (S i) \/ position c = Gap (S i) -> moved_to i c (to_previous c);
  to_previous_out c : position c = At 0 \/ position c = Gap 0 -> moved_out c (to_previous c);
  lower_bound_moves k c : moved_to (lower_index k (rows c)) c (lower_bound k c);
  seek_found k c : (seek k c).1 = bool_decide (is_Some (find_row k (rows c)));
  seek_moves k c v : find_row k (rows c) = Some v -> current (seek k c).2 = Some (k, v);
  upsert_name k v c : map_name (upsert k v c) = map_name c;
  upsert_rows k v c : is_readonly (cursor_txn c) = false -> rows (upsert k v c) = insert_row k v (rows c);
  upsert_others k v c name : name <> map_name c -> table name (cursor_txn (upsert k v c)) = table name (cursor_txn c);
  upsert_mode k v c : is_readonly (cursor_txn (upsert k v c)) = is_readonly (cursor_txn c);
  erase_at c i : is_readonly (cursor_txn c) = false -> position c = At i -> (erase c).1 = true /\ rows (erase c).2 = take i (rows c) ++ drop (S i) (rows c) /\
    position (erase c).2 = Gap i /\ map_name (erase c).2 = map_name c /\ is_readonly (cursor_txn (erase c).2) = false;
  clear_map_table name t : is_readonly t = false -> table name (clear_map name t) = [];
  clear_map_others name name' t : name' <> name -> table name' (clear_map name t) = table name' t;
  clear_map_mode name t : is_readonly (clear_map name t) = is_readonly t;
}.

(** ** Walks *)

Inductive CursorMoveDirection := Forward | Reverse.

Section Walks.
Context `{Mdbx}.

Definition move_operation (direction : CursorMoveDirection) : cursor -> option row * cursor :=
  match direction with Forward => to_next | Reverse => to_previous end.

Definition adjust_cursor_position_if_unpositioned (c : cursor) (direction : CursorMoveDirection) : option row * cursor :=
  if eof c then match direction with Forward => to_first c | Reverse => to_last c end
  else (current c, c).

Definition strict_lower_bound (key : Bytes) (c : cursor) : option row * cursor :=
  match lower_bound key c with
  | (None, c) => to_last c
  | (Some _, c) => to_previous c
  end.

Section Walk.
Context {S : Type}.
Variable walker : Bytes -> Bytes -> S -> S.

(** The loop of the walks: it goes on while [cond] holds of the number of records
    seen and the next one. *)
Fixpoint walk_loop (fuel : nat) (direction : CursorMoveDirection) (cond : Z -> row -> bool)
    (ret : Z) (data : option row) (s : S) (c : cursor) : option (Z * S * cursor) :=
  match fuel, data with
  | O, _ => None
  | _, None => Some (ret, s, c)
  | Datatypes.S fuel, Some r =>
      if cond ret r then
        let s := walker r.1 r.2 s in
        let (data, c) := move_operation direction c in
        walk_loop fuel direction cond (ret + 1) data s c
      else Some (ret, s, c)
  end.

Definition walk (direction : CursorMoveDirection) (cond : Z -> row -> bool) (start : option row * cursor) (s : S)
    : option (Z * S * cursor) :=
  walk_loop (Datatypes.S (length (rows start.2))) direction cond 0 start.1 s start.2.

Definition cursor_for_each (c : cursor) (direction : CursorMoveDirection) : S -> option (Z * S * cursor) :=
  walk direction (λ _ _, true) (adjust_cursor_position_if_unpositioned c direction).

Definition cursor_for_prefix (c : cursor) (prefix : Bytes) (direction : CursorMoveDirection) : S -> option (Z * S * cursor) :=
  walk direction (λ _ r, starts_with prefix r.1) (lower_bound prefix c).

Definition cursor_for_count (c : cursor) (count : Z) (direction : CursorMoveDirection) : S -> option (Z * S * cursor) :=
  walk direction (λ ret _, negb (count - ret =? 0)) (adjust_cursor_position_if_unpositioned c direction).
End Walk.

(** The loop of the erasures, [counted] telling what an erasure adds. *)
Fixpoint erase_loop (fuel : nat) (direction : CursorMoveDirection) (cond : row -> bool) (counted : bool -> Z)
    (ret : Z) (data : option row) (c : cursor) : option (Z * cursor) :=
  match fuel, data with
  | O, _ => None
  | _, None => Some (ret, c)
  | Datatypes.S fuel, Some r =>
      if cond r then
        let (erased, c) := erase c in
        let (data, c) := move_operation direction c in
        erase_loop fuel direction cond counted (ret + counted erased) data c
      else Some (ret, c)
  end.

Definition cursor_erase_prefix (c : cursor) (prefix : Bytes) : option (Z * cursor) :=
  let (data, c) := lower_bound prefix c in
  erase_loop (Datatypes.S (length (rows c))) Forward (λ r, starts_with prefix r.1) (λ _, 1) 0 data c.

Definition cursor_erase (c : cursor) (set_key : Bytes) (direction : CursorMoveDirection) : option (Z * cursor) :=
  let (data, c) := match direction with Forward => lower_bound set_key c | Reverse => strict_lower_bound set_key c end in
  erase_loop (Datatypes.S (length (rows c))) direction (λ _, true) (λ erased, if erased then 1 else 0) 0 data c.

End Walks.

(** The size of a value that fits a leaf page with a key of [key_size] octets. *)
Definition max_value_size_for_leaf_page (page_size key_size : Z) : Z :=
  let page_room := wrap 64 (page_size - 32) in
  let leaf_node_max_room := wrap 64 (Z.land (page_room / 2) (Z.lnot 1) - 2 * 2) in
  wrap 64 (leaf_node_max_room - key_size).

(** ** Configuration values *)

Section AccessLayer.
Context `{Mdbx}.

Definition kConfig : Bytes := str "Config".
Definition kDbSchemaVersionKey : Bytes := str "DbSchemaVersion".

Definition write_config_value (key value : Bytes) (t : txn) : txn :=
  if is_readonly t then t else cursor_txn (upsert key value (open_cursor kConfig t)).

Definition read_config_value (key : Bytes) (t : txn) : option Bytes :=
  let (found, config) := seek key (open_cursor kConfig t) in
  if negb found then None else snd <$> current config.

(** [Version] and its default order. *)
Record Version := { Major : Z; Minor : Z; Patch : Z }.

#[global] Instance Version_dec : EqDecision Version.
Proof. solve_decision. Defined.

Definition version_lt (a b : Version) : bool :=
  match Major a ?= Major b with
  | Lt => true
  | Gt => false
  | Eq => match Minor a ?= Minor b with Lt => true | Gt => false | Eq => Patch a <? Patch b end
  end.

Definition read_schema_version (t : txn) : outcome (option Version) :=
  match read_config_value kDbSchemaVersionKey t with
  | None => Success None
  | Some data =>
      if negb (zlen data =? 12) then Fault AssertionFailed
      else Success (Some {| Major := be_value (take 4 data); Minor := be_value (take 4 (drop 4 data)); Patch := be_value (drop 8 data) |})
  end.

Definition write_schema_version (version : Version) (t : txn) : outcome unit * txn :=
  if is_readonly t then (Success (), t)
  else
    let write := write_config_value kDbSchemaVersionKey
      (be_bytes 4 (Major version) ++ be_bytes 4 (Minor version) ++ be_bytes 4 (Patch version)) t in
    match read_schema_version t with
    | Success (Some prev_version) =>
        if bool_decide (version = prev_version) then (Success (), t)
        else if version_lt version prev_version then (Failure (Thrown std_invalid_argument), t)
        else (Success (), write)
    | Success None => (Success (), write)
    | Failure e => (Failure e, t)
    | Fault f => (Fault f, t)
    end.

(** ** Stages *)

Definition kSyncStageProgress : Bytes := str "Stages".
Definition kAllStages : list Bytes := [str "Headers"; str "Bodies"; str "Execution"; str "Finish"; str "Unwind"].

Definition is_known_stage (name : Bytes) : bool :=
  if negb (zlen name =? 0) then existsb (λ stage, bool_decide (stage = name)) kAllStages else false.

(** [key_prefix] is empty when it is not given. *)
Definition get_stage_data (stage_name domain key_prefix : Bytes) (t : txn) : outcome Z :=
  if negb (is_known_stage stage_name) then Failure (Thrown std_invalid_argument)
  else
    let (found, src) := seek (key_prefix ++ stage_name) (open_cursor domain t) in
    match (if found then snd <$> current src else None) with
    | None => Success 0
    | Some value => if negb (zlen value =? 4) then Failure (Thrown std_length_error) else Success (be_value value)
    end.

(** libmdbx throws on writes to a transaction that is read only. *)
Definition set_stage_data (stage_name : Bytes) (block_num : Z) (domain key_prefix : Bytes) (t : txn) : outcome unit * txn :=
  if negb (is_known_stage stage_name) then (Failure (Thrown std_invalid_argument), t)
  else if is_readonly t then (Failure (Thrown std_runtime_error), t)
  else (Success (), cursor_txn (upsert (key_prefix ++ stage_name) (be_bytes 4 block_num) (open_cursor domain t))).

Definition read_stage_progress (stage_name : Bytes) : txn -> outcome Z := get_stage_data stage_name kSyncStageProgress [].
Definition read_stage_prune_progress (stage_name : Bytes) : txn -> outcome Z :=
  get_stage_data stage_name kSyncStageProgress (str "prune_").
Definition write_stage_progress (stage_name : Bytes) (block_num : Z) : txn -> outcome unit * txn :=
  set_stage_data stage_name block_num kSyncStageProgress [].
Definition write_stage_prune_progress (stage_name : Bytes) (block_num : Z) : txn -> outcome unit * txn :=
  set_stage_data stage_name block_num kSyncStageProgress (str "prune_").

End AccessLayer.
