(* ===== verification/DatabaseFacts.v ===== *)
(** * Properties of the database layer

    What the walks and erasures of a cursor reach, and that configuration values,
    schema versions and stage progress are read back. *)

From stdpp Require Import sorting gmap.
From S2P Require Import Prelude Text Boost Database.
#[local] Open Scope Z_scope.

Module DatabaseFacts.

(** ** The order of keys *)

Lemma key_lt_trans a b c : key_lt a b -> key_lt b c -> key_lt a c.
Proof.
  unfold key_lt. revert b c. induction a as [|x a IH]; intros [|y b] [|z c]; simpl; try done.
  destruct (Z.compare_spec x y), (Z.compare_spec y z), (Z.compare_spec x z); try done; try lia. apply IH.
Qed.

Lemma key_lt_irrefl a : ~ key_lt a a.
Proof. unfold key_lt. rewrite (proj2 (lex_compare_eq a a)) by done. done. Qed.

Lemma key_gt a b : lex_compare a b = Gt <-> key_lt b a.
Proof. unfold key_lt. rewrite (lex_compare_antisym a b). by destruct (lex_compare a b). Qed.

Lemma sorted_cons r l : rows_sorted (r :: l) <-> rows_sorted l /\ Forall (λ q : row, key_lt r.1 q.1) l.
Proof. unfold rows_sorted. split; [intros Hs; inversion Hs; by subst | intros []; by constructor]. Qed.

Lemma sorted_app l l' : rows_sorted (l ++ l') -> rows_sorted l /\ rows_sorted l' /\
  forall r r', r ∈ l -> r' ∈ l' -> key_lt r.1 r'.1.
Proof.
  induction l as [|q l IH]; cbn [app]; [intros Hs; split_and!; [constructor | done | intros r r' Hr; by apply elem_of_nil in Hr]|].
  rewrite !sorted_cons. rewrite Forall_app. intros [Hs [H1 H2]]. destruct (IH Hs) as (I1 & I2 & I3). split_and!; try done.
  intros r r' [->|Hr]%elem_of_cons Hr'; [|by apply I3]. rewrite Forall_forall in H2. by apply H2.
Qed.

Lemma sorted_drop i l : rows_sorted l -> rows_sorted (drop i l).
Proof. intros Hs. rewrite <- (take_drop i l) in Hs. by apply sorted_app in Hs as (_ & Hs & _). Qed.

(** ** Records *)

Lemma find_row_none k l : Forall (λ q : row, key_lt k q.1) l -> find_row k l = None.
Proof.
  induction 1 as [|q l Hq _ IH]; [done|]. cbn [find_row]. rewrite bool_decide_false; [done|].
  intros Hk. rewrite Hk in Hq. by apply key_lt_irrefl in Hq.
Qed.

Lemma find_insert_row k v k' l : rows_sorted l ->
  find_row k' (insert_row k v l) = if decide (k' = k) then Some v else find_row k' l.
Proof.
  induction l as [|r l IH]; intros Hs; cbn [insert_row find_row].
  - destruct (decide (k' = k)) as [->|]; [by rewrite bool_decide_true | by rewrite bool_decide_false].
  - apply sorted_cons in Hs as [Hs Hr]. destruct (lex_compare k r.1) eqn:E; cbn [find_row fst snd].
    + apply lex_compare_eq in E as ->. destruct (decide (k' = r.1)) as [->|]; [by rewrite bool_decide_true|].
      by rewrite !bool_decide_false.
    + destruct (decide (k' = k)) as [->|]; [by rewrite bool_decide_true | by rewrite bool_decide_false].
    + rewrite IH by done. destruct (decide (k' = k)) as [->|]; [|done]. case_bool_decide as Hk; [|done].
      subst k. rewrite (proj2 (lex_compare_eq _ _)) in E; done.
Qed.

Lemma insert_row_member k v l q : q ∈ insert_row k v l -> q = (k, v) \/ q ∈ l.
Proof.
  induction l as [|r l IH]; cbn [insert_row]; [intros ->%list_elem_of_singleton; by left|].
  destruct (lex_compare k r.1); rewrite !elem_of_cons; tauto.
Qed.

Lemma insert_row_sorted k v l : rows_sorted l -> rows_sorted (insert_row k v l).
Proof.
  induction l as [|r l IH]; intros Hs; cbn [insert_row]; [apply sorted_cons; split; [constructor | done]|].
  apply sorted_cons in Hs as [Hs Hr]. destruct (lex_compare k r.1) eqn:E; apply sorted_cons.
  - apply lex_compare_eq in E as ->. by split.
  - split; [by apply sorted_cons|]. constructor; [done|]. eapply Forall_impl; [exact Hr|]. intros q Hq. by eapply key_lt_trans.
  - split; [by apply IH|]. apply Forall_forall. intros q [->|Hq]%insert_row_member; [by apply key_gt|].
    rewrite Forall_forall in Hr. by apply Hr.
Qed.

(** The records before and from the lower bound of a key. *)
Lemma lower_index_spec k l : rows_sorted l ->
  (lower_index k l <= length l)%nat /\ Forall (λ q : row, key_lt q.1 k) (take (lower_index k l) l) /\
  Forall (λ q : row, ~ key_lt q.1 k) (drop (lower_index k l) l).
Proof.
  induction l as [|r l IH]; intros Hs; cbn [lower_index]; [by split_and!; try done; constructor|].
  apply sorted_cons in Hs as [Hs Hr]. destruct (lex_compare r.1 k) eqn:E.
  1,3: cbn [take drop]; split_and!; [simpl; lia | constructor |]; apply Forall_forall; intros q [->|Hq]%elem_of_cons; unfold key_lt;
    [by rewrite E|]; intros Hlt; rewrite Forall_forall in Hr; specialize (Hr q Hq); pose proof (key_lt_trans _ _ _ Hr Hlt) as Hc;
    unfold key_lt in Hc; by rewrite E in Hc.
  destruct (IH Hs) as (I1 & I2 & I3). cbn [take drop length]. split_and!; [lia | by constructor | done].
Qed.

(** The records with a prefix are adjacent, and start at the lower bound of the
    prefix. *)
Lemma starts_not_below p k : starts_with p k = true -> ~ key_lt k p.
Proof.
  unfold starts_with, key_lt. rewrite bool_decide_eq_true. revert k. induction p as [|x p IH]; intros [|y k]; simpl; try done.
  intros [= -> Hp]. rewrite Z.compare_refl. by apply IH.
Qed.

Lemma starts_convex p k k' : ~ key_lt k p -> starts_with p k = false -> key_lt k k' -> starts_with p k' = false.
Proof.
  unfold starts_with, key_lt. rewrite !bool_decide_eq_false. revert k k'.
  induction p as [|x p IH]; intros [|y k] [|z k']; simpl; try done.
  destruct (Z.compare_spec y x) as [->|Hlt|Hgt]; destruct (Z.compare_spec x z) as [Hz|Hz|Hz]; subst; try done.
  - intros H1 H2 H3 [= E]. apply (IH k k'); try done. intros E'. apply H2. by rewrite E'.
  - intros _ _ _ [= -> _]. lia.
  - rewrite (proj2 (Z.compare_gt_iff y z)) by lia. done.
  - intros _ _ _ [= -> _]. lia.
  - intros _ _ _ [= -> _]. lia.
Qed.

(** The records that a walk sees. *)
Fixpoint visited (cond : Z -> row -> bool) (ret : Z) (l : list row) : list row :=
  match l with
  | [] => []
  | r :: l => if cond ret r then r :: visited cond (ret + 1) l else []
  end.

Lemma visited_all ret l : visited (λ _ _, true) ret l = l.
Proof. revert ret. induction l as [|r l IH]; intros ret; [done|]. cbn. by rewrite IH. Qed.

Lemma visited_count n ret l : ret <= n -> visited (λ k _, negb (n - k =? 0)) ret l = ztake (n - ret) l.
Proof.
  revert ret. induction l as [|r l IH]; intros ret Hr; cbn; [unfold ztake; by rewrite take_nil|]. unfold ztake.
  destruct (Z.eqb_spec (n - ret) 0) as [->|]; [done|]. cbn [negb]. rewrite IH by lia. unfold ztake.
  replace (Z.to_nat (n - ret)) with (S (Z.to_nat (n - (ret + 1)))) by lia. done.
Qed.

Definition has_prefix (p : Bytes) (r : row) : bool := starts_with p r.1.

Lemma visited_prefix p ret l : rows_sorted l -> Forall (λ q : row, ~ key_lt q.1 p) l ->
  visited (λ _ r, starts_with p r.1) ret l = List.filter (has_prefix p) l.
Proof.
  revert ret. induction l as [|r l IH]; intros ret Hs Hl; [done|]. apply sorted_cons in Hs as [Hs Hr]. apply Forall_cons in Hl as [Hk Hl].
  cbn [visited List.filter]. unfold has_prefix at 1. destruct (starts_with p r.1) eqn:E; [by rewrite IH|]. clear IH Hs Hl.
  symmetry. induction Hr as [|q l Hq _ IHl]; [done|]. cbn [List.filter]. unfold has_prefix at 1.
  by rewrite (starts_convex p r.1 q.1) by done.
Qed.

Lemma filter_prefix p l : rows_sorted l ->
  List.filter (has_prefix p) l = List.filter (has_prefix p) (drop (lower_index p l) l).
Proof.
  intros Hs. destruct (lower_index_spec p l Hs) as (_ & H1 & _). rewrite <- (take_drop (lower_index p l) l) at 1. rewrite List.filter_app.
  replace (List.filter _ (take _ l)) with (@nil row); [done|]. symmetry. induction H1 as [|q l' Hq _ IH]; [done|]. cbn [List.filter].
  destruct (has_prefix p q) eqn:E; [|done]. by apply starts_not_below in E.
Qed.

(** ** Walks *)

Section Walks.
Context `{MdbxLaws}.

(** What a cursor delivers in a direction, one record at a time. *)
Fixpoint delivers (direction : CursorMoveDirection) (data : option row) (c : cursor) (l : list row) : Prop :=
  match l with
  | [] => data = None
  | r :: l => data = Some r /\ delivers direction (move_operation direction c).1 (move_operation direction c).2 l
  end.

Lemma delivers_forward l c i : position c = At i -> drop i (rows c) = l -> delivers Forward (rows c !! i) c l.
Proof.
  revert c i. induction l as [|r l IH]; intros c i Hp Hd.
  - apply lookup_ge_None_2. apply (f_equal length) in Hd. rewrite length_drop in Hd. simpl in Hd. lia.
  - assert (Hr : rows c !! i = Some r) by (rewrite <- (Nat.add_0_r i), <- lookup_drop; by rewrite Hd).
    assert (Hl : drop (S i) (rows c) = l) by (rewrite (drop_S _ _ _ Hr) in Hd; by injection Hd).
    split; [done|]. cbn [move_operation]. destruct (to_next_at c i Hp) as (E1 & E2 & _ & _ & E3). rewrite E1.
    destruct (decide _) as [Hlt|Hge].
    + rewrite <- E2 in Hl |- *. by apply IH.
    + destruct l; [by apply lookup_ge_None_2; lia|]. apply (f_equal length) in Hl. rewrite length_drop in Hl. simpl in Hl. lia.
Qed.

Lemma delivers_reverse i c : position c = At i -> delivers Reverse (rows c !! i) c (rev (take (S i) (rows c))).
Proof.
  revert c. induction i as [|i IH]; intros c Hp.
  all: pose proof (position_bound c _ Hp) as Hb; destruct (lookup_lt_is_Some_2 _ _ Hb) as [r Hr];
    rewrite (take_S_r _ _ _ Hr), rev_app_distr, Hr; cbn [rev app delivers move_operation]; (split; [done|]).
  - destruct (to_previous_out c (or_introl Hp)) as (E1 & _). by rewrite E1.
  - destruct (to_previous_at c i (or_introl Hp)) as (E1 & E2 & _ & _ & E3). rewrite decide_True in E3 by lia.
    rewrite E1, <- E2. by apply IH.
Qed.

Lemma walk_delivers {S} (walker : Bytes -> Bytes -> S -> S) fuel direction cond ret data s c l :
  delivers direction data c l -> (length l < fuel)%nat ->
  exists c', walk_loop walker fuel direction cond ret data s c =
    Some (ret + zlen (visited cond ret l), foldl (λ s r, walker r.1 r.2 s) s (visited cond ret l), c').
Proof.
  revert fuel ret data s c. induction l as [|r l IH]; intros fuel ret data s c Hd Hf; (destruct fuel as [|fuel]; [simpl in Hf; lia|]).
  - cbn in Hd. subst data. eexists. cbn. by rewrite Z.add_0_r.
  - destruct Hd as [-> Hd]. cbn [walk_loop visited]. destruct (cond ret r); [|eexists; cbn; by rewrite Z.add_0_r].
    destruct (move_operation direction c) as [data' c1]. destruct (IH fuel (ret + 1) data' (walker r.1 r.2 s) c1 Hd) as [c' ->].
    { simpl in Hf. lia. }
    exists c'. cbn [foldl length]. do 3 f_equal. lia.
Qed.

(** The records from the position of a cursor on, in a direction. *)
Definition reach (c : cursor) (direction : CursorMoveDirection) : list row :=
  match position c, direction with
  | At i, Forward => drop i (rows c)
  | At i, Reverse => rev (take (S i) (rows c))
  | _, Forward => rows c
  | _, Reverse => rev (rows c)
  end.

Definition settled (c : cursor) : Prop := forall i, position c <> Gap i.

Lemma length_reach c direction : (length (reach c direction) <= length (rows c))%nat.
Proof.
  unfold reach. destruct (position c), direction; rewrite ?length_rev, ?length_drop, ?length_take; lia.
Qed.

Lemma adjust_delivers c direction : settled c ->
  let start := adjust_cursor_position_if_unpositioned c direction in
  rows start.2 = rows c /\ delivers direction start.1 start.2 (reach c direction).
Proof.
  intros Hs. unfold adjust_cursor_position_if_unpositioned, reach. destruct (position c) as [|i|i] eqn:Hp; [| |by destruct (Hs i)].
  - rewrite (eof_unset c Hp). destruct direction.
    + destruct (to_first_moves c) as (E1 & E2 & _ & _ & E3). split; [done|]. rewrite E1, <- E2.
      destruct (decide _) as [Hlt|Hge]; [by apply delivers_forward|]. rewrite E2. destruct (rows c); [done | simpl in Hge; lia].
    + destruct (to_last_moves c) as (E1 & E2 & _ & _ & E3). split; [done|]. rewrite E1. destruct (decide _) as [Hlt|Hge].
      * pose proof (delivers_reverse _ _ E3) as Hd. rewrite E2 in Hd.
        replace (S (length (rows c) - 1)) with (length (rows c)) in Hd by lia. by rewrite firstn_all in Hd.
      * destruct (rows c); [done | simpl in Hge; lia].
  - rewrite (eof_at c i Hp), (current_at c i Hp). split; [done|]. destruct direction; [by apply delivers_forward | by apply delivers_reverse].
Qed.

(** ** Erasures *)

(** The cursor is one of a write transaction. *)
Abbreviation writes c := (is_readonly (cursor_txn c) = false).

Lemma erase_forward cond counted fuel ret A B c data : counted true = 1 -> writes c -> rows c = A ++ B -> (length B < fuel)%nat ->
  data = head B -> (B <> [] -> position c = At (length A)) ->
  exists c', erase_loop fuel Forward cond counted ret data c = Some (ret + zlen (visited (λ _, cond) 0 B), c') /\
    rows c' = A ++ drop (length (visited (λ _, cond) 0 B)) B /\ map_name c' = map_name c.
Proof.
  intros Hc. revert fuel ret B c data. enough (G : forall B fuel ret n c data, writes c -> rows c = A ++ B -> (length B < fuel)%nat ->
    data = head B -> (B <> [] -> position c = At (length A)) ->
    exists c', erase_loop fuel Forward cond counted ret data c = Some (ret + zlen (visited (λ _, cond) n B), c') /\
      rows c' = A ++ drop (length (visited (λ _, cond) n B)) B /\ map_name c' = map_name c) by (intros; by apply G).
  induction B as [|r B IH]; intros fuel ret n c data Hw Hr Hf -> Hp; (destruct fuel as [|fuel]; [simpl in Hf; lia|]).
  { exists c. split_and!; [cbn; by rewrite Z.add_0_r | by rewrite Hr | done]. }
  cbn [erase_loop head visited]. destruct (cond r); [|exists c; split_and!; [cbn; by rewrite Z.add_0_r | by rewrite Hr | done]].
  specialize (Hp ltac:(done)). destruct (erase_at c _ Hw Hp) as (E1 & E2 & E3 & E4 & E5). destruct (erase c) as [ok c1]. cbn [fst snd] in *. subst ok.
  rewrite Hr, take_app_length, drop_app_ge in E2 by lia. replace (S (length A) - length A)%nat with 1%nat in E2 by lia. cbn [drop] in E2.
  cbn [move_operation]. destruct (to_next_gap c1 _ E3) as (F1 & F2 & F3 & F5 & F4). destruct (to_next c1) as [data c2]. cbn [fst snd] in *.
  destruct (IH fuel (ret + counted true) (n + 1) c2 data) as (c' & G1 & G2 & G3).
  - by rewrite F5.
  - by rewrite F2.
  - simpl in Hf. lia.
  - rewrite F1, E2, lookup_app_r, Nat.sub_diag by lia. by destruct B.
  - intros Hn. rewrite F4, E2, decide_True; [done|]. rewrite length_app. destruct B; [done | simpl; lia].
  - exists c'. split_and!; [|done | congruence]. rewrite G1, Hc. do 2 f_equal. cbn [length]. lia.
Qed.

Lemma erase_reverse fuel ret A B c data : writes c -> rows c = A ++ B -> (length A < fuel)%nat -> data = last A ->
  (A <> [] -> position c = At (length A - 1)) ->
  exists c', erase_loop fuel Reverse (λ _, true) (λ erased, if erased then 1 else 0) ret data c = Some (ret + zlen A, c') /\
    rows c' = B /\ map_name c' = map_name c.
Proof.
  revert fuel ret c data. induction A as [|r A IH] using rev_ind; intros fuel ret c data Hw Hr Hf -> Hp;
    (destruct fuel as [|fuel]; [simpl in Hf; lia|]).
  { exists c. split_and!; [cbn; by rewrite Z.add_0_r | by rewrite Hr | done]. }
  rewrite length_app in Hf, Hp. simpl in Hf, Hp. rewrite last_snoc. cbn [erase_loop]. specialize (Hp ltac:(by destruct A)).
  replace (length A + 1 - 1)%nat with (length A) in Hp by lia.
  destruct (erase_at c _ Hw Hp) as (E1 & E2 & E3 & E4 & E5). destruct (erase c) as [ok c1]. cbn [fst snd] in *. subst ok.
  rewrite Hr, <- app_assoc, take_app_length, drop_app_ge in E2 by lia.
  replace (S (length A) - length A)%nat with 1%nat in E2 by lia. cbn [drop app] in E2. cbn [move_operation].
  assert (Hm : (to_previous c1).1 = last A /\ rows (to_previous c1).2 = A ++ B /\ map_name (to_previous c1).2 = map_name c /\ writes (to_previous c1).2 /\
               (A <> [] -> position (to_previous c1).2 = At (length A - 1))).
  { destruct A as [|x A _] using rev_ind.
    - destruct (to_previous_out c1 (or_intror E3)) as (F1 & F2 & F3 & F5 & _). split_and!; [done | by rewrite F2, E2 | congruence | by rewrite F5 | done].
    - rewrite length_app, Nat.add_1_r in E3 |- *. cbn [Nat.sub]. rewrite Nat.sub_0_r.
      destruct (to_previous_at c1 _ (or_intror E3)) as (F1 & F2 & F3 & F5 & F4). split_and!; [|by rewrite F2, E2 | congruence | by rewrite F5 |].
      + rewrite F1, E2, last_snoc, <- app_assoc, lookup_app_r, Nat.sub_diag by lia. done.
      + intros _. rewrite F4, decide_True; [done|]. rewrite E2, !length_app. simpl. lia. }
  destruct (to_previous c1) as [data c2]. cbn [fst snd] in Hm. destruct Hm as (F1 & F2 & F3 & F5 & F4).
  destruct (IH fuel (ret + 1) c2 data) as (c' & G1 & G2 & G3); [done | done | lia | done | done |].
  exists c'. split_and!; [|done | congruence]. rewrite G1. do 2 f_equal. rewrite length_app. simpl. lia.
Qed.

Lemma rows_cursor_sorted c : rows_sorted (rows c).
Proof. rewrite rows_table. apply table_sorted. Qed.

Definition below (k : Bytes) (r : row) : bool := match lex_compare r.1 k with Lt => true | _ => false end.

Lemma below_true k r : below k r = true <-> key_lt r.1 k.
Proof. unfold below, key_lt. destruct (lex_compare r.1 k); split; done. Qed.

Lemma filter_all (P : row -> bool) l : Forall (λ r, P r = true) l -> List.filter P l = l.
Proof. induction 1 as [|r l Hr _ IH]; [done|]. cbn. by rewrite Hr, IH. Qed.
Lemma filter_nothing (P : row -> bool) l : Forall (λ r, P r = false) l -> List.filter P l = [].
Proof. induction 1 as [|r l Hr _ IH]; [done|]. cbn. by rewrite Hr, IH. Qed.

(** The lower bound of a key splits the records by the key. *)
Lemma split_below k l : rows_sorted l ->
  take (lower_index k l) l = List.filter (below k) l /\ drop (lower_index k l) l = List.filter (λ r, negb (below k r)) l.
Proof.
  intros Hs. destruct (lower_index_spec k l Hs) as (_ & H1 & H2).
  assert (H1' : Forall (λ r, below k r = true) (take (lower_index k l) l)) by (eapply Forall_impl; [exact H1|]; intros r; apply below_true).
  assert (H2' : Forall (λ r, below k r = false) (drop (lower_index k l) l)).
  { eapply Forall_impl; [exact H2|]. intros r Hr. destruct (below k r) eqn:E; [|done]. by apply below_true in E. }
  rewrite <- (take_drop (lower_index k l) l) at 3 6. rewrite !List.filter_app. split.
  - by rewrite (filter_all _ _ H1'), (filter_nothing _ _ H2'), app_nil_r.
  - rewrite filter_nothing, filter_all; [done | |]; eapply Forall_impl; [exact H2' | | exact H1' |]; intros r Hr; cbn; by rewrite Hr.
Qed.

Lemma visited_drop p l : rows_sorted l -> Forall (λ q : row, ~ key_lt q.1 p) l ->
  drop (length (visited (λ _ r, starts_with p r.1) 0 l)) l = List.filter (λ r, negb (has_prefix p r)) l.
Proof.
  generalize 0. induction l as [|r l IH]; intros n Hs Hl; [done|]. apply sorted_cons in Hs as [Hs Hr]. apply Forall_cons in Hl as [Hk Hl].
  cbn [visited List.filter]. unfold has_prefix at 1. destruct (starts_with p r.1) eqn:E; cbn [negb length drop]; [by apply IH|].
  rewrite filter_all; [done|]. eapply Forall_impl; [exact Hr|]. intros q Hq. unfold has_prefix. by rewrite (starts_convex p r.1 q.1) by done.
Qed.

Lemma filter_no_prefix p l : rows_sorted l ->
  take (lower_index p l) l ++ List.filter (λ r, negb (has_prefix p r)) (drop (lower_index p l) l) =
  List.filter (λ r, negb (has_prefix p r)) l.
Proof.
  intros Hs. destruct (lower_index_spec p l Hs) as (_ & H1 & _). rewrite <- (take_drop (lower_index p l) l) at 5. rewrite List.filter_app.
  f_equal. rewrite filter_all; [done|]. eapply Forall_impl; [exact H1|]. intros q Hq.
  destruct (has_prefix p q) eqn:E; [|done]. by apply starts_not_below in E.
Qed.

(** Backwards from the first record with a prefix there is no other. *)
Lemma visited_reverse p r l A : rows_sorted (r :: l) -> Forall (λ q : row, ~ key_lt q.1 p) (r :: l) ->
  Forall (λ q : row, key_lt q.1 p) A ->
  visited (λ _ q, starts_with p q.1) 0 (r :: rev A) = take 1 (List.filter (has_prefix p) (r :: l)).
Proof.
  intros Hs Hl HA. destruct (starts_with p r.1) eqn:E.
  - cbn [visited List.filter]. unfold has_prefix at 1. rewrite E. cbn [take]. rewrite take_0. f_equal.
    destruct A as [|q A _] using rev_ind; [done|]. rewrite rev_app_distr. cbn [rev app visited]. apply Forall_app in HA as [_ HA]. apply Forall_cons in HA as [HA _].
    destruct (starts_with p q.1) eqn:Eq; [|done]. destruct (starts_not_below _ _ Eq HA).
  - rewrite <- (visited_prefix p 0) by done. cbn [visited]. by rewrite E.
Qed.

(** The start of a scan from a lower bound. *)
Lemma lower_bound_start k c : let i := lower_index k (rows c) in let start := lower_bound k c in
  start.1 = head (drop i (rows c)) /\ rows start.2 = rows c /\ map_name start.2 = map_name c /\
  (drop i (rows c) <> [] -> position start.2 = At i) /\ delivers Forward start.1 start.2 (drop i (rows c)).
Proof.
  cbv zeta. destruct (lower_bound_moves k c) as (E1 & E2 & E3 & _ & E4). set (i := lower_index k (rows c)) in *.
  assert (Hh : rows c !! i = head (drop i (rows c))) by (rewrite <- (Nat.add_0_r i) at 1; rewrite <- lookup_drop; by destruct (drop i _)).
  split_and!; [congruence | done | done | |].
  - intros Hn. rewrite E4, decide_True; [done|]. destruct (decide (i < length (rows c))%nat); [done|]. destruct Hn. apply drop_ge. lia.
  - rewrite E1. destruct (decide _) as [Hlt|Hge].
    + rewrite <- E2. apply delivers_forward; [done|]. by rewrite E2.
    + rewrite drop_ge by lia. apply lookup_ge_None_2. lia.
Qed.

(** A walk over all records calls back on what is in reach. *)
Lemma for_each_reach {S} (walker : Bytes -> Bytes -> S -> S) c direction s : settled c -> exists c',
  cursor_for_each walker c direction s = Some (zlen (reach c direction), foldl (λ s r, walker r.1 r.2 s) s (reach c direction), c').
Proof.
  intros Hs. pose proof (adjust_delivers c direction Hs) as [Hr Hd]. pose proof (length_reach c direction) as Hlen.
  destruct (walk_delivers walker (Datatypes.S (length (rows (adjust_cursor_position_if_unpositioned c direction).2))) direction
    (λ _ _, true) 0 _ s _ _ Hd ltac:(rewrite Hr; lia)) as [c' E]. exists c'. rewrite visited_all in E. exact E.
Qed.

End Walks.

(** C20: a walk over a cursor calls back on exactly the records it should, in order,
    and terminates: on all records from the position of the cursor on, or from
    the end of the table in the direction of the walk when it has none; on as
    many of these as asked for; and on the records whose keys have a prefix.
    Walked in reverse, a prefix yields its first record only. *)
Theorem cursor_walks `{MdbxLaws} {S : Type} (walker : Bytes -> Bytes -> S -> S) (c : cursor) (s : S) (direction : CursorMoveDirection)
    (count : Z) (prefix : Bytes) :
  settled c -> 0 <= count ->
  let calls l := foldl (λ s r, walker r.1 r.2 s) s l in
  let prefixed := List.filter (has_prefix prefix) (rows c) in
  (exists c', cursor_for_each walker c direction s = Some (zlen (reach c direction), calls (reach c direction), c')) /\
  (exists c', cursor_for_count walker c count direction s =
    Some (zlen (ztake count (reach c direction)), calls (ztake count (reach c direction)), c')) /\
  (exists c', cursor_for_prefix walker c prefix Forward s = Some (zlen prefixed, calls prefixed, c')) /\
  (exists c', cursor_for_prefix walker c prefix Reverse s = Some (zlen (take 1 prefixed), calls (take 1 prefixed), c')).
Proof.
  intros Hs Hc. cbv zeta. pose proof (adjust_delivers c direction Hs) as [Hr Hd]. pose proof (length_reach c direction) as Hlen.
  destruct (lower_bound_start prefix c) as (_ & L2 & _ & L4 & L5). pose proof (rows_cursor_sorted c) as Hsort.
  destruct (lower_index_spec prefix (rows c) Hsort) as (Hi & Hb & Ha). split_and!.
  - by apply for_each_reach.
  - destruct (walk_delivers walker (Datatypes.S (length (rows (adjust_cursor_position_if_unpositioned c direction).2))) direction
      (λ ret _, negb (count - ret =? 0)) 0 _ s _ _ Hd ltac:(rewrite Hr; lia)) as [c' E]. exists c'.
    rewrite visited_count, Z.sub_0_r in E by done. exact E.
  - destruct (walk_delivers walker (Datatypes.S (length (rows (lower_bound prefix c).2))) Forward
      (λ _ r, starts_with prefix r.1) 0 _ s _ _ L5 ltac:(rewrite L2, length_drop; lia)) as [c' E]. exists c'.
    rewrite visited_prefix in E; [rewrite filter_prefix by done; exact E | | done].
    by apply sorted_drop.
  - unfold cursor_for_prefix, walk. rewrite filter_prefix by done. destruct (drop (lower_index prefix (rows c)) (rows c)) as [|r l] eqn:E.
    + cbn [delivers] in L5. rewrite L5. eexists. cbn. reflexivity.
    + destruct L5 as [L5 _]. pose proof (L4 ltac:(done)) as Hp. pose proof (delivers_reverse _ _ Hp) as Hd'. rewrite L2 in Hd'.
      assert (Hr' : rows c !! lower_index prefix (rows c) = Some r).
      { pose proof (lookup_drop (rows c) (lower_index prefix (rows c)) 0) as Hl. rewrite E, Nat.add_0_r in Hl. by rewrite <- Hl. }
      rewrite (take_S_r _ _ _ Hr'), rev_app_distr, Hr' in Hd'. cbn [rev app] in Hd'. rewrite L5.
      destruct (walk_delivers walker (Datatypes.S (length (rows (lower_bound prefix c).2))) Reverse
        (λ _ r, starts_with prefix r.1) 0 _ s _ _ Hd') as [c' E'].
      { rewrite L2. cbn [length]. rewrite length_rev, length_take. apply lookup_lt_Some in Hr'. lia. }
      exists c'. rewrite E', (visited_reverse _ _ l); [done | | done | done]. rewrite <- E. by apply sorted_drop.
Qed.

(** C21: in a write transaction, erasing by a cursor terminates, erases exactly the records it should and
    tells how many: those whose keys have a prefix, those from a key on, and in
    reverse those before a key. *)
Theorem cursor_erasures `{Hlaws : MdbxLaws} (c : cursor) (k : Bytes) : is_readonly (cursor_txn c) = false ->
  let erases r P := exists c', r = Some (zlen (List.filter P (rows c)), c') /\
    rows c' = List.filter (λ r, negb (P r)) (rows c) /\ map_name c' = map_name c in
  erases (cursor_erase_prefix c k) (has_prefix k) /\
  erases (cursor_erase c k Forward) (λ r, negb (below k r)) /\
  erases (cursor_erase c k Reverse) (below k).
Proof.
  cbv zeta. intros Hw. pose proof (rows_cursor_sorted c) as Hs. destruct (lower_bound_start k c) as (L1 & L2 & L3 & L4 & _).
  assert (L5 : cursor_txn (lower_bound k c).2 = cursor_txn c) by apply lower_bound_moves. destruct (split_below k (rows c) Hs) as [B1 B2]. destruct (lower_index_spec k (rows c) Hs) as (Hi & _ & Ha).
  set (i := lower_index k (rows c)) in *. assert (Hl : length (take i (rows c)) = i) by (rewrite length_take; lia).
  assert (Hd : (length (drop i (rows c)) < S (length (rows c)))%nat) by (rewrite length_drop; lia).
  unfold cursor_erase_prefix, cursor_erase. destruct (lower_bound k c) as [data c1] eqn:E. cbn [fst snd] in *. split_and!.
  - destruct (erase_forward (λ r, starts_with k r.1) (λ _, 1) (S (length (rows c1))) 0 (take i (rows c)) (drop i (rows c)) c1 data)
      as (c' & E1 & E2 & E3); [done | by rewrite L5 | by rewrite take_drop | by rewrite L2 | done | by rewrite Hl |].
    exists c'. rewrite E1, E2. pose proof (sorted_drop i _ Hs) as Hsd. rewrite visited_drop by done. split_and!; [|by apply filter_no_prefix | congruence].
    rewrite visited_prefix by done. by rewrite (filter_prefix k (rows c) Hs).
  - destruct (erase_forward (λ _, true) (λ erased : bool, if erased then 1 else 0) (S (length (rows c1))) 0 (take i (rows c)) (drop i (rows c)) c1 data)
      as (c' & E1 & E2 & E3); [done | by rewrite L5 | by rewrite take_drop | by rewrite L2 | done | by rewrite Hl |].
    exists c'. rewrite E1, E2, visited_all, (drop_ge (drop i (rows c))), app_nil_r by lia. split_and!; [by rewrite B2 | | congruence].
    rewrite B1. apply filter_ext. intros r. by rewrite negb_involutive.
  - unfold strict_lower_bound. rewrite E.
    assert (Hm : exists c2, (match data with None => to_last c1 | Some _ => to_previous c1 end) = (last (take i (rows c)), c2) /\
      rows c2 = rows c /\ map_name c2 = map_name c /\ cursor_txn c2 = cursor_txn c /\ (take i (rows c) <> [] -> position c2 = At (length (take i (rows c)) - 1))).
    { clear -L1 L2 L3 L4 L5 Hi Hl Hlaws. destruct (drop i (rows c)) as [|r l] eqn:Ed.
      - cbn in L1. subst data. assert (Hn : i = length (rows c)) by (apply (f_equal length) in Ed; rewrite length_drop in Ed; simpl in Ed; lia).
        rewrite take_ge by lia. destruct (to_last_moves c1) as (M1 & M2 & M3 & M5 & M4). rewrite L2 in *.
        exists (to_last c1).2. replace (length (rows c) - 1)%nat with (pred (length (rows c))) in M1 by lia. rewrite <- last_lookup in M1. rewrite <- M1. split_and!; [by destruct (to_last c1) | done | congruence | congruence |].
        intros Hne. rewrite M4, decide_True; [done|]. destruct (rows c); [done | simpl; lia].
      - cbn in L1. subst data. specialize (L4 ltac:(done)). destruct (decide (i = 0%nat)) as [Hz|Hz].
        + rewrite Hz in *. destruct (to_previous_out c1 (or_introl L4)) as (M1 & M2 & M3 & M5 & _). exists (to_previous c1).2.
          split_and!; [by rewrite (surjective_pairing (to_previous c1)), M1 | congruence | congruence | congruence | done].
        + destruct i as [|i']; [done|]. destruct (to_previous_at c1 i' (or_introl L4)) as (M1 & M2 & M3 & M5 & M4). rewrite L2 in *.
          exists (to_previous c1).2. rewrite decide_True in M4 by lia. rewrite Hl. split_and!; [|done | congruence | congruence |].
          * rewrite (surjective_pairing (to_previous c1)), M1. f_equal. rewrite last_lookup, Hl. cbn [pred]. by rewrite lookup_take_lt by lia.
          * intros _. cbn [Nat.sub]. by rewrite Nat.sub_0_r. }
    destruct Hm as (c2 & -> & M1 & M2 & M5 & M3).
    destruct (erase_reverse (S (length (rows c2))) 0 (take i (rows c)) (drop i (rows c)) c2 (last (take i (rows c))))
      as (c' & E1 & E2 & E3); [by rewrite M5 | by rewrite M1, take_drop | rewrite M1; lia | done | done |].
    exists c'. rewrite E1, E2. split_and!; [by rewrite B1 | by rewrite B2 | congruence].
Qed.

(** ** A concrete database *)

(** A database in memory: the records of each table in the order of their
    insertion. *)
Record memory := { m_readonly : bool; m_tables : gmap Bytes (list row) }.
Record memory_cursor := { m_txn : memory; m_name : Bytes; m_place : place }.

Definition order_rows (l : list row) : list row := foldr (λ r, insert_row r.1 r.2) [] l.
Definition m_rows (c : memory_cursor) : list row := order_rows (default [] (m_tables (m_txn c) !! m_name c)).
Definition m_position (c : memory_cursor) : place :=
  match m_place c with
  | At i => if decide (i < length (m_rows c))%nat then At i else Unset
  | p => p
  end.
Definition m_move (i : option nat) (c : memory_cursor) : option row * memory_cursor :=
  let c := {| m_txn := m_txn c; m_name := m_name c; m_place := match i with Some i => At i | None => Unset end |} in
  (match i with Some i => m_rows c !! i | None => None end, c).
Definition m_put (l : list row) (p : place) (c : memory_cursor) : memory_cursor :=
  {| m_txn := {| m_readonly := m_readonly (m_txn c); m_tables := <[m_name c := l]> (m_tables (m_txn c)) |};
     m_name := m_name c; m_place := p |}.

Definition model_mdbx : Mdbx := {|
  txn := memory;
  cursor := memory_cursor;
  is_readonly := m_readonly;
  open_cursor name t := {| m_txn := t; m_name := name; m_place := Unset |};
  cursor_txn := m_txn;
  clear_map name t := {| m_readonly := m_readonly t; m_tables := <[name := []]> (m_tables t) |};
  rows := m_rows;
  map_name := m_name;
  position := m_position;
  eof c := match m_position c with Unset => true | _ => false end;
  current c := match m_position c with At i => m_rows c !! i | _ => None end;
  to_first := m_move (Some 0%nat);
  to_last c := m_move (Some (length (m_rows c) - 1)%nat) c;
  to_next c := m_move (match m_position c with At i => Some (S i) | Gap i => Some i | Unset => Some 0%nat end) c;
  to_previous c := m_move (match m_position c with At (S i) | Gap (S i) => Some i | _ => None end) c;
  lower_bound k c := m_move (Some (lower_index k (m_rows c))) c;
  seek k c := (bool_decide (is_Some (find_row k (m_rows c))), (m_move (Some (lower_index k (m_rows c))) c).2);
  upsert k v c := m_put ((k, v) :: m_rows c) (m_place c) c;
  erase c := match m_position c with
             | At i => if m_readonly (m_txn c) then (false, c) else (true, m_put (take i (m_rows c) ++ drop (S i) (m_rows c)) (Gap i) c)
             | _ => (false, c)
             end;
|}.

Lemma order_rows_sorted l : rows_sorted (order_rows l).
Proof. induction l as [|r l IH]; [constructor|]. by apply insert_row_sorted. Qed.

Lemma order_rows_id l : rows_sorted l -> order_rows l = l.
Proof.
  induction l as [|r l IH]; intros Hs; [done|]. apply sorted_cons in Hs as [Hs Hr]. cbn [order_rows foldr]. fold (order_rows l).
  rewrite IH by done. destruct l as [|q l]; [by destruct r|]. cbn [insert_row]. apply Forall_cons in Hr as [Hq _]. unfold key_lt in Hq.
  rewrite Hq. by destruct r.
Qed.

Lemma m_rows_put l p c : m_rows (m_put l p c) = order_rows l.
Proof. unfold m_rows. cbn. by rewrite lookup_insert_eq. Qed.

Lemma m_rows_sorted c : rows_sorted (m_rows c).
Proof. apply order_rows_sorted. Qed.

Lemma m_move_moved i c : @moved_to model_mdbx i c (m_move (Some i) c).
Proof. split_and!; try done. Qed.

Lemma sorted_delete i l : rows_sorted l -> rows_sorted (take i l ++ drop (S i) l).
Proof.
  revert i. induction l as [|r l IH]; intros i Hs; [destruct i; done|]. destruct i as [|i]; [by apply sorted_cons in Hs as []|].
  apply sorted_cons in Hs as [Hs Hr]. cbn [take drop app]. apply sorted_cons. split; [by apply IH|].
  apply Forall_app. split; [by apply Forall_take | by apply Forall_drop].
Qed.

Lemma find_row_lower k v l : rows_sorted l -> find_row k l = Some v -> l !! lower_index k l = Some (k, v).
Proof.
  induction l as [|r l IH]; intros Hs; cbn [find_row lower_index]; [done|]. apply sorted_cons in Hs as [Hs Hr]. case_bool_decide as Hk.
  - intros [= <-]. rewrite (proj2 (lex_compare_eq _ _) Hk), <- Hk. by destruct r.
  - intros Hf. pose proof (IH Hs Hf) as Hl. apply list_elem_of_lookup_2 in Hl as Hin. rewrite Forall_forall in Hr.
    specialize (Hr _ Hin). cbn in Hr. unfold key_lt in Hr. by rewrite Hr.
Qed.

Lemma model_mdbx_laws : @MdbxLaws model_mdbx.
Proof.
  split; cbn [txn cursor is_readonly open_cursor cursor_txn clear_map rows map_name position eof current to_first to_last to_next
    to_previous lower_bound seek upsert erase model_mdbx]; unfold table; cbn [rows open_cursor model_mdbx].
  - intros. apply m_rows_sorted.
  - done.
  - intros c i. unfold m_position. destruct (m_place c); try done. destruct (decide _); [|done]. by intros [= <-].
  - done.
  - done.
  - done.
  - intros c ->. done.
  - intros c i ->. done.
  - intros c i ->. done.
  - intros c. apply m_move_moved.
  - intros c. apply m_move_moved.
  - intros c i ->. apply m_move_moved.
  - intros c i ->. apply m_move_moved.
  - intros c i [-> | ->]; apply m_move_moved.
  - intros c [-> | ->]; by split_and!.
  - intros k c. apply m_move_moved.
  - done.
  - intros k c v Hf. pose proof (find_row_lower k v _ (m_rows_sorted c) Hf) as Hl. unfold m_position. cbn [m_move snd m_place].
    rewrite decide_True by (by apply lookup_lt_Some in Hl). exact Hl.
  - done.
  - intros k v c _. rewrite m_rows_put. cbn [order_rows foldr]. fold (order_rows (m_rows c)). by rewrite order_rows_id by apply m_rows_sorted.
  - intros k v c name Hn. unfold m_rows. cbn. by rewrite lookup_insert_ne.
  - done.
  - intros c i Hw ->. rewrite Hw. cbn. rewrite m_rows_put, order_rows_id by (apply sorted_delete, m_rows_sorted). done.
  - intros name t _. unfold m_rows. cbn. by rewrite lookup_insert_eq.
  - intros name name' t Hn. unfold m_rows. cbn. by rewrite lookup_insert_ne.
  - done.
Qed.

(** Three records, two of them with a common prefix. *)
Definition sample_txn : memory := {| m_readonly := false; m_tables := {[ str "T" := [([7; 1], [1]); ([7; 2], [2]); ([8], [3])] ]} |}.
Definition sample_cursor : @cursor model_mdbx := @open_cursor model_mdbx (str "T") sample_txn.

Lemma cursor_walks_witness : exists c',
  @cursor_for_prefix model_mdbx _ (λ _ v s, s ++ v) sample_cursor [7] Forward [] = Some (2, [1; 2], c').
Proof.
  destruct (@cursor_walks model_mdbx model_mdbx_laws _ (λ _ v s, s ++ v) sample_cursor [] Forward 2 [7]) as (_ & _ & [c' E] & _).
  - done.
  - done.
  - exists c'. exact E.
Defined.

Lemma cursor_erasures_witness : exists c', @cursor_erase model_mdbx sample_cursor [7; 2] Reverse = Some (1, c') /\
  @rows model_mdbx c' = [([7; 2], [2]); ([8], [3])].
Proof.
  destruct (@cursor_erasures model_mdbx model_mdbx_laws sample_cursor [7; 2] eq_refl) as (_ & _ & c' & E1 & E2 & _).
  exists c'. split; [exact E1 | exact E2].
Defined.

(** ** Values that are read back *)

Section Values.
Context `{MdbxLaws}.

Lemma read_value name k t : let found := seek k (open_cursor name t) in
  (if found.1 then snd <$> current found.2 else None) = find_row k (table name t).
Proof.
  cbv zeta. rewrite seek_found. fold (table name t). case_bool_decide as Hs; [|by destruct (find_row k _); [destruct Hs|]].
  destruct (find_row k (table name t)) as [v|] eqn:E; [|by destruct Hs]. by rewrite (seek_moves k _ v E).
Qed.

Lemma find_upsert name name' k k' v t : is_readonly t = false ->
  find_row k' (table name' (cursor_txn (upsert k v (open_cursor name t)))) =
  if decide (name' = name /\ k' = k) then Some v else find_row k' (table name' t).
Proof.
  intros Hr. destruct (decide (name' = name)) as [->|Hn].
  - assert (E : table name (cursor_txn (upsert k v (open_cursor name t))) = insert_row k v (table name t)).
    { rewrite <- (open_name name t) at 1. rewrite <- (upsert_name k v), <- rows_table. apply upsert_rows. by rewrite open_txn. }
    rewrite E, find_insert_row by apply table_sorted. destruct (decide (k' = k)), (decide _); tauto.
  - rewrite upsert_others, open_txn by (by rewrite open_name). rewrite decide_False by tauto. done.
Qed.

Lemma read_config_spec k t : read_config_value k t = find_row k (table kConfig t).
Proof.
  unfold read_config_value. rewrite <- read_value. destruct (seek k (open_cursor kConfig t)) as [[] c]; done.
Qed.

Lemma write_config_spec k v k' t : is_readonly t = false ->
  read_config_value k' (write_config_value k v t) = if decide (k' = k) then Some v else read_config_value k' t.
Proof.
  intros Hr. unfold write_config_value. rewrite Hr, !read_config_spec, find_upsert by done.
  destruct (decide (k' = k)), (decide _); tauto.
Qed.

Lemma get_stage_spec stage domain p t : is_known_stage stage = true ->
  get_stage_data stage domain p t = match find_row (p ++ stage) (table domain t) with
                                    | None => Success 0
                                    | Some value => if negb (zlen value =? 4) then Failure (Thrown std_length_error) else Success (be_value value)
                                    end.
Proof.
  intros Hk. unfold get_stage_data. rewrite Hk. cbn [negb]. rewrite <- read_value.
  by destruct (seek (p ++ stage) (open_cursor domain t)) as [[] c].
Qed.

Lemma known_stage_in stage : is_known_stage stage = true -> stage ∈ kAllStages.
Proof.
  unfold is_known_stage. destruct (negb _); [|done]. rewrite existsb_exists. intros (x & Hx & Hb).
  apply bool_decide_eq_true in Hb as <-. by apply list_elem_of_In.
Qed.

Lemma prune_key_fresh stage stage' : is_known_stage stage = true -> is_known_stage stage' = true -> str "prune_" ++ stage <> stage'.
Proof.
  intros H1%known_stage_in H2%known_stage_in. unfold kAllStages in *. rewrite !elem_of_cons, elem_of_nil in H1, H2.
  destruct H1 as [->|[->|[->|[->|[->|[]]]]]], H2 as [->|[->|[->|[->|[->|[]]]]]]; done.
Qed.
End Values.

Definition version_ok (v : Version) : Prop := 0 <= Major v < 2 ^ 32 /\ 0 <= Minor v < 2 ^ 32 /\ 0 <= Patch v < 2 ^ 32.

(** the schema version only grows: a version that is written is read back, one
    below the version that is recorded is refused with nothing written, and
    other configuration values are not touched. *)
Theorem schema_monotone `{MdbxLaws} (t : txn) (v : Version) (prev : option Version) :
  is_readonly t = false -> version_ok v -> read_schema_version t = Success prev ->
  let r := write_schema_version v t in
  match prev with
  | Some p => if version_lt v p then r = (Failure (Thrown std_invalid_argument), t) else
      r.1 = Success () /\ read_schema_version r.2 = Success (Some v)
  | None => r.1 = Success () /\ read_schema_version r.2 = Success (Some v)
  end /\
  (forall k, k <> kDbSchemaVersionKey -> read_config_value k r.2 = read_config_value k t).
Proof.
  intros Hr (V1 & V2 & V3) Hp. cbv zeta. unfold write_schema_version. rewrite Hr, Hp.
  set (data := be_bytes 4 (Major v) ++ be_bytes 4 (Minor v) ++ be_bytes 4 (Patch v)).
  assert (W : read_schema_version (write_config_value kDbSchemaVersionKey data t) = Success (Some v)).
  { unfold read_schema_version. rewrite write_config_spec, decide_True by done. unfold data.
    rewrite !length_app, !length_be_bytes. cbn [Nat.add]. change (negb (Z.of_nat 12 =? 12)) with false. cbv iota.
    rewrite take_app_length', drop_app_length', take_app_length' by (by rewrite length_be_bytes).
    rewrite app_assoc, drop_app_length' by (by rewrite length_app, !length_be_bytes). rewrite !be_value_be_bytes.
    change (256 ^ Z.of_nat 4) with (2 ^ 32). rewrite !Z.mod_small by done. by destruct v. }
  assert (K : forall k, k <> kDbSchemaVersionKey ->
    read_config_value k (write_config_value kDbSchemaVersionKey data t) = read_config_value k t).
  { intros k Hk. by rewrite write_config_spec, decide_False. }
  destruct prev as [p|]; [|done]. case_bool_decide as Hv.
  - subst p. cbn [fst snd]. split; [|done]. replace (version_lt v v) with false; [done|].
    unfold version_lt. by rewrite !Z.compare_refl, Z.ltb_irrefl.
  - destruct (version_lt v p); done.
Qed.

(** the progress of a stage that is written is read back, modulo the width of
    a block number, and neither its prune progress nor any other stage is
    touched; a stage that has none is at zero, and an unknown name is refused in
    both directions. *)
Theorem stage_progress `{MdbxLaws} (t : txn) (stage stage' : Bytes) (n : Z) :
  is_readonly t = false -> is_known_stage stage' = true ->
  if is_known_stage stage then
    exists t', write_stage_progress stage n t = (Success (), t') /\ read_stage_progress stage t' = Success (n mod 2 ^ 32) /\
      (stage' <> stage -> read_stage_progress stage' t' = read_stage_progress stage' t) /\
      read_stage_prune_progress stage' t' = read_stage_prune_progress stage' t
  else write_stage_progress stage n t = (Failure (Thrown std_invalid_argument), t) /\
       read_stage_progress stage t = Failure (Thrown std_invalid_argument).
Proof.
  intros Hr Hk'. unfold write_stage_progress, read_stage_progress, read_stage_prune_progress, set_stage_data.
  destruct (is_known_stage stage) eqn:Hk; cbn [negb]; [|unfold get_stage_data; by rewrite Hk].
  rewrite Hr. eexists. split; [done|]. rewrite !get_stage_spec, !find_upsert by done. cbn [app]. split_and!.
  - rewrite decide_True by done. rewrite length_be_bytes, be_value_be_bytes. done.
  - intros Hne. rewrite decide_False; [done | tauto].
  - rewrite decide_False; [done|]. intros [_ E]. by apply (prune_key_fresh stage' stage) in E.
Qed.

Lemma schema_monotone_witness :
  (@write_schema_version model_mdbx {| Major := 1; Minor := 2; Patch := 3 |} sample_txn).1 = Success ().
Proof.
  apply (@schema_monotone model_mdbx model_mdbx_laws sample_txn {| Major := 1; Minor := 2; Patch := 3 |} None); [done | done |].
  by vm_compute.
Defined.

End DatabaseFacts.
