(* ===== verification/Environment.v ===== *)
(** * Database environments

    Models of the other part of [src/src/infra/database/mdbx.cpp], [mdbx.hpp] and
    [mdbx_tables.hpp]: the opening of an environment, transactions that are managed
    or borrowed, the deployment of tables and the pool of cursor handles.  What
    libmdbx does is an argument or the class [MdbxEnv]. *)

From S2P Require Import Prelude Text Boost Database.
#[local] Open Scope Z_scope.

(** ** Opening an environment *)

Definition KiB : Z := 2 ^ 10.
Definition MiB : Z := 2 ^ 20.
Definition GiB : Z := 2 ^ 30.

Module EnvConfig.
Record t := mk {
  path : Bytes;
  create : bool;
  readonly : bool;
  exclusive : bool;
  inmemory : bool;
  shared : bool;
  read_ahead : bool;
  write_map : bool;
  page_size : Z;
  max_size : Z;
  growth_size : Z;
  max_tables : Z;
  max_readers : Z;
}.
Definition make (path : Bytes) : t :=
  mk path false false false false false false false (4 * KiB) (512 * GiB) (4 * GiB) 128 100.
End EnvConfig.

(** The flags of [mdbx.h]. *)
Definition MDBX_SYNC_DURABLE : Z := 0.
Definition MDBX_RDONLY : Z := 0x20000.
Definition MDBX_NOMETASYNC : Z := 0x40000.
Definition MDBX_WRITEMAP : Z := 0x80000.
Definition MDBX_NOTLS : Z := 0x200000.
Definition MDBX_EXCLUSIVE : Z := 0x400000.
Definition MDBX_NORDAHEAD : Z := 0x800000.
Definition MDBX_COALESCE : Z := 0x2000000.
Definition MDBX_ACCEDE : Z := 0x40000000.

(** What [exists] and [is_directory] say of the path with its separator at the end, whether
    [create_directories] can make it when there is nothing, and the size of the data file
    when it is a directory.  (A file in the place of the directory does not exist under
    that path on POSIX systems, and cannot be made a directory.) *)
Inductive disk := Missing (can_create : bool) | NotDirectory | DirectoryWith (file_size : option Z).

(** What libmdbx is asked to open: [geometry] has the greatest size, the growth step and
    the size of a page. *)
Record open_request := mk_request {
  flags : Z;
  geometry : option (Z * Z * option Z);
  max_maps : Z;
  max_readers : Z;
  accede : bool;
}.

Inductive mdbx_option := rp_augment_limit | txn_dp_initial | dp_reserve_limit | txn_dp_limit | merge_threshold_16dot16_percent.

(** An environment that is open, with the options that were set, and whether its readers
    have been checked. *)
Record opened := mk_opened {
  request_ : open_request;
  options_ : list (mdbx_option * Z);
  readers_checked : bool;
}.

Section OpenEnv.
(** [mdbx::env_managed]: the size of the pages of the environment, or an exception; the
    limit of dirty pages that it comes with; whether an option is taken; and the check of
    the readers. *)
Context (open_ : open_request -> outcome Z) (dirty_pages_limit : Z) (set_option : mdbx_option -> Z -> outcome unit)
  (check_readers : outcome unit).
Import EnvConfig.

Definition env_flags (config : t) : Z :=
  let flags := Z.lor (Z.lor (Z.lor MDBX_NOTLS MDBX_NORDAHEAD) MDBX_COALESCE) MDBX_SYNC_DURABLE in
  let flags := if read_ahead config then Z.land flags (Z.lnot MDBX_NORDAHEAD) else flags in
  let flags := if readonly config then Z.lor flags MDBX_RDONLY else flags in
  let flags := if inmemory config then Z.lor flags MDBX_NOMETASYNC else flags in
  let flags := if exclusive config then Z.lor flags MDBX_EXCLUSIVE else flags in
  let flags := if shared config then Z.lor flags MDBX_ACCEDE else flags in
  if write_map config then Z.lor flags MDBX_WRITEMAP else flags.

Definition create_parameters (config : t) (db_ondisk_file_size : Z) : option (Z * Z * option Z) :=
  if negb (shared config) then
    let max_map_size := if inmemory config then 128 * MiB else max_size config in
    let growth_size := if inmemory config then 8 * MiB else growth_size config in
    let pagesize := if (db_ondisk_file_size =? 0) && negb (page_size config =? 0) then Some (page_size config) else None in
    Some (max_map_size, growth_size, pagesize)
  else None.

Definition env_options (config : t) : list (mdbx_option * Z) :=
  if negb (shared config) then
    (rp_augment_limit, 32 * MiB) ::
    (if negb (readonly config) then
       [(txn_dp_initial, 16 * KiB); (dp_reserve_limit, 16 * KiB); (txn_dp_limit, wrap 64 (dirty_pages_limit * 2));
        (merge_threshold_16dot16_percent, 32 * KiB)]
     else [])
  else [].

Fixpoint set_options (options : list (mdbx_option * Z)) : outcome unit :=
  match options with
  | [] => Success ()
  | (o, v) :: options => let? _ := set_option o v in set_options options
  end.

Definition open_env (config : t) (d : disk) : outcome opened :=
  if bool_decide (path config = []) then Failure (Thrown std_invalid_argument)
  else
    match d with
    | NotDirectory => Failure (Thrown std_invalid_argument)
    | Missing false => Failure (Thrown std_filesystem_error)
    | _ =>
        let db_ondisk_file_size := match d with DirectoryWith (Some n) => n | _ => 0 end in
        if (db_ondisk_file_size =? 0) && negb (create config) then Failure (Thrown std_runtime_error)
        else if max_size config <? db_ondisk_file_size then Failure (Thrown std_ios_failure)
        else if exclusive config && shared config then Failure (Thrown std_invalid_argument)
        else if create config && shared config then Failure (Thrown std_invalid_argument)
        else if create config && readonly config then Failure (Thrown std_invalid_argument)
        else
          let request := mk_request (env_flags config) (create_parameters config db_ondisk_file_size)
            (max_tables config) (EnvConfig.max_readers config) (shared config) in
          let? db_page_size := open_ request in
          if negb (db_ondisk_file_size =? 0) && negb (page_size config =? 0) && negb (db_page_size =? page_size config)
          then Failure (Thrown std_length_error)
          else
            let? _ := set_options (env_options config) in
            let? _ := if negb (inmemory config) then check_readers else Success () in
            Success (mk_opened request (env_options config) (negb (inmemory config)))
    end.

(** The directory is made when there is none, before anything else is checked. *)
Definition open_env_disk (config : t) (d : disk) : disk :=
  if bool_decide (path config = []) then d else match d with Missing true => DirectoryWith None | d => d end.

End OpenEnv.

(** ** Transactions *)

(** What environments add to [Mdbx]: the state that has been committed, from which
    transactions start, and the names of its tables. *)
Class MdbxEnv `{Mdbx} := {
  env : Type;
  start_write : env -> txn;
  start_read : env -> txn;
  commit_txn : txn -> env -> env;
  is_pristine : env -> bool;
  map_exists : Bytes -> txn -> bool;
  create_map : Bytes -> txn -> txn;
}.

Class MdbxEnvLaws `{MdbxEnv} : Prop := {
  start_write_mode e : is_readonly (start_write e) = false;
  start_read_mode e : is_readonly (start_read e) = true;
  start_read_table name e : table name (start_read e) = table name (start_write e);
  commit_table name t e : is_readonly t = false -> table name (start_write (commit_txn t e)) = table name t;
  commit_maps name t e : is_readonly t = false -> map_exists name (start_write (commit_txn t e)) = map_exists name t;
  commit_not_pristine t e : is_readonly t = false -> is_pristine (commit_txn t e) = false;
  pristine_empty name e : is_pristine e = true -> table name (start_write e) = [];
  create_map_mode name t : is_readonly (create_map name t) = is_readonly t;
  create_map_table name name' t : table name' (create_map name t) = table name' t;
  create_map_exists name name' t : map_exists name' (create_map name t) = bool_decide (name' = name) || map_exists name' t;
  upsert_exists k v c name : map_exists name (cursor_txn (upsert k v c)) =
    bool_decide (name = map_name c) || map_exists name (cursor_txn c);
}.

Module RWTxn.
Section RWTxn.
Context `{MdbxEnv}.

(** A transaction of its own, none after a commit that does not renew it, or one that
    is borrowed. *)
Inductive t := Managed (txn_ : option txn) | External (txn_ : txn).

Definition make (e : env) : t := Managed (Some (start_write e)).
Definition get (x : t) : option txn := match x with Managed o => o | External t => Some t end.

Definition commit (renew : bool) (x : t) (e : env) : outcome t * env :=
  match x with
  | External _ => (Success x, e)
  | Managed None => (Failure (Thrown mdbx_exception), e)
  | Managed (Some t) =>
      let e := commit_txn t e in
      (Success (Managed (if renew then Some (start_write e) else None)), e)
  end.

Definition abort (x : t) : t := match x with Managed _ => Managed None | External t => External t end.

End RWTxn.
End RWTxn.

Section Tables.
Context `{MdbxEnv}.

(** [open_map]: the table must exist when the transaction only reads. *)
Definition open_map (name : Bytes) (t : txn) : outcome unit * txn :=
  if is_readonly t then (if map_exists name t then Success () else Failure (Thrown mdbx_exception), t)
  else (Success (), create_map name t).

Definition has_map (name : Bytes) (t : txn) : bool := map_exists name t.

Definition deploy_tables (tables : list Bytes) (t : txn) : outcome unit * txn :=
  if is_readonly t then (Failure (Thrown std_invalid_argument), t)
  else (Success (), foldl (λ t name, if has_map name t then t else create_map name t) t tables).

Definition kHeaders : Bytes := str "Headers".
Definition kChainDataTables : list Bytes := [kConfig; kHeaders; kSyncStageProgress].
Definition kRequiredSchemaVersion : Version := {| Major := 1; Minor := 0; Patch := 0 |}.

End Tables.

(** ** Cursor handles *)

Module Cursor.

(** A handle, and the transaction it is bound to, as libmdbx keeps them; a closed handle
    is no more.  [handles_pool_] keeps the handles of cursors that are gone. *)
Record heap := mk {
  bound : gmap nat (option Z);
  handles_pool_ : list nat;
  next_ : nat;
}.

(** [mdbx_cursor_create] *)
Definition create (h : heap) : nat * heap :=
  (next_ h, mk (<[next_ h := None]> (bound h)) (handles_pool_ h) (S (next_ h))).
(** [mdbx_cursor_close] *)
Definition close_handle (i : nat) (h : heap) : heap := mk (delete i (bound h)) (handles_pool_ h) (next_ h).

(** A cursor is its [handle_]. *)
Abbreviation t := (option nat).

Definition close (c : t) (h : heap) : t * heap :=
  match c with Some i => (None, close_handle i h) | None => (None, h) end.

(** [map_opens] tells whether [open_map] succeeds. *)
Definition bind (txn_id : Z) (map_opens : bool) (c : t) (h : heap) : outcome unit * (t * heap) :=
  match c with
  | None => (Failure (Thrown std_runtime_error), (c, h))
  | Some i =>
      let (i, h) :=
        match bound h !! i with
        | Some (Some cm_tx) => if negb (txn_id =? cm_tx) then create (close_handle i h) else (i, h)
        | _ => (i, h)
        end in
      if map_opens then (Success (), (Some i, mk (<[i := Some txn_id]> (bound h)) (handles_pool_ h) (next_ h)))
      else (Failure (Thrown mdbx_exception), (Some i, h))
  end.

(** The constructor: when [bind] throws there is no cursor, and no destructor runs. *)
Definition make (txn_id : Z) (map_opens : bool) (h : heap) : outcome t * heap :=
  let (i, h) :=
    match handles_pool_ h with
    | i :: pool => (i, mk (bound h) pool (next_ h))
    | [] => create h
    end in
  match bind txn_id map_opens (Some i) h with
  | (Success _, (c, h)) => (Success c, h)
  | (Failure e, (_, h)) => (Failure e, h)
  | (Fault f, (_, h)) => (Fault f, h)
  end.

Definition destroy (c : t) (h : heap) : heap :=
  match c with Some i => mk (bound h) (i :: handles_pool_ h) (next_ h) | None => h end.

(** Moves exchange the handles. *)
Definition move_construct (other : t) : t * t := (other, None).
Definition move_assign (c other : t) : t * t := (other, c).

End Cursor.
