(* ===== verification/EnvironmentFacts.v ===== *)
(** * Properties of database environments

    When an environment is opened and with what, who holds the handles of cursors, and
    an environment in memory. *)

From stdpp Require Import gmap.
From S2P Require Import Prelude Text Boost Database DatabaseFacts Environment.
Import DatabaseFacts.
#[local] Open Scope Z_scope.

Module EnvironmentFacts.

(** ** Opening *)

(** The bits of the flags, in the numbering of [mdbx.h]: each setting has its bit, two are always set and the others are not. *)
Definition setting_of_bit (c : EnvConfig.t) (n : Z) : bool :=
  match n with
  | 17 => EnvConfig.readonly c            (* MDBX_RDONLY *)
  | 18 => EnvConfig.inmemory c            (* MDBX_NOMETASYNC *)
  | 19 => EnvConfig.write_map c           (* MDBX_WRITEMAP *)
  | 21 => true                            (* MDBX_NOTLS *)
  | 22 => EnvConfig.exclusive c           (* MDBX_EXCLUSIVE *)
  | 23 => negb (EnvConfig.read_ahead c)   (* MDBX_NORDAHEAD *)
  | 25 => true                            (* MDBX_COALESCE *)
  | 30 => EnvConfig.shared c              (* MDBX_ACCEDE *)
  | _ => false
  end.

Lemma setting_above c n : 31 <= n -> setting_of_bit c n = false.
Proof. intros Hn. destruct n as [|n|n]; [done | | done]. do 5 (destruct n as [n|n|]; try done; try lia). Qed.

Lemma env_flags_bits (c : EnvConfig.t) (n : Z) : 0 <= n -> Z.testbit (env_flags c) n = setting_of_bit c n.
Proof.
  intros Hn. assert (Hf : 0 <= env_flags c < 2 ^ 31 /\ forallb (λ n, Bool.eqb (Z.testbit (env_flags c) n) (setting_of_bit c n)) (seqZ 0 31) = true).
  { destruct c as [p cr [] [] [] [] [] [] ps ms gs mt mr]; by vm_compute. }
  destruct Hf as [Hr Hf]. destruct (decide (n < 31)) as [Hlt|Hge].
  - rewrite forallb_forall in Hf. apply Bool.eqb_prop, Hf, list_elem_of_In, elem_of_seqZ. lia.
  - rewrite setting_above by lia. apply Z.bits_above_log2; [lia|]. destruct (decide (env_flags c = 0)) as [->|]; [cbn; lia|].
    apply Z.log2_lt_pow2; [lia|]. assert (2 ^ 31 <= 2 ^ n) by (apply Z.pow_le_mono_r; lia). lia.
Qed.

(** The values that the options get, and when. *)
Definition option_value (limit : Z) (c : EnvConfig.t) (o : mdbx_option) : option Z :=
  if EnvConfig.shared c then None
  else match o with
       | rp_augment_limit => Some 33554432
       | txn_dp_initial | dp_reserve_limit => if EnvConfig.readonly c then None else Some 16384
       | txn_dp_limit => if EnvConfig.readonly c then None else Some (wrap 64 (limit * 2))
       | merge_threshold_16dot16_percent => if EnvConfig.readonly c then None else Some 32768
       end.

Lemma env_options_values limit (c : EnvConfig.t) o v : (o, v) ∈ env_options limit c <-> option_value limit c o = Some v.
Proof.
  unfold env_options, option_value. destruct (EnvConfig.shared c), (EnvConfig.readonly c); cbn [negb];
    rewrite ?elem_of_cons, ?elem_of_nil; destruct o; (split; [intros; naive_solver | intros [= <-]; naive_solver]) || (split; [naive_solver | done]).
Qed.

(** The size of the data file, none counting as empty. *)
Definition file_size (d : disk) : Z := match d with DirectoryWith (Some n) => n | _ => 0 end.

(** The requests that reach libmdbx. *)
Definition consistent (c : EnvConfig.t) (d : disk) : bool :=
  negb (bool_decide (EnvConfig.path c = [])) && match d with NotDirectory | Missing false => false | _ => true end &&
  (EnvConfig.create c || negb (file_size d =? 0)) && (file_size d <=? EnvConfig.max_size c) &&
  negb (EnvConfig.exclusive c && EnvConfig.shared c) && negb (EnvConfig.create c && (EnvConfig.shared c || EnvConfig.readonly c)).

(** The size of pages is checked against that of a file with data. *)
Definition pages_agree (c : EnvConfig.t) (d : disk) (page_size : Z) : bool :=
  (file_size d =? 0) || (EnvConfig.page_size c =? 0) || (page_size =? EnvConfig.page_size c).

Definition env_request (c : EnvConfig.t) (d : disk) : open_request :=
  mk_request (env_flags c) (create_parameters c (file_size d)) (EnvConfig.max_tables c) (EnvConfig.max_readers c) (EnvConfig.shared c).

Lemma open_env_asks open_ limit set_option readers (c : EnvConfig.t) (d : disk) :
  consistent c d = true ->
  open_env open_ limit set_option readers c d =
    let? page_size := open_ (env_request c d) in
    if negb (pages_agree c d page_size) then Failure (Thrown std_length_error)
    else
      let? _ := set_options set_option (env_options limit c) in
      let? _ := if negb (EnvConfig.inmemory c) then readers else Success () in
      Success (mk_opened (env_request c d) (env_options limit c) (negb (EnvConfig.inmemory c))).
Proof.
  unfold consistent. intros Hc. prop_bools. unfold open_env, pages_agree, env_request. rewrite bool_decide_false by done.
  apply orb_true_iff in H3. fold (file_size d).
  destruct d as [[]| |[n|]]; try done; cbn [file_size] in *.
  all: destruct (EnvConfig.create c), (EnvConfig.exclusive c), (EnvConfig.shared c), (EnvConfig.readonly c); try done; cbn [andb orb negb] in *.
  all: rewrite ?Z.eqb_refl; cbn [andb orb negb]; case_cmps; try lia; try done; cbn [andb orb negb];
    destruct (open_ _) as [ps| |]; cbn [outcome_bind]; try done; case_cmps; try done; try lia.
  all: destruct H3; done.
Qed.

Lemma open_env_refused (c : EnvConfig.t) (d : disk) : consistent c d = false -> exists e,
  forall open_ limit set_option readers, open_env open_ limit set_option readers c d = Failure (Thrown e).
Proof.
  unfold consistent, open_env. case_bool_decide; cbn [negb andb]; [by eexists|].
  destruct d as [[]| |[n|]]; cbn [andb file_size]; try (intros _; by eexists).
  all: destruct (EnvConfig.create c), (EnvConfig.exclusive c), (EnvConfig.shared c), (EnvConfig.readonly c); cbn [andb orb negb];
    case_cmps; cbn [andb orb negb]; intros Hc; try done; try lia; try by eexists.
Qed.


(** The examples of the comment. *)
Lemma leaf_page_examples : max_value_size_for_leaf_page 4096 28 = 2000 /\ max_value_size_for_leaf_page 4096 60 = 1968.
Proof. by split. Qed.

(** A value of that size leaves room for a second record in the page. *)
Lemma leaf_page_fits page_size key_size : 40 <= page_size < 2 ^ 32 -> 0 <= key_size <= page_size / 2 - 24 ->
  let v := max_value_size_for_leaf_page page_size key_size in
  0 <= v /\ 2 * (v + key_size + 4) <= page_size - 32 /\ page_size - 32 < 2 * (v + 1 + key_size + 4) + 2.
Proof.
  intros Hp Hk v. unfold v, max_value_size_for_leaf_page, wrap. rewrite (Z.mod_small (page_size - 32)) by lia.
  assert (E : Z.land ((page_size - 32) / 2) (Z.lnot 1) = 2 * ((page_size - 32) / 2 / 2)).
  { change 1 with (Z.ones 1). rewrite <- Z.ldiff_land, Z.ldiff_ones_r, Z.shiftl_mul_pow2, Z.shiftr_div_pow2 by lia. change (2 ^ 1) with 2. lia. }
  rewrite E. set (q := (page_size - 32) / 2 / 2).
  assert (Hq : 4 * q <= page_size - 32 < 4 * q + 4) by (unfold q; rewrite Z.div_div by lia; change (2 * 2) with 4; pose proof (Z.div_mod (page_size - 32) 4); pose proof (Z.mod_pos_bound (page_size - 32) 4); lia).
  clearbody q. pose proof (Z.div_mod page_size 2 ltac:(lia)). pose proof (Z.mod_pos_bound page_size 2 ltac:(lia)). clear v E.
  rewrite (Z.mod_small (2 * q - _)) by lia. rewrite Z.mod_small by lia. lia.
Qed.
(** ** Cursor handles *)

Import Cursor.

(** What libmdbx does on its own: transactions end, and cursors are no longer bound to
    them. *)
Definition rebound (h h' : heap) : Prop :=
  handles_pool_ h' = handles_pool_ h /\ next_ h' = next_ h /\ forall i, is_Some (bound h' !! i) <-> is_Some (bound h !! i).

(** The history of the cursors of a thread, those that are alive, and the number of
    constructions that have failed. *)
Inductive history : nat -> heap -> list t -> Prop :=
| history_start : history 0 (mk ∅ [] 0) []
| history_library n h cs h' : history n h cs -> rebound h h' -> history n h' cs
| history_made n h cs txn_id c h' : history n h cs -> make txn_id true h = (Success c, h') -> history n h' (c :: cs)
| history_failed n h cs txn_id e h' : history n h cs -> make txn_id false h = (Failure e, h') -> history (S n) h' cs
| history_destroyed n h cs1 c cs2 : history n h (cs1 ++ c :: cs2) -> history n (destroy c h) (cs1 ++ cs2)
| history_closed n h cs1 c cs2 : history n h (cs1 ++ c :: cs2) -> history n (close c h).2 (cs1 ++ (close c h).1 :: cs2)
| history_bound n h cs1 c cs2 txn_id ok r c' h' : history n h (cs1 ++ c :: cs2) -> bind txn_id ok c h = (r, (c', h')) ->
    history n h' (cs1 ++ c' :: cs2)
| history_moved n h cs1 c cs2 : history n h (cs1 ++ c :: cs2) ->
    history n h (cs1 ++ (move_construct c).1 :: (move_construct c).2 :: cs2)
| history_assigned n h cs1 c cs2 d cs3 : history n h (cs1 ++ c :: cs2 ++ d :: cs3) ->
    history n h (cs1 ++ (move_assign c d).1 :: cs2 ++ (move_assign c d).2 :: cs3).

(** The handles [l] are those that libmdbx has, each once. *)
Definition held (h : heap) (l : list nat) : Prop :=
  NoDup l /\ (forall i, i ∈ l <-> is_Some (bound h !! i)) /\ forall i, i ∈ l -> (i < next_ h)%nat.

#[global] Instance held_perm h : Proper (Permutation ==> iff) (held h).
Proof. intros l l' E. unfold held. setoid_rewrite E. done. Qed.

Lemma held_rebound h h' l : rebound h h' -> held h l -> held h' l.
Proof. intros (_ & En & Eb) (H1 & H2 & H3). split_and!; [done | intros i; by rewrite Eb | by rewrite En]. Qed.

Lemma held_create h l : held h l -> held (create h).2 ((create h).1 :: l).
Proof.
  intros (H1 & H2 & H3). split_and!; cbn.
  - constructor; [|done]. intros Hi%H3. lia.
  - intros i. rewrite elem_of_cons, H2. destruct (decide (i = next_ h)) as [->|Hi].
    + rewrite lookup_insert_eq. split; [by eexists | by left].
    + rewrite lookup_insert_ne by done. split; [by intros [] | by right].
  - intros i [->|Hi%H3]%elem_of_cons; lia.
Qed.

Lemma held_close i h l : held h (i :: l) -> held (close_handle i h) l.
Proof.
  intros (H1 & H2 & H3). apply NoDup_cons in H1 as [Hi H1]. split_and!; cbn; [done | | intros j Hj; apply H3; set_solver].
  intros j. destruct (decide (j = i)) as [->|Hj]; [rewrite lookup_delete_eq; split; [done | by intros []]|].
  rewrite lookup_delete_ne, <- H2 by done. set_solver.
Qed.

(** A cursor that is bound has a handle, in place of the one it had. *)
Lemma held_bind txn_id ok c h l r c' h' : held h (option_list c ++ l) -> bind txn_id ok c h = (r, (c', h')) ->
  held h' (option_list c' ++ l) /\ handles_pool_ h' = handles_pool_ h /\ (is_Some c -> is_Some c') /\ (r = Success () -> ok = true).
Proof.
  intros Hh. destruct c as [i|]; cbn [bind]; [|by intros [= <- <- <-]].
  assert (Hb : forall i0 h0, held h0 (i0 :: l) -> handles_pool_ h0 = handles_pool_ h ->
    (if ok then (Success (), (Some i0, mk (<[i0 := Some txn_id]> (bound h0)) (handles_pool_ h0) (next_ h0)))
     else (Failure (Thrown mdbx_exception), (Some i0, h0))) = (r, (c', h')) ->
    held h' (option_list c' ++ l) /\ handles_pool_ h' = handles_pool_ h /\ (is_Some (Some i) -> is_Some c') /\ (r = Success () -> ok = true)).
  { intros i0 h0 H0 Hp. destruct ok; intros [= <- <- <-]; [|by split_and!]. split_and!; try done.
    apply (held_rebound h0); [|done]. split_and!; try done. cbn. intros j. destruct (decide (j = i0)) as [->|Hj].
    - rewrite lookup_insert_eq. split; [|by eexists]. intros _. apply H0. set_solver.
    - by rewrite lookup_insert_ne. }
  destruct (bound h !! i) as [[cm_tx|]|]; try (by apply Hb). destruct (negb (txn_id =? cm_tx)); [|by apply Hb].
  apply Hb; [|done]. apply held_create, held_close, Hh.
Qed.

(** A construction takes a handle, and keeps it even when it fails. *)
Lemma held_make txn_id ok h l r h' : held h (handles_pool_ h ++ l) -> make txn_id ok h = (r, h') ->
  exists i, held h' (i :: handles_pool_ h' ++ l) /\ (if ok then r = Success (Some i) else exists e, r = Failure e).
Proof.
  intros Hh. unfold make.
  assert (Hm : forall i h0, held h0 (i :: handles_pool_ h0 ++ l) ->
    match bind txn_id ok (Some i) h0 with
    | (Success _, (c, h)) => (Success c, h) | (Failure e, (_, h)) => (Failure e, h) | (Fault f, (_, h)) => (Fault f, h)
    end = (r, h') ->
    exists i, held h' (i :: handles_pool_ h' ++ l) /\ (if ok then r = Success (Some i) else exists e, r = Failure e)).
  { intros i h0 H0. destruct (bind txn_id ok (Some i) h0) as [r0 [c0 h1]] eqn:Hb.
    destruct (held_bind _ _ (Some i) _ _ _ _ _ H0 Hb) as (H1 & Hp & [j ->] & Hr); [by eexists|].
    revert Hb. cbn [bind]. destruct (match bound h0 !! i with Some _ => _ | None => _ end) as [i1 h2]. destruct ok; intros [= <- _ _] [= <- <-].
    - exists j. rewrite Hp. by split.
    - exists j. rewrite Hp. split; [done | by eexists]. }
  destruct (handles_pool_ h) as [|i pool] eqn:Hp.
  - intros E. apply (Hm _ _ ) in E; [done|]. apply held_create. cbn. by rewrite Hp.
  - intros E. apply (Hm _ _) in E; [done|]. exact Hh.
Qed.

(** The handles that cursors have. *)
Definition owned (cs : list t) : list nat := mjoin (option_list <$> cs).

Lemma owned_middle cs1 c cs2 : owned (cs1 ++ c :: cs2) ≡ₚ option_list c ++ owned cs1 ++ owned cs2.
Proof. unfold owned. rewrite fmap_app, fmap_cons, join_app. cbn [mjoin list_join]. solve_Permutation. Qed.

Lemma owned_app cs1 cs2 : owned (cs1 ++ cs2) = owned cs1 ++ owned cs2.
Proof. unfold owned. by rewrite fmap_app, join_app. Qed.

Lemma history_held n h cs : history n h cs -> exists lost, length lost = n /\ held h (handles_pool_ h ++ owned cs ++ lost).
Proof.
  induction 1 as [|n h cs h' _ (lost & El & IH) Hr|n h cs txn_id c h' _ (lost & El & IH) Hm|n h cs txn_id e h' _ (lost & El & IH) Hm
    |n h cs1 c cs2 _ (lost & El & IH)|n h cs1 c cs2 _ (lost & El & IH)|n h cs1 c cs2 txn_id ok r c' h' _ (lost & El & IH) Hb
    |n h cs1 c cs2 _ (lost & El & IH)|n h cs1 c cs2 d cs3 _ (lost & El & IH)].
  - exists []. split; [done|]. split_and!; [constructor | | set_solver]. intros i. cbn. rewrite lookup_empty. split; [set_solver | by intros []].
  - exists lost. split; [done|]. destruct Hr as (Hp & Hn & Hb). rewrite Hp. by apply (held_rebound h).
  - exists lost. split; [done|]. apply held_make with (1 := IH) in Hm as (i & Hi & [= ->]).
    pose proof (owned_middle [] (Some i) cs) as P. cbn [app] in P. rewrite P. eapply held_perm; [|exact Hi]. solve_Permutation.
  - apply held_make with (1 := IH) in Hm as (i & Hi & _). exists (i :: lost). split; [by cbn; rewrite El|].
    by rewrite <- !Permutation_middle.
  - exists lost. split; [done|]. rewrite owned_app. rewrite owned_middle in IH.
    destruct c as [i|]; cbn [destroy option_list app] in *; [|exact IH].
    cbn [handles_pool_]. eapply held_perm; [|exact IH]. solve_Permutation.
  - exists lost. split; [done|]. rewrite owned_middle in IH |- *. destruct c as [i|]; cbn [close option_list app fst snd] in *; [|done].
    cbn [handles_pool_ close_handle]. apply held_close. by rewrite Permutation_middle.
  - exists lost. split; [done|]. rewrite owned_middle in IH |- *.
    assert (P : forall c p, p ++ (option_list c ++ owned cs1 ++ owned cs2) ++ lost ≡ₚ option_list c ++ p ++ (owned cs1 ++ owned cs2) ++ lost).
    { intros. solve_Permutation. }
    rewrite P in IH |- *. destruct (held_bind _ _ _ _ _ _ _ _ IH Hb) as (Hh & Hp & _). by rewrite Hp.
  - exists lost. split; [done|]. cbn [move_construct fst snd]. eapply held_perm; [|exact IH].
    rewrite !owned_middle. done.
  - exists lost. split; [done|]. cbn [move_assign fst snd]. eapply held_perm; [|exact IH].
    rewrite !owned_middle. solve_Permutation.
Qed.

(** C22: at any point of the history of the cursors of a thread, every handle that libmdbx has
    is in the pool or belongs to one cursor, and no other cursor has it; the pool and the
    cursors have no handle that is closed.  The exception are constructions that fail
    because the table cannot be opened: each of them loses one handle, which is never
    closed and never used again. *)
Theorem handles_owned (n : nat) (h : heap) (cs : list t) : history n h cs ->
  NoDup (handles_pool_ h ++ owned cs) /\
  (forall i, i ∈ handles_pool_ h ++ owned cs -> is_Some (bound h !! i)) /\
  size (bound h) = (length (handles_pool_ h) + length (owned cs) + n)%nat.
Proof.
  intros (lost & El & H1 & H2 & _)%history_held. rewrite app_assoc in *. split_and!.
  - by apply NoDup_app in H1 as [H1 _].
  - intros i Hi. apply H2. set_solver.
  - rewrite <- size_dom. assert (E : dom (bound h) = list_to_set ((handles_pool_ h ++ owned cs) ++ lost) :> gset nat).
    { apply set_eq. intros i. rewrite elem_of_dom, <- H2. set_solver. }
    rewrite E, size_list_to_set, !length_app, El by done. lia.
Qed.

(** Two cursors, one of which goes back to the pool and is used again, and a table that
    cannot be opened. *)
Definition heap_two : heap := (make 7 true (make 7 true (mk ∅ [] 0)).2).2.
Definition heap_lost : heap := (make 9 false (destroy (Some 1%nat) heap_two)).2.

Lemma handles_owned_witness : history 1 heap_lost [Some 0%nat] /\ size (bound heap_lost) = 2%nat.
Proof.
  assert (Hh : history 1 heap_lost [Some 0%nat]).
  { apply (history_failed 0 (destroy (Some 1%nat) heap_two) _ 9 (Thrown mdbx_exception)); [|by vm_compute].
    apply (history_destroyed 0 heap_two [] (Some 1%nat) [Some 0%nat]).
    apply (history_made 0 (make 7 true (mk ∅ [] 0)).2 _ 7); [|by vm_compute].
    apply (history_made 0 (mk ∅ [] 0) _ 7); [|by vm_compute]. apply history_start. }
  split; [exact Hh|]. apply (handles_owned 1 _ [Some 0%nat]) in Hh as (_ & _ & E). rewrite E. by vm_compute.
Defined.

(** ** Tables *)

Section Deployed.
Context `{MdbxLaws} `{!MdbxEnv} `{!MdbxEnvLaws}.

(** Every table exists after a deployment, and none has changed. *)
Lemma deploy_tables_spec tables t : is_readonly t = false -> exists t', deploy_tables tables t = (Success (), t') /\
  is_readonly t' = false /\ (forall name, table name t' = table name t) /\
  (forall name, map_exists name t' = bool_decide (name ∈ tables) || map_exists name t).
Proof.
  intros Hr. unfold deploy_tables. rewrite Hr. eexists. split; [done|]. revert t Hr.
  induction tables as [|x tables IH]; intros t Hr; [split_and!; done|]. cbn [foldl].
  assert (Hx : let t' := if has_map x t then t else create_map x t in is_readonly t' = false /\
    (forall name, table name t' = table name t) /\ (forall name, map_exists name t' = bool_decide (name = x) || map_exists name t)).
  { unfold has_map. destruct (map_exists x t) eqn:E; cbn zeta; split_and!; try done.
    - intros name. case_bool_decide as Hn; [by rewrite Hn, E | done].
    - by rewrite create_map_mode.
    - intros name. apply create_map_table.
    - intros name. apply create_map_exists. }
  cbn zeta in Hx. destruct Hx as (X1 & X2 & X3). destruct (IH _ X1) as (I1 & I2 & I3). split_and!; [done | intros; by rewrite I2, X2 |].
  intros name. rewrite I3, X3, orb_assoc. f_equal. rewrite (bool_decide_ext (name ∈ x :: tables) (name = x \/ name ∈ tables)) by set_solver.
  rewrite bool_decide_or. apply orb_comm.
Qed.

End Deployed.

(** ** An environment in memory *)

(** No tables at all before the first commit. *)
Definition m_start (readonly : bool) (e : option (gmap Bytes (list row))) : memory :=
  {| m_readonly := readonly; m_tables := default ∅ e |}.

#[local] Existing Instance model_mdbx.

Definition model_env : MdbxEnv := {|
  env := option (gmap Bytes (list row)) : Type;
  start_write := m_start false;
  start_read := m_start true;
  commit_txn t e := Some (m_tables t);
  is_pristine e := match e with None => true | Some _ => false end;
  map_exists name t := bool_decide (is_Some (m_tables t !! name));
  create_map name t := match m_tables t !! name with
                       | Some _ => t
                       | None => {| m_readonly := m_readonly t; m_tables := <[name := []]> (m_tables t) |}
                       end;
|}.

Lemma model_env_laws : @MdbxEnvLaws _ model_env.
Proof.
  split; cbn [env start_write start_read commit_txn is_pristine map_exists create_map model_env]; unfold table;
    cbn [is_readonly model_mdbx open_cursor rows txn cursor upsert map_name cursor_txn]; try done.
  - intros name [e|]; [done|]. intros _. unfold m_rows. cbn. by rewrite lookup_empty.
  - intros name t. by destruct (m_tables t !! name).
  - intros name name' t. destruct (m_tables t !! name) eqn:E; [done|]. unfold m_rows. cbn.
    destruct (decide (name' = name)) as [->|Hn]; [by rewrite lookup_insert_eq, E | by rewrite lookup_insert_ne].
  - intros name name' t. destruct (decide (name' = name)) as [->|Hn].
    + rewrite (bool_decide_true (name = name)) by done. destruct (m_tables t !! name) as [l|] eqn:E; cbn.
      * by rewrite E.
      * by rewrite lookup_insert_eq.
    + rewrite (bool_decide_false (name' = name)) by done. destruct (m_tables t !! name); cbn; [done|]. by rewrite lookup_insert_ne.
  - intros k v c name. cbn. destruct (decide (name = m_name c)) as [->|Hn].
    + rewrite (bool_decide_true (m_name c = _)) by done. by rewrite lookup_insert_eq.
    + rewrite (bool_decide_false (name = _)) by done. by rewrite lookup_insert_ne.
Qed.

End EnvironmentFacts.
