(* ===== verification/Bootstrap.v ===== *)
(** * The database of the node at start

    Models of [prepare_chaindata_env] of [src/cmd/node.cpp] and of the chain
    configuration in the database ([database/access_layer.cpp]).  The state is what has
    been committed to the environment, with all that was there before. *)

From S2P Require Import Prelude Text Boost Json Chain Database Environment.
#[local] Open Scope Z_scope.

Section Bootstrap.
Context `{MdbxEnv} `{Json}.

Definition kConfigChainKey : Bytes := str "chain".

Definition read_chain_config (t : txn) : outcome (option ChainConfig.t) :=
  match read_config_value kConfigChainKey t with
  | None => Success None
  | Some data => from_json (parse data)
  end.

Definition write_chain_config (config : ChainConfig.t) (t : txn) : outcome unit * txn :=
  if is_readonly t then (Success (), t)
  else
    match to_json config with
    | Success j => (Success (), write_config_value kConfigChainKey (dump j) t)
    | Failure e => (Failure e, t)
    | Fault f => (Fault f, t)
    end.

(** The environment on disk, and all the states it has been in. *)
Record store := mk_store { committed : env; past : list env }.

(** What a write transaction of the environment's own does to it. *)
Definition commit_store (renew : bool) (t : txn) : op store RWTxn.t := λ s,
  match RWTxn.commit renew (RWTxn.Managed (Some t)) (committed s) with
  | (Success x, e) => (Success x, mk_store e (committed s :: past s))
  | (Failure x, e) => (Failure x, s)
  | (Fault f, e) => (Fault f, s)
  end.

(** [*txn], which a transaction that has been renewed has. *)
Definition deref (x : RWTxn.t) : op store txn := λ s,
  match RWTxn.get x with Some t => (Success t, s) | None => (Fault UndefinedBehaviour, s) end.

Definition lift {S A} (r : outcome A) : op S A := λ s, (r, s).

(** Operations of a transaction, whose changes are not on disk yet. *)
Definition on_txn (r : outcome unit * txn) : op store txn := λ s,
  match r with
  | (Success _, t) => (Success t, s)
  | (Failure e, _) => (Failure e, s)
  | (Fault f, _) => (Fault f, s)
  end.

Record NodeSettings := {
  network_id : Z;
  chaindata_env_config : EnvConfig.t;
  chain_config : option ChainConfig.t;
}.

(** The schema of a database that has one is checked, a new database gets its tables.
    When the schema is too old the environment is closed while its transaction is open, and
    the transaction is aborted after that. *)
Definition prepare_schema : op store txn := λ s,
  let t := start_write (committed s) in
  if negb (is_pristine (committed s)) then
    (detected_schema_version <~ lift (read_schema_version t);;
     match detected_schema_version with
     | None => op_fail (Thrown db_Exception)
     | Some detected => if version_lt detected kRequiredSchemaVersion then lift (Fault UndefinedBehaviour) else op_ret t
     end) s
  else
    (t <~ on_txn (deploy_tables kChainDataTables t);;
     t <~ on_txn (write_schema_version kRequiredSchemaVersion t);;
     x <~ commit_store true t;;
     deref x) s.

(** The configuration of the chain, written when there is none. *)
Definition prepare_chain (network_id : Z) (init_if_not_configured : bool) (t : txn) : op store (txn * option ChainConfig.t) :=
  chain_config <~ lift (read_chain_config t);;
  match chain_config with
  | None =>
      if init_if_not_configured then
        match lookup_known_chain network_id with
        | None => op_fail (Thrown std_logic_error)
        | Some known =>
            t <~ on_txn (write_chain_config known.2 t);;
            x <~ commit_store true t;;
            t <~ deref x;;
            chain_config <~ lift (read_chain_config t);;
            op_ret (t, chain_config)
        end
      else op_ret (t, None)
  | c => op_ret (t, c)
  end.

Section Prepare.
(** libmdbx, as [open_env] takes it. *)
Context (open_ : open_request -> outcome Z) (dirty_pages_limit : Z) (set_option : mdbx_option -> Z -> outcome unit)
  (check_readers : outcome unit).

(** The settings with which the environment is opened: exclusively, and to be created
    when there is no data file. *)
Definition bootstrap_config (c : EnvConfig.t) (path : Bytes) (d : disk) : EnvConfig.t :=
  EnvConfig.mk path (match d with DirectoryWith (Some _) => false | _ => true end) (EnvConfig.readonly c) true (EnvConfig.inmemory c)
    (EnvConfig.shared c) (EnvConfig.read_ahead c) (EnvConfig.write_map c) (EnvConfig.page_size c) (EnvConfig.max_size c)
    (EnvConfig.growth_size c) (EnvConfig.max_tables c) (EnvConfig.max_readers c).

(** The settings afterwards. *)
Definition restore_config (exclusive : bool) (c : EnvConfig.t) : EnvConfig.t :=
  EnvConfig.mk (EnvConfig.path c) false (EnvConfig.readonly c) exclusive (EnvConfig.inmemory c)
    (EnvConfig.shared c) (EnvConfig.read_ahead c) (EnvConfig.write_map c) (EnvConfig.page_size c) (EnvConfig.max_size c)
    (EnvConfig.growth_size c) (EnvConfig.max_tables c) (EnvConfig.max_readers c).

(** [path] is the directory of the chain data, [d] what is there once the data directory
    has been deployed.  No write transaction starts in an environment that is read only. *)
Definition prepare_chaindata_env (settings : NodeSettings) (path : Bytes) (d : disk) (init_if_not_configured : bool)
    : op store NodeSettings :=
  let chaindata_exclusive := EnvConfig.exclusive (chaindata_env_config settings) in
  let config := bootstrap_config (chaindata_env_config settings) path d in
  _ <~ lift (open_env open_ dirty_pages_limit set_option check_readers config d);;
  _ <~ lift (if EnvConfig.readonly config then Failure (Thrown mdbx_exception) else Success ());;
  t <~ prepare_schema;;
  r <~ prepare_chain (network_id settings) init_if_not_configured t;;
  match r with
  | (_, None) => op_fail (Thrown std_logic_error)
  | (t, Some c) =>
      if negb (ChainConfig.identifier_ c =? network_id settings) then op_fail (Thrown std_logic_error)
      else
        _ <~ lift (to_json c);;
        _ <~ commit_store false t;;
        op_ret {| network_id := network_id settings; chaindata_env_config := restore_config chaindata_exclusive config;
                  chain_config := Some c |}
  end.
End Prepare.

End Bootstrap.
