(* ===== verification/BootstrapFacts.v ===== *)
(** * Properties of the start

    The start of the node brings its database to the state it needs, from every state
    that an earlier start may have left, and refuses the database of another chain. *)

From stdpp Require Import gmap.
From S2P Require Import Prelude Text Boost Json Chain Database DatabaseFacts Environment EnvironmentFacts Bootstrap.
Import DatabaseFacts EnvironmentFacts ChainFacts.
#[local] Open Scope Z_scope.

Module BootstrapFacts.

Section Phases.
Context `{MdbxLaws} `{!MdbxEnv} `{!MdbxEnvLaws} `{JsonLaws}.

Implicit Types (t : txn) (e : env) (s : store).

(** ** Values of transactions and environments *)

(** Two transactions with the same configuration table. *)
Definition same_config t t' : Prop := forall k, read_config_value k t = read_config_value k t'.

Lemma same_schema t t' : same_config t t' -> read_schema_version t = read_schema_version t'.
Proof. intros E. unfold read_schema_version. by rewrite E. Qed.

Lemma same_chain t t' : same_config t t' -> read_chain_config t = read_chain_config t'.
Proof. intros E. unfold read_chain_config. by rewrite E. Qed.

Lemma same_committed t e : is_readonly t = false -> same_config (start_write (commit_txn t e)) t.
Proof. intros Hr k. by rewrite !read_config_spec, commit_table. Qed.

Lemma write_config_mode k v t : is_readonly (write_config_value k v t) = is_readonly t.
Proof. unfold write_config_value. destruct (is_readonly t) eqn:E; [done|]. by rewrite upsert_mode, open_txn. Qed.

(** ** Phases *)

Definition schema_ok t : Prop := exists v, read_schema_version t = Success (Some v) /\ version_lt v kRequiredSchemaVersion = false.

(** The tables of the chain data are there. *)
Definition has_tables t : Prop := forall name, name ∈ kChainDataTables -> map_exists name t = true.

Lemma write_config_maps k v t name : map_exists name t = true -> map_exists name (write_config_value k v t) = true.
Proof. intros E. unfold write_config_value. destruct (is_readonly t); [done|]. by rewrite upsert_exists, open_txn, E, orb_true_r. Qed.

Lemma write_config_tables k v t : has_tables t -> has_tables (write_config_value k v t).
Proof. intros Ht name Hn. by apply write_config_maps, Ht. Qed.

Lemma commit_tables t e : is_readonly t = false -> has_tables t -> has_tables (start_write (commit_txn t e)).
Proof. intros Hr Ht name Hn. rewrite commit_maps by done. by apply Ht. Qed.

(** The states in which a start, or one that was cut off, leaves the database for the
    chain [c]: untouched, with its tables, and with its chain. *)
Inductive phase (c : ChainConfig.t) (e : env) : Prop :=
| pristine : is_pristine e = true -> phase c e
| deployed : is_pristine e = false -> has_tables (start_write e) -> schema_ok (start_write e) -> read_config_value kConfigChainKey (start_write e) = None -> phase c e
| configured : is_pristine e = false -> has_tables (start_write e) -> schema_ok (start_write e) ->
    read_chain_config (start_write e) = Success (Some (forget_hashes c)) -> phase c e.

(** A configuration that is written is read back, but for its hashes. *)
Lemma chain_config_roundtrip c t : is_readonly t = false -> json_ready c -> exists t',
  write_chain_config c t = (Success (), t') /\ is_readonly t' = false /\ read_chain_config t' = Success (Some (forget_hashes c)) /\
  (forall k, k <> kConfigChainKey -> read_config_value k t' = read_config_value k t) /\ (has_tables t -> has_tables t').
Proof.
  intros Hr Hc. destruct (to_json_form c Hc) as (name & Ha & Hj). unfold write_chain_config. rewrite Hr, Hj.
  eexists. split; [done|]. split_and!.
  - by rewrite write_config_mode.
  - unfold read_chain_config. rewrite write_config_spec, decide_True by done.
    rewrite parse_dump by (by apply plain_form). by apply from_form.
  - intros k Hk. by rewrite write_config_spec, decide_False.
  - apply write_config_tables.
Qed.

Lemma write_schema_fresh t v : is_readonly t = false -> version_ok v -> read_config_value kDbSchemaVersionKey t = None ->
  exists t', write_schema_version v t = (Success (), t') /\ is_readonly t' = false /\ read_schema_version t' = Success (Some v) /\
  (forall k, k <> kDbSchemaVersionKey -> read_config_value k t' = read_config_value k t) /\ (has_tables t -> has_tables t').
Proof.
  intros Hr Hv Hn. assert (Hp : read_schema_version t = Success None) by (unfold read_schema_version; by rewrite Hn).
  pose proof (schema_monotone t v None Hr Hv Hp) as [[E1 E2] E3]. destruct (write_schema_version v t) as [r t'] eqn:E.
  cbn [fst snd] in *. subst r. exists t'. split_and!; try done; revert E; unfold write_schema_version; rewrite Hr, Hp.
  - intros [= <-]. by rewrite write_config_mode.
  - intros [= <-]. apply write_config_tables.
Qed.

(** A transaction on a database with its tables, not yet or no longer different from
    what is on disk. *)
Definition ready c t : Prop := is_readonly t = false /\ has_tables t /\ schema_ok t /\
  (read_config_value kConfigChainKey t = None \/ read_chain_config t = Success (Some (forget_hashes c))).

Lemma ready_phase c t e : ready c t -> phase c (commit_txn t e) /\ ready c (start_write (commit_txn t e)).
Proof.
  intros (Hr & Htb & (v & Hs & Hv) & Hc). pose proof (same_committed t e Hr) as Es. pose proof (commit_tables t e Hr Htb) as Htb'.
  assert (So : schema_ok (start_write (commit_txn t e))) by (exists v; by rewrite (same_schema _ _ Es)).
  pose proof (commit_not_pristine t e Hr) as Hp. destruct Hc as [Hc|Hc].
  - split; [by apply deployed; rewrite ?Es|]. split_and!; [apply start_write_mode | done | done | left; by rewrite Es].
  - split; [by apply configured; rewrite ?(same_chain _ _ Es)|].
    split_and!; [apply start_write_mode | done | done | right; by rewrite (same_chain _ _ Es)].
Qed.

(** The first half of a start. *)
Lemma prepare_schema_ok c s : phase c (committed s) -> exists t s',
  prepare_schema s = (Success t, s') /\ ready c t /\ phase c (committed s') /\
  (forall e, e ∈ past s' -> e ∈ past s \/ phase c e).
Proof.
  intros Hph. unfold prepare_schema. destruct (is_pristine (committed s)) eqn:Hp; cbn [negb].
  - destruct (deploy_tables_spec kChainDataTables (start_write (committed s)) (start_write_mode _)) as (t1 & -> & M1 & T1 & X1).
    destruct (write_schema_fresh t1 kRequiredSchemaVersion M1) as (t2 & E2 & M2 & R2 & K2 & Q2); [decide_now | |].
    { by rewrite read_config_spec, T1, pristine_empty. }
    assert (Hrd : ready c t2).
    { split_and!; [done | apply Q2; intros name Hn; by rewrite X1, bool_decide_true | by eexists |]. left. rewrite K2 by done. by rewrite read_config_spec, T1, pristine_empty. }
    destruct (ready_phase c t2 (committed s) Hrd) as [P1 P2].
    cbn [on_txn op_bind]. rewrite E2. cbn. eexists _, _. split_and!; [done | exact P2 | exact P1 |].
    intros e [->|He]%elem_of_cons; [by right | by left].
  - assert (Hrd : ready c (start_write (committed s)) /\ schema_ok (start_write (committed s))).
    { destruct Hph as [Hp'|_ Htb So Hc|_ Htb So Hc]; [congruence| |]; (split; [split_and!; [apply start_write_mode | done | done | tauto] | done]). }
    destruct Hrd as [Hrd (v & Ev & Hv)]. unfold op_bind, lift. rewrite Ev, Hv. eexists _, _. split_and!; [done | done | done |]. tauto.
Qed.

(** The second half. *)
Lemma prepare_chain_ok c id name t s : lookup_known_chain id = Some (name, c) -> json_ready c -> ready c t -> phase c (committed s) ->
  exists t' s', prepare_chain id true t s = (Success (t', Some (forget_hashes c)), s') /\ ready c t' /\
  read_chain_config t' = Success (Some (forget_hashes c)) /\ phase c (committed s') /\ (forall e, e ∈ past s' -> e ∈ past s \/ phase c e).
Proof.
  intros Hk Hj Hrd Hph. destruct Hrd as (Hr & Htb & (v & Hs & Hv) & [Hc|Hc]); unfold prepare_chain.
  - assert (E : read_chain_config t = Success None) by (unfold read_chain_config; by rewrite Hc). rewrite E, Hk. cbn [lift op_bind snd].
    destruct (chain_config_roundtrip c t Hr Hj) as (t1 & E1 & M1 & R1 & K1 & H1').
    assert (Hrd : ready c t1).
    { split_and!; [done | by apply H1' | exists v; split; [|done] | by right]. unfold read_schema_version in *. by rewrite K1. }
    destruct (ready_phase c t1 (committed s) Hrd) as [P1 P2].
    assert (R2 : read_chain_config (start_write (commit_txn t1 (committed s))) = Success (Some (forget_hashes c))).
    { by rewrite (same_chain _ _ (same_committed t1 (committed s) M1)). }
    unfold op_bind, lift. rewrite E1. cbn. rewrite R2. eexists _, _. split_and!; [done | exact P2 | exact R2 | exact P1 |].
    intros e [->|He]%elem_of_cons; [by right | by left].
  - unfold op_bind, lift. rewrite Hc. eexists _, _. split_and!; [done | | done | done | tauto]. split_and!; [done | done | by exists v | by right].
Qed.

Section Starts.
Context (open_ : open_request -> outcome Z) (limit : Z) (set_option : mdbx_option -> Z -> outcome unit) (readers : outcome unit).

(** libmdbx opens the environment of the node for writing. *)
Definition opens (settings : NodeSettings) (path : Bytes) (d : disk) : Prop :=
  (exists o, open_env open_ limit set_option readers (bootstrap_config (chaindata_env_config settings) path d) d = Success o) /\
  EnvConfig.readonly (chaindata_env_config settings) = false.

Definition settled (settings : NodeSettings) (path : Bytes) (d : disk) (c : ChainConfig.t) : NodeSettings :=
  {| network_id := network_id settings;
     chaindata_env_config := restore_config (EnvConfig.exclusive (chaindata_env_config settings))
       (bootstrap_config (chaindata_env_config settings) path d);
     chain_config := Some (forget_hashes c) |}.

Lemma lookup_ready id name c : lookup_known_chain id = Some (name, c) -> ChainConfig.identifier_ c = id /\ json_ready c.
Proof.
  unfold lookup_known_chain. intros [Hin He]%find_some. cbn in He. split; [lia|].
  apply list_elem_of_In in Hin. by apply known_ready in Hin.
Qed.

Lemma prepare_succeeds settings path d s name c : opens settings path d ->
  lookup_known_chain (network_id settings) = Some (name, c) -> phase c (committed s) -> exists s',
  prepare_chaindata_env open_ limit set_option readers settings path d true s = (Success (settled settings path d c), s') /\
  phase c (committed s') /\ read_chain_config (start_write (committed s')) = Success (Some (forget_hashes c)) /\
  has_tables (start_write (committed s')) /\ schema_ok (start_write (committed s')) /\ is_pristine (committed s') = false /\
  (forall e, e ∈ past s' -> e ∈ past s \/ phase c e).
Proof.
  intros [[o Ho] Hro] Hk Hph. destruct (lookup_ready _ _ _ Hk) as [Hid Hj].
  destruct (prepare_schema_ok c s Hph) as (t & s1 & E1 & Hrd & Hph1 & Hpast1).
  destruct (prepare_chain_ok c _ name t s1 Hk Hj Hrd Hph1) as (t2 & s2 & E2 & Hrd2 & Hc2 & Hph2 & Hpast2).
  destruct (ready_phase c t2 (committed s2) Hrd2) as [Hph3 _]. pose proof Hrd2 as (Hr2 & Htb2 & (v & Hv) & _).
  pose proof (same_committed t2 (committed s2) Hr2) as Es.
  assert (Hjf : exists j, to_json (forget_hashes c) = Success j).
  { destruct (to_json_form (forget_hashes c) Hj) as (n & _ & ->). by eexists. }
  destruct Hjf as [j Hjf]. unfold prepare_chaindata_env, op_bind, lift. rewrite Ho. cbn [EnvConfig.readonly bootstrap_config]. rewrite Hro, E1, E2.
  cbn [ChainConfig.identifier_ forget_hashes]. rewrite Hid, Z.eqb_refl. cbn [negb]. rewrite <- Hid. fold (forget_hashes c). rewrite Hjf.
  eexists. split; [rewrite Hid; reflexivity|]. cbn [committed past]. split_and!.
  - exact Hph3.
  - by rewrite (same_chain _ _ Es).
  - by apply commit_tables.
  - exists v. by rewrite (same_schema _ _ Es).
  - by apply commit_not_pristine.
  - intros e [->|He]%elem_of_cons; [by right|]. destruct (Hpast2 e He) as [He'|He']; [by apply Hpast1 | by right].
Qed.

(** Whatever the database was, a start that succeeds leaves the chain that was asked for
    in it. *)
Lemma prepare_schema_mode s t s' : prepare_schema s = (Success t, s') -> is_readonly t = false.
Proof.
  unfold prepare_schema. destruct (is_pristine (committed s)); cbn [negb].
  - intros (t1 & s1 & _ & (t2 & s2 & _ & (x & s3 & E & Hd)%op_bind_inv)%op_bind_inv)%op_bind_inv.
    unfold commit_store in E. cbn in E. injection E as <- <-. unfold deref in Hd. cbn in Hd. injection Hd as <- <-. apply start_write_mode.
  - intros (v & s1 & _ & Hv)%op_bind_inv. destruct v as [v|]; [|done]. destruct (version_lt _ _); [done|]. injection Hv as <- _. apply start_write_mode.
Qed.

Lemma prepare_chain_mode id init t s t' c s' : is_readonly t = false -> prepare_chain id init t s = (Success (t', Some c), s') ->
  is_readonly t' = false /\ read_chain_config t' = Success (Some c).
Proof.
  intros Hr. unfold prepare_chain. intros (r & s1 & E & Hk)%op_bind_inv. unfold lift in E. injection E as E <-. destruct r as [c'|].
  - injection Hk as <- <- _. by rewrite E.
  - destruct init; [|done]. destruct (lookup_known_chain id) as [known|]; [|done].
    apply op_bind_inv in Hk as (t1 & s2 & _ & (x & s3 & Ec & (t2 & s4 & Ed & (c2 & s5 & Er & Hk)%op_bind_inv)%op_bind_inv)%op_bind_inv).
    unfold commit_store in Ec. cbn in Ec. injection Ec as <- <-. unfold deref in Ed. cbn in Ed. injection Ed as <- <-.
    unfold lift in Er. injection Er as Er <-. injection Hk as <- -> _. split; [apply start_write_mode | done].
Qed.

Lemma prepare_identifies settings path d init s st s' :
  prepare_chaindata_env open_ limit set_option readers settings path d init s = (Success st, s') ->
  exists c, chain_config st = Some c /\ ChainConfig.identifier_ c = network_id settings /\
    read_chain_config (start_write (committed s')) = Success (Some c).
Proof.
  unfold prepare_chaindata_env. intros (o & s1 & _ & (u & s2 & _ & (t & s3 & Es & (r & s4 & Ec & Hk)%op_bind_inv)%op_bind_inv)%op_bind_inv)%op_bind_inv.
  destruct r as [t' [c|]]; [|done]. destruct (Z.eqb_spec (ChainConfig.identifier_ c) (network_id settings)) as [Hid|]; cbn [negb] in Hk; [|done].
  apply op_bind_inv in Hk as (j & s5 & Ej & (x & s6 & Ex & Hk)%op_bind_inv). injection Hk as <- <-.
  unfold lift in Ej. injection Ej as _ <-. exists c. split_and!; [done | done |].
  destruct (prepare_chain_mode _ _ _ _ _ _ _ (prepare_schema_mode _ _ _ Es) Ec) as [Hr Hc].
  unfold commit_store in Ex. cbn in Ex. injection Ex as <- <-. cbn [committed]. by rewrite (same_chain _ _ (same_committed t' _ Hr)).
Qed.

(** A database with another chain is left alone. *)
Lemma prepare_refuses settings path d s c : opens settings path d -> is_pristine (committed s) = false ->
  schema_ok (start_write (committed s)) -> read_chain_config (start_write (committed s)) = Success (Some c) ->
  ChainConfig.identifier_ c <> network_id settings ->
  prepare_chaindata_env open_ limit set_option readers settings path d true s = (Failure (Thrown std_logic_error), s).
Proof.
  intros [[o Ho] Hro] Hp (v & Hs & Hv) Hc Hid. unfold prepare_chaindata_env, op_bind, lift. rewrite Ho.
  cbn [EnvConfig.readonly bootstrap_config]. rewrite Hro. unfold prepare_schema. rewrite Hp. cbn [negb].
  unfold op_bind, lift. rewrite Hs, Hv. cbn [op_ret]. unfold prepare_chain, op_bind, lift. rewrite Hc. cbn [op_ret].
  rewrite (proj2 (Z.eqb_neq _ _)) by done. done.
Qed.

(** An environment whose schema is too old, or unknown. *)
Lemma prepare_old settings path d s v : opens settings path d -> is_pristine (committed s) = false ->
  read_schema_version (start_write (committed s)) = Success v ->
  match v with Some v => version_lt v kRequiredSchemaVersion = true | None => True end ->
  prepare_chaindata_env open_ limit set_option readers settings path d true s =
    (match v with Some _ => Fault UndefinedBehaviour | None => Failure (Thrown db_Exception) end, s).
Proof.
  intros [[o Ho] Hro] Hp Hs Hv. unfold prepare_chaindata_env, op_bind, lift. rewrite Ho.
  cbn [EnvConfig.readonly bootstrap_config]. rewrite Hro. unfold prepare_schema. rewrite Hp. cbn [negb].
  unfold op_bind, lift. rewrite Hs. destruct v as [v|]; [by rewrite Hv | done].
Qed.
End Starts.

End Phases.

(** What a start for the chain [c] leaves: every table of the chain data, a schema version that is good enough, and the chain. *)
Definition established `{MdbxEnv} `{Json} (c : ChainConfig.t) (e : env) : Prop :=
  (forall name, name ∈ kChainDataTables -> has_map name (start_write e) = true) /\
  (exists v, read_schema_version (start_write e) = Success (Some v) /\ version_lt v kRequiredSchemaVersion = false) /\
  read_chain_config (start_write e) = Success (Some (forget_hashes c)).

(** C10: the start of the node on a new database gives it all the tables of the chain data, a schema version that
    is good enough and the chain that was asked for (but for its hashes, which are not stored), and restores the settings of the
    command line.  Wherever a start is cut off between its commits, the next start for the
    same chain succeeds and gives the same tables, version and chain; a later start for another chain is refused,
    and leaves the database as it is. *)
Theorem bootstrap_resumes `{MdbxLaws} `{!MdbxEnv} `{!MdbxEnvLaws} `{JsonLaws} open_ limit set_option readers
    (settings : NodeSettings) (path : Bytes) (d : disk) (e : env) (name : Bytes) (c : ChainConfig.t) :
  opens open_ limit set_option readers settings path d -> lookup_known_chain (network_id settings) = Some (name, c) ->
  is_pristine e = true ->
  let start settings path d e := prepare_chaindata_env open_ limit set_option readers settings path d true (mk_store e []) in
  exists s', start settings path d e = (Success (settled settings path d c), s') /\ established c (committed s') /\
    forall settings' path' d', opens open_ limit set_option readers settings' path' d' ->
      if decide (network_id settings' = network_id settings) then
        forall e', e' ∈ committed s' :: past s' ->
          exists s'', start settings' path' d' e' = (Success (settled settings' path' d' c), s'') /\ established c (committed s'')
      else start settings' path' d' (committed s') = (Failure (Thrown std_logic_error), mk_store (committed s') []).
Proof.
  intros Ho Hk Hp start. pose proof (pristine c e Hp) as Hph.
  destruct (prepare_succeeds _ _ _ _ settings path d (mk_store e []) name c Ho Hk Hph) as (s' & E & Hph' & Hc & Htb & So & Np & Hpast).
  destruct (lookup_ready _ _ _ Hk) as [Hid Hj].
  exists s'. split_and!; [exact E | done |].
  - intros settings' path' d' Ho'. case_decide as Hn.
    + intros e' He'. rewrite <- Hn in Hk. assert (Hp' : phase c e').
      { apply elem_of_cons in He' as [->|He']; [done|]. destruct (Hpast e' He') as [He''|]; [by apply elem_of_nil in He'' | done]. }
      destruct (prepare_succeeds _ _ _ _ settings' path' d' (mk_store e' []) name c Ho' Hk Hp') as (s'' & E' & _ & Hc' & Htb' & So' & _). by exists s''.
    + apply (prepare_refuses _ _ _ _ settings' path' d' (mk_store (committed s') []) (forget_hashes c)); try done. cbn. by rewrite Hid.
Qed.

(** A mainnet node on a disk without a database. *)
Definition sample_node (id : Z) : NodeSettings :=
  {| network_id := id; chaindata_env_config := EnvConfig.make []; chain_config := None |}.

Definition sample_env : @env _ model_env := (None : option (gmap Bytes (list row))).

Lemma bootstrap_resumes_witness : exists s',
  @prepare_chaindata_env _ model_env model_json (λ _, Success 4096) 1000 (λ _ _, Success ()) (Success ())
    (sample_node 1) (str "/z") (DirectoryWith None) true (mk_store sample_env []) =
  (Success (settled (sample_node 1) (str "/z") (DirectoryWith None) kMainNetConfig), s').
Proof.
  destruct (@bootstrap_resumes _ model_mdbx_laws model_env model_env_laws model_json model_json_laws
    (λ _, Success 4096) 1000 (λ _ _, Success ()) (Success ()) (sample_node 1) (str "/z") (DirectoryWith None) sample_env (str "mainnet") kMainNetConfig)
    as (s' & E & _).
  - split; [eexists; reflexivity | reflexivity].
  - reflexivity.
  - reflexivity.
  - exists s'. exact E.
Defined.

End BootstrapFacts.
