(* ===== verification/AddressBook.v ===== *)
(** * The address book

    Model of [src/src/infra/network/addressbook.cpp] and [addressbook.hpp]: the
    known services, their references from the "new" and "tried" buckets, and the
    random order in which they are handed out.

    [list_] and [list_index_] together are a map from the id of an entry to the
    endpoint under which it is indexed and to its [NodeServiceInfo]: an element
    of [list_] is only ever reached through the index.  A failed [ASSERT] is the
    fault [AssertionFailed].  Draws of random numbers and the time are arguments
    of the operations that use them; the mutex that every public operation holds
    throughout makes them atomic. *)

From stdpp Require Import gmap.
From S2P Require Import Prelude Text Stream Boost Serialize Types Random Protocol Addresses Payloads.
#[local] Open Scope Z_scope.

Module AddressBook.

Definition kBucketSize : Z := 64.
Definition kNewBucketsCount : Z := 1024.
Definition kTriedBucketsCount : Z := 256.
Definition kMaxNewBucketReferences : Z := 8.
Definition kNewBucketsPerSourceGroup : Z := 64.
Definition kTriedBucketsPerGroup : Z := 8.
Definition kIPv4SubnetGroupsPrefix : Z := 16.
Definition kIPv6SubnetGroupsPrefix : Z := 64.

(** The union of the coordinates and [xy], on a little endian machine. *)
Record SlotAddress := { slot_y : Z; slot_x : Z }.
Definition xy (s : SlotAddress) : Z := slot_y s + 65536 * slot_x s.

Record AddressBookEntry := Entry { endpoint : IPEndpoint.t; list_it : NodeServiceInfo.t }.

Record t := mk {
  key_ : Bytes;
  last_used_id_ : Z;
  new_entries_size_ : Z;
  tried_entries_size_ : Z;
  randomly_ordered_ids_ : list Z;
  new_buckets_ : gmap Z Z;
  tried_buckets_ : gmap Z Z;
  list_index_ : gmap Z AddressBookEntry;
}.

(** The constructor, with the secret key that it draws. *)
Definition make (key : Bytes) : t := mk key 1 0 0 [] ∅ ∅ ∅.

Definition set_last_id v (b : t) := mk (key_ b) v (new_entries_size_ b) (tried_entries_size_ b)
  (randomly_ordered_ids_ b) (new_buckets_ b) (tried_buckets_ b) (list_index_ b).
Definition set_new_size v (b : t) := mk (key_ b) (last_used_id_ b) (wrap 32 v) (tried_entries_size_ b)
  (randomly_ordered_ids_ b) (new_buckets_ b) (tried_buckets_ b) (list_index_ b).
Definition set_tried_size v (b : t) := mk (key_ b) (last_used_id_ b) (new_entries_size_ b) (wrap 32 v)
  (randomly_ordered_ids_ b) (new_buckets_ b) (tried_buckets_ b) (list_index_ b).
Definition set_ids v (b : t) := mk (key_ b) (last_used_id_ b) (new_entries_size_ b) (tried_entries_size_ b)
  v (new_buckets_ b) (tried_buckets_ b) (list_index_ b).
Definition set_new v (b : t) := mk (key_ b) (last_used_id_ b) (new_entries_size_ b) (tried_entries_size_ b)
  (randomly_ordered_ids_ b) v (tried_buckets_ b) (list_index_ b).
Definition set_tried_buckets v (b : t) := mk (key_ b) (last_used_id_ b) (new_entries_size_ b) (tried_entries_size_ b)
  (randomly_ordered_ids_ b) (new_buckets_ b) v (list_index_ b).
Definition set_index v (b : t) := mk (key_ b) (last_used_id_ b) (new_entries_size_ b) (tried_entries_size_ b)
  (randomly_ordered_ids_ b) (new_buckets_ b) (tried_buckets_ b) v.

Definition modify (f : t -> t) : op t unit := λ b, (Success (), f b).
Definition get {A} (f : t -> A) : op t A := λ b, (Success (f b), b).
Definition lift {A} (r : outcome A) : op t A := λ b, (r, b).

(** An assignment through the pointer that a lookup returned. *)
Definition with_info (f : NodeServiceInfo.t -> NodeServiceInfo.t) (e : AddressBookEntry) : AddressBookEntry :=
  Entry (endpoint e) (f (list_it e)).
Definition update_info (id : Z) (f : NodeServiceInfo.t -> NodeServiceInfo.t) : op t unit :=
  modify (λ b, set_index (alter (with_info f) id (list_index_ b)) b).

(** [lookup_entry] by id, where the result must exist. *)
Definition lookup_id (id : Z) (b : t) : option NodeServiceInfo.t := list_it <$> (list_index_ b !! id).
Definition must_find (id : Z) : op t NodeServiceInfo.t :=
  λ b, match lookup_id id b with
       | Some info => (Success info, b)
       | None => (Fault AssertionFailed, b)
       end.

Section AddressBook.
Context `{Boost} `{Crypto}.

(** [lookup_entry] by endpoint: the id of the entry. *)
Definition lookup_endpoint (e : IPEndpoint.t) (b : t) : option (Z * NodeServiceInfo.t) :=
  match list_find (λ p, IPEndpoint.compare (endpoint p.2) e = Eq) (map_to_list (list_index_ b)) with
  | Some (_, (id, entry)) => Some (id, list_it entry)
  | None => None
  end.

Definition size (b : t) : Z := Z.of_nat (base.size (list_index_ b)).
Definition size_by_buckets (b : t) : Z * Z := (new_entries_size_ b, tried_entries_size_ b).
Definition empty (b : t) : bool := size b =? 0.
Definition contains_endpoint (e : IPEndpoint.t) (b : t) : bool :=
  match lookup_endpoint e b with Some _ => true | None => false end.
Definition contains_service (s : NodeService.t) (b : t) : bool := contains_endpoint (NodeService.endpoint_ s) b.
Definition contains_id (id : Z) (b : t) : bool := bool_decide (is_Some (list_index_ b !! id)).

(** ** Slots *)

(** [SipHash24] over the key and the accumulated data. *)
Definition sip (key data : Bytes) : outcome Z :=
  if decide (length key = 16%nat) then Success (siphash24 key data) else Fault AssertionFailed.

Definition type_value (t : IPAddressType) : Z := match t with kIPv4 => 1 | kIPv6 => 4 end.

Definition compute_group (a : address) : outcome Bytes :=
  if negb (IPAddress.is_routable a) then Fault AssertionFailed
  else
    let ret := [1; type_value (IPAddress.get_type a)] in
    let prefix := match IPAddress.get_type a with
                  | kIPv4 => kIPv4SubnetGroupsPrefix
                  | kIPv6 => kIPv6SubnetGroupsPrefix
                  end in
    let? subnet := IPSubNet.calculate_subnet_base_address a prefix in
    Success (ret ++ to_bytes subnet).

Definition get_new_slot (service : NodeServiceInfo.t) (source : address) (b : t) : outcome SlotAddress :=
  let remote := NodeService.endpoint_ (NodeServiceInfo.service_ service) in
  let? source_group := compute_group source in
  let? service_group := compute_group (IPEndpoint.address_ remote) in
  let? hash1 := sip (key_ b) (service_group ++ source_group) in
  let? hash2 := sip (key_ b) (source_group ++ int_bytes uint64_t (hash1 mod kNewBucketsPerSourceGroup)) in
  let x := wrap 16 (hash2 mod kNewBucketsCount) in
  let? hash3 := sip (key_ b) (str "N" ++ int_bytes uint16_t x ++ IPEndpoint.to_bytes remote) in
  Success {| slot_y := wrap 16 (hash3 mod kBucketSize); slot_x := x |}.

Definition get_tried_slot (service : NodeServiceInfo.t) (b : t) : outcome SlotAddress :=
  let remote := NodeService.endpoint_ (NodeServiceInfo.service_ service) in
  let? service_group := compute_group (IPEndpoint.address_ remote) in
  let service_key := IPEndpoint.to_bytes remote in
  let? hash1 := sip (key_ b) service_key in
  let? hash2 := sip (key_ b) (service_group ++ int_bytes uint64_t (hash1 mod kTriedBucketsPerGroup)) in
  let x := wrap 16 (hash2 mod kTriedBucketsCount) in
  let? hash3 := sip (key_ b) (str "T" ++ int_bytes uint16_t x ++ IPEndpoint.to_bytes remote) in
  Success {| slot_y := wrap 16 (hash3 mod kBucketSize); slot_x := x |}.

(** ** The random order *)

(** [randomly_ordered_ids_[i]] *)
Definition id_at (i : Z) (b : t) : option Z := randomly_ordered_ids_ b !! Z.to_nat i.

Definition swap_randomly_ordered_ids (i j : Z) : op t unit :=
  λ b,
    if i =? j then (Success (), b)
    else match id_at i b, id_at j b with
         | Some id_at_i, Some id_at_j =>
             (must_find id_at_i >>; must_find id_at_j >>;
              update_info id_at_i (NodeServiceInfo.set_random_pos j) >>;
              update_info id_at_j (NodeServiceInfo.set_random_pos i) >>;
              modify (λ b, set_ids (<[Z.to_nat j := id_at_i]> (<[Z.to_nat i := id_at_j]> (randomly_ordered_ids_ b))) b)) b
         | _, _ => (Fault AssertionFailed, b)
         end.

(** ** Entries and buckets *)

Definition erase_new_entry (entry_id : Z) : op t unit :=
  if entry_id =? 0 then op_ret ()
  else
    entry <~ must_find entry_id;;
    op_assert (bool_decide (NodeServiceInfo.new_refs_ entry = ∅)) >>;
    op_assert (bool_decide (NodeServiceInfo.tried_ref_ entry = None)) >>;
    ids <~ get randomly_ordered_ids_;;
    swap_randomly_ordered_ids (NodeServiceInfo.random_pos_ entry) (wrap 32 (zlen ids - 1)) >>;
    ids <~ get randomly_ordered_ids_;;
    op_assert (bool_decide (last ids = Some entry_id)) >>;
    modify (λ b, set_ids (removelast (randomly_ordered_ids_ b)) b) >>;
    modify (λ b, set_new_size (new_entries_size_ b - 1) b) >>;
    modify (λ b, set_index (delete entry_id (list_index_ b)) b).

Definition clear_new_slot (slot_address : SlotAddress) (erase_unreferenced_entry : bool) : op t unit :=
  op_assert ((slot_x slot_address <? kNewBucketsCount) && (slot_y slot_address <? kBucketSize)) >>;
  buckets <~ get new_buckets_;;
  match buckets !! xy slot_address with
  | None => op_ret ()
  | Some entry_id =>
      service_info <~ must_find entry_id;;
      op_assert (negb (entry_id =? 0)) >>;
      op_assert (bool_decide (xy slot_address ∈ NodeServiceInfo.new_refs_ service_info)) >>;
      let refs := NodeServiceInfo.new_refs_ service_info ∖ {[xy slot_address]} in
      update_info entry_id (NodeServiceInfo.set_new_refs refs) >>;
      let erase := if negb (bool_decide (refs = ∅)) || bool_decide (is_Some (NodeServiceInfo.tried_ref_ service_info))
                   then false else erase_unreferenced_entry in
      (if erase then erase_new_entry entry_id else op_ret ()) >>;
      modify (λ b, set_new (delete (xy slot_address) (new_buckets_ b)) b)
  end.

(** [ASSERT(new_refs_.emplace(xy).second)] and [ASSERT(new_buckets_.emplace(xy, id).second)] *)
Definition put_new_ref (slot_address : SlotAddress) (entry_id : Z) : op t unit :=
  service_info <~ must_find entry_id;;
  op_assert (bool_decide (xy slot_address ∉ NodeServiceInfo.new_refs_ service_info)) >>;
  update_info entry_id (NodeServiceInfo.set_new_refs ({[xy slot_address]} ∪ NodeServiceInfo.new_refs_ service_info)) >>;
  buckets <~ get new_buckets_;;
  op_assert (bool_decide (buckets !! xy slot_address = None)) >>;
  modify (λ b, set_new (<[xy slot_address := entry_id]> (new_buckets_ b)) b).

(** The eviction from a tried slot that is taken. *)
Definition evict_tried (tried_slot_address : SlotAddress) (evict_entry_id : Z) : op t unit :=
  evict_service_info <~ must_find evict_entry_id;;
  op_assert (bool_decide (NodeServiceInfo.tried_ref_ evict_service_info = Some (xy tried_slot_address))) >>;
  op_assert (bool_decide (NodeServiceInfo.new_refs_ evict_service_info = ∅)) >>;
  update_info evict_entry_id (NodeServiceInfo.set_tried_ref None) >>;
  modify (λ b, set_tried_buckets (delete (xy tried_slot_address) (tried_buckets_ b)) b) >>;
  modify (λ b, set_tried_size (tried_entries_size_ b - 1) b) >>;
  slot_address <~ (λ b, lift (get_new_slot evict_service_info (NodeServiceInfo.origin_ evict_service_info) b) b);;
  clear_new_slot slot_address true >>;
  put_new_ref slot_address evict_entry_id >>;
  modify (λ b, set_new_size (new_entries_size_ b + 1) b).

(** The reference from a tried slot, which must be free. *)
Definition put_tried_ref (tried_slot_address : SlotAddress) (entry_id : Z) : op t unit :=
  tried <~ get tried_buckets_;;
  op_assert (bool_decide (tried !! xy tried_slot_address = None)) >>;
  modify (λ b, set_tried_buckets (<[xy tried_slot_address := entry_id]> (tried_buckets_ b)) b) >>;
  update_info entry_id (NodeServiceInfo.set_tried_ref (Some (xy tried_slot_address))) >>;
  modify (λ b, set_tried_size (tried_entries_size_ b + 1) b).

Definition make_entry_tried (entry_id : Z) : op t unit :=
  service_info <~ must_find entry_id;;
  if bool_decide (is_Some (NodeServiceInfo.tried_ref_ service_info)) then op_ret ()
  else
    let refs := NodeServiceInfo.new_refs_ service_info in
    modify (λ b, set_new_size (new_entries_size_ b - (if bool_decide (refs = ∅) then 0 else 1)) b) >>;
    modify (λ b, set_new (set_fold (λ s m, delete s m) (new_buckets_ b) refs) b) >>;
    update_info entry_id (NodeServiceInfo.set_new_refs ∅) >>;
    tried_slot_address <~ (λ b, lift (get_tried_slot service_info b) b);;
    tried <~ get tried_buckets_;;
    (match tried !! xy tried_slot_address with
     | Some evict_entry_id => evict_tried tried_slot_address evict_entry_id
     | None => op_ret ()
     end) >>;
    put_tried_ref tried_slot_address entry_id.

(** ** Insertions *)

(** [list_index_.insert]: nothing happens when the id or the endpoint is taken. *)
Definition index_insert (id : Z) (e : IPEndpoint.t) (info : NodeServiceInfo.t) (b : t) : t :=
  if contains_id id b || contains_endpoint e b then b
  else set_index (<[id := Entry e info]> (list_index_ b)) b.

Definition with_service (f : NodeService.t -> NodeService.t) (o : NodeServiceInfo.t) : NodeServiceInfo.t :=
  NodeServiceInfo.set_service (f (NodeServiceInfo.service_ o)) o.

(** The id, and whether the index has taken the entry: otherwise the pointer
    returned is to an element of [list_] that nothing else reaches. *)
Definition insert_entry (service : NodeService.t) (source : address) (time_penalty : Z) : op t (Z * bool) :=
  new_id <~ get last_used_id_;;
  modify (λ b, set_last_id (wrap 32 (last_used_id_ b + 1)) b) >>;
  let service_info := with_service (λ s, NodeService.set_time (NodeService.time_ s - time_penalty) s)
                        (NodeServiceInfo.make service source) in
  slot_address <~ (λ b, lift (get_new_slot service_info source b) b);;
  clear_new_slot slot_address true >>;
  let service_info := NodeServiceInfo.set_new_refs {[xy slot_address]} service_info in
  buckets <~ get new_buckets_;;
  op_assert (bool_decide (buckets !! xy slot_address = None)) >>;
  modify (λ b, set_new (<[xy slot_address := new_id]> (new_buckets_ b)) b) >>;
  ids <~ get randomly_ordered_ids_;;
  let service_info := NodeServiceInfo.set_random_pos (wrap 32 (zlen ids)) service_info in
  modify (λ b, set_ids (randomly_ordered_ids_ b ++ [new_id]) b) >>;
  taken <~ get (λ b, contains_id new_id b || contains_endpoint (NodeService.endpoint_ service) b);;
  modify (index_insert new_id (NodeService.endpoint_ service) service_info) >>;
  modify (λ b, set_new_size (new_entries_size_ b + 1) b) >>;
  op_ret (new_id, negb taken).

(** One more reference to an entry that has [refs]. *)
Definition add_new_ref (slot_address : SlotAddress) (entry_id : Z) (refs : gset Z) : op t unit :=
  buckets <~ get new_buckets_;;
  if bool_decide (xy slot_address ∈ refs)
  then op_assert (bool_decide (is_Some (buckets !! xy slot_address)))
  else
    (match buckets !! xy slot_address with
     | Some id => op_assert (negb (id =? entry_id)) >>; clear_new_slot slot_address true
     | None => op_ret ()
     end) >>;
    put_new_ref slot_address entry_id >>;
    entry <~ must_find entry_id;;
    if Z.of_nat (base.size (NodeServiceInfo.new_refs_ entry)) =? 1
    then modify (λ b, set_new_size (new_entries_size_ b + 1) b) else op_ret ().

Definition update_entry (entry_id : Z) (service : NodeService.t) (source : address)
    (time_penalty now : Z) (draw : Z -> Z -> Z) : op t unit :=
  let currently_online := now - NodeService.time_ service <? 24 * 3600 in
  let update_interval := if currently_online then 3600 else 24 * 3600 in
  entry <~ must_find entry_id;;
  (if NodeService.time_ (NodeServiceInfo.service_ entry) <? NodeService.time_ service - update_interval - time_penalty
   then update_info entry_id
          (with_service (NodeService.set_time (Z.max kTimeInit (NodeService.time_ service - time_penalty))))
   else op_ret ()) >>;
  update_info entry_id (with_service (λ s,
    NodeService.set_services (Z.lor (NodeService.services_ s) (NodeService.services_ service)) s)) >>;
  entry <~ must_find entry_id;;
  let refs := NodeServiceInfo.new_refs_ entry in
  let tried := bool_decide (is_Some (NodeServiceInfo.tried_ref_ entry)) in
  op_assert (xorb (negb (bool_decide (refs = ∅))) tried) >>;
  if (NodeService.time_ (NodeServiceInfo.service_ entry) <? NodeService.time_ service) || tried
     || (Z.of_nat (base.size refs) =? kMaxNewBucketReferences)
  then op_ret ()
  else
    let factor := wrap 32 (Z.shiftl 1 (Z.of_nat (base.size refs))) in
    if negb (Random.randomize draw 0 (wrap 32 (factor - 1)) =? 0) then op_ret ()
    else
      slot_address <~ (λ b, lift (get_new_slot entry source b) b);;
      add_new_ref slot_address entry_id refs.

(** Whether the service was inserted. *)
Definition insert_or_update_impl (service : NodeService.t) (source : address)
    (time_penalty now : Z) (draw : Z -> Z -> Z) : op t bool :=
  let time_penalty := if decide (source = IPEndpoint.address_ (NodeService.endpoint_ service)) then 0 else time_penalty in
  λ b,
    match lookup_endpoint (NodeService.endpoint_ service) b with
    | Some (entry_id, _) =>
        (update_entry entry_id service source time_penalty now draw >>; op_ret false) b
    | None =>
        (entry <~ insert_entry service source time_penalty;;
         (if entry.2 then update_info entry.1
            (with_service (NodeService.set_time (Z.max kTimeInit (NodeService.time_ service - time_penalty))))
          else op_ret ()) >>;
         op_ret true) b
    end.

Definition insert_or_update (service : NodeService.t) (source : address)
    (time_penalty now : Z) (draw : Z -> Z -> Z) : op t bool :=
  insert_or_update_impl service source time_penalty now draw.

(** The loop over a vector of services: what is left of it, and how many were
    added; each round has its own draws. *)
Fixpoint insert_or_update_loop (services : list NodeService.t) (source : address) (time_penalty now : Z)
    (unique_endpoints : list IPEndpoint.t) (draw : nat -> Z -> Z -> Z) : op t (list NodeService.t * Z) :=
  match services with
  | [] => op_ret ([], 0)
  | it :: rest =>
      let discard := insert_or_update_loop rest source time_penalty now in
      let draw' := λ i, draw (S i) in
      if Z.land (NodeService.services_ it) kNodeNetwork =? 0 then discard unique_endpoints draw'
      else if existsb (λ e, bool_decide (IPEndpoint.compare (NodeService.endpoint_ it) e = Eq)) unique_endpoints
      then discard unique_endpoints draw'
      else
        let unique_endpoints := NodeService.endpoint_ it :: unique_endpoints in
        let it := if (NodeService.time_ it <? kTimeInit) || (now + 600 <? NodeService.time_ it)
                  then NodeService.set_time (now - 5 * 86400) it else it in
        added <~ insert_or_update_impl it source time_penalty now (draw O);;
        left <~ discard unique_endpoints draw';;
        op_ret (if added then (it :: left.1, left.2 + 1) else left)
  end.

Definition insert_or_update_all (services : list NodeService.t) (source : address) (time_penalty now : Z)
    (draw : nat -> Z -> Z -> Z) : op t (list NodeService.t * bool) :=
  left <~ insert_or_update_loop services source time_penalty now [] draw;;
  op_ret (left.1, 0 <? left.2).

(** ** Outcomes of connections *)

Definition set_good (remote : IPEndpoint.t) (version_info : MsgVersionPayload.t) (time : Z) : op t bool :=
  λ b,
    match lookup_endpoint remote b with
    | None => (Success false, b)
    | Some (entry_id, service_info) =>
        (update_info entry_id (λ i,
           NodeServiceInfo.set_attempts 0 (NodeServiceInfo.set_success time (NodeServiceInfo.set_attempt time
             (with_service (λ s, NodeService.set_time time
                (NodeService.set_services (MsgVersionPayload.services_ version_info) s))
               (NodeServiceInfo.set_user_agent (MsgVersionPayload.user_agent_ version_info) i))))) >>;
         (if bool_decide (NodeServiceInfo.tried_ref_ service_info = None) then make_entry_tried entry_id else op_ret ()) >>;
         op_ret true) b
    end.

Definition set_failed (remote : IPEndpoint.t) (time : Z) : op t bool :=
  λ b,
    match lookup_endpoint remote b with
    | None => (Success false, b)
    | Some (entry_id, service_info) =>
        (update_info entry_id (λ i,
           NodeServiceInfo.set_attempts (wrap 32 (NodeServiceInfo.connection_attempts_ i + 1))
             (NodeServiceInfo.set_attempt time i)) >>;
         (if bool_decide (NodeServiceInfo.tried_ref_ service_info = None) then make_entry_tried entry_id else op_ret ()) >>;
         op_ret true) b
    end.

Definition set_tried (remote : IPEndpoint.t) (time : Z) : op t bool :=
  λ b,
    match lookup_endpoint remote b with
    | None => (Success false, b)
    | Some (entry_id, service_info) =>
        (update_info entry_id (NodeServiceInfo.set_attempt time) >>;
         (if bool_decide (NodeServiceInfo.tried_ref_ service_info = None) then make_entry_tried entry_id else op_ret ()) >>;
         op_ret true) b
    end.

(** ** Random selections *)

Definition type_matches (type : option IPAddressType) (info : NodeServiceInfo.t) : bool :=
  match type with
  | Some ty => bool_decide (type_value (IPAddress.get_type (IPEndpoint.address_
                 (NodeService.endpoint_ (NodeServiceInfo.service_ info)))) = type_value ty)
  | None => true
  end.

(** The loop: [fuel] ids from position [i] on are still to be considered. *)
Fixpoint random_services_loop (fuel : nat) (i count : Z) (type : option IPAddressType) (now : Z)
    (draw : nat -> Z -> Z -> Z) (ret : list NodeService.t) : op t (list NodeService.t) :=
  match fuel with
  | O => op_ret ret
  | S fuel =>
      if count <=? zlen ret then op_ret ret
      else
        ids <~ get randomly_ordered_ids_;;
        let random_index := Random.randomize (draw O) 0 (zlen ids - i - 1) + i in
        swap_randomly_ordered_ids (wrap 32 i) (wrap 32 random_index) >>;
        ids <~ get randomly_ordered_ids_;;
        service_info <~ must_find (default 0 (ids !! Z.to_nat i));;
        let next := random_services_loop fuel (i + 1) count type now (λ n, draw (S n)) in
        if negb (type_matches type service_info) then next ret
        else if NodeServiceInfo.is_bad now service_info then next ret
        else if existsb (λ s, bool_decide (IPEndpoint.compare (NodeService.endpoint_ s)
                  (NodeService.endpoint_ (NodeServiceInfo.service_ service_info)) = Eq)) ret then next ret
        else next (ret ++ [NodeServiceInfo.service_ service_info])
  end.

Definition get_random_services (max_count max_percentage : Z) (type : option IPAddressType) (now : Z)
    (draw : nat -> Z -> Z -> Z) : op t (list NodeService.t) :=
  ids <~ get randomly_ordered_ids_;;
  if bool_decide (ids = []) then op_ret []
  else
    let count := zlen ids in
    let count := if 0 <? max_percentage then wrap 64 (count * max_percentage) / 100 else count in
    let count := if 0 <? max_count then Z.min count max_count else count in
    random_services_loop (length ids) 0 count type now draw [].

End AddressBook.
End AddressBook.
