(* ===== verification/SipHash.v ===== *)
(** * SipHash

    [src/src/core/crypto/evp_mac.hpp]: the keyed hash by which the address book finds the slot of a peer, a wrapper
    of OpenSSL's MAC contexts.  OpenSSL is the class [EvpMac]; its laws say that a context computes SipHash as
    Aumasson and Bernstein define it, which is given here, of what it has been given since it was initialized. *)

From S2P Require Import Prelude Text Stream Boost Serialize Types Random Protocol Addresses Payloads AddressBook.
#[local] Open Scope Z_scope.

(** ** The definition *)

Definition rotl (x r : Z) : Z := Z.lor (wrap 64 (Z.shiftl x r)) (Z.shiftr x (64 - r)).

Record lanes := Lanes { v0 : Z; v1 : Z; v2 : Z; v3 : Z }.

Definition sipround (v : lanes) : lanes :=
  let '(Lanes v0 v1 v2 v3) := v in
  let v0 := wrap 64 (v0 + v1) in
  let v1 := Z.lxor (rotl v1 13) v0 in
  let v0 := rotl v0 32 in
  let v2 := wrap 64 (v2 + v3) in
  let v3 := Z.lxor (rotl v3 16) v2 in
  let v0 := wrap 64 (v0 + v3) in
  let v3 := Z.lxor (rotl v3 21) v0 in
  let v2 := wrap 64 (v2 + v1) in
  let v1 := Z.lxor (rotl v1 17) v2 in
  let v2 := rotl v2 32 in
  Lanes v0 v1 v2 v3.

Definition rounds (n : nat) (v : lanes) : lanes := Nat.iter n sipround v.

Definition compress (c : nat) (m : Z) (v : lanes) : lanes :=
  let v := rounds c (Lanes (v0 v) (v1 v) (v2 v) (Z.lxor (v3 v) m)) in
  Lanes (Z.lxor (v0 v) m) (v1 v) (v2 v) (v3 v).

(** Words of eight octets, and the octets that are left. *)
Fixpoint absorb (c : nat) (data : Bytes) (v : lanes) : lanes * Bytes :=
  match data with
  | a :: b :: d :: e :: f :: g :: h :: i :: rest => absorb c rest (compress c (le_value [a; b; d; e; f; g; h; i]) v)
  | _ => (v, data)
  end.

Definition siphash (c d : nat) (key data : Bytes) : Z :=
  let k0 := le_value (take 8 key) in
  let k1 := le_value (take 8 (drop 8 key)) in
  let v := Lanes (Z.lxor k0 0x736f6d6570736575) (Z.lxor k1 0x646f72616e646f6d)
                 (Z.lxor k0 0x6c7967656e657261) (Z.lxor k1 0x7465646279746573) in
  let (v, rest) := absorb c data v in
  let v := compress c (Z.lor (Z.shiftl (zlen data mod 256) 56) (le_value rest)) v in
  let v := rounds d (Lanes (v0 v) (v1 v) (Z.lxor (v2 v) 0xff) (v3 v)) in
  Z.lxor (Z.lxor (v0 v) (v1 v)) (Z.lxor (v2 v) (v3 v)).

(** ** OpenSSL *)

(** The parameters of a context: octets of the result, and the rounds. *)
Record mac_params := MacParams { mac_len : Z; c_rounds : nat; d_rounds : nat }.

Class EvpMac := {
  mac_ctx : Type;
  mac_ctx_new : mac_ctx;
  (** [EVP_MAC_init], [EVP_MAC_update] and [EVP_MAC_final] with what they return. *)
  mac_init : Bytes -> mac_params -> mac_ctx -> bool * mac_ctx;
  mac_update : Bytes -> mac_ctx -> bool * mac_ctx;
  mac_final : mac_ctx -> option Bytes * mac_ctx;
}.

(** [keyed]: the key and the parameters of a context, and what it has been given. *)
Class EvpMacLaws `{EvpMac} (keyed : mac_ctx -> option (Bytes * mac_params * Bytes)) : Prop := {
  mac_init_keyed key p c : length key = 16%nat -> (mac_init key p c).1 = true /\ keyed (mac_init key p c).2 = Some (key, p, []);
  mac_update_keyed key p x d c : keyed c = Some (key, p, x) -> (mac_update d c).1 = true /\ keyed (mac_update d c).2 = Some (key, p, x ++ d);
  mac_final_keyed key p x c : keyed c = Some (key, p, x) -> mac_len p = 8 ->
    (mac_final c).1 = Some (le_bytes 8 (siphash (c_rounds p) (d_rounds p) key x)) /\ keyed (mac_final c).2 = Some (key, p, x);
}.

(** ** The wrapper *)

Module SipHash.
Section SipHash.
Context `{EvpMac}.

Record t := mk { params_ : mac_params; ctx_ : mac_ctx; ingested_size_ : Z }.

Definition set_ctx (c : mac_ctx) (h : t) : t := mk (params_ h) c (ingested_size_ h).

Definition init (key : Bytes) : op t unit :=
  λ h,
    let h := mk (params_ h) (ctx_ h) 0 in
    if negb (zlen key =? 16) then (Fault AssertionFailed, h)
    else
      let (ok, c) := mac_init key (params_ h) (ctx_ h) in
      if ok then (Success (), set_ctx c h) else (Fault AssertionFailed, set_ctx c h).

(** [init()], with a random key. *)
Definition init_random (draw : nat -> Z -> Z -> Z) : op t unit := init (Random.get_random_bytes draw 16).

(** The constructors. *)
Definition make (p : mac_params) (key : Bytes) : outcome unit * t := init key (mk p mac_ctx_new 0).
Definition make_keys (p : mac_params) (k0 k1 : Z) : outcome unit * t := make p (le_bytes 8 k0 ++ le_bytes 8 k1).

Definition update (data : Bytes) : op t unit :=
  λ h,
    if bool_decide (data = []) then (Success (), h)
    else
      let h := mk (params_ h) (ctx_ h) (wrap 64 (ingested_size_ h + zlen data)) in
      let (ok, c) := mac_update data (ctx_ h) in
      if ok then (Success (), set_ctx c h) else (Fault AssertionFailed, set_ctx c h).

(** An integer of [width] octets, in the order of the machine. *)
Definition update_integral (width : nat) (v : Z) : op t unit := update (le_bytes width v).

Definition finalize : op t Bytes :=
  λ h,
    let (mac, c) := mac_final (ctx_ h) in
    match mac with Some m => (Success m, set_ctx c h) | None => (Fault AssertionFailed, set_ctx c h) end.

Definition mac_size (h : t) : Z := mac_len (params_ h).
Definition ingested_size (h : t) : Z := ingested_size_ h.

Fixpoint updates (parts : list Bytes) : op t unit :=
  match parts with
  | [] => op_ret ()
  | d :: parts => update d >>; updates parts
  end.

Definition SipHash24 : mac_params := MacParams 8 2 4.

End SipHash.
End SipHash.

(** ** Properties *)

Module SipHashFacts.
Import SipHash.

(** The values of the test vectors of the paper and of Bitcoin. *)
Definition counting (n : nat) : Bytes := Z.of_nat <$> seq 0 n.

Example siphash_vectors :
  le_bytes 8 (siphash 2 4 (counting 16) (counting 15)) = [0xe5; 0x45; 0xbe; 0x49; 0x61; 0xca; 0x29; 0xa1] /\
  siphash 2 4 (counting 16) [] = 0x726fdb47dd0e0e31 /\ siphash 2 4 (counting 16) [0] = 0x74f839c593dc67fd /\
  siphash 2 4 (counting 16) (counting 8) = 0x93f5f5799a932462.
Proof. vm_compute. auto. Qed.

(** ** Range *)

Definition u64 (x : Z) : Prop := 0 <= x < 2 ^ 64.
Definition lanes_ok (v : lanes) : Prop := u64 (v0 v) /\ u64 (v1 v) /\ u64 (v2 v) /\ u64 (v3 v).

Lemma wrap_u64 x : u64 (wrap 64 x).
Proof. apply Z.mod_pos_bound. done. Qed.

Lemma below_u64 x : 0 <= x -> (x = 0 \/ Z.log2 x < 64) -> u64 x.
Proof. intros Hx [->|Hl]; [done|]. split; [done|]. destruct (Z.eq_dec x 0) as [->|]; [done|]. apply Z.log2_lt_pow2; lia. Qed.

Lemma log2_u64 x : u64 x -> Z.log2 x < 64.
Proof. intros [H0 H1]. destruct (Z.eq_dec x 0) as [->|]; [done|]. apply Z.log2_lt_pow2; lia. Qed.

Lemma lxor_u64 a b : u64 a -> u64 b -> u64 (Z.lxor a b).
Proof.
  intros Ha Hb. pose proof (log2_u64 a Ha). pose proof (log2_u64 b Hb). destruct Ha, Hb. apply below_u64; [apply Z.lxor_nonneg; lia|]. right.
  pose proof (Z.log2_lxor a b ltac:(lia) ltac:(lia)). lia.
Qed.

Lemma lor_u64 a b : u64 a -> u64 b -> u64 (Z.lor a b).
Proof.
  intros Ha Hb. pose proof (log2_u64 a Ha). pose proof (log2_u64 b Hb). destruct Ha, Hb. apply below_u64; [apply Z.lor_nonneg; lia|]. right.
  rewrite Z.log2_lor by lia. lia.
Qed.

Lemma rotl_u64 x r : u64 x -> 0 <= r <= 64 -> u64 (rotl x r).
Proof.
  intros [H0 H1] Hr. apply lor_u64; [apply wrap_u64|]. rewrite Z.shiftr_div_pow2 by lia. split; [apply Z.div_pos; lia|].
  apply Z.div_lt_upper_bound; [lia|]. assert (1 <= 2 ^ (64 - r)) by (apply (Z.pow_le_mono_r 2 0); lia). nia.
Qed.

Create HintDb sip.
#[local] Hint Resolve wrap_u64 lxor_u64 rotl_u64 : sip.

Lemma sipround_ok v : lanes_ok v -> lanes_ok (sipround v).
Proof. destruct v as [a b c d]. intros (Ha & Hb & Hc & Hd). unfold lanes_ok. cbn in *. split_and!; repeat first [apply wrap_u64 | apply lxor_u64 | apply rotl_u64; [|lia] | done]. Qed.

Lemma rounds_ok n v : lanes_ok v -> lanes_ok (rounds n v).
Proof. intros Hv. unfold rounds. induction n as [|n IH]; [done|]. by apply sipround_ok. Qed.

Lemma compress_ok c m v : u64 m -> lanes_ok v -> lanes_ok (compress c m v).
Proof.
  intros Hm (H0 & H1 & H2 & H3). unfold compress. destruct (rounds_ok c (Lanes (v0 v) (v1 v) (v2 v) (Z.lxor (v3 v) m))) as (R0 & R1 & R2 & R3).
  { unfold lanes_ok. cbn. auto with sip. }
  unfold lanes_ok. cbn. auto with sip.
Qed.

Lemma word_u64 bs : bytes_ok bs -> (length bs <= 8)%nat -> u64 (le_value bs).
Proof.
  intros Hb Hl. pose proof (le_value_bound bs Hb). split; [lia|]. apply Z.lt_le_trans with (256 ^ zlen bs); [lia|].
  change (2 ^ 64) with (256 ^ 8). apply Z.pow_le_mono_r; lia.
Qed.

Lemma absorb_ok c n data v : (length data <= n)%nat -> bytes_ok data -> lanes_ok v ->
  lanes_ok (absorb c data v).1 /\ bytes_ok (absorb c data v).2 /\ (length (absorb c data v).2 < 8)%nat.
Proof.
  revert data v. induction n as [|n IH]; intros data v Hn Hd Hv.
  { destruct data; [|cbn in Hn; lia]. cbn. split_and!; [done | done | lia]. }
  destruct data as [|a [|b [|d [|e [|f [|g [|h [|i rest]]]]]]]]; cbn [absorb]; try (cbn; split_and!; [done | done | lia]).
  assert (Hw : bytes_ok [a; b; d; e; f; g; h; i] /\ bytes_ok rest) by (change (a :: b :: d :: e :: f :: g :: h :: i :: rest) with ([a; b; d; e; f; g; h; i] ++ rest) in Hd; by apply Forall_app in Hd).
  destruct Hw as [Hw Hr]. apply IH; [cbn in Hn; lia | done|]. apply compress_ok; [|done]. by apply word_u64.
Qed.

Lemma siphash_range c d key data : bytes_ok key -> bytes_ok data -> u64 (siphash c d key data).
Proof.
  intros Hk Hd. unfold siphash. assert (K0 : u64 (le_value (take 8 key))) by (apply word_u64; [by apply Forall_take | rewrite length_take; lia]).
  assert (K1 : u64 (le_value (take 8 (drop 8 key)))) by (apply word_u64; [by apply Forall_take, Forall_drop | rewrite length_take; lia]).
  match goal with |- context [absorb c data ?v] => destruct (absorb_ok c (length data) data v) as (A1 & A2 & A3) end; [done | done | |].
  { unfold lanes_ok. cbn. split_and!; by apply lxor_u64. }
  destruct (absorb _ _ _) as [v rest]. cbn [fst snd] in *.
  assert (Hm : u64 (Z.lor (Z.shiftl (zlen data mod 256) 56) (le_value rest))).
  { apply lor_u64; [|apply word_u64; [done | lia]]. rewrite Z.shiftl_mul_pow2 by lia. pose proof (Z.mod_pos_bound (zlen data) 256 ltac:(lia)).
    unfold u64. change (2 ^ 64) with (256 * 2 ^ 56). nia. }
  pose proof (compress_ok c _ v Hm A1) as (C0 & C1 & C2 & C3). set (w := compress c _ v) in *.
  destruct (rounds_ok d (Lanes (v0 w) (v1 w) (Z.lxor (v2 w) 255) (v3 w))) as (R0 & R1 & R2 & R3).
  { unfold lanes_ok. cbn. split_and!; try done. by apply lxor_u64. }
  auto with sip.
Qed.

(** ** The wrapper *)

Section Wrapper.
Context `{EvpMacLaws}.

Lemma init_spec key h : length key = 16%nat -> exists c, init key h = (Success (), mk (params_ h) c 0) /\ keyed c = Some (key, params_ h, []).
Proof.
  intros Hk. destruct (mac_init_keyed key (params_ h) (ctx_ h) Hk) as [E1 E2]. exists (mac_init key (params_ h) (ctx_ h)).2. split; [|done].
  unfold init. cbn [params_ ctx_]. rewrite (proj2 (Z.eqb_eq _ _)) by lia. cbn [negb]. destruct (mac_init key (params_ h) (ctx_ h)) as [ok c]. cbn in *. by rewrite E1.
Qed.

Lemma updates_spec parts h key x : keyed (ctx_ h) = Some (key, params_ h, x) -> 0 <= ingested_size_ h < 2 ^ 64 ->
  exists c, updates parts h = (Success (), mk (params_ h) c (wrap 64 (ingested_size_ h + zlen (concat parts)))) /\
    keyed c = Some (key, params_ h, x ++ concat parts).
Proof.
  revert h x. induction parts as [|d parts IH]; intros h x E Hi; cbn [updates concat].
  - exists (ctx_ h). rewrite app_nil_r. split; [|done]. unfold op_ret, wrap. rewrite Z.add_0_r, Z.mod_small by done. by destruct h.
  - unfold op_bind, update. case_bool_decide as Hd; [subst d; by apply IH|]. destruct (mac_update_keyed key (params_ h) x d (ctx_ h) E) as [E1 E2].
    cbn [params_ ctx_]. destruct (mac_update d (ctx_ h)) as [ok c] eqn:Ec. cbn [fst snd] in *. rewrite E1.
    destruct (IH (mk (params_ h) c (wrap 64 (ingested_size_ h + zlen d))) (x ++ d) E2) as (c' & F1 & F2); [apply Z.mod_pos_bound; lia|].
    exists c'. cbn [params_ ingested_size_] in F1. unfold set_ctx. cbn [params_ ingested_size_]. rewrite F1. split; [|by rewrite app_assoc].
    do 2 f_equal. unfold wrap. rewrite Zplus_mod_idemp_l, length_app. f_equal. lia.
Qed.

(** A hasher that is given a key and then any parts computes the hash of the parts one after the other,
    whatever it was used for before. *)
Lemma hashes parts key h : length key = 16%nat -> mac_len (params_ h) = 8 -> exists h',
  (init key >>; updates parts >>; finalize) h = (Success (le_bytes 8 (siphash (c_rounds (params_ h)) (d_rounds (params_ h)) key (concat parts))), h') /\
  params_ h' = params_ h /\ ingested_size h' = wrap 64 (zlen (concat parts)).
Proof.
  intros Hk Hm. destruct (init_spec key h Hk) as (c & E & Hc). rewrite (op_bind_success _ _ _ _ _ E).
  destruct (updates_spec parts (mk (params_ h) c 0) key [] Hc) as (c' & E' & Hc'); [cbn; lia|]. rewrite (op_bind_success _ _ _ _ _ E').
  destruct (mac_final_keyed _ _ _ _ Hc' Hm) as [F1 F2]. unfold finalize. cbn [params_ ctx_] in *. destruct (mac_final c') as [mac c'']. cbn [fst snd] in *.
  rewrite F1. eexists. split; [reflexivity|]. done.
Qed.
End Wrapper.

(** The three hashes of a slot: what the address book takes for the hash of its key and of octets ([sip]) is what the calls of
    [get_new_slot] and [get_tried_slot] compute, on one hasher that is initialized before each. *)
Theorem slot_hash `{EvpMacLaws} `{Crypto} (key : Bytes) (parts : list Bytes) (h : t) :
  (forall k d, bytes_ok k -> bytes_ok d -> siphash24 k d = siphash 2 4 k d) ->
  length key = 16%nat -> bytes_ok key -> bytes_ok (concat parts) -> params_ h = SipHash24 ->
  exists mac h', (init key >>; updates parts >>; finalize) h = (Success mac, h') /\ params_ h' = SipHash24 /\
    AddressBook.sip key (concat parts) = Success (le_value mac).
Proof.
  intros Hs Hl Hk Hp E. destruct (hashes parts key h Hl) as (h' & E1 & E2 & _); [by rewrite E|]. rewrite E in *.
  eexists _, h'. split; [exact E1|]. split; [done|]. unfold AddressBook.sip. rewrite decide_True by done. f_equal. rewrite Hs by done.
  rewrite le_value_le_bytes. symmetry. apply Z.mod_small. by apply siphash_range.
Qed.

(** OpenSSL as a context that records what it is given. *)
Definition model_mac : EvpMac := {|
  mac_ctx := option (Bytes * mac_params * Bytes);
  mac_ctx_new := None;
  mac_init k p _ := (true, Some (k, p, []));
  mac_update d c := match c with Some (k, p, x) => (true, Some (k, p, x ++ d)) | None => (false, None) end;
  mac_final c := match c with Some (k, p, x) => (Some (le_bytes (Z.to_nat (mac_len p)) (siphash (c_rounds p) (d_rounds p) k x)), c) | None => (None, None) end;
|}.

Lemma model_mac_laws : @EvpMacLaws model_mac (λ c, c).
Proof.
  split.
  - done.
  - intros k p x d c. cbn. intros ->. done.
  - intros k p x c. cbn. intros -> E. cbn. by rewrite E.
Qed.

(** SipHash as it is. *)
Definition sip_crypto : Crypto := {| sha256 := λ _, []; siphash24 := siphash 2 4 |}.

Lemma slot_hash_witness : exists mac h', (@init model_mac (counting 16) >>; @updates model_mac [str "N"; [1; 0]] >>; @finalize model_mac)
    (@mk model_mac SipHash24 None 0) = (Success mac, h') /\ @AddressBook.sip sip_crypto (counting 16) (str "N" ++ [1; 0]) = Success (le_value mac).
Proof.
  destruct (@slot_hash model_mac (λ c, c) model_mac_laws sip_crypto (counting 16) [str "N"; [1; 0]] (@mk model_mac SipHash24 None 0)) as (mac & h' & E1 & _ & E2).
  - done.
  - reflexivity.
  - decide_now.
  - decide_now.
  - reflexivity.
  - exists mac, h'. split; [exact E1 | exact E2].
Defined.

End SipHashFacts.
