(* ===== verification/AddressBookFacts.v ===== *)
(** * Consistency of the address book

    The invariant that ties entries, buckets, counters and the random order
    together, and the proofs that the operations of the book keep it and never
    fail one of their assertions. *)

From stdpp Require Import gmap.
From S2P Require Import Prelude Text Stream Boost Serialize Types Random Protocol Addresses Payloads AddressBook.
#[local] Open Scope Z_scope.

Module AddressBookFacts.
Import AddressBook.

(** ** Operations that succeed *)

Definition runs {A} (m : op t A) (b : t) (Q : A -> t -> Prop) : Prop :=
  exists a b', m b = (Success a, b') /\ Q a b'.

Lemma runs_ret {A} (a : A) b Q : Q a b -> runs (op_ret a) b Q.
Proof. intros. by exists a, b. Qed.

Lemma runs_bind {A B} (m : op t A) (k : A -> op t B) b Q :
  runs m b (λ a b', runs (k a) b' Q) -> runs (op_bind m k) b Q.
Proof. intros (a & b' & E & a' & b'' & E' & HQ). exists a', b''. unfold op_bind. by rewrite E. Qed.

Lemma runs_mono {A} (m : op t A) b (Q Q' : A -> t -> Prop) :
  runs m b Q -> (forall a b', Q a b' -> Q' a b') -> runs m b Q'.
Proof. intros (a & b' & E & HQ) H. exists a, b'. auto. Qed.

Lemma runs_assert (c : bool) b (Q : unit -> t -> Prop) : c = true -> Q () b -> runs (op_assert c) b Q.
Proof. intros -> HQ. by exists (), b. Qed.

Lemma runs_get {A} (f : t -> A) b (Q : A -> t -> Prop) : Q (f b) b -> runs (get f) b Q.
Proof. intros. by exists (f b), b. Qed.

Lemma runs_modify f b (Q : unit -> t -> Prop) : Q () (f b) -> runs (modify f) b Q.
Proof. intros. by exists (), (f b). Qed.

Lemma runs_must_find id info b (Q : NodeServiceInfo.t -> t -> Prop) :
  lookup_id id b = Some info -> Q info b -> runs (must_find id) b Q.
Proof. intros E HQ. exists info, b. unfold must_find. by rewrite E. Qed.

Lemma runs_lift {A} (r : t -> outcome A) a b (Q : A -> t -> Prop) :
  r b = Success a -> Q a b -> runs (λ b, lift (r b) b) b Q.
Proof. intros E HQ. exists a, b. unfold lift. by rewrite E. Qed.

(** ** The abstract view of the entries *)

(** What of an entry the invariant is about. *)
Record core := Core {
  c_key : IPEndpoint.t;
  c_endpoint : IPEndpoint.t;
  c_origin : address;
  c_new : gset Z;
  c_tried : option Z;
}.

Definition core_of (e : AddressBookEntry) : core :=
  let i := list_it e in
  Core (endpoint e) (NodeService.endpoint_ (NodeServiceInfo.service_ i)) (NodeServiceInfo.origin_ i)
    (NodeServiceInfo.new_refs_ i) (NodeServiceInfo.tried_ref_ i).

Definition set_c_new v (c : core) := Core (c_key c) (c_endpoint c) (c_origin c) v (c_tried c).
Definition set_c_tried v (c : core) := Core (c_key c) (c_endpoint c) (c_origin c) (c_new c) v.

Definition view (b : t) : gmap Z core := core_of <$> list_index_ b.
Definition positions (b : t) : gmap Z Z := (λ e, NodeServiceInfo.random_pos_ (list_it e)) <$> list_index_ b.

(** References from entries to slots and back: the entries in [U] have none, all
    others are either in "new" slots or in a "tried" one. *)
Definition new_slot_ok (s : Z) : Prop := exists x y, 0 <= x < kNewBucketsCount /\ 0 <= y < kBucketSize /\ s = y + 65536 * x.
Definition tried_slot_ok (s : Z) : Prop := exists x y, 0 <= x < kTriedBucketsCount /\ 0 <= y < kBucketSize /\ s = y + 65536 * x.

Record refs_ok (U : gset Z) (V : gmap Z core) (N T : gmap Z Z) : Prop := {
  ro_new s id : N !! s = Some id <-> exists c, V !! id = Some c /\ s ∈ c_new c;
  ro_tried s id : T !! s = Some id <-> exists c, V !! id = Some c /\ c_tried c = Some s;
  ro_free id c : V !! id = Some c -> id ∈ U -> c_new c = ∅ /\ c_tried c = None;
  ro_used id c : V !! id = Some c -> id ∉ U -> (c_new c <> ∅ <-> c_tried c = None);
  ro_new_slots s id : N !! s = Some id -> new_slot_ok s;
  ro_tried_slots s id : T !! s = Some id -> tried_slot_ok s;
  ro_max id c : V !! id = Some c -> (base.size (c_new c) <= 8)%nat;
}.

(** The number of entries with a property, as the counters have it. *)
Definition tally (P : core -> bool) (V : gmap Z core) : Z := Z.of_nat (base.size (filter (λ p, P p.2 = true) V)).
Definition has_new (c : core) : bool := bool_decide (c_new c <> ∅).
Definition has_tried (c : core) : bool := bool_decide (is_Some (c_tried c)).

(** The random order lists every id once, and every entry knows its place. *)
Definition order_ok (ids : list Z) (P : gmap Z Z) : Prop :=
  (forall i id, ids !! i = Some id <-> P !! id = Some (Z.of_nat i)) /\
  (forall id p, P !! id = Some p -> 0 <= p).

Section facts.
Context `{BoostLaws} `{CryptoLaws}.

Record entries_ok (V : gmap Z core) (last_id : Z) : Prop := {
  eo_ids id c : V !! id = Some c -> 1 <= id < last_id;
  eo_key id c : V !! id = Some c -> c_key c = c_endpoint c;
  eo_unique id id' c c' : V !! id = Some c -> V !! id' = Some c' -> c_key c = c_key c' -> id = id';
  eo_routable id c : V !! id = Some c ->
    IPAddress.is_routable (IPEndpoint.address_ (c_endpoint c)) = true /\ IPAddress.is_routable (c_origin c) = true;
}.

Record inv (U : gset Z) (b : t) : Prop := {
  inv_key : length (key_ b) = 16%nat;
  inv_last : 1 <= last_used_id_ b < 2 ^ 32;
  inv_refs : refs_ok U (view b) (new_buckets_ b) (tried_buckets_ b);
  inv_entries : entries_ok (view b) (last_used_id_ b);
  inv_new_size : new_entries_size_ b = wrap 32 (tally has_new (view b));
  inv_tried_size : tried_entries_size_ b = wrap 32 (tally has_tried (view b));
  inv_order : order_ok (randomly_ordered_ids_ b) (positions b);
}.

(** ** Counting *)

Definition one (c : bool) : Z := if c then 1 else 0.

Lemma tally_insert P V id c : V !! id = None -> tally P (<[id := c]> V) = tally P V + one (P c).
Proof.
  intros Hn. unfold tally, one. destruct (P c) eqn:E.
  - rewrite map_filter_insert_True by done. rewrite map_size_insert_None; [lia|].
    apply map_lookup_filter_None. by left.
  - rewrite map_filter_insert_False by (simpl; congruence). by rewrite delete_id, Z.add_0_r.
Qed.

Lemma tally_delete P V id c : V !! id = Some c -> tally P (delete id V) = tally P V - one (P c).
Proof.
  intros Hs. assert (E : tally P V = tally P (<[id := c]> (delete id V))) by (by rewrite insert_delete_id).
  rewrite E, tally_insert by apply lookup_delete_eq. lia.
Qed.

Lemma tally_update P V id c c' : V !! id = Some c ->
  tally P (<[id := c']> V) = tally P V - one (P c) + one (P c').
Proof.
  intros Hs. rewrite <- insert_delete_eq, tally_insert by apply lookup_delete_eq.
  by rewrite (tally_delete P V id c).
Qed.

Lemma has_new_no c : c_new c = ∅ -> has_new c = false.
Proof. intros E. unfold has_new. rewrite E. apply bool_decide_eq_false_2; auto. Qed.

Lemma has_new_yes c : c_new c <> ∅ -> has_new c = true.
Proof. apply bool_decide_eq_true_2. Qed.

Lemma has_tried_no c : c_tried c = None -> has_tried c = false.
Proof. intros E. unfold has_tried. rewrite E. apply bool_decide_eq_false_2. by intros [? ?]. Qed.

Lemma has_tried_yes c s : c_tried c = Some s -> has_tried c = true.
Proof. intros E. unfold has_tried. rewrite E. by apply bool_decide_eq_true_2. Qed.

(** ** References *)

Ltac map_cases := repeat match goal with
  | H : <[_ := _]> _ !! _ = Some _ |- _ => apply lookup_insert_Some in H as [[? ?]|[? ?]]; subst
  | H : delete _ _ !! _ = Some _ |- _ => apply lookup_delete_Some in H as [? ?]
  end.

Lemma refs_slot_owner U V N T s id id' c c' : refs_ok U V N T ->
  V !! id = Some c -> V !! id' = Some c' -> s ∈ c_new c -> s ∈ c_new c' -> id = id'.
Proof.
  intros HR H3 H4 H5 H6. assert (E : N !! s = Some id) by (apply (ro_new _ _ _ _ HR); eauto).
  assert (E' : N !! s = Some id') by (apply (ro_new _ _ _ _ HR); eauto). congruence.
Qed.

Lemma refs_tried_owner U V N T s id id' c c' : refs_ok U V N T ->
  V !! id = Some c -> V !! id' = Some c' -> c_tried c = Some s -> c_tried c' = Some s -> id = id'.
Proof.
  intros HR H3 H4 H5 H6. assert (E : T !! s = Some id) by (apply (ro_tried _ _ _ _ HR); eauto).
  assert (E' : T !! s = Some id') by (apply (ro_tried _ _ _ _ HR); eauto). congruence.
Qed.

(** The references of one entry change, and the buckets with them. *)
Lemma refs_change U U' V N N' T T' id c c' : refs_ok U V N T -> V !! id = Some c ->
  (forall s, s ∉ c_new c -> s ∉ c_new c' -> N' !! s = N !! s) ->
  (forall s, s ∈ c_new c' -> N' !! s = Some id /\ new_slot_ok s) ->
  (forall s, s ∈ c_new c -> s ∉ c_new c' -> N' !! s = None) ->
  (forall s, s ∈ c_new c' -> s ∉ c_new c -> N !! s = None) ->
  (forall s, c_tried c <> Some s -> c_tried c' <> Some s -> T' !! s = T !! s) ->
  (forall s, c_tried c' = Some s -> T' !! s = Some id /\ tried_slot_ok s) ->
  (forall s, c_tried c = Some s -> c_tried c' <> Some s -> T' !! s = None) ->
  (forall s, c_tried c' = Some s -> c_tried c <> Some s -> T !! s = None) ->
  (forall id', id' <> id -> (id' ∈ U' <-> id' ∈ U)) ->
  (if decide (id ∈ U') then c_new c' = ∅ /\ c_tried c' = None else (c_new c' <> ∅ <-> c_tried c' = None)) ->
  (base.size (c_new c') <= 8)%nat ->
  refs_ok U' (<[id := c']> V) N' T'.
Proof.
  intros HR Hid N1 N2 N3 N4 T1 T2 T3 T4 HU Hx Hm. destruct HR as [R1 R2 R3 R4 R5 R6 R7].
  assert (Hown : forall s i c0, V !! i = Some c0 -> s ∈ c_new c0 -> i <> id -> (s ∉ c_new c) /\ (s ∉ c_new c')).
  { intros s i c0 Hi Hs Hne. assert (E : N !! s = Some i) by (apply R1; eauto). split; intros Hc.
    - assert (N !! s = Some id) by (apply R1; eauto). congruence.
    - destruct (decide (s ∈ c_new c)) as [Hc'|Hc'].
      + assert (N !! s = Some id) by (apply R1; eauto). congruence.
      + rewrite (N4 s Hc Hc') in E. done. }
  assert (Hownt : forall s i c0, V !! i = Some c0 -> c_tried c0 = Some s -> i <> id -> c_tried c <> Some s /\ c_tried c' <> Some s).
  { intros s i c0 Hi Hs Hne. assert (E : T !! s = Some i) by (apply R2; eauto). split; intros Hc.
    - assert (T !! s = Some id) by (apply R2; eauto). congruence.
    - destruct (decide (c_tried c = Some s)) as [Hc'|Hc'].
      + assert (T !! s = Some id) by (apply R2; eauto). congruence.
      + rewrite (T4 s Hc Hc') in E. done. }
  assert (HN : forall s i, N' !! s = Some i -> (i = id /\ s ∈ c_new c') \/ (i <> id /\ N !! s = Some i)).
  { intros s i Hi. destruct (decide (s ∈ c_new c')) as [Hs|Hs].
    - destruct (N2 s Hs) as [E _]. left. split; [congruence | done].
    - destruct (decide (s ∈ c_new c)) as [Hs'|Hs']; [by rewrite (N3 s Hs' Hs) in Hi|].
      rewrite (N1 s Hs' Hs) in Hi. right. split; [|done]. intros ->. apply R1 in Hi as (c0 & E & Hin). congruence. }
  assert (HT : forall s i, T' !! s = Some i -> (i = id /\ c_tried c' = Some s) \/ (i <> id /\ T !! s = Some i)).
  { intros s i Hi. destruct (decide (c_tried c' = Some s)) as [Hs|Hs].
    - destruct (T2 s Hs) as [E _]. left. split; [congruence | done].
    - destruct (decide (c_tried c = Some s)) as [Hs'|Hs']; [by rewrite (T3 s Hs' Hs) in Hi|].
      rewrite (T1 s Hs' Hs) in Hi. right. split; [|done]. intros ->. apply R2 in Hi as (c0 & E & Hin). congruence. }
  split.
  - intros s i. split.
    + intros Hi. apply HN in Hi as [[-> Hs]|[Hne Hi]]; [exists c'; by rewrite lookup_insert_eq|].
      apply R1 in Hi as (c0 & E & Hs). exists c0. by rewrite lookup_insert_ne by done.
    + intros (c0 & E & Hs). map_cases; [by apply N2|].
      destruct (Hown s i c0) as [? ?]; [done..|]. rewrite N1 by done. apply R1. eauto.
  - intros s i. split.
    + intros Hi. apply HT in Hi as [[-> Hs]|[Hne Hi]]; [exists c'; by rewrite lookup_insert_eq|].
      apply R2 in Hi as (c0 & E & Hs). exists c0. by rewrite lookup_insert_ne by done.
    + intros (c0 & E & Hs). map_cases; [by apply T2|].
      destruct (Hownt s i c0) as [? ?]; [done..|]. rewrite T1 by done. apply R2. eauto.
  - intros i c0 E Hi. map_cases; [by rewrite decide_True in Hx by done|]. apply (R3 i); [done|]. by apply HU.
  - intros i c0 E Hi. map_cases; [by rewrite decide_False in Hx by done|]. apply (R4 i); [done|]. by rewrite <- HU.
  - intros s i Hi. apply HN in Hi as [[-> Hs]|[_ Hi]]; [by apply N2 | eauto].
  - intros s i Hi. apply HT in Hi as [[-> Hs]|[_ Hi]]; [by apply T2 | eauto].
  - intros i c0 E. map_cases; eauto.
Qed.

Lemma refs_add U V N T id c s : refs_ok U V N T -> V !! id = Some c -> c_tried c = None -> N !! s = None ->
  new_slot_ok s -> (base.size (c_new c) < 8)%nat ->
  refs_ok (U ∖ {[id]}) (<[id := set_c_new ({[s]} ∪ c_new c) c]> V) (<[s := id]> N) T.
Proof.
  intros HR Hid Ht Hs Hok Hm. assert (Hin : s ∉ c_new c).
  { intros Hc. assert (N !! s = Some id) by (apply (ro_new _ _ _ _ HR); eauto). congruence. }
  apply (refs_change U _ V N _ T _ id c _ HR Hid); cbn [set_c_new c_new c_tried].
  - intros s' _ Hs'. apply lookup_insert_ne. set_solver.
  - intros s' [->%elem_of_singleton|Hs']%elem_of_union; [by rewrite lookup_insert_eq|].
    assert (E : N !! s' = Some id) by (apply (ro_new _ _ _ _ HR); eauto).
    rewrite lookup_insert_ne by congruence. split; [done | by eapply ro_new_slots].
  - set_solver.
  - intros s' Hs' Hs''. by assert (s' = s) as -> by set_solver.
  - done.
  - intros s' E. congruence.
  - congruence.
  - congruence.
  - set_solver.
  - rewrite decide_False by set_solver. split; [done | intros _; set_solver].
  - rewrite size_union by set_solver. rewrite size_singleton. lia.
Qed.

Lemma refs_remove U V N T id c s : refs_ok U V N T -> V !! id = Some c -> s ∈ c_new c -> c_new c ∖ {[s]} <> ∅ ->
  refs_ok U (<[id := set_c_new (c_new c ∖ {[s]}) c]> V) (delete s N) T.
Proof.
  intros HR Hid Hs Hne.
  assert (HU : id ∉ U) by (intros HU; apply (ro_free _ _ _ _ HR id c Hid) in HU as [E _]; set_solver).
  apply (refs_change U _ V N _ T _ id c _ HR Hid); cbn [set_c_new c_new c_tried].
  - intros s' Hs' _. apply lookup_delete_ne. set_solver.
  - intros s' Hs'. assert (E : N !! s' = Some id) by (apply (ro_new _ _ _ _ HR); exists c; set_solver).
    rewrite lookup_delete_ne by set_solver. split; [done | by eapply ro_new_slots].
  - intros s' H5 H6. destruct (decide (s' = s)) as [->|]; [apply lookup_delete_eq | set_solver].
  - set_solver.
  - done.
  - intros s' E. assert (E' : T !! s' = Some id) by (apply (ro_tried _ _ _ _ HR); eauto).
    split; [done | by eapply ro_tried_slots].
  - congruence.
  - congruence.
  - done.
  - rewrite decide_False by done. pose proof (ro_used _ _ _ _ HR id c Hid HU) as E. split; [intros _; apply E; set_solver | done].
  - etrans; [|by eapply ro_max]. apply subseteq_size. set_solver.
Qed.

Lemma refs_untry U V N T id c s : refs_ok U V N T -> V !! id = Some c -> c_tried c = Some s ->
  refs_ok ({[id]} ∪ U) (<[id := set_c_tried None c]> V) N (delete s T).
Proof.
  intros HR Hid Hs. assert (HU : id ∉ U) by (intros HU; apply (ro_free _ _ _ _ HR id c Hid) in HU as [_ E]; congruence).
  assert (Hn : c_new c = ∅).
  { destruct (decide (c_new c = ∅)) as [|Hn]; [done|]. apply (ro_used _ _ _ _ HR id c Hid HU) in Hn. congruence. }
  apply (refs_change U _ V N _ T _ id c _ HR Hid); cbn [set_c_tried c_new c_tried]; rewrite ?Hn; try done; try set_solver.
  - intros s' H5 _. apply lookup_delete_ne. congruence.
  - intros s' H5 _. assert (s' = s) as -> by congruence. apply lookup_delete_eq.
  - by rewrite decide_True by set_solver.
  - rewrite size_empty. lia.
Qed.

Lemma refs_try U V N T id c s : refs_ok U V N T -> V !! id = Some c -> id ∈ U -> T !! s = None -> tried_slot_ok s ->
  refs_ok (U ∖ {[id]}) (<[id := set_c_tried (Some s) c]> V) N (<[s := id]> T).
Proof.
  intros HR Hid HU Hs Hok. destruct (ro_free _ _ _ _ HR id c Hid HU) as [Hn Ht].
  apply (refs_change U _ V N _ T _ id c _ HR Hid); cbn [set_c_tried c_new c_tried]; rewrite ?Hn, ?Ht; try done; try set_solver.
  - intros s' _ H5. apply lookup_insert_ne. congruence.
  - intros s' [= <-]. by rewrite lookup_insert_eq.
  - by rewrite decide_False by set_solver.
  - rewrite size_empty. lia.
Qed.

(** All "new" references of an entry are dropped at once. *)
Lemma lookup_set_fold_delete (X : gset Z) (N : gmap Z Z) s :
  (s ∈ X -> set_fold (λ s m, delete s m) N X !! s = None) /\
  (s ∉ X -> set_fold (λ s m, delete s m) N X !! s = N !! s).
Proof.
  apply (set_fold_ind_L (λ m Y, (s ∈ Y -> m !! s = None) /\ (s ∉ Y -> m !! s = N !! s))); [set_solver|].
  intros x Y m Hx [IH1 IH2]. destruct (decide (s = x)) as [->|Hne].
  - rewrite lookup_delete_eq. set_solver.
  - rewrite lookup_delete_ne by done. set_solver.
Qed.

Lemma refs_drop U V N T id c : refs_ok U V N T -> V !! id = Some c -> c_tried c = None ->
  refs_ok ({[id]} ∪ U) (<[id := set_c_new ∅ c]> V) (set_fold (λ s m, delete s m) N (c_new c)) T.
Proof.
  intros HR Hid Ht.
  apply (refs_change U _ V N _ T _ id c _ HR Hid); cbn [set_c_new c_new c_tried]; rewrite ?Ht; try done; try set_solver.
  - intros s Hs _. by apply lookup_set_fold_delete.
  - intros s Hs _. by apply lookup_set_fold_delete.
  - by rewrite decide_True by set_solver.
  - rewrite size_empty. lia.
Qed.

(** Entries come and go. *)
Lemma refs_delete U V N T id c s : refs_ok U V N T -> V !! id = Some c -> s ∈ c_new c -> c_new c ∖ {[s]} = ∅ ->
  refs_ok U (delete id V) (delete s N) T.
Proof.
  intros HR Hid Hs He.
  assert (HU : id ∉ U) by (intros HU; apply (ro_free _ _ _ _ HR id c Hid) in HU as [E _]; set_solver).
  assert (Hc : forall s', s' ∈ c_new c -> s' = s) by (intros s' Hs'; destruct (decide (s' = s)); [done | set_solver]).
  assert (Ht : c_tried c = None) by (apply (ro_used _ _ _ _ HR id c Hid HU); set_solver).
  split.
  - intros s' i. rewrite lookup_delete_Some, (ro_new _ _ _ _ HR s' i). split.
    + intros [Hne (c0 & E & Hin)]. exists c0. split; [|done]. apply lookup_delete_Some. split; [|done].
      intros ->. assert (c0 = c) as -> by congruence. by apply Hne; symmetry; apply Hc.
    + intros (c0 & E & Hin). apply lookup_delete_Some in E as [Hne E]. split; [|eauto]. intros <-.
      apply Hne. eapply refs_slot_owner; eauto.
  - intros s' i. rewrite (ro_tried _ _ _ _ HR s' i). split.
    + intros (c0 & E & Hin). exists c0. split; [|done]. apply lookup_delete_Some. split; [|done].
      intros ->. congruence.
    + intros (c0 & E & Hin). apply lookup_delete_Some in E as [_ E]. eauto.
  - intros i c0 E. apply lookup_delete_Some in E as [_ E]. by eapply ro_free.
  - intros i c0 E. apply lookup_delete_Some in E as [_ E]. by eapply ro_used.
  - intros s' i E. apply lookup_delete_Some in E as [_ E]. by eapply ro_new_slots.
  - by eapply ro_tried_slots.
  - intros i c0 E. apply lookup_delete_Some in E as [_ E]. by eapply ro_max.
Qed.

Lemma refs_insert U V N T id c s : refs_ok U V N T -> V !! id = None -> id ∉ U -> N !! s = None -> new_slot_ok s ->
  c_new c = {[s]} -> c_tried c = None ->
  refs_ok U (<[id := c]> V) (<[s := id]> N) T.
Proof.
  intros HR Hid HU Hs Hok Hn Ht.
  assert (Hother : forall i c0, V !! i = Some c0 -> i <> id) by (intros i c0 E ->; congruence).
  split.
  - intros s' i. split.
    + intros [[<- <-]|[_ E]]%lookup_insert_Some; [exists c; rewrite lookup_insert_eq; set_solver|].
      apply (ro_new _ _ _ _ HR) in E as (c0 & E & Hin). exists c0. rewrite lookup_insert_ne; [done|].
      by apply not_eq_sym, (Hother _ c0).
    + intros (c0 & E & Hin). map_cases.
      * rewrite Hn in Hin. apply elem_of_singleton in Hin as ->. by rewrite lookup_insert_eq.
      * assert (E' : N !! s' = Some i) by (apply (ro_new _ _ _ _ HR); eauto). rewrite lookup_insert_ne; [done | congruence].
  - intros s' i. rewrite (ro_tried _ _ _ _ HR s' i). split.
    + intros (c0 & E & Hin). exists c0. rewrite lookup_insert_ne; [done|]. by apply not_eq_sym, (Hother _ c0).
    + intros (c0 & E & Hin). map_cases; [congruence | eauto].
  - intros i c0 E Hi. map_cases; [done | by eapply ro_free].
  - intros i c0 E Hi. map_cases; [set_solver | by eapply ro_used].
  - intros s' i E. map_cases; [done | by eapply ro_new_slots].
  - by eapply ro_tried_slots.
  - intros i c0 E. map_cases; [rewrite Hn, size_singleton; lia | by eapply ro_max].
Qed.

(** ** Entries *)

Lemma entries_change V l id c c' : entries_ok V l -> V !! id = Some c ->
  c_key c' = c_key c -> c_endpoint c' = c_endpoint c -> c_origin c' = c_origin c -> entries_ok (<[id := c']> V) l.
Proof.
  intros [E1 E2 E3 E4] Hid Hk He Ho.
  assert (Hget : forall i c0, <[id := c']> V !! i = Some c0 -> exists c1, V !! i = Some c1 /\ c_key c0 = c_key c1 /\
    c_endpoint c0 = c_endpoint c1 /\ c_origin c0 = c_origin c1).
  { intros i c0 [[<- <-]|[_ E]]%lookup_insert_Some; eauto. }
  split.
  - intros i c0 (c1 & E & _)%Hget. eauto.
  - intros i c0 (c1 & E & -> & -> & _)%Hget. eauto.
  - intros i i' c0 c0' (c1 & E & -> & _)%Hget (c1' & E' & -> & _)%Hget. eauto.
  - intros i c0 (c1 & E & _ & -> & ->)%Hget. eauto.
Qed.

Lemma entries_delete V l id : entries_ok V l -> entries_ok (delete id V) l.
Proof.
  intros [E1 E2 E3 E4]. split.
  - intros i c0 [_ E]%lookup_delete_Some. eauto.
  - intros i c0 [_ E]%lookup_delete_Some. eauto.
  - intros i i' c0 c0' [_ E]%lookup_delete_Some [_ E']%lookup_delete_Some. eauto.
  - intros i c0 [_ E]%lookup_delete_Some. eauto.
Qed.

Lemma entries_insert V l c : entries_ok V l -> 1 <= l -> c_key c = c_endpoint c ->
  (forall i c0, V !! i = Some c0 -> c_key c0 <> c_key c) ->
  IPAddress.is_routable (IPEndpoint.address_ (c_endpoint c)) = true -> IPAddress.is_routable (c_origin c) = true ->
  entries_ok (<[l := c]> V) (l + 1).
Proof.
  intros [E1 E2 E3 E4] Hl Hk Hu Hr1 Hr2. split.
  - intros i c0 [[<- <-]|[_ E]]%lookup_insert_Some; [lia|]. apply E1 in E. lia.
  - intros i c0 [[<- <-]|[_ E]]%lookup_insert_Some; eauto.
  - intros i i' c0 c0' [[<- <-]|[_ E]]%lookup_insert_Some [[<- <-]|[_ E']]%lookup_insert_Some Hkk; [done | | | eauto].
    + exfalso. by apply (Hu _ _ E').
    + exfalso. by apply (Hu _ _ E).
  - intros i c0 [[<- <-]|[_ E]]%lookup_insert_Some; eauto.
Qed.

(** ** The random order *)

Lemma order_swap ids P (i j : nat) a b : order_ok ids P -> i <> j -> ids !! i = Some a -> ids !! j = Some b ->
  a <> b /\ order_ok (<[j := a]> (<[i := b]> ids)) (<[b := Z.of_nat i]> (<[a := Z.of_nat j]> P)).
Proof.
  intros [HO HP] Hij Ha Hb.
  assert (Hab : a <> b) by (intros ->; apply HO in Ha, Hb; rewrite Ha in Hb; injection Hb; lia).
  assert (Hli : (i < length ids)%nat) by (by eapply lookup_lt_Some).
  assert (Hlj : (j < length ids)%nat) by (by eapply lookup_lt_Some).
  split; [done|]. split.
  2: { intros id p [[<- <-]|[_ [[<- <-]|[_ E]]%lookup_insert_Some]]%lookup_insert_Some; [lia | lia | eauto]. }
  intros k id. destruct (decide (k = j)) as [->|Hkj].
  { rewrite list_lookup_insert_eq by (rewrite length_insert; lia).
    destruct (decide (id = b)) as [->|Hidb].
    - rewrite lookup_insert_eq. split; intros [= ?]; [done | lia].
    - rewrite lookup_insert_ne by done. destruct (decide (id = a)) as [->|Hida].
      + rewrite lookup_insert_eq. done.
      + rewrite lookup_insert_ne by done. split; [congruence|]. intros E. apply HO in E. congruence. }
  rewrite list_lookup_insert_ne by done. destruct (decide (k = i)) as [->|Hki].
  { rewrite list_lookup_insert_eq by done. destruct (decide (id = b)) as [->|Hidb].
    - rewrite lookup_insert_eq. done.
    - rewrite lookup_insert_ne by done. destruct (decide (id = a)) as [->|Hida].
      + rewrite lookup_insert_eq. split; intros [= ?]; [congruence | lia].
      + rewrite lookup_insert_ne by done. split; [congruence|]. intros E. apply HO in E. congruence. }
  rewrite list_lookup_insert_ne by done. destruct (decide (id = b)) as [->|Hidb].
  { rewrite lookup_insert_eq. split; [|intros [= ?]; lia]. intros E. apply HO in E, Hb. rewrite Hb in E. injection E. lia. }
  rewrite lookup_insert_ne by done. destruct (decide (id = a)) as [->|Hida].
  { rewrite lookup_insert_eq. split; [|intros [= ?]; lia]. intros E. apply HO in E, Ha. rewrite Ha in E. injection E. lia. }
  rewrite lookup_insert_ne by done. apply HO.
Qed.

Lemma order_pop ids P x : order_ok (ids ++ [x]) P -> order_ok ids (delete x P).
Proof.
  intros [HO HP]. split; [|intros id p [_ E]%lookup_delete_Some; eauto].
  intros i id. rewrite lookup_delete_Some, <- (HO i id). split.
  - intros E. split; [|by apply lookup_app_l_Some]. intros ->.
    assert (E' : (ids ++ [id]) !! length ids = Some id) by apply list_lookup_middle, eq_refl.
    apply HO in E'. apply (lookup_app_l_Some _ [id]) in E as E2. apply HO in E2. rewrite E' in E2. injection E2.
    apply lookup_lt_Some in E. lia.
  - intros [Hne [E|[Hl E]]%lookup_app_Some]; [done|]. apply list_lookup_singleton_Some in E as [_ E]. congruence.
Qed.

Lemma order_push ids P x : order_ok ids P -> P !! x = None -> order_ok (ids ++ [x]) (<[x := zlen ids]> P).
Proof.
  intros [HO HP] Hx. split; [|intros id p [[<- <-]|[_ E]]%lookup_insert_Some; [lia | eauto]].
  intros i id. rewrite lookup_app_Some. destruct (decide (id = x)) as [->|Hne].
  - rewrite lookup_insert_eq. split.
    + intros [E|[Hl E]]; [apply HO in E; congruence|]. apply lookup_lt_Some in E as E'. simpl in E'. f_equal. lia.
    + intros [= E]. right. split; [lia|]. by replace (i - length ids)%nat with O by lia.
  - rewrite lookup_insert_ne by done. rewrite <- (HO i id). split; [|by left].
    intros [E|[Hl E]]; [done|]. apply list_lookup_singleton_Some in E as [_ E]. congruence.
Qed.

(** There are fewer entries than ids. *)
Lemma order_length ids P V l : order_ok ids P -> dom P = dom V -> entries_ok V l -> 1 <= l -> zlen ids <= l - 1.
Proof.
  intros [HO HP] Hd HE Hl. assert (Hnd : NoDup ids).
  { apply NoDup_alt. intros i j x Hi Hj. apply HO in Hi, Hj. rewrite Hi in Hj. injection Hj. lia. }
  assert (Hs : ids ⊆+ seqZ 1 (l - 1)).
  { apply NoDup_submseteq; [done|]. intros x [i Hi]%list_elem_of_lookup_1. apply HO, elem_of_dom_2 in Hi. rewrite Hd in Hi.
    apply elem_of_dom in Hi as [c Hc]. apply (eo_ids _ _ HE) in Hc. apply elem_of_seqZ. lia. }
  apply submseteq_length in Hs. rewrite length_seqZ in Hs. lia.
Qed.

(** ** Steps of the operations *)

Definition place_of (e : AddressBookEntry) : Z := NodeServiceInfo.random_pos_ (list_it e).

Lemma alter_present {A} (f : A -> A) (m : gmap Z A) k x : m !! k = Some x -> alter f k m = <[k := f x]> m.
Proof.
  intros E. apply map_eq. intros i. destruct (decide (i = k)) as [->|Hne].
  - by rewrite lookup_alter_eq, lookup_insert_eq, E.
  - by rewrite lookup_alter_ne, lookup_insert_ne.
Qed.

Lemma view_lookup b id c : view b !! id = Some c ->
  exists e, list_index_ b !! id = Some e /\ core_of e = c /\ lookup_id id b = Some (list_it e).
Proof.
  unfold view, lookup_id. rewrite lookup_fmap. destruct (list_index_ b !! id) as [e|]; [|done].
  intros [= <-]. by exists e.
Qed.

Lemma dom_view b : dom (positions b) = dom (view b).
Proof. unfold positions, view. by rewrite !dom_fmap_L. Qed.

(** An assignment that leaves the place in the random order alone. *)
Lemma runs_update id f g c b (Q : unit -> t -> Prop) : view b !! id = Some c ->
  (forall e, core_of (with_info f e) = g (core_of e)) ->
  (forall i, NodeServiceInfo.random_pos_ (f i) = NodeServiceInfo.random_pos_ i) ->
  (forall X, core_of <$> X = <[id := g c]> (view b) -> place_of <$> X = positions b -> Q () (set_index X b)) ->
  runs (update_info id f) b Q.
Proof.
  intros Hid Hf Hp HQ. apply runs_modify. destruct (view_lookup b id c Hid) as (e & He & Hc & _). apply HQ.
  - rewrite (alter_present _ _ _ _ He), fmap_insert, Hf, Hc. done.
  - rewrite (alter_present _ _ _ _ He), fmap_insert. unfold positions. fold place_of.
    apply insert_id. rewrite lookup_fmap, He. simpl. f_equal. symmetry. apply Hp.
Qed.

(** An entry but for its place in the random order. *)
Definition placeless (e : AddressBookEntry) : AddressBookEntry := with_info (NodeServiceInfo.set_random_pos 0) e.

Lemma runs_swap i j a c b (Q : unit -> t -> Prop) :
  0 <= i -> 0 <= j -> order_ok (randomly_ordered_ids_ b) (positions b) -> id_at i b = Some a -> id_at j b = Some c ->
  (forall ids X, core_of <$> X = view b -> order_ok ids (place_of <$> X) -> length ids = length (randomly_ordered_ids_ b) ->
     ids !! Z.to_nat j = Some a -> placeless <$> X = placeless <$> list_index_ b -> Q () (set_ids ids (set_index X b))) ->
  runs (swap_randomly_ordered_ids i j) b Q.
Proof.
  intros Hi Hj HO Ha Hc HQ. unfold swap_randomly_ordered_ids, runs. destruct (Z.eqb_spec i j) as [->|Hij].
  { exists (), b. split; [done|].
    replace b with (set_ids (randomly_ordered_ids_ b) (set_index (list_index_ b) b)) by (by destruct b). by apply HQ. }
  rewrite Ha, Hc. unfold id_at in Ha, Hc. pose proof (proj1 HO) as HO1.
  destruct (order_swap _ _ (Z.to_nat i) (Z.to_nat j) a c HO) as [Hne HO']; [lia | done | done |].
  rewrite !Z2Nat.id in HO' by lia.
  assert (Pa : is_Some (list_index_ b !! a)).
  { apply HO1 in Ha. unfold positions in Ha. rewrite lookup_fmap in Ha. by destruct (list_index_ b !! a). }
  assert (Pc : is_Some (list_index_ b !! c)).
  { apply HO1 in Hc. unfold positions in Hc. rewrite lookup_fmap in Hc. by destruct (list_index_ b !! c). }
  destruct Pa as [ea Ea]. destruct Pc as [ec Ec].
  set (ids' := <[Z.to_nat j := a]> (<[Z.to_nat i := c]> (randomly_ordered_ids_ b))) in *.
  set (X := alter (with_info (NodeServiceInfo.set_random_pos i)) c
              (alter (with_info (NodeServiceInfo.set_random_pos j)) a (list_index_ b))).
  exists (), (set_ids ids' (set_index X b)). split.
  - unfold op_bind at 1, must_find at 1, lookup_id. rewrite Ea. simpl.
    unfold op_bind at 1, must_find at 1, lookup_id. rewrite Ec. done.
  - assert (EX : X = <[c := with_info (NodeServiceInfo.set_random_pos i) ec]>
                   (<[a := with_info (NodeServiceInfo.set_random_pos j) ea]> (list_index_ b))).
    { unfold X. rewrite (alter_present _ (list_index_ b) a ea Ea).
      apply alter_present. by rewrite lookup_insert_ne by done. }
    apply HQ.
    + rewrite EX, !fmap_insert. change (core_of (with_info (NodeServiceInfo.set_random_pos ?k) ?e)) with (core_of e).
      rewrite (insert_id (_ <$> _) a); [apply insert_id|]; unfold view; rewrite lookup_fmap; [by rewrite Ec | by rewrite Ea].
    + rewrite EX, !fmap_insert. done.
    + unfold ids'. by rewrite !length_insert.
    + unfold ids'. apply list_lookup_insert_eq. rewrite length_insert. by eapply lookup_lt_Some.
    + rewrite EX, !fmap_insert. change (placeless (with_info (NodeServiceInfo.set_random_pos ?k) ?e)) with (placeless e).
      rewrite (insert_id (_ <$> _) a); [apply insert_id|]; rewrite lookup_fmap; [by rewrite Ec | by rewrite Ea].
Qed.

Lemma runs_erase id c b (Q : unit -> t -> Prop) :
  id <> 0 -> view b !! id = Some c -> c_new c = ∅ -> c_tried c = None ->
  order_ok (randomly_ordered_ids_ b) (positions b) -> zlen (randomly_ordered_ids_ b) < 2 ^ 32 ->
  (forall ids X, core_of <$> X = delete id (view b) -> order_ok ids (place_of <$> X) ->
     Q () (set_index X (set_new_size (new_entries_size_ b - 1) (set_ids ids b)))) ->
  runs (erase_new_entry id) b Q.
Proof.
  intros Hid Hv Hn Ht HO Hlen HQ. destruct (view_lookup b id c Hv) as (e & He & Hc & Hf).
  unfold erase_new_entry. rewrite (proj2 (Z.eqb_neq id 0)) by done.
  apply runs_bind, (runs_must_find _ _ _ _ Hf). subst c. simpl in Hn, Ht.
  apply runs_bind, runs_assert; [by rewrite Hn|]. apply runs_bind, runs_assert; [by rewrite Ht|].
  apply runs_bind, runs_get. set (ids := randomly_ordered_ids_ b) in *.
  assert (Hp : positions b !! id = Some (place_of e)) by (unfold positions; by rewrite lookup_fmap, He).
  assert (Hpos : 0 <= place_of e) by (by apply (proj2 HO) in Hp).
  assert (Hat : id_at (place_of e) b = Some id).
  { unfold id_at. apply (proj1 HO). by rewrite Z2Nat.id. }
  assert (Hlt : (Z.to_nat (place_of e) < length ids)%nat) by (by eapply lookup_lt_Some).
  assert (Hw : wrap 32 (zlen ids - 1) = zlen ids - 1) by (unfold wrap; apply Z.mod_small; lia).
  rewrite Hw. destruct (lookup_lt_is_Some_2 ids (Z.to_nat (zlen ids - 1))) as [z Hz]; [lia|].
  apply runs_bind. apply (runs_swap _ _ id z b); [done | lia | done | done | done |].
  intros ids' X HX HO' Hl Hlast _. apply runs_bind, runs_get. cbn [randomly_ordered_ids_ set_ids].
  assert (Hids : exists l, ids' = l ++ [id]).
  { fold ids in Hl. destruct ids' as [|x l _] using rev_ind; [simpl in Hl; lia|].
    rewrite length_app in Hl. simpl in Hl. exists l. f_equal. f_equal.
    rewrite lookup_app_r in Hlast by lia. replace (_ - _)%nat with O in Hlast by lia. by injection Hlast. }
  destruct Hids as [l ->]. apply runs_bind, runs_assert.
  { apply bool_decide_eq_true. apply last_snoc. }
  apply runs_bind, runs_modify, runs_bind, runs_modify, runs_modify. cbn [randomly_ordered_ids_ set_ids set_index].
  rewrite removelast_last. apply (HQ l (delete id X)).
  - by rewrite fmap_delete, HX.
  - rewrite fmap_delete. by apply order_pop.
Qed.

(** What clearing a slot leaves. *)
Record cleared (s : Z) (b b' : t) : Prop := {
  cl_key : key_ b' = key_ b;
  cl_last : last_used_id_ b' = last_used_id_ b;
  cl_new : new_buckets_ b' = delete s (new_buckets_ b);
  cl_tried : tried_buckets_ b' = tried_buckets_ b;
  cl_tried_size : tried_entries_size_ b' = tried_entries_size_ b;
  cl_keep id c : view b !! id = Some c -> s ∉ c_new c -> view b' !! id = Some c;
  cl_from id c : view b' !! id = Some c -> exists c0, view b !! id = Some c0 /\ c_key c0 = c_key c;
}.

Lemma ids_bound U b : inv U b -> zlen (randomly_ordered_ids_ b) < 2 ^ 32.
Proof.
  intros HI. pose proof (inv_last _ _ HI). pose proof (order_length _ _ _ _ (inv_order _ _ HI) (dom_view b) (inv_entries _ _ HI)). lia.
Qed.

Definition slot_fits (s : SlotAddress) : Prop := 0 <= slot_x s < kNewBucketsCount /\ 0 <= slot_y s < kBucketSize.

Lemma wrap_add_wrap a c : wrap 32 (wrap 32 a + c) = wrap 32 (a + c).
Proof. unfold wrap. by rewrite Zplus_mod_idemp_l. Qed.

Lemma runs_clear U s b (Q : unit -> t -> Prop) : inv U b -> slot_fits s ->
  (forall b', inv U b' -> cleared (xy s) b b' -> Q () b') -> runs (clear_new_slot s true) b Q.
Proof.
  intros HI Hs HQ. unfold clear_new_slot. apply runs_bind, runs_assert.
  { destruct Hs. rewrite !(proj2 (Z.ltb_lt _ _)) by lia. done. }
  apply runs_bind, runs_get. destruct (new_buckets_ b !! xy s) as [id|] eqn:Es.
  2: { apply runs_ret, HQ; [done|]. split; try done; [by rewrite delete_id | eauto]. }
  destruct (proj1 (ro_new _ _ _ _ (inv_refs _ _ HI) (xy s) id) Es) as (c & Hc & Hin).
  destruct (view_lookup b id c Hc) as (e & He & Hce & Hf).
  apply runs_bind, (runs_must_find _ _ _ _ Hf). subst c. simpl in Hin.
  apply runs_bind, runs_assert; [pose proof (eo_ids _ _ (inv_entries _ _ HI) id _ Hc); by rewrite (proj2 (Z.eqb_neq id 0)) by lia|].
  apply runs_bind, runs_assert; [by apply bool_decide_eq_true|]. cbv zeta.
  set (refs := NodeServiceInfo.new_refs_ (list_it e) ∖ {[xy s]}).
  assert (Ht : NodeServiceInfo.tried_ref_ (list_it e) = None).
  { destruct (decide (id ∈ U)) as [HU|HU].
    - by apply (ro_free _ _ _ _ (inv_refs _ _ HI) id _ Hc).
    - apply (ro_used _ _ _ _ (inv_refs _ _ HI) id _ Hc HU). simpl. set_solver. }
  rewrite Ht, (bool_decide_eq_false_2 (is_Some None)) by (by intros [? ?]). rewrite orb_false_r.
  apply runs_bind. apply (runs_update id _ (set_c_new refs) (core_of e)); [done | done | done |]. intros X HX HP.
  set (b1 := set_index X b). set (c' := set_c_new refs (core_of e)) in *.
  assert (Hv1 : view b1 = <[id := c']> (view b)) by done.
  assert (Hn1 : has_new (core_of e) = true) by (apply bool_decide_eq_true_2; simpl; set_solver).
  assert (Ht1 : has_tried (core_of e) = false) by (apply bool_decide_eq_false_2; simpl; rewrite Ht; by intros [? ?]).
  destruct (bool_decide_reflect (refs = ∅)) as [Hr|Hr]; cbn [negb].
  - apply runs_bind. apply (runs_erase id c'); [| | done | done | | |].
    + pose proof (eo_ids _ _ (inv_entries _ _ HI) id _ Hc). lia.
    + by rewrite Hv1, lookup_insert_eq.
    + change (order_ok (randomly_ordered_ids_ b) (place_of <$> X)). rewrite HP. apply (inv_order _ _ HI).
    + apply (ids_bound U b HI).
    + intros ids Y HY HO. apply runs_modify. rewrite Hv1, delete_insert_eq in HY. apply HQ.
      * split; try apply HI; unfold view; cbn.
        -- rewrite HY. by apply (refs_delete U _ _ _ id (core_of e)); [apply HI | done | done |].
        -- rewrite HY. apply entries_delete, HI.
        -- rewrite HY, (tally_delete has_new _ id (core_of e)) by done. rewrite (inv_new_size _ _ HI).
           rewrite Hn1. change (one true) with 1. unfold Z.sub. by rewrite wrap_add_wrap.
        -- rewrite HY, (tally_delete has_tried _ id (core_of e)) by done. rewrite (inv_tried_size _ _ HI).
           rewrite Ht1. change (one false) with 0. by rewrite Z.sub_0_r.
        -- done.
      * split; try done; unfold view; cbn; rewrite HY.
        -- intros i c0 Hi Hni. apply lookup_delete_Some. split; [|done]. intros ->.
           unfold view in Hi, Hc. rewrite Hc in Hi. injection Hi as <-. done.
        -- intros i c0 [_ Hi]%lookup_delete_Some. eauto.
  - apply runs_bind, runs_ret, runs_modify, HQ.
    + split; try apply HI; unfold view; cbn.
      * rewrite HX. by apply (refs_remove U _ _ _ id (core_of e)); [apply HI | done | done |].
      * rewrite HX. by apply (entries_change _ _ id (core_of e)); [apply HI | done..].
      * rewrite HX, (tally_update has_new _ id (core_of e)) by done. rewrite (inv_new_size _ _ HI).
        assert (has_new c' = true) as -> by (by apply bool_decide_eq_true_2). rewrite Hn1. f_equal. lia.
      * rewrite HX, (tally_update has_tried _ id (core_of e)) by done. rewrite (inv_tried_size _ _ HI).
        change (has_tried c') with (has_tried (core_of e)). f_equal. lia.
      * change (order_ok (randomly_ordered_ids_ b) (place_of <$> X)). rewrite HP. apply HI.
    + split; try done; unfold view; cbn; rewrite HX.
      * intros i c0 Hi Hni. rewrite lookup_insert_ne; [done|]. intros ->.
        unfold view in Hi, Hc. rewrite Hc in Hi. injection Hi as <-. done.
      * intros i c0 [[<- <-]|[_ Hi]]%lookup_insert_Some; eauto.
Qed.

(** ** Slots are always found *)

Lemma compute_group_ok a : IPAddress.is_routable a = true -> exists g, compute_group a = Success g.
Proof. intros E. unfold compute_group. rewrite E. destruct a; simpl; eauto. Qed.

Lemma sip_ok k d : length k = 16%nat -> sip k d = Success (siphash24 k d).
Proof. intros E. unfold sip. by rewrite decide_True. Qed.

Lemma slot_part h n : 0 < n <= 65536 -> 0 <= wrap 16 (h mod n) < n.
Proof. intros Hn. pose proof (Z.mod_pos_bound h n). unfold wrap. rewrite Z.mod_small; lia. Qed.

Lemma get_new_slot_ok info source b :
  length (key_ b) = 16%nat -> IPAddress.is_routable source = true ->
  IPAddress.is_routable (IPEndpoint.address_ (NodeService.endpoint_ (NodeServiceInfo.service_ info))) = true ->
  exists s, get_new_slot info source b = Success s /\ slot_fits s.
Proof.
  intros Hk Hs Hr. unfold get_new_slot. destruct (compute_group_ok _ Hs) as [g1 ->].
  destruct (compute_group_ok _ Hr) as [g2 ->]. cbn [outcome_bind]. rewrite sip_ok by done. cbn [outcome_bind].
  rewrite sip_ok by done. cbn [outcome_bind]. rewrite sip_ok by done. cbn [outcome_bind].
  eexists; split; [done|]. by split; apply slot_part.
Qed.

Lemma get_tried_slot_ok info b : length (key_ b) = 16%nat ->
  IPAddress.is_routable (IPEndpoint.address_ (NodeService.endpoint_ (NodeServiceInfo.service_ info))) = true ->
  exists s, get_tried_slot info b = Success s /\ tried_slot_ok (xy s).
Proof.
  intros Hk Hr. unfold get_tried_slot. destruct (compute_group_ok _ Hr) as [g ->]. cbn [outcome_bind].
  rewrite sip_ok by done. cbn [outcome_bind]. rewrite sip_ok by done. cbn [outcome_bind].
  rewrite sip_ok by done. cbn [outcome_bind]. eexists; split; [done|].
  eexists _, _. split; [|split]; [| |done]; by apply slot_part.
Qed.

Lemma slot_fits_ok s : slot_fits s -> new_slot_ok (xy s).
Proof. intros [Hx Hy]. by exists (slot_x s), (slot_y s). Qed.

Lemma runs_put s id c b (Q : unit -> t -> Prop) : view b !! id = Some c -> xy s ∉ c_new c ->
  new_buckets_ b !! xy s = None ->
  (forall X, core_of <$> X = <[id := set_c_new ({[xy s]} ∪ c_new c) c]> (view b) -> place_of <$> X = positions b ->
     Q () (set_new (<[xy s := id]> (new_buckets_ b)) (set_index X b))) ->
  runs (put_new_ref s id) b Q.
Proof.
  intros Hv Hin Hn HQ. destruct (view_lookup b id c Hv) as (e & He & Hc & Hf). unfold put_new_ref.
  apply runs_bind, (runs_must_find _ _ _ _ Hf). subst c. simpl in Hin.
  apply runs_bind, runs_assert; [by apply bool_decide_eq_true_2|].
  apply runs_bind. apply (runs_update id _ (set_c_new ({[xy s]} ∪ c_new (core_of e))) (core_of e)); [done | done | done |].
  intros X HX HP. apply runs_bind, runs_get, runs_bind, runs_assert; [by apply bool_decide_eq_true_2|].
  apply runs_modify. by apply HQ.
Qed.

(** The new state of an entry whose references change. *)
Lemma inv_change U U' b b' id c c' : inv U b -> view b !! id = Some c -> view b' = <[id := c']> (view b) ->
  c_key c' = c_key c -> c_endpoint c' = c_endpoint c -> c_origin c' = c_origin c ->
  key_ b' = key_ b -> last_used_id_ b' = last_used_id_ b ->
  refs_ok U' (view b') (new_buckets_ b') (tried_buckets_ b') ->
  new_entries_size_ b' = wrap 32 (new_entries_size_ b - one (has_new c) + one (has_new c')) ->
  tried_entries_size_ b' = wrap 32 (tried_entries_size_ b - one (has_tried c) + one (has_tried c')) ->
  order_ok (randomly_ordered_ids_ b') (positions b') -> inv U' b'.
Proof.
  intros HI Hid Hv Hk He Ho Hkey Hlast HR Hn Ht HO. split; try done.
  - rewrite Hkey. apply HI.
  - rewrite Hlast. apply HI.
  - rewrite Hv, Hlast. apply (entries_change _ _ id c); [apply HI | done..].
  - rewrite Hn, Hv, (tally_update has_new _ id c) by done. rewrite (inv_new_size _ _ HI).
    unfold Z.sub. rewrite <- !Z.add_assoc. by rewrite wrap_add_wrap.
  - rewrite Ht, Hv, (tally_update has_tried _ id c) by done. rewrite (inv_tried_size _ _ HI).
    unfold Z.sub. rewrite <- !Z.add_assoc. by rewrite wrap_add_wrap.
Qed.

(** What the operations never change: the key, the last id, and which endpoints
    are known. *)
Record kept (b b' : t) : Prop := {
  kp_key : key_ b' = key_ b;
  kp_last : last_used_id_ b' = last_used_id_ b;
  kp_from id c : view b' !! id = Some c -> exists c0, view b !! id = Some c0 /\ c_key c0 = c_key c;
}.

Lemma kept_refl b : kept b b.
Proof. split; eauto. Qed.

Lemma kept_trans b b' b'' : kept b b' -> kept b' b'' -> kept b b''.
Proof.
  intros K1 K2. split; [by rewrite (kp_key _ _ K2), (kp_key _ _ K1) | by rewrite (kp_last _ _ K2), (kp_last _ _ K1) |].
  intros id c (c0 & E & Hc)%(kp_from _ _ K2). apply (kp_from _ _ K1) in E as (c1 & E & Hc1). exists c1. split; [done | congruence].
Qed.

Lemma kept_change b b' id c c' : view b !! id = Some c -> view b' = <[id := c']> (view b) -> c_key c' = c_key c ->
  key_ b' = key_ b -> last_used_id_ b' = last_used_id_ b -> kept b b'.
Proof.
  intros Hid Hv Hk Hkey Hlast. split; [done | done |]. rewrite Hv.
  intros i c0 [[<- <-]|[_ E]]%lookup_insert_Some; eauto.
Qed.

Lemma kept_cleared s b b' : cleared s b b' -> kept b b'.
Proof. intros K. split; apply K. Qed.

Lemma sizes_wrapped U b : inv U b ->
  wrap 32 (new_entries_size_ b) = new_entries_size_ b /\ wrap 32 (tried_entries_size_ b) = tried_entries_size_ b.
Proof. intros HI. rewrite (inv_new_size _ _ HI), (inv_tried_size _ _ HI). unfold wrap. by rewrite !Z.mod_mod by lia. Qed.
End facts.
End AddressBookFacts.
