(* ===== verification/AddressBookInvariant.v ===== *)
(** * The operations of the address book keep it consistent

    Every public operation of the book, on any book that satisfies the invariant
    of [AddressBookFacts], runs to its end without failing an assertion and
    leaves a book that satisfies it again. *)

From stdpp Require Import gmap.
From S2P Require Import Prelude Text Stream Boost Serialize Types Random Protocol Addresses Payloads AddressBook AddressBookFacts.
#[local] Open Scope Z_scope.

Module AddressBookInvariant.
Import AddressBook AddressBookFacts.

Section invariant.
Context `{BoostLaws} `{CryptoLaws}.

Lemma runs_evict U s ev b (Q : unit -> t -> Prop) : inv U b -> tried_buckets_ b !! xy s = Some ev ->
  (forall b', inv U b' -> kept b b' -> tried_buckets_ b' = delete (xy s) (tried_buckets_ b) ->
     (forall id c, view b !! id = Some c -> id ∈ U -> view b' !! id = Some c) -> Q () b') ->
  runs (evict_tried s ev) b Q.
Proof.
  intros HI Hev HQ. destruct (proj1 (ro_tried _ _ _ _ (inv_refs _ _ HI) (xy s) ev) Hev) as (c & Hc & Ht).
  destruct (view_lookup b ev c Hc) as (e & He & Hce & Hf).
  assert (HU : ev ∉ U) by (intros HU; apply (ro_free _ _ _ _ (inv_refs _ _ HI) ev c Hc) in HU as [_ E]; congruence).
  assert (Hn : c_new c = ∅).
  { destruct (decide (c_new c = ∅)) as [|Hn]; [done|]. apply (ro_used _ _ _ _ (inv_refs _ _ HI) ev c Hc HU) in Hn. congruence. }
  destruct (eo_routable _ _ (inv_entries _ _ HI) ev c Hc) as [Hr1 Hr2].
  unfold evict_tried. apply runs_bind, (runs_must_find _ _ _ _ Hf).
  pose proof Hc as Hc'. subst c. simpl in Hn, Ht, Hr1, Hr2.
  apply runs_bind, runs_assert; [by apply bool_decide_eq_true_2|].
  apply runs_bind, runs_assert; [by apply bool_decide_eq_true_2|].
  apply runs_bind. apply (runs_update ev _ (set_c_tried None) (core_of e)); [done | done | done |]. intros X HX HP.
  apply runs_bind, runs_modify, runs_bind, runs_modify.
  set (c1 := set_c_tried None (core_of e)) in *.
  set (b1 := set_tried_size _ _). assert (Hv1 : view b1 = <[ev := c1]> (view b)) by done.
  assert (HI1 : inv ({[ev]} ∪ U) b1).
  { apply (inv_change U _ b b1 ev (core_of e) c1); try done.
    - rewrite Hv1. by apply (refs_untry U); [apply HI | ..].
    - rewrite !has_new_no by done. cbn [one]. rewrite Z.sub_0_r, Z.add_0_r. symmetry. exact (proj1 (sizes_wrapped U b HI)).
    - rewrite (has_tried_yes (core_of e) (xy s)), (has_tried_no c1) by done. cbn [one]. by rewrite Z.add_0_r.
    - change (order_ok (randomly_ordered_ids_ b) (place_of <$> X)). rewrite HP. apply HI. }
  assert (K1 : kept b b1) by (by apply (kept_change _ _ ev (core_of e) c1)).
  destruct (get_new_slot_ok (list_it e) (NodeServiceInfo.origin_ (list_it e)) b1) as (sl & Hsl & Hfit);
    [apply HI1 | done | done |].
  apply runs_bind, (runs_lift _ _ _ _ Hsl), runs_bind. apply (runs_clear ({[ev]} ∪ U)); [done | done |].
  intros b2 HI2 Hcl.
  assert (Hv2 : view b2 !! ev = Some c1) by (apply (cl_keep _ _ _ Hcl); [by rewrite Hv1, lookup_insert_eq | simpl; rewrite Hn; set_solver]).
  apply runs_bind. apply (runs_put sl ev c1); [done | simpl; rewrite Hn; set_solver | rewrite (cl_new _ _ _ Hcl); apply lookup_delete_eq |].
  intros Y HY HPY. apply runs_modify.
  set (c2 := set_c_new ({[xy sl]} ∪ c_new c1) c1) in *. set (b3 := set_new_size _ _).
  assert (Hv3 : view b3 = <[ev := c2]> (view b2)) by done.
  assert (HUeq : ({[ev]} ∪ U) ∖ {[ev]} = U) by set_solver.
  apply HQ.
  - rewrite <- HUeq. apply (inv_change ({[ev]} ∪ U) _ b2 b3 ev c1 c2); try done.
    + rewrite Hv3. apply refs_add; [apply HI2 | done | done | | by apply slot_fits_ok |].
      * rewrite (cl_new _ _ _ Hcl). apply lookup_delete_eq.
      * simpl. rewrite Hn, size_empty. lia.
    + rewrite (has_new_no c1), (has_new_yes c2) by (done || simpl; set_solver). cbn [one]. by rewrite Z.sub_0_r.
    + rewrite !has_tried_no by done. cbn [one]. rewrite Z.sub_0_r, Z.add_0_r.
      symmetry. exact (proj2 (sizes_wrapped _ b2 HI2)).
    + change (order_ok (randomly_ordered_ids_ b2) (place_of <$> Y)). rewrite HPY. apply HI2.
  - eapply kept_trans; [exact K1|]. eapply kept_trans; [by eapply kept_cleared|]. by apply (kept_change _ _ ev c1 c2).
  - change (tried_buckets_ b2 = delete (xy s) (tried_buckets_ b)). by rewrite (cl_tried _ _ _ Hcl).
  - intros id c Hid HidU. rewrite Hv3, lookup_insert_ne by set_solver. apply (cl_keep _ _ _ Hcl).
    + rewrite Hv1, lookup_insert_ne by set_solver. done.
    + destruct (ro_free _ _ _ _ (inv_refs _ _ HI) id c Hid HidU) as [-> _]. set_solver.
Qed.

Lemma runs_put_tried sl id c1 b2 (Q : unit -> t -> Prop) : inv {[id]} b2 -> tried_buckets_ b2 !! xy sl = None ->
  view b2 !! id = Some c1 -> tried_slot_ok (xy sl) ->
  (forall b3, inv ∅ b3 -> kept b2 b3 -> view b3 !! id = Some (set_c_tried (Some (xy sl)) c1) -> Q () b3) ->
  runs (put_tried_ref sl id) b2 Q.
Proof.
  intros HI2 Hfree Hv2 Hok HQ. unfold put_tried_ref.
  apply runs_bind, runs_get, runs_bind, runs_assert; [by apply bool_decide_eq_true_2|].
  destruct (ro_free _ _ _ _ (inv_refs _ _ HI2) id c1 Hv2) as [Hn Ht]; [set_solver|].
  apply runs_bind, runs_modify, runs_bind.
  apply (runs_update id _ (set_c_tried (Some (xy sl))) c1); [done | done | done |]. intros Y HY HPY. apply runs_modify.
  set (c2 := set_c_tried (Some (xy sl)) c1) in *. set (b3 := set_tried_size _ _).
  assert (Hv3 : view b3 = <[id := c2]> (view b2)) by done. apply HQ.
  - replace ∅ with ({[id]} ∖ {[id]} : gset Z) by set_solver.
    apply (inv_change {[id]} _ b2 b3 id c1 c2); try done.
    + rewrite Hv3. by apply refs_try; [apply HI2 | | set_solver | |].
    + rewrite !has_new_no by done. cbn [one]. rewrite Z.sub_0_r, Z.add_0_r.
      symmetry. exact (proj1 (sizes_wrapped _ b2 HI2)).
    + rewrite (has_tried_no c1), (has_tried_yes c2 (xy sl)) by done. cbn [one]. by rewrite Z.sub_0_r.
    + change (order_ok (randomly_ordered_ids_ b2) (place_of <$> Y)). rewrite HPY. apply HI2.
  - by apply (kept_change _ _ id c1 c2).
  - by rewrite Hv3, lookup_insert_eq.
Qed.

Lemma runs_make_tried id c b (Q : unit -> t -> Prop) : inv ∅ b -> view b !! id = Some c ->
  (forall b', inv ∅ b' -> kept b b' -> (exists c', view b' !! id = Some c' /\ c_key c' = c_key c /\ is_Some (c_tried c')) -> Q () b') ->
  runs (make_entry_tried id) b Q.
Proof.
  intros HI Hc HQ. destruct (view_lookup b id c Hc) as (e & He & Hce & Hf).
  destruct (eo_routable _ _ (inv_entries _ _ HI) id c Hc) as [Hr1 _].
  unfold make_entry_tried. apply runs_bind, (runs_must_find _ _ _ _ Hf). subst c. simpl in Hr1.
  destruct (bool_decide_reflect (is_Some (NodeServiceInfo.tried_ref_ (list_it e)))) as [Hs|Hs].
  { apply runs_ret, HQ; [done | apply kept_refl | eauto]. }
  assert (Ht : c_tried (core_of e) = None) by (simpl; by destruct (NodeServiceInfo.tried_ref_ (list_it e)); [destruct Hs|]).
  assert (Hn : c_new (core_of e) <> ∅) by (by apply (ro_used _ _ _ _ (inv_refs _ _ HI) id _ Hc); [set_solver|]).
  cbv zeta. rewrite (bool_decide_eq_false_2 (NodeServiceInfo.new_refs_ (list_it e) = ∅)) by done.
  apply runs_bind, runs_modify, runs_bind, runs_modify, runs_bind.
  apply (runs_update id _ (set_c_new ∅) (core_of e)); [done | done | done |]. intros X HX HP.
  set (c1 := set_c_new ∅ (core_of e)) in *. set (b1 := set_index X _).
  assert (Hv1 : view b1 = <[id := c1]> (view b)) by done.
  assert (HI1 : inv {[id]} b1).
  { apply (inv_change ∅ _ b b1 id (core_of e) c1); try done.
    - rewrite Hv1. replace {[id]} with ({[id]} ∪ ∅ : gset Z) by set_solver. by apply refs_drop; [apply HI | ..].
    - rewrite (has_new_yes (core_of e)), (has_new_no c1) by done. cbn [one]. by rewrite Z.add_0_r.
    - rewrite !has_tried_no by done. cbn [one]. rewrite Z.sub_0_r, Z.add_0_r.
      symmetry. exact (proj2 (sizes_wrapped _ b HI)).
    - change (order_ok (randomly_ordered_ids_ b) (place_of <$> X)). rewrite HP. apply HI. }
  assert (K1 : kept b b1) by (by apply (kept_change _ _ id (core_of e) c1)).
  destruct (get_tried_slot_ok (list_it e) b1) as (sl & Hsl & Hok); [apply HI1 | done |].
  apply runs_bind, (runs_lift _ _ _ _ Hsl), runs_bind, runs_get, runs_bind.
  assert (Hend : forall b2, inv {[id]} b2 -> kept b1 b2 -> tried_buckets_ b2 !! xy sl = None -> view b2 !! id = Some c1 ->
    runs (put_tried_ref sl id) b2 Q).
  { intros b2 HI2 K2 Hfree Hv2. apply (runs_put_tried sl id c1 b2); [done.. |]. intros b3 HI3 K3 Hv3.
    apply HQ; [done | | exists (set_c_tried (Some (xy sl)) c1); split; [done | by split]].
    eapply kept_trans; [exact K1|]. by eapply kept_trans. }
  destruct (tried_buckets_ b1 !! xy sl) as [ev|] eqn:Hev.
  - apply (runs_evict {[id]} sl ev b1); [done | done |]. intros b2 HI2 K2 HT Hkeep.
    apply Hend; [done | done | rewrite HT; apply lookup_delete_eq |].
    apply Hkeep; [by rewrite Hv1, lookup_insert_eq | set_solver].
  - apply runs_ret, Hend; [done | apply kept_refl | done | by rewrite Hv1, lookup_insert_eq].
Qed.

(** ** Lookups by endpoint *)

Lemma compare_endpoints a c : IPEndpoint.compare a c = Eq <-> a = c.
Proof.
  unfold IPEndpoint.compare. pose proof (address_compare_eq (IPEndpoint.address_ a) (IPEndpoint.address_ c)) as Hac.
  destruct (address_compare _ _) eqn:E; [|split; [done | intros ->; by apply Hac]..].
  rewrite Z.compare_eq_iff. destruct a, c; simpl in *. split; [intros ->; by rewrite (proj1 Hac eq_refl) | by intros [= -> ->]].
Qed.

Lemma lookup_endpoint_some e b id info : lookup_endpoint e b = Some (id, info) ->
  exists c, view b !! id = Some c /\ c_key c = e /\ lookup_id id b = Some info.
Proof.
  unfold lookup_endpoint. destruct (list_find _ _) as [[i [id' en]]|] eqn:E; [|done]. intros [= <- <-].
  apply list_find_Some in E as (Hi & He & _). simpl in He. apply compare_endpoints in He.
  apply list_elem_of_lookup_2, elem_of_map_to_list in Hi. exists (core_of en).
  unfold view, lookup_id. rewrite lookup_fmap, Hi. by split_and!.
Qed.

Lemma lookup_endpoint_none e b : lookup_endpoint e b = None -> forall id c, view b !! id = Some c -> c_key c <> e.
Proof.
  unfold lookup_endpoint. destruct (list_find _ _) as [[i [id' en]]|] eqn:E; [done|]. intros _ id c Hc <-.
  apply list_find_None in E. unfold view in Hc. rewrite lookup_fmap in Hc.
  destruct (list_index_ b !! id) as [en|] eqn:Ei; [|done]. injection Hc as <-.
  rewrite Forall_forall in E. apply (E (id, en)); [by apply elem_of_map_to_list | by apply compare_endpoints].
Qed.

Lemma contains_endpoint_view e b : contains_endpoint e b = true <-> exists id c, view b !! id = Some c /\ c_key c = e.
Proof.
  unfold contains_endpoint. destruct (lookup_endpoint e b) as [[id info]|] eqn:E.
  - apply lookup_endpoint_some in E as (c & Hc & Hk & _). split; eauto.
  - split; [done|]. intros (id & c & Hc & Hk). by apply (lookup_endpoint_none e b E) in Hc.
Qed.

(** An assignment that concerns neither references nor identity. *)
Lemma runs_touch id f b (Q : unit -> t -> Prop) : inv ∅ b -> is_Some (view b !! id) ->
  (forall e, core_of (with_info f e) = core_of e) ->
  (forall i, NodeServiceInfo.random_pos_ (f i) = NodeServiceInfo.random_pos_ i) ->
  (forall b', inv ∅ b' -> kept b b' -> view b' = view b -> Q () b') -> runs (update_info id f) b Q.
Proof.
  intros HI [c Hc] Hf Hp HQ. apply (runs_update id f (λ c, c) c); [done | done | done |]. intros X HX HP.
  rewrite insert_id in HX by done. set (b1 := set_index X b). assert (Hv : view b1 = view b) by done.
  assert (Hpos : positions b1 = positions b) by done.
  apply HQ; [| |done].
  - split; try apply HI; rewrite ?Hv; try apply HI. rewrite Hpos. apply HI.
  - split; [done | done |]. rewrite Hv. eauto.
Qed.

(** ** Insertions *)

Definition allows (b b' : t) : Prop :=
  key_ b' = key_ b /\ last_used_id_ b <= last_used_id_ b' <= last_used_id_ b + 1.

Lemma kept_allows b b' : kept b b' -> allows b b'.
Proof. intros K. split; [apply K|]. rewrite (kp_last _ _ K). lia. Qed.

Lemma runs_add_ref sl id c b2 (Q : unit -> t -> Prop) : inv ∅ b2 -> view b2 !! id = Some c -> slot_fits sl ->
  c_tried c = None -> (base.size (c_new c) < 8)%nat ->
  (forall b', inv ∅ b' -> kept b2 b' -> (exists c', view b' !! id = Some c' /\ c_key c' = c_key c) -> Q () b') ->
  runs (add_new_ref sl id (c_new c)) b2 Q.
Proof.
  intros HI2 Hc2 Hfit Ht Hlt HQ. unfold add_new_ref. apply runs_bind, runs_get.
  destruct (bool_decide_reflect (xy sl ∈ c_new c)) as [Hin|Hin].
  { apply runs_assert; [|apply HQ; eauto using kept_refl]. apply bool_decide_eq_true_2. exists id.
    apply (ro_new _ _ _ _ (inv_refs _ _ HI2)). eauto. }
  assert (Hnn : c_new c <> ∅) by (by apply (ro_used _ _ _ _ (inv_refs _ _ HI2) id c Hc2); [set_solver|]).
  apply runs_bind. apply (runs_mono _ _ (λ _ b3, inv ∅ b3 /\ kept b2 b3 /\ view b3 !! id = Some c /\ new_buckets_ b3 !! xy sl = None)).
  { destruct (new_buckets_ b2 !! xy sl) as [o|] eqn:Eo; [|apply runs_ret; split_and!; by try apply kept_refl].
    apply runs_bind, runs_assert.
    { apply negb_true_iff, Z.eqb_neq. intros ->. apply (ro_new _ _ _ _ (inv_refs _ _ HI2)) in Eo as (c0 & E & Hin0). congruence. }
    apply (runs_clear ∅); [done | done |]. intros b3 HI3 Hcl. split_and!; [done | by eapply kept_cleared | |].
    - by apply (cl_keep _ _ _ Hcl).
    - rewrite (cl_new _ _ _ Hcl). apply lookup_delete_eq. }
  intros [] b3 (HI3 & K3 & Hv3 & Hn3). apply runs_bind. apply (runs_put sl id c); [done | done | done |]. intros X HX HP.
  set (c1 := set_c_new ({[xy sl]} ∪ c_new c) c) in *. set (b4 := set_new _ _).
  assert (Hv4 : view b4 = <[id := c1]> (view b3)) by done.
  assert (Hv4' : view b4 !! id = Some c1) by (by rewrite Hv4, lookup_insert_eq).
  assert (HI4 : inv ∅ b4).
  { replace ∅ with (∅ ∖ {[id]} : gset Z) by set_solver. apply (inv_change ∅ _ b3 b4 id c c1); try done.
    - rewrite Hv4. apply refs_add; [apply HI3 | done | done | done | by apply slot_fits_ok | done].
    - rewrite !has_new_yes by (done || simpl; set_solver). replace (_ - _ + _) with (new_entries_size_ b3) by lia.
      symmetry. exact (proj1 (sizes_wrapped _ b3 HI3)).
    - rewrite !has_tried_no by done. cbn [one]. rewrite Z.sub_0_r, Z.add_0_r. symmetry. exact (proj2 (sizes_wrapped _ b3 HI3)).
    - change (order_ok (randomly_ordered_ids_ b3) (place_of <$> X)). rewrite HP. apply HI3. }
  destruct (view_lookup b4 id c1 Hv4') as (e4 & _ & He4 & Hf4). apply runs_bind, (runs_must_find _ _ _ _ Hf4).
  assert (Hn4 : NodeServiceInfo.new_refs_ (list_it e4) = c_new c1) by (by rewrite <- He4). rewrite Hn4. simpl c_new.
  rewrite size_union, size_singleton by set_solver.
  assert (base.size (c_new c) <> 0%nat) by (by rewrite size_empty_iff, leibniz_equiv_iff).
  rewrite (proj2 (Z.eqb_neq _ _)) by lia. apply runs_ret, HQ; [done | | by exists c1].
  eapply kept_trans; [exact K3|]. by apply (kept_change _ _ id c c1).
Qed.

Lemma runs_update_entry id c service source penalty now draw b (Q : unit -> t -> Prop) :
  inv ∅ b -> view b !! id = Some c -> IPAddress.is_routable source = true ->
  (forall b', inv ∅ b' -> kept b b' -> (exists c', view b' !! id = Some c' /\ c_key c' = c_key c) -> Q () b') ->
  runs (update_entry id service source penalty now draw) b Q.
Proof.
  intros HI Hc Hsrc HQ. unfold update_entry. cbv zeta.
  destruct (view_lookup b id c Hc) as (e0 & _ & _ & Hf0). apply runs_bind, (runs_must_find _ _ _ _ Hf0).
  apply runs_bind.
  assert (Hrest : forall b1, inv ∅ b1 -> kept b b1 -> view b1 = view b -> runs (op_ret ()) b1 (λ _ b', inv ∅ b' /\ kept b b' /\ view b' = view b))
    by (intros; by apply runs_ret).
  eapply (runs_mono _ _ (λ _ b', inv ∅ b' /\ kept b b' /\ view b' = view b)).
  { destruct (_ <? _); [|by apply Hrest; [| apply kept_refl |]].
    apply runs_touch; [done | by exists c | done | done |]. by intros. }
  intros [] b1 (HI1 & K1 & Hv1). apply runs_bind.
  apply runs_touch; [done | by rewrite Hv1; exists c | done | done |]. intros b2 HI2 K2 Hv2.
  assert (K : kept b b2) by (by eapply kept_trans). rewrite Hv1 in Hv2. clear b1 HI1 K1 Hv1 K2 Hrest.
  assert (Hc2 : view b2 !! id = Some c) by (by rewrite Hv2).
  destruct (view_lookup b2 id c Hc2) as (e & He & Hce & Hf). apply runs_bind, (runs_must_find _ _ _ _ Hf).
  destruct (eo_routable _ _ (inv_entries _ _ HI2) id c Hc2) as [Hr _].
  pose proof (ro_used _ _ _ _ (inv_refs _ _ HI2) id c Hc2 (not_elem_of_empty id)) as Hx.
  pose proof (ro_max _ _ _ _ (inv_refs _ _ HI2) id c Hc2) as Hmax.
  apply runs_bind, runs_assert.
  { subst c. simpl in Hx. destruct (bool_decide_reflect (NodeServiceInfo.new_refs_ (list_it e) = ∅)) as [E|E];
      destruct (bool_decide_reflect (is_Some (NodeServiceInfo.tried_ref_ (list_it e)))) as [[s Hs]|Hs]; try done.
    - destruct (NodeServiceInfo.tried_ref_ (list_it e)) eqn:Et; [by destruct Hs|]. exfalso. by apply (proj2 Hx eq_refl).
    - apply Hx in E. congruence. }
  assert (Hdone : runs (op_ret ()) b2 Q) by (apply runs_ret, HQ; eauto).
  destruct (_ || _ || _) eqn:Estop; [done|]. apply orb_false_iff in Estop as [Estop Hsz]. apply orb_false_iff in Estop as [_ Htr].
  destruct (negb _); [done|].
  assert (Hr' : IPAddress.is_routable (IPEndpoint.address_ (NodeService.endpoint_ (NodeServiceInfo.service_ (list_it e)))) = true)
    by (subst c; exact Hr).
  destruct (get_new_slot_ok (list_it e) source b2) as (sl & Hsl & Hfit); [apply HI2 | done | done |].
  apply runs_bind, (runs_lift _ _ _ _ Hsl).
  assert (Hnew : NodeServiceInfo.new_refs_ (list_it e) = c_new c) by (by subst c). rewrite Hnew in *.
  apply (runs_add_ref sl id c); [done | done | done | | |].
  - apply bool_decide_eq_false in Htr. subst c. simpl. by destruct (NodeServiceInfo.tried_ref_ (list_it e)); [destruct Htr|].
  - apply Z.eqb_neq in Hsz. unfold kMaxNewBucketReferences in Hsz. lia.
  - intros b3 HI3 K3 Hv3. apply HQ; [done | by eapply kept_trans | done].
Qed.

Lemma inv_next_id b : inv ∅ b -> last_used_id_ b + 1 < 2 ^ 32 -> inv ∅ (set_last_id (wrap 32 (last_used_id_ b + 1)) b).
Proof.
  intros HI Hroom. pose proof (inv_last _ _ HI). unfold wrap. rewrite Z.mod_small by lia.
  destruct HI as [I1 I2 I3 I4 I5 I6 I7]. split; try done; [simpl; lia|].
  destruct I4 as [E1 E2 E3 E4]. split; try done. intros id c Hc. apply E1 in Hc. simpl. lia.
Qed.

Lemma runs_insert_entry service source penalty b (Q : Z * bool -> t -> Prop) :
  inv ∅ b -> last_used_id_ b + 1 < 2 ^ 32 -> IPAddress.is_routable source = true ->
  IPAddress.is_routable (IPEndpoint.address_ (NodeService.endpoint_ service)) = true ->
  (forall id c, view b !! id = Some c -> c_key c <> NodeService.endpoint_ service) ->
  (forall b', inv ∅ b' -> allows b b' ->
     (exists c, view b' !! last_used_id_ b = Some c /\ c_key c = NodeService.endpoint_ service) -> Q (last_used_id_ b, true) b') ->
  runs (insert_entry service source penalty) b Q.
Proof.
  intros HI Hroom Hsrc Hsvc Hfree HQ. unfold insert_entry. apply runs_bind, runs_get, runs_bind, runs_modify.
  set (id := last_used_id_ b) in *. set (b1 := set_last_id _ b). pose proof (inv_next_id b HI Hroom) as HI1. fold id b1 in HI1.
  assert (Hid : 1 <= id < 2 ^ 32) by apply (inv_last _ _ HI).
  assert (Hl1 : last_used_id_ b1 = id + 1) by (unfold b1, wrap; simpl; apply Z.mod_small; lia).
  cbv zeta. set (info := with_service _ (NodeServiceInfo.make service source)).
  destruct (get_new_slot_ok info source b1) as (sl & Hsl & Hfit); [apply HI1 | done | exact Hsvc |].
  apply runs_bind, (runs_lift _ _ _ _ Hsl), runs_bind. apply (runs_clear ∅); [done | done |]. intros b2 HI2 Hcl.
  assert (Hn2 : new_buckets_ b2 !! xy sl = None) by (rewrite (cl_new _ _ _ Hcl); apply lookup_delete_eq).
  apply runs_bind, runs_get, runs_bind, runs_assert; [by apply bool_decide_eq_true_2|].
  apply runs_bind, runs_modify, runs_bind, runs_get, runs_bind, runs_modify, runs_bind, runs_get, runs_bind, runs_modify,
    runs_bind, runs_modify, runs_ret.
  set (info' := NodeServiceInfo.set_random_pos _ _). set (b3 := set_ids _ (set_new _ b2)).
  assert (Hv2 : view b2 !! id = None).
  { destruct (view b2 !! id) as [c|] eqn:E; [|done]. apply (cl_from _ _ _ Hcl) in E as (c0 & E & _).
    apply (eo_ids _ _ (inv_entries _ _ HI)) in E. unfold id in E. lia. }
  assert (Hcid : contains_id id b3 = false).
  { apply bool_decide_eq_false_2. intros [e E]. unfold view in Hv2. rewrite lookup_fmap in Hv2.
    change (list_index_ b2 !! id = Some e) in E. by rewrite E in Hv2. }
  assert (Hk2 : forall i c, view b2 !! i = Some c -> c_key c <> NodeService.endpoint_ service).
  { intros i c (c0 & E & <-)%(cl_from _ _ _ Hcl). by apply (Hfree i). }
  assert (Hcep : contains_endpoint (NodeService.endpoint_ service) b3 = false).
  { destruct (contains_endpoint _ b3) eqn:E; [|done]. apply contains_endpoint_view in E as (i & c & E & Ek). by apply Hk2 in E. }
  rewrite Hcid, Hcep. cbn [orb negb]. unfold index_insert. rewrite Hcid, Hcep. cbn [orb].
  set (b4 := set_new_size _ _). set (c := core_of (Entry (NodeService.endpoint_ service) info')).
  assert (Hv4 : view b4 = <[id := c]> (view b2)) by (unfold view, b4; simpl; by rewrite fmap_insert).
  assert (Hp4 : positions b4 = <[id := wrap 32 (zlen (randomly_ordered_ids_ b2))]> (positions b2))
    by (unfold positions, b4; simpl; by rewrite fmap_insert).
  assert (Hl4 : last_used_id_ b4 = id + 1) by (change (last_used_id_ b2 = id + 1); by rewrite (cl_last _ _ _ Hcl)).
  apply HQ.
  - split.
    + apply HI2.
    + rewrite Hl4. lia.
    + rewrite Hv4. apply (refs_insert ∅ _ _ _ id c (xy sl)); [apply HI2 | done | set_solver | done | by apply slot_fits_ok | done | done].
    + rewrite Hv4, Hl4. apply entries_insert; try done; [|lia]. destruct (inv_entries _ _ HI2) as [E1 E2 E3 E4]. split; try done.
      intros i c0 E. apply (cl_from _ _ _ Hcl) in E as (c1 & E & _). by apply (eo_ids _ _ (inv_entries _ _ HI)) in E.
    + rewrite Hv4, tally_insert by done. change (new_entries_size_ b4) with (wrap 32 (new_entries_size_ b2 + 1)).
      rewrite (inv_new_size _ _ HI2), wrap_add_wrap. rewrite (has_new_yes c); [done | simpl; set_solver].
    + rewrite Hv4, tally_insert by done. change (tried_entries_size_ b4) with (tried_entries_size_ b2).
      rewrite (inv_tried_size _ _ HI2), (has_tried_no c) by done. cbn [one]. by rewrite Z.add_0_r.
    + rewrite Hp4. pose proof (ids_bound ∅ b2 HI2). unfold wrap. rewrite (Z.mod_small (zlen _)) by lia.
      change (randomly_ordered_ids_ b4) with (randomly_ordered_ids_ b2 ++ [id]). apply order_push; [apply HI2|].
      destruct (positions b2 !! id) eqn:E; [|done]. apply elem_of_dom_2 in E. rewrite dom_view in E.
      apply elem_of_dom in E as [? E]. unfold view in E, Hv2. congruence.
  - split; [by apply (cl_key _ _ _ Hcl)|]. rewrite Hl4. unfold id. lia.
  - exists c. by rewrite Hv4, lookup_insert_eq.
Qed.

(** ** Public operations *)

Definition routable_service (s : NodeService.t) : Prop :=
  IPAddress.is_routable (IPEndpoint.address_ (NodeService.endpoint_ s)) = true.

Lemma runs_insert_or_update service source penalty now draw b :
  inv ∅ b -> last_used_id_ b + 1 < 2 ^ 32 -> IPAddress.is_routable source = true -> routable_service service ->
  runs (insert_or_update_impl service source penalty now draw) b (λ r b',
    inv ∅ b' /\ allows b b' /\ r = negb (contains_endpoint (NodeService.endpoint_ service) b) /\
    contains_endpoint (NodeService.endpoint_ service) b' = true).
Proof.
  intros HI Hroom Hsrc Hsvc. unfold insert_or_update_impl, contains_endpoint at 1. cbv zeta.
  set (pen := if decide _ then 0 else penalty). clearbody pen. unfold runs.
  destruct (lookup_endpoint (NodeService.endpoint_ service) b) as [[id info]|] eqn:E.
  - apply lookup_endpoint_some in E as (c & Hc & Hk & _). apply runs_bind.
    apply (runs_update_entry id c); [done | done | done |]. intros b' HI' K (c' & Hc' & Hk').
    apply runs_ret. split_and!; [done | by apply kept_allows | done |]. apply contains_endpoint_view. exists id, c'. split; [done | congruence].
  - pose proof (lookup_endpoint_none _ _ E) as Hfree. apply runs_bind.
    apply runs_insert_entry; [done..|]. intros b' HI' Hal (c & Hc & Hk). cbn [fst snd]. apply runs_bind.
    apply runs_touch; [done | by exists c | done | done |]. intros b'' HI'' K Hv.
    apply runs_ret. split_and!; [done | | done |].
    + destruct Hal as [Hal1 Hal2]. split; [by rewrite (kp_key _ _ K) | by rewrite (kp_last _ _ K)].
    + apply contains_endpoint_view. exists (last_used_id_ b), c. by rewrite Hv.
Qed.

Definition room (b : t) (n : Z) : Prop := last_used_id_ b + n < 2 ^ 32.

Lemma runs_insert_loop services : forall source penalty now seen draw b, inv ∅ b -> room b (zlen services) ->
  IPAddress.is_routable source = true -> Forall routable_service services ->
  runs (insert_or_update_loop services source penalty now seen draw) b (λ r b',
    inv ∅ b' /\ key_ b' = key_ b /\ last_used_id_ b' <= last_used_id_ b + zlen services /\ r.2 = zlen r.1).
Proof.
  induction services as [|it rest IH]; intros source penalty now seen draw b HI Hroom Hsrc Hsvc; unfold room in Hroom.
  { apply runs_ret. change (zlen []) with 0. split_and!; (done || lia). }
  apply Forall_cons in Hsvc as [Hit Hrest]. cbn [insert_or_update_loop]. cbv zeta. rewrite zlen_cons in *. pose proof (zlen_nonneg rest).
  assert (Hdiscard : forall seen draw b0, inv ∅ b0 -> key_ b0 = key_ b -> last_used_id_ b0 <= last_used_id_ b + 1 ->
    runs (insert_or_update_loop rest source penalty now seen draw) b0 (λ r b',
      inv ∅ b' /\ key_ b' = key_ b /\ last_used_id_ b' <= last_used_id_ b + (1 + zlen rest) /\ r.2 = zlen r.1)).
  { intros seen0 draw0 b0 HI0 Hk0 Hl0. eapply runs_mono; [apply (IH source penalty now seen0 draw0 b0); try done; unfold room; lia|].
    intros r b' (HI' & Hk' & Hl' & Hr'). split_and!; [done | congruence | lia | done]. }
  replace (zlen rest + 1) with (1 + zlen rest) by lia.
  destruct (_ =? 0); [apply Hdiscard; (done || lia)|]. destruct (existsb _ _); [apply Hdiscard; (done || lia)|].
  set (it' := if _ : bool then NodeService.set_time _ it else it).
  assert (Hit' : routable_service it') by (unfold it'; by destruct (_ || _)).
  apply runs_bind. eapply runs_mono; [by apply runs_insert_or_update; [| lia | |]|].
  intros added b1 (HI1 & [Hk1 Hl1] & _ & _). apply runs_bind. eapply runs_mono; [apply Hdiscard; [done | done | lia]|].
  intros r b2 (HI2 & Hk2 & Hl2 & Hr2). apply runs_ret. split_and!; [done..|].
  destruct added; cbn [fst snd]; [rewrite zlen_cons; lia | done].
Qed.

(** The three operations that record the outcome of a connection. *)
Lemma runs_record remote f b :
  inv ∅ b -> (forall e, core_of (with_info f e) = core_of e) ->
  (forall i, NodeServiceInfo.random_pos_ (f i) = NodeServiceInfo.random_pos_ i) ->
  runs (λ b, match lookup_endpoint remote b with
             | None => (Success false, b)
             | Some (entry_id, service_info) =>
                 (update_info entry_id f >>;
                  (if bool_decide (NodeServiceInfo.tried_ref_ service_info = None)
                   then make_entry_tried entry_id else op_ret ()) >>;
                  op_ret true) b
             end) b (λ r b', inv ∅ b' /\ kept b b' /\ r = contains_endpoint remote b /\
    (r = true -> exists id c, view b' !! id = Some c /\ c_key c = remote /\ is_Some (c_tried c))).
Proof.
  intros HI Hf Hp. unfold runs, contains_endpoint. destruct (lookup_endpoint remote b) as [[id info]|] eqn:E.
  2: { exists false, b. split; [done|]. split_and!; [done | apply kept_refl | done | done]. }
  apply lookup_endpoint_some in E as (c & Hc & Hk & Hl). apply runs_bind.
  apply runs_touch; [done | by exists c | done | done |]. intros b1 HI1 K1 Hv1. apply runs_bind.
  destruct (bool_decide_reflect (NodeServiceInfo.tried_ref_ info = None)) as [Ht|Ht].
  - apply (runs_make_tried id c); [done | by rewrite Hv1 |]. intros b2 HI2 K2 (c2 & Hc2 & Hk2 & Ht2).
    apply runs_ret. split_and!; [done | by eapply kept_trans | done |]. intros _. exists id, c2. split_and!; [done | congruence | done].
  - apply runs_ret, runs_ret. split_and!; [done | done | done |]. intros _. exists id, c. split_and!; [by rewrite Hv1 | done |].
    destruct (view_lookup b id c Hc) as (e & _ & <- & Hl'). rewrite Hl' in Hl. injection Hl as <-. simpl.
    destruct (NodeServiceInfo.tried_ref_ (list_it e)); [done | by destruct Ht].
Qed.

(** ** Random selections *)

(** A service that may be handed out. *)
Definition eligible (type : option IPAddressType) (now : Z) (b : t) (s : NodeService.t) : Prop :=
  exists id e, list_index_ b !! id = Some e /\ NodeServiceInfo.service_ (list_it e) = s /\
    NodeServiceInfo.is_bad now (list_it e) = false /\ type_matches type (list_it e) = true.

(** The same book up to the random order. *)
Definition reordered (b b' : t) : Prop := kept b b' /\ placeless <$> list_index_ b' = placeless <$> list_index_ b.

Lemma reordered_refl b : reordered b b.
Proof. split; [apply kept_refl | done]. Qed.

Lemma reordered_trans b b' b'' : reordered b b' -> reordered b' b'' -> reordered b b''.
Proof. intros [K1 E1] [K2 E2]. split; [by eapply kept_trans | congruence]. Qed.

Lemma eligible_reordered type now b b' s : reordered b b' -> eligible type now b' s -> eligible type now b s.
Proof.
  intros [_ E] (id & e & He & Hs & Hb & Ht).
  assert (Hl : (placeless <$> list_index_ b) !! id = Some (placeless e)) by (by rewrite <- E, lookup_fmap, He).
  rewrite lookup_fmap in Hl. destruct (list_index_ b !! id) as [e'|] eqn:He'; [|done]. injection Hl as Hk Hsv Hu Ho Ha Hsu Hat Htr Hn.
  exists id, e'. split; [done|]. unfold NodeServiceInfo.is_bad, type_matches in *. by rewrite Hsv, Ha, Hsu, Hat.
Qed.

Definition draws_ok (draw : nat -> Z -> Z -> Z) : Prop := forall n lo hi, lo <= hi -> lo <= draw n lo hi <= hi.

Lemma runs_random_loop fuel : forall i count type now draw ret b, inv ∅ b -> draws_ok draw -> 0 <= i ->
  Z.of_nat fuel = zlen (randomly_ordered_ids_ b) - i -> zlen ret <= Z.max 0 count -> NoDup (NodeService.endpoint_ <$> ret) ->
  Forall (eligible type now b) ret ->
  runs (random_services_loop fuel i count type now draw ret) b (λ r b',
    inv ∅ b' /\ reordered b b' /\ zlen r <= Z.max 0 count /\ NoDup (NodeService.endpoint_ <$> r) /\ Forall (eligible type now b) r).
Proof.
  induction fuel as [|fuel IH]; intros i count type now draw ret b HI Hd Hi Hf Hl Hnd Hel; cbn [random_services_loop].
  { apply runs_ret. split_and!; try done; apply reordered_refl. }
  destruct (Z.leb_spec count (zlen ret)). { apply runs_ret. split_and!; try done; apply reordered_refl. }
  apply runs_bind, runs_get. set (ids := randomly_ordered_ids_ b) in *. cbv zeta.
  pose proof (ids_bound ∅ b HI) as Hb. fold ids in Hb.
  set (k := Random.randomize (draw O) 0 (zlen ids - i - 1) + i).
  assert (Hk : i <= k < zlen ids).
  { unfold k, Random.randomize. destruct (Z.eqb_spec 0 (zlen ids - i - 1)); [lia|]. pose proof (Hd O 0 (zlen ids - i - 1)). lia. }
  unfold wrap. rewrite !Z.mod_small by lia. apply runs_bind.
  destruct (lookup_lt_is_Some_2 ids (Z.to_nat i)) as [a Ha]; [lia|].
  destruct (lookup_lt_is_Some_2 ids (Z.to_nat k)) as [c Hc]; [lia|].
  apply (runs_swap i k a c); [lia | lia | apply HI | done | done |]. intros ids' X HX HO Hlen _ HX'.
  set (b1 := set_ids ids' (set_index X b)).
  assert (Hv1 : view b1 = view b) by done.
  assert (HI1 : inv ∅ b1) by (split; rewrite ?Hv1; try apply HI; exact HO).
  assert (R1 : reordered b b1) by (split; [split; rewrite ?Hv1; eauto | done]).
  apply runs_bind, runs_get. cbn [randomly_ordered_ids_ set_ids]. destruct (lookup_lt_is_Some_2 ids' (Z.to_nat i)) as [x Hx]; [fold ids in Hlen; lia|].
  change (randomly_ordered_ids_ b1) with ids'. rewrite Hx. cbn [default].
  assert (Hfx : exists e, list_index_ b1 !! x = Some e).
  { apply (proj1 HO) in Hx. rewrite lookup_fmap in Hx. change (list_index_ b1) with X. destruct (X !! x); [eauto | done]. }
  destruct Hfx as [e He]. apply runs_bind, (runs_must_find x (list_it e)); [unfold lookup_id; by rewrite He|].
  assert (Hnext : forall r, zlen r <= Z.max 0 count -> NoDup (NodeService.endpoint_ <$> r) -> Forall (eligible type now b1) r ->
    runs (random_services_loop fuel (i + 1) count type now (λ n, draw (S n)) r) b1 (λ r b',
      inv ∅ b' /\ reordered b b' /\ zlen r <= Z.max 0 count /\ NoDup (NodeService.endpoint_ <$> r) /\ Forall (eligible type now b) r)).
  { intros r Hr1 Hr2 Hr3. eapply runs_mono.
    - apply IH; try done; [by intros n; apply Hd | lia | fold ids in Hlen; change (randomly_ordered_ids_ b1) with ids'; lia].
    - intros r' b' (HI' & R' & Hr1' & Hr2' & Hr3'). split_and!; [done | by eapply reordered_trans | done | done |].
      eapply Forall_impl; [exact Hr3'|]. intros s. by apply eligible_reordered. }
  assert (Hel1 : Forall (eligible type now b1) ret).
  { eapply Forall_impl; [exact Hel|]. intros s. apply eligible_reordered. split; [|by destruct R1].
    split; [done | done |]. rewrite Hv1. eauto. }
  destruct (type_matches type (list_it e)) eqn:Et; cbn [negb]; [|by apply Hnext].
  destruct (NodeServiceInfo.is_bad now (list_it e)) eqn:Eb; [by apply Hnext|].
  destruct (existsb _ ret) eqn:Ex; [by apply Hnext|]. apply Hnext.
  - rewrite zlen_app. change (zlen [NodeServiceInfo.service_ (list_it e)]) with 1. lia.
  - rewrite fmap_app. apply NoDup_app. split; [done|]. split; [|apply NoDup_singleton].
    intros ep (s & -> & Hs)%list_elem_of_fmap Hin. cbn in Hin. apply list_elem_of_singleton in Hin.
    apply not_true_iff_false in Ex. apply Ex. apply existsb_exists. exists s. split; [by apply list_elem_of_In|].
    apply bool_decide_eq_true_2. by apply compare_endpoints.
  - apply Forall_app. split; [done|]. apply Forall_singleton. by exists x, e.
Qed.

(** ** Sequences of calls *)

Inductive call :=
| CInsert (service : NodeService.t) (source : address) (penalty now : Z) (draw : Z -> Z -> Z)
| CInsertAll (services : list NodeService.t) (source : address) (penalty now : Z) (draw : nat -> Z -> Z -> Z)
| CGood (remote : IPEndpoint.t) (version_info : MsgVersionPayload.t) (time : Z)
| CFailed (remote : IPEndpoint.t) (time : Z)
| CTried (remote : IPEndpoint.t) (time : Z)
| CRandom (max_count max_percentage : Z) (type : option IPAddressType) (now : Z) (draw : nat -> Z -> Z -> Z).

Definition perform (c : call) : op t unit :=
  match c with
  | CInsert s src p now d => insert_or_update s src p now d >>; op_ret ()
  | CInsertAll l src p now d => insert_or_update_all l src p now d >>; op_ret ()
  | CGood r v time => set_good r v time >>; op_ret ()
  | CFailed r time => set_failed r time >>; op_ret ()
  | CTried r time => set_tried r time >>; op_ret ()
  | CRandom n p ty now d => get_random_services n p ty now d >>; op_ret ()
  end.

Fixpoint perform_all (cs : list call) : op t unit :=
  match cs with [] => op_ret () | c :: cs => perform c >>; perform_all cs end.

(** What is inserted is routable, and random numbers lie where they should. *)
Definition call_ok (c : call) : Prop :=
  match c with
  | CInsert s src _ _ _ => routable_service s /\ IPAddress.is_routable src = true
  | CInsertAll l src _ _ _ => Forall routable_service l /\ IPAddress.is_routable src = true
  | CRandom _ _ _ _ d => draws_ok d
  | _ => True
  end.

Definition insertions (c : call) : Z :=
  match c with CInsert _ _ _ _ _ => 1 | CInsertAll l _ _ _ _ => zlen l | _ => 0 end.

Lemma insertions_nonneg c : 0 <= insertions c.
Proof. destruct c; simpl; lia. Qed.

Lemma runs_get_random max_count max_percentage type now draw b : inv ∅ b -> draws_ok draw ->
  runs (get_random_services max_count max_percentage type now draw) b (λ r b',
    inv ∅ b' /\ reordered b b' /\ (0 < max_count -> zlen r <= max_count) /\
    NoDup (NodeService.endpoint_ <$> r) /\ Forall (eligible type now b) r).
Proof.
  intros HI Hd. unfold get_random_services. apply runs_bind, runs_get. case_bool_decide.
  { apply runs_ret. split_and!; [done | apply reordered_refl | change (zlen []) with 0; lia | apply NoDup_nil_2 | done]. }
  cbv zeta. set (n := if 0 <? max_percentage then _ else _). set (m := if 0 <? max_count then _ else _).
  eapply runs_mono; [apply (runs_random_loop _ 0 m type now draw [] b HI Hd)|].
  - lia.
  - lia.
  - change (zlen []) with 0. lia.
  - apply NoDup_nil_2.
  - done.
  - intros r b' (HI' & R & Hl & Hnd & Hel). split_and!; try done. intros Hm. unfold m in Hl.
    rewrite (proj2 (Z.ltb_lt _ _)) in Hl by done. lia.
Qed.

Lemma runs_perform c b : inv ∅ b -> call_ok c -> last_used_id_ b + insertions c < 2 ^ 32 ->
  runs (perform c) b (λ _ b', inv ∅ b' /\ last_used_id_ b' <= last_used_id_ b + insertions c).
Proof.
  intros HI Hc Hroom. destruct c as [s src p now d|l src p now d|r v time|r time|r time|n p ty now d]; cbn [perform insertions call_ok] in *.
  - destruct Hc as [H3 H4]. apply runs_bind. eapply runs_mono; [by apply runs_insert_or_update|].
    intros a b' (HI' & [_ Hl] & _). apply runs_ret. split; [done | lia].
  - destruct Hc as [H3 H4]. apply runs_bind, runs_bind. eapply runs_mono; [by apply runs_insert_loop|].
    intros a b' (HI' & _ & Hl & _). apply runs_ret, runs_ret. by split.
  - apply runs_bind. eapply runs_mono; [by apply runs_record|].
    intros a b' (HI' & K & _). apply runs_ret. split; [done|]. rewrite (kp_last _ _ K). lia.
  - apply runs_bind. eapply runs_mono; [by apply runs_record|].
    intros a b' (HI' & K & _). apply runs_ret. split; [done|]. rewrite (kp_last _ _ K). lia.
  - apply runs_bind. eapply runs_mono; [by apply runs_record|].
    intros a b' (HI' & K & _). apply runs_ret. split; [done|]. rewrite (kp_last _ _ K). lia.
  - apply runs_bind. eapply runs_mono; [by apply runs_get_random|].
    intros a b' (HI' & [K _] & _). apply runs_ret. split; [done|]. rewrite (kp_last _ _ K). lia.
Qed.

Lemma inv_make key : length key = 16%nat -> inv ∅ (make key).
Proof.
  intros Hk. split; try done.
  - split; cbn; intros; rewrite ?lookup_empty in *; try done.
    + split; [done | intros (c & E & _)]. unfold view in E. simpl in E. by rewrite fmap_empty, lookup_empty in E.
    + split; [done | intros (c & E & _)]. unfold view in E. simpl in E. by rewrite fmap_empty, lookup_empty in E.
Qed.

Lemma runs_perform_all cs : forall b, inv ∅ b -> Forall call_ok cs ->
  last_used_id_ b + foldr (λ c n, insertions c + n) 0 cs < 2 ^ 32 -> runs (perform_all cs) b (λ _ b', inv ∅ b').
Proof.
  induction cs as [|c cs IH]; intros b HI Hcs Hroom; cbn [perform_all foldr] in *; [by apply runs_ret|].
  apply Forall_cons in Hcs as [Hc Hcs]. apply runs_bind.
  assert (Hn : 0 <= foldr (λ c n, insertions c + n) 0 cs).
  { clear. induction cs as [|c cs IH]; simpl; [lia|]. pose proof (insertions_nonneg c). lia. }
  eapply runs_mono; [by apply runs_perform; [| |lia]|]. intros _ b' [HI' Hl]. apply IH; [done | done | lia].
Qed.

(** An unknown service with an address that is not routable, or from a source that is not, is not refused:
    inserting it fails an assertion, which ends the process. *)
Lemma insert_unroutable (service : NodeService.t) (source : address) (penalty now : Z) (draw : Z -> Z -> Z) (b : t) :
  IPAddress.is_routable (IPEndpoint.address_ (NodeService.endpoint_ service)) = false \/ IPAddress.is_routable source = false ->
  contains_service service b = false ->
  (insert_or_update service source penalty now draw b).1 = Fault AssertionFailed.
Proof.
  intros Hr Hc. unfold insert_or_update, insert_or_update_impl. cbv zeta. unfold contains_service, contains_endpoint in Hc.
  destruct (lookup_endpoint _ b) as [[? ?]|]; [done|]. unfold insert_entry, op_bind at 1 2 3, get at 1, modify at 1, lift at 1.
  unfold get_new_slot. unfold compute_group at 1. destruct (IPAddress.is_routable source) eqn:Es; cbn [negb]; [|done].
  destruct Hr as [Hr|]; [|done].
  assert (Hg : forall a, exists g, IPSubNet.calculate_subnet_base_address a
    (match IPAddress.get_type a with kIPv4 => kIPv4SubnetGroupsPrefix | kIPv6 => kIPv6SubnetGroupsPrefix end) = Success g)
    by (intros []; simpl; eauto).
  destruct (Hg source) as [g ->]. cbn [outcome_bind].
  unfold compute_group at 1. cbn [NodeServiceInfo.service_ with_service NodeServiceInfo.set_service NodeServiceInfo.make
    NodeService.endpoint_ NodeService.set_time]. by rewrite Hr.
Qed.

(** C6: The address book stays consistent: starting from an empty book with a key of 16 octets, any
    sequence of insertions of routable services that come from routable sources, recorded connections and random
    selections, with fewer than [2 ^ 32 - 1] insertions in all, as many as there are identifiers, runs to its end without failing one of the assertions of the code,
    and leaves a book in which buckets and entries refer to each other, every
    entry is in "new" buckets or in a "tried" one but not both, no entry has more
    than eight references, the counters count, and the random order is a
    permutation of the entries in which every entry knows its place.  A service that is not in the book fails an assertion, which ends the
    process, when its address is not routable or its source is not. *)
Theorem book_consistent (key : Bytes) (cs : list call) :
  length key = 16%nat -> Forall call_ok cs -> foldr (λ c n, insertions c + n) 1 cs < 2 ^ 32 ->
  exists b, perform_all cs (make key) = (Success (), b) /\ inv ∅ b /\
    forall service source penalty now draw, contains_service service b = false ->
      IPAddress.is_routable (IPEndpoint.address_ (NodeService.endpoint_ service)) = false \/ IPAddress.is_routable source = false ->
      (perform (CInsert service source penalty now draw) b).1 = Fault AssertionFailed.
Proof.
  intros Hk Hcs Hroom. assert (Hr : 1 + foldr (λ c n, insertions c + n) 0 cs < 2 ^ 32).
  { enough (E : foldr (λ c n, insertions c + n) 1 cs = 1 + foldr (λ c n, insertions c + n) 0 cs) by lia.
    clear. induction cs as [|c cs IH]; simpl; lia. }
  destruct (runs_perform_all cs (make key) (inv_make key Hk) Hcs Hr) as ([] & b & E & HI). exists b. split_and!; [done | done |].
  intros service source penalty now draw Hc Hu. pose proof (insert_unroutable service source penalty now draw b Hu Hc) as Hf.
  cbn [perform]. unfold op_bind. destruct (insert_or_update _ _ _ _ _ b) as [[]?]; cbn [fst] in *; congruence.
Qed.

(** Inserting a routable service in a consistent book reports whether its
    endpoint was unknown, and it is known afterwards, whatever had to make room
    for it. *)
Theorem book_insert (service : NodeService.t) (source : address) (penalty now : Z) (draw : Z -> Z -> Z) (b : t) :
  inv ∅ b -> last_used_id_ b + 1 < 2 ^ 32 -> IPAddress.is_routable source = true -> routable_service service ->
  exists b', insert_or_update service source penalty now draw b =
      (Success (negb (contains_service service b)), b') /\
    inv ∅ b' /\ contains_service service b' = true.
Proof.
  intros HI Hroom Hsrc Hsvc.
  destruct (runs_insert_or_update service source penalty now draw b HI Hroom Hsrc Hsvc) as (r & b' & E & HI' & _ & -> & Hc).
  exists b'. by split_and!.
Qed.

(** Recording a good, a failed or an attempted connection reports whether
    the endpoint is known; if it is, its entry is in a "tried" slot afterwards
    and in no "new" one, and the book is consistent: an entry that held the slot
    has found a place in a "new" one. *)
Theorem book_tried (remote : IPEndpoint.t) (version_info : MsgVersionPayload.t) (time : Z) (b : t)
    (record : op t bool) :
  inv ∅ b -> record = set_good remote version_info time \/ record = set_failed remote time \/ record = set_tried remote time ->
  exists b', record b = (Success (contains_endpoint remote b), b') /\ inv ∅ b' /\
    (contains_endpoint remote b = true -> exists id c s, view b' !! id = Some c /\ c_key c = remote /\
       tried_buckets_ b' !! s = Some id /\ c_new c = ∅).
Proof.
  intros HI Hrec.
  assert (Hr : runs record b (λ r b', inv ∅ b' /\ kept b b' /\ r = contains_endpoint remote b /\
    (r = true -> exists id c, view b' !! id = Some c /\ c_key c = remote /\ is_Some (c_tried c))))
    by (destruct Hrec as [->|[->| ->]]; by apply runs_record).
  destruct Hr as (r & b' & E & HI' & _ & -> & Ht). exists b'. split_and!; [done | done |].
  intros (id & c & Hc & Hk & [s Hs])%Ht. exists id, c, s. split_and!; [done | done | |].
  - apply (ro_tried _ _ _ _ (inv_refs _ _ HI')). eauto.
  - destruct (decide (c_new c = ∅)) as [|Hn]; [done|].
    apply (ro_used _ _ _ _ (inv_refs _ _ HI') id c Hc (not_elem_of_empty id)) in Hn. congruence.
Qed.

(** A random selection from a consistent book returns services of the book
    with pairwise distinct endpoints, none of them bad or of another address
    type, and no more than asked for; it changes the random order only. *)
Theorem book_random (max_count max_percentage : Z) (type : option IPAddressType) (now : Z)
    (draw : nat -> Z -> Z -> Z) (b : t) :
  inv ∅ b -> draws_ok draw ->
  exists r b', get_random_services max_count max_percentage type now draw b = (Success r, b') /\
    inv ∅ b' /\ placeless <$> list_index_ b' = placeless <$> list_index_ b /\
    (0 < max_count -> zlen r <= max_count) /\ NoDup (NodeService.endpoint_ <$> r) /\ Forall (eligible type now b) r.
Proof.
  intros HI Hd. destruct (runs_get_random max_count max_percentage type now draw b HI Hd) as (r & b' & E & HI' & [_ R] & H3 & H4 & H5).
  exists r, b'. by split_and!.
Qed.

End invariant.

Definition sample_key : Bytes := replicate 16 7.
Definition sample_source : address := V4 [5; 6; 7; 8].
Definition sample_remote : IPEndpoint.t := IPEndpoint.mk (V4 [1; 2; 3; 4]) 9033.
Definition sample_service : NodeService.t := NodeService.mk 1700000000 1 sample_remote.
Definition sample_time : Z := 1700000100.

Lemma sample_routable : @routable_service model_boost sample_service /\ @IPAddress.is_routable model_boost sample_source = true.
Proof. by vm_compute. Qed.

Lemma sample_draws : draws_ok (λ _ lo _, lo).
Proof. intros n lo hi Hl. lia. Qed.

Lemma book_consistent_witness : exists b,
  @perform_all model_boost model_crypto
    [CInsert sample_service sample_source 0 sample_time (λ lo _, lo);
     CGood sample_remote MsgVersionPayload.fresh sample_time; CFailed sample_remote sample_time;
     CRandom 10 0 None sample_time (λ _ lo _, lo)] (make sample_key) = (Success (), b) /\
  @inv model_boost ∅ b.
Proof.
  edestruct (@book_consistent model_boost model_boost_laws model_crypto model_crypto_laws sample_key) as (b & E & HI & _);
    [| | |exists b; split; [exact E | exact HI]].
  - done.
  - apply Forall_cons; split; [exact sample_routable|]. apply Forall_cons; split; [exact I|].
    apply Forall_cons; split; [exact I|]. apply Forall_cons; split; [exact sample_draws | by apply Forall_nil].
  - by vm_compute.
Defined.

(** A book with one entry. *)
Definition sample_book : t :=
  (@insert_or_update model_boost model_crypto sample_service sample_source 0 sample_time (λ lo _, lo) (make sample_key)).2.

Lemma sample_book_inv : @inv model_boost ∅ sample_book /\ @contains_endpoint model_boost sample_remote sample_book = true.
Proof.
  destruct (@runs_insert_or_update model_boost model_boost_laws model_crypto model_crypto_laws sample_service sample_source 0 sample_time
    (λ lo _, lo) (make sample_key)) as (r & b' & E & HI & _ & _ & Hc);
    [by apply inv_make | by vm_compute | apply sample_routable | apply sample_routable |].
  unfold sample_book, insert_or_update. rewrite E. split; [exact HI | exact Hc].
Qed.

Lemma book_tried_witness : exists b',
  @set_failed model_boost model_crypto sample_remote sample_time sample_book = (Success true, b') /\ @inv model_boost ∅ b'.
Proof.
  destruct (@book_tried model_boost model_boost_laws model_crypto model_crypto_laws sample_remote MsgVersionPayload.fresh sample_time sample_book
    (@set_failed model_boost model_crypto sample_remote sample_time)) as (b' & E & HI & _).
  - apply sample_book_inv.
  - right. by left.
  - exists b'. split; [rewrite <- (proj2 sample_book_inv); exact E | exact HI].
Defined.

Lemma book_random_witness : exists r b',
  @get_random_services model_boost 10 0 None sample_time (λ _ lo _, lo) sample_book = (Success r, b') /\ zlen r <= 10.
Proof.
  destruct (@book_random model_boost model_boost_laws 10 0 None sample_time (λ _ lo _, lo) sample_book)
    as (r & b' & E & _ & _ & Hl & _).
  - apply sample_book_inv.
  - apply sample_draws.
  - exists r, b'. split; [exact E | by apply Hl].
Defined.
End AddressBookInvariant.
