(* ===== verification/Persistence.v ===== *)
(** * The address book on disk

    Models of [AddressBook::load] and [AddressBook::save], and of the start, the stop and the timer of the
    book, of [src/src/infra/network/addressbook.cpp], over the database as [Database.v] has
    it.  A table that is not deployed is an empty one.

    Not modelled: the opening of the environment and the guard against concurrent
    saves, which never refuses. *)

From stdpp Require Import gmap sorting.
From S2P Require Import Prelude Text Stream Boost Serialize Types Random Protocol Addresses Payloads Meters AddressBook AddressBookFacts Database DatabaseFacts.
#[local] Open Scope Z_scope.

Module Persistence.
Import AddressBook.

Definition kServices : Bytes := str "Services".
Definition kRandomOrder : Bytes := str "RandomOrder".
Definition kBuckets : Bytes := str "Buckets".
Definition kSeedKey : Bytes := str "seed".
Definition kNewTag : Z := 78.
Definition kTriedTag : Z := 84.

(** The items of a [std::map], in its order. *)
Definition by_key {A} (p q : Z * A) : Prop := p.1 <= q.1.
#[global] Instance by_key_dec {A} : RelDecision (@by_key A).
Proof. intros p q. unfold by_key. apply _. Defined.
Definition items {A} (m : gmap Z A) : list (Z * A) := merge_sort by_key (map_to_list m).

Section Persistence.
Context `{Boost} `{Mdbx}.

(** ** Save *)

(** The loop over the entries ends at the first that cannot be serialized; the
    stream is cleared before every use. *)
Fixpoint save_entries (l : list (Z * AddressBookEntry)) (c : cursor) : cursor :=
  match l with
  | [] => c
  | (id, e) :: l =>
      match serialize NodeServiceInfo.serialization (list_it e) (SDataStream.make kStorage 0) with
      | (Success _, _, data_stream) =>
          match DataStream.read None (SDataStream.base data_stream) with
          | (Success v, _) => save_entries l (upsert (be_bytes 4 id) v c)
          | _ => c
          end
      | _ => c
      end
  end.

Fixpoint save_order (ordinal : Z) (ids : list Z) (c : cursor) : cursor :=
  match ids with
  | [] => c
  | entry_id :: ids => save_order (ordinal + 1) ids (upsert (be_bytes 4 ordinal) (be_bytes 4 entry_id) c)
  end.

Definition save_buckets (tag : Z) (l : list (Z * Z)) (c : cursor) : cursor :=
  foldl (λ c p, upsert (tag :: be_bytes 4 p.1) (be_bytes 4 p.2) c) c l.

(** The key is written and the tables are cleared; then the transaction is committed and
    renewed. *)
Definition save_cleared (b : t) (tx : txn) : txn :=
  clear_map kBuckets (clear_map kRandomOrder (clear_map kServices (write_config_value kSeedKey (key_ b) tx))).

Definition save (b : t) (tx : txn) : txn :=
  if empty b then tx
  else
    let tx := save_cleared b tx in
    let tx := cursor_txn (save_entries (items (list_index_ b)) (open_cursor kServices tx)) in
    let tx := cursor_txn (save_order 0 (randomly_ordered_ids_ b) (open_cursor kRandomOrder tx)) in
    cursor_txn (save_buckets kTriedTag (items (tried_buckets_ b))
                  (save_buckets kNewTag (items (new_buckets_ b)) (open_cursor kBuckets tx))).

(** What is on disk after each of the commits of a save, in their order.  An error that is thrown, or the end
    of the process, leaves one of them. *)
Definition save_commits (b : t) (tx : txn) : list txn :=
  if empty b then [] else [tx; save_cleared b tx; save b tx].

(** ** Load *)

(** [load_big_u32] of the first octets. *)
Definition load_big_u32 (data : Bytes) : outcome Z :=
  if zlen data <? 4 then Fault UndefinedBehaviour else Success (be_value (take 4 data)).

Definition fresh_info : NodeServiceInfo.t :=
  NodeServiceInfo.make (NodeService.mk 0 0 (IPEndpoint.of_address IPAddress.default_address)) IPAddress.default_address.

(** A loop over the records of a table from the first on: [to_first], then
    [to_next] as long as there is a record. *)
Definition for_rows {A} (name : Bytes) (tx : txn) (f : row -> A -> op t A) (a : A) : op t A :=
  match walk (λ k v l, l ++ [(k, v)]) Forward (λ _ _, true) (to_first (open_cursor name tx)) [] with
  | Some (_, l, _) => foldl (λ m r, op_bind m (f r)) (op_ret a) l
  | None => op_ret a
  end.

(** A service, and the id of the last one. *)
Definition load_service (r : row) (_ : Z) : op t Z :=
  entry_id <~ lift (load_big_u32 r.1);;
  let data_stream := (SDataStream.lift (DataStream.write r.2) (SDataStream.make kStorage 0)).2 in
  (match deserialize NodeServiceInfo.serialization fresh_info data_stream with
   | (Success _, service_info, _) =>
       modify (index_insert entry_id (NodeService.endpoint_ (NodeServiceInfo.service_ service_info)) service_info)
   | (Failure _, _, _) => op_ret ()
   | (Fault f, _, _) => lift (Fault f)
   end) >>;
  op_ret entry_id.

Definition load_order (r : row) (_ : unit) : op t unit :=
  entry_id <~ lift (load_big_u32 r.2);;
  modify (λ b, set_ids (randomly_ordered_ids_ b ++ [entry_id]) b).

Definition load_bucket (r : row) (_ : unit) : op t unit :=
  match r.1 with
  | [] => lift (Fault UndefinedBehaviour)
  | bucket_type :: slot =>
      slot_address <~ lift (load_big_u32 slot);;
      entry_id <~ lift (load_big_u32 r.2);;
      service_info <~ must_find entry_id;;
      if bucket_type =? kNewTag then
        op_assert (bool_decide (slot_address ∉ NodeServiceInfo.new_refs_ service_info)) >>;
        let refs := {[slot_address]} ∪ NodeServiceInfo.new_refs_ service_info in
        update_info entry_id (NodeServiceInfo.set_new_refs refs) >>;
        buckets <~ get new_buckets_;;
        op_assert (bool_decide (buckets !! slot_address = None)) >>;
        modify (λ b, set_new (<[slot_address := entry_id]> (new_buckets_ b)) b) >>;
        if Z.of_nat (base.size refs) =? 1 then modify (λ b, set_new_size (new_entries_size_ b + 1) b) else op_ret ()
      else if bucket_type =? kTriedTag then
        op_assert (bool_decide (NodeServiceInfo.tried_ref_ service_info = None)) >>;
        update_info entry_id (NodeServiceInfo.set_tried_ref (Some slot_address)) >>;
        buckets <~ get tried_buckets_;;
        op_assert (bool_decide (buckets !! slot_address = None)) >>;
        modify (λ b, set_tried_buckets (<[slot_address := entry_id]> (tried_buckets_ b)) b) >>;
        modify (λ b, set_tried_size (tried_entries_size_ b + 1) b)
      else lift (Fault AssertionFailed)
  end.

Definition set_key v (b : t) := mk v (last_used_id_ b) (new_entries_size_ b) (tried_entries_size_ b)
  (randomly_ordered_ids_ b) (new_buckets_ b) (tried_buckets_ b) (list_index_ b).

Definition load (tx : txn) : op t unit :=
  (match read_config_value kSeedKey tx with
   | Some key_data => if zlen key_data =? 16 then modify (set_key key_data) else op_ret ()
   | None => op_ret ()
   end) >>;
  entry_id <~ for_rows kServices tx load_service 1;;
  modify (set_last_id (wrap 32 (entry_id + 1))) >>;
  for_rows kRandomOrder tx load_order () >>;
  for_rows kBuckets tx load_bucket ().

(** ** The service *)

(** The book as a component: whether it runs, whether its timer does, and what is on disk. *)
Record service := mk_service { status_ : Stoppable.ComponentStatus; service_timer_ : bool; book_ : t; disk_ : txn }.

Definition start (s : service) : bool * service :=
  let (ret, st) := Stoppable.start (status_ s) in
  (ret, mk_service st (service_timer_ s || ret) (book_ s) (disk_ s)).

Definition stop (s : service) : bool * service :=
  let (ret, st) := Stoppable.stop (status_ s) in
  (ret, mk_service st (service_timer_ s && negb ret) (book_ s) (disk_ s)).

Definition on_service_timer_expired (s : service) : service :=
  if negb (Stoppable.is_running (status_ s)) then s
  else mk_service (status_ s) (service_timer_ s) (book_ s) (save (book_ s) (disk_ s)).

End Persistence.
End Persistence.
