(* ===== verification/PersistenceFacts.v ===== *)
(** * The address book survives a restart

    What [save] writes, [load] reads back: a consistent book is restored by a new
    process, references and counters included. *)

From stdpp Require Import gmap sorting.
From S2P Require Import Prelude Text Stream Boost Serialize Types Random Protocol Addresses Payloads Meters AddressBook AddressBookFacts AddressBookInvariant Database DatabaseFacts Persistence.
#[local] Open Scope Z_scope.

Module PersistenceFacts.
Import AddressBook AddressBookFacts DatabaseFacts Persistence Laws AddressesTheorems.

(** ** The order of big endian keys *)

Lemma be_value_width bs : bytes_ok bs -> 0 <= be_value bs < 256 ^ zlen bs.
Proof.
  intros Hb. rewrite <- (be_bytes_be_value (length bs) bs Hb eq_refl) at 1 2. rewrite be_value_be_bytes.
  apply Z.mod_pos_bound. lia.
Qed.

Lemma lex_compare_be a b : bytes_ok a -> bytes_ok b -> length a = length b -> lex_compare a b = (be_value a ?= be_value b).
Proof.
  revert b. induction a as [|x a IH]; intros [|y b] Ha Hb Hl; try done. injection Hl as Hl.
  apply Forall_cons in Ha as [Hx Ha]. apply Forall_cons in Hb as [Hy Hb]. cbn [lex_compare]. rewrite !be_value_cons, Hl, (IH b) by done.
  pose proof (be_value_width a Ha) as Ba. pose proof (be_value_width b Hb) as Bb. rewrite Hl in Ba.
  set (w := 256 ^ zlen b) in *. symmetry. destruct (Z.compare_spec x y) as [->|Hlt|Hgt].
  - by rewrite Z.add_compare_mono_l.
  - apply Z.compare_lt_iff. nia.
  - apply Z.compare_gt_iff. nia.
Qed.

Lemma key_lt_be a b : 0 <= a < 2 ^ 32 -> 0 <= b < 2 ^ 32 -> key_lt (be_bytes 4 a) (be_bytes 4 b) <-> a < b.
Proof.
  intros Ha Hb. unfold key_lt. rewrite lex_compare_be by (auto using be_bytes_ok || by rewrite !length_be_bytes).
  rewrite !be_value_be_bytes. change (256 ^ Z.of_nat 4) with (2 ^ 32). rewrite !Z.mod_small by done. apply Z.compare_lt_iff.
Qed.

Lemma load_be_bytes n rest : 0 <= n < 2 ^ 32 -> load_big_u32 (be_bytes 4 n ++ rest) = Success n.
Proof.
  intros Hn. unfold load_big_u32. rewrite length_app, length_be_bytes, take_app_length' by (by rewrite length_be_bytes).
  rewrite be_value_be_bytes. change (256 ^ Z.of_nat 4) with (2 ^ 32). rewrite Z.mod_small by done.
  destruct (Z.ltb_spec (Z.of_nat (4 + length rest)) 4); [lia | done].
Qed.

Lemma load_be_bytes' n : 0 <= n < 2 ^ 32 -> load_big_u32 (be_bytes 4 n) = Success n.
Proof. intros Hn. rewrite <- (app_nil_r (be_bytes 4 n)). by apply load_be_bytes. Qed.

(** ** Sorted items *)

Lemma items_perm {A} (m : gmap Z A) : items m ≡ₚ map_to_list m.
Proof. apply merge_sort_Permutation. Qed.

Lemma items_lookup {A} (m : gmap Z A) k x : (k, x) ∈ items m <-> m !! k = Some x.
Proof. rewrite items_perm. apply elem_of_map_to_list. Qed.

Lemma items_to_map {A} (m : gmap Z A) : list_to_map (items m) = m.
Proof.
  rewrite <- (list_to_map_to_list m) at 2. apply list_to_map_proper; [|apply items_perm].
  rewrite items_perm. apply NoDup_fst_map_to_list.
Qed.

Lemma items_sorted {A} (m : gmap Z A) : StronglySorted (λ p q : Z * A, p.1 < q.1) (items m).
Proof.
  assert (Hn : NoDup ((items m).*1)) by (rewrite items_perm; apply NoDup_fst_map_to_list).
  assert (Hs : StronglySorted by_key (items m)).
  { apply Sorted_StronglySorted; [intros p q r; unfold by_key; lia|]. apply Sorted_merge_sort. intros p q. unfold by_key. lia. }
  revert Hn. induction Hs as [|p l Hs IH Hp]; intros Hn; [constructor|]. cbn in Hn. apply NoDup_cons in Hn as [Hn1 Hn2].
  constructor; [by apply IH|]. rewrite Forall_forall in Hp |- *. intros q Hq. specialize (Hp q Hq). unfold by_key in Hp.
  assert (p.1 <> q.1) by (intros E; apply Hn1; rewrite E; by apply list_elem_of_fmap_2). lia.
Qed.

(** ** What is written *)

Section Save.
Context `{BoostLaws} `{MdbxLaws}.

Definition put_all (l : list row) (c : cursor) : cursor := foldl (λ c r, upsert r.1 r.2 c) c l.

Lemma insert_row_last k v l : Forall (λ q : row, key_lt q.1 k) l -> insert_row k v l = l ++ [(k, v)].
Proof.
  induction 1 as [|q l Hq _ IH]; [done|]. cbn [insert_row app]. rewrite (proj2 (key_gt k q.1) Hq). by rewrite IH.
Qed.

Lemma put_all_spec l c : is_readonly (cursor_txn c) = false -> rows_sorted (rows c ++ l) ->
  rows (put_all l c) = rows c ++ l /\ map_name (put_all l c) = map_name c /\
  forall name, name <> map_name c -> table name (cursor_txn (put_all l c)) = table name (cursor_txn c).
Proof.
  revert c. induction l as [|r l IH]; intros c Hw Hs; [by rewrite app_nil_r|].
  change (put_all (r :: l) c) with (put_all l (upsert r.1 r.2 c)). assert (E : rows (upsert r.1 r.2 c) = rows c ++ [r]).
  { rewrite upsert_rows by done. rewrite insert_row_last; [by destruct r|]. apply sorted_app in Hs as (_ & _ & Hlt).
    apply Forall_forall. intros q Hq. apply Hlt; [done | by left]. }
  assert (Hs' : rows_sorted (rows (upsert r.1 r.2 c) ++ l)) by (by rewrite E, <- app_assoc).
  assert (Hw' : is_readonly (cursor_txn (upsert r.1 r.2 c)) = false) by (by rewrite upsert_mode).
  destruct (IH _ Hw' Hs') as (I1 & I2 & I3). rewrite upsert_name in I2, I3. split_and!; [|done |].
  - by rewrite I1, E, <- app_assoc.
  - intros name Hn. rewrite I3 by done. by apply upsert_others.
Qed.

Lemma put_all_mode l c : is_readonly (cursor_txn (put_all l c)) = is_readonly (cursor_txn c).
Proof. revert c. induction l as [|r l IH]; intros c; [done|]. unfold put_all in *. cbn [foldl]. rewrite IH. apply upsert_mode. Qed.

(** A whole table that is written from scratch. *)
Lemma table_put_all name l tx : is_readonly tx = false -> table name tx = [] -> rows_sorted l ->
  table name (cursor_txn (put_all l (open_cursor name tx))) = l /\ is_readonly (cursor_txn (put_all l (open_cursor name tx))) = false /\
  forall name', name' <> name -> table name' (cursor_txn (put_all l (open_cursor name tx))) = table name' tx.
Proof.
  intros Hw He Hs. unfold table in He. destruct (put_all_spec l (open_cursor name tx)) as (P1 & P2 & P3); [by rewrite open_txn | by rewrite He|].
  rewrite open_name in P2, P3. split_and!; [|by rewrite put_all_mode, open_txn |].
  - rewrite <- P2 at 1. rewrite <- rows_table, P1, He. done.
  - intros name' Hn. rewrite P3 by done. by rewrite open_txn.
Qed.

(** What of an entry survives on disk: the addresses must not be among the IPv6
    addresses that are read back as IPv4 ones. *)
Definition storable (i : NodeServiceInfo.t) : Prop :=
  info_ok i /\ zlen (info_bytes i) <= kMaxStreamSize /\ addr_decoded (NodeServiceInfo.origin_ i) = NodeServiceInfo.origin_ i /\
  addr_decoded (IPEndpoint.address_ (NodeService.endpoint_ (NodeServiceInfo.service_ i))) =
    IPEndpoint.address_ (NodeService.endpoint_ (NodeServiceInfo.service_ i)).

Definition bare (i : NodeServiceInfo.t) : NodeServiceInfo.t := NodeServiceInfo.set_tried_ref None (NodeServiceInfo.set_new_refs ∅ i).

Lemma storable_decoded i : storable i -> info_decoded i fresh_info = bare i.
Proof.
  intros (_ & _ & E1 & E2). unfold info_decoded, service_decoded, endpoint_decoded. rewrite E1, E2. by destruct i as [[? ? []]].
Qed.

Lemma storable_serialize i : storable i -> exists s,
  serialize NodeServiceInfo.serialization i (SDataStream.make kStorage 0) = (Success (), i, s) /\
  (DataStream.read None (SDataStream.base s)).1 = Success (info_bytes i).
Proof.
  intros (Hi & Hz & _). exists (append (info_bytes i) (SDataStream.make kStorage 0)). split; [by apply info_writes|].
  cbn. unfold DataStream.read, DataStream.avail, DataStream.size. cbn [default buffer_ read_position_].
  rewrite Z.sub_0_r. unfold wrap. rewrite Z.mod_small by (unfold kMaxStreamSize in Hz; lia).
  rewrite Z.ltb_irrefl. rewrite (proj2 (Z.ltb_ge _ 0)) by lia. cbn. unfold ztake, zdrop. cbn. by rewrite Nat2Z.id, firstn_all.
Qed.

Definition service_row (p : Z * AddressBookEntry) : row := (be_bytes 4 p.1, info_bytes (list_it p.2)).
Definition order_row (p : Z * Z) : row := (be_bytes 4 p.1, be_bytes 4 p.2).
Definition bucket_row (tag : Z) (p : Z * Z) : row := (tag :: be_bytes 4 p.1, be_bytes 4 p.2).

Lemma save_entries_put l c : Forall (λ p : Z * AddressBookEntry, storable (list_it p.2)) l ->
  save_entries l c = put_all (service_row <$> l) c.
Proof.
  revert c. induction l as [|[id e] l IH]; intros c Hl; [done|]. apply Forall_cons in Hl as [He Hl].
  destruct (storable_serialize _ He) as (s & E1 & E2). cbn [save_entries]. cbn [snd] in E1. rewrite E1.
  destruct (DataStream.read None (SDataStream.base s)) as [r d]. cbn [fst] in E2. subst r. by rewrite IH.
Qed.

Lemma save_buckets_put tag l c : save_buckets tag l c = put_all (bucket_row tag <$> l) c.
Proof. unfold save_buckets, put_all. by rewrite foldl_fmap. Qed.

Definition numbered (start : Z) (ids : list Z) : list (Z * Z) := imap (λ i id, (start + Z.of_nat i, id)) ids.

Lemma numbered_cons start id ids : numbered start (id :: ids) = (start, id) :: numbered (start + 1) ids.
Proof.
  unfold numbered. rewrite imap_cons. f_equal; [f_equal; lia|]. apply imap_ext. intros i x _. cbn. f_equal. lia.
Qed.

Lemma save_order_put ordinal ids c : save_order ordinal ids c = put_all (order_row <$> numbered ordinal ids) c.
Proof.
  revert ordinal c. induction ids as [|id ids IH]; intros ordinal c; [done|]. rewrite numbered_cons. cbn [save_order fmap list_fmap].
  by rewrite IH.
Qed.

Lemma put_all_app l l' c : put_all (l ++ l') c = put_all l' (put_all l c).
Proof. apply foldl_app. Qed.

(** The rows are in the order of their keys. *)
Lemma rows_sorted_map {A} (f : Z * A -> row) (l : list (Z * A)) : StronglySorted (λ p q : Z * A, p.1 < q.1) l ->
  (forall p q, p ∈ l -> q ∈ l -> p.1 < q.1 -> key_lt (f p).1 (f q).1) -> rows_sorted (f <$> l).
Proof.
  induction 1 as [|p l Hs IH Hp]; intros Hf; [constructor|]. cbn. apply sorted_cons. split.
  - apply IH. intros q r Hq Hr. apply Hf; by right.
  - apply Forall_fmap, Forall_forall. intros q Hq. apply Hf; [by left | by right |]. rewrite Forall_forall in Hp. by apply Hp.
Qed.

Lemma key_lt_tag tag a b : key_lt (tag :: a) (tag :: b) <-> key_lt a b.
Proof. unfold key_lt. cbn [lex_compare]. by rewrite Z.compare_refl. Qed.

Definition u32 (z : Z) : Prop := 0 <= z < 2 ^ 32.

(** The keys of the tables fit their width. *)
Record in_range (b : t) : Prop := {
  ir_ids id e : list_index_ b !! id = Some e -> u32 id;
  ir_new s id : new_buckets_ b !! s = Some id -> u32 s /\ u32 id;
  ir_tried s id : tried_buckets_ b !! s = Some id -> u32 s /\ u32 id;
  ir_order : zlen (randomly_ordered_ids_ b) <= 2 ^ 32;
  ir_members : Forall u32 (randomly_ordered_ids_ b);
}.

Lemma numbered_sorted start ids : StronglySorted (λ p q : Z * Z, p.1 < q.1) (numbered start ids) /\
  Forall (λ p : Z * Z, start <= p.1 < start + zlen ids) (numbered start ids).
Proof.
  revert start. induction ids as [|id ids IH]; intros start; [by split; constructor|]. rewrite numbered_cons.
  destruct (IH (start + 1)) as [I1 I2]. cbn [length]. split; constructor; [done | | cbn; lia |]; (eapply Forall_impl; [exact I2|]); cbn; intros p; lia.
Qed.

Definition bucket_rows (b : t) : list row :=
  (bucket_row kNewTag <$> items (new_buckets_ b)) ++ (bucket_row kTriedTag <$> items (tried_buckets_ b)).

Lemma service_rows_sorted b : in_range b -> rows_sorted (service_row <$> items (list_index_ b)).
Proof.
  intros Hr. apply rows_sorted_map; [apply items_sorted|]. intros [i e] [j e'] Hi Hj Hlt. cbn in *.
  apply items_lookup in Hi, Hj. apply (ir_ids _ Hr) in Hi, Hj. by apply key_lt_be.
Qed.

Lemma random_rows_sorted b : in_range b -> rows_sorted (order_row <$> numbered 0 (randomly_ordered_ids_ b)).
Proof.
  intros Hr. destruct (numbered_sorted 0 (randomly_ordered_ids_ b)) as [N1 N2]. apply rows_sorted_map; [done|].
  intros p q Hp Hq Hlt. rewrite Forall_forall in N2. pose proof (ir_order _ Hr). apply N2 in Hp, Hq. apply key_lt_be; [lia | lia | done].
Qed.

Lemma bucket_rows_sorted b : in_range b -> rows_sorted (bucket_rows b).
Proof.
  intros Hr. unfold bucket_rows.
  assert (HN : rows_sorted (bucket_row kNewTag <$> items (new_buckets_ b))).
  { apply rows_sorted_map; [apply items_sorted|]. intros [i e] [j e'] Hi Hj Hlt. apply items_lookup in Hi, Hj.
    apply (ir_new _ Hr) in Hi as [], Hj as []. by apply key_lt_tag, key_lt_be. }
  assert (HT : rows_sorted (bucket_row kTriedTag <$> items (tried_buckets_ b))).
  { apply rows_sorted_map; [apply items_sorted|]. intros [i e] [j e'] Hi Hj Hlt. apply items_lookup in Hi, Hj.
    apply (ir_tried _ Hr) in Hi as [], Hj as []. by apply key_lt_tag, key_lt_be. }
  induction (items (new_buckets_ b)) as [|p l IH]; [done|]. cbn in *. apply sorted_cons in HN as [HN Hp]. apply sorted_cons.
  split; [by apply IH|]. apply Forall_app. split; [done|]. apply Forall_fmap, Forall_forall. intros q _. reflexivity.
Qed.

(** The tables when they have been cleared. *)
Lemma save_cleared_tables b tx : is_readonly tx = false ->
  read_config_value kSeedKey (save_cleared b tx) = Some (key_ b) /\ find_row kSeedKey (table kConfig (save_cleared b tx)) = Some (key_ b) /\
  table kServices (save_cleared b tx) = [] /\ table kRandomOrder (save_cleared b tx) = [] /\ table kBuckets (save_cleared b tx) = [] /\
  is_readonly (save_cleared b tx) = false.
Proof.
  intros Hro. unfold save_cleared. set (tx1 := write_config_value kSeedKey (key_ b) tx).
  assert (C1 : find_row kSeedKey (table kConfig tx1) = Some (key_ b)).
  { rewrite <- read_config_spec. unfold tx1. by rewrite write_config_spec, decide_True. }
  assert (M1 : is_readonly tx1 = false) by (unfold tx1, write_config_value; by rewrite Hro, upsert_mode, open_txn).
  clearbody tx1. rewrite read_config_spec. split_and!; rewrite ?clear_map_mode; try done;
    repeat first [rewrite clear_map_table by (by rewrite ?clear_map_mode) | rewrite clear_map_others by done]; done.
Qed.

(** The tables after a save. *)
Lemma save_tables b tx : is_readonly tx = false -> empty b = false -> in_range b ->
  (forall id e, list_index_ b !! id = Some e -> storable (list_it e)) ->
  read_config_value kSeedKey (save b tx) = Some (key_ b) /\
  table kServices (save b tx) = service_row <$> items (list_index_ b) /\
  table kRandomOrder (save b tx) = order_row <$> numbered 0 (randomly_ordered_ids_ b) /\
  table kBuckets (save b tx) = bucket_rows b.
Proof.
  intros Hro He Hr Hst. unfold save. rewrite He. cbv zeta.
  set (tx2 := save_cleared b tx). destruct (save_cleared_tables b tx Hro) as (_ & C2 & S2 & O2 & B2 & M2). fold tx2 in C2, S2, O2, B2, M2.
  clearbody tx2.
  rewrite save_entries_put by (apply Forall_forall; intros [id e] Hp; apply items_lookup in Hp; by apply (Hst id)).
  destruct (table_put_all kServices _ tx2 M2 S2 (service_rows_sorted b Hr)) as (S3 & M3 & F3).
  set (tx3 := cursor_txn (put_all (service_row <$> items (list_index_ b)) _)) in *. clearbody tx3.
  rewrite save_order_put. destruct (table_put_all kRandomOrder (order_row <$> numbered 0 (randomly_ordered_ids_ b)) tx3) as (O4 & M4 & F4);
    [done | by rewrite F3 | by apply random_rows_sorted|].
  set (tx4 := cursor_txn (put_all (order_row <$> _) _)) in *. clearbody tx4.
  rewrite !save_buckets_put, <- put_all_app. fold (bucket_rows b).
  destruct (table_put_all kBuckets (bucket_rows b) tx4) as (B5 & _ & F5); [done | by rewrite F4, F3 | by apply bucket_rows_sorted|].
  set (tx5 := cursor_txn _) in *. clearbody tx5. rewrite read_config_spec, !F5, !F4, !F3 by done. done.
Qed.

(** ** What is read *)

(** The loops over a table see its rows in order. *)
Fixpoint run_rows {A} (f : row -> A -> op t A) (l : list row) (a : A) : op t A :=
  match l with
  | [] => op_ret a
  | r :: l => a <~ f r a;; run_rows f l a
  end.

Lemma foldl_run {A} (f : row -> A -> op t A) l (m : op t A) b :
  foldl (λ m r, op_bind m (f r)) m l b = op_bind m (run_rows f l) b.
Proof.
  revert m. induction l as [|r l IH]; intros m; cbn [foldl run_rows].
  - unfold op_bind, op_ret. by destruct (m b) as [[]].
  - rewrite IH. unfold op_bind. destruct (m b) as [[a|e|g] b']; done.
Qed.

Lemma collect_rows (l acc : list row) : foldl (λ s (r : row), s ++ [(r.1, r.2)]) acc l = acc ++ l.
Proof. revert acc. induction l as [|[k v] l IH]; intros acc; cbn; [by rewrite app_nil_r|]. by rewrite IH, <- app_assoc. Qed.

Lemma for_rows_run {A} name tx (f : row -> A -> op t A) a b : for_rows name tx f a b = run_rows f (table name tx) a b.
Proof.
  unfold for_rows, walk. destruct (to_first_moves (open_cursor name tx)) as (E1 & E2 & _ & _ & E3). fold (table name tx) in *.
  assert (Hd : delivers Forward (to_first (open_cursor name tx)).1 (to_first (open_cursor name tx)).2 (table name tx)).
  { rewrite E1. destruct (decide _) as [Hlt|Hge].
    - rewrite <- E2. by apply (delivers_forward _ _ 0%nat).
    - destruct (table name tx); [done | simpl in Hge; lia]. }
  destruct (walk_delivers (λ k v l, l ++ [(k, v)]) (S (length (rows (to_first (open_cursor name tx)).2))) Forward (λ _ _, true) 0 _ [] _ _ Hd)
    as [c' ->]; [rewrite E2; lia|].
  rewrite visited_all, collect_rows. cbn [app]. rewrite foldl_run. done.
Qed.

Definition bare_entry (e : AddressBookEntry) : AddressBookEntry := Entry (endpoint e) (bare (list_it e)).

Lemma write_fresh e : zlen e <= kMaxStreamSize ->
  (SDataStream.lift (DataStream.write e) (SDataStream.make kStorage 0)).2 = append e (SDataStream.make kStorage 0).
Proof.
  intros Hz. unfold SDataStream.lift, DataStream.write. destruct (Z.ltb_spec kMaxStreamSize
    (DataStream.size (SDataStream.base (SDataStream.make kStorage 0)) + zlen e)) as [Hlt|Hge]; [change (kMaxStreamSize < 0 + zlen e) in Hlt; lia | done].
Qed.

Lemma load_service_spec id e a b : u32 id -> storable (list_it e) ->
  endpoint e = NodeService.endpoint_ (NodeServiceInfo.service_ (list_it e)) ->
  contains_id id b = false -> contains_endpoint (endpoint e) b = false ->
  load_service (service_row (id, e)) a b = (Success id, set_index (<[id := bare_entry e]> (list_index_ b)) b).
Proof.
  intros Hid Hst Hk Hc He. unfold load_service, service_row, op_bind, lift. cbn [fst snd]. rewrite load_be_bytes' by done.
  pose proof Hst as (Hi & Hz & _). rewrite write_fresh by done.
  unfold deserialize. rewrite (info_reads (list_it e) Hi fresh_info _ []); [| | by rewrite app_nil_r].
  2: { apply SerializeTheorems.wf_append; [done|]. change (0 + zlen (info_bytes (list_it e)) <= kMaxStreamSize). lia. }
  rewrite storable_decoded by done. unfold modify, index_insert, op_ret. cbn [NodeServiceInfo.service_ bare NodeServiceInfo.set_tried_ref NodeServiceInfo.set_new_refs].
  rewrite <- Hk, Hc, He. done.
Qed.

(** All services. *)
Record loadable (l : list (Z * AddressBookEntry)) : Prop := {
  lo_entry : Forall (λ p, u32 p.1 /\ storable (list_it p.2) /\
               endpoint p.2 = NodeService.endpoint_ (NodeServiceInfo.service_ (list_it p.2))) l;
  lo_ids : NoDup (fst <$> l);
  lo_endpoints : NoDup ((λ p, endpoint p.2) <$> l);
}.

Lemma contains_endpoint_index e b :
  (forall id en, list_index_ b !! id = Some en -> endpoint en <> e) -> contains_endpoint e b = false.
Proof.
  intros Hn. destruct (contains_endpoint e b) eqn:E; [|done]. apply AddressBookInvariant.contains_endpoint_view in E as (id & c & Hc & Hk).
  unfold view in Hc. rewrite lookup_fmap in Hc. destruct (list_index_ b !! id) as [en|] eqn:Ei; [|done]. injection Hc as <-.
  by destruct (Hn id en).
Qed.

Lemma load_services l a b : loadable l ->
  (forall id en, list_index_ b !! id = Some en -> (id ∉ l.*1) /\ endpoint en ∉ ((λ p : Z * AddressBookEntry, endpoint p.2) <$> l)) ->
  run_rows load_service (service_row <$> l) a b =
    (Success (default a (fst <$> last l)), set_index (list_to_map ((λ p, (p.1, bare_entry p.2)) <$> l) ∪ list_index_ b) b).
Proof.
  revert a b. induction l as [|[id e] l IH]; intros a b [L1 L2 L3] Hb.
  { cbn. rewrite (left_id_L ∅ (∪)). by destruct b. }
  apply Forall_cons in L1 as [(Hu & Hs & Hk) L1]. cbn in L2, L3. apply NoDup_cons in L2 as [Li L2]. apply NoDup_cons in L3 as [Le L3].
  assert (Hi : list_index_ b !! id = None).
  { destruct (list_index_ b !! id) as [en|] eqn:E; [|done]. apply Hb in E as [E _]. destruct E. cbn. by left. }
  cbn [fmap list_fmap run_rows]. unfold op_bind. rewrite load_service_spec; try done.
  - rewrite IH; [| done |].
    + f_equal; [rewrite (last_cons (id, e)); by destruct (last l)|]. cbn [list_index_ set_index]. unfold set_index at 1.
      cbn [key_ last_used_id_ new_entries_size_ tried_entries_size_ randomly_ordered_ids_ new_buckets_ tried_buckets_ set_index].
      f_equal. cbn [list_to_map foldr fst snd]. rewrite <- insert_union_r, insert_union_l; [done|]. apply not_elem_of_list_to_map.
      rewrite <- list_fmap_compose. done.
    + intros id' en. cbn [list_index_ set_index]. rewrite lookup_insert_Some. intros [[<- <-]|[Hne Hen]]; [done|].
      apply Hb in Hen as [X1 X2]. rewrite fmap_cons, not_elem_of_cons in X1. rewrite fmap_cons, not_elem_of_cons in X2. tauto.
  - unfold contains_id. by rewrite Hi, bool_decide_false by (by intros []).
  - apply contains_endpoint_index. intros id' en Hen. apply Hb in Hen as [_ Hen]. rewrite fmap_cons, not_elem_of_cons in Hen. tauto.
Qed.

Lemma load_orders start ids b : Forall u32 ids ->
  run_rows load_order (order_row <$> numbered start ids) () b = (Success (), set_ids (randomly_ordered_ids_ b ++ ids) b).
Proof.
  revert start b. induction ids as [|id ids IH]; intros start b Hu; [cbn; rewrite app_nil_r; by destruct b|].
  apply Forall_cons in Hu as [Hid Hu]. rewrite numbered_cons. cbn [fmap list_fmap run_rows]. unfold op_bind at 1, load_order, order_row.
  unfold op_bind at 1, lift. cbn [snd]. rewrite load_be_bytes' by done. cbn [modify]. rewrite IH by done.
  cbn [randomly_ordered_ids_ set_ids]. by rewrite <- app_assoc.
Qed.

(** ** Buckets *)

(** The references that a list of slots makes to an entry. *)
Definition slots_of (l : list (Z * Z)) (id : Z) : list Z := fst <$> List.filter (λ p : Z * Z, p.2 =? id) l.
Definition dress (N T : list (Z * Z)) (id : Z) (e : AddressBookEntry) : AddressBookEntry :=
  Entry (endpoint e) (NodeServiceInfo.set_tried_ref (head (slots_of T id))
    (NodeServiceInfo.set_new_refs (list_to_set (slots_of N id)) (list_it e))).
Definition dressed (N T : list (Z * Z)) (idx : gmap Z AddressBookEntry) : gmap Z AddressBookEntry :=
  map_imap (λ id e, Some (dress N T id e)) idx.
Definition referred (l : list (Z * Z)) : gset Z := list_to_set (snd <$> l).
Definition referred_count (l : list (Z * Z)) : Z := wrap 32 (Z.of_nat (base.size (referred l))).

(** The book when the slots in [N] and [T] have been loaded. *)
Definition stage (N T : list (Z * Z)) (idx : gmap Z AddressBookEntry) (b : t) : t :=
  mk (key_ b) (last_used_id_ b) (referred_count N) (referred_count T) (randomly_ordered_ids_ b)
    (list_to_map N) (list_to_map T) (dressed N T idx).

Lemma slots_of_app l l' id : slots_of (l ++ l') id = slots_of l id ++ slots_of l' id.
Proof. unfold slots_of. by rewrite List.filter_app, fmap_app. Qed.

Lemma slots_of_elem l id s : s ∈ slots_of l id <-> (s, id) ∈ l.
Proof.
  unfold slots_of. rewrite list_elem_of_fmap. split.
  - intros ([s' id'] & -> & Hin). apply list_elem_of_In, List.filter_In in Hin as [Hin E]. apply Z.eqb_eq in E as <-. by apply list_elem_of_In.
  - intros Hin. exists (s, id). split; [done|]. apply list_elem_of_In, List.filter_In. split; [by apply list_elem_of_In | apply Z.eqb_refl].
Qed.

Lemma slots_of_nil l id : slots_of l id = [] <-> id ∉ referred l.
Proof.
  unfold referred. rewrite elem_of_list_to_set, list_elem_of_fmap. split.
  - intros E ([s id'] & -> & Hin). cbn in E. apply slots_of_elem in Hin. rewrite E in Hin. by apply elem_of_nil in Hin.
  - intros Hn. destruct (slots_of l id) as [|s r] eqn:E; [done|]. destruct Hn. exists (s, id). split; [done|].
    apply slots_of_elem. rewrite E. by left.
Qed.

Lemma referred_count_snoc l s id : wrap 32 (referred_count l + (if decide (id ∈ referred l) then 0 else 1)) = referred_count (l ++ [(s, id)]).
Proof.
  unfold referred_count. assert (E : referred (l ++ [(s, id)]) = {[id]} ∪ referred l).
  { unfold referred. rewrite fmap_app, list_to_set_app_L. cbn. rewrite (right_id_L ∅ (∪)). apply (comm_L (∪)). }
  rewrite E. unfold wrap. rewrite Zplus_mod_idemp_l. f_equal. destruct (decide _).
  - rewrite Z.add_0_r. do 2 f_equal. set_solver.
  - rewrite size_union by set_solver. rewrite size_singleton. lia.
Qed.

Lemma dressed_lookup N T idx id : dressed N T idx !! id = dress N T id <$> idx !! id.
Proof. unfold dressed. rewrite map_lookup_imap. by destruct (idx !! id). Qed.

(** One more slot for one entry. *)
Lemma dressed_alter N T N' T' idx id f : (forall id', id' <> id -> slots_of N' id' = slots_of N id' /\ slots_of T' id' = slots_of T id') ->
  (forall e, with_info f (dress N T id e) = dress N' T' id e) -> alter (with_info f) id (dressed N T idx) = dressed N' T' idx.
Proof.
  intros Ho Hf. apply map_eq. intros id'. rewrite dressed_lookup. destruct (decide (id' = id)) as [->|Hne].
  - rewrite lookup_alter_eq, dressed_lookup. destruct (idx !! id); [|done]. cbn. by rewrite Hf.
  - rewrite lookup_alter_ne, dressed_lookup by done. destruct (Ho id' Hne) as [E1 E2]. unfold dress. by rewrite E1, E2.
Qed.

Lemma slots_of_single s id id' : slots_of [(s, id)] id' = if decide (id' = id) then [s] else [].
Proof.
  unfold slots_of. cbn. destruct (Z.eqb_spec id id'), (decide (id' = id)); done || lia.
Qed.

Lemma load_bucket_new s id e N T idx b : u32 s -> u32 id -> idx !! id = Some e -> s ∉ N.*1 ->
  load_bucket (bucket_row kNewTag (s, id)) () (stage N T idx b) = (Success (), stage (N ++ [(s, id)]) T idx b).
Proof.
  intros Hs Hid He Hn. unfold load_bucket, bucket_row. cbn [fst snd]. unfold op_bind at 1, lift at 1. rewrite load_be_bytes' by done.
  unfold op_bind at 1, lift at 1. rewrite load_be_bytes' by done. unfold op_bind at 1, must_find, lookup_id. cbn [list_index_ stage].
  rewrite dressed_lookup, He. cbn [fmap option_fmap option_map]. change (kNewTag =? kNewTag) with true. cbv iota.
  cbn [list_it dress NodeServiceInfo.new_refs_ NodeServiceInfo.set_tried_ref NodeServiceInfo.set_new_refs].
  assert (Hin : s ∉ (list_to_set (slots_of N id) : gset Z)).
  { rewrite elem_of_list_to_set, slots_of_elem. intros Hin. apply Hn. by apply (list_elem_of_fmap_2 fst) in Hin. }
  unfold op_bind at 1, op_assert. rewrite bool_decide_true by done. cbv zeta. unfold op_bind at 1, update_info, modify.
  cbn [list_index_ stage]. rewrite (dressed_alter N T (N ++ [(s, id)]) T).
  2: { intros id' Hne. rewrite slots_of_app, slots_of_single, decide_False, app_nil_r by done. done. }
  2: { intros e'. unfold with_info, dress. cbn [endpoint list_it]. do 2 f_equal. unfold NodeServiceInfo.set_tried_ref, NodeServiceInfo.set_new_refs. cbn.
       f_equal. rewrite slots_of_app, slots_of_single, decide_True, list_to_set_app_L by done. cbn. rewrite (right_id_L ∅ (∪)). apply (comm_L (∪)). }
  unfold op_bind, get. cbn [new_buckets_ set_index stage]. rewrite bool_decide_true by (by apply not_elem_of_list_to_map).
  pose proof (referred_count_snoc N s id) as Hc. unfold set_new.
  cbn [key_ last_used_id_ new_entries_size_ tried_entries_size_ randomly_ordered_ids_ new_buckets_ tried_buckets_ list_index_ set_index stage].
  unfold stage. rewrite (list_to_map_snoc N) by done. rewrite size_union, size_singleton by set_solver.
  destruct (decide (id ∈ referred N)) as [Hr|Hr].
  - assert (Hne : slots_of N id <> []) by (intros E; by apply slots_of_nil in E).
    rewrite (proj2 (Z.eqb_neq _ _)).
    2: { destruct (slots_of N id) as [|x l]; [done|]. rewrite list_to_set_cons. intros E.
         assert (Hz : base.size ({[x]} ∪ list_to_set l : gset Z) = 0%nat) by lia. apply size_empty_inv in Hz. set_solver. }
    rewrite Z.add_0_r in Hc. unfold op_ret. rewrite <- Hc. unfold referred_count, wrap. by rewrite Zmod_mod.
  - apply slots_of_nil in Hr. rewrite Hr, list_to_set_nil, size_empty. change (Z.of_nat (1 + 0) =? 1) with true. cbv iota. unfold set_new_size.
    cbn [key_ last_used_id_ new_entries_size_ tried_entries_size_ randomly_ordered_ids_ new_buckets_ tried_buckets_ list_index_]. by rewrite Hc.
Qed.

Lemma load_bucket_tried s id e N T idx b : u32 s -> u32 id -> idx !! id = Some e -> s ∉ T.*1 -> id ∉ T.*2 ->
  load_bucket (bucket_row kTriedTag (s, id)) () (stage N T idx b) = (Success (), stage N (T ++ [(s, id)]) idx b).
Proof.
  intros Hs Hid He Hn Hni. unfold load_bucket, bucket_row. cbn [fst snd]. unfold op_bind at 1, lift at 1. rewrite load_be_bytes' by done.
  unfold op_bind at 1, lift at 1. rewrite load_be_bytes' by done. unfold op_bind at 1, must_find, lookup_id. cbn [list_index_ stage].
  rewrite dressed_lookup, He. cbn [fmap option_fmap option_map]. change (kTriedTag =? kNewTag) with false. change (kTriedTag =? kTriedTag) with true.
  cbv iota. cbn [list_it dress NodeServiceInfo.tried_ref_ NodeServiceInfo.set_tried_ref NodeServiceInfo.set_new_refs].
  assert (Hr : id ∉ referred T) by (unfold referred; by rewrite elem_of_list_to_set). pose proof (proj2 (slots_of_nil T id) Hr) as Hz.
  unfold op_bind at 1, op_assert. rewrite Hz, bool_decide_true by done. unfold op_bind at 1, update_info, modify.
  cbn [list_index_ stage]. rewrite (dressed_alter N T N (T ++ [(s, id)])).
  2: { intros id' Hne. rewrite slots_of_app, slots_of_single, decide_False, app_nil_r by done. done. }
  2: { intros e'. unfold with_info, dress. rewrite slots_of_app, slots_of_single, decide_True, Hz by done. done. }
  unfold op_bind, get. cbn [tried_buckets_ set_index stage]. rewrite bool_decide_true by (by apply not_elem_of_list_to_map).
  pose proof (referred_count_snoc T s id) as Hc. rewrite decide_False in Hc by done. unfold set_tried_buckets, set_tried_size.
  cbn [key_ last_used_id_ new_entries_size_ tried_entries_size_ randomly_ordered_ids_ new_buckets_ tried_buckets_ list_index_ set_index stage].
  unfold stage. rewrite (list_to_map_snoc T) by done. by rewrite Hc.
Qed.

Lemma load_buckets_new l N T idx b : NoDup ((N ++ l).*1) -> Forall (λ p, u32 p.1 /\ u32 p.2 /\ is_Some (idx !! p.2)) l ->
  run_rows load_bucket (bucket_row kNewTag <$> l) () (stage N T idx b) = (Success (), stage (N ++ l) T idx b).
Proof.
  revert N. induction l as [|[s id] l IH]; intros N Hn Hl; [cbn; by rewrite app_nil_r|]. apply Forall_cons in Hl as [(Hs & Hid & [e He]) Hl].
  cbn [fmap list_fmap run_rows]. unfold op_bind. rewrite (load_bucket_new s id e); try done.
  - rewrite IH, <- app_assoc; [done | by rewrite <- app_assoc | done].
  - rewrite fmap_app in Hn. apply NoDup_app in Hn as (_ & Hn & _). cbn in Hn. intros Hin. apply (Hn s Hin). by left.
Qed.

Lemma load_buckets_tried l N T idx b : NoDup ((T ++ l).*1) -> NoDup ((T ++ l).*2) -> Forall (λ p, u32 p.1 /\ u32 p.2 /\ is_Some (idx !! p.2)) l ->
  run_rows load_bucket (bucket_row kTriedTag <$> l) () (stage N T idx b) = (Success (), stage N (T ++ l) idx b).
Proof.
  revert T. induction l as [|[s id] l IH]; intros T Hn Hn2 Hl; [cbn; by rewrite app_nil_r|]. apply Forall_cons in Hl as [(Hs & Hid & [e He]) Hl].
  cbn [fmap list_fmap run_rows]. unfold op_bind. rewrite (load_bucket_tried s id e); try done.
  - rewrite IH, <- app_assoc; [done | by rewrite <- app_assoc | by rewrite <- app_assoc | done].
  - rewrite fmap_app in Hn. apply NoDup_app in Hn as (_ & Hn & _). cbn in Hn. intros Hin. apply (Hn s Hin). by left.
  - rewrite fmap_app in Hn2. apply NoDup_app in Hn2 as (_ & Hn2 & _). cbn in Hn2. intros Hin. apply (Hn2 id Hin). by left.
Qed.

Lemma run_rows_app (f : row -> unit -> op t unit) l l' b b1 : run_rows f l () b = (Success (), b1) ->
  run_rows f (l ++ l') () b = run_rows f l' () b1.
Proof.
  revert b. induction l as [|r l IH]; intros b; cbn [app run_rows]; [by intros [= ->]|]. unfold op_bind.
  destruct (f r () b) as [[[]|e|g] b'] eqn:E; [apply IH | done | done].
Qed.

(** ** A consistent book *)

Lemma view_entry b id e : list_index_ b !! id = Some e -> view b !! id = Some (core_of e).
Proof. intros E. unfold view. by rewrite lookup_fmap, E. Qed.

Lemma bounded_length (l : list Z) lo hi : NoDup l -> Forall (λ x, lo <= x < hi) l -> zlen l <= Z.max 0 (hi - lo).
Proof.
  intros Hn Hl. assert (Hs : l ⊆+ seqZ lo (hi - lo)).
  { apply NoDup_submseteq; [done|]. intros x Hx. rewrite Forall_forall in Hl. apply elem_of_seqZ. specialize (Hl x Hx). lia. }
  apply submseteq_length in Hs. rewrite length_seqZ in Hs. lia.
Qed.

Section Consistent.
Variable b : t.
Hypothesis consistent : inv ∅ b.

Lemma ids_in_range id e : list_index_ b !! id = Some e -> 1 <= id < last_used_id_ b.
Proof. intros E. apply view_entry in E. by apply (eo_ids _ _ (inv_entries _ _ consistent)) in E. Qed.

Lemma order_member i id : randomly_ordered_ids_ b !! i = Some id -> is_Some (list_index_ b !! id).
Proof.
  intros Hi. apply (proj1 (inv_order _ _ consistent)) in Hi. unfold positions in Hi. rewrite lookup_fmap in Hi.
  destruct (list_index_ b !! id); [by eexists | done].
Qed.

Lemma inv_in_range : in_range b.
Proof.
  pose proof (inv_last _ _ consistent) as Hl. pose proof (inv_refs _ _ consistent) as Hr. split; unfold u32.
  - intros id e E%ids_in_range. lia.
  - intros s id E. pose proof (ro_new_slots _ _ _ _ Hr _ _ E) as (x & y & Hx & Hy & ->). apply (ro_new _ _ _ _ Hr) in E as (c & Hc & _).
    apply (eo_ids _ _ (inv_entries _ _ consistent)) in Hc. unfold kNewBucketsCount, kBucketSize in *. lia.
  - intros s id E. pose proof (ro_tried_slots _ _ _ _ Hr _ _ E) as (x & y & Hx & Hy & ->). apply (ro_tried _ _ _ _ Hr) in E as (c & Hc & _).
    apply (eo_ids _ _ (inv_entries _ _ consistent)) in Hc. unfold kTriedBucketsCount, kBucketSize in *. lia.
  - pose proof (bounded_length (randomly_ordered_ids_ b) 1 (last_used_id_ b)) as Hb.
    assert (zlen (randomly_ordered_ids_ b) <= Z.max 0 (last_used_id_ b - 1)); [apply Hb | lia].
    + apply NoDup_alt. intros i j id Hi Hj. apply (proj1 (inv_order _ _ consistent)) in Hi, Hj. rewrite Hi in Hj. injection Hj as Hj. lia.
    + apply Forall_forall. intros id [i Hi]%list_elem_of_lookup. destruct (order_member i id Hi) as [e He]. by apply (ids_in_range _ _ He).
  - apply Forall_forall. intros id [i Hi]%list_elem_of_lookup. destruct (order_member i id Hi) as [e He]. apply ids_in_range in He. lia.
Qed.

Lemma inv_loadable : (forall id e, list_index_ b !! id = Some e -> storable (list_it e)) -> loadable (items (list_index_ b)).
Proof.
  intros Hst. pose proof (inv_entries _ _ consistent) as He. split.
  - apply Forall_forall. intros [id e] Hin%items_lookup. cbn. split_and!; [by apply (ir_ids _ inv_in_range id e) | by apply (Hst id) |].
    apply view_entry in Hin. by apply (eo_key _ _ He) in Hin.
  - rewrite items_perm. apply NoDup_fst_map_to_list.
  - apply NoDup_fmap_2_strong.
    + intros [id e] [id' e'] Hi%items_lookup Hj%items_lookup E. cbn in E. pose proof (view_entry _ _ _ Hi) as Vi. pose proof (view_entry _ _ _ Hj) as Vj.
      assert (id = id') as <- by by apply (eo_unique _ _ He id id' _ _ Vi Vj). rewrite Hi in Hj. by injection Hj as <-.
    + apply (NoDup_fmap_1 fst). rewrite items_perm. apply NoDup_fst_map_to_list.
Qed.

Lemma inv_dressed : dressed (items (new_buckets_ b)) (items (tried_buckets_ b)) (list_index_ b) = list_index_ b.
Proof.
  pose proof (inv_refs _ _ consistent) as Hr. apply map_eq. intros id. rewrite dressed_lookup.
  destruct (list_index_ b !! id) as [e|] eqn:E; [|done]. cbn. f_equal. pose proof (view_entry _ _ _ E) as V.
  assert (EN : list_to_set (slots_of (items (new_buckets_ b)) id) = NodeServiceInfo.new_refs_ (list_it e)).
  { apply set_eq. intros s. rewrite elem_of_list_to_set, slots_of_elem, items_lookup, (ro_new _ _ _ _ Hr), V. split.
    - intros (c & [= <-] & Hs). exact Hs.
    - intros Hs. by exists (core_of e). }
  assert (ET : head (slots_of (items (tried_buckets_ b)) id) = NodeServiceInfo.tried_ref_ (list_it e)).
  { assert (Hs : forall s, s ∈ slots_of (items (tried_buckets_ b)) id <-> NodeServiceInfo.tried_ref_ (list_it e) = Some s).
    { intros s. rewrite slots_of_elem, items_lookup, (ro_tried _ _ _ _ Hr), V. split; [by intros (c & [= <-] & Hs) | by exists (core_of e)]. }
    destruct (slots_of (items (tried_buckets_ b)) id) as [|s l]; cbn.
    - destruct (NodeServiceInfo.tried_ref_ (list_it e)) as [s|]; [|done]. by destruct (proj1 (elem_of_nil s) (proj2 (Hs s) eq_refl)).
    - symmetry. apply Hs. by left. }
  unfold dress. rewrite EN, ET. destruct e as [ep []]. done.
Qed.

Lemma referred_tally (m : gmap Z Z) (P : core -> bool) : (forall id, id ∈ (referred (items m)) <-> exists c, view b !! id = Some c /\ P c = true) ->
  referred_count (items m) = wrap 32 (tally P (view b)).
Proof.
  intros Hm. unfold referred_count, tally. do 2 f_equal. rewrite <- size_dom. f_equal. apply set_eq. intros id. rewrite Hm, elem_of_dom.
  unfold is_Some. setoid_rewrite map_lookup_filter_Some. done.
Qed.

Lemma referred_items (m : gmap Z Z) id : id ∈ referred (items m) <-> exists s, m !! s = Some id.
Proof.
  unfold referred. rewrite elem_of_list_to_set, list_elem_of_fmap. split.
  - intros ([s id'] & -> & Hin%items_lookup). by exists s.
  - intros [s Hs]. exists (s, id). split; [done | by apply items_lookup].
Qed.

Lemma inv_stage b0 : stage (items (new_buckets_ b)) (items (tried_buckets_ b)) (list_index_ b) b0 =
  mk (key_ b0) (last_used_id_ b0) (new_entries_size_ b) (tried_entries_size_ b) (randomly_ordered_ids_ b0)
    (new_buckets_ b) (tried_buckets_ b) (list_index_ b).
Proof.
  pose proof (inv_refs _ _ consistent) as Hr. unfold stage. rewrite !items_to_map, inv_dressed. f_equal.
  - rewrite (inv_new_size _ _ consistent). apply referred_tally. intros id. rewrite referred_items. split.
    + intros [s Hs]. apply (ro_new _ _ _ _ Hr) in Hs as (c & Hc & Hs). exists c. split; [done|]. apply has_new_yes. set_solver.
    + intros (c & Hc & Hp). unfold has_new in Hp. apply bool_decide_eq_true in Hp. apply set_choose_L in Hp as [s Hs].
      exists s. apply (ro_new _ _ _ _ Hr). eauto.
  - rewrite (inv_tried_size _ _ consistent). apply referred_tally. intros id. rewrite referred_items. split.
    + intros [s Hs]. apply (ro_tried _ _ _ _ Hr) in Hs as (c & Hc & Hs). exists c. split; [done|]. unfold has_tried. rewrite Hs. by apply bool_decide_eq_true.
    + intros (c & Hc & Hp). unfold has_tried in Hp. apply bool_decide_eq_true in Hp as [s Hs]. exists s. apply (ro_tried _ _ _ _ Hr). eauto.
Qed.

Lemma tried_ids_distinct : NoDup ((items (tried_buckets_ b)).*2).
Proof.
  apply NoDup_fmap_2_strong.
  - intros [s id] [s' id'] Hi%items_lookup Hj%items_lookup E. cbn in E. subst id'.
    apply (ro_tried _ _ _ _ (inv_refs _ _ consistent)) in Hi as (c & Hc & Hs), Hj as (c' & Hc' & Hs'). congruence.
  - apply (NoDup_fmap_1 fst). rewrite items_perm. apply NoDup_fst_map_to_list.
Qed.
End Consistent.

Lemma bare_index (m : gmap Z AddressBookEntry) :
  list_to_map ((λ p : Z * AddressBookEntry, (p.1, bare_entry p.2)) <$> items m) = dressed [] [] m.
Proof.
  apply map_eq. intros id. rewrite dressed_lookup.
  assert (E : forall l : list (Z * AddressBookEntry), (list_to_map ((λ p : Z * AddressBookEntry, (p.1, bare_entry p.2)) <$> l) : gmap Z AddressBookEntry)
    = bare_entry <$> list_to_map l).
  { induction l as [|[k e] l IH]; [done|]. cbn. rewrite fmap_insert. by rewrite <- IH. }
  rewrite E, items_to_map, lookup_fmap. by destruct (m !! id).
Qed.

Lemma load_empty_index l a b : loadable l -> list_index_ b = ∅ ->
  run_rows load_service (service_row <$> l) a b =
    (Success (default a (fst <$> last l)), set_index (list_to_map ((λ p, (p.1, bare_entry p.2)) <$> l)) b).
Proof.
  intros Hl He. rewrite load_services; [|done|].
  - by rewrite He, (right_id_L ∅ (∪)).
  - intros id en. by rewrite He, lookup_empty.
Qed.

Lemma last_item (m : gmap Z AddressBookEntry) a : m <> ∅ ->
  exists id e, default a (fst <$> last (items m)) = id /\ m !! id = Some e /\ forall id' e', m !! id' = Some e' -> id' <= id.
Proof.
  intros Hm. destruct (last (items m)) as [[id e]|] eqn:E.
  - exists id, e. split; [done|]. apply last_Some in E as [l El]. split.
    + apply items_lookup. rewrite El. apply elem_of_app. right. by left.
    + intros id' e' Hin%items_lookup. rewrite El in Hin. apply elem_of_app in Hin as [Hin|Hin].
      * pose proof (items_sorted m) as Hs. rewrite El in Hs.
        assert (Hlt : forall l p q, StronglySorted (λ p q : Z * AddressBookEntry, p.1 < q.1) (l ++ [q]) -> p ∈ l -> p.1 < q.1).
        { clear. induction l as [|r l IH]; intros p q Hs Hp; [by apply elem_of_nil in Hp|]. cbn in Hs. inversion Hs as [|? ? Hs' Hr]; subst.
          apply elem_of_cons in Hp as [->|Hp]; [|by apply IH]. rewrite Forall_forall in Hr. apply Hr, elem_of_app. right. by left. }
        specialize (Hlt _ _ _ Hs Hin). cbn in Hlt. lia.
      * apply list_elem_of_singleton in Hin. injection Hin as -> _. lia.
  - apply last_None in E. destruct Hm. apply map_eq. intros id. rewrite lookup_empty.
    destruct (m !! id) as [e|] eqn:Em; [|done]. apply items_lookup in Em. rewrite E in Em. by apply elem_of_nil in Em.
Qed.

Lemma inv_set_last b n : inv ∅ b -> n <= last_used_id_ b -> 1 <= n -> (forall id e, list_index_ b !! id = Some e -> id < n) ->
  inv ∅ (set_last_id n b).
Proof.
  intros [] Hn H1' Hids. split; cbn [key_ last_used_id_ set_last_id new_entries_size_ tried_entries_size_ randomly_ordered_ids_ new_buckets_
    tried_buckets_ list_index_]; try done; [lia|]. destruct inv_entries0. split; try done.
  intros id c Hc. destruct (view_lookup (set_last_id n b) id c Hc) as (e & He & _). cbn in He. specialize (Hids id e He).
  apply (eo_ids0 id c) in Hc. lia.
Qed.

Lemma load_saved b tx key0 : is_readonly tx = false -> inv ∅ b -> empty b = false ->
  (forall id e, list_index_ b !! id = Some e -> storable (list_it e)) ->
  load (save b tx) (make key0) = (Success (), set_last_id (wrap 32 (default 1 (fst <$> last (items (list_index_ b))) + 1)) b).
Proof.
  intros Hro HI He Hst. pose proof (inv_in_range b HI) as Hr. destruct (save_tables b tx Hro He Hr Hst) as (T1 & T2 & T3 & T4).
  set (tx' := save b tx) in *. clearbody tx'. unfold load. rewrite T1.
  change (zlen (key_ b) =? 16) with (Z.of_nat (length (key_ b)) =? 16). rewrite (inv_key _ _ HI). change (Z.of_nat 16 =? 16) with true. cbv iota.
  unfold op_bind at 1, modify at 1. unfold op_bind at 1. rewrite for_rows_run, T2, load_empty_index by (done || by apply inv_loadable).
  unfold op_bind at 1, modify at 1. unfold op_bind at 1. rewrite for_rows_run, T3, load_orders by apply (ir_members _ Hr).
  rewrite for_rows_run, T4. unfold bucket_rows. rewrite bare_index.
  match goal with |- run_rows _ _ _ ?x = _ => set (b1 := x) end.
  assert (E1 : b1 = stage [] [] (list_index_ b) (set_last_id (wrap 32 (default 1 (fst <$> last (items (list_index_ b))) + 1)) b)).
  { reflexivity. }
  rewrite E1. clear E1 b1. pose proof (inv_refs _ _ HI) as Hrefs.
  assert (Hnew : Forall (λ p, u32 p.1 /\ u32 p.2 /\ is_Some (list_index_ b !! p.2)) (items (new_buckets_ b))).
  { apply Forall_forall. intros [s id] Hin%items_lookup. destruct (ir_new _ Hr _ _ Hin). split_and!; try done.
    apply (ro_new _ _ _ _ Hrefs) in Hin as (c & Hc & _). destruct (view_lookup b id c Hc) as (e & Ee & _). by exists e. }
  assert (Htried : Forall (λ p, u32 p.1 /\ u32 p.2 /\ is_Some (list_index_ b !! p.2)) (items (tried_buckets_ b))).
  { apply Forall_forall. intros [s id] Hin%items_lookup. destruct (ir_tried _ Hr _ _ Hin). split_and!; try done.
    apply (ro_tried _ _ _ _ Hrefs) in Hin as (c & Hc & _). destruct (view_lookup b id c Hc) as (e & Ee & _). by exists e. }
  assert (Hfst : forall m : gmap Z Z, NoDup (([] ++ items m).*1)) by (intros m; cbn; rewrite items_perm; apply NoDup_fst_map_to_list).
  rewrite (run_rows_app _ _ _ _ _ (load_buckets_new _ [] [] _ _ (Hfst _) Hnew)).
  rewrite load_buckets_tried; [|apply Hfst | by apply tried_ids_distinct | done]. cbn [app]. rewrite inv_stage by done. done.
Qed.

(** A load of what an interrupted save has left. *)
Lemma load_cleared b tx key0 : is_readonly tx = false -> inv ∅ b ->
  load (save_cleared b tx) (make key0) = (Success (), set_last_id 2 (make (key_ b))).
Proof.
  intros Hro HI. destruct (save_cleared_tables b tx Hro) as (T1 & _ & T2 & T3 & T4 & _). unfold load. rewrite T1.
  change (zlen (key_ b) =? 16) with (Z.of_nat (length (key_ b)) =? 16). rewrite (inv_key _ _ HI). change (Z.of_nat 16 =? 16) with true. cbv iota.
  unfold op_bind at 1, modify at 1. unfold op_bind at 1. rewrite for_rows_run, T2. cbn [run_rows op_ret].
  unfold op_bind at 1, modify at 1. unfold op_bind at 1. rewrite for_rows_run, T3. cbn [run_rows op_ret]. by rewrite for_rows_run, T4.
Qed.

End Save.


#[global] Instance storable_dec i : Decision (storable i).
Proof. unfold storable, info_ok, string_ok. apply _. Defined.


(** The timer of the book saves while the book runs, and no more once it has been stopped; but nothing ever sets the book
    to stopped, so that it cannot be started again. *)
Lemma book_service `{Boost} `{Mdbx} (s : service) : status_ s = Stoppable.kNotStarted ->
  disk_ (on_service_timer_expired (start s).2) = save (book_ s) (disk_ s) /\
  on_service_timer_expired (stop (start s).2).2 = (stop (start s).2).2 /\ (start (stop (start s).2).2).1 = false.
Proof. intros E. unfold start, stop, on_service_timer_expired. rewrite E. by split_and!. Qed.

End PersistenceFacts.
