(* ===== verification/Selection.v ===== *)
(** * Random selection from the address book

    Model of [AddressBook::select_random] ([src/src/infra/network/addressbook.cpp]):
    the endpoint to connect to next.  The book itself is not changed; the set of
    endpoints that were selected recently, a mutable member, is the state. *)

From stdpp Require Import gmap sorting.
From S2P Require Import Prelude Text Stream Boost Serialize Types Random Containers Protocol Addresses Payloads AddressBook AddressBookFacts AddressBookInvariant.
#[local] Open Scope Z_scope.

#[global] Instance address_countable : Countable address.
Proof.
  refine (inj_countable' (λ a, match a with V4 b => inl b | V6 b => inr b end)
    (λ x, match x with inl b => V4 b | inr b => V6 b end) _). by intros [b|b].
Defined.

#[global] Instance endpoint_countable : Countable IPEndpoint.t.
Proof.
  refine (inj_countable' (λ e, (IPEndpoint.address_ e, IPEndpoint.port_ e)) (λ p, IPEndpoint.mk p.1 p.2) _). by intros [a p].
Defined.

Module Selection.
Import AddressBook AddressBookFacts AddressBookInvariant.

(** The elements of a [std::map] in the order of its iterators. *)
Definition key_le (p q : Z * Z) : Prop := p.1 <= q.1.
#[global] Instance key_le_dec p q : Decision (key_le p q).
Proof. unfold key_le. apply _. Defined.

Definition ordered (m : gmap Z Z) : list (Z * Z) := merge_sort key_le (map_to_list m).

Lemma ordered_spec m s id : (s, id) ∈ ordered m <-> m !! s = Some id.
Proof. unfold ordered. rewrite merge_sort_Permutation. apply elem_of_map_to_list. Qed.

Lemma length_ordered m : length (ordered m) = base.size m.
Proof. unfold ordered. rewrite merge_sort_Permutation. apply length_map_to_list. Qed.

(** [recently_selected_{64, true}] *)
Definition recent : LruSet.t IPEndpoint.t := LruSet.make 64.

(** The choice of the table, given the draw of zero or one. *)
Definition select_from_tried (new_only coin : bool) (b : t) : bool :=
  if new_only || (tried_entries_size_ b =? 0) then false
  else if new_entries_size_ b =? 0 then true else coin.

(** The draws of one attempt: the index and the thirty bits. *)
Record attempt := { random_index : Z -> Z -> Z; bits : Z }.

(** [chance n info] is the product of the chance factor after [n] rejections, the
    chance of the entry and 2^30, in double precision, as an integer: [get_chance]
    is zero for a bad entry. *)
Definition lucky (chance : nat -> NodeServiceInfo.t -> Z) (now : Z) (rejected : nat) (a : attempt)
    (info : NodeServiceInfo.t) : bool :=
  bits a <? (if NodeServiceInfo.is_bad now info then 0 else chance rejected info).

Fixpoint select_loop (fuel rejected : nat) (chance : nat -> NodeServiceInfo.t -> Z) (now : Z) (type : option IPAddressType)
    (bucket : gmap Z Z) (items_in_set : Z) (draws : nat -> attempt) (b : t)
    : op (LruSet.t IPEndpoint.t) (option (IPEndpoint.t * Z)) :=
  λ seen,
    match fuel with
    | O => (Success None, seen)
    | S fuel =>
        let a := draws O in
        let next rejected := select_loop fuel rejected chance now type bucket items_in_set (λ n, draws (S n)) b in
        let bucket_size := Z.of_nat (base.size bucket) in
        let random_item_index := wrap 32 (Random.randomize (random_index a) 0 (wrap 64 (bucket_size - 1))) in
        match ordered bucket !! Z.to_nat random_item_index with
        | None => (Fault UndefinedBehaviour, seen)
        | Some (_, entry_id) =>
            match lookup_id entry_id b with
            | None => (Fault AssertionFailed, seen)
            | Some service_info =>
                if negb (type_matches type service_info) then next rejected seen
                else if lucky chance now rejected a service_info then
                  let service := NodeServiceInfo.service_ service_info in
                  let (inserted, seen) := LruSet.insert (NodeService.endpoint_ service) seen in
                  if negb inserted && (Z.of_nat (LruSet.size seen) <? items_in_set) then next rejected seen
                  else (Success (Some (NodeService.endpoint_ service, NodeService.time_ service)), seen)
                else next (S rejected) seen
            end
        end
    end.

Definition kMaxAttempts : Z := 50000.

Definition select_random (new_only : bool) (type : option IPAddressType) (chance : nat -> NodeServiceInfo.t -> Z) (now : Z)
    (coin : bool) (draws : nat -> attempt) (b : t) : op (LruSet.t IPEndpoint.t) (option (IPEndpoint.t * Z)) :=
  if bool_decide (randomly_ordered_ids_ b = []) || (new_only && (new_entries_size_ b =? 0)) then op_ret None
  else
    let tried := select_from_tried new_only coin b in
    let items_in_set := if tried then tried_entries_size_ b else new_entries_size_ b in
    let bucket := if tried then tried_buckets_ b else new_buckets_ b in
    select_loop (Z.to_nat kMaxAttempts) 0 chance now type bucket items_in_set draws b.

(** ** Properties *)

Section selection.
Context `{BoostLaws} `{CryptoLaws}.

Definition attempts_ok (draws : nat -> attempt) : Prop :=
  forall n, Random.draw_ok (random_index (draws n)) /\ 0 <= bits (draws n).

(** The entry that a selection returns. *)
Definition selected (type : option IPAddressType) (now : Z) (bucket : gmap Z Z) (b : t) (r : IPEndpoint.t * Z) : Prop :=
  exists s id e, bucket !! s = Some id /\ list_index_ b !! id = Some e /\
    r = (NodeService.endpoint_ (NodeServiceInfo.service_ (list_it e)), NodeService.time_ (NodeServiceInfo.service_ (list_it e))) /\
    NodeServiceInfo.is_bad now (list_it e) = false /\ type_matches type (list_it e) = true.

(** Inserting a key that is there rearranges the set only. *)
Lemma insert_again (seen seen' : LruSet.t IPEndpoint.t) k : ContainersTheorems.lru_inv seen ->
  LruSet.insert k seen = (false, seen') -> ContainersTheorems.lru_inv seen' /\ LruSet.items seen' ≡ₚ LruSet.items seen.
Proof.
  intros Hi E. pose proof (ContainersTheorems.lru_insert seen k Hi) as (Hi' & _ & Hs). rewrite E in Hi', Hs. cbn in Hi', Hs.
  split; [done|]. unfold ContainersTheorems.lru_spec in Hs. case_decide as Hk; [|done]. injection Hs as ->.
  destruct Hi as [Hn _ _ _ _]. fold (LruSet.items seen) in Hn. clear -Hn Hk. induction (LruSet.items seen) as [|x l IH]; [by apply elem_of_nil in Hk|].
  apply NoDup_cons in Hn as [Hx Hn]. destruct (decide (x = k)) as [->|Hne].
  - rewrite filter_cons_False by naive_solver. apply Permutation_skip.
    rewrite ContainersTheorems.filter_keep; [done|]. intros y Hy ->. done.
  - apply elem_of_cons in Hk as [->|Hk]; [done|]. rewrite filter_cons_True by done. rewrite Permutation_swap. apply Permutation_skip. by apply IH.
Qed.

(** What was selected was not selected recently, or all candidates have been. *)
Definition fresh (items_in_set : Z) (seen : LruSet.t IPEndpoint.t) (e : IPEndpoint.t) : Prop :=
  e ∉ LruSet.items seen \/ items_in_set <= Z.of_nat (LruSet.size seen).

Lemma fresh_perm items (seen seen' : LruSet.t IPEndpoint.t) e : LruSet.items seen' ≡ₚ LruSet.items seen ->
  fresh items seen' e -> fresh items seen e.
Proof.
  intros E. unfold fresh. rewrite E. apply Permutation_length in E. unfold LruSet.items in E. rewrite !length_fmap in E.
  unfold LruSet.size. by rewrite E.
Qed.

Lemma insert_fresh (seen seen' : LruSet.t IPEndpoint.t) k ins items : ContainersTheorems.lru_inv seen ->
  LruSet.insert k seen = (ins, seen') -> negb ins && (Z.of_nat (LruSet.size seen') <? items) = false -> fresh items seen k.
Proof.
  intros Hi E Hc. destruct ins.
  - left. pose proof (ContainersTheorems.lru_insert seen k Hi) as (_ & _ & Hs). rewrite E in Hs. cbn in Hs.
    unfold ContainersTheorems.lru_spec in Hs. by case_decide.
  - apply Z.ltb_ge in Hc. destruct (insert_again seen seen' k Hi E) as [_ Hp]. apply (fresh_perm items _ _ k Hp). by right.
Qed.

Lemma select_loop_ok fuel : forall rejected chance now type bucket items draws b seen,
  attempts_ok draws -> (exists s id, bucket !! s = Some id) -> Z.of_nat (base.size bucket) < 2 ^ 32 ->
  (forall s id, bucket !! s = Some id -> exists e, list_index_ b !! id = Some e) -> ContainersTheorems.lru_inv seen ->
  exists r seen', select_loop fuel rejected chance now type bucket items draws b seen = (Success r, seen') /\
    match r with Some r => selected type now bucket b r /\ fresh items seen r.1 | None => True end.
Proof.
  induction fuel as [|fuel IH]; intros rejected chance now type bucket items draws b seen Hd Hne Hsz Hb Hl; [by exists None, seen|].
  cbn [select_loop]. cbv zeta. set (k := Z.of_nat (base.size bucket)) in *.
  assert (Hk : 0 < k).
  { destruct Hne as (s & id & Hs). unfold k. destruct (base.size bucket) eqn:E; [|lia]. apply map_size_empty_inv in E. by subst. }
  set (i := Random.randomize _ _ _). assert (Hi : 0 <= i < k).
  { unfold i, wrap. rewrite Z.mod_small by lia. pose proof (Random.randomize_range (random_index (draws 0%nat)) 0 (k - 1)) as Hr.
    specialize (Hr (proj1 (Hd 0%nat)) ltac:(lia)). lia. }
  unfold wrap. rewrite (Z.mod_small i) by lia.
  destruct (lookup_lt_is_Some_2 (ordered bucket) (Z.to_nat i)) as [[s id] Hs]; [rewrite length_ordered; lia|]. rewrite Hs.
  apply list_elem_of_lookup_2, ordered_spec in Hs. destruct (Hb s id Hs) as [e He]. unfold lookup_id. rewrite He. cbn [fmap option_fmap option_map].
  assert (Hnext : forall rejected seen1, ContainersTheorems.lru_inv seen1 -> LruSet.items seen1 ≡ₚ LruSet.items seen -> exists r seen',
    select_loop fuel rejected chance now type bucket items (λ n, draws (S n)) b seen1 = (Success r, seen') /\
    match r with Some r => selected type now bucket b r /\ fresh items seen r.1 | None => True end).
  { intros rj sn Hsn Hp. destruct (IH rj chance now type bucket items (λ n, draws (S n)) b sn) as (r & seen' & E & Hr); try done.
    { intros n. apply Hd. }
    exists r, seen'. split; [done|]. destruct r as [r|]; [|done]. destruct Hr as [Hr1 Hr2]. split; [done|]. by eapply fresh_perm. }
  destruct (type_matches type (list_it e)) eqn:Et; cbn [negb]; [|by apply Hnext].
  destruct (lucky _ _ _ _ _) eqn:El; [|by apply Hnext]. destruct (LruSet.insert _ seen) as [ins seen'] eqn:Ei.
  destruct (_ && _) eqn:Ec; [apply Hnext; destruct ins; try done; by eapply insert_again|].
  eexists _, _. split; [done|]. split; [|by eapply insert_fresh].
  exists s, id, e. split_and!; try done.
  unfold lucky in El. destruct (NodeServiceInfo.is_bad now (list_it e)); [|done]. apply Z.ltb_lt in El. specialize (Hd 0%nat). lia.
Qed.

(** ** The tables of a consistent book *)

Lemma index_of_view b id c : view b !! id = Some c -> exists e, list_index_ b !! id = Some e /\ core_of e = c.
Proof. unfold view. rewrite lookup_fmap. intros (e & He & ->)%fmap_Some. eauto. Qed.

(** Few slots exist. *)
Lemma slots_bound {A} (m : gmap Z A) n : (forall s x, m !! s = Some x -> 0 <= s < n) -> Z.of_nat (base.size m) <= Z.max 0 n.
Proof.
  intros Hm. rewrite <- size_dom. assert (Hs : dom m ⊆ list_to_set (C := gset Z) (seqZ 0 n)).
  { intros s [id Hs]%elem_of_dom. apply elem_of_list_to_set, elem_of_seqZ. specialize (Hm s id Hs). lia. }
  apply subseteq_size in Hs. rewrite size_list_to_set in Hs by apply NoDup_seqZ. rewrite length_seqZ in Hs. lia.
Qed.

(** A property that some entries have. *)
Lemma tally_pos P b : 0 < tally P (view b) -> exists id c, view b !! id = Some c /\ P c = true.
Proof.
  unfold tally. intros Hp. destruct (base.size (filter (λ p, P p.2 = true) (view b))) eqn:E; [lia|].
  destruct (map_choose (filter (λ p, P p.2 = true) (view b))) as (id & c & Hc).
  { intros E'. rewrite E', map_size_empty in E. lia. }
  apply map_lookup_filter_Some in Hc as [Hc Hp']. by exists id, c.
Qed.

Lemma size_nonzero P b n : n = wrap 32 (tally P (view b)) -> n <> 0 -> exists id c, view b !! id = Some c /\ P c = true.
Proof.
  intros -> Hn. apply tally_pos. assert (0 <= tally P (view b)) by (unfold tally; lia).
  destruct (Z.eq_dec (tally P (view b)) 0) as [E|]; [rewrite E in Hn; done | lia].
Qed.

Lemma tally_le P b : tally P (view b) <= Z.of_nat (base.size (view b)).
Proof. unfold tally. apply Nat2Z.inj_le, map_subseteq_size, map_filter_subseteq. Qed.

(** The table that a selection draws from is not empty. *)
Lemma bucket_ok new_only coin b : inv ∅ b ->
  bool_decide (randomly_ordered_ids_ b = []) || (new_only && (new_entries_size_ b =? 0)) = false ->
  let bucket := if select_from_tried new_only coin b then tried_buckets_ b else new_buckets_ b in
  (exists s id, bucket !! s = Some id) /\ Z.of_nat (base.size bucket) < 2 ^ 32 /\
  (forall s id, bucket !! s = Some id -> exists e, list_index_ b !! id = Some e).
Proof.
  intros HI Hg bucket. apply orb_false_iff in Hg as [Hids Hnew]. apply bool_decide_eq_false in Hids.
  pose proof (inv_refs _ _ HI) as HR. split; [|split].
  - assert (Hn : new_entries_size_ b <> 0 -> exists s id, new_buckets_ b !! s = Some id).
    { intros Hz. destruct (size_nonzero _ _ _ (inv_new_size _ _ HI) Hz) as (id & c & Hc & Hp).
      apply bool_decide_eq_true in Hp. apply set_choose_L in Hp as [s Hs]. exists s, id. apply (ro_new _ _ _ _ HR). eauto. }
    assert (Ht : tried_entries_size_ b <> 0 -> exists s id, tried_buckets_ b !! s = Some id).
    { intros Hz. destruct (size_nonzero _ _ _ (inv_tried_size _ _ HI) Hz) as (id & c & Hc & Hp).
      apply bool_decide_eq_true in Hp as [s Hs]. exists s, id. apply (ro_tried _ _ _ _ HR). eauto. }
    unfold bucket, select_from_tried. destruct new_only; cbn [andb orb] in *; [apply Z.eqb_neq in Hnew; auto|].
    destruct (Z.eqb_spec (tried_entries_size_ b) 0) as [Et|Et].
    + destruct (randomly_ordered_ids_ b) as [|id ids] eqn:Ei; [done|].
      assert (Hid : randomly_ordered_ids_ b !! 0%nat = Some id) by (by rewrite Ei).
      apply (proj1 (inv_order _ _ HI)), elem_of_dom_2 in Hid. rewrite dom_view in Hid. apply elem_of_dom in Hid as [c Hc].
      destruct (decide (c_tried c = None)) as [Hn'|Ht'].
      * apply (ro_used _ _ _ _ HR id c Hc) in Hn'; [|set_solver]. apply set_choose_L in Hn' as [s Hs].
        exists s, id. apply (ro_new _ _ _ _ HR). eauto.
      * exfalso. rewrite (inv_tried_size _ _ HI) in Et. assert (Hp : has_tried c = true).
        { apply bool_decide_eq_true. destruct (c_tried c); [eauto | done]. }
        assert (Hpos : 0 < tally has_tried (view b)).
        { pose proof (tally_delete has_tried (view b) id c Hc) as E. rewrite Hp in E. unfold one in E. unfold tally in *. lia. }
        assert (tally has_tried (view b) < 2 ^ 32).
        { apply Z.le_lt_trans with (Z.of_nat (base.size (view b))); [apply tally_le|].
          apply Z.le_lt_trans with (Z.max 0 (last_used_id_ b)); [|pose proof (inv_last _ _ HI); lia]. apply slots_bound.
          intros i c' Hi. apply (eo_ids _ _ (inv_entries _ _ HI)) in Hi. lia. }
        unfold wrap in Et. rewrite Z.mod_small in Et by lia. lia.
    + destruct (Z.eqb_spec (new_entries_size_ b) 0); [auto|]. destruct coin; auto.
  - apply Z.le_lt_trans with (65536 * 1024); [|done]. rewrite <- (Z.max_r 0 (65536 * 1024)) by lia. apply slots_bound.
    intros s id Hs. unfold bucket in Hs. destruct (select_from_tried _ _ _).
    + apply (ro_tried_slots _ _ _ _ HR) in Hs as (x & y & Hx & Hy & ->). unfold kTriedBucketsCount, kBucketSize in *. lia.
    + apply (ro_new_slots _ _ _ _ HR) in Hs as (x & y & Hx & Hy & ->). unfold kNewBucketsCount, kBucketSize in *. lia.
  - intros s id Hs. unfold bucket in Hs. destruct (select_from_tried _ _ _).
    + apply (ro_tried _ _ _ _ HR) in Hs as (c & Hc & _). apply index_of_view in Hc as (e & He & _). eauto.
    + apply (ro_new _ _ _ _ HR) in Hs as (c & Hc & _). apply index_of_view in Hc as (e & He & _). eauto.
Qed.

(** The first attempt, when it cannot fail. *)
Lemma select_first fuel chance now bucket items draws b seen r seen' :
  attempts_ok draws -> (exists s id, bucket !! s = Some id) -> Z.of_nat (base.size bucket) < 2 ^ 32 ->
  (forall s id, bucket !! s = Some id -> exists e, list_index_ b !! id = Some e) -> ContainersTheorems.lru_inv seen ->
  LruSet.items seen = [] ->
  (forall id e, list_index_ b !! id = Some e -> NodeServiceInfo.is_bad now (list_it e) = false /\
     bits (draws 0%nat) < chance 0%nat (list_it e)) ->
  select_loop (S fuel) 0 chance now None bucket items draws b seen = (Success r, seen') -> is_Some r.
Proof.
  intros Hd Hne Hsz Hb Hl Hseen Hall. cbn [select_loop]. cbv zeta.
  destruct (ordered bucket !! _) as [[s id]|]; [|done]. unfold lookup_id. destruct (list_index_ b !! id) as [e|] eqn:He; [|done].
  cbn [fmap option_fmap option_map type_matches negb]. destruct (Hall id e He) as [Hbad Hbits].
  unfold lucky. rewrite Hbad, (proj2 (Z.ltb_lt _ _) Hbits).
  pose proof (ContainersTheorems.lru_insert seen (NodeService.endpoint_ (NodeServiceInfo.service_ (list_it e))) Hl) as (_ & _ & Hs).
  rewrite Hseen in Hs. unfold ContainersTheorems.lru_spec in Hs. rewrite decide_False in Hs by (by intros ?%elem_of_nil).
  destruct (LruSet.insert _ seen) as [ins sn]. cbn in Hs. injection Hs as -> _. cbn [negb andb]. intros [= <- _]. eauto.
Qed.

(** Selecting an endpoint from a consistent book never fails. What it returns is
    the endpoint of an entry that is not bad and has the address type asked for,
    taken from the table of new entries if only these are asked for, and it was
    not returned recently unless all candidates were. And when luck does not
    stand in the way, an endpoint is returned. *)
Theorem book_select (new_only : bool) (type : option IPAddressType) (chance : nat -> NodeServiceInfo.t -> Z) (now : Z)
    (coin : bool) (draws : nat -> attempt) (b : t) (seen : LruSet.t IPEndpoint.t) :
  inv ∅ b -> attempts_ok draws -> ContainersTheorems.lru_inv seen ->
  let tried := select_from_tried new_only coin b in
  exists r seen', select_random new_only type chance now coin draws b seen = (Success r, seen') /\
    match r with
    | Some (e, time) =>
        selected type now (if tried then tried_buckets_ b else new_buckets_ b) b (e, time) /\
        fresh (if tried then tried_entries_size_ b else new_entries_size_ b) seen e /\
        (new_only = true -> tried = false)
    | None => True
    end /\
    (randomly_ordered_ids_ b <> [] -> (new_only = true -> new_entries_size_ b <> 0) -> type = None -> LruSet.items seen = [] ->
     (forall id e, list_index_ b !! id = Some e -> NodeServiceInfo.is_bad now (list_it e) = false /\
        bits (draws 0%nat) < chance 0%nat (list_it e)) ->
     is_Some r).
Proof.
  intros HI Hd Hl tried. unfold select_random. destruct (_ || _) eqn:Eg.
  { exists None, seen. split_and!; try done. intros Hids Hnew _ _ _. exfalso. apply orb_prop in Eg as [E|E].
    - by apply bool_decide_eq_true in E.
    - apply andb_prop in E as [-> E]. apply Z.eqb_eq in E. by apply Hnew. }
  destruct (bucket_ok new_only coin b HI Eg) as (Hne & Hsz & Hb). cbv zeta in Hne, Hsz, Hb. fold tried in Hne, Hsz, Hb |- *. cbv zeta.
  destruct (select_loop_ok (Z.to_nat kMaxAttempts) 0 chance now type (if tried then tried_buckets_ b else new_buckets_ b)
    (if tried then tried_entries_size_ b else new_entries_size_ b) draws b seen Hd Hne Hsz Hb Hl) as (r & seen' & E & Hr).
  exists r, seen'. split; [done|]. split.
  - destruct r as [[e time]|]; [|done]. destruct Hr as [Hr1 Hr2]. split_and!; try done.
    intros ->. done.
  - intros _ _ -> Hseen Hall. revert E.
    replace (Z.to_nat kMaxAttempts) with (S (Z.to_nat (kMaxAttempts - 1))) by (unfold kMaxAttempts; lia).
    apply select_first; done.
Qed.
End selection.

End Selection.
