(* ===== verification/Concurrency.v ===== *)
(** * Timers, channels and queues

    Models of [src/src/infra/concurrency/timer.cpp], [channel.hpp],
    [unique_queue.hpp], [worker.cpp] and [context.cpp].  A timer is a state machine: the calls of its members and
    the events of the Asio timer it waits on are its steps, in the order in which
    they take effect. *)

From stdpp Require Import gmap.
From S2P Require Import Prelude Text Meters.
#[local] Open Scope Z_scope.

Module Timer.

(** A run of the coroutine [work]: the interval it waits for, and whether it
    waits again, as read when it began. *)
Record work := { wait_interval : Z; resubmit : bool }.

Record t := mk {
  status_ : Stoppable.ComponentStatus;
  interval_ : Z;
  has_call_back_ : bool;
  autoreset_ : bool;
  works_ : list work;
}.

Definition make (autoreset : bool) : t := mk Stoppable.kNotStarted 0 false autoreset [].
Definition is_running (s : t) : bool := Stoppable.is_running (status_ s).

(** A call back may be empty: [call_back] says whether there is one. *)
Definition set_callback (call_back : bool) (s : t) : t :=
  if is_running s then s else mk (status_ s) (interval_ s) call_back (autoreset_ s) (works_ s).

Definition set_interval (interval : Z) (s : t) : t := mk (status_ s) interval (has_call_back_ s) (autoreset_ s) (works_ s).
Definition set_autoreset (value : bool) (s : t) : t := mk (status_ s) (interval_ s) (has_call_back_ s) value (works_ s).

Definition start (s : t) : bool * t :=
  let (started, st) := Stoppable.start (status_ s) in
  let s := mk st (interval_ s) (has_call_back_ s) (autoreset_ s) (works_ s) in
  if negb started then (false, s)
  else if (interval_ s =? 0) || negb (has_call_back_ s) then (false, s)
  else (true, mk st (interval_ s) (has_call_back_ s) (autoreset_ s)
                (works_ s ++ [{| wait_interval := interval_ s; resubmit := autoreset_ s |}])).

Definition start_with (interval : Z) (call_back : bool) (s : t) : bool * t :=
  if is_running s then (false, s)
  else start (mk (status_ s) interval call_back (autoreset_ s) (works_ s)).

(** [stop] cancels the wait: the coroutine then ends with [operation_aborted]. *)
Definition stop (s : t) : bool * t :=
  let (stopped, st) := Stoppable.stop (status_ s) in
  (stopped, mk st (interval_ s) (has_call_back_ s) (autoreset_ s) (works_ s)).

(** The end of a coroutine. *)
Definition finish (i : nat) (s : t) : t :=
  mk (Stoppable.set_stopped (status_ s)) (interval_ s) (has_call_back_ s) (autoreset_ s)
    (take i (works_ s) ++ drop (S i) (works_ s)).

(** The wait of coroutine [i] is over and the call back leaves [interval]. *)
Definition expire (i : nat) (interval : Z) (s : t) : t :=
  match works_ s !! i with
  | None => s
  | Some w =>
      if is_running s && resubmit w && negb (interval =? 0)
      then mk (status_ s) (interval_ s) (has_call_back_ s) (autoreset_ s)
             (<[i := {| wait_interval := interval; resubmit := resubmit w |}]> (works_ s))
      else finish i s
  end.

(** The wait of coroutine [i] is cancelled, by [stop] or [reset], or throws. *)
Definition abort (i : nat) (s : t) : t := match works_ s !! i with None => s | Some _ => finish i s end.

Inductive step : t -> t -> Prop :=
| step_set_callback call_back s : step s (set_callback call_back s)
| step_set_interval interval s : step s (set_interval interval s)
| step_set_autoreset value s : step s (set_autoreset value s)
| step_start s : step s (start s).2
| step_start_with interval call_back s : step s (start_with interval call_back s).2
| step_stop s : step s (stop s).2
| step_expire i interval s : step s (expire i interval s)
| step_abort i s : step s (abort i s).

(** At most one coroutine, and none while not started. *)
Definition single (s : t) : Prop :=
  (length (works_ s) <= 1)%nat /\ (status_ s = Stoppable.kNotStarted -> works_ s = []).

Lemma single_finish i s : single s -> works_ s !! i <> None -> single (finish i s).
Proof.
  intros [H1 _] Hi. destruct (works_ s) as [|w [|]] eqn:E; [done| |simpl in H1; lia].
  destruct i; [|done]. unfold finish. rewrite E. split; simpl; [lia | done].
Qed.

Lemma single_start s : single s -> single (start s).2.
Proof.
  intros [H1 H2]. unfold start. destruct (status_ s) eqn:E; cbn [Stoppable.start negb]; try (split; [done | discriminate]).
  rewrite (H2 eq_refl). destruct (_ || _); (split; [simpl; lia | discriminate]).
Qed.

Lemma single_step s s' : step s s' -> single s -> single s'.
Proof.
  destruct 1 as [cb s|i s|v s|s|i cb s|s|i interval s|i s]; intros H.
  - unfold set_callback. by destruct (is_running s).
  - done.
  - done.
  - by apply single_start.
  - unfold start_with. destruct (is_running s); [done|]. by apply single_start.
  - destruct H as [H1 H2]. unfold stop. destruct (status_ s) eqn:E; cbn; (split; [done|]); try done; by rewrite E in *.
  - unfold expire. destruct (works_ s !! i) as [w|] eqn:E; [|done]. destruct (_ && _) eqn:Er; [|apply single_finish; congruence].
    destruct H as [H1 H2]. split; cbn; [by rewrite length_insert|]. intros Hn. unfold is_running in Er. by rewrite Hn in Er.
  - unfold abort. destruct (works_ s !! i) eqn:E; [|done]. apply single_finish; congruence.
Qed.

(** A timer that has been started with a zero interval or without a call back is lost. *)
Definition lost (s : t) : Prop := status_ s <> Stoppable.kNotStarted /\ works_ s = [].

Lemma lost_step s s' : step s s' -> lost s -> lost s'.
Proof.
  unfold lost. destruct 1 as [cb s|i s|v s|s|i cb s|s|i interval s|i s]; intros [H1 H2].
  - unfold set_callback. destruct (is_running s); by split.
  - by split.
  - by split.
  - unfold start. by destruct (status_ s).
  - destruct s as [[] ? ? ? ?]; by split.
  - destruct s as [[] ? ? ? ?]; by split.
  - unfold expire. by rewrite H2.
  - unfold abort. by rewrite H2.
Qed.

(** C37: A timer never runs two coroutines at a time, and once it has been started
    with a zero interval or without a call back it is lost: whatever is called afterwards, no coroutine
    runs, and no start succeeds. *)
Theorem timer_lifecycle (autoreset : bool) (interval : Z) (call_back : bool) (s s' : t) :
  rtc step (make autoreset) s ->
  (length (works_ s) <= 1)%nat /\
  (interval = 0 \/ call_back = false ->
   status_ s = Stoppable.kNotStarted -> rtc step (start_with interval call_back s).2 s' ->
     works_ s' = [] /\ (forall interval call_back, (start_with interval call_back s').1 = false)).
Proof.
  intros Hr. assert (Hs : single s).
  { remember (make autoreset) as s0 eqn:E. assert (single s0) by (subst; split; [simpl; lia | done]). clear E.
    induction Hr as [|x y z Hxy _ IH]; [done|]. apply IH. by eapply single_step. }
  split; [apply Hs|]. intros Hz Hn Hr'. destruct Hs as [_ Hw]. specialize (Hw Hn).
  assert (Hl : lost (start_with interval call_back s).2).
  { destruct s as [[] ? ? ? ?]; try discriminate Hn. unfold lost, start_with, start.
    destruct Hz as [-> | ->]; cbn; [done|]. rewrite orb_true_r. by split. }
  assert (lost s') as [L1 L2].
  { clear -Hr' Hl. induction Hr' as [|x y z Hxy _ IH]; [done|]. apply IH. by eapply lost_step. }
  split; [done|]. intros i cb. by destruct s' as [[] ? ? ? ?].
Qed.

(** A timer that fires once and is then started with a zero interval, or without a call back. *)
Definition fired : t := expire 0 5 (start_with 5 true (make false)).2.

Lemma timer_lifecycle_witness :
  (start_with 7 true (start_with 0 true fired).2).1 = false /\ (start_with 7 true (start_with 5 false fired).2).1 = false.
Proof.
  assert (Hr : rtc step (make false) fired) by (eapply rtc_l; [apply (step_start_with 5 true) | apply rtc_once, step_expire]).
  split.
  - apply (timer_lifecycle false 0 true fired _ Hr); [by left | reflexivity | apply rtc_refl].
  - apply (timer_lifecycle false 5 false fired _ Hr); [by right | reflexivity | apply rtc_refl].
Defined.

End Timer.

(** ** Channels *)

Module Channel.
Section Channel.
Context {T : Type}.

(** The buffer of the Asio channel. *)
Record t := mk { open_ : bool; capacity_ : nat; items_ : list T }.

Definition make (max_buffer_size : nat) : t := mk true max_buffer_size [].

(** Nothing is sent to a closed channel or into a full buffer. *)
Definition try_send (value : T) (c : t) : bool * t :=
  if open_ c && (length (items_ c) <? capacity_ c)%nat
  then (true, mk (open_ c) (capacity_ c) (items_ c ++ [value])) else (false, c).

Definition ready (c : t) : bool := negb (bool_decide (length (items_ c) = 0%nat)).

Definition try_receive (c : t) : option T * t :=
  if negb (open_ c) || negb (ready c) then (None, c)
  else match items_ c with
       | [] => (None, c)
       | x :: items => (Some x, mk (open_ c) (capacity_ c) items)
       end.

Definition is_open (c : t) : bool := open_ c.
Definition close (c : t) : t := mk false (capacity_ c) (items_ c).

(** The asynchronous operations, given what Asio's complete with: a code, which is thrown, or success.  A channel that
    is closed or cancelled is reported as an operation that was aborted. *)
Inductive code := channel_closed | channel_cancelled | operation_aborted | other_code (n : Z).

Definition reported (c : code) : code := match c with channel_closed | channel_cancelled => operation_aborted | c => c end.

(** The code that is thrown. *)
Definition async_send (completed : option code) : option code := reported <$> completed.

(** With a reference to a code: what is thrown, and the code afterwards.  The code is handed to Asio as part of
    the item. *)
Definition async_send_error (completed error : option code) : option code * option code :=
  match completed with
  | Some c => (Some c, error)
  | None => (None, reported <$> error)
  end.

Definition async_receive (completed : code + T) : code + T :=
  match completed with inl c => inl (reported c) | inr x => inr x end.

Definition async_receive_error (completed : code + T) (error : option code) : option T * option code :=
  match completed with inl c => (None, Some (reported c)) | inr x => (Some x, error) end.

(** A receive reports its failure by the code, and there is a value exactly when there is no failure; a send throws
    what Asio throws, and never sets the code. *)
Lemma channel_errors (completed : code + T) (sent error : option code) :
  ((async_receive_error completed None).1 = None <-> is_Some (async_receive_error completed None).2) /\
  (is_Some sent -> async_send_error sent error = (sent, error)).
Proof. destruct completed, sent; cbn; split; try done; split; intros; try done; by destruct H. Qed.

(** What has been sent comes out in order. *)
Lemma try_send_items value c : (try_send value c).1 = true -> items_ (try_send value c).2 = items_ c ++ [value].
Proof. unfold try_send. by destruct (_ && _). Qed.

Lemma try_send_bound value c : (length (items_ c) <= capacity_ c)%nat ->
  (length (items_ (try_send value c).2) <= capacity_ (try_send value c).2)%nat.
Proof.
  intros H. unfold try_send. destruct (_ && _) eqn:E; [|done]. apply andb_prop in E as [_ E%Nat.ltb_lt]. cbn.
  rewrite length_app. cbn. lia.
Qed.

Lemma try_receive_spec c x c' : try_receive c = (Some x, c') -> items_ c = x :: items_ c' /\ open_ c' = open_ c.
Proof. unfold try_receive. destruct (_ || _); [done|]. destruct (items_ c); [done|]. by intros [= <- <-]. Qed.
End Channel.
Arguments t : clear implicits.
End Channel.

Module NotifyChannel.

Definition t : Type := Channel.t unit.
Definition make : t := Channel.make 1.
Definition notified (c : t) : bool * t :=
  match Channel.try_receive c with (Some _, c) => (true, c) | (None, c) => (false, c) end.
Definition notify (c : t) : t := (Channel.try_send () c).2.

(** Notifications do not add up. *)
Lemma notify_notify c : (length (Channel.items_ c) <= Channel.capacity_ c)%nat -> Channel.capacity_ c = 1%nat ->
  notify (notify c) = notify c.
Proof.
  intros H1 H2. destruct c as [o k l]. cbn in H1, H2. subst k. destruct l as [|x [|]]; cbn in H1; [| |lia]; by destruct o.
Qed.

End NotifyChannel.

(** ** UniqueQueue *)

Module UniqueQueue.
Section UniqueQueue.
Context {T : Type} `{Countable T}.

Record t := mk { capacity_ : nat; queue_ : list T; set_ : gset T }.

(** [std::invalid_argument] is the failure [invalid_argument]. *)
Definition make (capacity : nat) : outcome t :=
  if decide (capacity = 0%nat) then Failure (Errc invalid_argument) else Success (mk capacity [] ∅).

Definition empty (q : t) : bool := bool_decide (queue_ q = []).
Definition size (q : t) : nat := length (queue_ q).
Definition contains (item : T) (q : t) : bool := bool_decide (item ∈ set_ q).

Definition push (item : T) (q : t) : bool * t :=
  if decide (item ∈ set_ q) then (false, q)
  else
    let queue := queue_ q ++ [item] in
    let set := {[item]} ∪ set_ q in
    if decide (capacity_ q < length queue)%nat then
      match queue with
      | front :: rest => (true, mk (capacity_ q) rest (set ∖ {[front]}))
      | [] => (true, mk (capacity_ q) queue set)
      end
    else (true, mk (capacity_ q) queue set).

Definition pop (q : t) : option T * t :=
  match queue_ q with
  | [] => (None, q)
  | item :: rest => (Some item, mk (capacity_ q) rest (set_ q ∖ {[item]}))
  end.

Definition clear (q : t) : t := mk (capacity_ q) [] ∅.

(** The queue has no repetitions, and the set has its elements. *)
Record wf (q : t) : Prop := {
  wf_nodup : NoDup (queue_ q);
  wf_set : forall x, x ∈ set_ q <-> x ∈ queue_ q;
  wf_size : (length (queue_ q) <= capacity_ q)%nat;
}.

Lemma wf_tail c x l s : wf (mk c (x :: l) s) \/ (NoDup (x :: l) /\ (forall y, y ∈ s <-> y ∈ x :: l) /\ (length l <= c)%nat) ->
  wf (mk c l (s ∖ {[x]})).
Proof.
  intros Hw. assert (Hw' : NoDup (x :: l) /\ (forall y, y ∈ s <-> y ∈ x :: l) /\ (length l <= c)%nat).
  { destruct Hw as [[H1 H2 H3]|]; [|done]. cbn in *. split_and!; [done | done | lia]. }
  destruct Hw' as (H1 & H2 & H3). apply NoDup_cons in H1 as [Hx Hl]. split; cbn; try done.
  intros y. rewrite elem_of_difference, H2, elem_of_singleton, elem_of_cons. split; [by intros [[-> | ?] ?]|].
  intros Hy. split; [by right | by intros ->].
Qed.

Lemma wf_push item q : (0 < capacity_ q)%nat -> wf q ->
  wf (push item q).2 /\ (push item q).1 = negb (contains item q) /\ contains item (push item q).2 = true.
Proof.
  intros Hc [H1 H2 H3]. unfold push, contains. destruct (decide (item ∈ set_ q)) as [Hi|Hi].
  { rewrite !bool_decide_eq_true_2 by done. by split. }
  rewrite (bool_decide_eq_false_2 (item ∈ set_ q)) by done. cbv zeta.
  assert (Hn : NoDup (queue_ q ++ [item])).
  { apply NoDup_app. split; [done|]. split; [|apply NoDup_singleton]. intros x Hx ->%list_elem_of_singleton. by rewrite H2 in Hi. }
  assert (Hs : forall x, x ∈ {[item]} ∪ set_ q <-> x ∈ queue_ q ++ [item]) by (intros x; specialize (H2 x); set_solver).
  destruct (decide (capacity_ q < length (queue_ q ++ [item]))%nat) as [Hl|Hl].
  - rewrite length_app in Hl. cbn in Hl. destruct (queue_ q) as [|f l] eqn:E; cbn in *; [lia|].
    split; [apply wf_tail; right; split_and!; [done | done | rewrite length_app; cbn; lia]|]. split; [done|].
    apply bool_decide_eq_true_2. apply elem_of_difference. split; [set_solver|]. intros ->%elem_of_singleton.
    apply NoDup_cons in Hn as [Hn _]. set_solver.
  - split; [split; cbn; [done | done | lia]|]. split; [done|]. apply bool_decide_eq_true_2. set_solver.
Qed.

Lemma wf_pop q : wf q -> wf (pop q).2.
Proof.
  intros Hw. unfold pop. destruct q as [c [|x l] s]; [done|]. cbn. apply wf_tail. by left.
Qed.

End UniqueQueue.
End UniqueQueue.

(** ** Workers *)

Module Worker.

(** What [work] leaves behind when it ends. *)
Inductive ending := Returned | ThrewException | ThrewOther.

(** [thread_] is null, runs or has ended.  The id of the thread is left out, and with it
    the assertion that a thread does not stop itself. *)
Inductive thread := NoThread | Running | Ended.

Record t := mk {
  status_ : Stoppable.ComponentStatus;
  kicked_ : bool;
  thread_ : thread;
  has_exception_ : bool;
}.

Definition make : t := mk Stoppable.kNotStarted false NoThread false.
Definition is_running (w : t) : bool := Stoppable.is_running (status_ w).

(** Assigning to [thread_] while the old thread is joinable and has not been joined
    detaches it. *)
Definition start (w : t) : bool * t :=
  let (started, st) := Stoppable.start (status_ w) in
  if negb started then (false, w) else (true, mk st false Running false).

Definition kick (w : t) : t := mk (status_ w) true (thread_ w) (has_exception_ w).

(** The thread after [work] has ended, its last assignments taken as one step. *)
Definition finish (e : ending) (w : t) : t :=
  match thread_ w with
  | Running => mk (Stoppable.set_stopped (status_ w)) false Ended
                 (match e with ThrewException => true | _ => has_exception_ w end)
  | _ => w
  end.

(** [stop] up to the join, and what follows it, which waits for the thread. *)
Definition request_stop (w : t) : bool * t :=
  let (ret, st) := Stoppable.stop (status_ w) in
  let w := mk st (kicked_ w) (thread_ w) (has_exception_ w) in
  (ret, if ret then kick w else w).
Definition joined (w : t) : t := mk (status_ w) (kicked_ w) NoThread (has_exception_ w).

(** A turn of the loop of [wait_for_kick], in which the other threads act as [during]
    says while this one waits: what it returns, if it returns. *)
Definition wait_turn (during : t -> t) (w : t) : option bool * t :=
  if kicked_ w then (Some true, mk (status_ w) false (thread_ w) (has_exception_ w))
  else
    let w := during w in
    if negb (is_running w) then (Some false, w) else (None, w).

Inductive step : t -> t -> Prop :=
| step_start w : step w (start w).2
| step_kick w : step w (kick w)
| step_finish e w : step w (finish e w)
| step_request_stop w : step w (request_stop w).2
| step_joined w : thread_ w <> Running -> step w (joined w)
| step_wait w : step w (wait_turn id w).2.

(** A thread runs exactly while the worker is started or stopping. *)
Lemma thread_status w : rtc step make w -> thread_ w = Running <-> status_ w <> Stoppable.kNotStarted.
Proof.
  revert w. apply (rtc_ind_r (R := step) (λ w, thread_ w = Running <-> status_ w <> Stoppable.kNotStarted) make); [done|].
  intros x y _ Hs IH. destruct Hs as [w|w|e w|w|w Ht|w]; unfold start, finish, request_stop, wait_turn, kick, joined.
  - destruct (status_ w) eqn:E; cbn; rewrite ?E; try done; rewrite E in IH; try done; tauto.
  - done.
  - destruct (thread_ w) eqn:E; cbn; by rewrite ?E.
  - destruct (status_ w) eqn:E; by rewrite IH.
  - cbn. split; [done|]. intros Hn. by destruct Ht; apply IH.
  - destruct (kicked_ w); [done|]. cbn. by destruct (is_running w).
Qed.

(** A kick is not lost: the next turn of a wait returns it; and it is returned once. *)
Lemma kick_once d w : (wait_turn d (kick w)).1 = Some true /\
  (is_running (d (wait_turn d (kick w)).2) = true -> (wait_turn d (wait_turn d (kick w)).2).1 = None).
Proof. split; [done|]. intros Hr. unfold wait_turn in *. cbn in *. by rewrite Hr. Qed.

(** A kick that comes while the thread waits is taken by the next turn. *)
Lemma kick_during d w : kicked_ w = false -> is_running (d w) = true ->
  (wait_turn d (wait_turn (λ w, kick (d w)) w).2).1 = Some true.
Proof. intros Hk Hr. unfold wait_turn at 2. rewrite Hk. cbn. unfold is_running in *. cbn. by rewrite Hr. Qed.

(** A stop that takes effect ends a wait by its second turn: the first takes the kick
    of [stop] for a request to work. *)
Lemma stop_ends_wait w : (request_stop w).1 = true ->
  (wait_turn id (request_stop w).2).1 = Some true /\
  (wait_turn id (wait_turn id (request_stop w).2).2).1 = Some false.
Proof. unfold request_stop. destruct (status_ w) eqn:E; done. Qed.

End Worker.

(** ** Context *)

Module Context.

(** The Asio context and the pool, by what their documentation says of [stop]: a context
    that is stopped returns from [run] at once, until it is restarted; a pool that is
    stopped runs nothing that is posted to it.  The threads are those inside [run], by
    name. *)
Record t := mk {
  status_ : Stoppable.ComponentStatus;
  name_ : Bytes;
  concurrency_ : nat;
  work_guard_ : bool;
  io_stopped : bool;
  pool_stopped : bool;
  threads : list Bytes;
}.

Definition make (name : Bytes) (concurrency : nat) : t := mk Stoppable.kNotStarted name concurrency true false false [].

Definition thread_name (c : t) (i : nat) : Bytes := str "asio-" ++ name_ c ++ str "-" ++ decimal (Z.of_nat i).

(** A handler that is posted to the pool. *)
Definition post_run (c : t) (i : nat) : t :=
  if pool_stopped c || io_stopped c then c
  else mk (status_ c) (name_ c) (concurrency_ c) (work_guard_ c) (io_stopped c) (pool_stopped c) (threads c ++ [thread_name c i]).

Definition start (c : t) : bool * t :=
  match Stoppable.start (status_ c) with
  | (false, _) => (false, c)
  | (true, status) =>
      (true, fold_left post_run (seq 0 (concurrency_ c))
        (mk status (name_ c) (concurrency_ c) (work_guard_ c) (io_stopped c) (pool_stopped c) (threads c)))
  end.

(** [join] returns when the threads have left [run]. *)
Definition stop (c : t) : bool * t :=
  match Stoppable.stop (status_ c) with
  | (false, _) => (false, c)
  | (true, status) => (true, mk (Stoppable.set_stopped status) (name_ c) (concurrency_ c) false true true [])
  end.

Lemma posts_run c l : pool_stopped c = false -> io_stopped c = false ->
  fold_left post_run l c = mk (status_ c) (name_ c) (concurrency_ c) (work_guard_ c) false false (threads c ++ (thread_name c <$> l)).
Proof.
  revert c. induction l as [|i l IH]; intros [st n k g io p th] Hp Hi; cbn in Hp, Hi; subst; cbn [fold_left]; [by rewrite app_nil_r|].
  unfold post_run at 2. cbn [pool_stopped io_stopped orb]. rewrite IH by done.
  cbn [status_ name_ concurrency_ work_guard_ threads]. by rewrite <- app_assoc.
Qed.

Lemma posts_lost c l : pool_stopped c = true -> fold_left post_run l c = c.
Proof. intros Hp. induction l as [|i l IH]; [done|]. cbn [fold_left]. unfold post_run at 2. by rewrite Hp. Qed.

(** A context that is started runs as many threads as it was made for, each with a name of its
    own, until it is stopped; but one that is started again says yes, is running by its
    state, and runs no thread. *)
Theorem context_once (name : Bytes) (concurrency : nat) :
  exists c, start (make name concurrency) = (true, c) /\ start c = (false, c) /\
    threads c = thread_name c <$> seq 0 concurrency /\
    exists c', stop c = (true, c') /\ threads c' = [] /\ stop c' = (false, c') /\
      exists c'', start c' = (true, c'') /\ Stoppable.is_running (status_ c'') = true /\ threads c'' = [].
Proof.
  eexists. split; [unfold start, make; cbn [Stoppable.start status_ concurrency_ name_ work_guard_ io_stopped pool_stopped threads];
    rewrite posts_run by done; reflexivity|].
  split_and!; [done | done|]. eexists. split; [reflexivity|]. split_and!; [done | done|].
  eexists. split; [unfold start; cbn [Stoppable.set_stopped Stoppable.start status_ concurrency_]; by rewrite posts_lost|]. done.
Qed.

End Context.
