(* ===== verification/Node.v ===== *)
(** * Nodes

    Model of [src/src/node/network/node.cpp] and [node.hpp]: the session with a
    remote peer.  Each handler is a function on the state of the node, and one step; what it
    posts to the strand is appended to [posted_], and what it hands to the node hub to
    [events_].  The time, the random numbers and the completions of the socket are arguments.
    [Session.v] puts the handlers together, with the TLS handshake.

    Not modelled: log lines, and the octets of the TLS layer between the node and the
    socket, which carries the same messages. *)

From stdpp Require Import gmap.
From S2P Require Import Prelude Text Stream Boost Serialize Types Protocol Misc Addresses Payloads Message Meters.
#[local] Open Scope Z_scope.

Inductive MessagePriority := kHigh | kNormal | kLow.

(** [static_cast<int>(priority)] *)
Definition priority_value (p : MessagePriority) : Z := match p with kHigh => 0 | kNormal => 1 | kLow => 2 end.

Inductive ConnectionType := kNoConnection | kInbound | kOutbound | kManualOutbound | kSeedOutbound.

#[global] Instance ConnectionType_dec : EqDecision ConnectionType.
Proof. solve_decision. Defined.

Inductive NodeIdleResult :=
| kNotIdle | kProtocolHandshakeTimeout | kInboundTimeout | kOutboundTimeout | kPingTimeout | kGlobalTimeout.

Inductive DataDirectionMode := kDirOutbound | kDirInbound.
Definition direction_value (d : DataDirectionMode) : Z := match d with kDirOutbound => 0 | kDirInbound => 1 end.

Definition kMaxMessagesPerRead : Z := 32.
Definition kMaxBytesPerIO : Z := 16 * 1024.

(** ** ProtocolHandShakeStatus *)

Definition kNotInitiated : Z := 0.
Definition kVersionSent : Z := Z.shiftl 1 0.
Definition kVersionReceived : Z := Z.shiftl 1 1.
Definition kVerAckSent : Z := Z.shiftl 4 0.
Definition kVerAckReceived : Z := Z.shiftl 4 1.
Definition kVersionExchanged : Z := Z.lor kVersionSent kVersionReceived.
Definition kVerAckExchanged : Z := Z.lor kVerAckSent kVerAckReceived.
Definition kCompleted : Z := Z.lor kVersionExchanged kVerAckExchanged.

(** The network settings that a node reads. *)
Record NetworkSettings := {
  chain_magic : Bytes;
  protocol_handshake_timeout_seconds : Z;
  inbound_timeout_seconds : Z;
  outbound_timeout_seconds : Z;
  idle_timeout_seconds : Z;
  ping_timeout_milliseconds : Z;
}.

Module Node.

(** Handlers posted to the strand. *)
Inductive task := TStop | TStartRead | TStartWrite | THandshakeCompleted | TStopCompleted.

#[global] Instance task_dec : EqDecision task.
Proof. solve_decision. Defined.

(** Calls to the node hub. *)
Inductive event :=
| EData (direction : DataDirectionMode) (bytes : Z)
| EMessage (payload : MessagePayload)
| EDisconnected.

Definition queue_item : Type := Message.t * MessagePriority.

(** [time_point::min()] is [None]; [wire_] is what has been written to the socket. *)
Record t := mk {
  state_ : Stoppable.ComponentStatus;
  socket_open_ : bool;
  type_ : ConnectionType;
  ping_timer_ : bool;
  traffic_meter_ : TrafficMeter.t;
  ping_meter_ : PingMeter.t;
  protocol_handshake_status_ : Z;
  version_ : Z;
  connected_time_ : Z;
  last_message_received_time_ : Z;
  last_message_sent_time_ : Z;
  send_buffer_ : Bytes;
  inbound_message_start_time_ : option Z;
  inbound_message_ : option Message.t;
  is_writing_ : bool;
  outbound_message_start_time_ : option Z;
  outbound_messages_queue_ : list queue_item;
  outbound_message_ : option Message.t;
  local_version_ : MsgVersionPayload.t;
  remote_version_ : MsgVersionPayload.t;
  inbound_message_metrics_ : MessageType -> Z * Z;
  outbound_message_metrics_ : MessageType -> Z * Z;
  posted_ : list task;
  events_ : list event;
  wire_ : Bytes;
}.

Definition set_state v (n : t) : t := mk v (socket_open_ n) (type_ n) (ping_timer_ n) (traffic_meter_ n) (ping_meter_
  n) (protocol_handshake_status_ n) (version_ n) (connected_time_ n) (last_message_received_time_ n)
  (last_message_sent_time_ n) (send_buffer_ n) (inbound_message_start_time_ n) (inbound_message_ n) (is_writing_ n)
  (outbound_message_start_time_ n) (outbound_messages_queue_ n) (outbound_message_ n) (local_version_ n)
  (remote_version_ n) (inbound_message_metrics_ n) (outbound_message_metrics_ n) (posted_ n) (events_ n) (wire_ n).
Definition set_socket v (n : t) : t := mk (state_ n) v (type_ n) (ping_timer_ n) (traffic_meter_ n) (ping_meter_ n)
  (protocol_handshake_status_ n) (version_ n) (connected_time_ n) (last_message_received_time_ n)
  (last_message_sent_time_ n) (send_buffer_ n) (inbound_message_start_time_ n) (inbound_message_ n) (is_writing_ n)
  (outbound_message_start_time_ n) (outbound_messages_queue_ n) (outbound_message_ n) (local_version_ n)
  (remote_version_ n) (inbound_message_metrics_ n) (outbound_message_metrics_ n) (posted_ n) (events_ n) (wire_ n).
Definition set_timer v (n : t) : t := mk (state_ n) (socket_open_ n) (type_ n) v (traffic_meter_ n) (ping_meter_ n)
  (protocol_handshake_status_ n) (version_ n) (connected_time_ n) (last_message_received_time_ n)
  (last_message_sent_time_ n) (send_buffer_ n) (inbound_message_start_time_ n) (inbound_message_ n) (is_writing_ n)
  (outbound_message_start_time_ n) (outbound_messages_queue_ n) (outbound_message_ n) (local_version_ n)
  (remote_version_ n) (inbound_message_metrics_ n) (outbound_message_metrics_ n) (posted_ n) (events_ n) (wire_ n).
Definition set_traffic v (n : t) : t := mk (state_ n) (socket_open_ n) (type_ n) (ping_timer_ n) v (ping_meter_ n)
  (protocol_handshake_status_ n) (version_ n) (connected_time_ n) (last_message_received_time_ n)
  (last_message_sent_time_ n) (send_buffer_ n) (inbound_message_start_time_ n) (inbound_message_ n) (is_writing_ n)
  (outbound_message_start_time_ n) (outbound_messages_queue_ n) (outbound_message_ n) (local_version_ n)
  (remote_version_ n) (inbound_message_metrics_ n) (outbound_message_metrics_ n) (posted_ n) (events_ n) (wire_ n).
Definition set_ping v (n : t) : t := mk (state_ n) (socket_open_ n) (type_ n) (ping_timer_ n) (traffic_meter_ n) v
  (protocol_handshake_status_ n) (version_ n) (connected_time_ n) (last_message_received_time_ n)
  (last_message_sent_time_ n) (send_buffer_ n) (inbound_message_start_time_ n) (inbound_message_ n) (is_writing_ n)
  (outbound_message_start_time_ n) (outbound_messages_queue_ n) (outbound_message_ n) (local_version_ n)
  (remote_version_ n) (inbound_message_metrics_ n) (outbound_message_metrics_ n) (posted_ n) (events_ n) (wire_ n).
Definition set_status v (n : t) : t := mk (state_ n) (socket_open_ n) (type_ n) (ping_timer_ n) (traffic_meter_ n)
  (ping_meter_ n) v (version_ n) (connected_time_ n) (last_message_received_time_ n) (last_message_sent_time_ n)
  (send_buffer_ n) (inbound_message_start_time_ n) (inbound_message_ n) (is_writing_ n) (outbound_message_start_time_
  n) (outbound_messages_queue_ n) (outbound_message_ n) (local_version_ n) (remote_version_ n)
  (inbound_message_metrics_ n) (outbound_message_metrics_ n) (posted_ n) (events_ n) (wire_ n).
Definition set_version v (n : t) : t := mk (state_ n) (socket_open_ n) (type_ n) (ping_timer_ n) (traffic_meter_ n)
  (ping_meter_ n) (protocol_handshake_status_ n) v (connected_time_ n) (last_message_received_time_ n)
  (last_message_sent_time_ n) (send_buffer_ n) (inbound_message_start_time_ n) (inbound_message_ n) (is_writing_ n)
  (outbound_message_start_time_ n) (outbound_messages_queue_ n) (outbound_message_ n) (local_version_ n)
  (remote_version_ n) (inbound_message_metrics_ n) (outbound_message_metrics_ n) (posted_ n) (events_ n) (wire_ n).
Definition set_connected v (n : t) : t := mk (state_ n) (socket_open_ n) (type_ n) (ping_timer_ n) (traffic_meter_ n)
  (ping_meter_ n) (protocol_handshake_status_ n) (version_ n) v (last_message_received_time_ n)
  (last_message_sent_time_ n) (send_buffer_ n) (inbound_message_start_time_ n) (inbound_message_ n) (is_writing_ n)
  (outbound_message_start_time_ n) (outbound_messages_queue_ n) (outbound_message_ n) (local_version_ n)
  (remote_version_ n) (inbound_message_metrics_ n) (outbound_message_metrics_ n) (posted_ n) (events_ n) (wire_ n).
Definition set_received v (n : t) : t := mk (state_ n) (socket_open_ n) (type_ n) (ping_timer_ n) (traffic_meter_ n)
  (ping_meter_ n) (protocol_handshake_status_ n) (version_ n) (connected_time_ n) v (last_message_sent_time_ n)
  (send_buffer_ n) (inbound_message_start_time_ n) (inbound_message_ n) (is_writing_ n) (outbound_message_start_time_
  n) (outbound_messages_queue_ n) (outbound_message_ n) (local_version_ n) (remote_version_ n)
  (inbound_message_metrics_ n) (outbound_message_metrics_ n) (posted_ n) (events_ n) (wire_ n).
Definition set_sent v (n : t) : t := mk (state_ n) (socket_open_ n) (type_ n) (ping_timer_ n) (traffic_meter_ n)
  (ping_meter_ n) (protocol_handshake_status_ n) (version_ n) (connected_time_ n) (last_message_received_time_ n) v
  (send_buffer_ n) (inbound_message_start_time_ n) (inbound_message_ n) (is_writing_ n) (outbound_message_start_time_
  n) (outbound_messages_queue_ n) (outbound_message_ n) (local_version_ n) (remote_version_ n)
  (inbound_message_metrics_ n) (outbound_message_metrics_ n) (posted_ n) (events_ n) (wire_ n).
Definition set_send v (n : t) : t := mk (state_ n) (socket_open_ n) (type_ n) (ping_timer_ n) (traffic_meter_ n)
  (ping_meter_ n) (protocol_handshake_status_ n) (version_ n) (connected_time_ n) (last_message_received_time_ n)
  (last_message_sent_time_ n) v (inbound_message_start_time_ n) (inbound_message_ n) (is_writing_ n)
  (outbound_message_start_time_ n) (outbound_messages_queue_ n) (outbound_message_ n) (local_version_ n)
  (remote_version_ n) (inbound_message_metrics_ n) (outbound_message_metrics_ n) (posted_ n) (events_ n) (wire_ n).
Definition set_inbound_start v (n : t) : t := mk (state_ n) (socket_open_ n) (type_ n) (ping_timer_ n) (traffic_meter_
  n) (ping_meter_ n) (protocol_handshake_status_ n) (version_ n) (connected_time_ n) (last_message_received_time_ n)
  (last_message_sent_time_ n) (send_buffer_ n) v (inbound_message_ n) (is_writing_ n) (outbound_message_start_time_ n)
  (outbound_messages_queue_ n) (outbound_message_ n) (local_version_ n) (remote_version_ n) (inbound_message_metrics_
  n) (outbound_message_metrics_ n) (posted_ n) (events_ n) (wire_ n).
Definition set_inbound v (n : t) : t := mk (state_ n) (socket_open_ n) (type_ n) (ping_timer_ n) (traffic_meter_ n)
  (ping_meter_ n) (protocol_handshake_status_ n) (version_ n) (connected_time_ n) (last_message_received_time_ n)
  (last_message_sent_time_ n) (send_buffer_ n) (inbound_message_start_time_ n) v (is_writing_ n)
  (outbound_message_start_time_ n) (outbound_messages_queue_ n) (outbound_message_ n) (local_version_ n)
  (remote_version_ n) (inbound_message_metrics_ n) (outbound_message_metrics_ n) (posted_ n) (events_ n) (wire_ n).
Definition set_writing v (n : t) : t := mk (state_ n) (socket_open_ n) (type_ n) (ping_timer_ n) (traffic_meter_ n)
  (ping_meter_ n) (protocol_handshake_status_ n) (version_ n) (connected_time_ n) (last_message_received_time_ n)
  (last_message_sent_time_ n) (send_buffer_ n) (inbound_message_start_time_ n) (inbound_message_ n) v
  (outbound_message_start_time_ n) (outbound_messages_queue_ n) (outbound_message_ n) (local_version_ n)
  (remote_version_ n) (inbound_message_metrics_ n) (outbound_message_metrics_ n) (posted_ n) (events_ n) (wire_ n).
Definition set_outbound_start v (n : t) : t := mk (state_ n) (socket_open_ n) (type_ n) (ping_timer_ n)
  (traffic_meter_ n) (ping_meter_ n) (protocol_handshake_status_ n) (version_ n) (connected_time_ n)
  (last_message_received_time_ n) (last_message_sent_time_ n) (send_buffer_ n) (inbound_message_start_time_ n)
  (inbound_message_ n) (is_writing_ n) v (outbound_messages_queue_ n) (outbound_message_ n) (local_version_ n)
  (remote_version_ n) (inbound_message_metrics_ n) (outbound_message_metrics_ n) (posted_ n) (events_ n) (wire_ n).
Definition set_queue v (n : t) : t := mk (state_ n) (socket_open_ n) (type_ n) (ping_timer_ n) (traffic_meter_ n)
  (ping_meter_ n) (protocol_handshake_status_ n) (version_ n) (connected_time_ n) (last_message_received_time_ n)
  (last_message_sent_time_ n) (send_buffer_ n) (inbound_message_start_time_ n) (inbound_message_ n) (is_writing_ n)
  (outbound_message_start_time_ n) v (outbound_message_ n) (local_version_ n) (remote_version_ n)
  (inbound_message_metrics_ n) (outbound_message_metrics_ n) (posted_ n) (events_ n) (wire_ n).
Definition set_outbound v (n : t) : t := mk (state_ n) (socket_open_ n) (type_ n) (ping_timer_ n) (traffic_meter_ n)
  (ping_meter_ n) (protocol_handshake_status_ n) (version_ n) (connected_time_ n) (last_message_received_time_ n)
  (last_message_sent_time_ n) (send_buffer_ n) (inbound_message_start_time_ n) (inbound_message_ n) (is_writing_ n)
  (outbound_message_start_time_ n) (outbound_messages_queue_ n) v (local_version_ n) (remote_version_ n)
  (inbound_message_metrics_ n) (outbound_message_metrics_ n) (posted_ n) (events_ n) (wire_ n).
Definition set_local v (n : t) : t := mk (state_ n) (socket_open_ n) (type_ n) (ping_timer_ n) (traffic_meter_ n)
  (ping_meter_ n) (protocol_handshake_status_ n) (version_ n) (connected_time_ n) (last_message_received_time_ n)
  (last_message_sent_time_ n) (send_buffer_ n) (inbound_message_start_time_ n) (inbound_message_ n) (is_writing_ n)
  (outbound_message_start_time_ n) (outbound_messages_queue_ n) (outbound_message_ n) v (remote_version_ n)
  (inbound_message_metrics_ n) (outbound_message_metrics_ n) (posted_ n) (events_ n) (wire_ n).
Definition set_remote v (n : t) : t := mk (state_ n) (socket_open_ n) (type_ n) (ping_timer_ n) (traffic_meter_ n)
  (ping_meter_ n) (protocol_handshake_status_ n) (version_ n) (connected_time_ n) (last_message_received_time_ n)
  (last_message_sent_time_ n) (send_buffer_ n) (inbound_message_start_time_ n) (inbound_message_ n) (is_writing_ n)
  (outbound_message_start_time_ n) (outbound_messages_queue_ n) (outbound_message_ n) (local_version_ n) v
  (inbound_message_metrics_ n) (outbound_message_metrics_ n) (posted_ n) (events_ n) (wire_ n).
Definition set_inbound_metrics v (n : t) : t := mk (state_ n) (socket_open_ n) (type_ n) (ping_timer_ n)
  (traffic_meter_ n) (ping_meter_ n) (protocol_handshake_status_ n) (version_ n) (connected_time_ n)
  (last_message_received_time_ n) (last_message_sent_time_ n) (send_buffer_ n) (inbound_message_start_time_ n)
  (inbound_message_ n) (is_writing_ n) (outbound_message_start_time_ n) (outbound_messages_queue_ n)
  (outbound_message_ n) (local_version_ n) (remote_version_ n) v (outbound_message_metrics_ n) (posted_ n) (events_ n)
  (wire_ n).
Definition set_outbound_metrics v (n : t) : t := mk (state_ n) (socket_open_ n) (type_ n) (ping_timer_ n)
  (traffic_meter_ n) (ping_meter_ n) (protocol_handshake_status_ n) (version_ n) (connected_time_ n)
  (last_message_received_time_ n) (last_message_sent_time_ n) (send_buffer_ n) (inbound_message_start_time_ n)
  (inbound_message_ n) (is_writing_ n) (outbound_message_start_time_ n) (outbound_messages_queue_ n)
  (outbound_message_ n) (local_version_ n) (remote_version_ n) (inbound_message_metrics_ n) v (posted_ n) (events_ n)
  (wire_ n).
Definition set_posted v (n : t) : t := mk (state_ n) (socket_open_ n) (type_ n) (ping_timer_ n) (traffic_meter_ n)
  (ping_meter_ n) (protocol_handshake_status_ n) (version_ n) (connected_time_ n) (last_message_received_time_ n)
  (last_message_sent_time_ n) (send_buffer_ n) (inbound_message_start_time_ n) (inbound_message_ n) (is_writing_ n)
  (outbound_message_start_time_ n) (outbound_messages_queue_ n) (outbound_message_ n) (local_version_ n)
  (remote_version_ n) (inbound_message_metrics_ n) (outbound_message_metrics_ n) v (events_ n) (wire_ n).
Definition set_events v (n : t) : t := mk (state_ n) (socket_open_ n) (type_ n) (ping_timer_ n) (traffic_meter_ n)
  (ping_meter_ n) (protocol_handshake_status_ n) (version_ n) (connected_time_ n) (last_message_received_time_ n)
  (last_message_sent_time_ n) (send_buffer_ n) (inbound_message_start_time_ n) (inbound_message_ n) (is_writing_ n)
  (outbound_message_start_time_ n) (outbound_messages_queue_ n) (outbound_message_ n) (local_version_ n)
  (remote_version_ n) (inbound_message_metrics_ n) (outbound_message_metrics_ n) (posted_ n) v (wire_ n).
Definition set_wire v (n : t) : t := mk (state_ n) (socket_open_ n) (type_ n) (ping_timer_ n) (traffic_meter_ n)
  (ping_meter_ n) (protocol_handshake_status_ n) (version_ n) (connected_time_ n) (last_message_received_time_ n)
  (last_message_sent_time_ n) (send_buffer_ n) (inbound_message_start_time_ n) (inbound_message_ n) (is_writing_ n)
  (outbound_message_start_time_ n) (outbound_messages_queue_ n) (outbound_message_ n) (local_version_ n)
  (remote_version_ n) (inbound_message_metrics_ n) (outbound_message_metrics_ n) (posted_ n) (events_ n) v.

Definition modify (f : t -> t) : op t unit := λ n, (Success (), f n).
Definition get {A} (f : t -> A) : op t A := λ n, (Success (f n), n).

(** [asio::post(io_strand_, ...)] *)
Definition post (k : task) : op t unit := modify (λ n, set_posted (posted_ n ++ [k]) n).
Definition notify (e : event) : op t unit := modify (λ n, set_events (events_ n ++ [e]) n).

(** [std::ignore = ...]: errors are dropped, faults are not. *)
Definition ignore {A} (m : op t A) : op t unit :=
  λ n, match m n with
       | (Fault f, n') => (Fault f, n')
       | (_, n') => (Success (), n')
       end.

Definition is_running (n : t) : bool := Stoppable.is_running (state_ n).

(** [metrics[type].count_++; metrics[type].bytes_ += bytes] *)
Definition account (ty : MessageType) (bytes : Z) (m : MessageType -> Z * Z) : MessageType -> Z * Z :=
  λ x, if decide (x = ty) then (wrap 32 ((m x).1 + 1), wrap 64 ((m x).2 + bytes)) else m x.

Definition fully_connected (n : t) : bool :=
  is_running n && socket_open_ n && (protocol_handshake_status_ n =? kCompleted).

Definition has_service (service : Z) (n : t) : bool :=
  fully_connected n && negb (Z.land (MsgVersionPayload.services_ (local_version_ n)) service =? 0).

Definition is_relayer (n : t) : bool := fully_connected n && MsgVersionPayload.relay_ (local_version_ n).

(** ** The handshake *)

Definition handshake_flag (message_direction : DataDirectionMode) (message_type : MessageType) : Z :=
  match message_type with
  | kVersion => Z.shiftl 1 (direction_value message_direction)
  | kVerAck => Z.shiftl 4 (direction_value message_direction)
  | _ => 0
  end.

Definition validate_message_for_protocol_handshake (message_direction : DataDirectionMode)
    (message_type : MessageType) : op t unit :=
  λ n,
    let current_status := protocol_handshake_status_ n in
    if (current_status =? kNotInitiated) && negb (bool_decide (message_type = kVersion))
    then (Failure (NetError kInvalidProtocolHandShake), n)
    else if current_status =? kCompleted then
      if bool_decide (message_type = kVersion) || bool_decide (message_type = kVerAck)
      then (Failure (NetError kDuplicateProtocolHandShake), n) else (Success (), n)
    else
      let new_status_flag := handshake_flag message_direction message_type in
      if negb (new_status_flag =? 0) && (Z.land current_status new_status_flag =? new_status_flag)
      then (Failure (NetError kDuplicateProtocolHandShake), n)
      else if negb (new_status_flag =? 0) then
        let new_status := Z.lor current_status new_status_flag in
        (modify (set_status new_status) >>;
         (if new_status =? kCompleted then post THandshakeCompleted else op_ret ())) n
      else if current_status <? kVersionExchanged then (Failure (NetError kInvalidProtocolHandShake), n)
      else (Success (), n).

Section Node.
Context `{Boost} `{Crypto}.
Variable settings : NetworkSettings.

(** ** Outbound messages *)

(** [push_message]; the payload may be changed by its serialization. *)
Definition push_message (payload : MessagePayload) (priority : MessagePriority) : op t MessagePayload :=
  λ n,
    match Message.push payload (Message.make (version_ n) (chain_magic settings)) with
    | (Success _, payload', new_message) =>
        (modify (λ n, set_queue (outbound_messages_queue_ n ++ [(new_message, priority)]) n) >>;
         post TStartWrite >>; op_ret payload') n
    | (Failure e, _, _) => (Failure e, n)
    | (Fault f, _, _) => (Fault f, n)
    end.

(** The overload for messages without payload. *)
Definition push_null (message_type : MessageType) (priority : MessagePriority) : op t unit :=
  λ n, match make_null message_type with
       | Success p => (push_message p priority >>; op_ret ()) n
       | Failure e => (Failure e, n)
       | Fault f => (Fault f, n)
       end.

(** [push_message(local_version_)] *)
Definition push_local_version (priority : MessagePriority) : op t unit :=
  λ n, match push_message (MsgVersion (local_version_ n)) priority n with
       | (Success (MsgVersion v), n') => (Success (), set_local v n')
       | (Success _, n') => (Success (), n')
       | (Failure e, n') => (Failure e, n')
       | (Fault f, n') => (Fault f, n')
       end.

(** [std::priority_queue] returns one of the items that no other exceeds: which
    one it returns among equal items is the choice of [pick]. *)
Variable pick : list queue_item -> nat.

Definition queue_top (q : list queue_item) : option (queue_item * list queue_item) :=
  match q !! pick q with
  | Some i => Some (i, take (pick q) q ++ drop (S (pick q)) q)
  | None => None
  end.

(** The message in the barrel, if it has been sent. *)
Definition retire_outbound (now : Z) (n : t) : t :=
  match outbound_message_ n with
  | Some m =>
      if DataStream.eof (SDataStream.base (Message.ser_stream_ m)) then
        let n := if bool_decide (Message.get_type m <> kPing) && bool_decide (Message.get_type m <> kPong)
                 then set_sent now n else n in
        set_outbound None (set_outbound_start None n)
      else n
  | None => n
  end.

(** The next message from the queue, rewound; [None] when there is nothing to send. *)
Definition load_outbound (n : t) : option (Message.t * t) :=
  match outbound_message_ n with
  | Some m => Some (m, n)
  | None =>
      match queue_top (outbound_messages_queue_ n) with
      | Some ((m, _), rest) =>
          let m := (Message.seekg 0 m).2 in
          Some (m, set_outbound (Some m) (set_queue rest n))
      | None => None
      end
  end.

(** The next octets of the message to the socket. *)
Definition send_chunk (m : Message.t) : op t unit :=
  λ n,
    let bytes_to_write := Z.min kMaxBytesPerIO (Message.avail m) in
    match Message.on_data (DataStream.read (Some bytes_to_write)) m with
    | (Success data, m') => (Success (), set_send (send_buffer_ n ++ data) (set_outbound (Some m') n))
    | (_, m') => (Fault AssertionFailed, set_outbound (Some m') n)
    end.

Definition start_write (now : Z) : op t unit :=
  λ n,
    if negb (socket_open_ n) then (Success (), n)
    else if is_writing_ n then (Success (), n)
    else
      let n := retire_outbound now (set_writing true n) in
      match load_outbound n with
      | None => (Success (), set_writing false n)
      | Some (m, n) =>
          if Message.tellg m =? 0 then
            let msg_type := Message.get_type m in
            match validate_message_for_protocol_handshake kDirOutbound msg_type n with
            | (Success _, n) =>
                let n := set_outbound_metrics (account msg_type (Message.size m) (outbound_message_metrics_ n)) n in
                let n := if bool_decide (msg_type = kPing)
                         then set_ping (PingMeter.start_sample now (ping_meter_ n)) n else n in
                send_chunk m (set_outbound_start (Some now) n)
            | (Fault f, n) => (Fault f, n)
            | (Failure _, n) => post TStop (set_writing false (set_outbound None n))
            end
          else send_chunk m n
      end.

(** [bytes_transferred] octets of the send buffer are on the wire. *)
Definition handle_write (failed : bool) (bytes_transferred : Z) : op t unit :=
  λ n,
    if negb (is_running n) then (Success (), set_writing false n)
    else if failed then post TStop (set_writing false n)
    else
      let n :=
        if 0 <? bytes_transferred then
          set_events (events_ n ++ [EData kDirOutbound bytes_transferred])
            (set_traffic (TrafficMeter.update_outbound bytes_transferred (traffic_meter_ n))
              (set_wire (wire_ n ++ ztake bytes_transferred (send_buffer_ n))
                (set_send (zdrop bytes_transferred (send_buffer_ n)) n)))
        else n in
      if negb (zlen (send_buffer_ n) =? 0) then (Success (), n)
      else post TStartWrite (set_writing false n).

(** ** Start and stop *)

Definition stop : op t bool :=
  λ n,
    let (ret, s) := Stoppable.stop (state_ n) in
    let n := set_state s n in
    if ret then (modify (set_timer false) >>; post TStopCompleted >>; op_ret true) n
    else (Success false, n).

Definition on_stop_completed : op t unit :=
  modify (set_socket false) >>;
  notify EDisconnected >>;
  modify (λ n, set_state (Stoppable.set_stopped (state_ n)) n).

(** The connection without TLS; the one with TLS is [Session.start_tls]. *)
Definition start (now : Z) : op t bool :=
  λ n,
    let (started, s) := Stoppable.start (state_ n) in
    if negb started then (Success false, n)
    else
      (modify (λ n, set_connected now (set_sent now (set_received now (set_state s n)))) >>;
       post TStartRead >>;
       (λ n, if bool_decide (type_ n <> kInbound) then ignore (push_local_version kNormal) n else (Success (), n)) >>;
       op_ret true) n.

(** ** Pings *)

Definition on_ping_timer_expired (nonce random_milliseconds interval : Z) : op t Z :=
  λ n,
    if negb (is_running n) || PingMeter.pending_sample (ping_meter_ n) then (Success interval, n)
    else
      match push_message (MsgPingPong kPing nonce) kHigh n with
      | (Success _, n) =>
          (Success random_milliseconds, set_ping (PingMeter.set_nonce nonce (ping_meter_ n)) n)
      | (Failure _, n) => (ignore stop >>; op_ret 0) n
      | (Fault f, n) => (Fault f, n)
      end.

Definition on_handshake_completed (nonce random_milliseconds : Z) : op t unit :=
  λ n,
    if negb (is_running n) then (Success (), n)
    else
      (on_ping_timer_expired nonce random_milliseconds random_milliseconds >>;
       modify (set_timer true) >>;
       (λ n, if bool_decide (type_ n <> kInbound) then ignore (push_null kGetAddr kNormal) n else (Success (), n))) n.

(** ** Inbound messages *)

Variable average : Z -> Z -> Z.

Definition process_version (remote : MsgVersionPayload.t) : op t MessagePayload :=
  λ n,
    let v := MsgVersionPayload.protocol_version_ remote in
    if negb (MessageHeader.clamp v kMinSupportedProtocolVersion kMaxSupportedProtocolVersion =? v)
    then (Failure (NetError kInvalidProtocolVersion), n)
    else if MsgVersionPayload.nonce_ remote =? MsgVersionPayload.nonce_ (local_version_ n)
    then (Failure (NetError kConnectedToSelf), n)
    else
      (* std::swap: the payload that goes to the hub is the former remote version *)
      let former := remote_version_ n in
      (modify (set_remote remote) >>;
       modify (λ n, set_version (Z.min (MsgVersionPayload.protocol_version_ (local_version_ n)) v) n) >>;
       (λ n, if Z.land (protocol_handshake_status_ n) kVersionSent =? 0
             then ignore (push_local_version kHigh) n else (Success (), n)) >>;
       ignore (push_null kVerAck kHigh) >>;
       op_ret (MsgVersion former)) n.

Definition process_pong (nonce time_now now : Z) : op t unit :=
  λ n,
    match PingMeter.pending_sample (ping_meter_ n), PingMeter.get_nonce (ping_meter_ n) with
    | true, Some expected_nonce =>
        if negb (nonce =? expected_nonce) then (Failure (NetError kInvalidPingPongNonce), n)
        else let (r, p) := PingMeter.end_sample average time_now now (ping_meter_ n) in (r, set_ping p n)
    | _, _ => (Failure (NetError kUnsolicitedPong), n)
    end.

(** What is to be forwarded to the node hub, if anything. *)
Definition process_by_type (payload : MessagePayload) (time_now now : Z) : op t (option MessagePayload) :=
  match payload with
  | MsgVersion v => former <~ process_version v;; op_ret (Some former)
  | MsgNull kVerAck => op_ret None
  | MsgPingPong kPing nonce => push_message (MsgPingPong kPong nonce) kHigh >>; op_ret None
  | MsgNull kGetAddr =>
      λ n, if bool_decide (type_ n = kInbound) && (1 <? (inbound_message_metrics_ n kGetAddr).1)
           then (Success None, n) else (Success (Some payload), n)
  | MsgPingPong kPong nonce => process_pong nonce time_now now >>; op_ret None
  | _ => op_ret (Some payload)
  end.

Definition process_inbound_message (payload : MessagePayload) (time_now now : Z) : op t unit :=
  let msg_type := payload_type payload in
  forward <~ process_by_type payload time_now now;;
  (if bool_decide (msg_type <> kPing) && bool_decide (msg_type <> kPong) then modify (set_received now) else op_ret ()) >>;
  match forward with Some p => notify (EMessage p) | None => op_ret () end.

(** The message that a turn of [parse_messages] works on. *)
Definition current_inbound (now : Z) (n : t) : Message.t * t :=
  match inbound_message_ n with
  | Some m => (m, n)
  | None =>
      let m := Message.make (version_ n) (chain_magic settings) in
      (m, set_inbound (Some m) (set_inbound_start (Some now) n))
  end.

(** What follows the completion of the message [m]. *)
Definition handle_complete (m : Message.t) (messages_parsed time_now now : Z) : op t unit :=
  let msg_type := Message.get_type m in
  validate_message_for_protocol_handshake kDirInbound msg_type >>;
  op_assert (bool_decide (msg_type <> kMissingOrUnknown)) >>;
  λ n,
    match from_type msg_type with
    | Success (Some p0) =>
        let '(r, payload, s) := deserialize payload_serialization p0 (Message.ser_stream_ m) in
        let m := Message.set_stream s m in
        let n := set_inbound (Some m) n in
        match r with
        | Success _ =>
            if negb (DataStream.eof (SDataStream.base s)) then (Failure (NetError kMessagePayloadExtraData), n)
            else if kMaxMessagesPerRead <? messages_parsed then (Failure (NetError kMessageFloodingDetected), n)
            else
              (process_inbound_message payload time_now now >>;
               modify (λ n, set_inbound_metrics (account msg_type (Message.size m) (inbound_message_metrics_ n)) n) >>;
               modify (λ n, set_inbound_start None (set_inbound None n))) n
        | r => (r, n)
        end
    | Success None => (Failure (NetError kMessagePayLoadUnhandleable), n)
    | Failure e => (Failure e, n)
    | Fault f => (Fault f, n)
    end.

Definition incomplete (r : outcome unit) : bool :=
  bool_decide (r = Failure (NetError kMessageHeaderIncomplete)) || bool_decide (r = Failure (NetError kMessageBodyIncomplete)).

(** The loop of [parse_messages]; [None] when the fuel does not suffice. *)
Fixpoint parse_loop (fuel : nat) (messages_parsed : Z) (data : Bytes) (time_now now : Z) (n : t)
    : option (outcome unit * t) :=
  match fuel with
  | O => None
  | S fuel =>
      if bool_decide (data = []) then Some (Success (), n)
      else
        let (m, n) := current_inbound now n in
        match Message.write data m with
        | None => None
        | Some (r, data', m') =>
            let n := set_inbound (Some m') n in
            let fail (r : outcome unit) (n : t) := Some (r, set_inbound_start None (set_inbound None n)) in
            match r with
            | Success _ =>
                match handle_complete m' (messages_parsed + 1) time_now now n with
                | (Success _, n') => parse_loop fuel (messages_parsed + 1) data' time_now now n'
                | (Fault f, n') => Some (Fault f, n')
                | (r, n') =>
                    if incomplete r then parse_loop fuel messages_parsed data' time_now now n' else fail r n'
                end
            | Fault f => Some (Fault f, n)
            | r => if incomplete r then parse_loop fuel messages_parsed data' time_now now n else fail r n
            end
        end
  end.

(** Every turn consumes data. *)
Definition parse_messages (data : Bytes) (time_now now : Z) (n : t) : option (outcome unit * t) :=
  parse_loop (S (length data)) 0 data time_now now n.

Definition handle_read (failed : bool) (data : Bytes) (time_now now : Z) (n : t) : option (outcome unit * t) :=
  if negb (is_running n) then Some (Success (), n)
  else if failed then Some (post TStop n)
  else if bool_decide (data = []) then Some (post TStartRead n)
  else
    let n := set_events (events_ n ++ [EData kDirInbound (zlen data)])
               (set_traffic (TrafficMeter.update_inbound (zlen data) (traffic_meter_ n)) n) in
    match parse_messages data time_now now n with
    | None => None
    | Some (Success _, n) => Some (post TStartRead n)
    | Some (Failure _, n) => Some (post TStop n)
    | Some (Fault f, n) => Some (Fault f, n)
    end.

(** ** Idleness *)

(** [duration_cast<seconds>(now - since)] exceeds [limit]. *)
Definition overdue (now : Z) (since : option Z) (limit : Z) : bool :=
  match since with Some v => limit <? to_seconds (now - v) | None => false end.

Definition is_idle (now : Z) (n : t) : outcome NodeIdleResult :=
  if negb (is_running n) || negb (socket_open_ n) then Success kNotIdle
  else
    let? ping_duration := PingMeter.pending_sample_duration now (ping_meter_ n) in
    Success
      (if ping_timeout_milliseconds settings <? ping_duration then kPingTimeout
       else if negb (protocol_handshake_status_ n =? kCompleted)
               && overdue now (Some (connected_time_ n)) (protocol_handshake_timeout_seconds settings)
       then kProtocolHandshakeTimeout
       else if overdue now (inbound_message_start_time_ n) (inbound_timeout_seconds settings) then kInboundTimeout
       else if overdue now (outbound_message_start_time_ n) (outbound_timeout_seconds settings) then kOutboundTimeout
       else
         let most_recent_activity_time := Z.max (last_message_received_time_ n) (last_message_sent_time_ n) in
         let idle_seconds := to_seconds (now - most_recent_activity_time) in
         if idle_timeout_seconds settings <=? wrap 32 idle_seconds then kGlobalTimeout else kNotIdle).

(** ** Construction *)

(** The constructor, given both ends of the socket, the local endpoint of the
    settings and what the process knows of itself. *)
Definition construct (type : ConnectionType) (remote local : IPEndpoint.t) (local_endpoint : Bytes)
    (default_port nonce : Z) (user_agent : Bytes) (unix_seconds now : Z) : outcome t :=
  match IPEndpoint.from_string local_endpoint with
  | Success e =>
      let port := if IPEndpoint.port_ e =? 0 then default_port else IPEndpoint.port_ e in
      let sender := NodeService.of_endpoint (IPEndpoint.set_port port local) in
      let version := MsgVersionPayload.mk kDefaultProtocolVersion (Z.lor kNodeNetwork kNodeGetUTXO) unix_seconds
        (NodeService.of_endpoint remote) sender nonce user_agent 0 true in
      Success (mk Stoppable.kNotStarted true type false (TrafficMeter.fresh now) PingMeter.fresh kNotInitiated
        kDefaultProtocolVersion 0 0 0 [] None None false None [] None version MsgVersionPayload.fresh
        (λ _, (0, 0)) (λ _, (0, 0)) [] [] [])
  | _ => Fault AssertionFailed
  end.

End Node.
End Node.
