(* ===== verification/NodeFacts.v ===== *)
(** * Properties of nodes

    The handshake as a state machine, the delivery of inbound messages however
    the octets arrive, the integrity of what goes out on the wire, and the order
    of the outbound queue. *)

From stdpp Require Import gmap.
From S2P Require Import Prelude Text Stream Boost Serialize Types Protocol Misc Addresses Payloads Message MessageFacts Reassembly Meters Node.
#[local] Open Scope Z_scope.

Module NodeFacts.
Import MessageSpec MessageProofs Reassembly Node.

(** ** The handshake *)

(** A message checked in one direction. *)
Definition check : Type := DataDirectionMode * MessageType.

#[global] Instance DataDirectionMode_dec : EqDecision DataDirectionMode.
Proof. solve_decision. Defined.

(** The checks that are accepted, and the node after all of them. *)
Fixpoint run_checks (cs : list check) (n : t) : list check * t :=
  match cs with
  | [] => ([], n)
  | (d, ty) :: cs =>
      match validate_message_for_protocol_handshake d ty n with
      | (Success _, n') => let (l, n'') := run_checks cs n' in ((d, ty) :: l, n'')
      | (_, n') => run_checks cs n'
      end
  end.

Definition flag_of (c : check) : Z := handshake_flag c.1 c.2.
Definition flags_of (l : list check) : Z := foldr (λ c s, Z.lor (flag_of c) s) 0 l.
Definition is_handshake (c : check) : bool := negb (flag_of c =? 0).
Definition completions (l : list task) : Z := zlen (filter (λ k, k = THandshakeCompleted) l).

Lemma flag_cases c : flag_of c = 0 \/ flag_of c ∈ [1; 2; 4; 8].
Proof. destruct c as [d ty]. destruct ty; try (by left); right; destruct d; unfold flag_of; simpl; set_solver. Qed.

(** Facts on four flags, by enumeration. *)
Lemma flag_disjoint s f : 0 <= s < 16 -> f ∈ [1; 2; 4; 8] -> Z.land s f <> f ->
  Z.land s f = 0 /\ 0 <= Z.lor s f < 16 /\ s <> kCompleted.
Proof.
  intros Hs Hf Hn.
  assert (H : forallb (λ s, forallb (λ f, (Z.land s f =? f) ||
    ((Z.land s f =? 0) && (0 <=? Z.lor s f) && (Z.lor s f <? 16) && negb (s =? kCompleted))) [1; 2; 4; 8]) (seqZ 0 16) = true)
    by (by vm_compute).
  rewrite forallb_forall in H. specialize (H s). rewrite forallb_forall in H.
  specialize (H ltac:(apply list_elem_of_In, elem_of_seqZ; lia) f ltac:(by apply list_elem_of_In)).
  apply orb_true_iff in H as [H|H]; prop_bools; [done|]. split_and!; lia || done.
Qed.

Lemma check_step d ty n :
  0 <= protocol_handshake_status_ n < 16 ->
  let s := protocol_handshake_status_ n in
  let f := flag_of (d, ty) in
  match validate_message_for_protocol_handshake d ty n with
  | (Success _, n') =>
      (s = kNotInitiated -> ty = kVersion) /\
      (f = 0 /\ n' = n \/
       f ∈ [1; 2; 4; 8] /\ Z.land s f = 0 /\ s <> kCompleted /\ protocol_handshake_status_ n' = Z.lor s f /\
       posted_ n' = posted_ n ++ (if Z.lor s f =? kCompleted then [THandshakeCompleted] else []))
  | (_, n') => n' = n
  end.
Proof.
  intros Hs s f. unfold validate_message_for_protocol_handshake. cbv zeta. fold s. change (handshake_flag d ty) with f.
  destruct ((s =? kNotInitiated) && negb (bool_decide (ty = kVersion))) eqn:E0; [done|].
  assert (H0 : s = kNotInitiated -> ty = kVersion).
  { intros E. rewrite E in E0. simpl in E0. by destruct (bool_decide_reflect (ty = kVersion)). }
  destruct (Z.eqb_spec s kCompleted) as [Ec|Ec].
  { destruct (bool_decide_reflect (ty = kVersion)); [done|]. destruct (bool_decide_reflect (ty = kVerAck)); [done|]. cbn [orb].
    split; [done|]. left. split; [|done]. unfold f, flag_of. simpl. by destruct ty. }
  destruct (flag_cases (d, ty)) as [Hf|Hf]; fold f in Hf.
  - rewrite Hf. cbn [Z.eqb negb andb]. destruct (s <? kVersionExchanged); [done|]. split; [done|]. by left.
  - assert (Hf0 : f <> 0) by (intros E; rewrite E in Hf; set_solver). rewrite (proj2 (Z.eqb_neq f 0)) by done. cbn [negb andb].
    destruct (Z.eqb_spec (Z.land s f) f) as [E|E]; [done|]. destruct (flag_disjoint s f Hs Hf E) as (Hd & _ & _).
    unfold op_bind, modify, post, op_ret. destruct (Z.lor s f =? kCompleted) eqn:El; simpl; (split; [done|]); right; split_and!; try done.
    by rewrite app_nil_r.
Qed.

Lemma completions_app a b : completions (a ++ b) = completions a + completions b.
Proof. unfold completions. by rewrite filter_app, zlen_app. Qed.

(** After completion no flag is left. *)
Lemma flags_none l : Forall (λ c, is_handshake c = true -> Z.land kCompleted (flag_of c) = 0) l -> flags_of l = 0.
Proof.
  induction 1 as [|c l Hc _ IH]; [done|]. simpl. fold (flags_of l). rewrite IH, Z.lor_0_r. unfold is_handshake in Hc.
  destruct (flag_cases c) as [E|E]; [done|]. exfalso.
  repeat (apply elem_of_cons in E as [E|E]; [rewrite E in Hc; by specialize (Hc eq_refl)|]). by apply elem_of_nil in E.
Qed.

Lemma run_checks_inv cs : forall n, 0 <= protocol_handshake_status_ n < 16 ->
  let s := protocol_handshake_status_ n in
  let '(l, n') := run_checks cs n in
  protocol_handshake_status_ n' = Z.lor s (flags_of l) /\ 0 <= protocol_handshake_status_ n' < 16 /\
  NoDup (filter (λ c, is_handshake c = true) l) /\
  Forall (λ c, is_handshake c = true -> Z.land s (flag_of c) = 0) l /\
  completions (posted_ n') = completions (posted_ n) +
    (if (protocol_handshake_status_ n' =? kCompleted) && negb (s =? kCompleted) then 1 else 0) /\
  (s = kNotInitiated -> match l with [] => True | c :: _ => c.2 = kVersion end).
Proof.
  induction cs as [|[d ty] cs IH]; intros n Hs; cbn [run_checks].
  { cbv zeta. unfold flags_of. simpl foldr. rewrite Z.lor_0_r. split_and!; try done; try apply Hs; try apply NoDup_nil_2.
    destruct (_ =? _); simpl; lia. }
  pose proof (check_step d ty n Hs) as Hstep. cbv zeta in Hstep.
  destruct (validate_message_for_protocol_handshake d ty n) as [[[]|e|f] n1]; [|subst n1; by apply IH..].
  destruct Hstep as [H0 Hstep]. set (s := protocol_handshake_status_ n) in *.
  set (c := (d, ty)) in *. cbv zeta. destruct Hstep as [[Hf ->]|(Hf & Hd & Hc & Hs1 & Hp1)].
  - specialize (IH n Hs). cbv zeta in IH. destruct (run_checks cs n) as [l n']. fold s in IH.
    destruct IH as (I1 & I2 & I3 & I4 & I5 & I6). assert (Hh : is_handshake c = false) by (unfold is_handshake; by rewrite Hf).
    split_and!; try done; try apply I2.
    + rewrite I1. simpl. by rewrite Hf.
    + by rewrite filter_cons_False by (by rewrite Hh).
    + apply Forall_cons. split; [by rewrite Hh | done].
  - assert (Hn : Z.land s (flag_of c) <> flag_of c) by (rewrite Hd; intros E; rewrite <- E in Hf; set_solver).
    destruct (flag_disjoint s (flag_of c) Hs Hf Hn) as (_ & Hr & _).
    assert (Hr1 : 0 <= protocol_handshake_status_ n1 < 16) by (by rewrite Hs1).
    specialize (IH n1 Hr1). cbv zeta in IH. destruct (run_checks cs n1) as [l n']. rewrite Hs1 in IH.
    destruct IH as (I1 & I2 & I3 & I4 & I5 & _).
    assert (Hf0 : flag_of c <> 0) by (intros E; rewrite E in Hf; set_solver).
    assert (Hh : is_handshake c = true) by (unfold is_handshake; by rewrite (proj2 (Z.eqb_neq _ _))).
    split_and!; try done; try apply I2.
    + rewrite I1. simpl. by rewrite Z.lor_assoc.
    + rewrite filter_cons_True by done. apply NoDup_cons. split; [|done]. intros [_ Hin]%list_elem_of_filter.
      rewrite Forall_forall in I4. specialize (I4 c Hin Hh). rewrite Z.land_lor_distr_l, Z.land_diag, Hd in I4. by rewrite Z.lor_0_l in I4.
    + apply Forall_cons. split; [done|]. eapply Forall_impl; [exact I4|]. intros c' Hc' Hh'. specialize (Hc' Hh').
      rewrite Z.land_lor_distr_l in Hc'. by apply Z.lor_eq_0_iff in Hc' as [? _].
    + rewrite I5, Hp1, completions_app. rewrite (proj2 (Z.eqb_neq s kCompleted)) by done. cbn [negb andb].
      destruct (Z.eqb_spec (Z.lor s (flag_of c)) kCompleted) as [E|E]; cbn [negb andb].
      * rewrite I1, E. rewrite E in I1. assert (Hall : protocol_handshake_status_ n' = kCompleted).
        { rewrite E in I4. by rewrite I1, (flags_none l I4), Z.lor_0_r. }
        rewrite <- I1, Hall. rewrite Z.eqb_refl. unfold completions at 2. simpl. lia.
      * unfold completions at 2. simpl. destruct (_ =? kCompleted); simpl; lia.
Qed.

(** C12: The handshake is a one way street: of any sequence of messages checked in
    both directions, [version] and [verack] are accepted at most once in each
    direction, the first accepted message is a [version], the status holds
    exactly the flags of what was accepted, and the completion is announced
    exactly once, when all four have been accepted. *)
Theorem handshake_once (cs : list check) (n : t) :
  protocol_handshake_status_ n = kNotInitiated ->
  let '(accepted, n') := run_checks cs n in
  protocol_handshake_status_ n' = flags_of accepted /\
  NoDup (filter (λ c, is_handshake c = true) accepted) /\
  completions (posted_ n') = completions (posted_ n) + (if flags_of accepted =? kCompleted then 1 else 0) /\
  match accepted with [] => True | c :: _ => c.2 = kVersion end.
Proof.
  intros Hs. assert (Hr : 0 <= protocol_handshake_status_ n < 16) by (rewrite Hs; done).
  pose proof (run_checks_inv cs n Hr) as H. cbv zeta in H. destruct (run_checks cs n) as [l n'].
  destruct H as (I1 & _ & I3 & _ & I5 & I6). rewrite Hs in *. rewrite Z.lor_0_l in I1. rewrite I1 in I5.
  split_and!; [done | done | | by apply I6]. rewrite I5. by destruct (flags_of l =? kCompleted).
Qed.

(** C38: The versions need not be exchanged before other messages: a node that has
    sent its [version] and receives a [verack] accepts any other message from
    then on, though the peer never sent its own [version]. *)
Theorem handshake_gap (n : t) (ty : MessageType) :
  protocol_handshake_status_ n = kNotInitiated -> ty <> kVersion -> ty <> kVerAck ->
  (run_checks [(kDirOutbound, kVersion); (kDirInbound, kVerAck); (kDirInbound, ty)] n).1 =
    [(kDirOutbound, kVersion); (kDirInbound, kVerAck); (kDirInbound, ty)].
Proof.
  intros Hs H1 H2. cbn [run_checks]. unfold validate_message_for_protocol_handshake. cbv zeta.
  rewrite Hs. destruct ty; done || congruence.
Qed.

(** ** The outbound queue *)

(** What the comparator of the queue promises: no item exceeds the one returned. *)
Definition pick_ok (pick : list queue_item -> nat) : Prop :=
  forall q, q <> [] -> exists i : queue_item, q !! pick q = Some i /\
    forall j : queue_item, j ∈ q -> ~ (priority_value i.2 < priority_value j.2).

(** The queue of outbound messages serves the lowest priority first: as long
    as a message of lower priority is waiting, no message of higher priority is
    taken. *)
Theorem queue_inverted (pick : list queue_item -> nat) (q : list queue_item) (waiting : queue_item) :
  pick_ok pick -> waiting ∈ q ->
  exists top rest, queue_top pick q = Some (top, rest) /\ top :: rest ≡ₚ q /\
    priority_value waiting.2 <= priority_value top.2.
Proof.
  intros Hp Hw. destruct (Hp q) as (i & Hi & Hmax); [by intros ->; apply elem_of_nil in Hw|].
  exists i, (take (pick q) q ++ drop (S (pick q)) q). split_and!; [| |].
  - unfold queue_top. by rewrite Hi.
  - rewrite Permutation_middle. by rewrite take_drop_middle.
  - specialize (Hmax waiting Hw). lia.
Qed.

Section node.
Context `{BoostLaws} `{CryptoLaws}.
Variable settings : NetworkSettings.
Variable pick : list queue_item -> nat.

(** ** The wire *)

(** The octets of a message, and those not yet handed to the socket. *)
Definition message_stream (m : Message.t) : DataStream.t := SDataStream.base (Message.ser_stream_ m).
Definition message_bytes (m : Message.t) : Bytes := buffer_ (message_stream m).
Definition message_rest (m : Message.t) : Bytes := DataStreamFacts.unread (message_stream m).

Inductive write_action :=
| AStartWrite (now : Z)
| AWritten (failed : bool) (bytes_transferred : Z)
| APush (payload : MessagePayload) (priority : MessagePriority).

(** A failed push changes nothing. *)
Definition act (a : write_action) (n : t) : outcome unit * t :=
  match a with
  | AStartWrite now => start_write pick now n
  | AWritten failed bytes => handle_write failed bytes n
  | APush p priority => ignore (push_message settings p priority) n
  end.

Fixpoint act_all (l : list write_action) (n : t) : outcome unit * t :=
  match l with
  | [] => (Success (), n)
  | a :: l => match act a n with (Success _, n') => act_all l n' | r => r end
  end.

(** What is pushed is queued, loaded in the barrel in some order, or dropped; the
    octets of the messages loaded are on the wire, in the send buffer, or still
    in the barrel, in this order. *)
Definition message_ok (m : Message.t) : Prop := DataStreamFacts.wf (message_stream m) /\ message_bytes m <> [].
Definition queued (n : t) : list Bytes := (λ i : queue_item, message_bytes i.1) <$> outbound_messages_queue_ n.

Record wire_ok (pushed loaded dropped : list Bytes) (n : t) : Prop := {
  wo_wire : match outbound_message_ n with
            | None => wire_ n ++ send_buffer_ n = concat loaded
            | Some m => message_ok m /\ 0 < Message.tellg m /\
                        (exists l, loaded = l ++ [message_bytes m]) /\
                        wire_ n ++ send_buffer_ n ++ message_rest m = concat loaded
            end;
  wo_queue : Forall (λ i : queue_item, message_ok i.1) (outbound_messages_queue_ n);
  wo_all : loaded ++ dropped ++ queued n ≡ₚ pushed;
  wo_stop : dropped <> [] -> TStop ∈ posted_ n;
}.

(** Parts of the state that the write side does not look at. *)
Lemma wire_ok_same pushed loaded dropped n n' : wire_ok pushed loaded dropped n ->
  outbound_message_ n' = outbound_message_ n -> wire_ n' ++ send_buffer_ n' = wire_ n ++ send_buffer_ n ->
  outbound_messages_queue_ n' = outbound_messages_queue_ n -> (TStop ∈ posted_ n -> TStop ∈ posted_ n') ->
  wire_ok pushed loaded dropped n'.
Proof.
  intros [W1 W2 W3 W4] E1 E2 E3 E4. split; rewrite ?E1, ?E2, ?E3; unfold queued; rewrite ?E3; auto.
  destruct (outbound_message_ n); [|done]. by rewrite app_assoc, E2, <- app_assoc.
Qed.

Lemma validate_same d ty n r n' : validate_message_for_protocol_handshake d ty n = (r, n') ->
  outbound_message_ n' = outbound_message_ n /\ wire_ n' = wire_ n /\ send_buffer_ n' = send_buffer_ n /\
  outbound_messages_queue_ n' = outbound_messages_queue_ n /\ (forall f, r <> Fault f) /\
  (forall k, k ∈ posted_ n -> k ∈ posted_ n') /\ version_ n' = version_ n.
Proof.
  unfold validate_message_for_protocol_handshake. cbv zeta.
  repeat match goal with |- context [if ?c then _ else _] => destruct c end; intros [= <- <-]; split_and!; try done;
    simpl; set_solver.
Qed.

(** The octets handed to the socket leave the message. *)
Lemma send_chunk_spec m n : message_ok m ->
  exists data m', send_chunk m n = (Success (), set_send (send_buffer_ n ++ data) (set_outbound (Some m') n)) /\
    message_ok m' /\ message_bytes m' = message_bytes m /\ data ++ message_rest m' = message_rest m /\ 0 < Message.tellg m'.
Proof.
  intros [Hwf Hne]. unfold send_chunk. cbv zeta. set (k := Z.min kMaxBytesPerIO (Message.avail m)).
  pose proof (DataStreamFacts.avail_wf (message_stream m) Hwf) as Ha. pose proof Hwf as [[Hp1 Hp2] Hsz].
  assert (Hpos : 0 < DataStream.size (message_stream m)).
  { unfold DataStream.size. unfold message_bytes in Hne. destruct (buffer_ (message_stream m)) as [|b l]; [done|]. rewrite zlen_cons.
    pose proof (zlen_nonneg l). lia. }
  assert (Hk : 0 <= k <= DataStream.size (message_stream m) - read_position_ (message_stream m) /\
    (read_position_ (message_stream m) = 0 -> 0 < k)).
  { unfold k. change (Message.avail m) with (DataStream.avail (message_stream m)). rewrite Ha. unfold kMaxBytesPerIO. lia. }
  unfold Message.on_data, Message.on_stream, SDataStream.lift, DataStream.read. fold (message_stream m).
  cbn [default]. rewrite Ha. rewrite (proj2 (Z.ltb_ge _ k)), (proj2 (Z.ltb_ge _ (read_position_ (message_stream m)))) by lia.
  do 2 eexists. split; [done|]. split; [split; [split; [|exact Hsz] | exact Hne] | split; [done | split]].
  - change (0 <= read_position_ (message_stream m) + k <= DataStream.size (message_stream m)). lia.
  - change (ztake k (zdrop (read_position_ (message_stream m)) (buffer_ (message_stream m))) ++
      zdrop (read_position_ (message_stream m) + k) (buffer_ (message_stream m)) =
      zdrop (read_position_ (message_stream m)) (buffer_ (message_stream m))).
    rewrite <- (zdrop_zdrop k) by lia. apply ztake_zdrop.
  - change (0 < read_position_ (message_stream m) + k). lia.
Qed.

Lemma retire_ok now pushed loaded dropped n : wire_ok pushed loaded dropped n ->
  wire_ok pushed loaded dropped (retire_outbound now n) /\ version_ (retire_outbound now n) = version_ n.
Proof.
  intros W. unfold retire_outbound. destruct (outbound_message_ n) as [m|] eqn:E; [|done].
  destruct (DataStream.eof _) eqn:Ee; [|done]. destruct W as [W1 W2 W3 W4]. rewrite E in W1.
  destruct W1 as (Hwf & _ & Hl & Hw). apply Z.leb_le in Ee. fold (message_stream m) in Ee.
  assert (Hr : message_rest m = []).
  { unfold message_rest, DataStreamFacts.unread. apply zdrop_ge. exact Ee. }
  rewrite Hr, app_nil_r in Hw. destruct (_ && _); (split; [|done]); by split.
Qed.

(** What is left of a queue keeps its properties. *)
Lemma queue_top_spec q i rest : queue_top pick q = Some (i, rest) -> i :: rest ≡ₚ q.
Proof.
  unfold queue_top. destruct (q !! pick q) as [j|] eqn:E; [|done]. intros [= <- <-].
  rewrite Permutation_middle. by rewrite take_drop_middle.
Qed.

(** A message that has just been loaded. *)
Lemma start_write_loaded now pushed loaded dropped n m rest : wire_ok pushed loaded dropped n ->
  outbound_message_ n = None -> message_ok m -> Message.tellg m = 0 ->
  Forall (λ i : queue_item, message_ok i.1) rest ->
  message_bytes m :: ((λ i : queue_item, message_bytes i.1) <$> rest) ≡ₚ queued n ->
  let n1 := set_outbound (Some m) (set_queue rest n) in
  exists n' loaded' dropped',
    match validate_message_for_protocol_handshake kDirOutbound (Message.get_type m) n1 with
    | (Success _, n) =>
        let n := set_outbound_metrics (account (Message.get_type m) (Message.size m) (outbound_message_metrics_ n)) n in
        let n := if bool_decide (Message.get_type m = kPing) then set_ping (PingMeter.start_sample now (ping_meter_ n)) n else n in
        send_chunk m (set_outbound_start (Some now) n)
    | (Fault f, n) => (Fault f, n)
    | (Failure _, n) => post TStop (set_writing false (set_outbound None n))
    end = (Success (), n') /\ wire_ok pushed loaded' dropped' n' /\ version_ n' = version_ n.
Proof.
  intros [W1 W2 W3 W4] Eo Hm Ht Hrest Hq n1. rewrite Eo in W1.
  destruct (validate_message_for_protocol_handshake _ _ n1) as [r n2] eqn:Ev.
  destruct (validate_same _ _ _ _ _ Ev) as (E1 & E2 & E3 & E4 & E5 & E6 & E7). destruct r as [[]|e|f]; [| |by destruct (E5 f)].
  - cbv zeta. set (n3 := set_outbound_start _ _).
    assert (Hn3 : wire_ n3 = wire_ n /\ send_buffer_ n3 = send_buffer_ n /\ outbound_messages_queue_ n3 = rest /\
      posted_ n3 = posted_ n2 /\ version_ n3 = version_ n).
    { unfold n3. destruct (bool_decide _); cbn; by rewrite ?E2, ?E3, ?E4, ?E7. }
    destruct Hn3 as (F1 & F2 & F3 & F4 & F5). destruct (send_chunk_spec m n3 Hm) as (data & m' & -> & Hm' & Hb & Hr & Hp).
    exists (set_send (send_buffer_ n3 ++ data) (set_outbound (Some m') n3)), (loaded ++ [message_bytes m]), dropped.
    split_and!; [done | | done]. split; cbn [outbound_message_ set_send set_outbound wire_ send_buffer_ outbound_messages_queue_].
    + split_and!; try done; [by exists loaded; rewrite Hb|]. rewrite F1, F2, concat_app, <- W1, <- !app_assoc, Hr. do 2 f_equal.
      cbn [concat]. rewrite app_nil_r. unfold message_rest, DataStreamFacts.unread. change (read_position_ (message_stream m)) with (Message.tellg m).
      rewrite Ht. by apply zdrop_0.
    + by rewrite F3.
    + unfold queued. cbn [outbound_messages_queue_ set_send set_outbound]. rewrite F3, <- app_assoc, <- W3. rewrite <- Hq.
      apply Permutation_app_head. cbn [app]. by rewrite Permutation_middle.
    + intros Hd. change (TStop ∈ posted_ n3). rewrite F4. apply E6. by apply W4.
  - exists (post TStop (set_writing false (set_outbound None n2))).2, loaded, (message_bytes m :: dropped).
    split_and!; [done | | done]. split; cbn.
    + by rewrite E2, E3.
    + by rewrite E4.
    + unfold queued. cbn [outbound_messages_queue_ set_posted set_writing set_outbound]. rewrite E4. rewrite <- W3, <- Hq.
      apply Permutation_app_head. cbn [app]. by rewrite Permutation_middle.
    + set_solver.
Qed.

(** A message that is rewound is sent from its first octet. *)
Lemma rewound_ok m : message_ok m -> message_ok (Message.seekg 0 m).2 /\ Message.tellg (Message.seekg 0 m).2 = 0 /\
  message_bytes (Message.seekg 0 m).2 = message_bytes m.
Proof.
  intros [Hwf Hne]. pose proof Hwf as [[Hp1 Hp2] Hsz]. pose proof (zlen_nonneg (buffer_ (message_stream m))).
  assert (Hp : Message.tellg (Message.seekg 0 m).2 = 0) by (change (Z.min 0 (zlen (buffer_ (message_stream m))) = 0); lia).
  split_and!; [|done|done]. split; [|done]. split; [|done].
  change (0 <= Message.tellg (Message.seekg 0 m).2 <= zlen (buffer_ (message_stream m))). rewrite Hp. lia.
Qed.

Lemma start_write_ok now pushed loaded dropped n : wire_ok pushed loaded dropped n ->
  exists n' loaded' dropped', start_write pick now n = (Success (), n') /\ wire_ok pushed loaded' dropped' n' /\
    version_ n' = version_ n.
Proof.
  intros W. unfold start_write. destruct (negb (socket_open_ n)); [by exists n, loaded, dropped|].
  destruct (is_writing_ n); [by exists n, loaded, dropped|]. cbv zeta.
  destruct (retire_ok now pushed loaded dropped (set_writing true n)) as [W' Hv]; [by eapply wire_ok_same; [exact W|..]|].
  revert W' Hv. generalize (retire_outbound now (set_writing true n)). intros n1 W1 Hv. cbn [version_ set_writing] in Hv.
  rewrite <- Hv. clear W Hv n. unfold load_outbound. destruct (outbound_message_ n1) as [m|] eqn:E.
  - pose proof W1 as [X W2 W3 W4]. rewrite E in X. destruct X as (Hm & Hp & Hl & Hw).
    rewrite (proj2 (Z.eqb_neq (Message.tellg m) 0)) by lia. destruct (send_chunk_spec m n1 Hm) as (data & m' & -> & Hm' & Hb & Hr & Hp').
    eexists _, loaded, dropped. split_and!; [done | | done]. split; try done. cbn. split_and!; try done; [by rewrite Hb|].
    by rewrite <- Hw, <- Hr, <- !app_assoc.
  - destruct (queue_top pick (outbound_messages_queue_ n1)) as [[[m pr] rest]|] eqn:Eq.
    + apply queue_top_spec in Eq. pose proof (wo_queue _ _ _ _ W1) as Hq. rewrite <- Eq in Hq.
      apply Forall_cons in Hq as [Hok Hrest].
      destruct (rewound_ok m Hok) as (Hm & Hp & Hb). rewrite (proj2 (Z.eqb_eq (Message.tellg _) 0)) by done.
      eapply start_write_loaded; try done. rewrite Hb. unfold queued. rewrite <- Eq. done.
    + exists (set_writing false n1), loaded, dropped. split_and!; [done| |done]. by eapply wire_ok_same; [exact W1|..].
Qed.

Lemma handle_write_ok failed bytes pushed loaded dropped n : wire_ok pushed loaded dropped n ->
  exists n', handle_write failed bytes n = (Success (), n') /\ wire_ok pushed loaded dropped n' /\ version_ n' = version_ n.
Proof.
  intros W. unfold handle_write.
  destruct (negb (is_running n)); [eexists; split_and!; [done | by eapply wire_ok_same; [exact W|..] | done]|].
  destruct failed; [eexists; split_and!; [done | eapply wire_ok_same; [exact W|..]; try done; simpl; set_solver | done]|].
  cbv zeta. set (n1 := if 0 <? bytes then _ else n). assert (W' : wire_ok pushed loaded dropped n1 /\ version_ n1 = version_ n).
  { unfold n1. destruct (0 <? bytes); [|done]. split; [|done]. eapply wire_ok_same; [exact W|..]; try done.
    cbn. by rewrite <- app_assoc, ztake_zdrop. }
  destruct W' as [W' Hv]. destruct (negb _); [by exists n1|].
  eexists; split_and!; [done | eapply wire_ok_same; [exact W'|..]; try done; simpl; set_solver | done].
Qed.
(** A payload that may be sent is framed and queued. *)
Lemma frame_message_ok version magic p : length magic = 4%nat -> sendable version p ->
  message_ok (received (SDataStream.make kNetwork version) magic (payload_frame version magic p)).
Proof.
  intros Hm Hs. destruct (classify_frame version version magic p Hm Hs) as (_ & _ & Hmax & _ & Hc).
  apply classify_success in Hc as [Hc _]. assert (kMaxProtocolMessageLength < 2 ^ 64) by done.
  assert (H24 : kMessageHeaderLength = 24) by done. split.
  - change (0 <= kMessageHeaderLength <= zlen (payload_frame version magic p) /\ zlen (payload_frame version magic p) < 2 ^ 64). lia.
  - change (payload_frame version magic p <> []). intros E. rewrite E in Hc. change (24 <= 0) in Hc. lia.
Qed.

Lemma push_ok p priority pushed loaded dropped n : length (chain_magic settings) = 4%nat -> bytes_ok (chain_magic settings) ->
  sendable (version_ n) p -> wire_ok pushed loaded dropped n ->
  exists n', ignore (push_message settings p priority) n = (Success (), n') /\
    wire_ok (pushed ++ [payload_frame (version_ n) (chain_magic settings) p]) loaded dropped n' /\ version_ n' = version_ n.
Proof.
  intros Hm Hokm Hs [W1 W2 W3 W4]. unfold ignore, push_message. rewrite push_make by done.
  eexists. split_and!; [done | | done]. split; cbn.
  - exact W1.
  - apply Forall_app. split; [done|]. apply Forall_singleton. by apply frame_message_ok.
  - unfold queued. cbn [outbound_messages_queue_ set_posted set_queue]. rewrite fmap_app. cbn [fmap list_fmap fst].
    change (message_bytes (received _ _ ?b)) with b. fold (queued n). by rewrite !app_assoc, <- (app_assoc loaded), W3.
  - set_solver.
Qed.

(** The payloads pushed by a sequence of actions. *)
Definition pushes (l : list write_action) : list MessagePayload :=
  omap (λ a, match a with APush p _ => Some p | _ => None end) l.

Lemma act_all_ok l : length (chain_magic settings) = 4%nat -> bytes_ok (chain_magic settings) ->
  forall pushed loaded dropped n, Forall (sendable (version_ n)) (pushes l) -> wire_ok pushed loaded dropped n ->
  exists n' loaded' dropped', act_all l n = (Success (), n') /\
    wire_ok (pushed ++ (payload_frame (version_ n) (chain_magic settings) <$> pushes l)) loaded' dropped' n'.
Proof.
  intros Hm Hokm. induction l as [|a l IH]; intros pushed loaded dropped n Hs W.
  { exists n, loaded, dropped. cbn. by rewrite app_nil_r. }
  cbn [act_all]. destruct a as [now|failed bytes|p priority]; cbn [act].
  - destruct (start_write_ok now pushed loaded dropped n W) as (n' & l' & d' & -> & W' & Hv).
    rewrite <- Hv. apply (IH _ l' d'); [by rewrite Hv | done].
  - destruct (handle_write_ok failed bytes pushed loaded dropped n W) as (n' & -> & W' & Hv).
    rewrite <- Hv. apply (IH _ loaded dropped); [by rewrite Hv | done].
  - cbn [pushes omap list_omap] in Hs. apply Forall_cons in Hs as [Hp Hs].
    destruct (push_ok p priority pushed loaded dropped n Hm Hokm Hp W) as (n' & -> & W' & Hv).
    cbn [pushes omap list_omap fmap list_fmap]. fold (pushes l). rewrite (cons_middle _ pushed), app_assoc.
    rewrite <- Hv. apply (IH _ loaded dropped); [by rewrite Hv | by rewrite Hv].
Qed.

(** C3: The wire carries whole messages: whatever the interleaving of pushes,
    write cycles and completions of the socket, no message is lost, repeated or
    mixed with another. The octets on the wire, followed by those in the send
    buffer and those still in the barrel, are the frames of the messages loaded,
    one after the other; these, the messages dropped and the messages queued are
    the messages pushed; and a message is dropped only together with the
    connection. *)
Theorem wire_frames (actions : list write_action) (n : t) :
  length (chain_magic settings) = 4%nat -> bytes_ok (chain_magic settings) ->
  outbound_message_ n = None -> wire_ n = [] -> send_buffer_ n = [] -> outbound_messages_queue_ n = [] ->
  Forall (sendable (version_ n)) (pushes actions) ->
  exists n' loaded dropped,
    act_all actions n = (Success (), n') /\
    loaded ++ dropped ++ queued n' ≡ₚ (payload_frame (version_ n) (chain_magic settings) <$> pushes actions) /\
    wire_ n' ++ send_buffer_ n' ++ match outbound_message_ n' with Some m => message_rest m | None => [] end = concat loaded /\
    (dropped <> [] -> TStop ∈ posted_ n').
Proof.
  intros Hm Hokm E1 E2 E3 E4 Hs.
  destruct (act_all_ok actions Hm Hokm [] [] [] n Hs) as (n' & l' & d' & Ha & [W1 _ W3 W4]).
  { split; unfold queued; rewrite ?E1, ?E2, ?E3, ?E4; done. }
  exists n', l', d'. split_and!; try done. destruct (outbound_message_ n') as [m|]; [by destruct W1 as (_ & _ & _ & ?)|].
  by rewrite app_nil_r.
Qed.
(** ** The version of the peer *)

Lemma push_null_spec ty priority n : length (chain_magic settings) = 4%nat -> bytes_ok (chain_magic settings) ->
  ty = kVerAck \/ ty = kMemPool \/ ty = kGetAddr ->
  exists m, push_null settings ty priority n = (Success (), set_posted (posted_ n ++ [TStartWrite])
      (set_queue (outbound_messages_queue_ n ++ [(m, priority)]) n)) /\
    message_bytes m = payload_frame (version_ n) (chain_magic settings) (MsgNull ty).
Proof.
  intros Hm Hok Ht. unfold push_null, make_null. rewrite decide_True by done. unfold op_bind, push_message.
  assert (Hs : sendable (version_ n) (MsgNull ty)).
  { split; [done|]. split; [apply NoDup_nil_2|]. split; [apply Forall_nil_2|]. destruct Ht as [->|[->| ->]]; by vm_compute. }
  rewrite push_make by done. eexists. split; done.
Qed.

Lemma push_local_spec priority n : length (chain_magic settings) = 4%nat -> bytes_ok (chain_magic settings) ->
  sendable (version_ n) (MsgVersion (local_version_ n)) ->
  exists m, push_local_version settings priority n = (Success (), set_local (local_version_ n)
      (set_posted (posted_ n ++ [TStartWrite]) (set_queue (outbound_messages_queue_ n ++ [(m, priority)]) n))) /\
    message_bytes m = payload_frame (version_ n) (chain_magic settings) (MsgVersion (local_version_ n)).
Proof.
  intros Hm Hok Hs. unfold push_local_version, push_message. rewrite push_make by done. eexists. split; done.
Qed.

(** What follows the acceptance of the version of a peer. *)
Lemma version_replies n : length (chain_magic settings) = 4%nat -> bytes_ok (chain_magic settings) ->
  sendable (version_ n) (MsgVersion (local_version_ n)) ->
  exists n', ((λ n, if Z.land (protocol_handshake_status_ n) kVersionSent =? 0
                    then ignore (push_local_version settings kHigh) n else (Success (), n)) >>;
              ignore (push_null settings kVerAck kHigh)) n = (Success (), n') /\
    remote_version_ n' = remote_version_ n /\ version_ n' = version_ n /\ events_ n' = events_ n /\
    queued n' = queued n ++
      (if Z.land (protocol_handshake_status_ n) kVersionSent =? 0
       then [payload_frame (version_ n) (chain_magic settings) (MsgVersion (local_version_ n))] else []) ++
      [payload_frame (version_ n) (chain_magic settings) (MsgNull kVerAck)].
Proof.
  intros Hm Hok Hs. unfold op_bind, ignore at 1. destruct (_ =? 0).
  - destruct (push_local_spec kHigh n Hm Hok Hs) as (m & -> & Hb). unfold ignore.
    match goal with |- context [push_null settings kVerAck kHigh ?x] =>
      destruct (push_null_spec kVerAck kHigh x Hm Hok) as (m' & -> & Hb'); [by left|] end.
    eexists. split; [done|]. split_and!; try done. unfold queued. cbn. rewrite !fmap_app. cbn. rewrite Hb, Hb'. by rewrite <- app_assoc.
  - unfold ignore. destruct (push_null_spec kVerAck kHigh n Hm Hok) as (m' & -> & Hb'); [by left|].
    eexists. split; [done|]. split_and!; try done. unfold queued. cbn. rewrite !fmap_app. cbn. by rewrite Hb'.
Qed.

(** C34: A peer is taken on only with a supported protocol version and a nonce
    other than ours: else the message is refused with the error that says so, and
    nothing changes. Otherwise the version of the peer is recorded, the protocol
    version of the session is the lower of both, our own version is sent unless
    it was sent before, and the version is acknowledged. *)
Theorem version_gate (remote : MsgVersionPayload.t) (time_now now : Z) (n : t) (average : Z -> Z -> Z) :
  length (chain_magic settings) = 4%nat -> bytes_ok (chain_magic settings) ->
  sendable kDefaultProtocolVersion (MsgVersion (local_version_ n)) ->
  MsgVersionPayload.protocol_version_ (local_version_ n) = kDefaultProtocolVersion ->
  let v := MsgVersionPayload.protocol_version_ remote in
  let res := process_inbound_message settings average (MsgVersion remote) time_now now n in
  if negb (v =? kDefaultProtocolVersion) then res = (Failure (NetError kInvalidProtocolVersion), n)
  else if MsgVersionPayload.nonce_ remote =? MsgVersionPayload.nonce_ (local_version_ n)
  then res = (Failure (NetError kConnectedToSelf), n)
  else exists n', res = (Success (), n') /\ remote_version_ n' = remote /\ version_ n' = kDefaultProtocolVersion /\
    queued n' = queued n ++
      (if Z.land (protocol_handshake_status_ n) kVersionSent =? 0
       then [payload_frame kDefaultProtocolVersion (chain_magic settings) (MsgVersion (local_version_ n))] else []) ++
      [payload_frame kDefaultProtocolVersion (chain_magic settings) (MsgNull kVerAck)] /\
    events_ n' = events_ n ++ [EMessage (MsgVersion (remote_version_ n))].
Proof.
  intros Hm Hok Hs Hl v res. unfold res, process_inbound_message, process_by_type, process_version. cbv zeta. fold v.
  assert (Hc : MessageHeader.clamp v kMinSupportedProtocolVersion kMaxSupportedProtocolVersion = kDefaultProtocolVersion).
  { unfold MessageHeader.clamp, kMinSupportedProtocolVersion, kMaxSupportedProtocolVersion. repeat case_cmp; lia. }
  rewrite Hc. destruct (Z.eqb_spec v kDefaultProtocolVersion) as [E|E].
  2: { cbn [negb]. unfold op_bind. rewrite (proj2 (Z.eqb_neq kDefaultProtocolVersion v)) by congruence. done. }
  rewrite E, Z.eqb_refl. cbn [negb]. destruct (_ =? MsgVersionPayload.nonce_ _) eqn:En; [by unfold op_bind; rewrite En|].
  set (n1 := set_version kDefaultProtocolVersion (set_remote remote n)).
  destruct (version_replies n1 Hm Hok Hs) as (n2 & Hr & E1 & E2 & E3 & E4).
  exists (set_events (events_ n2 ++ [EMessage (MsgVersion (remote_version_ n))]) (set_received now n2)).
  split; [|cbn; by rewrite E1, E2, E3; split_and!].
  unfold op_bind in Hr |- *. rewrite En. unfold modify, notify, op_ret. cbn [local_version_ set_remote]. rewrite Hl, Z.min_id.
  fold n1. destruct (if Z.land _ _ =? 0 then _ else _) as [[[]|e|f] n3]; [|done..]. rewrite Hr. done.
Qed.
End node.

(** A connected node. *)
Definition sample_settings : NetworkSettings := Build_NetworkSettings sample_magic 10 10 10 300 500.
Definition sample_local : MsgVersionPayload.t :=
  MsgVersionPayload.set_protocol_version kDefaultProtocolVersion MsgVersionPayload.fresh.
Definition sample_remote : MsgVersionPayload.t := MsgVersionPayload.set_nonce 7 sample_local.
Definition sample_node (status : Z) : t :=
  mk Stoppable.kStarted true kOutbound false (TrafficMeter.fresh 0) PingMeter.fresh status kDefaultProtocolVersion 0 0 0
    [] None None false None [] None sample_local MsgVersionPayload.fresh (λ _, (0, 0)) (λ _, (0, 0)) [] [] [].

Lemma handshake_once_witness :
  let '(accepted, n') := run_checks [(kDirOutbound, kVersion); (kDirInbound, kVersion); (kDirInbound, kVersion);
    (kDirOutbound, kVerAck); (kDirInbound, kVerAck)] (sample_node kNotInitiated) in
  protocol_handshake_status_ n' = flags_of accepted /\ completions (posted_ n') = 1.
Proof.
  pose proof (handshake_once [(kDirOutbound, kVersion); (kDirInbound, kVersion); (kDirInbound, kVersion);
    (kDirOutbound, kVerAck); (kDirInbound, kVerAck)] (sample_node kNotInitiated) eq_refl) as W. vm_compute in W. vm_compute.
  destruct W as (W1 & _ & W3 & _). split; done.
Defined.

Lemma handshake_gap_witness :
  (run_checks [(kDirOutbound, kVersion); (kDirInbound, kVerAck); (kDirInbound, kInv)] (sample_node kNotInitiated)).1 =
    [(kDirOutbound, kVersion); (kDirInbound, kVerAck); (kDirInbound, kInv)].
Proof. by apply (handshake_gap (sample_node kNotInitiated) kInv). Defined.

(** A queue that returns the first of the items that no other exceeds. *)
Definition first_pick (q : list queue_item) : nat :=
  let best := foldr (λ (i : queue_item) b, Z.max (priority_value i.2) b) 0 q in
  default 0%nat (fst <$> list_find (λ i : queue_item, priority_value i.2 = best) q).

Lemma first_pick_ok : pick_ok first_pick.
Proof.
  intros q Hq. unfold first_pick. set (best := foldr _ 0 q).
  assert (Hle : forall j : queue_item, j ∈ q -> priority_value j.2 <= best).
  { clear Hq. unfold best. induction q as [|i q IH]; intros j Hj; [by apply elem_of_nil in Hj|].
    apply elem_of_cons in Hj as [->|Hj]; cbn [foldr]; [lia|]. specialize (IH j Hj). lia. }
  assert (Hex : exists j : queue_item, j ∈ q /\ priority_value j.2 = best).
  { clear Hle. subst best. induction q as [|i q IH]; [done|]. cbn [foldr]. destruct (decide (q = [])) as [->|Hne].
    - exists i. split; [left|]. cbn. by destruct i.2.
    - destruct (IH Hne) as (j & Hj & E). destruct (Z.le_ge_cases (priority_value i.2) (foldr (λ (i : queue_item) b, Z.max (priority_value i.2) b) 0 q)).
      + exists j. split; [by right|]. lia.
      + exists i. split; [left|]. lia. }
  destruct Hex as (j & Hj & E). destruct (list_find_elem_of (λ i : queue_item, priority_value i.2 = best) q j Hj E) as [[k x] Hf].
  rewrite Hf. apply list_find_Some in Hf as (Hk & Hx & _). exists x. split; [done|]. intros y Hy. specialize (Hle y Hy). lia.
Qed.

Definition sample_item (p : MessagePriority) : queue_item := (Message.make kDefaultProtocolVersion sample_magic, p).

Lemma sample_ping_sendable : sendable kDefaultProtocolVersion sample_ping.
Proof. split; [by split; [left|]|]. split; [apply NoDup_nil_2|]. split; [decide_now | by vm_compute]. Qed.

Lemma wire_frames_witness : exists n',
  @act_all model_boost model_crypto sample_settings first_pick [APush sample_ping kHigh; AStartWrite 5; AWritten false 10]
    (sample_node kCompleted) = (Success (), n') /\
  exists loaded, wire_ n' ++ send_buffer_ n' ++ match outbound_message_ n' with Some m => message_rest m | None => [] end = concat loaded.
Proof.
  destruct (@wire_frames model_boost model_boost_laws model_crypto model_crypto_laws sample_settings first_pick
    [APush sample_ping kHigh; AStartWrite 5; AWritten false 10]
    (sample_node kCompleted)) as (n' & loaded & dropped & Ha & _ & Hw & _).
  - reflexivity.
  - decide_now.
  - reflexivity.
  - reflexivity.
  - reflexivity.
  - reflexivity.
  - apply Forall_cons_2; [exact sample_ping_sendable | apply Forall_nil_2].
  - exists n'. split; [exact Ha|]. exists loaded. exact Hw.
Defined.

Lemma sample_local_sendable : sendable kDefaultProtocolVersion (MsgVersion sample_local).
Proof.
  split; [|split; [apply NoDup_nil_2|]; split; [decide_now | by vm_compute]].
  split_and!; try decide_now.
Qed.

Lemma version_gate_witness : exists n',
  @process_inbound_message model_boost model_crypto sample_settings (λ a _, a) (MsgVersion sample_remote) 1 2
    (sample_node kVersionReceived) = (Success (), n') /\ remote_version_ n' = sample_remote.
Proof.
  destruct (@version_gate model_boost model_boost_laws model_crypto model_crypto_laws sample_settings sample_remote 1 2
    (sample_node kVersionReceived) (λ a _, a)) as (n' & Hr & He & _).
  - reflexivity.
  - decide_now.
  - exact sample_local_sendable.
  - reflexivity.
  - exists n'. split; [exact Hr | exact He].
Defined.
End NodeFacts.
