(* ===== verification/Delivery.v ===== *)
(** * Delivery of inbound messages

    What a node that has completed the handshake does with the octets of a
    stream of messages, however the reads of the socket cut them. *)

From stdpp Require Import gmap.
From S2P Require Import Prelude Text Stream Boost Serialize Types Protocol Misc Addresses Payloads Message MessageFacts Reassembly Meters Node NodeFacts.
#[local] Open Scope Z_scope.

Module Delivery.
Import Laws TypesTheorems AddressesTheorems PayloadsTheorems MessageSpec MessageProofs Reassembly Node.

Section delivery.
Context `{BoostLaws} `{CryptoLaws}.
Variable settings : NetworkSettings.
Variable average : Z -> Z -> Z.
Hypothesis magic_length : length (chain_magic settings) = 4%nat.
Hypothesis magic_ok : bytes_ok (chain_magic settings).

Abbreviation magic := (chain_magic settings).
Abbreviation stream v := (SDataStream.make kNetwork v).

(** Messages that a connected peer may send at any time. *)
Definition plain (p : MessagePayload) : bool :=
  match payload_type p with
  | kMemPool | kPing | kGetHeaders | kAddr | kInv | kGetData | kNotFound | kReject => true
  | _ => false
  end.

Definition deliverable (version : Z) (p : MessagePayload) : Prop :=
  sendable version p /\ payload_readable p /\ plain p = true.

(** What the node hub is given for a message, and what is queued in reply. *)
Definition forwarded (version : Z) (p : MessagePayload) : option MessagePayload :=
  match p with MsgPingPong _ _ => None | p => Some (payload_decoded version p) end.
Definition pong (p : MessagePayload) : option MessagePayload :=
  match p with MsgPingPong _ nonce => Some (MsgPingPong kPong nonce) | _ => None end.

Definition messages (l : list event) : list MessagePayload :=
  omap (λ e, match e with EMessage p => Some p | _ => None end) l.
Definition queued_frames (n : t) : list Bytes :=
  (λ i : queue_item, buffer_ (SDataStream.base (Message.ser_stream_ i.1))) <$> outbound_messages_queue_ n.

(** A connected node that has received [acc] of the current message, and has
    forwarded and queued so much. *)
Record reading (version : Z) (acc : Bytes) (hub : list MessagePayload) (out : list Bytes) (n : t) : Prop := {
  rd_running : is_running n = true;
  rd_status : protocol_handshake_status_ n = kCompleted;
  rd_version : version_ n = version;
  rd_inbound : match inbound_message_ n with
               | None => acc = []
               | Some m => receiving (stream version) magic acc m
               end;
  rd_hub : messages (events_ n) = hub;
  rd_out : queued_frames n = out;
  rd_stays : TStop ∉ posted_ n;
}.

Lemma pong_sendable version p : payload_ok p -> plain p = true -> forall q, pong p = Some q -> sendable version q.
Proof.
  intros Hp Hpl q. destruct p as [| |ty nonce| | | |]; simpl; try done. intros [= <-]. destruct Hp as [_ Hn].
  split; [by split; [right|]|]. split; [apply NoDup_nil_2|]. split; [apply le_bytes_ok|]. by vm_compute.
Qed.

Lemma plain_fresh p : payload_ok p -> plain p = true -> exists p0, from_type (payload_type p) = Success (Some p0).
Proof. intros _. unfold plain. destruct (payload_type p); try done; intros _; by eexists. Qed.

(** Anything but a ping goes to the node hub. *)
Lemma process_forwards version p time_now now n : payload_ok p -> plain p = true -> pong p = None ->
  process_inbound_message settings average (payload_decoded version p) time_now now n =
    (Success (), set_events (events_ n ++ [EMessage (payload_decoded version p)]) (set_received now n)).
Proof.
  intros Hp Hpl Hno. destruct p as [ty|v|ty nonce|g|l|ty l|r]; try done; cbn in Hp; unfold plain in Hpl; cbn in Hpl.
  - by destruct Hp as [->|[->| ->]].
  - by destruct Hp as [[->|[->| ->]] _].
Qed.

(** Processing a message forwards it or queues the reply. *)
Lemma process_ok version hub out p time_now now n : deliverable version p -> reading version [] hub out (set_inbound None n) ->
  exists n', process_inbound_message settings average (payload_decoded version p) time_now now n = (Success (), n') /\
    reading version [] (hub ++ option_list (forwarded version p))
      (out ++ (payload_frame version magic <$> option_list (pong p))) (set_inbound None n').
Proof.
  intros ((Hp & Hs) & Hr & Hpl) [R1 R2 R3 R4 R5 R6 R7]. destruct (pong p) as [q|] eqn:Eq.
  - pose proof (pong_sendable version p Hp Hpl q Eq) as Hq. destruct p as [| |ty nonce| | | |]; try done. injection Eq as <-.
    destruct Hp as [[->| ->] _]; [|done]. unfold process_inbound_message, process_by_type, op_bind, push_message.
    cbn [payload_decoded payload_written]. rewrite (R3 : version_ n = version), push_make by done. eexists. split; [done|].
    split; try done; cbn -[queued_frames].
    + by rewrite app_nil_r.
    + unfold queued_frames. cbn. by rewrite fmap_app, <- R6.
    + cbn in R7. set_solver.
  - rewrite process_forwards by done. eexists. split; [done|]. split; try done; cbn -[queued_frames].
    + unfold messages. rewrite omap_app, <- R5. by destruct p.
    + by rewrite app_nil_r.
Qed.

Lemma eof_unread s : wf s -> unread s = [] -> DataStream.eof (SDataStream.base s) = true.
Proof.
  unfold unread, DataStreamFacts.unread, DataStream.eof, DataStream.size. intros [[Hp _] _] E. apply Z.leb_le.
  apply (f_equal length) in E. unfold zdrop in E. rewrite length_drop in E. simpl in E. lia.
Qed.

(** A complete message is processed and makes room for the next one. *)
Lemma handle_complete_ok version hub out p parsed time_now now n :
  deliverable version p -> parsed <= kMaxMessagesPerRead ->
  reading version [] hub out (set_inbound None n) ->
  exists n', handle_complete settings average (received (stream version) magic (payload_frame version magic p)) parsed time_now now n
      = (Success (), n') /\
    reading version [] (hub ++ option_list (forwarded version p))
      (out ++ (payload_frame version magic <$> option_list (pong p))) n'.
Proof.
  intros Hd Hpar R. pose proof Hd as (Hs & Hr & Hpl). pose proof Hs as (Hp & _).
  destruct (plain_fresh p Hp Hpl) as [p0 Hf].
  destruct (received_payload version magic p p0 magic_length Hs Hr Hf) as (s' & Hdes & Hun & Hwf).
  set (m := received _ _ _) in *. assert (Ht : Message.get_type m = payload_type p).
  { unfold Message.get_type, MessageHeader.get_type, MessageHeader.get_definition, m, received.
    change (Message.header_ (body ?h _ _ _ _ _)) with h.
    destruct (classify_frame version version magic p magic_length Hs) as (-> & _). apply ProtocolTheorems.definition_type. }
  unfold handle_complete. rewrite Ht. cbv zeta. unfold op_bind at 1, validate_message_for_protocol_handshake.
  cbv zeta. rewrite (rd_status _ _ _ _ _ R : protocol_handshake_status_ n = _). cbn [Z.eqb kCompleted kNotInitiated].
  assert (Hty : payload_type p <> kVersion /\ payload_type p <> kVerAck /\ payload_type p <> kMissingOrUnknown)
    by (unfold plain in Hpl; by destruct (payload_type p)).
  destruct Hty as (H1' & H2' & H3').
  replace (kCompleted =? kNotInitiated) with false by done. rewrite Z.eqb_refl. cbn [andb].
  rewrite (bool_decide_eq_false_2 (payload_type p = kVersion)), (bool_decide_eq_false_2 (payload_type p = kVerAck)) by done. cbn [orb].
  unfold op_bind at 1, op_assert. rewrite (bool_decide_eq_true_2 (payload_type p <> kMissingOrUnknown)) by done.
  rewrite Hf. rewrite Hdes, (eof_unread s' Hwf Hun). cbn [negb]. rewrite (proj2 (Z.ltb_ge _ _)) by done.
  destruct (process_ok version hub out p time_now now (set_inbound (Some (Message.set_stream s' m)) n) Hd R) as (n2 & Hproc & R').
  unfold op_bind. rewrite Hproc. eexists. split; [done|]. by destruct R'.
Qed.
(** ** The octets of a stream of messages *)

Definition stream_bytes (version : Z) (ps : list MessagePayload) : Bytes := concat (payload_frame version magic <$> ps).

(** The number of messages that are complete within the first [l] octets. *)
Fixpoint complete (version : Z) (ps : list MessagePayload) (l : Z) : nat :=
  match ps with
  | [] => 0%nat
  | p :: ps =>
      let f := zlen (payload_frame version magic p) in
      if f <=? l then S (complete version ps (l - f)) else 0%nat
  end.

Lemma complete_le version ps : forall l, (complete version ps l <= length ps)%nat.
Proof. induction ps as [|p ps IH]; intros l; simpl; [lia|]. case_cmp; [|lia]. specialize (IH (l - zlen (payload_frame version magic p))). lia. Qed.

(** A proper prefix of a message is an incomplete message. *)
Lemma classify_prefix version a b p : deliverable version p -> a ++ b = payload_frame version magic p -> b <> [] ->
  incomplete (classify version magic a) = true.
Proof.
  intros (Hs & _) E Hb. destruct (incomplete _) eqn:Ei; [done|]. exfalso.
  destruct (classify_frame version version magic p magic_length Hs) as (_ & Hf & _ & _ & Hc).
  pose proof (classify_app version magic a b Ei) as Ha. rewrite E, Hc in Ha. symmetry in Ha. apply classify_success in Ha as [H1' H2'].
  rewrite <- (frame_length_app a b), E, Hf, <- E, zlen_app in H2' by done. destruct b as [|x b]; [done|].
  rewrite zlen_cons in H2'. pose proof (zlen_nonneg b). lia.
Qed.

(** The first message of a stream is found, whatever follows. *)
Lemma classify_first version p rest : deliverable version p ->
  classify version magic (payload_frame version magic p ++ rest) = Success () /\
  frame_length (payload_frame version magic p ++ rest) = zlen (payload_frame version magic p).
Proof.
  intros (Hs & _). destruct (classify_frame version version magic p magic_length Hs) as (_ & Hf & _ & _ & Hc).
  split; [by rewrite classify_app; rewrite Hc|]. rewrite frame_length_app; [done|]. by apply (classify_success version magic).
Qed.

Lemma frame_ok version p : deliverable version p -> bytes_ok (payload_frame version magic p).
Proof. intros ((_ & _ & Hb & _) & _). by apply frame_bytes_ok. Qed.

Lemma stream_ok version ps : Forall (deliverable version) ps -> bytes_ok (stream_bytes version ps).
Proof.
  induction 1 as [|p ps Hp _ IH]; [by apply Forall_nil|]. unfold stream_bytes. cbn [fmap list_fmap concat].
  apply bytes_ok_app. split; [by apply frame_ok | done].
Qed.

(** The message that the next octets are given to. *)
Lemma current_ok version acc hub out now n : reading version acc hub out n ->
  exists m n1, current_inbound settings now n = (m, n1) /\ receiving (stream version) magic acc m /\
    reading version [] hub out (set_inbound None n1).
Proof.
  intros [R1 R2 R3 R4 R5 R6 R7]. unfold current_inbound. destruct (inbound_message_ n) as [m|] eqn:E.
  - exists m, n. by split_and!.
  - subst acc. rewrite R3. eexists _, _. split; [done|]. split; [apply receiving_make | by split].
Qed.

(** The octets of the first messages, and what is made of them. *)
Definition hub_of (version : Z) (ps : list MessagePayload) : list MessagePayload := omap (forwarded version) ps.
Definition replies_of (version : Z) (ps : list MessagePayload) : list Bytes :=
  payload_frame version magic <$> omap pong ps.

Lemma hub_of_cons version p ps : hub_of version (p :: ps) = option_list (forwarded version p) ++ hub_of version ps.
Proof. unfold hub_of. simpl. by destruct (forwarded version p). Qed.
Lemma replies_of_cons version p ps :
  replies_of version (p :: ps) = (payload_frame version magic <$> option_list (pong p)) ++ replies_of version ps.
Proof. unfold replies_of. simpl. by destruct (pong p). Qed.

(** One write: the first message is either incomplete with these octets, or
    complete and leaves the octets that follow. *)
Lemma write_first version acc data more p ps m : deliverable version p ->
  receiving (stream version) magic acc m -> data <> [] -> bytes_ok data ->
  acc ++ data ++ more = payload_frame version magic p ++ ps ->
  exists r rest m', Message.write data m = Some (r, rest, m') /\
    (zlen (acc ++ data) < zlen (payload_frame version magic p) ->
       incomplete r = true /\ rest = [] /\ receiving (stream version) magic (acc ++ data) m') /\
    (zlen (payload_frame version magic p) <= zlen (acc ++ data) ->
       r = Success () /\ m' = received (stream version) magic (payload_frame version magic p) /\
       acc ++ data = payload_frame version magic p ++ rest).
Proof.
  intros Hd Hr Hne Hok E. set (f := payload_frame version magic p) in *.
  rewrite app_assoc in E. set (total := acc ++ data) in E |- *. pose proof Hd as (Hs & _).
  destruct (classify_frame version version magic p magic_length Hs) as (_ & Hf & Hmax & _ & Hc). fold f in Hf, Hmax, Hc.
  destruct (app_eq_inv _ _ _ _ E) as [(x & Ht & _)|(x & Ht & _)].
  - assert (Hfit : fits_limit total).
    { intros Hl. rewrite Ht, frame_length_app; [lia|]. by apply (classify_success version magic). }
    destruct (write_ok_step (stream version) magic acc m data Hr Hok Hfit Hne) as ([[r rest] m'] & Hw & W1 & W2 & W3).
    exists r, rest, m'. fold total in W1, W2, W3 |- *. change (SDataStream.version_ (stream version)) with version in W1, W2, W3.
    destruct (classify_first version p x Hd) as [C1 C2]. fold f in C1, C2. rewrite <- Ht in C1, C2. rewrite C1 in W1. subst r.
    split; [done|]. split; [rewrite Ht, zlen_app; pose proof (zlen_nonneg x); lia|]. intros _. destruct (W3 eq_refl) as [-> ->].
    rewrite C2, Ht. rewrite ztake_app_le, ztake_ge, zdrop_app by lia. done.
  - assert (Hfit : fits_limit total).
    { intros Hl. rewrite <- (frame_length_app total x), <- Ht, Hf by done. done. }
    destruct (write_ok_step (stream version) magic acc m data Hr Hok Hfit Hne) as ([[r rest] m'] & Hw & W1 & W2 & W3).
    exists r, rest, m'. fold total in W1, W2, W3 |- *. change (SDataStream.version_ (stream version)) with version in W1, W2, W3. split; [done|].
    destruct x as [|b x].
    + rewrite app_nil_r in Ht. rewrite <- Ht in W1, W3 |- *. rewrite Hc in W1. subst r. split; [lia|]. intros _.
      destruct (W3 eq_refl) as [-> ->]. by rewrite Hf, ztake_ge, zdrop_ge, app_nil_r by lia.
    + split; [|rewrite Ht, zlen_app, zlen_cons; pose proof (zlen_nonneg x); lia]. intros _.
      assert (Hi : incomplete r = true) by (subst r; by eapply (classify_prefix version total (b :: x) p)). split; [done|]. by apply W2.
Qed.

Lemma frame_pos version p : deliverable version p -> 0 < zlen (payload_frame version magic p).
Proof.
  intros (Hs & _). destruct (classify_frame version version magic p magic_length Hs) as (_ & _ & _ & _ & Hc).
  apply classify_success in Hc as [Hc _]. assert (kMessageHeaderLength = 24) by done. lia.
Qed.

(** The loop delivers the messages that are complete and keeps the rest. *)
Lemma parse_loop_ok version time_now now fuel : forall ps acc data more hub out parsed n,
  Forall (deliverable version) ps -> (length data < fuel)%nat -> reading version acc hub out n ->
  acc ++ data ++ more = stream_bytes version ps ->
  (match ps with [] => True | p :: _ => zlen acc < zlen (payload_frame version magic p) end) ->
  forall k, k = complete version ps (zlen (acc ++ data)) ->
  parsed + Z.of_nat k <= kMaxMessagesPerRead ->
  exists n' acc', parse_loop settings average fuel parsed data time_now now n = Some (Success (), n') /\
    reading version acc' (hub ++ hub_of version (take k ps)) (out ++ replies_of version (take k ps)) n' /\
    acc' ++ more = stream_bytes version (drop k ps) /\
    match drop k ps with [] => True | p :: _ => zlen acc' < zlen (payload_frame version magic p) end.
Proof.
  induction fuel as [|fuel IH]; intros ps acc data more hub out parsed n Hps Hfuel R E Hacc k Ek Hk; [lia|].
  cbn [parse_loop]. destruct (decide (data = [])) as [->|Hne].
  { rewrite bool_decide_eq_true_2 by done. exists n, acc. rewrite app_nil_r in Ek.
    assert (Hk0 : k = 0%nat) by (rewrite Ek; destruct ps; [done|]; simpl; case_cmp; [lia | done]).
    rewrite Hk0, take_0, drop_0. cbn [hub_of replies_of omap list_omap fmap list_fmap]. rewrite !app_nil_r. by split_and!. }
  rewrite bool_decide_eq_false_2 by done.
  destruct (current_ok version acc hub out now n R) as (m & n1 & -> & Hrec & R1).
  assert (Hok : bytes_ok data).
  { pose proof (stream_ok version ps Hps) as Hb. rewrite <- E in Hb. apply bytes_ok_app in Hb as [_ Hb]. by apply bytes_ok_app in Hb as [? _]. }
  destruct ps as [|p ps]; [destruct acc; [destruct data; done | done]|].
  apply Forall_cons in Hps as [Hp Hps]. unfold stream_bytes in E. cbn [fmap list_fmap concat] in E.
  destruct (write_first version acc data more p _ m Hp Hrec Hne Hok E) as (r & rest & m' & -> & Hinc & Hcom).
  subst k. cbn [complete] in Hk |- *. cbv zeta. destruct (Z.leb_spec (zlen (payload_frame version magic p)) (zlen (acc ++ data))) as [Hle|Hlt].
  - destruct (Hcom Hle) as (-> & -> & Erest).
    destruct (handle_complete_ok version hub out p (parsed + 1) time_now now
      (set_inbound (Some (received (stream version) magic (payload_frame version magic p))) n1)) as (n2 & -> & R2); [done | lia | done |].
    rewrite Erest in Hk |- *. rewrite zlen_app in Hk |- *.
    replace (_ + zlen rest - _) with (zlen ([] ++ rest)) in Hk |- * by (simpl; lia).
    cbn [take drop]. rewrite hub_of_cons, replies_of_cons, !app_assoc.
    apply (IH ps [] rest more _ _ (parsed + 1)); try done.
    + apply (f_equal length) in Erest. rewrite !length_app in Erest. destruct data as [|d data']; [done|]. simpl in *.
      destruct ps; simpl in *; lia.
    + rewrite app_assoc, Erest, <- app_assoc in E. by apply app_inv_head in E.
    + destruct ps as [|q ps]; [done|]. apply Forall_cons in Hps as [Hq _].
      by apply frame_pos.
    + lia.
  - destruct (Hinc Hlt) as (Hi & -> & Hrec'). cbn [take drop].
    assert (Hstep : exists n' acc', parse_loop settings average fuel parsed [] time_now now (set_inbound (Some m') n1) = Some (Success (), n') /\
        reading version acc' (hub ++ hub_of version []) (out ++ replies_of version []) n' /\
        acc' ++ more = stream_bytes version (p :: ps) /\ zlen acc' < zlen (payload_frame version magic p)).
    { destruct fuel as [|fuel']; [destruct data; [done | simpl in Hfuel; lia]|].
      exists (set_inbound (Some m') n1), (acc ++ data). split; [done|]. split_and!; [| by rewrite <- app_assoc | done].
      unfold hub_of, replies_of. cbn [omap list_omap fmap list_fmap]. rewrite !app_nil_r. by destruct R1. }
    change (MessageSpec.incomplete r) with (Node.incomplete r) in Hi.
    destruct r as [[]|e|f]; [done | rewrite Hi; exact Hstep | done].
Qed.
(** ** Reads *)

(** The reads of the socket, each with its times. *)
Fixpoint reads (l : list (Bytes * Z * Z)) (n : t) : option (outcome unit * t) :=
  match l with
  | [] => Some (Success (), n)
  | (data, time_now, now) :: l =>
      match handle_read settings average false data time_now now n with
      | Some (Success _, n') => reads l n'
      | r => r
      end
  end.

Definition read_bytes (l : list (Bytes * Z * Z)) : Bytes := concat ((λ r, r.1.1) <$> l).

(** No read completes more messages than a read may. *)
Fixpoint calm (version : Z) (ps : list MessagePayload) (pending : Z) (l : list (Bytes * Z * Z)) : Prop :=
  match l with
  | [] => True
  | (data, _, _) :: l =>
      let k := complete version ps (pending + zlen data) in
      Z.of_nat k <= kMaxMessagesPerRead /\
      calm version (drop k ps) (pending + zlen data - zlen (stream_bytes version (take k ps))) l
  end.

Lemma handle_read_ok version time_now now ps acc data more hub out n :
  Forall (deliverable version) ps -> data <> [] -> reading version acc hub out n ->
  acc ++ data ++ more = stream_bytes version ps ->
  (match ps with [] => True | p :: _ => zlen acc < zlen (payload_frame version magic p) end) ->
  forall k, k = complete version ps (zlen (acc ++ data)) -> Z.of_nat k <= kMaxMessagesPerRead ->
  exists n' acc', handle_read settings average false data time_now now n = Some (Success (), n') /\
    reading version acc' (hub ++ hub_of version (take k ps)) (out ++ replies_of version (take k ps)) n' /\
    acc' ++ more = stream_bytes version (drop k ps) /\
    match drop k ps with [] => True | p :: _ => zlen acc' < zlen (payload_frame version magic p) end.
Proof.
  intros Hps Hne R E Hacc k Ek Hk. unfold handle_read. rewrite (rd_running _ _ _ _ _ R). cbn [negb].
  rewrite bool_decide_eq_false_2 by done. cbv zeta. set (n1 := set_events _ _).
  assert (R1 : reading version acc hub out n1).
  { destruct R as [R1 R2 R3 R4 R5 R6 R7]. split; try done. unfold n1, messages. cbn. by rewrite omap_app, app_nil_r. }
  destruct (parse_loop_ok version time_now now (S (length data)) ps acc data more hub out 0 n1 Hps ltac:(lia) R1 E Hacc k Ek)
    as (n' & acc' & Hp & R' & E' & Hacc'); [lia|].
  unfold parse_messages. rewrite Hp. eexists _, acc'. split; [done|]. split_and!; [|done|done].
  destruct R'. split; try done. cbn. set_solver.
Qed.

(** How many messages are complete after a read depends on the octets alone. *)
Lemma complete_split version ps : forall l x, 0 <= x -> let k := complete version ps l in
  complete version ps (l + x) = (k + complete version (drop k ps) (l - zlen (stream_bytes version (take k ps)) + x))%nat.
Proof.
  induction ps as [|p ps IH]; intros l x Hx; [done|]. cbn [complete]. cbv zeta.
  set (f := zlen (payload_frame version magic p)). destruct (Z.leb_spec f l) as [Hl|Hl].
  - rewrite (proj2 (Z.leb_le f (l + x))) by lia. replace (l + x - f) with (l - f + x) by lia. rewrite (IH (l - f) x Hx).
    cbn [take drop]. unfold stream_bytes. cbn [fmap list_fmap concat]. rewrite zlen_app. fold f.
    fold (stream_bytes version (take (complete version ps (l - f)) ps)). rewrite Nat.add_succ_l. do 3 f_equal.
    rewrite Z.sub_add_distr. done.
  - cbn [take drop]. change (zlen (stream_bytes version [])) with 0. rewrite Z.sub_0_r. done.
Qed.

Lemma stream_bytes_split version ps k : zlen (stream_bytes version ps) =
  zlen (stream_bytes version (take k ps)) + zlen (stream_bytes version (drop k ps)).
Proof. rewrite <- zlen_app. unfold stream_bytes. by rewrite <- concat_app, <- fmap_app, take_drop. Qed.

Lemma reads_ok version l : forall ps acc more hub out n,
  Forall (deliverable version) ps -> Forall (λ r, r.1.1 <> []) l -> reading version acc hub out n ->
  acc ++ read_bytes l ++ more = stream_bytes version ps ->
  (match ps with [] => True | p :: _ => zlen acc < zlen (payload_frame version magic p) end) ->
  calm version ps (zlen acc) l ->
  let k := complete version ps (zlen (acc ++ read_bytes l)) in
  exists n' acc', reads l n = Some (Success (), n') /\
    reading version acc' (hub ++ hub_of version (take k ps)) (out ++ replies_of version (take k ps)) n' /\
    acc' ++ more = stream_bytes version (drop k ps).
Proof.
  induction l as [|[[data time_now] now] l IH]; intros ps acc more hub out n Hps Hl R E Hacc Hc k.
  { exists n, acc. assert (Hk : k = 0%nat) by (unfold k, read_bytes; cbn; rewrite app_nil_r; destruct ps; [done|]; simpl; case_cmp; [lia|done]).
    rewrite Hk, take_0, drop_0. unfold hub_of, replies_of. cbn [omap list_omap fmap list_fmap]. rewrite !app_nil_r. by split_and!. }
  unfold read_bytes in E, k |- *. cbn [fmap list_fmap concat fst] in E, k |- *. fold (read_bytes l) in E, k |- *.
  apply Forall_cons in Hl as [Hne Hl]. cbn [calm] in Hc. destruct Hc as [Hk1 Hc].
  rewrite <- zlen_app in Hk1, Hc. set (k1 := complete version ps (zlen (acc ++ data))) in *.
  rewrite <- app_assoc in E.
  destruct (handle_read_ok version time_now now ps acc data (read_bytes l ++ more) hub out n Hps Hne R E Hacc k1 eq_refl Hk1)
    as (n1 & acc1 & Hr & R1 & E1 & Hacc1). cbn [reads]. rewrite Hr.
  assert (Hz : zlen (acc ++ data) - zlen (stream_bytes version (take k1 ps)) = zlen acc1).
  { apply (f_equal (λ b, zlen b)) in E, E1. rewrite (stream_bytes_split version ps k1), <- E1 in E.
    rewrite !length_app, !Nat2Z.inj_add in E. rewrite zlen_app. lia. }
  rewrite Hz in Hc.
  destruct (IH (drop k1 ps) acc1 more _ _ n1 (Forall_drop _ _ _ Hps) Hl R1 E1 Hacc1 Hc) as (n' & acc' & Hr' & R' & E').
  exists n', acc'. split; [done|].
  assert (Hk : k = (k1 + complete version (drop k1 ps) (zlen (acc1 ++ read_bytes l)))%nat).
  { unfold k. rewrite app_assoc, (zlen_app (acc ++ data)), complete_split by apply zlen_nonneg. fold k1. by rewrite Hz, <- zlen_app. }
  set (k2 := complete version (drop k1 ps) (zlen (acc1 ++ read_bytes l))) in *.
  assert (Htake : take k ps = take k1 ps ++ take k2 (drop k1 ps)) by (by rewrite Hk, take_take_drop).
  rewrite Htake. unfold hub_of, replies_of in R' |- *. rewrite !omap_app, fmap_app, !app_assoc. split; [done|].
  by rewrite Hk, <- drop_drop.
Qed.

(** C2: A connected node receives what the peer sends, of the types that a peer may send at any time: mempool, ping,
    getheaders of at most 160 hashes, addr, inv, getdata, notfound and reject, each within the limits of the protocol, without
    repeated items and not longer than its definition allows.  When the octets of a stream of such messages arrive, in non-empty reads of any size that
    complete no more than 32 messages each, every read succeeds and the connection stays; the messages
    that are complete have been forwarded to the node hub, as they are decoded, each once and
    in order, except for the pings, each of which has been answered by a pong
    with its nonce.  The other types are left out: version and verack belong to the handshake, getaddr and pong depend on what the node
    has done before, and a headers message, for which the code has no payload, is refused. *)
Theorem stream_delivery (version : Z) (ps : list MessagePayload) (l : list (Bytes * Z * Z)) (more : Bytes) (n : t) :
  is_running n = true -> protocol_handshake_status_ n = kCompleted -> version_ n = version ->
  inbound_message_ n = None -> TStop ∉ posted_ n ->
  Forall (deliverable version) ps -> Forall (λ r, r.1.1 <> []) l ->
  read_bytes l ++ more = stream_bytes version ps -> calm version ps 0 l ->
  let received := take (complete version ps (zlen (read_bytes l))) ps in
  exists n', reads l n = Some (Success (), n') /\ (TStop ∉ posted_ n') /\
    messages (events_ n') = messages (events_ n) ++ hub_of version received /\
    queued_frames n' = queued_frames n ++ replies_of version received.
Proof.
  intros R1 R2 R3 R4 R7 Hps Hl E Hc received.
  destruct (reads_ok version l ps [] more (messages (events_ n)) (queued_frames n) n) as (n' & acc' & Hr & [] & _); try done.
  - split; try done. by rewrite R4.
  - destruct Hps as [|p ps' Hp _]; [done|]. by apply frame_pos.
  - by exists n'.
Qed.
End delivery.

(** A ping and an inventory, cut after ten octets. *)
Definition sample_stream : list MessagePayload := [sample_ping; sample_inv].
Definition sample_octets : Bytes := @stream_bytes model_crypto NodeFacts.sample_settings 170002 sample_stream.

Lemma stream_delivery_witness : exists n',
  @reads model_boost model_crypto NodeFacts.sample_settings (λ a _, a) [(ztake 10 sample_octets, 1, 2); (zdrop 10 sample_octets, 3, 4)]
    (NodeFacts.sample_node kCompleted) = Some (Success (), n') /\ messages (events_ n') = [sample_inv].
Proof.
  destruct (@stream_delivery model_boost model_boost_laws model_crypto model_crypto_laws NodeFacts.sample_settings (λ a _, a)
    ltac:(done) ltac:(decide_now) 170002 sample_stream [(ztake 10 sample_octets, 1, 2); (zdrop 10 sample_octets, 3, 4)] []
    (NodeFacts.sample_node kCompleted)) as (n' & Hr & _ & He & _).
  - done.
  - done.
  - done.
  - done.
  - cbn. set_solver.
  - repeat apply Forall_cons_2; [| |apply Forall_nil_2]; (split; [|done]).
    + split; [by split; [left|]|]. split; [apply NoDup_nil_2|]. split; [decide_now | by vm_compute].
    + split; [exact sample_inventory_ok|]. split; [decide_now|]. split; [decide_now | by vm_compute].
  - repeat apply Forall_cons_2; [by vm_compute | by vm_compute | apply Forall_nil_2].
  - by vm_compute.
  - vm_compute. repeat split; intros; discriminate.
  - exists n'. split; [exact Hr|]. rewrite He. by vm_compute.
Defined.
End Delivery.
