(* ===== verification/Session.v ===== *)
(** * The session of a node

    [Node.v] gives the handlers of a node one by one; here they are put together as
    [src/src/node/network/node.cpp] puts them together.  A session is a node with the
    asynchronous operations that are under way on its socket: the TLS handshake, reads and
    writes.  Its steps are the tasks that have been posted to the strand, in their order, the
    completions of the operations, the ping timer, and what the hub asks for.

    The source posts to the strand what starts an operation, but binds no completion to it; here
    every handler is one step.  The task that starts the TLS handshake may be run at any
    time, which is more than the strand allows. *)

From stdpp Require Import gmap.
From S2P Require Import Prelude Text Stream Boost Serialize Types Protocol Misc Addresses Payloads Message Meters Node.
#[local] Open Scope Z_scope.

Module Session.
Import Node.

(** Where the TLS handshake is: there is none to come, [start_ssl_handshake] has been posted,
    or [async_handshake] is under way. *)
Inductive tls_phase := Settled | Posted | Pending.

#[global] Instance tls_phase_dec : EqDecision tls_phase.
Proof. solve_decision. Defined.

(** [reads], [writes]: operations on the socket under way. *)
Record state := mk_state { node : Node.t; tls : tls_phase; reads : Z; writes : Z }.

Inductive event :=
| Run (now nonce random_milliseconds : Z)
| RunHandshake
| HandshakeDone (failed : bool)
| ReadDone (failed : bool) (data : Bytes) (time_now now : Z)
| WriteDone (failed : bool) (bytes_transferred : Z)
| PingTimer (nonce random_milliseconds interval : Z)
| Push (payload : MessagePayload) (priority : MessagePriority)
| RequestStop.

Section Session.
Context `{Boost} `{Crypto}.
Variable settings : NetworkSettings.
Variable pick : list queue_item -> nat.
Variable average : Z -> Z -> Z.

Definition set_node (n : Node.t) (s : state) : state := mk_state n (tls s) (reads s) (writes s).

(** The session goes on after an operation unless the process has ended. *)
Definition after {A} (r : outcome A * Node.t) (k : Node.t -> state) : option state :=
  match r with (Fault _, _) => None | (_, n) => Some (k n) end.

Definition start_read (s : state) : state :=
  if socket_open_ (node s) then mk_state (node s) (tls s) (reads s + 1) (writes s) else s.

(** Whether [start_write] comes to [async_write_some]. *)
Definition submits (now : Z) (n : Node.t) : bool :=
  socket_open_ n && negb (is_writing_ n) &&
  match load_outbound pick (retire_outbound now (set_writing true n)) with
  | None => false
  | Some (m, n) =>
      negb (Message.tellg m =? 0) ||
      match validate_message_for_protocol_handshake kDirOutbound (Message.get_type m) n with (Success _, _) => true | _ => false end
  end.

(** Whether [handle_write] does, for what is left of the send buffer. *)
Definition resubmits (failed : bool) (n n' : Node.t) : bool :=
  is_running n && negb failed && negb (zlen (send_buffer_ n') =? 0).

Definition run_task (k : task) (now nonce random_milliseconds : Z) (s : state) : option state :=
  let n := node s in
  match k with
  | TStop => after (stop n) (λ n, set_node n s)
  | TStartRead => Some (start_read s)
  | TStartWrite =>
      after (start_write pick now n) (λ n', mk_state n' (tls s) (reads s) (writes s + if submits now n then 1 else 0))
  | THandshakeCompleted => after (on_handshake_completed settings nonce random_milliseconds n) (λ n, set_node n s)
  | TStopCompleted => after (on_stop_completed n) (λ n, set_node n s)
  end.

Definition start_ssl_handshake (s : state) : state :=
  mk_state (node s) (if socket_open_ (node s) then Pending else Settled) (reads s) (writes s).

Definition handle_ssl_handshake (failed : bool) (s : state) : option state :=
  let s := mk_state (node s) Settled (reads s) (writes s) in
  if failed then after (post TStop (node s)) (λ n, set_node n s)
  else
    let s := start_read s in
    if bool_decide (type_ (node s) <> kInbound)
    then after (ignore (push_local_version settings kNormal) (node s)) (λ n, set_node n s)
    else Some s.

(** The state after an event; none when it cannot take place, or ends the process. *)
Definition step (e : event) (s : state) : option state :=
  let n := node s in
  match e with
  | Run now nonce random_milliseconds =>
      match posted_ n with
      | [] => None
      | k :: rest => run_task k now nonce random_milliseconds (set_node (set_posted rest n) s)
      end
  | RunHandshake => if bool_decide (tls s = Posted) then Some (start_ssl_handshake s) else None
  | HandshakeDone failed => if bool_decide (tls s = Pending) then handle_ssl_handshake failed s else None
  | ReadDone failed data time_now now =>
      if 0 <? reads s then
        match handle_read settings average failed data time_now now n with
        | None | Some (Fault _, _) => None
        | Some (_, n') => Some (mk_state n' (tls s) (reads s - 1) (writes s))
        end
      else None
  | WriteDone failed bytes_transferred =>
      if 0 <? writes s then
        after (handle_write failed bytes_transferred n)
          (λ n', mk_state n' (tls s) (reads s) (writes s - 1 + if resubmits failed n n' then 1 else 0))
      else None
  | PingTimer nonce random_milliseconds interval =>
      if ping_timer_ n then after (on_ping_timer_expired settings nonce random_milliseconds interval n) (λ n, set_node n s)
      else None
  | Push payload priority => after (push_message settings payload priority n) (λ n, set_node n s)
  | RequestStop => after (stop n) (λ n, set_node n s)
  end.

Fixpoint run (l : list event) (s : state) : option state :=
  match l with
  | [] => Some s
  | e :: l => match step e s with Some s => run l s | None => None end
  end.

(** [Node::start] of a node with an SSL context: the read and the first message wait for the
    handshake. *)
Definition start_tls (now : Z) (n : Node.t) : bool * state :=
  let (started, st) := Stoppable.start (state_ n) in
  if negb started then (false, mk_state n Settled 0 0)
  else (true, mk_state (set_connected now (set_sent now (set_received now (set_state st n)))) Posted 0 0).

(** [Node::start], with and without an SSL context. *)
Definition start (ssl_context : bool) (now : Z) (n : Node.t) : option state :=
  if ssl_context then Some (start_tls now n).2
  else after (Node.start settings now n) (λ n, mk_state n Settled 0 0).

End Session.
End Session.
