(* ===== verification/SessionFacts.v ===== *)
(** * Properties of sessions

    What holds over every history of a session ([Session.v]): one reader and one writer, a node
    that runs is never stuck, and the hub is told of the end once. *)

From stdpp Require Import gmap.
From S2P Require Import Prelude Text Stream Boost Serialize Types Protocol Misc Addresses Payloads Message Meters Node NodeFacts Session.
#[local] Open Scope Z_scope.

Module SessionFacts.
Import Node Session NodeFacts.

(** How often a task has been posted. *)
Definition tasks (k : task) (l : list task) : Z := zlen (filter (λ x, x = k) l).

Lemma tasks_app k l l' : tasks k (l ++ l') = tasks k l + tasks k l'.
Proof. unfold tasks. rewrite filter_app, length_app. lia. Qed.
Lemma tasks_cons k x l : tasks k (x :: l) = (if decide (x = k) then 1 else 0) + tasks k l.
Proof. unfold tasks. rewrite filter_cons. destruct (decide (x = k)); rewrite ?length_cons; lia. Qed.
Lemma tasks_nil k : tasks k [] = 0.
Proof. done. Qed.
Lemma tasks_nonneg k l : 0 <= tasks k l.
Proof. unfold tasks. lia. Qed.
Lemma tasks_elem k l : k ∈ l <-> 0 < tasks k l.
Proof.
  induction l as [|x l IH]; [rewrite tasks_nil; split; [by intros ?%elem_of_nil | lia]|]. rewrite tasks_cons, elem_of_cons, IH.
  pose proof (tasks_nonneg k l). case_decide; split; intros; naive_solver lia.
Qed.
Lemma tasks_none k l : Forall (λ x, x <> k) l -> tasks k l = 0.
Proof. induction 1 as [|x l Hx _ IH]; [done|]. rewrite tasks_cons, IH. by rewrite decide_False. Qed.

(** Tasks that a handler leaves while the node runs, and what it tells the hub. *)
Definition harmless (k : task) : Prop := k = TStartWrite \/ k = THandshakeCompleted.
Definition told (e : Node.event) : Prop := e <> EDisconnected.

(** A handler that only adds messages to the queue, with the task that sends them. *)
Record grows (n n' : t) : Prop := {
  gr_state : state_ n' = state_ n;
  gr_socket : socket_open_ n' = socket_open_ n;
  gr_writing : is_writing_ n' = is_writing_ n;
  gr_buffers : send_buffer_ n' = send_buffer_ n /\ outbound_message_ n' = outbound_message_ n /\ wire_ n' = wire_ n;
  gr_posted : exists l, posted_ n' = posted_ n ++ l /\ Forall harmless l /\
    (outbound_messages_queue_ n' = outbound_messages_queue_ n \/ TStartWrite ∈ l);
  gr_events : exists l, events_ n' = events_ n ++ l /\ Forall told l;
}.

#[global] Instance grows_refl : Reflexive grows.
Proof.
  intros n. split; try done; exists []; rewrite app_nil_r; [|by split; [|apply Forall_nil_2]].
  split_and!; [done | apply Forall_nil_2 | by left].
Qed.

#[global] Instance grows_trans : Transitive grows.
Proof.
  intros n1 n2 n3 [A1 A2 A3 (A4 & A5 & A6) (l & A7 & A8 & A9) (e & A10 & A11)] [B1 B2 B3 (B4 & B5 & B6) (k & B7 & B8 & B9) (f & B10 & B11)].
  split; try congruence; [split_and!; congruence | exists (l ++ k) | exists (e ++ f)].
  - rewrite B7, A7, <- app_assoc. split_and!; [done | by apply Forall_app|]. rewrite elem_of_app.
    destruct A9 as [E1|]; [|by right; left]. destruct B9 as [E2|]; [left; congruence | by right; right].
  - rewrite B10, A10, <- app_assoc. split; [done | by apply Forall_app].
Qed.

Definition op_grows {A} (m : op t A) : Prop := forall n, grows n (m n).2.

Lemma grows_bind {A B} (m : op t A) (k : A -> op t B) : op_grows m -> (forall a, op_grows (k a)) -> op_grows (op_bind m k).
Proof.
  intros Hm Hk n. unfold op_bind. specialize (Hm n). destruct (m n) as [[a|e|f] n1]; [|exact Hm..]. cbn [snd] in Hm.
  etrans; [exact Hm|]. apply Hk.
Qed.
Lemma grows_ret {A} (a : A) : op_grows (op_ret a).
Proof. intros n. done. Qed.
Lemma grows_ignore {A} (m : op t A) : op_grows m -> op_grows (ignore m).
Proof. intros Hm n. specialize (Hm n). unfold ignore. by destruct (m n) as [[a|e|f] n1]. Qed.

(** A change that leaves alone all that [grows] is about. *)
Definition aside (f : t -> t) : Prop := forall n, state_ (f n) = state_ n /\ socket_open_ (f n) = socket_open_ n /\ is_writing_ (f n) = is_writing_ n /\
  send_buffer_ (f n) = send_buffer_ n /\ outbound_message_ (f n) = outbound_message_ n /\ wire_ (f n) = wire_ n /\
  posted_ (f n) = posted_ n /\ outbound_messages_queue_ (f n) = outbound_messages_queue_ n /\ events_ (f n) = events_ n.

Lemma grows_aside f n : aside f -> grows n (f n).
Proof.
  intros Hf. destruct (Hf n) as (E1 & E2 & E3 & E4 & E5 & E6 & E7 & E8 & E9). split; try done; exists []; rewrite app_nil_r; [|by split; [|apply Forall_nil_2]].
  split_and!; [done | apply Forall_nil_2 | by left].
Qed.

Lemma grows_modify f : aside f -> op_grows (modify f).
Proof. intros Hf n. by apply grows_aside. Qed.

Lemma grows_notify e : told e -> op_grows (notify e).
Proof.
  intros He n. split; try done; [exists []; rewrite app_nil_r; split_and!; [done | apply Forall_nil_2 | by left]|].
  exists [e]. split; [done|]. by apply Forall_singleton.
Qed.

Lemma grows_post k : harmless k -> op_grows (post k).
Proof.
  intros Hk n. split; try done; [exists [k]; split_and!; [done | by apply Forall_singleton | by left]|].
  exists []. rewrite app_nil_r. split; [done | apply Forall_nil_2].
Qed.

Create HintDb session.
#[export] Hint Resolve grows_bind grows_ret grows_ignore grows_modify grows_notify grows_post : session.

Lemma grows_validate d ty : op_grows (validate_message_for_protocol_handshake d ty).
Proof.
  intros n. unfold validate_message_for_protocol_handshake. cbv zeta.
  repeat match goal with |- context [if ?c then _ else _] => destruct c end; try done.
  - assert (W : op_grows (modify (set_status (Z.lor (protocol_handshake_status_ n) (handshake_flag d ty))) >>; post THandshakeCompleted)).
    { apply grows_bind; [by apply grows_modify | intros; apply grows_post; by right]. }
    apply W.
  - by apply grows_aside.
Qed.

Section Grows.
Context `{Boost} `{Crypto}.
Variable settings : NetworkSettings.
Variable average : Z -> Z -> Z.

Lemma grows_push p priority : op_grows (push_message settings p priority).
Proof.
  intros n. unfold push_message. destruct (Message.push _ _) as [[[u|e|f] p'] m]; [|done..].
  split; try done; [exists [TStartWrite]; split_and!; [done | by apply Forall_singleton; left | right; by left]|].
  exists []. rewrite app_nil_r. split; [done | apply Forall_nil_2].
Qed.

Lemma grows_push_null ty priority : op_grows (push_null settings ty priority).
Proof.
  intros n. unfold push_null. destruct (make_null ty); [|done..].
  apply (grows_bind (push_message settings a priority) (λ _, op_ret ())); [apply grows_push | intros; apply grows_ret].
Qed.

Lemma grows_push_local priority : op_grows (push_local_version settings priority).
Proof.
  intros n. unfold push_local_version. pose proof (grows_push (MsgVersion (local_version_ n)) priority n) as W.
  destruct (push_message _ _ _ n) as [[[]|e|f] n']; try done. cbn [snd] in *. etrans; [exact W|]. by apply grows_aside.
Qed.

#[local] Hint Resolve grows_push grows_push_null grows_push_local grows_validate : session.

Lemma grows_if (b : t -> bool) {A} (m m' : op t A) : op_grows m -> op_grows m' -> op_grows (λ n, if b n then m n else m' n).
Proof. intros Hm Hm' n. cbn beta. destruct (b n); [apply Hm | apply Hm']. Qed.

Lemma grows_version remote : op_grows (process_version settings remote).
Proof.
  intros n. unfold process_version. cbv zeta. do 2 (case_match; [done|]).
  match goal with |- grows n (?m n).2 => enough (W : op_grows m) by apply W end.
  apply grows_bind; [by apply grows_modify | intros _]. apply grows_bind; [by apply grows_modify | intros _].
  apply grows_bind; [|intros _; apply grows_bind; [auto with session | intros _; apply grows_ret]].
  apply (grows_if (λ n, Z.land (protocol_handshake_status_ n) kVersionSent =? 0) (ignore (push_local_version settings kHigh)) (op_ret ()));
    [auto with session | apply grows_ret].
Qed.

Lemma grows_pong nonce time_now now : op_grows (process_pong average nonce time_now now).
Proof.
  intros n. unfold process_pong. destruct (PingMeter.pending_sample (ping_meter_ n)), (PingMeter.get_nonce (ping_meter_ n)); try done.
  destruct (negb _); [done|]. destruct (PingMeter.end_sample average time_now now (ping_meter_ n)) as [r p]. by apply (grows_aside (set_ping p)).
Qed.

Lemma grows_by_type p time_now now : op_grows (process_by_type settings average p time_now now).
Proof.
  unfold process_by_type. destruct p as [ty|v|ty nonce|g|l|ty l|r]; try apply grows_ret.
  - destruct ty; try apply grows_ret. intros n. by case_match.
  - apply grows_bind; [apply grows_version | intros; apply grows_ret].
  - destruct ty; try apply grows_ret; apply grows_bind; auto using grows_pong, grows_ret with session.
Qed.

Lemma grows_inbound p time_now now : op_grows (process_inbound_message settings average p time_now now).
Proof.
  apply grows_bind; [apply grows_by_type | intros forward]. apply grows_bind; [|intros _; destruct forward; [by apply grows_notify | apply grows_ret]].
  case_match; [by apply grows_modify | apply grows_ret].
Qed.

Lemma grows_complete m k time_now now : op_grows (handle_complete settings average m k time_now now).
Proof.
  apply grows_bind; [auto with session | intros _]. apply grows_bind; [intros n; unfold op_assert; by case_match | intros _].
  intros n. destruct (from_type _) as [[p0|]|e|f]; try done. destruct (deserialize _ _ _) as [[r payload] s].
  set (m' := Message.set_stream s m). set (n1 := set_inbound (Some m') n). assert (E1 : grows n n1) by by apply grows_aside.
  destruct r; [|done..]. do 2 (case_match; [done|]). etrans; [exact E1|]. cbv zeta. fold n1.
  match goal with |- grows _ (?m n1).2 => enough (W : op_grows m) by apply W end.
  apply grows_bind; [apply grows_inbound | intros _]. apply grows_bind; intros; by apply grows_modify.
Qed.

Lemma grows_parse fuel k data time_now now n r n' : parse_loop settings average fuel k data time_now now n = Some (r, n') -> grows n n'.
Proof.
  revert k data n. induction fuel as [|fuel IH]; intros k data n; [done|]. cbn [parse_loop]. case_match; [by intros [= _ <-]|].
  destruct (current_inbound settings now n) as [m n1] eqn:E1. assert (G1 : grows n n1).
  { unfold current_inbound in E1. destruct (inbound_message_ n); simplify_eq; [done|].
    match goal with |- grows _ (set_inbound ?m _) => by apply (grows_aside (λ n, set_inbound m (set_inbound_start (Some now) n))) end. }
  destruct (Message.write data m) as [[[r1 data'] m']|]; [|done].
  set (n2 := set_inbound (Some m') n1). assert (G2 : grows n n2) by (etrans; [exact G1 | by apply grows_aside]).
  assert (Hfail : forall x, grows n x -> grows n (set_inbound_start None (set_inbound None x)))
    by (intros x Hx; etrans; [exact Hx | by apply (grows_aside (λ n, set_inbound_start None (set_inbound None n)))]).
  destruct r1 as [u|e|f].
  - pose proof (grows_complete m' (k + 1) time_now now n2) as G3. destruct (handle_complete _ _ _ _ _ _ n2) as [[v|e|f] n3]; cbn [snd] in G3.
    + intros E%IH. etrans; [exact G2|]. etrans; [exact G3 | exact E].
    + case_match; [intros E%IH; etrans; [exact G2|]; etrans; [exact G3 | exact E]|]. intros [= _ <-]. apply Hfail. etrans; [exact G2 | exact G3].
    + intros [= _ <-]. etrans; [exact G2 | exact G3].
  - case_match; [intros E%IH; etrans; [exact G2 | exact E]|]. intros [= _ <-]. by apply Hfail.
  - intros [= _ <-]. exact G2.
Qed.

(** The end of a read: nothing once the node stops, and else one more task, which goes on or
    stops. *)
Lemma read_done failed data time_now now n r n' : handle_read settings average failed data time_now now n = Some (r, n') ->
  (forall f, r <> Fault f) ->
  if is_running n then exists n1 k, grows n n1 /\ n' = set_posted (posted_ n1 ++ [k]) n1 /\ (k = TStop \/ k = TStartRead) else n' = n.
Proof.
  unfold handle_read. destruct (is_running n); cbn [negb]; [|by intros [= _ <-]]. intros E Hr.
  destruct failed; [injection E as <- <-; exists n, TStop; split_and!; [done | done | by left]|]. case_match; [injection E as <- <-; exists n, TStartRead; split_and!; [done | done | by right]|].
  match type of E with context [parse_messages _ _ _ _ _ ?x] => set (n1 := x) in E end.
  assert (G1 : grows n n1).
  { split; try done; [exists []; rewrite app_nil_r; split_and!; [done | apply Forall_nil_2 | by left]|].
    eexists. split; [done|]. by apply Forall_singleton. }
  destruct (parse_messages settings average data time_now now n1) as [[[u|e|f] n2]|] eqn:E2; [..|done];
    apply grows_parse in E2; injection E as <- <-.
  - exists n2, TStartRead. split_and!; [by etrans | done | by right].
  - exists n2, TStop. split_and!; [by etrans | done | by left].
  - by destruct (Hr f).
Qed.

Lemma grows_ping nonce ms interval n : (is_running n = false -> (on_ping_timer_expired settings nonce ms interval n).2 = n) /\
  let n' := (on_ping_timer_expired settings nonce ms interval n).2 in
  grows n n' \/ (is_running n = true /\ n' = (stop n).2).
Proof.
  unfold on_ping_timer_expired. destruct (is_running n) eqn:Er; cbn [negb orb]; [|split; [done | by left]]. split; [done|].
  destruct (PingMeter.pending_sample (ping_meter_ n)); [by left|]. pose proof (grows_push (MsgPingPong kPing nonce) kHigh n) as W.
  unfold push_message in *. destruct (Message.push _ _) as [[[u|e|f] p'] m]; cbn [snd] in *.
  - left. etrans; [exact W|]. by apply grows_aside.
  - right. split; [done|]. unfold op_bind, ignore. unfold is_running, Stoppable.is_running in Er. unfold stop.
    destruct (state_ n); try done.
  - by left.
Qed.
End Grows.

(** ** The write cycle *)

Section Write.
Context `{Boost} `{Crypto}.
Variable pick : list queue_item -> nat.
Hypothesis picks : pick_ok pick.

Lemma load_none n : load_outbound pick n = None -> outbound_message_ n = None /\ outbound_messages_queue_ n = [].
Proof.
  unfold load_outbound, queue_top. destruct (outbound_message_ n); [done|]. intros E. split; [done|].
  destruct (decide (outbound_messages_queue_ n = [])) as [|Hq]; [done|]. destruct (picks _ Hq) as (i & Ei & _). rewrite Ei in E. by destruct i.
Qed.

Lemma load_some n m n' : load_outbound pick n = Some (m, n') -> state_ n' = state_ n /\ socket_open_ n' = socket_open_ n /\
  events_ n' = events_ n /\ posted_ n' = posted_ n /\ is_writing_ n' = is_writing_ n.
Proof.
  unfold load_outbound, queue_top. destruct (outbound_message_ n); [by intros [= _ <-]|]. destruct (_ !! _) as [[m1 p]|]; [|done]. by intros [= _ <-].
Qed.

Lemma retire_same now n : let n' := retire_outbound now n in state_ n' = state_ n /\ socket_open_ n' = socket_open_ n /\
  events_ n' = events_ n /\ posted_ n' = posted_ n /\ is_writing_ n' = is_writing_ n.
Proof. unfold retire_outbound. cbv zeta. destruct (outbound_message_ n); [|done]. repeat case_match; done. Qed.

Lemma send_chunk_same m n r n' : send_chunk m n = (r, n') -> state_ n' = state_ n /\ socket_open_ n' = socket_open_ n /\
  events_ n' = events_ n /\ posted_ n' = posted_ n /\ is_writing_ n' = is_writing_ n.
Proof. unfold send_chunk. cbv zeta. destruct (Message.on_data _ m) as [[]]; by intros [= _ <-]. Qed.

(** What a call of [start_write] comes to. *)
Definition ending (k : task) : Prop := k = THandshakeCompleted \/ k = TStop.

Lemma start_write_cases now n r n' : start_write pick now n = (r, n') -> (forall f, r <> Fault f) ->
  state_ n' = state_ n /\ socket_open_ n' = socket_open_ n /\ events_ n' = events_ n /\
  exists l, posted_ n' = posted_ n ++ l /\ Forall ending l /\
    (submits pick now n = false /\ is_writing_ n' = is_writing_ n /\
       (socket_open_ n = false \/ is_writing_ n = true \/ TStop ∈ l \/ outbound_message_ n' = None /\ outbound_messages_queue_ n' = []) \/
     submits pick now n = true /\ is_writing_ n = false /\ is_writing_ n' = true).
Proof.
  unfold start_write, submits. destruct (socket_open_ n) eqn:Es; cbn [negb andb];
    [|intros [= _ <-] _; split_and!; [done | done | done | exists []; rewrite app_nil_r; split_and!; [done | apply Forall_nil_2 | by left; auto]]].
  destruct (is_writing_ n) eqn:Ew; cbn [negb andb];
    [intros [= _ <-] _; split_and!; [done | done | done | exists []; rewrite app_nil_r; split_and!; [done | apply Forall_nil_2 | by left; auto]]|].
  pose proof (retire_same now (set_writing true n)) as R. cbv zeta in R |- *. set (n1 := retire_outbound now (set_writing true n)) in *.
  clearbody n1. destruct R as (R1 & R2 & R3 & R4 & R5). destruct (load_outbound pick n1) as [[m n2]|] eqn:El.
  2: { intros [= _ <-] _. apply load_none in El as [El1 El2]. split_and!; [done | by etrans; [exact R2|] | done|].
    exists []. rewrite app_nil_r. split_and!; [done | apply Forall_nil_2 | left; split_and!; [done | done | by do 3 right]]. }
  apply load_some in El as (L1 & L2 & L3 & L4 & L5).
  assert (S2 : state_ n2 = state_ n /\ socket_open_ n2 = true /\ events_ n2 = events_ n /\ posted_ n2 = posted_ n /\ is_writing_ n2 = true)
    by (split_and!; [by rewrite L1 | by rewrite L2, R2 | by rewrite L3 | by rewrite L4 | by rewrite L5]).
  clear R1 R2 R3 R4 R5 L1 L2 L3 L4 L5. destruct S2 as (S1 & S2 & S3 & S4 & S5).
  assert (Done : forall n3 l, state_ n3 = state_ n2 -> socket_open_ n3 = socket_open_ n2 -> events_ n3 = events_ n2 -> posted_ n3 = posted_ n2 ++ l ->
    is_writing_ n3 = is_writing_ n2 -> Forall ending l -> forall b, b = true -> send_chunk m n3 = (r, n') ->
    state_ n' = state_ n /\ socket_open_ n' = true /\ events_ n' = events_ n /\ exists l, posted_ n' = posted_ n ++ l /\ Forall ending l /\
      (b = false /\ is_writing_ n' = false /\ (true = false \/ false = true \/ TStop ∈ l \/ outbound_message_ n' = None /\ outbound_messages_queue_ n' = []) \/
       b = true /\ false = false /\ is_writing_ n' = true)).
  { intros n3 l E1 E2 E3 E4 E5 Hl b -> (F1 & F2 & F3 & F4 & F5)%send_chunk_same. split_and!; [congruence..|]. exists l.
    split_and!; [congruence | done | right; split_and!; [done | done | congruence]]. }
  destruct (Message.tellg m =? 0) eqn:Et; cbn [negb orb].
  - pose proof (grows_validate kDirOutbound (Message.get_type m) n2) as [G1 G2 G3 _ (l & G4 & G5 & _) _].
    assert (Hev : events_ (validate_message_for_protocol_handshake kDirOutbound (Message.get_type m) n2).2 = events_ n2).
    { unfold validate_message_for_protocol_handshake. cbv zeta. repeat case_match; done. }
    assert (Hl : Forall ending l).
    { revert G4. unfold validate_message_for_protocol_handshake. cbv zeta. repeat case_match; cbn; intros E;
        try (rewrite <- (app_nil_r (posted_ n2)) in E at 1; apply app_inv_head in E as <-; apply Forall_nil_2).
      apply app_inv_head in E as <-. by apply Forall_singleton; left. }
    destruct (validate_message_for_protocol_handshake _ _ n2) as [[u|e|f] n3]; cbn [snd] in *; intros E Hr.
    + refine (Done _ l _ _ _ _ _ Hl true eq_refl E); by case_match.
    + injection E as <- <-. split_and!; [cbn; congruence..|]. exists (l ++ [TStop]). split_and!; [cbn; by rewrite G4, S4, app_assoc | |].
      * apply Forall_app; split; [done|]. by apply Forall_singleton; right.
      * left. split_and!; [done | done |]. right; right; left. apply elem_of_app. right. by left.
    + injection E as <- <-. by destruct (Hr f).
  - intros E Hr. refine (Done n2 [] _ _ _ _ _ (Forall_nil_2 _) true eq_refl E); try done. by rewrite app_nil_r.
Qed.

Lemma handle_write_cases failed bytes n r n' : handle_write failed bytes n = (r, n') ->
  state_ n' = state_ n /\ socket_open_ n' = socket_open_ n /\ outbound_messages_queue_ n' = outbound_messages_queue_ n /\
  (exists e, events_ n' = events_ n ++ e /\ Forall told e /\ (is_running n = false -> e = [])) /\
  is_writing_ n' = (if resubmits failed n n' then is_writing_ n else false) /\
  exists l, posted_ n' = posted_ n ++ l /\ Forall (λ k, k = TStop \/ k = TStartWrite) l /\
    (is_running n = true -> resubmits failed n n' = true \/ TStop ∈ l \/ TStartWrite ∈ l).
Proof.
  unfold handle_write, resubmits. destruct (is_running n) eqn:Er; cbn [negb andb];
    [|intros [= _ <-]; split_and!; try done; [exists []; rewrite app_nil_r; auto | exists []; rewrite app_nil_r; auto]].
  destruct failed; cbn [negb andb].
  { intros [= _ <-]. split_and!; try done; [exists []; rewrite app_nil_r; auto|]. exists [TStop]. split_and!; [done | by apply Forall_singleton; left|].
    intros _. right; left. by left. }
  match goal with |- context [if 0 <? bytes then ?x else n] => set (n1 := if 0 <? bytes then x else n) end.
  assert (F : state_ n1 = state_ n /\ socket_open_ n1 = socket_open_ n /\ outbound_messages_queue_ n1 = outbound_messages_queue_ n /\
    (exists e, events_ n1 = events_ n ++ e /\ Forall told e) /\ is_writing_ n1 = is_writing_ n /\ posted_ n1 = posted_ n).
  { unfold n1. destruct (0 <? bytes); split_and!; try done; [by eexists; split; [done|]; apply Forall_singleton | exists []; rewrite app_nil_r; auto]. }
  cbv zeta. clearbody n1. destruct F as (F1 & F2 & F3 & (e & F4 & F5) & F6 & F7). destruct (zlen (send_buffer_ n1) =? 0) eqn:Ez; cbn [negb].
  - intros [= _ <-]. cbn. rewrite Ez. cbn. split_and!; try done; [by exists e|]. exists [TStartWrite].
    split_and!; [by rewrite F7 | by apply Forall_singleton; right | intros _; right; right; by left].
  - intros [= _ <-]. rewrite Ez. cbn. split_and!; try done; [by exists e|]. exists []. rewrite app_nil_r. split_and!; [done | apply Forall_nil_2 | by left].
Qed.
End Write.

(** ** The invariant *)

Definition awaited (s : state) : Z := if bool_decide (tls s = Settled) then 0 else 1.
Definition readers (s : state) : Z := awaited s + reads s + tasks TStartRead (posted_ (node s)).

(** What the state of the node says about the socket, the end and the hub. *)
Definition life_ok (n : t) : Prop :=
  match state_ n with
  | Stoppable.kStarted => socket_open_ n = true /\ tasks TStopCompleted (posted_ n) = 0 /\ Forall told (events_ n)
  | Stoppable.kStopping => socket_open_ n = true /\ tasks TStopCompleted (posted_ n) = 1 /\ Forall told (events_ n)
  | Stoppable.kNotStarted => socket_open_ n = false /\ tasks TStopCompleted (posted_ n) = 0 /\
      exists l, events_ n = l ++ [EDisconnected] /\ Forall told l
  end.

(** There is nothing to send, or a write is under way or will be, or the node will stop. *)
Definition sending (n : t) : Prop :=
  outbound_message_ n = None /\ outbound_messages_queue_ n = [] \/ is_writing_ n = true \/ TStartWrite ∈ posted_ n \/ TStop ∈ posted_ n.

(** At most one reader and one writer, whatever the node does. *)
Record calm (s : state) : Prop := {
  ca_life : life_ok (node s);
  ca_reads : 0 <= reads s;
  ca_readers : readers s <= 1;
  ca_writes : writes s = if is_writing_ (node s) then 1 else 0;
}.

(** A node that runs reads, and sends what there is to send. *)
Record sound (s : state) : Prop := {
  so_calm : calm s;
  so_reading : is_running (node s) = true -> readers s = 1 \/ TStop ∈ posted_ (node s);
  so_sending : is_running (node s) = true -> sending (node s);
}.

Lemma idle_sound s : calm s -> is_running (node s) = false -> sound s.
Proof. intros Hc Hr. split; [done | congruence | congruence]. Qed.

Lemma life_posted n n' l : life_ok n -> state_ n' = state_ n -> socket_open_ n' = socket_open_ n -> posted_ n' = posted_ n ++ l ->
  Forall (λ k, k <> TStopCompleted) l -> (exists e, events_ n' = events_ n ++ e /\ Forall told e /\ (is_running n = false -> e = [])) -> life_ok n'.
Proof.
  unfold life_ok. intros L E1 E2 E3 Hl (e & E4 & He & Hr). rewrite E1, E2, E3, E4, tasks_app, (tasks_none _ _ Hl), Z.add_0_r.
  unfold is_running, Stoppable.is_running in Hr. destruct (state_ n).
  - rewrite Hr, app_nil_r by done. done.
  - destruct L as (? & ? & ?). split_and!; [done | done | by apply Forall_app].
  - rewrite Hr, app_nil_r by done. done.
Qed.

Lemma grows_sound s n' : sound s -> grows (node s) n' -> (is_running (node s) = false -> events_ n' = events_ (node s)) -> sound (set_node n' s).
Proof.
  intros [[S1 S2 S3 S5] S4 S6] [G1 G2 G3 (_ & G4 & _) (l & G5 & G6 & G7) (e & G8 & G9)] He.
  assert (Hn : forall k, ~ harmless k -> Forall (λ x, x <> k) l) by (intros k Hk; eapply Forall_impl; [exact G6|]; intros x Hx ->; by apply Hk).
  assert (R : readers (set_node n' s) = readers s).
  { unfold readers, awaited. cbn [set_node node tls reads]. rewrite G5, tasks_app, (tasks_none TStartRead l); [lia|]. apply Hn. by intros [|]. }
  assert (Hr : is_running n' = is_running (node s)) by (unfold is_running; by rewrite G1).
  split; [split|..]; cbn [set_node node reads writes]; rewrite ?R, ?Hr, ?G3; try done.
  - apply (life_posted (node s) n' l); try done; [apply Hn; by intros [|]|]. exists e. split_and!; [done | done|]. intros Hr'. specialize (He Hr').
    rewrite G8 in He. rewrite <- (app_nil_r (events_ (node s))) in He at 2. by apply app_inv_head in He.
  - intros H'. destruct (S4 H'); [by left | right]. rewrite G5. apply elem_of_app. by left.
  - intros H'. unfold sending. rewrite G3, G4, G5, !elem_of_app. destruct G7 as [-> | Hw]; [|by right; right; left; right].
    destruct (S6 H') as [?|[?|[?|?]]]; auto 6.
Qed.

Lemma aside_sound s f : sound s -> aside f -> sound (set_node (f (node s)) s).
Proof. intros Hs Hf. apply grows_sound; [done | by apply grows_aside | intros _; apply Hf]. Qed.

Lemma stop_sound s : calm s -> sound (set_node (stop (node s)).2 s).
Proof.
  intros [S1 S2 S3 S5]. unfold stop. unfold life_ok in S1. destruct (state_ (node s)) eqn:Es; cbn; apply idle_sound; try done;
    split; unfold readers, awaited, life_ok, is_running in *; cbn in *; rewrite ?Es in *; try done.
  - destruct S1 as (? & E & ?). by rewrite tasks_app, E.
  - rewrite tasks_app. change (tasks TStartRead [TStopCompleted]) with 0. lia.
Qed.

(** Tasks leave the strand one by one. *)
Definition popped (rest : list task) (s : state) : state := set_node (set_posted rest (node s)) s.

Lemma popped_readers s k rest : posted_ (node s) = k :: rest -> readers (popped rest s) = readers s - if decide (k = TStartRead) then 1 else 0.
Proof. intros E. unfold readers, awaited. cbn. rewrite E, tasks_cons. lia. Qed.

Lemma popped_calm s k rest : calm s -> posted_ (node s) = k :: rest -> k <> TStopCompleted -> calm (popped rest s).
Proof.
  intros [S1 S2 S3 S5] E Hk. split; try done; [|rewrite (popped_readers s k rest E); case_decide; lia].
  revert S1. unfold life_ok. cbn. rewrite E, tasks_cons, decide_False by done. by rewrite Z.add_0_l.
Qed.

(** Running any other task than the last one of a node that stops. *)
Lemma popped_sound s rest : sound s -> posted_ (node s) = THandshakeCompleted :: rest -> sound (popped rest s).
Proof.
  intros [C S4 S6] E. split; [by apply (popped_calm s THandshakeCompleted) | |]; cbn; intros Hr.
  - rewrite (popped_readers s _ rest E). rewrite decide_False by done. rewrite E in S4. destruct (S4 Hr) as [|Ht]; [left; lia|].
    right. by apply elem_of_cons in Ht as [|].
  - specialize (S6 Hr). unfold sending in *. cbn. rewrite E, !elem_of_cons in S6. naive_solver.
Qed.

Lemma ended_sound s rest : calm s -> posted_ (node s) = TStopCompleted :: rest -> sound (set_node (on_stop_completed (set_posted rest (node s))).2 s).
Proof.
  intros [S1 S2 S3 S5] E. apply idle_sound; [|done]. split; try done.
  - revert S1. unfold life_ok. cbn. rewrite E, tasks_cons, decide_True by done. pose proof (tasks_nonneg TStopCompleted rest).
    destruct (state_ (node s)); intros (_ & ? & He); [lia | lia |]. split_and!; [done | lia | by eexists].
  - change (readers (popped rest s) <= 1). rewrite (popped_readers s _ rest E). case_decide; lia.
Qed.

Lemma start_read_sound s rest : sound s -> posted_ (node s) = TStartRead :: rest -> sound (start_read (popped rest s)).
Proof.
  intros [C S4 S6] E. pose proof (popped_readers s _ rest E) as Hr. rewrite decide_True in Hr by done. pose proof C as [C1 C2 C3 C4].
  assert (Hp : calm (popped rest s)) by by apply (popped_calm s TStartRead). unfold start_read. destruct (socket_open_ _) eqn:Es.
  - match goal with |- sound ?x => set (s1 := x) end. assert (Hx : readers s1 = readers s) by (unfold readers, awaited in *; cbn in *; lia).
    split; [split; [apply Hp | cbn; lia | by rewrite Hx | done]|..]; rewrite ?Hx; cbn [node].
    + intros H'. destruct (S4 H') as [|Ht]; [by left | right]. cbn. rewrite E in Ht. by apply elem_of_cons in Ht as [|].
    + intros H'. specialize (S6 H'). unfold sending in *. cbn. rewrite E, !elem_of_cons in S6. naive_solver.
  - apply idle_sound; [done|]. unfold is_running. cbn in *. unfold life_ok in C1. destruct (state_ (node s)); [done | | done]. destruct C1; congruence.
Qed.

Section Step.
Context `{Boost} `{Crypto}.
Variable settings : NetworkSettings.
Variable pick : list queue_item -> nat.
Variable average : Z -> Z -> Z.
Hypothesis picks : pick_ok pick.

Lemma after_inv {A} (r : outcome A * t) k s : after r k = Some s -> (forall f, r.1 <> Fault f) /\ s = k r.2.
Proof. destruct r as [[a|e|f] n]; cbn; intros [= <-]; done. Qed.

Lemma running_state s : calm s -> is_running (node s) = true -> socket_open_ (node s) = true.
Proof. intros [C _ _ _]. unfold life_ok in C. unfold is_running. destruct (state_ (node s)); [done | intros _; apply C | done]. Qed.

Lemma ping_sound s nonce ms interval : sound s -> sound (set_node (on_ping_timer_expired settings nonce ms interval (node s)).2 s).
Proof.
  intros Hs. destruct (grows_ping settings nonce ms interval (node s)) as [E G]. cbv zeta in G. destruct G as [G|[_ ->]]; [|apply stop_sound, Hs].
  apply grows_sound; [done | done|]. intros Hr. by rewrite E.
Qed.

Lemma push_events p priority n : events_ (push_message settings p priority n).2 = events_ n.
Proof. unfold push_message. by destruct (Message.push _ _) as [[[] ?] ?]. Qed.

Lemma push_sound s p priority : sound s -> sound (set_node (push_message settings p priority (node s)).2 s).
Proof. intros Hs. apply grows_sound; [done | apply grows_push | intros _; apply push_events]. Qed.

Lemma handshake_completed_sound s nonce ms s' : sound s ->
  after (on_handshake_completed settings nonce ms (node s)) (λ n, set_node n s) = Some s' -> sound s'.
Proof.
  intros Hs [_ ->]%after_inv. unfold on_handshake_completed. destruct (is_running (node s)) eqn:Er; cbn [negb]; [|by destruct s].
  pose proof (ping_sound s nonce ms ms Hs) as S1. set (r := on_ping_timer_expired settings nonce ms ms (node s)) in *. unfold op_bind at 1. fold r.
  destruct r as [[a|e|f] n1]; cbn [snd] in *; [|exact S1..]. unfold op_bind, modify.
  pose proof (aside_sound _ (set_timer true) S1 (λ n, ltac:(done))) as S2. cbn [set_node node] in S2.
  case_match; [|exact S2]. set (s2 := set_node (set_timer true n1) s) in *.
  change (sound (set_node (ignore (push_null settings kGetAddr kNormal) (node s2)).2 s2)). apply grows_sound; [done | | ].
  - apply grows_ignore, grows_push_null.
  - intros _. unfold ignore, push_null. destruct (make_null kGetAddr) as [p|e|f]; [|done..]. unfold op_bind.
    pose proof (push_events p kNormal (node s2)) as E. destruct (push_message _ _ _ _) as [[]]; done.
Qed.

Lemma start_write_sound s rest now s' : sound s -> posted_ (node s) = TStartWrite :: rest ->
  after (start_write pick now (set_posted rest (node s)))
    (λ n', mk_state n' (tls s) (reads s) (writes s + if submits pick now (set_posted rest (node s)) then 1 else 0)) = Some s' -> sound s'.
Proof.
  intros [C S4 S6] E [Hf ->]%after_inv. pose proof (popped_calm s _ rest C E ltac:(done)) as Hp. pose proof (popped_readers s _ rest E) as Hr.
  rewrite decide_False in Hr by done. set (n := set_posted rest (node s)) in *. change (node (popped rest s)) with n in *.
  destruct (start_write pick now n) as [r n'] eqn:Ew. cbn [fst snd] in *.
  destruct (start_write_cases pick picks now n r n' Ew Hf) as (E1 & E2 & E3 & l & E4 & E5 & E6).
  assert (Hn : forall k, ~ ending k -> Forall (λ x, x <> k) l) by (intros k Hk; eapply Forall_impl; [exact E5|]; intros x Hx ->; by apply Hk).
  assert (Hx : forall w, readers (mk_state n' (tls s) (reads s) w) = readers s).
  { intros w. unfold readers, awaited in *. cbn in *. rewrite E4, tasks_app, (tasks_none TStartRead l); [cbn; lia|]. apply Hn. by intros [|]. }
  assert (Hrun : is_running n' = is_running (node s)) by (unfold is_running; by rewrite E1).
  split; [split|..]; cbn [node reads writes]; rewrite ?Hx, ?Hrun; try apply C.
  - apply (life_posted n n' l); try done; [apply Hp | apply Hn; by intros [|]|]. exists []. by rewrite app_nil_r.
  - rewrite (ca_writes _ C). change (is_writing_ (node s)) with (is_writing_ n). destruct E6 as [(-> & -> & _)|(-> & -> & ->)]; lia.
  - intros H'. rewrite E4. destruct (S4 H') as [|Ht]; [by left | right]. rewrite E in Ht. apply elem_of_cons in Ht as [|]; [done|]. by apply elem_of_app; left.
  - intros H'. unfold sending. rewrite E4, !elem_of_app. destruct E6 as [(_ & E6 & [Hs|[Hw|[Ht|Hq]]])|(_ & _ & ->)].
    + pose proof (running_state s C H'). cbn in Hs. congruence.
    + right; left. congruence.
    + by right; right; right; right.
    + by left.
    + by right; left.
Qed.

Lemma run_task_sound s k rest now nonce ms s' : sound s -> posted_ (node s) = k :: rest ->
  run_task settings pick k now nonce ms (popped rest s) = Some s' -> sound s'.
Proof.
  intros Hs E. destruct k; cbn [run_task].
  - intros [_ ->]%after_inv. apply (stop_sound (popped rest s)), (popped_calm s TStop); [apply Hs | done | done].
  - intros [= <-]. by apply start_read_sound.
  - by apply (start_write_sound s rest now).
  - apply handshake_completed_sound. by apply popped_sound.
  - intros [_ ->]%after_inv. apply (ended_sound s rest); [apply Hs | done].
Qed.

(** Tasks that are posted besides. *)
Lemma posted_sound s k : calm s -> k <> TStopCompleted -> k <> TStartRead \/ readers s <= 0 -> (is_running (node s) = true -> sending (node s)) ->
  (is_running (node s) = true -> readers s = 1 \/ k = TStop \/ k = TStartRead /\ readers s = 0) ->
  sound (set_node (set_posted (posted_ (node s) ++ [k]) (node s)) s).
Proof.
  intros [C1 C2 C3 C4] H1 H2 H3 H4. set (s' := set_node _ s).
  assert (R : readers s' = readers s + if decide (k = TStartRead) then 1 else 0).
  { unfold readers, awaited. cbn. rewrite tasks_app, tasks_cons, tasks_nil. lia. }
  split; [split; try done; [|rewrite R; case_decide; naive_solver lia]|..].
  - apply (life_posted (node s) _ [k]); try done; [by apply Forall_singleton|]. exists []. by rewrite app_nil_r.
  - intros H'. destruct (H4 H') as [Ho|[->|[-> ?]]].
    + left. rewrite R. case_decide; [naive_solver lia | lia].
    + right. cbn. apply elem_of_app. right. by left.
    + left. rewrite R, decide_True by done. lia.
  - intros H'. specialize (H3 H'). unfold sending in *. cbn. rewrite !elem_of_app. naive_solver.
Qed.

Lemma read_sound s failed data time_now now r n' : sound s -> 0 < reads s ->
  handle_read settings average failed data time_now now (node s) = Some (r, n') -> (forall f, r <> Fault f) ->
  sound (mk_state n' (tls s) (reads s - 1) (writes s)).
Proof.
  intros Hs Hr E Hf. pose proof (read_done settings average failed data time_now now (node s) r n' E Hf) as D.
  pose proof Hs as [[C1 C2 C3 C4] S4 S6]. set (s1 := mk_state (node s) (tls s) (reads s - 1) (writes s)).
  assert (R1 : readers s1 = readers s - 1) by (unfold readers, awaited; cbn; lia).
  assert (Hc : calm s1) by (split; [done | cbn; lia | lia | done]).
  destruct (is_running (node s)) eqn:Er; [|subst n'; by apply idle_sound].
  destruct D as (n1 & k & G & -> & Hk). pose proof (grows_sound s n1 Hs G ltac:(congruence)) as [[D1 D2 D3 D4] D5 D6].
  set (s2 := mk_state n1 (tls s) (reads s - 1) (writes s)).
  assert (R2 : readers s2 = readers (set_node n1 s) - 1) by (unfold readers, awaited; cbn; lia). cbn [set_node node reads writes] in *.
  assert (Hx : readers s2 = 0).
  { assert (0 <= readers s2); [|lia]. unfold readers, awaited. cbn. pose proof (tasks_nonneg TStartRead (posted_ n1)). case_bool_decide; lia. }
  apply (posted_sound s2 k).
  - split; [done | cbn; lia | lia | done].
  - by destruct Hk as [->| ->].
  - right. lia.
  - exact D6.
  - intros _. destruct Hk; auto.
Qed.

Lemma write_sound s failed bytes r n' : sound s -> 0 < writes s -> handle_write failed bytes (node s) = (r, n') ->
  sound (mk_state n' (tls s) (reads s) (writes s - 1 + if resubmits failed (node s) n' then 1 else 0)).
Proof.
  intros [[C1 C2 C3 C4] S4 S6] Hw E. destruct (handle_write_cases failed bytes (node s) r n' E) as (E1 & E2 & E3 & E4 & E5 & l & E6 & E7 & E8).
  assert (Hn : forall k, k <> TStop -> k <> TStartWrite -> Forall (λ x, x <> k) l) by (intros k ? ?; eapply Forall_impl; [exact E7|]; intros x [-> | ->]; congruence).
  assert (Hx : forall w, readers (mk_state n' (tls s) (reads s) w) = readers s).
  { intros w. unfold readers, awaited. cbn. rewrite E6, tasks_app, (tasks_none TStartRead l); [cbn; lia|]. by apply Hn. }
  assert (Hrun : is_running n' = is_running (node s)) by (unfold is_running; by rewrite E1).
  assert (Hb : is_writing_ (node s) = true) by (destruct (is_writing_ (node s)); [done | lia]). rewrite Hb in *.
  split; [split|..]; cbn [node reads writes]; rewrite ?Hx, ?Hrun; try done.
  - apply (life_posted (node s) n' l); try done. by apply Hn.
  - rewrite E5. destruct (resubmits _ _ _); lia.
  - intros H'. rewrite E6. destruct (S4 H') as [|Ht]; [by left | right]. by apply elem_of_app; left.
  - intros H'. unfold sending. rewrite E5, E6, !elem_of_app. destruct (E8 H') as [->|[?|?]]; auto 8.
Qed.

Lemma settled_readers s : tls s <> Settled -> readers (mk_state (node s) Settled (reads s) (writes s)) = readers s - 1.
Proof. intros Ht. unfold readers, awaited. cbn [node tls reads]. rewrite (bool_decide_false (tls s = Settled)), (bool_decide_true (Settled = Settled)) by done. lia. Qed.

Lemma settled_calm s : calm s -> tls s <> Settled -> calm (mk_state (node s) Settled (reads s) (writes s)).
Proof. intros [C1 C2 C3 C4] Ht. split; try done. rewrite settled_readers by done. lia. Qed.

Lemma closed_idle s : calm s -> socket_open_ (node s) = false -> is_running (node s) = false.
Proof. intros C Hs. destruct (is_running (node s)) eqn:Er; [|done]. pose proof (running_state s C Er). congruence. Qed.

Lemma run_handshake_sound s : sound s -> tls s = Posted -> sound (start_ssl_handshake s).
Proof.
  intros Hs Ht. unfold start_ssl_handshake. destruct (socket_open_ (node s)) eqn:Es.
  - destruct Hs as [[C1 C2 C3 C4] S4 S6]. set (s1 := mk_state _ _ _ _).
    assert (R : readers s1 = readers s) by (unfold readers, awaited; cbn; by rewrite Ht). split; [split|..]; rewrite ?R; done.
  - apply idle_sound; [apply settled_calm; [apply Hs | by rewrite Ht] | apply (closed_idle s); [apply Hs | done]].
Qed.

Lemma handshake_sound s failed s' : sound s -> tls s = Pending -> handle_ssl_handshake settings failed s = Some s' -> sound s'.
Proof.
  intros Hs Ht. assert (Hn : tls s <> Settled) by by rewrite Ht. pose proof (settled_readers s Hn) as R. pose proof (settled_calm s (so_calm s Hs) Hn) as C.
  unfold handle_ssl_handshake. set (s1 := mk_state (node s) Settled (reads s) (writes s)) in *. pose proof Hs as [[C1 C2 C3 C4] S4 S6]. destruct failed.
  - intros [_ ->]%after_inv. apply (posted_sound s1); [done | done | by left | done | by auto].
  - assert (S2 : sound (start_read s1)).
    { unfold start_read. destruct (socket_open_ (node s1)) eqn:Es; [|apply idle_sound; [done | by apply closed_idle]]. set (s2 := mk_state _ _ _ _).
      assert (R2 : readers s2 = readers s) by (unfold readers, awaited in *; cbn in *; lia).
      split; [split; [done | cbn; lia | by rewrite R2 | done]|..]; rewrite ?R2; done. }
    revert S2. generalize (start_read s1). intros s2 S2. destruct (bool_decide _); [|intros E; by simplify_eq]. intros [_ ->]%after_inv. apply grows_sound; [done | |].
    + apply grows_ignore, grows_push_local.
    + intros _. unfold ignore, push_local_version. pose proof (push_events (MsgVersion (local_version_ (node s2))) kNormal (node s2)) as E.
      destruct (push_message _ _ _ _) as [[[]|e|f] n']; done.
Qed.

(** Every step keeps a session sound. *)
Lemma step_sound e s s' : sound s -> step settings pick average e s = Some s' -> sound s'.
Proof.
  intros Hs. destruct e; cbn [step].
  - destruct (posted_ (node s)) as [|k rest] eqn:E; [done|]. by apply run_task_sound.
  - case_bool_decide; [|done]. intros [= <-]. by apply run_handshake_sound.
  - case_bool_decide; [|done]. by apply handshake_sound.
  - destruct (0 <? reads s) eqn:Er; [|done]. apply Z.ltb_lt in Er. destruct (handle_read _ _ _ _ _ _ _) as [[r n']|] eqn:E; [|done].
    intros E'. assert (Hf : forall f, r <> Fault f) by (intros f ->; done). assert (s' = mk_state n' (tls s) (reads s - 1) (writes s)) as -> by by destruct r; simplify_eq.
    by apply (read_sound s failed data time_now now r).
  - destruct (0 <? writes s) eqn:Ew; [|done]. apply Z.ltb_lt in Ew. intros [_ ->]%after_inv.
    apply (write_sound s failed bytes_transferred (handle_write failed bytes_transferred (node s)).1); [done | done | apply surjective_pairing].
  - destruct (ping_timer_ (node s)); [|done]. intros [_ ->]%after_inv. by apply ping_sound.
  - intros [_ ->]%after_inv. by apply push_sound.
  - intros [_ ->]%after_inv. apply stop_sound, Hs.
Qed.

Lemma session_keeps (P : state -> Prop) : (forall e s s', P s -> step settings pick average e s = Some s' -> P s') ->
  forall l s s', P s -> run settings pick average l s = Some s' -> P s'.
Proof.
  intros Hstep l. induction l as [|e l IH]; intros s s' Hs; cbn [run]; [by intros [= <-]|].
  destruct (step settings pick average e s) as [s1|] eqn:E; [|done]. apply IH. by apply (Hstep e s).
Qed.

(** ** The end *)

(** The messages that wait can be read from. *)
Definition intact (n : t) : Prop := Forall (λ i : queue_item, message_ok i.1) (outbound_messages_queue_ n) /\
  forall m, outbound_message_ n = Some m -> message_ok m.

Lemma intact_same n n' : intact n -> outbound_messages_queue_ n' = outbound_messages_queue_ n -> outbound_message_ n' = outbound_message_ n -> intact n'.
Proof. intros [I1 I2] E1 E2. split; [by rewrite E1 | by rewrite E2]. Qed.

Lemma load_intact n m n' : intact n -> load_outbound pick n = Some (m, n') -> message_ok m /\ intact n'.
Proof.
  intros [I1 I2]. unfold load_outbound. destruct (outbound_message_ n) as [m0|] eqn:E.
  - intros [= -> <-]. split; [by apply I2 | split; [done | by rewrite E]].
  - destruct (queue_top pick _) as [[[m1 p] rest]|] eqn:Eq; [|done]. apply queue_top_spec in Eq. rewrite <- Eq in I1. apply Forall_cons in I1 as [Hm Hr].
    destruct (rewound_ok m1 Hm) as [Hm' _]. intros [= <- <-]. split; [done|]. split; [done|]. by intros m2 [= <-].
Qed.

Lemma send_intact m n : message_ok m -> intact n -> exists n', send_chunk m n = (Success (), n') /\ intact n'.
Proof.
  intros Hm [I1 I2]. destruct (send_chunk_spec m n Hm) as (data & m' & -> & Hm' & _). eexists. split; [done|]. split; [done|]. by intros m2 [= <-].
Qed.

Lemma validate_kept d ty n r n' : validate_message_for_protocol_handshake d ty n = (r, n') ->
  outbound_messages_queue_ n' = outbound_messages_queue_ n /\ outbound_message_ n' = outbound_message_ n /\ (forall f, r <> Fault f).
Proof. unfold validate_message_for_protocol_handshake. cbv zeta. repeat case_match; by intros [= <- <-]. Qed.

Lemma start_write_intact now n : intact n -> exists n', start_write pick now n = (Success (), n') /\ intact n'.
Proof.
  intros I. unfold start_write. destruct (socket_open_ n); cbn [negb]; [|by exists n]. destruct (is_writing_ n); [by exists n|]. cbv zeta.
  assert (I1 : intact (retire_outbound now (set_writing true n))).
  { unfold retire_outbound. cbn. destruct I as [I1 I2]. destruct (outbound_message_ n) as [m|] eqn:E; [|by split; cbn; rewrite ?E].
    repeat case_match; try (by split; cbn); split; cbn; [done | by rewrite E]. }
  revert I1. generalize (retire_outbound now (set_writing true n)). clear I n. intros n I.
  destruct (load_outbound pick n) as [[m n1]|] eqn:El; [|by exists (set_writing false n)]. destruct (load_intact n m n1 I El) as [Hm I1].
  case_match; [|by apply send_intact]. destruct (validate_message_for_protocol_handshake _ _ n1) as [r n2] eqn:Ev.
  destruct (validate_kept _ _ _ _ _ Ev) as (E4 & E1 & E5). destruct r as [u|e|f]; [| |by destruct (E5 f)].
  - apply send_intact; [done|]. by eapply intact_same; [exact I1 | case_match..].
  - eexists. split; [done|]. split; [|done]. cbn. rewrite E4. apply I1.
Qed.

(** A task of a node that stops leaves the tasks behind it. *)
Lemma stopping_task s k now nonce ms : state_ (node s) = Stoppable.kStopping -> intact (node s) -> k <> TStopCompleted ->
  exists s', run_task settings pick k now nonce ms s = Some s' /\ state_ (node s') = Stoppable.kStopping /\ intact (node s') /\
    events_ (node s') = events_ (node s) /\ exists l, posted_ (node s') = posted_ (node s) ++ l.
Proof.
  intros Hst I Hk. assert (Hr : is_running (node s) = false) by (unfold is_running; by rewrite Hst).
  destruct k; cbn [run_task]; try done.
  - unfold stop. rewrite Hst. cbn. eexists. split; [done|]. split_and!; [done | by eapply intact_same | done | exists []; by rewrite app_nil_r].
  - eexists. split; [done|]. unfold start_read. destruct (socket_open_ _); split_and!; try done; exists []; by rewrite app_nil_r.
  - destruct (start_write_intact now (node s) I) as (n' & E & I'). rewrite E. eexists. split; [done|]. cbn [node].
    destruct (start_write_cases pick picks now (node s) _ n' E ltac:(done)) as (E1 & _ & E3 & l & E4 & _). split_and!; [congruence | done | done | by exists l].
  - unfold on_handshake_completed. rewrite Hr. cbn. eexists. split; [done|]. split_and!; try done. exists []. by rewrite app_nil_r.
Qed.

Definition is_run (e : event) : bool := match e with Run _ _ _ => true | _ => false end.

Lemma drain pre post s l : state_ (node s) = Stoppable.kStopping -> intact (node s) -> posted_ (node s) = pre ++ TStopCompleted :: post ->
  Forall (λ k, k <> TStopCompleted) pre -> forallb is_run l = true -> length l = S (length pre) ->
  exists s', run settings pick average l s = Some s' /\ state_ (node s') = Stoppable.kNotStarted /\ socket_open_ (node s') = false /\
    events_ (node s') = events_ (node s) ++ [EDisconnected].
Proof.
  revert s l post. induction pre as [|k pre IH]; intros s l post Hst I E Hp Hl Hlen.
  all: destruct l as [|[now nonce ms| | | | | | |] l]; try done; cbn [run step app] in *; rewrite E.
  - destruct l; [|done]. cbn. eexists. split; [done|]. done.
  - apply Forall_cons in Hp as [Hk Hp]. set (s0 := set_node (set_posted (pre ++ TStopCompleted :: post) (node s)) s).
    destruct (stopping_task s0 k now nonce ms) as (s1 & E1 & H1 & I1 & V1 & x & P1); [done | by eapply intact_same | done |].
    rewrite E1. destruct (IH s1 l (post ++ x)) as (s' & R & F1 & F2 & F3); try done.
    + rewrite P1. cbn. by rewrite <- app_assoc.
    + cbn in Hlen. lia.
    + exists s'. split_and!; try done. by rewrite F3, V1.
Qed.

(** ** Silence *)

Lemma after_same {A} (m : op t A) s s' : after (m (node s)) (λ n, set_node n s) = Some s' ->
  state_ (m (node s)).2 = state_ (node s) /\ events_ (m (node s)).2 = events_ (node s) -> state_ (node s') = state_ (node s) /\ events_ (node s') = events_ (node s).
Proof. intros [_ ->]%after_inv. done. Qed.

Lemma stop_idle n : is_running n = false -> state_ (stop n).2 = state_ n /\ events_ (stop n).2 = events_ n.
Proof. unfold is_running, stop. destruct (state_ n); done. Qed.

Lemma push_state p priority n : state_ (push_message settings p priority n).2 = state_ n.
Proof. unfold push_message. by destruct (Message.push _ _) as [[[] ?] ?]. Qed.

(** A step of a node that does not run. *)
Lemma idle_step e s s' : is_running (node s) = false -> step settings pick average e s = Some s' ->
  (state_ (node s') = state_ (node s) /\ events_ (node s') = events_ (node s)) \/
  (TStopCompleted ∈ posted_ (node s) /\ state_ (node s') = Stoppable.kNotStarted /\ events_ (node s') = events_ (node s) ++ [EDisconnected]).
Proof.
  intros Hr. destruct e; cbn [step].
  - destruct (posted_ (node s)) as [|k rest] eqn:E; [done|]. set (s1 := set_node (set_posted rest (node s)) s).
    assert (Hr1 : is_running (node s1) = false) by done. assert (Hs1 : state_ (node s1) = state_ (node s) /\ events_ (node s1) = events_ (node s)) by done.
    destruct Hs1 as [<- <-]. destruct k; cbn [run_task].
    + intros E'. left. apply (after_same stop s1 _ E'). by apply stop_idle.
    + intros [= <-]. left. unfold start_read. by destruct (socket_open_ _).
    + intros [Hf ->]%after_inv. left. destruct (start_write_cases pick picks now (node s1) _ _ (surjective_pairing _) Hf) as (E1 & _ & E3 & _). done.
    + intros E'. left. apply (after_same (on_handshake_completed settings nonce random_milliseconds) s1 _ E'). unfold on_handshake_completed. by rewrite Hr1.
    + intros [= <-]. right. split; [left | done].
  - case_bool_decide; [|done]. intros [= <-]. by left.
  - case_bool_decide; [|done]. unfold handle_ssl_handshake. destruct failed; [intros [= <-]; by left|].
    set (s1 := start_read _). assert (Hs1 : state_ (node s1) = state_ (node s) /\ events_ (node s1) = events_ (node s)) by (unfold s1, start_read; by destruct (socket_open_ _)).
    destruct Hs1 as [<- <-]. clearbody s1. destruct (bool_decide _); [|intros E; left; by simplify_eq]. intros [_ ->]%after_inv. left. cbn [set_node node].
    unfold ignore, push_local_version. pose proof (push_state (MsgVersion (local_version_ (node s1))) kNormal (node s1)).
    pose proof (push_events (MsgVersion (local_version_ (node s1))) kNormal (node s1)). destruct (push_message _ _ _ _) as [[[]|e|f] n']; done.
  - destruct (0 <? reads s); [|done]. destruct (handle_read _ _ _ _ _ _ _) as [[r n']|] eqn:E; [|done]. intros E'.
    assert (Hf : forall f, r <> Fault f) by (intros f ->; done). assert (s' = mk_state n' (tls s) (reads s - 1) (writes s)) as -> by by destruct r; simplify_eq.
    pose proof (read_done _ _ _ _ _ _ _ _ _ E Hf) as D. rewrite Hr in D. subst n'. by left.
  - destruct (0 <? writes s); [|done]. intros [_ ->]%after_inv. left. cbn [node].
    destruct (handle_write_cases failed bytes_transferred (node s) _ _ (surjective_pairing _)) as (E1 & _ & _ & (x & E4 & _ & E5) & _).
    rewrite (E5 Hr), app_nil_r in E4. done.
  - destruct (ping_timer_ (node s)); [|done]. intros E'. left. apply (after_same (on_ping_timer_expired settings nonce random_milliseconds interval) s _ E').
    by rewrite (proj1 (grows_ping settings nonce random_milliseconds interval (node s)) Hr).
  - intros E'. left. apply (after_same (push_message settings payload priority) s _ E'). split; [apply push_state | apply push_events].
  - intros E'. left. apply (after_same stop s _ E'). by apply stop_idle.
Qed.

Definition hushed (e0 : list Node.event) (s : state) : Prop := sound s /\ is_running (node s) = false /\
  (events_ (node s) = e0 \/ events_ (node s) = e0 ++ [EDisconnected] /\ state_ (node s) = Stoppable.kNotStarted).

Lemma step_hushed e0 e s s' : hushed e0 s -> step settings pick average e s = Some s' -> hushed e0 s'.
Proof.
  intros (Hs & Hr & He) E. split; [by apply (step_sound e s)|]. destruct (idle_step e s s' Hr E) as [[E1 E2]|(Ht & E1 & E2)].
  - unfold is_running in *. rewrite E1, E2. done.
  - unfold is_running. rewrite E1, E2. split; [done|]. right. destruct He as [->|[_ He]]; [done|]. exfalso.
    pose proof (ca_life _ (so_calm _ Hs)) as L. unfold life_ok in L. rewrite He in L. apply tasks_elem in Ht. lia.
Qed.

(** ** Before the TLS handshake *)

Definition is_push (e : event) : bool := match e with Push _ _ => true | _ => false end.

Record silent (n : t) : Prop := {
  si_queue : outbound_messages_queue_ n = [];
  si_barrel : outbound_message_ n = None;
  si_wire : wire_ n = [] /\ send_buffer_ n = [];
  si_writing : is_writing_ n = false;
  si_posted : Forall (λ k, k = TStop \/ k = TStopCompleted) (posted_ n);
  si_timer : ping_timer_ n = false;
}.

Lemma stop_silent n : silent n -> silent (stop n).2.
Proof.
  intros [S1 S2 S3 S4 S5 S6]. unfold stop. destruct (state_ n); split; try done. cbn. apply Forall_app. split; [done|]. by apply Forall_singleton; right.
Qed.

Definition waiting (s : state) : Prop := sound s /\ (tls s <> Settled -> silent (node s)).

Lemma step_waiting e s s' : is_push e = false -> waiting s -> step settings pick average e s = Some s' -> waiting s'.
Proof.
  intros Hp [Hs Hw] E. split; [by apply (step_sound e s)|]. intros Ht. destruct (decide (tls s = Settled)) as [Hset|Hset].
  { exfalso. apply Ht. revert E. destruct e; cbn [step]; try (intros [_ ->]%after_inv; done).
    - destruct (posted_ (node s)) as [|k rest]; [done|]. destruct k; cbn [run_task]; try (intros [_ ->]%after_inv; done).
      intros [= <-]. unfold start_read. by destruct (socket_open_ _).
    - rewrite bool_decide_false by congruence. done.
    - rewrite bool_decide_false by congruence. done.
    - destruct (0 <? reads s); [|done]. destruct (handle_read _ _ _ _ _ _ _) as [[[] n']|]; by intros [= <-].
    - destruct (0 <? writes s); [|done]. intros [_ ->]%after_inv. done.
    - destruct (ping_timer_ (node s)); [|done]. intros [_ ->]%after_inv. done. }
  specialize (Hw Hset). pose proof Hw as [S1 S2 S3 S4 S5 S6]. pose proof Hs as [[_ R0 R1 W] _ _]. rewrite S4 in W.
  assert (R : reads s <= 0).
  { unfold readers, awaited in R1. rewrite bool_decide_false in R1 by done. pose proof (tasks_nonneg TStartRead (posted_ (node s))). lia. }
  revert E. destruct e; cbn [step]; try done.
  - destruct (posted_ (node s)) as [|k rest] eqn:Ep; [done|]. apply Forall_cons in S5 as [Hk S5].
    assert (Sp : silent (set_posted rest (node s))) by done. destruct Hk as [-> | ->]; cbn [run_task].
    + intros [_ ->]%after_inv. by apply stop_silent.
    + intros [= <-]. done.
  - case_bool_decide; [|done]. intros [= <-]. done.
  - case_bool_decide; [|done]. unfold handle_ssl_handshake. destruct failed; [intros [= <-]; done|]. intros E. exfalso. apply Ht. revert E.
    set (s1 := start_read _). assert (T1 : tls s1 = Settled) by (unfold s1, start_read; by destruct (socket_open_ _)). clearbody s1.
    destruct (bool_decide _); [intros [_ ->]%after_inv; done | intros E; by simplify_eq].
  - rewrite (proj2 (Z.ltb_ge _ _)) by lia. done.
  - rewrite W. done.
  - rewrite S6. done.
  - intros [_ ->]%after_inv. by apply stop_silent.
Qed.

(** ** The start *)

(** A node that has been made and not been started. *)
Record fresh (n : t) : Prop := {
  fr_state : state_ n = Stoppable.kNotStarted;
  fr_socket : socket_open_ n = true;
  fr_posted : posted_ n = [] /\ events_ n = [];
  fr_silent : silent n;
}.

Lemma construct_fresh type remote local local_endpoint port nonce user_agent unix_seconds now n :
  construct type remote local local_endpoint port nonce user_agent unix_seconds now = Success n -> fresh n.
Proof. unfold construct. destruct (IPEndpoint.from_string local_endpoint); intros [= <-]. by split. Qed.

Lemma start_sound ssl now n s : fresh n -> start settings ssl now n = Some s -> sound s /\ (tls s = if ssl then Posted else Settled) /\ (ssl = true -> silent (node s)).
Proof.
  intros [F1 F2 [F3 F4] [S1 S2 S3 S4 S5 S6]]. unfold start. destruct ssl.
  - unfold start_tls. rewrite F1. cbn. intros [= <-]. split; [|done]. split; [split|..]; unfold life_ok, readers, awaited, sending; cbn; rewrite ?F3, ?F4, ?S4; try done.
    + by left.
    + by left.
  - intros [_ ->]%after_inv. split; [|done]. unfold Node.start. rewrite F1. cbn [Stoppable.start negb]. unfold op_bind, post, op_ret, modify. cbv beta iota.
    match goal with |- context [type_ ?x] => set (n1 := x) end. set (s1 := mk_state n1 Settled 0 0).
    assert (Hs : sound s1).
    { split; [split|..]; unfold life_ok, readers, awaited, sending; cbn; rewrite ?F3, ?F4, ?S4; try done; by left. }
    destruct (bool_decide _); [|exact Hs]. pose proof (grows_ignore _ (grows_push_local settings kNormal) n1) as G.
    assert (Hx : sound (set_node (ignore (push_local_version settings kNormal) n1).2 s1)) by (apply grows_sound; done).
    destruct (ignore _ n1) as [[] n2]; exact Hx.
Qed.

(** C4: A session is never stuck: over any history of a session, with or without TLS,
    there is at most one reader and one writer at a time.  As long as the node runs, a read is under way or will be, and
    what is to be sent is being sent or will be, unless the node has been told to stop.  With TLS nothing is read or
    written before the handshake, unless the hub has asked to send. *)
Theorem session_alive (ssl : bool) (now : Z) (n : t) (s0 s : state) (l : list event) :
  fresh n -> start settings ssl now n = Some s0 -> run settings pick average l s0 = Some s ->
  0 <= reads s <= 1 /\ 0 <= writes s <= 1 /\
  (is_running (node s) = true -> (readers s = 1 \/ TStop ∈ posted_ (node s)) /\ sending (node s)) /\
  (ssl = true -> forallb (λ e, negb (is_push e)) l = true -> tls s <> Settled -> reads s = 0 /\ writes s = 0 /\ silent (node s)).
Proof.
  intros Hf E0 E. destruct (start_sound ssl now n s0 Hf E0) as (S0 & _ & Q0). pose proof (session_keeps sound (λ e s s', step_sound e s s') l s0 s S0 E) as Hs.
  pose proof Hs as [[_ R0 R1 W] S4 S6]. assert (R : reads s <= readers s).
  { unfold readers, awaited. pose proof (tasks_nonneg TStartRead (posted_ (node s))). case_bool_decide; lia. }
  split_and!; [lia | lia | rewrite W; case_match; lia | rewrite W; case_match; lia | by auto |]. intros -> Hp Ht.
  assert (Hw : waiting s).
  { clear Hs R0 R1 W S4 S6 R Ht E0. assert (Hw0 : waiting s0) by (split; auto). clear S0 Q0. revert s0 Hw0 E. induction l as [|e l IH]; intros s0 Hw0; cbn [run]; [by intros [= <-]|].
    cbn in Hp. apply andb_true_iff in Hp as [Hp Hl]. destruct (step _ _ _ e s0) as [s1|] eqn:E1; [|done]. apply (IH Hl s1).
    apply (step_waiting e s0); [by destruct (is_push e) | done | done]. }
  destruct Hw as [_ Hw]. specialize (Hw Ht). split_and!; [|rewrite W; by rewrite (si_writing _ Hw) | done].
  unfold readers, awaited in R1. rewrite bool_decide_false in R1 by done. pose proof (tasks_nonneg TStartRead (posted_ (node s))). lia.
Qed.

(** C5: The end of a session: over any history, the hub is told of the end once, as the last thing it is told.  Once the
    node has been asked to stop it is told of nothing else; and the tasks that are on the strand bring the end, with the
    socket closed. *)
Theorem session_ends (ssl : bool) (now : Z) (n : t) (s0 s : state) (l : list event) :
  fresh n -> start settings ssl now n = Some s0 -> run settings pick average l s0 = Some s ->
  (state_ (node s) <> Stoppable.kNotStarted -> Forall told (events_ (node s))) /\
  (state_ (node s) = Stoppable.kNotStarted -> socket_open_ (node s) = false /\ exists e, events_ (node s) = e ++ [EDisconnected] /\ Forall told e) /\
  (is_running (node s) = false -> forall l' s', run settings pick average l' s = Some s' ->
     is_running (node s') = false /\ (events_ (node s') = events_ (node s) \/ events_ (node s') = events_ (node s) ++ [EDisconnected])) /\
  (state_ (node s) = Stoppable.kStopping -> intact (node s) -> exists j, (j <= length (posted_ (node s)))%nat /\
     forall l', forallb is_run l' = true -> length l' = j -> exists s', run settings pick average l' s = Some s' /\
       state_ (node s') = Stoppable.kNotStarted /\ socket_open_ (node s') = false /\ events_ (node s') = events_ (node s) ++ [EDisconnected]).
Proof.
  intros Hf E0 E. destruct (start_sound ssl now n s0 Hf E0) as (S0 & _ & _). pose proof (session_keeps sound (λ e s s', step_sound e s s') l s0 s S0 E) as Hs.
  pose proof (ca_life _ (so_calm _ Hs)) as L. unfold life_ok in L. split_and!.
  - intros Hn. destruct (state_ (node s)); [done | apply L..].
  - intros Hn. rewrite Hn in L. split; apply L.
  - intros Hr l' s' E'. pose proof (session_keeps (hushed (events_ (node s))) (step_hushed _) l' s s') as K.
    destruct K as (_ & K1 & K2); [by split_and!; auto | done |]. split; [done|]. naive_solver.
  - intros Hn Hi. rewrite Hn in L. destruct L as (_ & Ht & _).
    assert (Hin : TStopCompleted ∈ posted_ (node s)) by (apply tasks_elem; lia).
    destruct (list_elem_of_split_l (posted_ (node s)) TStopCompleted Hin) as (pre & post & Ep & Hpre).
    exists (S (length pre)). split; [rewrite Ep, length_app; cbn; lia|]. intros l' Hl' Hlen. apply (drain pre post); try done.
    apply Forall_forall. intros k Hk ->. done.
Qed.
End Step.

(** A node that is not started yet. *)
Definition sample_fresh : t := set_state Stoppable.kNotStarted (sample_node kNotInitiated).
Lemma sample_is_fresh : fresh sample_fresh.
Proof. split; [done | done | done|]. split; try done; apply Forall_nil_2. Qed.
Definition sample_tls (l : list event) : option state :=
  match @start model_boost model_crypto sample_settings true 5 sample_fresh with
  | Some s => @run model_boost model_crypto sample_settings first_pick (λ a _, a) l s
  | None => None
  end.

(** The handshake of TLS is under way. *)
Lemma session_alive_witness : exists s, sample_tls [Run 6 0 0; RunHandshake] = None /\ sample_tls [RunHandshake] = Some s /\
  tls s = Pending /\ reads s = 0 /\ writes s = 0 /\ readers s = 1.
Proof.
  eexists. split; [reflexivity|]. split; [reflexivity|]. split; [reflexivity|].
  destruct (@session_alive model_boost model_crypto sample_settings first_pick (λ a _, a) first_pick_ok true 5 sample_fresh _ _ [RunHandshake]
    sample_is_fresh eq_refl eq_refl) as (_ & _ & A & B).
  destruct (B eq_refl eq_refl) as (B1 & B2 & _); [done|]. split; [exact B1|]. split; [exact B2|]. destruct (A eq_refl) as [[A1|A1] _]; [exact A1|].
  apply elem_of_nil in A1. done.
Defined.

(** A node that is stopped during the handshake. *)
Lemma session_ends_witness : exists s j, sample_tls [RunHandshake; RequestStop] = Some s /\ state_ (node s) = Stoppable.kStopping /\ (j <= 1)%nat /\
  forall l', forallb is_run l' = true -> length l' = j -> exists s', @run model_boost model_crypto sample_settings first_pick (λ a _, a) l' s = Some s' /\
    events_ (node s') = [EDisconnected].
Proof.
  eexists.
  destruct (@session_ends model_boost model_crypto sample_settings first_pick (λ a _, a) first_pick_ok true 5 sample_fresh _ _ [RunHandshake; RequestStop]
    sample_is_fresh eq_refl eq_refl) as (_ & _ & _ & A).
  destruct A as (j & Hj & A); [reflexivity | split; [apply Forall_nil_2 | done] |].
  exists j. split; [reflexivity|]. split; [reflexivity|]. split; [exact Hj|]. intros l' Hl Hlen. destruct (A l' Hl Hlen) as (s' & E & _ & _ & V).
  exists s'. split; [exact E | exact V].
Defined.


End SessionFacts.
