(* ===== verification/Hub.v ===== *)
(** * The node hub

    Model of [src/src/node/network/node_hub.cpp] and [node_hub.hpp]: the component
    that dials, accepts, counts, serves and stops the nodes, and that routes what
    they receive to the address book.

    The nodes are shared objects: [heap_] holds them by id, and lists and channels
    hold ids.  Each coroutine takes one item at a time from its channel: what it
    does with the item is a function on the state of the hub.  The time, random
    draws and the outcome of a connection attempt are arguments.

    Not modelled: log lines, the resolution of names, the TLS contexts and the
    options of the sockets.  [Shutdown.v] has the wait of [stop], [Intake.v] the sockets
    that fail. *)

From stdpp Require Import gmap.
From S2P Require Import Prelude Text Stream Boost Serialize Types Random Containers Protocol Misc Addresses Payloads Message Meters Concurrency Chain AddressBook AddressBookFacts AddressBookInvariant Selection Node.
#[local] Open Scope Z_scope.

(** [socket_ptr_] is null, or a socket that is open or not. *)
Record Connection := { endpoint_ : IPEndpoint.t; type_ : ConnectionType; socket_ : option bool }.

(** A node with its connection. *)
Record peer := { node_ : Node.t; connection_ : Connection }.
Definition set_node n (p : peer) : peer := {| node_ := n; connection_ := connection_ p |}.

(** The settings that the hub reads besides those of the nodes. *)
Record HubSettings := {
  network : NetworkSettings;
  local_endpoint : Bytes;
  chain_config : ChainConfig.t;
  nonce : Z;
  user_agent : Bytes;
  nat_address : address;
  max_active_connections : Z;
  max_active_connections_per_ip : Z;
  min_outgoing_connections : Z;
  ipv4_only : bool;
  connect_nodes : list Bytes;
  force_dns_seeding : bool;
  use_tls : bool;
}.
Definition default_port (settings : HubSettings) : Z := ChainConfig.default_port_ (chain_config settings).

Module NodeHub.

Record t := mk {
  state_ : Stoppable.ComponentStatus;
  current_active_connections_ : Z;
  current_active_inbound_connections_ : Z;
  current_active_outbound_connections_ : Z;
  need_connections_ : NotifyChannel.t;
  needed_connections_count_ : Z;
  node_factory_feed_ : Channel.t Connection;
  connector_feed_ : Channel.t Connection;
  address_book_processor_feed_ : Channel.t (Z * MessagePayload);
  address_book_ : AddressBook.t;
  recently_selected_ : LruSet.t IPEndpoint.t;
  heap_ : gmap Z peer;
  next_node_id_ : Z;
  nodes_ : list Z;
  connected_addresses_ : gmap address Z;
  total_connections_ : Z;
  total_disconnections_ : Z;
  total_rejected_connections_ : Z;
  traffic_meter_ : TrafficMeter.t;
  last_advertisement_ : Z;
  service_timer_ : bool;
}.

Definition set_state v (h : t) : t := mk v (current_active_connections_ h) (current_active_inbound_connections_ h)
  (current_active_outbound_connections_ h) (need_connections_ h) (needed_connections_count_ h) (node_factory_feed_ h)
  (connector_feed_ h) (address_book_processor_feed_ h) (address_book_ h) (recently_selected_ h) (heap_ h)
  (next_node_id_ h) (nodes_ h) (connected_addresses_ h) (total_connections_ h) (total_disconnections_ h)
  (total_rejected_connections_ h) (traffic_meter_ h) (last_advertisement_ h) (service_timer_ h).
Definition set_active v (h : t) : t := mk (state_ h) v (current_active_inbound_connections_ h)
  (current_active_outbound_connections_ h) (need_connections_ h) (needed_connections_count_ h) (node_factory_feed_ h)
  (connector_feed_ h) (address_book_processor_feed_ h) (address_book_ h) (recently_selected_ h) (heap_ h)
  (next_node_id_ h) (nodes_ h) (connected_addresses_ h) (total_connections_ h) (total_disconnections_ h)
  (total_rejected_connections_ h) (traffic_meter_ h) (last_advertisement_ h) (service_timer_ h).
Definition set_inbound v (h : t) : t := mk (state_ h) (current_active_connections_ h) v
  (current_active_outbound_connections_ h) (need_connections_ h) (needed_connections_count_ h) (node_factory_feed_ h)
  (connector_feed_ h) (address_book_processor_feed_ h) (address_book_ h) (recently_selected_ h) (heap_ h)
  (next_node_id_ h) (nodes_ h) (connected_addresses_ h) (total_connections_ h) (total_disconnections_ h)
  (total_rejected_connections_ h) (traffic_meter_ h) (last_advertisement_ h) (service_timer_ h).
Definition set_outbound v (h : t) : t := mk (state_ h) (current_active_connections_ h)
  (current_active_inbound_connections_ h) v (need_connections_ h) (needed_connections_count_ h) (node_factory_feed_ h)
  (connector_feed_ h) (address_book_processor_feed_ h) (address_book_ h) (recently_selected_ h) (heap_ h)
  (next_node_id_ h) (nodes_ h) (connected_addresses_ h) (total_connections_ h) (total_disconnections_ h)
  (total_rejected_connections_ h) (traffic_meter_ h) (last_advertisement_ h) (service_timer_ h).
Definition set_need v (h : t) : t := mk (state_ h) (current_active_connections_ h)
  (current_active_inbound_connections_ h) (current_active_outbound_connections_ h) v (needed_connections_count_ h)
  (node_factory_feed_ h) (connector_feed_ h) (address_book_processor_feed_ h) (address_book_ h) (recently_selected_ h)
  (heap_ h) (next_node_id_ h) (nodes_ h) (connected_addresses_ h) (total_connections_ h) (total_disconnections_ h)
  (total_rejected_connections_ h) (traffic_meter_ h) (last_advertisement_ h) (service_timer_ h).
Definition set_needed v (h : t) : t := mk (state_ h) (current_active_connections_ h)
  (current_active_inbound_connections_ h) (current_active_outbound_connections_ h) (need_connections_ h) v
  (node_factory_feed_ h) (connector_feed_ h) (address_book_processor_feed_ h) (address_book_ h) (recently_selected_ h)
  (heap_ h) (next_node_id_ h) (nodes_ h) (connected_addresses_ h) (total_connections_ h) (total_disconnections_ h)
  (total_rejected_connections_ h) (traffic_meter_ h) (last_advertisement_ h) (service_timer_ h).
Definition set_factory v (h : t) : t := mk (state_ h) (current_active_connections_ h)
  (current_active_inbound_connections_ h) (current_active_outbound_connections_ h) (need_connections_ h)
  (needed_connections_count_ h) v (connector_feed_ h) (address_book_processor_feed_ h) (address_book_ h)
  (recently_selected_ h) (heap_ h) (next_node_id_ h) (nodes_ h) (connected_addresses_ h) (total_connections_ h)
  (total_disconnections_ h) (total_rejected_connections_ h) (traffic_meter_ h) (last_advertisement_ h)
  (service_timer_ h).
Definition set_connector v (h : t) : t := mk (state_ h) (current_active_connections_ h)
  (current_active_inbound_connections_ h) (current_active_outbound_connections_ h) (need_connections_ h)
  (needed_connections_count_ h) (node_factory_feed_ h) v (address_book_processor_feed_ h) (address_book_ h)
  (recently_selected_ h) (heap_ h) (next_node_id_ h) (nodes_ h) (connected_addresses_ h) (total_connections_ h)
  (total_disconnections_ h) (total_rejected_connections_ h) (traffic_meter_ h) (last_advertisement_ h)
  (service_timer_ h).
Definition set_processor v (h : t) : t := mk (state_ h) (current_active_connections_ h)
  (current_active_inbound_connections_ h) (current_active_outbound_connections_ h) (need_connections_ h)
  (needed_connections_count_ h) (node_factory_feed_ h) (connector_feed_ h) v (address_book_ h) (recently_selected_ h)
  (heap_ h) (next_node_id_ h) (nodes_ h) (connected_addresses_ h) (total_connections_ h) (total_disconnections_ h)
  (total_rejected_connections_ h) (traffic_meter_ h) (last_advertisement_ h) (service_timer_ h).
Definition set_book v (h : t) : t := mk (state_ h) (current_active_connections_ h)
  (current_active_inbound_connections_ h) (current_active_outbound_connections_ h) (need_connections_ h)
  (needed_connections_count_ h) (node_factory_feed_ h) (connector_feed_ h) (address_book_processor_feed_ h) v
  (recently_selected_ h) (heap_ h) (next_node_id_ h) (nodes_ h) (connected_addresses_ h) (total_connections_ h)
  (total_disconnections_ h) (total_rejected_connections_ h) (traffic_meter_ h) (last_advertisement_ h)
  (service_timer_ h).
Definition set_recent v (h : t) : t := mk (state_ h) (current_active_connections_ h)
  (current_active_inbound_connections_ h) (current_active_outbound_connections_ h) (need_connections_ h)
  (needed_connections_count_ h) (node_factory_feed_ h) (connector_feed_ h) (address_book_processor_feed_ h)
  (address_book_ h) v (heap_ h) (next_node_id_ h) (nodes_ h) (connected_addresses_ h) (total_connections_ h)
  (total_disconnections_ h) (total_rejected_connections_ h) (traffic_meter_ h) (last_advertisement_ h)
  (service_timer_ h).
Definition set_heap v (h : t) : t := mk (state_ h) (current_active_connections_ h)
  (current_active_inbound_connections_ h) (current_active_outbound_connections_ h) (need_connections_ h)
  (needed_connections_count_ h) (node_factory_feed_ h) (connector_feed_ h) (address_book_processor_feed_ h)
  (address_book_ h) (recently_selected_ h) v (next_node_id_ h) (nodes_ h) (connected_addresses_ h)
  (total_connections_ h) (total_disconnections_ h) (total_rejected_connections_ h) (traffic_meter_ h)
  (last_advertisement_ h) (service_timer_ h).
Definition set_next_id v (h : t) : t := mk (state_ h) (current_active_connections_ h)
  (current_active_inbound_connections_ h) (current_active_outbound_connections_ h) (need_connections_ h)
  (needed_connections_count_ h) (node_factory_feed_ h) (connector_feed_ h) (address_book_processor_feed_ h)
  (address_book_ h) (recently_selected_ h) (heap_ h) v (nodes_ h) (connected_addresses_ h) (total_connections_ h)
  (total_disconnections_ h) (total_rejected_connections_ h) (traffic_meter_ h) (last_advertisement_ h)
  (service_timer_ h).
Definition set_nodes v (h : t) : t := mk (state_ h) (current_active_connections_ h)
  (current_active_inbound_connections_ h) (current_active_outbound_connections_ h) (need_connections_ h)
  (needed_connections_count_ h) (node_factory_feed_ h) (connector_feed_ h) (address_book_processor_feed_ h)
  (address_book_ h) (recently_selected_ h) (heap_ h) (next_node_id_ h) v (connected_addresses_ h)
  (total_connections_ h) (total_disconnections_ h) (total_rejected_connections_ h) (traffic_meter_ h)
  (last_advertisement_ h) (service_timer_ h).
Definition set_addresses v (h : t) : t := mk (state_ h) (current_active_connections_ h)
  (current_active_inbound_connections_ h) (current_active_outbound_connections_ h) (need_connections_ h)
  (needed_connections_count_ h) (node_factory_feed_ h) (connector_feed_ h) (address_book_processor_feed_ h)
  (address_book_ h) (recently_selected_ h) (heap_ h) (next_node_id_ h) (nodes_ h) v (total_connections_ h)
  (total_disconnections_ h) (total_rejected_connections_ h) (traffic_meter_ h) (last_advertisement_ h)
  (service_timer_ h).
Definition set_total v (h : t) : t := mk (state_ h) (current_active_connections_ h)
  (current_active_inbound_connections_ h) (current_active_outbound_connections_ h) (need_connections_ h)
  (needed_connections_count_ h) (node_factory_feed_ h) (connector_feed_ h) (address_book_processor_feed_ h)
  (address_book_ h) (recently_selected_ h) (heap_ h) (next_node_id_ h) (nodes_ h) (connected_addresses_ h) v
  (total_disconnections_ h) (total_rejected_connections_ h) (traffic_meter_ h) (last_advertisement_ h)
  (service_timer_ h).
Definition set_disconnections v (h : t) : t := mk (state_ h) (current_active_connections_ h)
  (current_active_inbound_connections_ h) (current_active_outbound_connections_ h) (need_connections_ h)
  (needed_connections_count_ h) (node_factory_feed_ h) (connector_feed_ h) (address_book_processor_feed_ h)
  (address_book_ h) (recently_selected_ h) (heap_ h) (next_node_id_ h) (nodes_ h) (connected_addresses_ h)
  (total_connections_ h) v (total_rejected_connections_ h) (traffic_meter_ h) (last_advertisement_ h)
  (service_timer_ h).
Definition set_rejected v (h : t) : t := mk (state_ h) (current_active_connections_ h)
  (current_active_inbound_connections_ h) (current_active_outbound_connections_ h) (need_connections_ h)
  (needed_connections_count_ h) (node_factory_feed_ h) (connector_feed_ h) (address_book_processor_feed_ h)
  (address_book_ h) (recently_selected_ h) (heap_ h) (next_node_id_ h) (nodes_ h) (connected_addresses_ h)
  (total_connections_ h) (total_disconnections_ h) v (traffic_meter_ h) (last_advertisement_ h) (service_timer_ h).
Definition set_traffic v (h : t) : t := mk (state_ h) (current_active_connections_ h)
  (current_active_inbound_connections_ h) (current_active_outbound_connections_ h) (need_connections_ h)
  (needed_connections_count_ h) (node_factory_feed_ h) (connector_feed_ h) (address_book_processor_feed_ h)
  (address_book_ h) (recently_selected_ h) (heap_ h) (next_node_id_ h) (nodes_ h) (connected_addresses_ h)
  (total_connections_ h) (total_disconnections_ h) (total_rejected_connections_ h) v (last_advertisement_ h)
  (service_timer_ h).
Definition set_advertisement v (h : t) : t := mk (state_ h) (current_active_connections_ h)
  (current_active_inbound_connections_ h) (current_active_outbound_connections_ h) (need_connections_ h)
  (needed_connections_count_ h) (node_factory_feed_ h) (connector_feed_ h) (address_book_processor_feed_ h)
  (address_book_ h) (recently_selected_ h) (heap_ h) (next_node_id_ h) (nodes_ h) (connected_addresses_ h)
  (total_connections_ h) (total_disconnections_ h) (total_rejected_connections_ h) (traffic_meter_ h) v
  (service_timer_ h).
Definition set_service_timer v (h : t) : t := mk (state_ h) (current_active_connections_ h)
  (current_active_inbound_connections_ h) (current_active_outbound_connections_ h) (need_connections_ h)
  (needed_connections_count_ h) (node_factory_feed_ h) (connector_feed_ h) (address_book_processor_feed_ h)
  (address_book_ h) (recently_selected_ h) (heap_ h) (next_node_id_ h) (nodes_ h) (connected_addresses_ h)
  (total_connections_ h) (total_disconnections_ h) (total_rejected_connections_ h) (traffic_meter_ h)
  (last_advertisement_ h) v.

Definition modify (f : t -> t) : op t unit := λ h, (Success (), f h).

(** [std::ignore = ...]: errors are dropped, faults are not. *)
Definition ignore {A} (m : op t A) : op t unit :=
  λ h, match m h with (Fault f, h') => (Fault f, h') | (_, h') => (Success (), h') end.

Definition is_running (h : t) : bool := Stoppable.is_running (state_ h).
Definition size (h : t) : Z := current_active_connections_ h.

(** A member of the node [id] is called. *)
Definition on_node {A} (id : Z) (m : op Node.t A) : op t A :=
  λ h, match heap_ h !! id with
       | Some p => let (r, n) := m (node_ p) in (r, set_heap (<[id := set_node n p]> (heap_ h)) h)
       | None => (Fault UndefinedBehaviour, h)
       end.

(** An operation of the address book. *)
Definition on_book {A} (m : op AddressBook.t A) : op t A :=
  λ h, let (r, b) := m (address_book_ h) in (r, set_book b h).

(** [--needed_connections_count_] *)
Definition less_needed : op t unit := modify (λ h, set_needed (wrap 32 (needed_connections_count_ h - 1)) h).

(** ** Accounting *)

Definition add_by_type (ty : ConnectionType) (d : Z) : op t unit :=
  match ty with
  | kInbound => modify (λ h, set_inbound (wrap 32 (current_active_inbound_connections_ h + d)) h)
  | kOutbound | kManualOutbound | kSeedOutbound =>
      modify (λ h, set_outbound (wrap 32 (current_active_outbound_connections_ h + d)) h)
  | kNoConnection => λ h, (Fault AssertionFailed, h)
  end.

Definition on_node_connected (id : Z) : op t unit :=
  λ h,
    match heap_ h !! id with
    | None => (Fault UndefinedBehaviour, h)
    | Some p =>
        let a := IPEndpoint.address_ (endpoint_ (connection_ p)) in
        (modify (λ h, set_addresses (<[a := wrap 32 (default 0 (connected_addresses_ h !! a) + 1)]> (connected_addresses_ h)) h) >>;
         modify (λ h, set_total (wrap 64 (total_connections_ h + 1)) h) >>;
         modify (λ h, set_active (wrap 32 (current_active_connections_ h + 1)) h) >>;
         add_by_type (type_ (connection_ p)) 1 >>;
         modify (λ h, set_nodes (nodes_ h ++ [id]) h)) h
    end.

Definition release_address (a : address) (h : t) : t :=
  match connected_addresses_ h !! a with
  | None => h
  | Some k =>
      let k := wrap 32 (k - 1) in
      set_addresses (if k =? 0 then delete a (connected_addresses_ h) else <[a := k]> (connected_addresses_ h)) h
  end.

Definition on_node_disconnected (id : Z) : op t unit :=
  λ h,
    match heap_ h !! id with
    | None => (Fault UndefinedBehaviour, h)
    | Some p =>
        (modify (release_address (IPEndpoint.address_ (endpoint_ (connection_ p)))) >>;
         modify (λ h, set_disconnections (wrap 64 (total_disconnections_ h + 1)) h) >>;
         modify (λ h, set_active (wrap 32 (current_active_connections_ h - 1)) h) >>;
         add_by_type (type_ (connection_ p)) (-1)) h
    end.

Definition on_node_data (direction : DataDirectionMode) (bytes_transferred : Z) : op t unit :=
  modify (λ h, set_traffic
    (match direction with
     | kDirInbound => TrafficMeter.update_inbound bytes_transferred (traffic_meter_ h)
     | kDirOutbound => TrafficMeter.update_outbound bytes_transferred (traffic_meter_ h)
     end) h).

(** The traffic that [on_info_timer_expired] reports. *)
Definition on_info_timer_expired (now : Z) : op t (Z * Z * (Z * Z)) :=
  λ h,
    let total := TrafficMeter.get_cumulative_bytes (traffic_meter_ h) in
    let '(i, o, m) := TrafficMeter.get_interval_speed true now (traffic_meter_ h) in
    (Success (total, (i, o)), set_traffic m h).

Section NodeHub.
Context `{Boost} `{Crypto}.
Variable settings : HubSettings.

Definition push (id : Z) (payload : MessagePayload) : op t unit :=
  ignore (on_node id (Node.push_message (network settings) payload kNormal)).

(** A new hub; [now] initialises the static time of the last advertisement. *)
Definition make (key : Bytes) (now : Z) : t :=
  mk Stoppable.kNotStarted 0 0 0 NotifyChannel.make 0
    (Channel.make (Z.to_nat (max_active_connections settings))) (Channel.make (Z.to_nat (max_active_connections settings)))
    (Channel.make 500) (AddressBook.make key) (LruSet.make 64) ∅ 0 [] ∅ 0 0 0 (TrafficMeter.fresh now) now false.

(** ** Messages *)

Definition get_local_service (now : Z) : NodeService.t :=
  NodeService.mk now kNodeNetwork (IPEndpoint.mk (nat_address settings) (default_port settings)).

Definition on_node_received_message (id : Z) (payload : MessagePayload) (now : Z) : op t unit :=
  λ h,
    match heap_ h !! id with
    | None => (Fault UndefinedBehaviour, h)
    | Some p =>
        if negb (is_running h) || negb (Node.is_running (node_ p)) then (Success (), h)
        else
          match payload_type payload with
          | kVersion =>
              if bool_decide (type_ (connection_ p) <> kInbound) then
                (ignore (on_book (AddressBook.set_good (endpoint_ (connection_ p)) (Node.remote_version_ (node_ p)) now)) >>;
                 push id (MsgAddr [get_local_service now])) h
              else (Success (), h)
          | kAddr | kGetAddr =>
              (Success (), set_processor (Channel.try_send (id, payload) (address_book_processor_feed_ h)).2 h)
          | _ => (Success (), h)
          end
    end.

(** What [address_book_processor_work] does with an item. The exceptions that it
    catches are all caught in the address book already. *)
Definition process_book_message (id : Z) (payload : MessagePayload) (now : Z) (shuffle : list NodeService.t -> list NodeService.t)
    (draw : nat -> Z -> Z -> Z) : op t unit :=
  λ h,
    match heap_ h !! id, payload with
    | None, _ => (Fault UndefinedBehaviour, h)
    | Some p, MsgAddr identifiers =>
        ignore (on_book (AddressBook.insert_or_update_all (shuffle identifiers)
          (IPEndpoint.address_ (endpoint_ (connection_ p))) 7200 now draw)) h
    | Some p, MsgNull kGetAddr =>
        (services <~ on_book (AddressBook.get_random_services kMaxAddrItems 25 None now draw);;
         if bool_decide (services = []) then ignore (on_node id (Node.push_null (network settings) kNotFound kNormal))
         else push id (MsgAddr services)) h
    | Some _, _ => (Fault AssertionFailed, h)
    end.

(** ** New connections *)

(** The node for a connection whose socket is open, if the limit allows it: its id. *)
Definition open_node (conn : Connection) (is_open : bool) (local : IPEndpoint.t) (unix_seconds now : Z) : op t (option Z) :=
  λ h,
    if negb is_open then (Success None, h)
    else if max_active_connections settings <=? size h
    then (Success None, set_rejected (wrap 64 (total_rejected_connections_ h + 1)) h)
    else
      match Node.construct (type_ conn) (endpoint_ conn) local (local_endpoint settings) (default_port settings)
              (nonce settings) (user_agent settings) unix_seconds now with
      | Success n =>
          let id := next_node_id_ h in
          let h := set_next_id (id + 1) (set_heap (<[id := {| node_ := n; connection_ := conn |}]> (heap_ h)) h) in
          (on_node id (Node.start (network settings) now) >>; op_ret (Some id)) h
      | Failure e => (Failure e, h)
      | Fault f => (Fault f, h)
      end.

(** What [node_factory_work] does with a connection, up to the start of the node. *)
Definition admit_connection (conn : Connection) (local : IPEndpoint.t) (unix_seconds now : Z) : op t (option Z) :=
  match socket_ conn with
  | None => λ h, (Fault AssertionFailed, h)
  | Some is_open =>
      if bool_decide (type_ conn = kNoConnection) then λ h, (Fault AssertionFailed, h)
      else
        (if bool_decide (type_ conn = kOutbound) then less_needed else op_ret ()) >>;
        open_node conn is_open local unix_seconds now
  end.

Definition node_factory_work (conn : Connection) (local : IPEndpoint.t) (unix_seconds now : Z) : op t unit :=
  id <~ admit_connection conn local unix_seconds now;;
  match id with Some id => on_node_connected id | None => op_ret () end.

(** What [acceptor_work] does with an accepted socket: a full buffer suspends it,
    and the connection waits behind the others. *)
Definition acceptor_work (remote : IPEndpoint.t) : op t unit :=
  λ h,
    if max_active_connections settings <=? size h then (Success (), h)
    else
      let conn := {| endpoint_ := remote; type_ := kInbound; socket_ := Some true |} in
      let feed := node_factory_feed_ h in
      (Success (), if Channel.is_open feed
                   then set_factory (Channel.mk true (Channel.capacity_ feed) (Channel.items_ feed ++ [conn])) h else h).

(** What [connector_work] does with a connection; [connected] tells whether
    [async_connect] succeeds. *)
Definition connector_work (conn : Connection) (connected : bool) (now : Z) : op t unit :=
  λ h,
    let a := IPEndpoint.address_ (endpoint_ conn) in
    if negb (is_running h) then (Success (), h)
    else if match connected_addresses_ h !! a with
            | Some k => max_active_connections_per_ip settings <=? k
            | None => false
            end
    then less_needed h
    else if connected then
      (ignore (on_book (AddressBook.set_tried (endpoint_ conn) now)) >>;
       modify (λ h,
         let feed := node_factory_feed_ h in
         let conn := {| endpoint_ := endpoint_ conn; type_ := type_ conn; socket_ := Some true |} in
         if Channel.is_open feed
         then set_factory (Channel.mk true (Channel.capacity_ feed) (Channel.items_ feed ++ [conn])) h else h)) h
    else (ignore (on_book (AddressBook.set_failed (endpoint_ conn) now)) >>; less_needed) h.

(** The loop of [address_book_selector_work]: each round has its own draws. *)
Fixpoint selector_loop (n : nat) (chance : nat -> NodeServiceInfo.t -> Z) (now : Z)
    (coin : nat -> bool) (draws : nat -> nat -> Selection.attempt) : op t unit :=
  match n with
  | O => op_ret ()
  | S n =>
      (λ h,
         let type := if ipv4_only settings then Some kIPv4 else None in
         match Selection.select_random false type chance now (coin O) (draws O) (address_book_ h) (recently_selected_ h) with
         | (Success None, seen) => less_needed (set_recent seen h)
         | (Success (Some (e, _)), seen) =>
             let conn := {| endpoint_ := e; type_ := kOutbound; socket_ := None |} in
             (Success (), set_connector (Channel.try_send conn (connector_feed_ h)).2 (set_recent seen h))
         | (Failure e, seen) => (Failure e, set_recent seen h)
         | (Fault f, seen) => (Fault f, set_recent seen h)
         end) >>;
      selector_loop n chance now (λ i, coin (S i)) (λ i, draws (S i))
  end.

(** What follows a notification. *)
Definition address_book_selector_work (chance : nat -> NodeServiceInfo.t -> Z) (now : Z) (coin : nat -> bool)
    (draws : nat -> nat -> Selection.attempt) : op t unit :=
  λ h,
    if negb (is_running h) || negb (Channel.is_open (need_connections_ h)) then (Success (), h)
    else selector_loop (Z.to_nat (needed_connections_count_ h)) chance now coin draws h.

Fixpoint feed_connections_from_cli (l : list Bytes) : op t unit :=
  match l with
  | [] => op_ret ()
  | s :: l =>
      (match IPEndpoint.from_string s with
       | Success e =>
           if IPEndpoint.is_routable e then
             modify (λ h, set_connector (Channel.try_send {| endpoint_ := e; type_ := kManualOutbound; socket_ := None |}
                                           (connector_feed_ h)).2 h)
           else op_ret ()
       | _ => op_ret ()
       end) >>;
      feed_connections_from_cli l
  end.

(** [std::map<std::string, std::vector<IPEndpoint>>] in its order. *)
Abbreviation host_map := (list (Bytes * list IPEndpoint.t)).

(** [ret[host]] with [endpoints] appended; [merge] leaves the keys that are there
    as they are. *)
Fixpoint host_put (append : bool) (host : Bytes) (endpoints : list IPEndpoint.t) (m : host_map) : host_map :=
  match m with
  | [] => [(host, endpoints)]
  | (k, l) :: rest =>
      match lex_compare host k with
      | Eq => (k, if append then l ++ endpoints else l) :: rest
      | Lt => (host, endpoints) :: m
      | Gt => (k, l) :: host_put append host endpoints rest
      end
  end.

Definition host_merge (m source : host_map) : host_map := foldl (λ m p, host_put false p.1 p.2 m) m source.

(** The endpoints of the hosts that [resolve] resolves. *)
Definition dns_resolve (running : bool) (resolve : Bytes -> option (list address)) (hosts : list Bytes) : host_map :=
  if negb running then []
  else foldl (λ ret host, match resolve host with
                          | None => ret
                          | Some dns_entries =>
                              host_put true host ((λ a, IPEndpoint.mk a (wrap 16 (default_port settings))) <$> dns_entries) ret
                          end) [] hosts.

Fixpoint send_seeds (endpoints : list IPEndpoint.t) : op t unit :=
  match endpoints with
  | [] => op_ret ()
  | e :: endpoints =>
      modify (λ h, set_connector (Channel.try_send {| endpoint_ := e; type_ := kSeedOutbound; socket_ := None |}
                                    (connector_feed_ h)).2 h) >>;
      send_seeds endpoints
  end.

Definition feed_connections_from_dns (resolve_v4 resolve_v6 : Bytes -> option (list address)) : op t unit :=
  λ h,
    if negb (force_dns_seeding settings) && negb (AddressBook.empty (address_book_ h)) then (Success (), h)
    else
      match get_chain_seeds (chain_config settings) with
      | Success hosts =>
          let host_to_endpoints := host_merge [] (dns_resolve (is_running h) resolve_v4 hosts) in
          let host_to_endpoints := if ipv4_only settings then host_to_endpoints
                                   else host_merge host_to_endpoints (dns_resolve (is_running h) resolve_v6 hosts) in
          if is_running h then send_seeds (concat host_to_endpoints.*2) h else (Success (), h)
      | Failure e => (Failure e, h)
      | Fault f => (Fault f, h)
      end.

(** [load] reads the address book from the database; the timers and coroutines
    that are launched take their own steps.  [service_timer_] tells whether the
    service timer ticks. *)
Definition start (tls_server_ok tls_client_ok : bool) (load : op AddressBook.t unit)
    (resolve_v4 resolve_v6 : Bytes -> option (list address)) : op t bool :=
  λ h,
    let (started, s) := Stoppable.start (state_ h) in
    let h := set_state s h in
    if negb started then (Success false, h)
    else if use_tls settings && negb (tls_server_ok && tls_client_ok) then (Success false, h)
    else
      (ignore (on_book load) >>;
       modify (set_service_timer true) >>;
       feed_connections_from_cli (connect_nodes settings) >>;
       feed_connections_from_dns resolve_v4 resolve_v6 >>;
       op_ret true) h.

(** ** Maintenance *)

(** The nodes that stay in the list; [last_reference] tells whether the list holds
    the only pointer to a node. *)
Fixpoint service_loop (ids : list Z) (shutdown_count it_index : Z) (random_disconnect_index : option Z)
    (advertise : bool) (last_reference : Z -> bool) (now unix_seconds : Z) (running : bool) : op t (list Z) :=
  match ids with
  | [] => op_ret []
  | id :: ids =>
      λ h,
        match heap_ h !! id with
        | None => (Fault UndefinedBehaviour, h)
        | Some p =>
            let n := node_ p in
            let next shutdown_count := service_loop ids shutdown_count (it_index + 1) random_disconnect_index advertise
                                         last_reference now unix_seconds running in
            let keep shutdown_count := rest <~ next shutdown_count;; op_ret (id :: rest) in
            let stop_and_go :=
              on_node id Node.stop >>;
              if shutdown_count - 1 =? 0 then op_ret (id :: ids) else keep (shutdown_count - 1) in
            if bool_decide (Node.state_ n = Stoppable.kNotStarted) && last_reference id
            then service_loop ids shutdown_count it_index random_disconnect_index advertise last_reference now unix_seconds
                   running (set_heap (delete id (heap_ h)) h)
            else if negb running then stop_and_go h
            else if bool_decide (random_disconnect_index = Some it_index) && bool_decide (type_ (connection_ p) <> kInbound)
                    && Node.fully_connected n
            then stop_and_go h
            else
              match Node.is_idle (network settings) now n with
              | Success kNotIdle =>
                  if advertise && (15 * 60 * 1000000000 <? now - Node.connected_time_ n)
                  then (push id (MsgAddr [get_local_service unix_seconds]) >>; keep shutdown_count) h
                  else keep shutdown_count h
              | Success _ => stop_and_go h
              | Failure e => (Failure e, h)
              | Fault f => (Fault f, h)
              end
        end
  end.

(** Whether new connections are asked for. *)
Definition ask_for_connections : op t unit :=
  λ h,
    let outbounds := current_active_outbound_connections_ h in
    if (outbounds <? min_outgoing_connections settings) && negb (AddressBook.empty (address_book_ h))
       && (needed_connections_count_ h =? 0)
    then (Success (), set_need (NotifyChannel.notify (need_connections_ h))
                        (set_needed (min_outgoing_connections settings - outbounds) h))
    else (Success (), h).

(** Whether the timer stops ticking, and the waiting stop is notified; [coin] and [index] are the draws for the
    random disconnection. *)
Definition on_service_timer_expired (coin index : Z -> Z -> Z) (last_reference : Z -> bool) (now unix_seconds : Z) : op t bool :=
  λ h,
    let running := is_running h in
    let random_disconnect_index :=
      if running && (min_outgoing_connections settings <=? current_active_outbound_connections_ h)
         && (min_outgoing_connections settings <? AddressBook.size (address_book_ h))
         && (Random.randomize coin 0 250 =? 0)
      then Some (Random.randomize index 0 (wrap 32 (zlen (nodes_ h) - 1))) else None in
    let advertise := running && (3600 * 1000000000 <? now - last_advertisement_ h) in
    let h := if advertise then set_advertisement now h else h in
    (kept <~ service_loop (nodes_ h) 32 0 random_disconnect_index advertise last_reference now unix_seconds running;;
     modify (set_nodes kept) >>;
     if negb running && bool_decide (kept = []) then modify (set_service_timer false) >>; op_ret true
     else ask_for_connections >>; op_ret false) h.

(** ** Stop *)

(** The request; the rest waits for the peers. *)
Definition stop : op t bool :=
  λ h,
    let (ret, s) := Stoppable.stop (state_ h) in
    let h := set_state s h in
    if ret then
      (Success true, set_factory (Channel.close (node_factory_feed_ h)) (set_connector (Channel.close (connector_feed_ h))
         (set_need (Channel.close (need_connections_ h)) (set_processor (Channel.close (address_book_processor_feed_ h)) h))))
    else (Success false, h).

(** What follows the wait: the timers are stopped. *)
Definition stopped : op t unit :=
  modify (set_service_timer false) >>;
  modify (λ h, set_state (Stoppable.set_stopped (state_ h)) h).

End NodeHub.
End NodeHub.
