(* ===== verification/HubFacts.v ===== *)
(** * Properties of the node hub

    The accounting of connections over any history, the limits on connections,
    and what peers can do to the process. *)

From stdpp Require Import gmap.
From S2P Require Import Prelude Text Stream Boost Serialize Types Random Containers Protocol Misc Addresses Payloads Message Meters Concurrency Chain AddressBook AddressBookFacts AddressBookInvariant Selection Node NodeFacts Hub.
#[local] Open Scope Z_scope.

Module HubFacts.
Import NodeHub.

(** ** Counting *)

Definition count {A} (P : A -> bool) (m : gmap Z A) : Z := Z.of_nat (base.size (filter (λ p, P p.2 = true) m)).
Definition unit_of (c : bool) : Z := if c then 1 else 0.

Lemma count_insert {A} (P : A -> bool) m id c : m !! id = None -> count P (<[id := c]> m) = count P m + unit_of (P c).
Proof.
  intros Hn. unfold count, unit_of. destruct (P c) eqn:E.
  - rewrite map_filter_insert_True by done. rewrite map_size_insert_None; [lia|].
    apply map_lookup_filter_None. by left.
  - rewrite map_filter_insert_False by (simpl; congruence). by rewrite delete_id, Z.add_0_r.
Qed.

Lemma count_delete {A} (P : A -> bool) m id c : m !! id = Some c -> count P (delete id m) = count P m - unit_of (P c).
Proof.
  intros Hs. assert (E : count P m = count P (<[id := c]> (delete id m))) by (by rewrite insert_delete_id).
  rewrite E, count_insert by apply lookup_delete_eq. lia.
Qed.

Lemma tally_nonneg {A} (P : A -> bool) m : 0 <= count P m.
Proof. unfold count. lia. Qed.

Lemma count_le {A} (P : A -> bool) (m : gmap Z A) : count P m <= Z.of_nat (base.size m).
Proof. unfold count. apply Nat2Z.inj_le, map_subseteq_size, map_filter_subseteq. Qed.

Lemma count_split {A} (P : A -> bool) (m : gmap Z A) : count P m + count (λ x, negb (P x)) m = Z.of_nat (base.size m).
Proof.
  induction m as [|id c m Hn IH] using map_ind; [reflexivity|]. rewrite !count_insert, map_size_insert_None by done.
  unfold unit_of. destruct (P c); cbn; lia.
Qed.

(** ** What the accounting depends on *)

(** The connections of the nodes that have been started and have not ended. *)
Definition live_connection (p : peer) : option Connection :=
  if bool_decide (Node.state_ (node_ p) = Stoppable.kNotStarted) then None else Some (connection_ p).
Definition live (h : t) : gmap Z Connection := omap live_connection (heap_ h).

Record frame (h h' : t) : Prop := {
  fr_active : current_active_connections_ h' = current_active_connections_ h;
  fr_inbound : current_active_inbound_connections_ h' = current_active_inbound_connections_ h;
  fr_outbound : current_active_outbound_connections_ h' = current_active_outbound_connections_ h;
  fr_addresses : connected_addresses_ h' = connected_addresses_ h;
  fr_total : total_connections_ h' = total_connections_ h;
  fr_disconnections : total_disconnections_ h' = total_disconnections_ h;
  fr_next : next_node_id_ h' = next_node_id_ h;
  fr_live : live h' = live h;
  fr_peer id p' : heap_ h' !! id = Some p' -> exists p, heap_ h !! id = Some p /\ connection_ p' = connection_ p;
}.

Lemma frame_refl h : frame h h.
Proof. split; eauto. Qed.

Lemma frame_trans h1 h2 h3 : frame h1 h2 -> frame h2 h3 -> frame h1 h3.
Proof.
  intros [] []. split; try congruence. intros id p3 H3. destruct (fr_peer1 id p3 H3) as (p2 & H2 & E2).
  destruct (fr_peer0 id p2 H2) as (p1 & H1 & E1). exists p1. split; congruence.
Qed.

(** Nothing that the accounting depends on is touched. *)
Lemma frame_same h h' :
  current_active_connections_ h' = current_active_connections_ h ->
  current_active_inbound_connections_ h' = current_active_inbound_connections_ h ->
  current_active_outbound_connections_ h' = current_active_outbound_connections_ h ->
  connected_addresses_ h' = connected_addresses_ h -> total_connections_ h' = total_connections_ h ->
  total_disconnections_ h' = total_disconnections_ h -> next_node_id_ h' = next_node_id_ h -> heap_ h' = heap_ h -> frame h h'.
Proof. intros E1 E2 E3 E4 E5 E6 E7 E8. split; unfold live; rewrite ?E8; eauto. Qed.

(** Operations that keep the frame. *)
Definition framed {A} (m : op t A) : Prop := forall h, frame h (m h).2.

Lemma framed_ret {A} (a : A) : framed (op_ret a).
Proof. intros h. apply frame_refl. Qed.

Lemma framed_bind {A B} (m : op t A) (k : A -> op t B) : framed m -> (forall a, framed (k a)) -> framed (op_bind m k).
Proof.
  intros Hm Hk h. specialize (Hm h). unfold op_bind. destruct (m h) as [[a|e|f] h']; try done.
  eapply frame_trans; [exact Hm | apply Hk].
Qed.

Lemma framed_ignore {A} (m : op t A) : framed m -> framed (ignore m).
Proof. intros Hm h. specialize (Hm h). unfold ignore. by destruct (m h) as [[a|e|f] h']. Qed.

Lemma framed_book {A} (m : op AddressBook.t A) : framed (on_book m).
Proof. intros h. unfold on_book. destruct (m (address_book_ h)) as [r b]. by apply frame_same. Qed.

Lemma framed_modify f : (forall h, frame h (f h)) -> framed (modify f).
Proof. intros Hf h. apply Hf. Qed.

Lemma framed_less : framed less_needed.
Proof. apply framed_modify. intros h. by apply frame_same. Qed.

(** A node that runs does not end and one that does not run does not start. *)
Definition ended (n : Node.t) : bool := bool_decide (Node.state_ n = Stoppable.kNotStarted).
Definition keeps_alive {A} (m : op Node.t A) : Prop := forall n, ended (m n).2 = ended n.

Lemma live_set_node id n p h : heap_ h !! id = Some p -> ended n = ended (node_ p) ->
  live (set_heap (<[id := set_node n p]> (heap_ h)) h) = live h.
Proof.
  intros E Es. apply map_eq. intros id'. unfold live. cbn [heap_ set_heap]. rewrite !lookup_omap.
  destruct (decide (id' = id)) as [->|Hne]; [|by rewrite lookup_insert_ne].
  rewrite lookup_insert_eq, E. cbn. unfold live_connection. unfold ended in Es. cbn [node_ set_node connection_]. by rewrite Es.
Qed.

Lemma frame_set_node id n p h : heap_ h !! id = Some p -> ended n = ended (node_ p) ->
  frame h (set_heap (<[id := set_node n p]> (heap_ h)) h).
Proof.
  intros E Es. split; try done; [by apply live_set_node|]. cbn [heap_ set_heap].
  intros id' p' Hp'. destruct (decide (id' = id)) as [->|Hne]; [|rewrite lookup_insert_ne in Hp' by done; eauto].
  rewrite lookup_insert_eq in Hp'. injection Hp' as <-. by exists p.
Qed.

Lemma framed_node {A} id (m : op Node.t A) : keeps_alive m -> framed (on_node id m).
Proof.
  intros Hm h. unfold on_node. destruct (heap_ h !! id) as [p|] eqn:E; [|apply frame_refl].
  specialize (Hm (node_ p)). destruct (m (node_ p)) as [r n]. by apply frame_set_node.
Qed.

Section Frames.
Context `{Boost} `{Crypto}.
Variable settings : HubSettings.

Lemma push_message_alive payload priority : keeps_alive (Node.push_message (network settings) payload priority).
Proof. intros n. unfold Node.push_message. by destruct (Message.push payload _) as [[[u|e|f] payload'] m]. Qed.

Lemma push_null_alive ty priority : keeps_alive (Node.push_null (network settings) ty priority).
Proof.
  intros n. unfold Node.push_null. destruct (make_null ty) as [q|e|f]; try reflexivity.
  pose proof (push_message_alive q priority n) as H'. unfold op_bind, op_ret.
  by destruct (Node.push_message (network settings) q priority n) as [[u|e|f] n'].
Qed.

Lemma stop_alive : keeps_alive Node.stop.
Proof. intros n. unfold ended, Node.stop, Stoppable.stop. destruct (Node.state_ n) eqn:E; simpl; by rewrite ?E. Qed.

Lemma framed_push id payload : framed (push settings id payload).
Proof. apply framed_ignore, framed_node, push_message_alive. Qed.

Lemma framed_on_node_data d k : framed (on_node_data d k).
Proof. apply framed_modify. intros h. by apply frame_same. Qed.

Lemma framed_on_info_timer_expired now : framed (on_info_timer_expired now).
Proof.
  intros h. unfold on_info_timer_expired. destruct (TrafficMeter.get_interval_speed true now (traffic_meter_ h)) as [[i o] m].
  by apply frame_same.
Qed.

Lemma framed_on_node_received_message id payload now : framed (on_node_received_message settings id payload now).
Proof.
  intros h. unfold on_node_received_message. destruct (heap_ h !! id) as [p|]; [|apply frame_refl].
  destruct (_ || _); [apply frame_refl|]. destruct (payload_type payload); try apply frame_refl; try (by apply frame_same).
  case_bool_decide; [|apply frame_refl].
  apply (framed_bind (ignore _) (λ _, push settings id _)); [apply framed_ignore, framed_book | intros _; apply framed_push].
Qed.

Lemma framed_process_book_message id payload now shuffle draw :
  framed (process_book_message settings id payload now shuffle draw).
Proof.
  intros h. unfold process_book_message. destruct (heap_ h !! id) as [p|]; [|apply frame_refl].
  destruct payload as [[]| | | | | |]; try apply frame_refl; try apply framed_ignore, framed_book.
  refine (framed_bind (on_book _) _ _ _ h); [apply framed_book|]. intros services.
  case_bool_decide; [apply framed_ignore, framed_node, push_null_alive | apply framed_push].
Qed.

Lemma framed_acceptor_work remote : framed (acceptor_work settings remote).
Proof.
  intros h. unfold acceptor_work. destruct (_ <=? _); [apply frame_refl|].
  destruct (Channel.is_open _); [by apply frame_same | apply frame_refl].
Qed.

Lemma framed_connector_work conn connected now : framed (connector_work settings conn connected now).
Proof.
  intros h. unfold connector_work. destruct (negb _); [apply frame_refl|].
  match goal with |- context [if ?c then less_needed h else _] => destruct c; [apply framed_less|] end.
  destruct connected.
  - refine (framed_bind (ignore _) _ _ _ h); [apply framed_ignore, framed_book|]. intros _. apply framed_modify. intros h'.
    destruct (Channel.is_open _); [by apply frame_same | apply frame_refl].
  - refine (framed_bind (ignore _) _ _ _ h); [apply framed_ignore, framed_book|]. intros _. apply framed_less.
Qed.

Lemma framed_selector_loop n chance now coin draws : framed (selector_loop settings n chance now coin draws).
Proof.
  revert coin draws. induction n as [|n IH]; intros coin draws; [apply framed_ret|]. apply framed_bind; [|intros _; apply IH].
  intros h. cbv zeta. destruct (Selection.select_random _ _ _ _ (coin O) (draws O) (address_book_ h) _) as [[[[? ?]|]|?|?] seen];
    by apply frame_same.
Qed.

Lemma framed_selector_work chance now coin draws : framed (address_book_selector_work settings chance now coin draws).
Proof. intros h. unfold address_book_selector_work. destruct (_ || _); [apply frame_refl | apply framed_selector_loop]. Qed.

Lemma framed_feed_cli l : framed (feed_connections_from_cli l).
Proof.
  induction l as [|s l IH]; [apply framed_ret|]. apply framed_bind; [|done].
  destruct (IPEndpoint.from_string s) as [e|e|f]; try apply framed_ret. destruct (IPEndpoint.is_routable e); [|apply framed_ret].
  apply framed_modify. intros h. by apply frame_same.
Qed.

Lemma framed_send_seeds l : framed (send_seeds l).
Proof.
  induction l as [|e l IH]; [apply framed_ret|]. apply framed_bind; [|done]. apply framed_modify. intros h. by apply frame_same.
Qed.

Lemma framed_feed_dns v4 v6 : framed (feed_connections_from_dns settings v4 v6).
Proof.
  intros h. unfold feed_connections_from_dns. destruct (_ && _); [apply frame_refl|].
  destruct (get_chain_seeds _) as [hosts|e|f]; try apply frame_refl. cbv zeta.
  destruct (is_running h); [apply framed_send_seeds | apply frame_refl].
Qed.

Lemma framed_start server client load v4 v6 : framed (start settings server client load v4 v6).
Proof.
  intros h. unfold start. destruct (Stoppable.start (state_ h)) as [r s].
  apply (frame_trans _ (set_state s h)); [by apply frame_same|]. destruct (negb r); [apply frame_refl|].
  destruct (use_tls settings && _); [apply frame_refl|].
  refine (framed_bind (ignore _) _ _ _ _); [apply framed_ignore, framed_book|]. intros _.
  apply framed_bind; [apply framed_modify; intros h'; by apply frame_same|]. intros _. apply framed_bind; [apply framed_feed_cli|]. intros _. apply framed_bind; [apply framed_feed_dns | intros _; apply framed_ret].
Qed.

(** Only nodes that do not run leave the memory. *)
Lemma frame_release id p h : heap_ h !! id = Some p -> Node.state_ (node_ p) = Stoppable.kNotStarted ->
  frame h (set_heap (delete id (heap_ h)) h).
Proof.
  intros E Hd. split; try done; cbn [heap_ set_heap].
  - apply map_eq. intros id'. unfold live. cbn [heap_ set_heap]. rewrite !lookup_omap.
    destruct (decide (id' = id)) as [->|Hne]; [|by rewrite lookup_delete_ne].
    rewrite lookup_delete_eq, E. cbn. unfold live_connection. by rewrite bool_decide_true.
  - intros id' p' Hp'. rewrite lookup_delete_Some in Hp'. destruct Hp'. eauto.
Qed.

Lemma framed_service_loop ids count ix rdi advertise lr now us running :
  framed (service_loop settings ids count ix rdi advertise lr now us running).
Proof.
  revert count ix. induction ids as [|id ids IH]; intros count ix; [apply framed_ret|]. intros h. cbn [service_loop].
  destruct (heap_ h !! id) as [p|] eqn:E; [|apply frame_refl].
  assert (Hkeep : forall c, framed (rest <~ service_loop settings ids c (ix + 1) rdi advertise lr now us running;; op_ret (id :: rest))).
  { intros c. apply framed_bind; [apply IH | intros rest; apply framed_ret]. }
  assert (Hstop : framed (on_node id Node.stop >>; if count - 1 =? 0 then op_ret (id :: ids) else
      rest <~ service_loop settings ids (count - 1) (ix + 1) rdi advertise lr now us running;; op_ret (id :: rest))).
  { apply framed_bind; [apply framed_node, stop_alive|]. intros _. destruct (_ =? 0); [apply framed_ret | apply Hkeep]. }
  destruct (bool_decide (Node.state_ (node_ p) = Stoppable.kNotStarted) && lr id) eqn:Ed.
  { apply andb_true_iff in Ed as [Ed _]. apply bool_decide_eq_true in Ed.
    eapply frame_trans; [exact (frame_release id p h E Ed) | apply IH]. }
  destruct (negb running); [apply Hstop|]. destruct (_ && _ && _); [apply Hstop|].
  destruct (Node.is_idle _ _ _) as [[]|e|f]; try apply Hstop; try apply frame_refl.
  destruct (advertise && _); [|apply Hkeep]. refine (framed_bind (push settings id _) _ _ _ h); [apply framed_push | intros _; apply Hkeep].
Qed.

Lemma framed_on_service_timer_expired coin index lr now us : framed (on_service_timer_expired settings coin index lr now us).
Proof.
  intros h. unfold on_service_timer_expired.
  set (h1 := if _ && (3600 * _ <? _) then _ else h). assert (E1 : frame h h1).
  { unfold h1. destruct (_ && _); [by apply frame_same | apply frame_refl]. }
  clearbody h1. eapply frame_trans; [exact E1|].
  refine (framed_bind (service_loop _ _ _ _ _ _ _ _ _ _) _ _ _ h1); [apply framed_service_loop|]. intros kept.
  apply framed_bind; [apply framed_modify; intros h'; by apply frame_same|]. intros _.
  destruct (negb _ && _); (apply framed_bind; [|intros _; apply framed_ret]); [apply framed_modify; intros h'; by apply frame_same|].
  intros h'. unfold ask_for_connections. destruct (_ && _ && _); [by apply frame_same | apply frame_refl].
Qed.

Lemma framed_stop : framed stop.
Proof.
  intros h. unfold stop. destruct (Stoppable.stop (state_ h)) as [[] s]; by apply frame_same.
Qed.

Lemma framed_stopped : framed stopped.
Proof. apply framed_bind; [|intros _]; apply framed_modify; intros h; by apply frame_same. Qed.

(** ** The accounting *)

Definition is_inbound (c : Connection) : bool := bool_decide (type_ c = kInbound).
Definition is_outbound (c : Connection) : bool := negb (is_inbound c).
Definition whole (c : Connection) : bool := true.
Definition at_address (a : address) (c : Connection) : bool := bool_decide (IPEndpoint.address_ (endpoint_ c) = a).

(** The counters stand at [B], which gives a balance for each kind of connection, up to their width. *)
Record counters (B : (Connection -> bool) -> Z) (h : t) : Prop := {
  ct_active : current_active_connections_ h = wrap 32 (B whole);
  ct_inbound : current_active_inbound_connections_ h = wrap 32 (B is_inbound);
  ct_outbound : current_active_outbound_connections_ h = wrap 32 (B is_outbound);
  ct_total : wrap 64 (total_connections_ h - total_disconnections_ h) = wrap 64 (B whole);
}.

(** The table of addresses stands at [N]; an address at zero has no entry. *)
Definition addresses (N : address -> Z) (h : t) : Prop :=
  forall a, 0 <= N a < 2 ^ 32 /\ connected_addresses_ h !! a = if N a =? 0 then None else Some (N a).

Lemma counters_frame B h h' : frame h h' -> counters B h -> counters B h'.
Proof. intros [] []. split; congruence. Qed.

Lemma addresses_frame N h h' : frame h h' -> addresses N h -> addresses N h'.
Proof. intros [] Hn a. rewrite fr_addresses0. apply Hn. Qed.

Lemma counters_ext B B' h : (forall P, B P = B' P) -> counters B h -> counters B' h.
Proof. intros E []. split; by rewrite <- E. Qed.

Lemma addresses_ext N N' h : (forall a, N a = N' a) -> addresses N h -> addresses N' h.
Proof. intros E Hn a. rewrite <- E. apply Hn. Qed.

Lemma wrap_small w z : 0 <= z < 2 ^ w -> wrap w z = z.
Proof. apply Z.mod_small. Qed.
Lemma wrap_plus w a d : wrap w (wrap w a + d) = wrap w (a + d).
Proof. unfold wrap. apply Zplus_mod_idemp_l. Qed.
Lemma wrap_minus w a d : wrap w (wrap w a - d) = wrap w (a - d).
Proof. unfold wrap. apply Zminus_mod_idemp_l. Qed.
Lemma wrap_minus_r w a d : wrap w (a - wrap w d) = wrap w (a - d).
Proof. unfold wrap. apply Zminus_mod_idemp_r. Qed.
Lemma wrap_shift w a b d : wrap w a = wrap w b -> wrap w (a + d) = wrap w (b + d).
Proof. intros E. by rewrite <- wrap_plus, E, wrap_plus. Qed.

(** What the two members that count do, for each counter. *)
Lemma on_node_connected_fields id p h : heap_ h !! id = Some p -> type_ (connection_ p) <> kNoConnection ->
  let h' := (on_node_connected id h).2 in let a := IPEndpoint.address_ (endpoint_ (connection_ p)) in
  (on_node_connected id h).1 = Success () /\ heap_ h' = heap_ h /\ next_node_id_ h' = next_node_id_ h /\
  current_active_connections_ h' = wrap 32 (current_active_connections_ h + 1) /\
  current_active_inbound_connections_ h' = (if is_inbound (connection_ p)
    then wrap 32 (current_active_inbound_connections_ h + 1) else current_active_inbound_connections_ h) /\
  current_active_outbound_connections_ h' = (if is_outbound (connection_ p)
    then wrap 32 (current_active_outbound_connections_ h + 1) else current_active_outbound_connections_ h) /\
  connected_addresses_ h' = <[a := wrap 32 (default 0 (connected_addresses_ h !! a) + 1)]> (connected_addresses_ h) /\
  total_connections_ h' = wrap 64 (total_connections_ h + 1) /\ total_disconnections_ h' = total_disconnections_ h.
Proof.
  intros Hp Ht. unfold on_node_connected, is_outbound, is_inbound, op_bind, modify, add_by_type. rewrite Hp.
  destruct (type_ (connection_ p)); done.
Qed.

Lemma release_address_other a h :
  let h' := release_address a h in
  heap_ h' = heap_ h /\ next_node_id_ h' = next_node_id_ h /\
  current_active_connections_ h' = current_active_connections_ h /\
  current_active_inbound_connections_ h' = current_active_inbound_connections_ h /\
  current_active_outbound_connections_ h' = current_active_outbound_connections_ h /\
  total_connections_ h' = total_connections_ h /\ total_disconnections_ h' = total_disconnections_ h.
Proof. unfold release_address. by destruct (connected_addresses_ h !! a). Qed.

Lemma on_node_disconnected_fields id p h : heap_ h !! id = Some p -> type_ (connection_ p) <> kNoConnection ->
  let h' := (on_node_disconnected id h).2 in let a := IPEndpoint.address_ (endpoint_ (connection_ p)) in
  (on_node_disconnected id h).1 = Success () /\ heap_ h' = heap_ h /\ next_node_id_ h' = next_node_id_ h /\
  current_active_connections_ h' = wrap 32 (current_active_connections_ h - 1) /\
  current_active_inbound_connections_ h' = (if is_inbound (connection_ p)
    then wrap 32 (current_active_inbound_connections_ h - 1) else current_active_inbound_connections_ h) /\
  current_active_outbound_connections_ h' = (if is_outbound (connection_ p)
    then wrap 32 (current_active_outbound_connections_ h - 1) else current_active_outbound_connections_ h) /\
  connected_addresses_ h' = connected_addresses_ (release_address a h) /\
  total_connections_ h' = total_connections_ h /\ total_disconnections_ h' = wrap 64 (total_disconnections_ h + 1).
Proof.
  intros Hp Ht. unfold on_node_disconnected, is_outbound, is_inbound, op_bind, modify, add_by_type. rewrite Hp.
  pose proof (release_address_other (IPEndpoint.address_ (endpoint_ (connection_ p))) h) as (R1 & R2 & R3 & R4 & R5 & R6 & R7).
  set (g := release_address _ h) in *. clearbody g.
  destruct (type_ (connection_ p)); cbn -[wrap]; rewrite ?R1, ?R2, ?R3, ?R4, ?R5, ?R6, ?R7; done.
Qed.

(** A connection is counted. *)
Lemma counters_up B id p h : counters B h -> heap_ h !! id = Some p -> type_ (connection_ p) <> kNoConnection ->
  counters (λ P, B P + unit_of (P (connection_ p))) (on_node_connected id h).2.
Proof.
  intros [] Hp Ht. destruct (on_node_connected_fields id p h Hp Ht) as (_ & _ & _ & E1 & E2 & E3 & _ & E5 & E6). split.
  - rewrite E1, ct_active0. apply wrap_plus.
  - rewrite E2, ct_inbound0. unfold unit_of. destruct (is_inbound _); [apply wrap_plus | by rewrite Z.add_0_r].
  - rewrite E3, ct_outbound0. unfold unit_of. destruct (is_outbound _); [apply wrap_plus | by rewrite Z.add_0_r].
  - rewrite E5, E6, wrap_minus. cbn [unit_of whole].
    replace (total_connections_ h + 1 - total_disconnections_ h) with (total_connections_ h - total_disconnections_ h + 1) by lia.
    by apply wrap_shift.
Qed.

Lemma addresses_up N id p h : addresses N h -> heap_ h !! id = Some p -> type_ (connection_ p) <> kNoConnection ->
  N (IPEndpoint.address_ (endpoint_ (connection_ p))) + 1 < 2 ^ 32 -> addresses (λ a, N a + unit_of (at_address a (connection_ p))) (on_node_connected id h).2.
Proof.
  intros Hn Hp Ht Hw a. destruct (on_node_connected_fields id p h Hp Ht) as (_ & _ & _ & _ & _ & _ & E & _). rewrite E.
  destruct (Hn a) as [Hr El]. unfold unit_of, at_address. case_bool_decide as Ha.
  - rewrite Ha in *. rewrite lookup_insert_eq, El. split; [lia|]. rewrite (proj2 (Z.eqb_neq (N a + 1) 0)) by lia. f_equal.
    destruct (Z.eqb_spec (N a) 0) as [->|]; cbn [default]; [done | apply wrap_small; lia].
  - rewrite lookup_insert_ne, Z.add_0_r by done. done.
Qed.

(** A connection ends. *)
Lemma counters_down B id p h : counters B h -> heap_ h !! id = Some p -> type_ (connection_ p) <> kNoConnection ->
  counters (λ P, B P - unit_of (P (connection_ p))) (on_node_disconnected id h).2.
Proof.
  intros [] Hp Ht. destruct (on_node_disconnected_fields id p h Hp Ht) as (_ & _ & _ & E1 & E2 & E3 & _ & E5 & E6). split.
  - rewrite E1, ct_active0. apply wrap_minus.
  - rewrite E2, ct_inbound0. unfold unit_of. destruct (is_inbound _); [apply wrap_minus | by rewrite Z.sub_0_r].
  - rewrite E3, ct_outbound0. unfold unit_of. destruct (is_outbound _); [apply wrap_minus | by rewrite Z.sub_0_r].
  - rewrite E5, E6, wrap_minus_r. cbn [unit_of whole].
    replace (total_connections_ h - (total_disconnections_ h + 1)) with (total_connections_ h - total_disconnections_ h + -1) by lia.
    by apply wrap_shift.
Qed.

(** Its address is released when it has an entry. *)
Lemma addresses_down N id p h : addresses N h -> heap_ h !! id = Some p -> type_ (connection_ p) <> kNoConnection ->
  let entered a := negb (N a =? 0) in
  addresses (λ a, N a - unit_of (at_address a (connection_ p) && entered a)) (on_node_disconnected id h).2.
Proof.
  intros Hn Hp Ht entered a. destruct (on_node_disconnected_fields id p h Hp Ht) as (_ & _ & _ & _ & _ & _ & E & _). rewrite E.
  set (b := IPEndpoint.address_ (endpoint_ (connection_ p))). destruct (Hn a) as [Hr El], (Hn b) as [Hrb Eb].
  unfold unit_of, at_address, release_address, entered. fold b. rewrite Eb. case_bool_decide as Ha.
  - rewrite <- Ha in *. destruct (Z.eqb_spec (N b) 0) as [E0|E0]; cbn [negb andb].
    + rewrite Eb, E0. done.
    + cbn [connected_addresses_ set_addresses]. rewrite wrap_small by lia. split; [lia|].
      destruct (_ =? 0); [apply lookup_delete_eq | apply lookup_insert_eq].
  - cbn [andb]. rewrite Z.sub_0_r. split; [done|]. rewrite <- El. destruct (N b =? 0); [done|]. cbn [connected_addresses_ set_addresses].
    destruct (wrap 32 _ =? 0); [by apply lookup_delete_ne | by apply lookup_insert_ne].
Qed.

(** A node that is started runs. *)
Lemma push_local_version_alive priority : keeps_alive (Node.push_local_version (network settings) priority).
Proof.
  intros n. unfold Node.push_local_version. pose proof (push_message_alive (MsgVersion (Node.local_version_ n)) priority n) as H'.
  destruct (Node.push_message _ _ _ n) as [[[]|e|f] n']; done.
Qed.

Lemma node_start_runs now n : Node.state_ n = Stoppable.kNotStarted ->
  ended (Node.start (network settings) now n).2 = false /\ forall e, (Node.start (network settings) now n).1 <> Failure e.
Proof.
  intros E. unfold Node.start, Stoppable.start. rewrite E. cbn -[Node.push_local_version].
  unfold op_bind, Node.post, Node.modify. cbn -[Node.push_local_version]. case_bool_decide; [|split; [reflexivity|done]].
  unfold Node.ignore. match goal with |- context [Node.push_local_version ?a ?b ?c] =>
    pose proof (push_local_version_alive b c) as H'; destruct (Node.push_local_version a b c) as [[u|e|f] n'] end;
    (split; [exact H' | done]).
Qed.

Lemma construct_not_started ty remote local le port nonce ua us now n :
  Node.construct ty remote local le port nonce ua us now = Success n -> Node.state_ n = Stoppable.kNotStarted.
Proof. unfold Node.construct. destruct (IPEndpoint.from_string le) as [e|e|f]; try done. by intros [= <-]. Qed.

(** A connection that the factory takes becomes a node that runs, unless the limit
    is reached or its socket is closed. *)
Definition install (p : peer) (h : t) : t := set_next_id (next_node_id_ h + 1) (set_heap (<[next_node_id_ h := p]> (heap_ h)) h).

Lemma open_node_inv conn o local us now h r h1 : open_node settings conn o local us now h = (r, h1) -> (forall f, r <> Fault f) ->
  (forall id, r <> Success (Some id)) /\ frame h h1 \/
  exists p, r = Success (Some (next_node_id_ h)) /\ h1 = install p h /\ connection_ p = conn /\ ended (node_ p) = false /\
    size h < max_active_connections settings.
Proof.
  unfold open_node. intros E Hf. destruct o; cbn [negb] in E; [|injection E as <- <-; left; split; [done | apply frame_refl]].
  destruct (Z.leb_spec (max_active_connections settings) (size h)); [injection E as <- <-; left; split; [done | by apply frame_same]|].
  destruct (Node.construct _ _ _ _ _ _ _ _ _) as [n|e|f] eqn:Ec.
  2: { injection E as <- <-. left; split; [done | apply frame_refl]. }
  2: { injection E as <- <-. by destruct (Hf f). }
  apply construct_not_started in Ec. pose proof (node_start_runs now n Ec) as [Hr Hs]. revert E.
  unfold op_bind, on_node. cbn [heap_ set_heap set_next_id]. rewrite lookup_insert_eq. cbn [node_].
  destruct (Node.start (network settings) now n) as [[b|e|f] n'] eqn:Es; intros [= <- <-].
  - right. exists {| node_ := n'; connection_ := conn |}. split_and!; try done. unfold install. by rewrite insert_insert_eq.
  - by destruct (Hs e).
  - by destruct (Hf f).
Qed.

Lemma live_install p h : ended (node_ p) = false -> live (install p h) = <[next_node_id_ h := connection_ p]> (live h).
Proof.
  intros Hr. unfold live. cbn [heap_ install set_next_id set_heap]. apply omap_insert_Some.
  unfold live_connection. unfold ended in Hr. by rewrite Hr.
Qed.

(** The end of a node: it tells the hub, and is not running any more. *)
Definition node_ends (id : Z) : op t unit := on_node_disconnected id >>; on_node id Node.on_stop_completed.

Lemma node_ends_effect id p h : heap_ h !! id = Some p -> type_ (connection_ p) <> kNoConnection ->
  exists q, connection_ q = connection_ p /\ ended (node_ q) = true /\
    (node_ends id h).2 = set_heap (<[id := q]> (heap_ h)) (on_node_disconnected id h).2.
Proof.
  intros Hp Ht. destruct (on_node_disconnected_fields id p h Hp Ht) as (F0 & F1 & _). unfold node_ends, op_bind.
  destruct (on_node_disconnected id h) as [r h1]. cbn [fst snd] in *. subst r. unfold on_node. rewrite F1, Hp.
  exists (set_node (Node.on_stop_completed (node_ p)).2 p). split_and!; try done.
Qed.

Lemma live_ends id q h g : ended (node_ q) = true -> heap_ g = <[id := q]> (heap_ h) -> live g = delete id (live h).
Proof.
  intros Hq E. unfold live. rewrite E. apply map_eq. intros id'. rewrite lookup_omap.
  destruct (decide (id' = id)) as [->|Hne].
  - rewrite lookup_insert_eq, lookup_delete_eq. cbn. unfold live_connection. unfold ended in Hq. by rewrite Hq.
  - by rewrite lookup_insert_ne, lookup_delete_ne, lookup_omap.
Qed.

(** ** Histories *)

(** Where the coroutine [node_factory_work] is: it waits for a connection, or has started a node and not told the hub of
    it.  [Gone] is the second, of a node that has ended meanwhile. *)
Inductive turn := Idle | Started (id : Z) | Gone (id : Z) (conn : Connection).

(** [missed]: the addresses of the connections that have ended while their address had no entry in the table. *)
Record world := mk_world { hub_ : t; turn_ : turn; missed_ : list address }.

(** The events that leave the counters alone. *)
Inductive hub_step : t -> t -> Prop :=
| step_node_moves id p n h :
    heap_ h !! id = Some p -> ended n = ended (node_ p) -> hub_step h (set_heap (<[id := set_node n p]> (heap_ h)) h)
| step_data direction bytes_transferred h : hub_step h (on_node_data direction bytes_transferred h).2
| step_received id payload now h : hub_step h (on_node_received_message settings id payload now h).2
| step_processor id payload now shuffle draw h : hub_step h (process_book_message settings id payload now shuffle draw h).2
| step_acceptor remote h : hub_step h (acceptor_work settings remote h).2
| step_connector conn connected now h : hub_step h (connector_work settings conn connected now h).2
| step_selector chance now coin draws h : hub_step h (address_book_selector_work settings chance now coin draws h).2
| step_start server_ok client_ok load v4 v6 h : hub_step h (start settings server_ok client_ok load v4 v6 h).2
| step_service_timer coin index last_reference now unix_seconds h :
    hub_step h (on_service_timer_expired settings coin index last_reference now unix_seconds h).2
| step_info_timer now h : hub_step h (on_info_timer_expired now h).2
| step_stop h : hub_step h (stop h).2
| step_stopped h : hub_step h (stopped h).2.

(** The addresses that are missed when [conn] ends. *)
Definition miss (conn : Connection) (h : t) (missed : list address) : list address :=
  let a := IPEndpoint.address_ (endpoint_ conn) in
  match connected_addresses_ h !! a with None => a :: missed | Some _ => missed end.

(** One step of a hub: each event that reaches it, and the nodes moving on their
    own.  A fault ends the process, and with it the history.  The factory starts a node and
    counts it in two steps; with [early] the node may end in between. *)
Inductive step (early : bool) : world -> world -> Prop :=
| step_admission conn local unix_seconds now h r h' missed :
    admit_connection settings conn local unix_seconds now h = (r, h') -> (forall f, r <> Fault f) ->
    step early (mk_world h Idle missed) (mk_world h' (match r with Success (Some id) => Started id | _ => Idle end) missed)
| step_count id h h' missed :
    on_node_connected id h = (Success (), h') -> step early (mk_world h (Started id) missed) (mk_world h' Idle missed)
| step_count_gone id conn h h' missed :
    on_node_connected id h = (Success (), h') -> step early (mk_world h (Gone id conn) missed) (mk_world h' Idle missed)
| step_node_ends id p h t missed :
    heap_ h !! id = Some p -> Node.state_ (node_ p) = Stoppable.kStopping -> t <> Started id ->
    step early (mk_world h t missed) (mk_world (node_ends id h).2 t (miss (connection_ p) h missed))
| step_node_ends_early id p h missed :
    early = true -> heap_ h !! id = Some p -> Node.state_ (node_ p) = Stoppable.kStopping ->
    step early (mk_world h (Started id) missed)
      (mk_world (node_ends id h).2 (Gone id (connection_ p)) (miss (connection_ p) h missed))
| step_hub h h' t missed : hub_step h h' -> step early (mk_world h t missed) (mk_world h' t missed).

Lemma hub_step_frame h h' : hub_step h h' -> frame h h'.
Proof.
  intros []; [by apply frame_set_node | apply framed_on_node_data | apply framed_on_node_received_message |
    apply framed_process_book_message | apply framed_acceptor_work | apply framed_connector_work | apply framed_selector_work |
    apply framed_start | apply framed_on_service_timer_expired | apply framed_on_info_timer_expired | apply framed_stop | apply framed_stopped].
Qed.

(** The connections that have been counted and have not ended, and what is owed for one that has ended and is going to be
    counted. *)
Definition counted (w : world) : gmap Z Connection :=
  match turn_ w with Started id => delete id (live (hub_ w)) | _ => live (hub_ w) end.
Definition owed (w : world) (P : Connection -> bool) : Z := match turn_ w with Gone _ c => unit_of (P c) | _ => 0 end.
Definition times (a : address) (l : list address) : Z := zlen (filter (λ b, b = a) l).
Definition balance (w : world) (P : Connection -> bool) : Z := count P (counted w) - owed w P.
Definition entries (w : world) (a : address) : Z := balance w (at_address a) + times a (missed_ w).

(** The entries of the table do not wrap around. *)
Definition missed_width (w : world) : Prop := max_active_connections settings + zlen (missed_ w) < 2 ^ 32.

Record accounted (w : world) : Prop := {
  ac_counters : counters (balance w) (hub_ w);
  ac_addresses : missed_width w -> addresses (entries w) (hub_ w);
  ac_max : Z.of_nat (base.size (counted w)) <= max_active_connections settings;
  ac_types id c : live (hub_ w) !! id = Some c -> type_ c <> kNoConnection;
  ac_fresh id : is_Some (heap_ (hub_ w) !! id) -> id < next_node_id_ (hub_ w);
  ac_turn : match turn_ w with
            | Idle => True
            | Started id => is_Some (live (hub_ w) !! id) /\ Z.of_nat (base.size (counted w)) < max_active_connections settings
            | Gone id c => type_ c <> kNoConnection /\ live (hub_ w) !! id = None /\ id < next_node_id_ (hub_ w) /\
                forall p, heap_ (hub_ w) !! id = Some p -> connection_ p = c
            end;
}.

Lemma count_whole (L : gmap Z Connection) : count whole L = Z.of_nat (base.size L).
Proof. unfold count. f_equal. f_equal. apply map_filter_id. done. Qed.

Lemma times_bound a l : 0 <= times a l <= zlen l.
Proof. unfold times. split; [lia|]. apply Nat2Z.inj_le, length_filter. Qed.

Lemma counted_frame h h' t m : live h' = live h -> counted (mk_world h' t m) = counted (mk_world h t m).
Proof. intros E. unfold counted. cbn [turn_ hub_]. by rewrite E. Qed.

Lemma accounted_frame h h' t m : frame h h' -> accounted (mk_world h t m) -> accounted (mk_world h' t m).
Proof.
  intros Hf [Hc Ha Hm Ht Hr Hu]. pose proof (counted_frame h h' t m (fr_live _ _ Hf)) as Ec.
  split; cbn [hub_ turn_ missed_] in *; rewrite ?Ec, ?(fr_live _ _ Hf), ?(fr_next _ _ Hf); try done.
  - apply (counters_frame _ h); [done|]. revert Hc. apply counters_ext. intros P. unfold balance. by rewrite Ec.
  - intros Hw. apply (addresses_frame _ h); [done|]. generalize (Ha Hw). apply addresses_ext. intros a. unfold entries, balance. by rewrite Ec.
  - intros id [p (q & Hq & _)%(fr_peer _ _ Hf)]. apply Hr. by exists q.
  - destruct t as [|id|id c]; [done | done |]. destruct Hu as (U1 & U2 & U3 & U4). split_and!; try done.
    intros p (q & Hq & ->)%(fr_peer _ _ Hf). by apply U4.
Qed.

Lemma accounted_make key now : 0 <= max_active_connections settings -> accounted (mk_world (make settings key now) Idle []).
Proof.
  intros Hm. assert (E : live (make settings key now) = ∅) by reflexivity.
  split; unfold balance, entries, counted; cbn [turn_ hub_ missed_]; rewrite ?E; try done.
  intros id [p Hp]. done.
Qed.

(** What the factory does up to the start of the node. *)
Lemma admit_inv conn local us now h r h' : admit_connection settings conn local us now h = (r, h') -> (forall f, r <> Fault f) ->
  exists h0, frame h h0 /\
    ((forall id, r <> Success (Some id)) /\ frame h0 h' \/
     exists p, r = Success (Some (next_node_id_ h0)) /\ h' = install p h0 /\ type_ (connection_ p) <> kNoConnection /\
       ended (node_ p) = false /\ size h0 < max_active_connections settings).
Proof.
  unfold admit_connection. intros E Hf.
  destruct (socket_ conn) as [o|]; [|injection E as <- <-; by destruct (Hf AssertionFailed)].
  case_bool_decide as Ht; [injection E as <- <-; by destruct (Hf AssertionFailed)|].
  set (first := if bool_decide _ then less_needed else op_ret ()) in E.
  assert (H1 : exists h0, first h = (Success (), h0) /\ frame h h0).
  { unfold first. case_bool_decide; eexists; (split; [reflexivity|]); [apply framed_less | apply frame_refl]. }
  destruct H1 as (h0 & E0 & F0). exists h0. split; [done|]. revert E. unfold op_bind at 1. rewrite E0. intros E.
  destruct (open_node_inv conn o local us now h0 r h' E Hf) as [[Hn F1]|(p & -> & -> & Ep & Hr & Hm)]; [by left|].
  right. exists p. by rewrite Ep.
Qed.

Hypothesis max_width : 0 <= max_active_connections settings < 2 ^ 32.

(** While nothing is owed the number of connections is that of the counted ones. *)
Lemma size_counted w : accounted w -> (forall id c, turn_ w <> Gone id c) -> size (hub_ w) = Z.of_nat (base.size (counted w)).
Proof.
  intros [Hc _ Hm _ _ _] Hg. unfold size. rewrite (ct_active _ _ Hc). unfold balance. rewrite count_whole.
  unfold owed. destruct (turn_ w) as [| |id c]; [| |by destruct (Hg id c)]; rewrite Z.sub_0_r; apply wrap_small; lia.
Qed.

Lemma admission_accounted conn local us now h r h' m : accounted (mk_world h Idle m) ->
  admit_connection settings conn local us now h = (r, h') -> (forall f, r <> Fault f) ->
  accounted (mk_world h' (match r with Success (Some id) => Started id | _ => Idle end) m).
Proof.
  intros Ha E Hf. destruct (admit_inv conn local us now h r h' E Hf) as (h0 & F0 & [[Hn F1]|(p & -> & -> & Ht & Hr & Hm)]).
  { assert (accounted (mk_world h' Idle m)) by (eapply accounted_frame; [|done]; by eapply frame_trans).
    destruct r as [[id|]|e|f]; try done. by destruct (Hn id). }
  apply (accounted_frame _ h0) in Ha; [|done]. pose proof (size_counted _ Ha ltac:(done)) as Hs. cbn in Hs. destruct Ha as [Hc Ha Hx Hty Hfr _].
  cbn [hub_ turn_ missed_] in *. set (id := next_node_id_ h0) in *.
  assert (Hi : live h0 !! id = None).
  { unfold live. rewrite lookup_omap. destruct (heap_ h0 !! id) as [q|] eqn:Eq; [|done].
    specialize (Hfr id (ltac:(eexists; exact Eq))). unfold id in Hfr. lia. }
  pose proof (live_install p h0 Hr) as El. fold id in El.
  assert (Ec : counted (mk_world (install p h0) (Started id) m) = live h0).
  { unfold counted. cbn [turn_ hub_]. rewrite El. by apply delete_insert_id. }
  split; cbn [hub_ turn_ missed_]; rewrite ?Ec, ?El; try done.
  - assert (Hc' : counters (balance (mk_world h0 Idle m)) (install p h0)) by (destruct Hc; by split).
    revert Hc'. apply counters_ext. intros P. unfold balance, owed. by rewrite Ec.
  - intros Hw. generalize (Ha Hw : addresses _ (install p h0)). apply addresses_ext. intros a. unfold entries, balance, owed. by rewrite Ec.
  - intros id' c. rewrite lookup_insert_Some. intros [[_ <-]|[_ Hl]]; [done | by apply (Hty id')].
  - intros id'. cbn [install heap_ next_node_id_ set_next_id set_heap]. rewrite lookup_insert_is_Some.
    intros [<-|[_ Hid]]; [lia|]. specialize (Hfr _ Hid). lia.
  - rewrite lookup_insert_eq. split; [by eexists|]. lia.
Qed.

Lemma live_peer h id c : live h !! id = Some c -> exists p, heap_ h !! id = Some p /\ connection_ p = c /\ ended (node_ p) = false.
Proof.
  unfold live. rewrite lookup_omap. destruct (heap_ h !! id) as [p|]; [|done]. cbn. unfold live_connection, ended.
  destruct (bool_decide _) eqn:E; [done|]. intros [= <-]. by exists p.
Qed.

(** The node that was started is counted. *)
Lemma count_accounted id h h' m : accounted (mk_world h (Started id) m) -> on_node_connected id h = (Success (), h') ->
  accounted (mk_world h' Idle m).
Proof.
  intros [Hc Ha _ Hty Hfr [[c Hl] Hlt]] E. cbn [hub_ turn_ missed_] in *. apply (f_equal snd) in E. cbn [snd] in E. subst h'.
  destruct (live_peer h id c Hl) as (p & Hp & Ec & _). pose proof (Hty id c Hl) as Ht. rewrite <- Ec in Ht, Hl.
  destruct (on_node_connected_fields id p h Hp Ht) as (_ & F1 & F2 & _).
  assert (El : live (on_node_connected id h).2 = live h) by (unfold live; by rewrite F1).
  assert (Eb : forall P, balance (mk_world h (Started id) m) P + unit_of (P (connection_ p)) =
      balance (mk_world (on_node_connected id h).2 Idle m) P).
  { intros P. unfold balance, counted, owed. cbn [turn_ hub_]. rewrite El, (count_delete P _ id _ Hl). lia. }
  split; unfold counted; cbn [hub_ turn_ missed_]; rewrite ?El, ?F1, ?F2; try done.
  - generalize (counters_up _ id p h Hc Hp Ht). by apply counters_ext.
  - intros Hw. refine (addresses_ext _ _ _ _ (addresses_up _ id p h (Ha Hw) Hp Ht _)).
    + intros a. unfold entries. rewrite <- Eb. cbn [missed_]. lia.
    + unfold entries, balance, owed. cbn [turn_ missed_]. unfold missed_width in Hw. cbn [missed_] in Hw.
      match goal with |- context [count ?P ?L] => pose proof (count_le P L) end.
      match goal with |- context [times ?a m] => pose proof (times_bound a m) end. lia.
  - assert (Hs : base.size (live h) = S (base.size (delete id (live h)))).
    { rewrite <- map_size_insert_None with (i := id) (x := connection_ p) by apply lookup_delete_eq. by rewrite insert_delete_id. }
    unfold counted in Hlt. cbn [turn_ hub_] in Hlt. lia.
Qed.

(** A node is counted that has ended. *)
Lemma count_gone_accounted id c h h' m : accounted (mk_world h (Gone id c) m) -> on_node_connected id h = (Success (), h') ->
  accounted (mk_world h' Idle m).
Proof.
  intros [Hc Ha Hm Hty Hfr (Ht & Hl & Hi & Hq)] E. cbn [hub_ turn_ missed_] in *.
  assert (exists p, heap_ h !! id = Some p) as [p Hp]. { unfold on_node_connected in E. destruct (heap_ h !! id) as [p|]; [by exists p | done]. }
  rewrite <- (Hq p Hp) in Ht. apply (f_equal snd) in E. cbn [snd] in E. subst h'.
  destruct (on_node_connected_fields id p h Hp Ht) as (_ & F1 & F2 & _).
  assert (El : live (on_node_connected id h).2 = live h) by (unfold live; by rewrite F1).
  assert (Eb : forall P, balance (mk_world h (Gone id c) m) P + unit_of (P (connection_ p)) =
      balance (mk_world (on_node_connected id h).2 Idle m) P).
  { intros P. unfold balance, counted, owed. cbn [turn_ hub_]. rewrite El, (Hq p Hp). lia. }
  split; unfold counted; cbn [hub_ turn_ missed_]; rewrite ?El, ?F1, ?F2; try done.
  - generalize (counters_up _ id p h Hc Hp Ht). by apply counters_ext.
  - intros Hw. refine (addresses_ext _ _ _ _ (addresses_up _ id p h (Ha Hw) Hp Ht _)).
    + intros a. unfold entries. rewrite <- Eb. cbn [missed_]. lia.
    + unfold entries, balance, owed. cbn [turn_ missed_]. unfold missed_width in Hw. cbn [missed_] in Hw. rewrite (Hq p Hp).
      assert (at_address (IPEndpoint.address_ (endpoint_ c)) c = true) as -> by (unfold at_address; by apply bool_decide_true). cbn [unit_of].
      match goal with |- context [count ?P ?L] => pose proof (count_le P L) end.
      match goal with |- context [times ?a m] => pose proof (times_bound a m) end. lia.
Qed.

Lemma miss_times a conn h m : times a (miss conn h m) = times a m +
  unit_of (at_address a conn && bool_decide (connected_addresses_ h !! IPEndpoint.address_ (endpoint_ conn) = None)).
Proof.
  unfold miss, times, at_address. set (b := IPEndpoint.address_ (endpoint_ conn)).
  destruct (connected_addresses_ h !! b) as [k|]; [rewrite (bool_decide_false (Some k = None)), andb_false_r by done; cbn [unit_of]; lia|].
  rewrite (bool_decide_true (None = None)), andb_true_r by done. case_bool_decide as E.
  - rewrite filter_cons_True by done. cbn [length unit_of]. lia.
  - rewrite filter_cons_False by done. cbn [unit_of]. lia.
Qed.

Lemma miss_length conn h m : zlen m <= zlen (miss conn h m).
Proof. unfold miss. destruct (connected_addresses_ h !! _); cbn [length]; lia. Qed.

(** The end of a node lowers the balances, wherever the factory is. *)
Lemma ends_books id p h t m w : accounted (mk_world h t m) -> heap_ h !! id = Some p -> type_ (connection_ p) <> kNoConnection ->
  hub_ w = (node_ends id h).2 -> missed_ w = miss (connection_ p) h m ->
  (forall P, balance w P = balance (mk_world h t m) P - unit_of (P (connection_ p))) ->
  counters (balance w) (hub_ w) /\ (missed_width w -> addresses (entries w) (hub_ w)).
Proof.
  intros [Hc Ha _ _ _ _] Hp Ht -> Em Eb. destruct (node_ends_effect id p h Hp Ht) as (q & _ & _ & ->). split.
  - assert (counters (balance w) (on_node_disconnected id h).2) as [] by (generalize (counters_down _ id p h Hc Hp Ht); by apply counters_ext).
    by split.
  - intros Hw. assert (Hw' : missed_width (mk_world h t m)).
    { unfold missed_width in *. rewrite Em in Hw. cbn [missed_]. pose proof (miss_length (connection_ p) h m). lia. }
    specialize (Ha Hw'). apply (addresses_ext (λ a, entries (mk_world h t m) a -
      unit_of (at_address a (connection_ p) && negb (entries (mk_world h t m) a =? 0)))); [|exact (addresses_down _ id p h Ha Hp Ht)].
    intros a. unfold entries at 3. rewrite Em, Eb, miss_times. unfold at_address at 1 3 4. unfold unit_of.
    destruct (Ha (IPEndpoint.address_ (endpoint_ (connection_ p)))) as [_ El]. cbn [hub_] in El. case_bool_decide as E; [|cbn [andb]; unfold entries; cbn [missed_]; lia].
    rewrite El, E. cbn [andb]. destruct (Z.eqb_spec (entries (mk_world h t m) a) 0); cbn [negb];
      [rewrite bool_decide_true by done | rewrite bool_decide_false by done]; unfold entries in *; cbn [missed_] in *; lia.
Qed.

Lemma ends_peers id q h g : heap_ g = <[id := q]> (heap_ h) -> next_node_id_ g = next_node_id_ h -> is_Some (heap_ h !! id) ->
  (forall i, is_Some (heap_ h !! i) -> i < next_node_id_ h) -> forall i, is_Some (heap_ g !! i) -> i < next_node_id_ g.
Proof. intros E En Hi Hfr i. rewrite E, En, lookup_insert_is_Some. intros [<-|[_ Hs]]; by apply Hfr. Qed.

Lemma ended_stopping (n : Node.t) : Node.state_ n = Stoppable.kStopping -> ended n = false.
Proof. unfold ended. by intros ->. Qed.

Lemma live_running h id p : heap_ h !! id = Some p -> ended (node_ p) = false -> live h !! id = Some (connection_ p).
Proof. intros Hp He. unfold live. rewrite lookup_omap, Hp. cbn. unfold live_connection. unfold ended in He. by rewrite He. Qed.

(** A node ends that has been counted, *)
Lemma ends_accounted id p h t m : accounted (mk_world h t m) -> heap_ h !! id = Some p -> Node.state_ (node_ p) = Stoppable.kStopping ->
  t <> Started id -> accounted (mk_world (node_ends id h).2 t (miss (connection_ p) h m)).
Proof.
  intros Ha Hp Hs Hne. pose proof (live_running h id p Hp (ended_stopping _ Hs)) as Hl. pose proof Ha as [_ _ Hm Hty Hfr Hu].
  cbn [hub_ turn_ missed_] in *. pose proof (Hty _ _ Hl) as Ht. destruct (node_ends_effect id p h Hp Ht) as (q & Eq & He & En).
  set (w := mk_world (node_ends id h).2 t (miss (connection_ p) h m)).
  destruct (on_node_disconnected_fields id p h Hp Ht) as (_ & _ & F2 & _).
  assert (Eh : heap_ (node_ends id h).2 = <[id := q]> (heap_ h)) by (by rewrite En).
  assert (Ex : next_node_id_ (node_ends id h).2 = next_node_id_ h) by (by rewrite En).
  pose proof (live_ends id q h _ He Eh) as El.
  assert (Ec : counted w = delete id (counted (mk_world h t m))).
  { unfold counted, w. cbn [turn_ hub_]. rewrite El. destruct t as [|i|i c]; try done. apply delete_delete. }
  assert (Hc : counted (mk_world h t m) !! id = Some (connection_ p)).
  { unfold counted. cbn [turn_ hub_]. destruct t as [|i|i c]; try done. rewrite lookup_delete_ne; [done | congruence]. }
  destruct (ends_books id p h t m w Ha Hp Ht) as [B1 B2]; [done | done | |].
  { intros P. unfold balance. rewrite Ec, (count_delete P _ id _ Hc). unfold owed, w. cbn [turn_]. lia. }
  assert (Hsz : (base.size (counted w) <= base.size (counted (mk_world h t m)))%nat).
  { rewrite Ec. apply map_subseteq_size, delete_subseteq. }
  split; try done.
  - lia.
  - intros i c. unfold w. cbn [hub_]. rewrite El, lookup_delete_Some. intros [_ Hi]. by apply (Hty i).
  - apply (ends_peers id q h); [done | done | by exists p | done].
  - unfold w. cbn [turn_ hub_]. destruct t as [|i|i c]; [done | |].
    + rewrite El, lookup_delete_ne by congruence. split; [apply Hu|]. unfold w in Hsz. destruct Hu. lia.
    + destruct Hu as (U1 & U2 & U3 & U4). rewrite El, Eh, Ex, lookup_delete_None. split_and!; [done | by right | done |].
      intros p' Hp'. destruct (decide (i = id)) as [->|Hi]; [congruence|]. rewrite lookup_insert_ne in Hp' by done. by apply U4.
Qed.

(** and one that has not. *)
Lemma ends_early_accounted id p h m : accounted (mk_world h (Started id) m) -> heap_ h !! id = Some p -> Node.state_ (node_ p) = Stoppable.kStopping ->
  accounted (mk_world (node_ends id h).2 (Gone id (connection_ p)) (miss (connection_ p) h m)).
Proof.
  intros Ha Hp Hs. pose proof (live_running h id p Hp (ended_stopping _ Hs)) as Hl. pose proof Ha as [_ _ Hm Hty Hfr Hu].
  cbn [hub_ turn_ missed_] in *. pose proof (Hty _ _ Hl) as Ht. destruct (node_ends_effect id p h Hp Ht) as (q & Eq & He & En).
  set (w := mk_world (node_ends id h).2 (Gone id (connection_ p)) (miss (connection_ p) h m)).
  destruct (on_node_disconnected_fields id p h Hp Ht) as (_ & _ & F2 & _).
  assert (Eh : heap_ (node_ends id h).2 = <[id := q]> (heap_ h)) by (by rewrite En).
  assert (Ex : next_node_id_ (node_ends id h).2 = next_node_id_ h) by (by rewrite En).
  pose proof (live_ends id q h _ He Eh) as El.
  assert (Ec : counted w = counted (mk_world h (Started id) m)) by (unfold counted, w; cbn [turn_ hub_]; by rewrite El).
  destruct (ends_books id p h (Started id) m w Ha Hp Ht) as [B1 B2]; [done | done | |].
  { intros P. unfold balance. rewrite Ec. unfold owed, w. cbn [turn_]. lia. }
  split; try done.
  - by rewrite Ec.
  - intros i c. unfold w. cbn [hub_]. rewrite El, lookup_delete_Some. intros [_ Hi]. by apply (Hty i).
  - apply (ends_peers id q h); [done | done | by exists p | done].
  - unfold w. cbn [turn_ hub_]. rewrite El, Eh, Ex, lookup_delete_eq, lookup_insert_eq. split_and!; [done | done | |].
    + apply Hfr. by exists p.
    + by intros p' [= <-].
Qed.

Lemma step_accounted early w w' : step early w w' -> accounted w -> accounted w'.
Proof.
  intros Hs Ha. destruct Hs.
  - by eapply admission_accounted.
  - by eapply count_accounted.
  - by eapply count_gone_accounted.
  - by apply ends_accounted.
  - by apply ends_early_accounted.
  - eapply accounted_frame; [by apply hub_step_frame | done].
Qed.

Lemma steps_accounted early w w' : rtc (step early) w w' -> accounted w -> accounted w'.
Proof. induction 1 as [|w1 w2 w3 Hs _ IH]; [done|]. intros Ha. by eapply IH, step_accounted. Qed.

(** As long as no node ends before it is counted, no address is missed. *)
Definition punctual (w : world) : Prop := missed_ w = [] /\ forall id c, turn_ w <> Gone id c.

Lemma counted_entered w id c : accounted w -> punctual w -> counted w !! id = Some c ->
  is_Some (connected_addresses_ (hub_ w) !! IPEndpoint.address_ (endpoint_ c)).
Proof.
  intros [_ Ha _ _ _ _] [Em Hg] Hl. assert (Hw : missed_width w) by (unfold missed_width; rewrite Em; cbn; lia).
  set (a := IPEndpoint.address_ (endpoint_ c)). destruct (Ha Hw a) as [_ ->].
  assert (E : entries w a = count (at_address a) (counted w)).
  { unfold entries, balance, owed. rewrite Em. destruct (turn_ w) as [| |i x]; [| |by destruct (Hg i x)]; change (times a []) with 0; lia. }
  pose proof (count_delete (at_address a) _ id c Hl) as Hd. pose proof (tally_nonneg (at_address a) (delete id (counted w))) as Hn.
  assert (at_address a c = true) as Hac by (unfold at_address; by apply bool_decide_true). rewrite Hac in Hd. cbn [unit_of] in Hd.
  rewrite (proj2 (Z.eqb_neq _ _)) by lia. by eexists.
Qed.

Lemma step_punctual w w' : step false w w' -> accounted w -> punctual w -> punctual w'.
Proof.
  intros Hs Ha Hp. pose proof Hp as [Em Hg]. destruct Hs as [? ? ? ? h r h' m|id h h' m|id c h h' m|id p h t m Hi Hs Hne|id p h m He|h h' t m];
    cbn [missed_ turn_] in *; unfold punctual; cbn [missed_ turn_].
  - split; [done|]. destruct r as [[]|e|f]; done.
  - done.
  - done.
  - split; [|done]. unfold miss.
    assert (Hc : counted (mk_world h t m) !! id = Some (connection_ p)).
    { pose proof (live_running h id p Hi (ended_stopping _ Hs)) as Hl. unfold counted. cbn [turn_ hub_]. destruct t as [|i|i c]; try done.
      rewrite lookup_delete_ne; [done | congruence]. }
    destruct (counted_entered _ id _ Ha Hp Hc) as [k Hk]. cbn [hub_] in Hk. by rewrite Hk.
  - done.
  - done.
Qed.

Lemma steps_punctual w w' : rtc (step false) w w' -> accounted w -> punctual w -> punctual w'.
Proof. induction 1 as [|w1 w2 w3 Hs _ IH]; [done|]. intros Ha Hp. apply IH; [by eapply step_accounted | by eapply step_punctual]. Qed.
End Frames.

(** C7: the counters of the hub over any history of connections, ends of nodes, requests, messages and ticks, in which the factory starts a
    node and counts it in two steps that others may come between.  Whenever the factory does not stand between the end of
    the node it has just started and the count of that node, the active connections are the nodes that have been counted
    and have not ended, at most [max_active_connections]; they split into the inbound and the outbound ones; and the totals
    differ by the active ones.  Outside of a turn of the factory all live nodes are counted.  Each address has an entry with
    the number of live connections from it and, on top of it, one for each connection that ended while its address
    had no entry: such ends come from nodes that end before they are counted, and what they leave behind is never
    released.  When no node ends before it is counted there are none of them: an address is counted
    once per live connection, and has no entry when there is none.  (The entries have 32 bits, so that what they say holds as long as
    these ends and [max_active_connections] together stay below [2 ^ 32].) *)
Theorem hub_accounting `{Boost} `{Crypto} (settings : HubSettings) key now early w :
  0 <= max_active_connections settings < 2 ^ 32 ->
  rtc (step settings early) (mk_world (make settings key now) Idle []) w ->
  (forall id conn, turn_ w <> Gone id conn) ->
  let L := counted w in let h := hub_ w in
  NodeHub.size h = Z.of_nat (base.size L) /\ NodeHub.size h <= max_active_connections settings /\
  current_active_inbound_connections_ h = count is_inbound L /\
  current_active_outbound_connections_ h = count is_outbound L /\
  current_active_inbound_connections_ h + current_active_outbound_connections_ h = NodeHub.size h /\
  wrap 64 (total_connections_ h - total_disconnections_ h) = NodeHub.size h /\
  (turn_ w = Idle -> L = live h) /\ (early = false -> missed_ w = []) /\
  (max_active_connections settings + zlen (missed_ w) < 2 ^ 32 -> forall a,
     let n := count (at_address a) L + times a (missed_ w) in connected_addresses_ h !! a = if n =? 0 then None else Some n).
Proof.
  intros Hm Hr Hg L h. pose proof (steps_accounted settings Hm early _ _ Hr (accounted_make settings key now (proj1 Hm))) as Ha.
  pose proof (size_counted settings Hm w Ha Hg) as Hs. fold L h in Hs. pose proof Ha as [[Ca Ci Co Ct] Hadd Hmax _ _ _]. fold L in Hmax. fold h in Ca, Ci, Co, Ct, Hadd.
  assert (Hb : forall P, balance w P = count P L).
  { intros P. unfold balance, owed. fold L. destruct (turn_ w) as [| |i c]; [| |by destruct (Hg i c)]; lia. }
  rewrite Hb in Ca, Ci, Co, Ct. rewrite wrap_small in Ci by (pose proof (count_le is_inbound L); pose proof (tally_nonneg is_inbound L); lia).
  rewrite wrap_small in Co by (pose proof (count_le is_outbound L); pose proof (tally_nonneg is_outbound L); lia).
  split_and!; [done | lia | done | done | | | | |].
  - rewrite Ci, Co, Hs. apply count_split.
  - rewrite Ct, count_whole, Hs. apply wrap_small. lia.
  - unfold L, counted. by intros ->.
  - intros ->. refine (proj1 (steps_punctual settings Hm _ _ Hr (accounted_make settings key now (proj1 Hm)) _)). by split.
  - intros Hw a. destruct (Hadd Hw a) as [_ ->]. unfold entries. by rewrite Hb.
Qed.

Definition sample_hub_settings : HubSettings := {|
  network := NodeFacts.sample_settings; local_endpoint := []; chain_config := kMainNetConfig; nonce := 5; user_agent := [];
  nat_address := V4 [8; 8; 8; 8]; max_active_connections := 2; max_active_connections_per_ip := 1;
  min_outgoing_connections := 1; ipv4_only := false; connect_nodes := []; force_dns_seeding := false; use_tls := false |}.
Definition sample_connection (b : Z) : Connection :=
  {| endpoint_ := IPEndpoint.mk (V4 [9; 9; 9; b]) 9033; type_ := kInbound; socket_ := Some true |}.
Definition sample_hub : t := make sample_hub_settings [] 0.
Definition sample_connect (b : Z) : op t unit :=
  @node_factory_work model_boost model_crypto sample_hub_settings (sample_connection b) (IPEndpoint.mk (V4 [9; 9; 9; 9]) 9033) 1 1.
Definition sample_peers (l : list Z) : t := foldl (λ h b, (sample_connect b h).2) sample_hub l.

Lemma sample_peers_steps l b early missed : (sample_connect b (sample_peers l)).1 = Success () ->
  rtc (@step model_boost model_crypto sample_hub_settings early) (mk_world (sample_peers l) Idle missed) (mk_world (sample_peers (l ++ [b])) Idle missed).
Proof.
  intros E. unfold sample_peers. rewrite foldl_app. cbn [foldl]. fold (sample_peers l). revert E. unfold sample_connect, node_factory_work, op_bind.
  destruct (admit_connection _ _ _ _ _ _) as [r h] eqn:Ea. destruct r as [[id|]|e|f]; [|intros _|done..].
  - destruct (on_node_connected id h) as [r h'] eqn:Ec. intros Er. cbn [fst snd] in *. subst r.
    eapply rtc_l; [by eapply step_admission | apply rtc_once; by apply step_count].
  - apply rtc_once. by eapply (step_admission _ _ _ _ _ _ _ (Success None)).
Qed.

(** A node that stops, and ends, before it is counted. *)
Definition sample_started : t := (@admit_connection model_boost model_crypto sample_hub_settings (sample_connection 3) (IPEndpoint.mk (V4 [9; 9; 9; 9]) 9033) 1 1 sample_hub).2.
Definition sample_stopping : t := (on_node 0 Node.stop sample_started).2.
Definition sample_ended : t := (node_ends 0 sample_stopping).2.
Definition sample_stale : t := (on_node_connected 0 sample_ended).2.

Lemma sample_stale_steps : rtc (@step model_boost model_crypto sample_hub_settings true) (mk_world sample_hub Idle [])
  (mk_world sample_stale Idle [V4 [9; 9; 9; 3]]).
Proof.
  eapply rtc_l.
  { eapply (step_admission _ _ (sample_connection 3) (IPEndpoint.mk (V4 [9; 9; 9; 9]) 9033) 1 1 _ (Success (Some 0)) sample_started);
      [vm_compute; reflexivity | done]. }
  eapply rtc_l.
  { apply (step_hub _ _ _ sample_stopping). unfold sample_stopping, on_node.
    destruct (heap_ sample_started !! 0) as [p|] eqn:E; [|vm_compute in E; discriminate E].
    pose proof (stop_alive (node_ p)) as Hk. destruct (Node.stop (node_ p)) as [r n]. by apply step_node_moves. }
  destruct (heap_ sample_stopping !! 0) as [p|] eqn:E; [|vm_compute in E; discriminate E].
  assert (Ep : Node.state_ (node_ p) = Stoppable.kStopping /\ miss (connection_ p) sample_stopping [] = [V4 [9; 9; 9; 3]]).
  { vm_compute in E. injection E as <-. split; vm_compute; reflexivity. }
  destruct Ep as [Es Em]. eapply rtc_l; [by apply (step_node_ends_early _ _ 0 p)|]. rewrite Em. apply rtc_once, step_count_gone.
  change (node_ends 0 sample_stopping).2 with sample_ended. unfold sample_stale.
  assert (Er : (on_node_connected 0 sample_ended).1 = Success ()) by (vm_compute; reflexivity). rewrite <- Er. apply surjective_pairing.
Qed.

(** Three peers connect from two addresses: the third one is over the limit.  And a node that ends before it is counted leaves
    its address in the table. *)
Lemma hub_accounting_witness : NodeHub.size (sample_peers [1; 2; 2]) = 2 /\
  connected_addresses_ (sample_peers [1; 2; 2]) !! V4 [9; 9; 9; 2] = Some 1 /\
  NodeHub.size sample_stale = 0 /\ connected_addresses_ sample_stale !! V4 [9; 9; 9; 3] = Some 1.
Proof.
  destruct (@hub_accounting model_boost model_crypto sample_hub_settings [] 0 false (mk_world (sample_peers [1; 2; 2]) Idle []))
    as (H1 & _ & _ & _ & _ & _ & _ & _ & H2).
  - done.
  - exact (transitivity (sample_peers_steps [] 1 false [] eq_refl) (transitivity (sample_peers_steps [1] 2 false [] eq_refl)
      (sample_peers_steps [1; 2] 2 false [] eq_refl))).
  - done.
  - destruct (@hub_accounting model_boost model_crypto sample_hub_settings [] 0 true (mk_world sample_stale Idle [V4 [9; 9; 9; 3]]))
      as (H3 & _ & _ & _ & _ & _ & _ & _ & H4); [done | exact sample_stale_steps | done |].
    specialize (H2 eq_refl (V4 [9; 9; 9; 2])). specialize (H4 eq_refl (V4 [9; 9; 9; 3])). cbv zeta in H2, H4. cbn [hub_ missed_] in H1, H2, H3, H4.
    split; [rewrite H1; vm_compute; reflexivity|]. split; [rewrite H2; vm_compute; reflexivity|].
    split; [rewrite H3; vm_compute; reflexivity | rewrite H4; vm_compute; reflexivity].
Defined.

(** ** Peers that end the process *)

(** C36: two requests end the process of a hub that serves a peer: getaddr while the
    address book is empty, since the reply chosen then is a message that must
    have a payload; and addr with one service on the network whose address is
    not routable and not in the book. *)
Theorem hub_crash `{Boost} `{Crypto} (settings : HubSettings) (h : t) id p now shuffle draw service :
  heap_ h !! id = Some p -> NodeHub.is_running h = true -> Node.is_running (node_ p) = true ->
  (forall payload, payload_type payload = kAddr \/ payload_type payload = kGetAddr ->
     on_node_received_message settings id payload now h =
       (Success (), set_processor (Channel.try_send (id, payload) (address_book_processor_feed_ h)).2 h)) /\
  (AddressBook.randomly_ordered_ids_ (address_book_ h) = [] ->
     (process_book_message settings id (MsgNull kGetAddr) now shuffle draw h).1 = Fault AssertionFailed) /\
  (Z.land (NodeService.services_ service) kNodeNetwork <> 0 ->
   IPAddress.is_routable (IPEndpoint.address_ (NodeService.endpoint_ service)) = false ->
   AddressBook.contains_service service (address_book_ h) = false -> shuffle [service] = [service] ->
     (process_book_message settings id (MsgAddr [service]) now shuffle draw h).1 = Fault AssertionFailed).
Proof.
  intros Hp Hh Hn. split_and!.
  - intros payload Ht. unfold on_node_received_message. rewrite Hp, Hh, Hn. by destruct Ht as [-> | ->].
  - intros He. unfold process_book_message. rewrite Hp. unfold op_bind at 1, on_book, AddressBook.get_random_services.
    unfold op_bind at 1, AddressBook.get at 1. rewrite He, bool_decide_true by done. cbn [op_ret]. rewrite bool_decide_true by done.
    unfold ignore, on_node. cbn [heap_ set_book]. rewrite Hp. reflexivity.
  - intros Hs Hr Hc Hsh. unfold process_book_message. rewrite Hp, Hsh. unfold ignore, on_book, AddressBook.insert_or_update_all.
    cbn [AddressBook.insert_or_update_loop existsb]. unfold op_bind at 1.
    rewrite (proj2 (Z.eqb_neq _ _)) by done. cbv zeta.
    match goal with |- context [op_bind (AddressBook.insert_or_update_impl ?s ?a ?b ?c ?d) _] =>
      pose proof (AddressBookInvariant.insert_unroutable s a b c d (address_book_ h)) as Hu end.
    unfold AddressBook.insert_or_update in Hu. unfold op_bind at 1.
    destruct (AddressBook.insert_or_update_impl _ _ _ _ _ _) as [r b]. cbn [fst] in Hu. rewrite Hu; [done | left |].
    + by destruct (_ || _).
    + by destruct (_ || _).
Qed.

Definition sample_running : t := set_state Stoppable.kStarted (sample_peers [1]).
Definition private_service : NodeService.t := NodeService.mk 1700000000 kNodeNetwork (IPEndpoint.mk (V4 [10; 0; 0; 1]) 9033).

Lemma hub_crash_witness : exists p, heap_ sample_running !! 0 = Some p /\
  (@process_book_message model_boost model_crypto sample_hub_settings 0 (MsgNull kGetAddr) 1 (λ l, l) (λ _ lo _, lo) sample_running).1 =
    Fault AssertionFailed /\
  (@process_book_message model_boost model_crypto sample_hub_settings 0 (MsgAddr [private_service]) 1 (λ l, l) (λ _ lo _, lo)
     sample_running).1 = Fault AssertionFailed.
Proof.
  eexists. split; [vm_compute; reflexivity|].
  edestruct (@hub_crash model_boost model_crypto sample_hub_settings sample_running 0) as (_ & H1 & H2);
    [vm_compute; reflexivity | by vm_compute | by vm_compute |].
  split; [apply H1; by vm_compute | apply H2; by vm_compute].
Defined.

(** ** Connections that are not asked for any more *)

(** Operations that leave a part of the hub alone which is not in its nodes. *)
Definition quiet {X A} (f : t -> X) (m : op t A) : Prop := forall h, f (m h).2 = f h.

Lemma quiet_ret {X A} (f : t -> X) (a : A) : quiet f (op_ret a).
Proof. by intros h. Qed.
Lemma quiet_bind {X A B} (f : t -> X) (m : op t A) (k : A -> op t B) : quiet f m -> (forall a, quiet f (k a)) -> quiet f (op_bind m k).
Proof. intros Hm Hk h. specialize (Hm h). unfold op_bind. destruct (m h) as [[a|e|u] h']; [rewrite Hk|..]; exact Hm. Qed.

Section Quiet.
Context `{Boost} `{Crypto} {X : Type}.
Variable settings : HubSettings.
Variable f : t -> X.
Hypothesis f_heap : forall v h, f (set_heap v h) = f h.

Lemma quiet_node {A} id (m : op Node.t A) : quiet f (on_node id m).
Proof. intros h. unfold on_node. destruct (heap_ h !! id); [destruct (m _); apply f_heap | done]. Qed.
Lemma quiet_push id payload : quiet f (push settings id payload).
Proof.
  intros h. unfold push, ignore. match goal with |- context [on_node id ?m h] => pose proof (quiet_node id m h) as Hq;
    destruct (on_node id m h) as [[a|e|u] h'] end; exact Hq.
Qed.

Lemma quiet_service_loop ids count ix rdi advertise lr now us running :
  quiet f (service_loop settings ids count ix rdi advertise lr now us running).
Proof.
  revert count ix. induction ids as [|id ids IH]; intros count ix; [apply quiet_ret|]. intros h. cbn [service_loop].
  destruct (heap_ h !! id) as [p|] eqn:E; [|done].
  assert (Hkeep : forall c, quiet f (rest <~ service_loop settings ids c (ix + 1) rdi advertise lr now us running;; op_ret (id :: rest))).
  { intros c. apply quiet_bind; [apply IH | intros rest; apply quiet_ret]. }
  assert (Hstop : quiet f (on_node id Node.stop >>; if count - 1 =? 0 then op_ret (id :: ids) else
      rest <~ service_loop settings ids (count - 1) (ix + 1) rdi advertise lr now us running;; op_ret (id :: rest))).
  { apply quiet_bind; [apply quiet_node|]. intros _. destruct (_ =? 0); [apply quiet_ret | apply Hkeep]. }
  destruct (bool_decide (Node.state_ (node_ p) = Stoppable.kNotStarted) && lr id); [by rewrite IH|].
  destruct (negb running); [apply Hstop|]. destruct (_ && _ && _); [apply Hstop|].
  destruct (Node.is_idle _ _ _) as [[]|e|u]; try apply Hstop; try done.
  destruct (advertise && _); [|apply Hkeep].
  refine (quiet_bind f (push settings id _) _ _ _ h); [apply quiet_push | intros _; apply Hkeep].
Qed.
End Quiet.

Definition need (h : t) : Z * NotifyChannel.t := (needed_connections_count_ h, need_connections_ h).

Section Need.
Context `{Boost} `{Crypto}.
Variable settings : HubSettings.

(** While connections are awaited, the timer asks for none. *)
Lemma tick_need coin index lr now us h : needed_connections_count_ h <> 0 ->
  need (on_service_timer_expired settings coin index lr now us h).2 = need h.
Proof.
  intros Hn. unfold on_service_timer_expired. set (h1 := if _ && (3600 * _ <? _) then _ else h). assert (E1 : need h1 = need h).
  { unfold h1. by destruct (_ && _). }
  clearbody h1. rewrite <- E1. injection E1 as E1 _. rewrite <- E1 in Hn. clear E1.
  unfold op_bind at 1. match goal with |- context [service_loop settings ?a ?b ?c ?d ?e ?f ?g ?i ?j h1] =>
    pose proof (quiet_service_loop settings need (λ _ _, eq_refl) a b c d e f g i j h1) as Hq; destruct (service_loop settings a b c d e f g i j h1) as [[kept|?|?] h2] end;
    cbn [snd] in Hq; rewrite <- Hq; [|done..].
  unfold op_bind at 1, modify. destruct (negb _ && _); [done|]. unfold op_bind at 1, ask_for_connections.
  injection Hq as Hq _. cbn [needed_connections_count_ set_nodes]. rewrite Hq, (proj2 (Z.eqb_neq _ 0)) by done. by rewrite andb_false_r.
Qed.
End Need.

(** The arguments of a tick of the service timer. *)
Record tick := { t_coin : Z -> Z -> Z; t_index : Z -> Z -> Z; t_last_reference : Z -> bool; t_now : Z; t_seconds : Z }.

(** a connection that was not asked for by the timer, to a seed or to a node
    of the command line, and that fails while no other is awaited, wraps the
    count of awaited connections around to [2 ^ 32 - 1]; from then on no tick of
    the service timer asks for connections, however few there are. *)
Theorem hub_needed_stuck `{Boost} `{Crypto} (settings : HubSettings) (conn : Connection) (now : Z) (h : t) (ticks : list tick) :
  NodeHub.is_running h = true -> needed_connections_count_ h = 0 ->
  connected_addresses_ h !! IPEndpoint.address_ (endpoint_ conn) = None ->
  AddressBook.contains_endpoint (endpoint_ conn) (address_book_ h) = false ->
  let h' := foldl (λ h t, (on_service_timer_expired settings (t_coin t) (t_index t) (t_last_reference t) (t_now t) (t_seconds t) h).2)
              (connector_work settings conn false now h).2 ticks in
  needed_connections_count_ h' = 2 ^ 32 - 1 /\ need_connections_ h' = need_connections_ h.
Proof.
  intros Hr Hn Ha Hb. cbv zeta. unfold connector_work. rewrite Hr, Ha. cbn [negb].
  unfold op_bind, ignore, on_book, AddressBook.set_failed. unfold AddressBook.contains_endpoint in Hb.
  destruct (AddressBook.lookup_endpoint _ _) as [[? ?]|]; [done|]. cbn [less_needed modify snd].
  set (h1 := set_needed _ _). assert (E : need h1 = (2 ^ 32 - 1, need_connections_ h)).
  { unfold h1, need. cbn [needed_connections_count_ need_connections_ set_needed set_book]. by rewrite Hn. }
  clearbody h1. enough (G : need (foldl (λ h t, (on_service_timer_expired settings (t_coin t) (t_index t) (t_last_reference t) (t_now t)
      (t_seconds t) h).2) h1 ticks) = (2 ^ 32 - 1, need_connections_ h)) by (by injection G).
  revert h1 E. induction ticks as [|k ticks IH]; intros h1 E; [done|]. cbn [foldl]. apply IH. rewrite tick_need; [done|].
  intros Hz. injection E as E _. rewrite Hz in E. discriminate E.
Qed.

Lemma hub_needed_stuck_witness :
  needed_connections_count_ (connector_work (H := model_boost) (H0 := model_crypto) sample_hub_settings (sample_connection 9) false 1
    sample_running).2 = 2 ^ 32 - 1.
Proof.
  apply (@hub_needed_stuck model_boost model_crypto sample_hub_settings (sample_connection 9) 1 sample_running []); by vm_compute.
Defined.
End HubFacts.
