(* ===== verification/Shutdown.v ===== *)
(** * The stop of the node hub

    [NodeHub::stop] of [src/src/node/network/node_hub.cpp] runs on the thread of the
    program, while the service timer, the acceptor, the factory of nodes and the nodes go on.  It closes the feeds and then waits
    on a condition variable, with no condition, until the tick that finds no nodes notifies it.  The
    steps of the two sides are events, and a history is a list of them in the order in which
    they take effect.  The factory receives a connection, starts a node for it and counts it in three events: it looks at
    its feed only when it waits for a connection, so that a turn that is under way when the feed is closed goes on. *)

From stdpp Require Import gmap.
From S2P Require Import Prelude Boost Addresses Meters Concurrency AddressBook Node Hub HubFacts.
#[local] Open Scope Z_scope.

Module Shutdown.

(** Where the caller of [stop] is: before it, at the head of the loop, inside [wait_for],
    out of the loop, and back from it. *)
Inductive phase := Serving | Closing | Waiting | Woken | Stopped.

#[global] Instance phase_dec : EqDecision phase.
Proof. solve_decision. Defined.

(** Where [node_factory_work] is: at the head of its loop, with a connection in hand, after [start()] and before
    [on_node_connected], and ended by an exception. *)
Inductive factory := AtFeed | Received (conn : Connection) | Begun (id : Z) | Ended.

(** [saved]: the book that was written. *)
Record state := mk_state { hub : NodeHub.t; phase_ : phase; factory_ : factory; saved : option AddressBook.t }.

(** Whether the service timer goes on. *)
Definition ticking (s : state) : bool := NodeHub.service_timer_ (hub s).

Inductive event :=
| Request
| Wait
| TimedOut
| SpuriousWakeup
| Tick (coin index : Z -> Z -> Z) (last_reference : Z -> bool) (now unix_seconds : Z)
| Accept (remote : IPEndpoint.t)
| Receive
| Admission (local : IPEndpoint.t) (unix_seconds now : Z)
| Count
| NodeStops (id : Z)
| NodeEnds (id : Z)
| Finish.

Section Step.
Context `{Boost} `{Crypto}.
Variable settings : HubSettings.

(** The hub after an operation, which changes nothing else. *)
Definition moved {A} (r : outcome A * NodeHub.t) (s : state) : option state :=
  match r with (Success _, h) => Some (mk_state h (phase_ s) (factory_ s) (saved s)) | _ => None end.

(** What the factory does next. *)
Definition factory_step (e : event) (s : state) : option state :=
  let h := hub s in
  let at_ h f := mk_state h (phase_ s) f (saved s) in
  match e, factory_ s with
  | Receive, AtFeed =>
      if Channel.is_open (NodeHub.node_factory_feed_ h) then
        match Channel.try_receive (NodeHub.node_factory_feed_ h) with
        | (Some conn, feed) => Some (at_ (NodeHub.set_factory feed h) (Received conn))
        | (None, _) => None
        end
      else None
  | Admission local unix_seconds now, Received conn =>
      match NodeHub.admit_connection settings conn local unix_seconds now h with
      | (Success (Some id), h) => Some (at_ h (Begun id))
      | (Success None, h) => Some (at_ h AtFeed)
      | (Failure _, h) => Some (at_ h Ended)
      | (Fault _, _) => None
      end
  | Count, Begun id =>
      match NodeHub.on_node_connected id h with (Success _, h) => Some (at_ h AtFeed) | _ => None end
  | _, _ => None
  end.

(** The state after an event; none when it cannot take place, or ends the process. *)
Definition step (e : event) (s : state) : option state :=
  match e, phase_ s with
  | Request, Serving =>
      match NodeHub.stop (hub s) with
      | (Success true, h) => Some (mk_state h Closing (factory_ s) (saved s))
      | (Success false, h) => Some (mk_state h Serving (factory_ s) (saved s))
      | _ => None
      end
  | Wait, Closing => Some (mk_state (hub s) Waiting (factory_ s) (saved s))
  | TimedOut, Waiting => Some (mk_state (hub s) Closing (factory_ s) (saved s))
  | SpuriousWakeup, Waiting => Some (mk_state (hub s) Woken (factory_ s) (saved s))
  | Tick coin index last_reference now unix_seconds, p =>
      if ticking s then
        match NodeHub.on_service_timer_expired settings coin index last_reference now unix_seconds (hub s) with
        | (Success notified, h) =>
            Some (mk_state h (if notified && bool_decide (p = Waiting) then Woken else p) (factory_ s) (saved s))
        | _ => None
        end
      else None
  | Accept remote, _ => moved (NodeHub.acceptor_work settings remote (hub s)) s
  | NodeStops id, _ => moved (NodeHub.on_node id Node.stop (hub s)) s
  | NodeEnds id, _ =>
      match NodeHub.heap_ (hub s) !! id with
      | Some x =>
          if bool_decide (Node.state_ (node_ x) = Stoppable.kStopping) then moved (HubFacts.node_ends id (hub s)) s else None
      | None => None
      end
  | Finish, Woken =>
      match NodeHub.stopped (hub s) with
      | (Success _, h) => Some (mk_state h Stopped (factory_ s) (Some (NodeHub.address_book_ h)))
      | _ => None
      end
  | Receive, _ | Admission _ _ _, _ | Count, _ => factory_step e s
  | _, _ => None
  end.

Fixpoint run (l : list event) (s : state) : option state :=
  match l with
  | [] => Some s
  | e :: l => match step e s with Some s => run l s | None => None end
  end.
End Step.
End Shutdown.

(** ** Properties *)

Module ShutdownFacts.
Import NodeHub HubFacts Shutdown.

Definition initial (h : t) : state := mk_state h Serving AtFeed None.

Definition spurious (e : event) : bool := match e with SpuriousWakeup => true | _ => false end.

Section Facts.
Context `{Boost} `{Crypto}.
Variable settings : HubSettings.

Lemma run_app l k s : run settings (l ++ k) s = match run settings l s with Some s => run settings k s | None => None end.
Proof. revert s. induction l as [|e l IH]; intros s; [done|]. cbn [app run]. by destruct (step settings e s). Qed.

(** A tick that notifies has found no nodes; it is the last one, and no tick touches the feed of the factory. *)
Lemma tick_spec coin index lr now us h b h' : on_service_timer_expired settings coin index lr now us h = (Success b, h') ->
  node_factory_feed_ h' = node_factory_feed_ h /\ service_timer_ h' = (if b then false else service_timer_ h) /\
  (b = true -> nodes_ h' = [] /\ is_running h = false).
Proof.
  unfold on_service_timer_expired. cbv zeta. set (h1 := if _ && (3600 * _ <? _) then _ else h).
  assert (E1 : (node_factory_feed_ h1, service_timer_ h1) = (node_factory_feed_ h, service_timer_ h)) by (unfold h1; by destruct (_ && _)).
  unfold op_bind at 1.
  match goal with |- context [service_loop settings ?a ?b ?c ?d ?e ?f ?g ?i ?j h1] =>
    pose proof (quiet_service_loop settings (λ h, (node_factory_feed_ h, service_timer_ h)) (λ _ _, eq_refl) a b c d e f g i j h1) as Hq;
    destruct (service_loop settings a b c d e f g i j h1) as [[kept|?|?] h2] end; [|done..].
  cbn [snd] in Hq. rewrite E1 in Hq. injection Hq as Q1 Q2. unfold op_bind at 1, modify.
  destruct (is_running h); cbn [negb andb].
  { unfold op_bind, ask_for_connections. destruct (_ && _ && _); intros [= <- <-]; cbn; by rewrite ?Q1, ?Q2. }
  case_bool_decide as Hk; [intros [= <- <-]; cbn; by rewrite ?Q1|].
  unfold op_bind, ask_for_connections. destruct (_ && _ && _); intros [= <- <-]; cbn; by rewrite ?Q1, ?Q2.
Qed.

(** What an event does not touch: the list of the nodes, the feed and the timer. *)
Definition rest (h : t) := (nodes_ h, node_factory_feed_ h, service_timer_ h).

Lemma node_ends_rest id h r h' : node_ends id h = (r, h') -> rest h' = rest h.
Proof.
  unfold node_ends, op_bind, on_node_disconnected. destruct (heap_ h !! id) as [p|]; [|by intros [= _ <-]].
  unfold modify, release_address, add_by_type, on_node, op_bind, rest.
  destruct (connected_addresses_ h !! _), (type_ (connection_ p)); cbn; intros E; repeat case_match; simplify_eq; done.
Qed.

Lemma admit_rest conn local us now h r h' : admit_connection settings conn local us now h = (r, h') -> rest h' = rest h.
Proof.
  intros E. assert (E' : h' = (admit_connection settings conn local us now h).2) by (by rewrite E). rewrite E'. clear E E' r h'.
  unfold admit_connection. destruct (socket_ conn) as [o|]; [|done]. case_bool_decide; [done|].
  assert (Hq : quiet rest (if bool_decide (type_ conn = kOutbound) then less_needed else op_ret ())) by (intros g; by case_bool_decide).
  apply (quiet_bind rest _ _ Hq). intros _ g. unfold open_node. destruct (negb o); [done|]. destruct (_ <=? _); [done|].
  destruct (Node.construct _ _ _ _ _ _ _ _ _); [|done..]. cbv zeta. match goal with |- rest ((?m >>; op_ret ?x) ?g').2 = _ =>
    rewrite (quiet_bind rest m (λ _, op_ret x) (quiet_node rest (λ _ _, eq_refl) _ _) (λ _, quiet_ret rest x) g') end. done.
Qed.

Lemma connected_rest id h r h' : on_node_connected id h = (r, h') ->
  node_factory_feed_ h' = node_factory_feed_ h /\ service_timer_ h' = service_timer_ h.
Proof.
  unfold on_node_connected, op_bind, modify, add_by_type. destruct (heap_ h !! id) as [p|]; [|by intros [= _ <-]].
  destruct (type_ (connection_ p)); by intros [= _ <-].
Qed.

Lemma moved_inv {A} (r : outcome A * t) s s' : moved r s = Some s' -> exists a h, r = (Success a, h) /\ s' = mk_state h (phase_ s) (factory_ s) (saved s).
Proof. unfold moved. destruct r as [[a|e|f] h]; try done. intros [= <-]. by exists a, h. Qed.

(** What an event does to the phase, the timer and the nodes. *)
Lemma tick_inv coin index lr now us s s' : step settings (Tick coin index lr now us) s = Some s' ->
  ticking s = true /\ exists b h, on_service_timer_expired settings coin index lr now us (hub s) = (Success b, h) /\
    s' = mk_state h (if b && bool_decide (phase_ s = Waiting) then Woken else phase_ s) (factory_ s) (saved s).
Proof.
  unfold step. intros E. destruct (phase_ s); destruct (ticking s); [|done| |done| |done| |done| |done]; (split; [done|]);
    destruct (on_service_timer_expired _ _ _ _ _ _ _) as [[b|e|f] h]; try done; injection E as <-; by exists b, h.
Qed.

(** The events of the nodes and of the acceptor. *)
Definition outside (e : event) : bool := match e with Accept _ | NodeStops _ | NodeEnds _ => true | _ => false end.

Lemma outside_inv e s s' : outside e = true -> step settings e s = Some s' ->
  phase_ s' = phase_ s /\ factory_ s' = factory_ s /\ nodes_ (hub s') = nodes_ (hub s) /\ ticking s' = ticking s /\
  Channel.is_open (node_factory_feed_ (hub s')) = Channel.is_open (node_factory_feed_ (hub s)).
Proof.
  intros He E. destruct e; try done; cbn [step] in E.
  - apply moved_inv in E as (a & h & E & ->). cbn. unfold ticking, acceptor_work in *. cbn. destruct (_ <=? _); [by injection E as _ <-|].
    cbv zeta in E. destruct (Channel.is_open (node_factory_feed_ (hub s))) eqn:Eo; injection E as _ <-; by rewrite ?Eo.
  - apply moved_inv in E as (a & h & E & ->). cbn. pose proof (quiet_node rest (λ _ _, eq_refl) id Node.stop (hub s)) as Hq.
    rewrite E in Hq. injection Hq as Q1 Q2 Q3. unfold ticking. cbn. by rewrite Q1, Q2, Q3.
  - destruct (heap_ (hub s) !! id); [|done]. destruct (bool_decide _); [|done]. apply moved_inv in E as (a & h & E & ->). cbn.
    apply node_ends_rest in E. injection E as Q1 Q2 Q3. unfold ticking. cbn. by rewrite Q1, Q2, Q3.
Qed.

(** The events of the factory. *)
Definition inside (e : event) : bool := match e with Receive | Admission _ _ _ | Count => true | _ => false end.

Lemma inside_inv e s s' : inside e = true -> step settings e s = Some s' ->
  phase_ s' = phase_ s /\ ticking s' = ticking s /\
  (factory_ s = AtFeed -> Channel.is_open (node_factory_feed_ (hub s)) = true) /\ factory_ s <> Ended.
Proof.
  intros Hi E. assert (E' : factory_step settings e s = Some s') by (destruct e; try done; unfold step in E; by destruct (phase_ s)). clear E.
  unfold factory_step in E'. destruct e; try done; destruct (factory_ s); try done.
  - destruct (Channel.is_open _) eqn:Eo; [|done]. destruct (Channel.try_receive _) as [[c|] feed]; [|done]. injection E' as <-. done.
  - destruct (admit_connection _ _ _ _ _ _) as [[[id|]|e|f] h] eqn:Ea; try done; apply admit_rest in Ea; injection Ea as _ _ Q; injection E' as <-;
      unfold ticking; cbn; by rewrite Q.
  - destruct (on_node_connected _ _) as [[u|e|f] h] eqn:Ec; try done. apply connected_rest in Ec as [_ Q]. injection E' as <-. unfold ticking. cbn. by rewrite Q.
Qed.

(** *** The wait *)

(** No turn of the factory is under way. *)
Definition at_rest (s : state) : bool := match factory_ s with AtFeed | Ended => true | _ => false end.
Definition requests (e : event) : bool := match e with Request => true | _ => false end.

(** The events of [l], from [s] on, have no spurious wake up, and no request in the middle of a turn of the factory. *)
Fixpoint orderly (l : list event) (s : state) : bool :=
  match l with
  | [] => true
  | e :: l => negb (spurious e) && (negb (requests e) || at_rest s) && match step settings e s with Some s => orderly l s | None => true end
  end.

Lemma orderly_keeps (P : state -> Prop) :
  (forall e s s', spurious e = false -> (requests e = true -> at_rest s = true) -> P s -> step settings e s = Some s' -> P s') ->
  forall l s s', orderly l s = true -> P s -> run settings l s = Some s' -> P s'.
Proof.
  intros HP l. induction l as [|e l IH]; intros s s' Hl Hs; cbn [run orderly] in *; [by intros [= <-]|].
  apply andb_prop in Hl as [[He Hq]%andb_prop Hl]. destruct (step settings e s) as [s1|] eqn:E; [|done]. apply IH; [done|].
  apply (HP e s); [by destruct (spurious e) | by intros Er; rewrite Er in Hq | done | done].
Qed.

(** What every event but a spurious wake up keeps holds at the end of a history. *)
Lemma run_keeps (P : state -> Prop) : (forall e s s', spurious e = false -> P s -> step settings e s = Some s' -> P s') ->
  forall l s s', forallb (λ e, negb (spurious e)) l = true -> P s -> run settings l s = Some s' -> P s'.
Proof.
  intros HP l. induction l as [|e l IH]; intros s s' Hl Hs; cbn [run forallb] in *; [by intros [= <-]|]. apply andb_prop in Hl as [He Hl].
  destruct (step settings e s) as [s1|] eqn:E; [|done]. apply IH; [done|]. apply (HP e s); [by destruct (spurious e) | done | done].
Qed.

(** After the request the factory rests, its feed is closed, and once the caller has been woken there are no nodes and the
    timer does not tick. *)
Definition drained (s : state) : Prop := phase_ s = Serving \/
  at_rest s = true /\ Channel.is_open (node_factory_feed_ (hub s)) = false /\
  ((phase_ s = Woken \/ phase_ s = Stopped) -> nodes_ (hub s) = [] /\ ticking s = false).

Lemma drained_outside e s s' : outside e = true -> drained s -> step settings e s = Some s' -> drained s'.
Proof.
  intros He Hd (E1 & E2 & E3 & E4 & E5)%outside_inv; [|done]. destruct Hd as [Hd|(H1 & H2 & H3)]; [left; congruence|].
  right. unfold at_rest in *. rewrite E1, E2, E3, E4, E5. done.
Qed.

Lemma drained_inside e s s' : inside e = true -> drained s -> step settings e s = Some s' -> drained s'.
Proof.
  intros He Hd (E1 & E2 & E3 & E4)%inside_inv; [|done]. destruct Hd as [Hd|(H1 & H2 & _)]; [left; congruence|].
  exfalso. unfold at_rest in H1. destruct (factory_ s); try done. rewrite E3 in H2; done.
Qed.

Lemma step_drained e s s' : spurious e = false -> (requests e = true -> at_rest s = true) -> drained s -> step settings e s = Some s' -> drained s'.
Proof.
  intros He Hq Hd. destruct e as [| | | |coin index lr now us|remote| |local us now| |id|id|]; cbn [spurious requests] in *.
  - cbn [step]. destruct (phase_ s); try done. unfold stop. specialize (Hq eq_refl).
    destruct (Stoppable.stop _) as [[] ?]; intros [= <-]; [|by left]. right. split_and!; try done. by intros [|].
  - cbn [step]. destruct (phase_ s) eqn:Ep; try done. destruct Hd as [Hd|(H1 & H2 & _)]; [congruence|]. intros [= <-]. right. split_and!; try done. by intros [|].
  - cbn [step]. destruct (phase_ s) eqn:Ep; try done. destruct Hd as [Hd|(H1 & H2 & _)]; [congruence|]. intros [= <-]. right. split_and!; try done. by intros [|].
  - done.
  - intros (Ht & b & h & Eh & ->)%tick_inv. apply tick_spec in Eh as (E1 & E2 & E3). destruct Hd as [Hd|(H1 & H2 & H3)].
    { left. cbn. rewrite Hd. by destruct b. }
    right. cbn. unfold ticking. cbn. rewrite E1, E2. split_and!; [done | done|]. destruct b; cbn [andb].
    + intros _. by destruct E3.
    + intros Hp. destruct (H3 Hp). congruence.
  - by apply drained_outside.
  - by apply drained_inside.
  - by apply drained_inside.
  - by apply drained_inside.
  - by apply drained_outside.
  - by apply drained_outside.
  - cbn [step]. destruct (phase_ s) eqn:Ep; try done. destruct Hd as [Hd|(H1 & H2 & H3)]; [congruence|]. intros [= <-]. right.
    split_and!; try done. intros _. split; [|done]. apply H3. by left.
Qed.

(** Before the caller waits, the timer may have ticked for the last time, or have never been started. *)
Definition abandoned (s : state) : Prop := (phase_ s = Serving \/ phase_ s = Closing \/ phase_ s = Waiting) /\ ticking s = false.

Lemma step_abandoned e s s' : spurious e = false -> abandoned s -> step settings e s = Some s' -> abandoned s'.
Proof.
  unfold abandoned. intros He [Hp Ht]. destruct (outside e) eqn:Eo; [intros (-> & _ & _ & -> & _)%outside_inv; done|].
  destruct (inside e) eqn:Ei; [intros (-> & -> & _)%inside_inv; done|]. destruct e as [| | | |coin index lr now us|remote| |local us now| |id|id|]; try done.
  - cbn [step]. unfold ticking in *. destruct Hp as [-> |[-> | ->]]; [|done..]. unfold stop.
    destruct (Stoppable.stop _) as [[] ?]; intros [= <-]; cbn; rewrite Ht; auto.
  - cbn [step]. destruct Hp as [-> |[-> | ->]]; [done| |done]. intros [= <-]. cbn. auto.
  - cbn [step]. destruct Hp as [-> |[-> | ->]]; [done|done|]. intros [= <-]. cbn. auto.
  - intros (Ht' & _)%tick_inv. congruence.
  - cbn [step]. by destruct Hp as [-> |[-> | ->]].
Qed.

(** *** The nodes are stopped *)

(** A hub that stops, with its nodes in memory. *)
Record stopping (h : t) : Prop := {
  st_running : is_running h = false;
  st_nodup : NoDup (nodes_ h);
  st_heap id : id ∈ nodes_ h -> exists p, heap_ h !! id = Some p /\ type_ (connection_ p) <> kNoConnection;
}.

(** A node that has been told to stop, or has ended. *)
Definition told (p : peer) : Prop := Node.state_ (node_ p) <> Stoppable.kStarted.

Lemma node_stop_spec n : exists b n', Node.stop n = (Success b, n') /\ Node.state_ n' <> Stoppable.kStarted /\
  (Node.state_ n = Stoppable.kNotStarted -> Node.state_ n' = Stoppable.kNotStarted).
Proof. unfold Node.stop. destruct (Node.state_ n) eqn:E; eexists _, _; (split; [reflexivity|]); cbn; rewrite ?E; done. Qed.

(** A node after a tick: its connection is the same, it runs only if it ran. *)
Definition later (p p' : peer) : Prop :=
  connection_ p' = connection_ p /\ (ended (node_ p) = true -> ended (node_ p') = true) /\ (told p -> told p').

Lemma later_refl p : later p p.
Proof. done. Qed.

Lemma loop_spec rdi advertise now us ids : forall c ix h, 1 <= c -> NoDup ids -> (forall id, id ∈ ids -> is_Some (heap_ h !! id)) ->
  exists kept h', service_loop settings ids c ix rdi advertise (λ _, true) now us false h = (Success kept, h') /\
    kept `sublist_of` ids /\ nodes_ h' = nodes_ h /\ state_ h' = state_ h /\
    (forall id, id ∉ ids -> heap_ h' !! id = heap_ h !! id) /\
    (forall id p, id ∈ kept -> heap_ h !! id = Some p -> exists p', heap_ h' !! id = Some p' /\ later p p') /\
    (forall id p, head ids = Some id -> heap_ h !! id = Some p -> id ∈ kept -> ended (node_ p) = false /\ exists p', heap_ h' !! id = Some p' /\ told p').
Proof.
  induction ids as [|id ids IH]; intros c ix h Hc Hn Hh.
  { exists [], h. cbn. split_and!; try done. by intros id p ?%not_elem_of_nil. }
  apply NoDup_cons in Hn as [Hid Hn]. destruct (Hh id) as [p Hp]; [by left|]. cbn [service_loop]. rewrite Hp.
  destruct (bool_decide (Node.state_ (node_ p) = Stoppable.kNotStarted)) eqn:Hd; cbn [andb negb].
  - destruct (IH c ix (set_heap (delete id (heap_ h)) h)) as (kept & h' & -> & Hs & E1 & E2 & Ho & Hk & _); [done..| |].
    { intros id' Hi. cbn. rewrite lookup_delete_ne by (intros ->; done). apply Hh. by right. }
    cbn in E1, E2, Ho, Hk. exists kept, h'. split_and!; [done | by constructor | done | done | | |].
    + intros id' [Hne Hni]%not_elem_of_cons. rewrite Ho, lookup_delete_ne by done. done.
    + intros id' q Hi Hq. apply Hk; [done|]. rewrite lookup_delete_ne; [done|]. intros <-. by apply Hid, (elem_of_sublist _ _ _ Hi Hs).
    + intros id' q [= <-] _ Hi. exfalso. by apply Hid, (elem_of_sublist _ _ _ Hi Hs).
  - assert (Hal : ended (node_ p) = false) by exact Hd. destruct (node_stop_spec (node_ p)) as (b & n' & En & Hst & Hke).
    set (h1 := set_heap (<[id := set_node n' p]> (heap_ h)) h). assert (Eo : on_node id Node.stop h = (Success b, h1)).
    { unfold on_node. by rewrite Hp, En. } erewrite op_bind_success by exact Eo.
    assert (Hp1 : heap_ h1 !! id = Some (set_node n' p)) by (cbn; by rewrite lookup_insert_eq).
    assert (Ho1 : forall id', id' <> id -> heap_ h1 !! id' = heap_ h !! id') by (intros id' Hne; cbn; by rewrite lookup_insert_ne).
    assert (Hlt : later p (set_node n' p)) by (split_and!; [done | by rewrite Hal | done]).
    destruct (Z.eqb_spec (c - 1) 0) as [|Hc1].
    + exists (id :: ids), h1. split_and!; try done.
      * intros id' [Hne _]%not_elem_of_cons. by apply Ho1.
      * intros id' q Hi Hq. destruct (decide (id' = id)) as [->|Hne]; [|exists q; by rewrite Ho1]. rewrite Hp in Hq. injection Hq as <-. by exists (set_node n' p).
      * intros id' q [= <-] Hq _. rewrite Hp in Hq. injection Hq as <-. split; [done|]. by exists (set_node n' p).
    + destruct (IH (c - 1) (ix + 1) h1) as (kept & h' & Es & Hs & E1 & E2 & Ho & Hk & _); [lia | done | |].
      { intros id' Hi. rewrite Ho1 by (intros ->; done). apply Hh. by right. }
      erewrite op_bind_success by exact Es. exists (id :: kept), h'. split_and!; [done | by constructor | done | done | | |].
      * intros id' [Hne Hni]%not_elem_of_cons. by rewrite Ho, Ho1.
      * intros id' q Hi Hq. destruct (decide (id' = id)) as [->|Hne].
        { rewrite Hp in Hq. injection Hq as <-. exists (set_node n' p). by rewrite Ho. }
        apply elem_of_cons in Hi as [|Hi]; [done|]. apply Hk; [done|]. by rewrite Ho1.
      * intros id' q [= <-] Hq _. rewrite Hp in Hq. injection Hq as <-. split; [done|]. exists (set_node n' p). by rewrite Ho.
Qed.

(** A tick of a hub that stops. *)
Lemma tick_stopping coin index now us h : stopping h ->
  exists h', on_service_timer_expired settings coin index (λ _, true) now us h = (Success (bool_decide (nodes_ h' = [])), h') /\ stopping h' /\
    nodes_ h' `sublist_of` nodes_ h /\
    (forall id p, id ∈ nodes_ h' -> heap_ h !! id = Some p -> exists p', heap_ h' !! id = Some p' /\ later p p') /\
    (forall id p, head (nodes_ h) = Some id -> heap_ h !! id = Some p -> id ∈ nodes_ h' ->
       ended (node_ p) = false /\ exists p', heap_ h' !! id = Some p' /\ told p').
Proof.
  intros [Hr Hn Hh]. unfold on_service_timer_expired. rewrite Hr. cbn [andb negb]. cbv zeta.
  destruct (loop_spec None false now us (nodes_ h) 32 0 h) as (kept & h1 & Es & Hs & E1 & E2 & _ & Hk & Hf); [lia | done | |].
  { intros id (p & Hp & _)%Hh. by exists p. }
  erewrite op_bind_success by exact Es. erewrite op_bind_success by reflexivity.
  assert (Hst : forall h2, nodes_ h2 = kept -> heap_ h2 = heap_ h1 -> state_ h2 = state_ h1 -> stopping h2).
  { intros h2 N2 H2 S2. split.
    - unfold is_running in *. by rewrite S2, E2.
    - rewrite N2. by eapply sublist_NoDup.
    - intros id Hi. rewrite N2 in Hi. rewrite H2. destruct (Hh id) as (p & Hp & Ht); [by eapply elem_of_sublist|].
      destruct (Hk id p Hi Hp) as (p' & Hp' & Hc & _). exists p'. split; [done|]. by rewrite Hc. }
  assert (Hq : exists h2, (if bool_decide (kept = []) then modify (set_service_timer false) >>; op_ret true else ask_for_connections settings >>; op_ret false) (set_nodes kept h1) =
      (Success (bool_decide (kept = [])), h2) /\ nodes_ h2 = kept /\ heap_ h2 = heap_ h1 /\ state_ h2 = state_ h1).
  { case_bool_decide; [by eexists|]. unfold op_bind, ask_for_connections. destruct (_ && _ && _); by eexists. }
  destruct Hq as (h2 & -> & N2 & H2 & S2). exists h2. rewrite N2, H2. split_and!; [done | by apply Hst | done | done | done].
Qed.

(** The end of nodes that are stopping. *)
Lemma node_ends_spec id p h : heap_ h !! id = Some p -> type_ (connection_ p) <> kNoConnection ->
  exists h', node_ends id h = (Success (), h') /\ nodes_ h' = nodes_ h /\ state_ h' = state_ h /\
    heap_ h' = <[id := set_node (Node.on_stop_completed (node_ p)).2 p]> (heap_ h).
Proof.
  intros Hp Ht. unfold node_ends, on_node_disconnected, op_bind, modify, on_node, add_by_type. rewrite Hp.
  assert (Ha : exists g, release_address (IPEndpoint.address_ (endpoint_ (connection_ p))) h = g /\ heap_ g = heap_ h /\ nodes_ g = nodes_ h /\ state_ g = state_ h).
  { unfold release_address. destruct (connected_addresses_ h !! _); by eexists. }
  destruct Ha as (g & -> & G1 & G2 & G3). destruct (type_ (connection_ p)); try done; cbn; rewrite G1, Hp; eexists; split_and!; (reflexivity || cbn; by rewrite ?G1, ?G2, ?G3).
Qed.

(** The nodes of a hub that are stopping. *)
Definition is_stopping (h : t) (id : Z) : Prop := Node.state_ ∘ node_ <$> heap_ h !! id = Some Stoppable.kStopping.
#[local] Instance is_stopping_dec h id : Decision (is_stopping h id).
Proof. unfold is_stopping. apply _. Defined.

Lemma is_stopping_peer h id : is_stopping h id -> exists p, heap_ h !! id = Some p /\ Node.state_ (node_ p) = Stoppable.kStopping.
Proof. unfold is_stopping. destruct (heap_ h !! id) as [p|]; [|done]. intros [= E]. by exists p. Qed.

(** All nodes of a list end that are stopping. *)
Lemma all_end ids : forall s, NoDup ids -> stopping (hub s) -> (forall id, id ∈ ids -> id ∈ nodes_ (hub s) /\ is_stopping (hub s) id) ->
  exists s', run settings (NodeEnds <$> ids) s = Some s' /\ stopping (hub s') /\ nodes_ (hub s') = nodes_ (hub s) /\
    phase_ s' = phase_ s /\ ticking s' = ticking s /\
    forall id p, heap_ (hub s) !! id = Some p -> exists p', heap_ (hub s') !! id = Some p' /\
      ended (node_ p') = (ended (node_ p) || bool_decide (id ∈ ids)).
Proof.
  induction ids as [|id ids IH]; intros s Hn Hs Hi.
  { exists s. cbn [fmap list_fmap run]. split_and!; try done. intros id p Hp. exists p. split; [done|].
    rewrite bool_decide_false by apply not_elem_of_nil. by rewrite orb_false_r. }
  apply NoDup_cons in Hn as [Hid Hn]. destruct (Hi id) as [Hin (p & Hp & Hst)%is_stopping_peer]; [by left|].
  assert (Ht : type_ (connection_ p) <> kNoConnection) by (destruct (st_heap _ Hs id Hin) as (q & Hq & Ht); congruence).
  destruct (node_ends_spec id p (hub s) Hp Ht) as (h1 & En & N1 & S1 & H1). set (q := set_node (Node.on_stop_completed (node_ p)).2 p) in *.
  set (s1 := mk_state h1 (phase_ s) (factory_ s) (saved s)).
  assert (E1 : step settings (NodeEnds id) s = Some s1).
  { cbn [step]. unfold s1, moved. rewrite Hp, bool_decide_true, En by done. done. }
  assert (Ho : forall id', id' <> id -> heap_ h1 !! id' = heap_ (hub s) !! id') by (intros id' Hne; rewrite H1; by rewrite lookup_insert_ne).
  destruct (IH s1) as (s' & E' & St & Nn & Pp & Tt & Hend); [done | | |].
  { destruct Hs as [R D G]. split; cbn [hub s1]; [unfold is_running in *; by rewrite S1 | by rewrite N1 |]. rewrite N1. intros id' Hi'.
    destruct (decide (id' = id)) as [->|Hne]; [|rewrite Ho by done; by apply G]. exists q. rewrite H1, lookup_insert_eq. done. }
  { intros id' Hi'. assert (id' <> id) by (intros ->; done). destruct (Hi id') as [? Hq']; [by right|]. cbn [hub s1]. rewrite N1.
    split; [done|]. unfold is_stopping in *. by rewrite Ho. }
  destruct (outside_inv (NodeEnds id) s s1 eq_refl E1) as (_ & _ & _ & T1 & _).
  exists s'. cbn [fmap list_fmap run]. rewrite E1. split_and!; [done | done | by rewrite Nn | done | by rewrite Tt |].
  intros id' p' Hp'. destruct (decide (id' = id)) as [->|Hne].
  - destruct (Hend id q) as (p2 & Hp2 & He2); [cbn [hub s1]; by rewrite H1, lookup_insert_eq|]. exists p2. split; [done|].
    rewrite He2. change (ended (node_ q)) with true. cbn [orb]. rewrite (bool_decide_true (id ∈ id :: ids)) by by left. by rewrite orb_true_r.
  - destruct (Hend id' p') as (p2 & Hp2 & He2); [cbn [hub s1]; by rewrite Ho|]. exists p2. split; [done|]. rewrite He2. f_equal.
    apply bool_decide_ext. rewrite elem_of_cons. tauto.
Qed.

(** What is left to do: a node that runs is stopped first and then removed. *)
Definition weight (h : t) (id : Z) : nat := match heap_ h !! id with Some p => if ended (node_ p) then 1 else 2 | None => 0 end.
Definition work (h : t) : nat := sum_list_with (weight h) (nodes_ h).

Lemma work_less h h' id ids : nodes_ h = id :: ids -> NoDup (id :: ids) -> nodes_ h' `sublist_of` id :: ids ->
  (forall i, i ∈ nodes_ h' -> (weight h' i <= weight h i)%nat) -> (id ∈ nodes_ h' -> (weight h' id < weight h id)%nat) ->
  (id ∉ nodes_ h' -> (0 < weight h id)%nat) -> (work h' < work h)%nat.
Proof.
  intros En [Hid _]%NoDup_cons Hs Hle Hlt Hpos. unfold work. rewrite En. cbn [sum_list_with].
  assert (Hsub : forall l k, l `sublist_of` k -> (forall i, i ∈ l -> (weight h' i <= weight h i)%nat) ->
      (sum_list_with (weight h') l <= sum_list_with (weight h) k)%nat).
  { clear. intros l k Hs. induction Hs as [|x l k Hs IH|x l k Hs IH]; intros Hl; [done| |]; cbn [sum_list_with].
    - pose proof (Hl x (list_elem_of_here _ _)). specialize (IH (λ i Hi, Hl i (list_elem_of_further _ _ _ Hi))). lia.
    - specialize (IH Hl). lia. }
  apply sublist_cons_r in Hs as [Hs | (l & El & Hs)].
  - assert (Hni : id ∉ nodes_ h') by (intros Hi; by apply Hid, (elem_of_sublist _ _ _ Hi Hs)).
    specialize (Hpos Hni). pose proof (Hsub _ _ Hs Hle). lia.
  - rewrite El in *. cbn [sum_list_with]. specialize (Hlt (list_elem_of_here _ _)).
    pose proof (Hsub _ _ Hs (λ i Hi, Hle i (list_elem_of_further _ _ _ Hi))). lia.
Qed.

(** One round: a tick, and the end of the nodes that it has told to stop. *)
Lemma round coin index now us s : stopping (hub s) -> phase_ s = Waiting -> ticking s = true ->
  exists l s', forallb (λ e, negb (spurious e)) l = true /\ run settings (Tick coin index (λ _, true) now us :: l) s = Some s' /\ stopping (hub s') /\
    (phase_ s' = Woken /\ nodes_ (hub s') = [] \/
     phase_ s' = Waiting /\ ticking s' = true /\ (work (hub s') < work (hub s))%nat).
Proof.
  intros Hs Hp Ht. destruct (tick_stopping coin index now us (hub s) Hs) as (h1 & E1 & St1 & Sub & Hl & Hf).
  set (b := bool_decide (nodes_ h1 = [])) in *. set (s1 := mk_state h1 (if b then Woken else Waiting) (factory_ s) (saved s)).
  assert (Et : step settings (Tick coin index (λ _, true) now us) s = Some s1).
  { unfold step. rewrite Hp, Ht, E1, bool_decide_true, andb_true_r by done. done. }
  destruct b eqn:Hb.
  { exists [], s1. cbn [run]. rewrite Et. split_and!; try done. left. split; [done|]. by apply bool_decide_eq_true in Hb. }
  apply bool_decide_eq_false in Hb. set (ids := filter (is_stopping h1) (nodes_ h1)).
  destruct (all_end ids s1) as (s2 & E2 & St2 & N2 & P2 & T2 & He).
  { apply NoDup_filter, St1. } { done. } { intros id [Hi Hin]%list_elem_of_filter. by split. }
  exists (NodeEnds <$> ids), s2. split_and!; [|cbn [run]; by rewrite Et | done |].
  { clear. by induction ids. }
  right. split_and!; [done | |].
  { rewrite T2. destruct (tick_spec _ _ _ _ _ _ _ _ E1) as (_ & T1 & _). unfold ticking in *. cbn [hub s1]. by rewrite T1. }
  destruct (nodes_ (hub s)) as [|id rest] eqn:En.
  { exfalso. apply sublist_nil_r in Sub. done. }
  assert (Hin : forall i, i ∈ id :: rest -> exists p, heap_ (hub s) !! i = Some p).
  { rewrite <- En. intros i (p & Hp' & _)%(st_heap _ Hs). by exists p. }
  assert (Hw : forall i, i ∈ nodes_ (hub s2) -> exists p p2, heap_ (hub s) !! i = Some p /\ heap_ (hub s2) !! i = Some p2 /\
      (ended (node_ p) = true -> ended (node_ p2) = true) /\ (head (id :: rest) = Some i -> ended (node_ p) = false /\ ended (node_ p2) = true)).
  { rewrite N2. cbn [hub s1]. intros i Hi. destruct (Hin i) as [p Hpi]; [by eapply elem_of_sublist|].
    destruct (Hl i p Hi Hpi) as (p' & Hp' & _ & Hend & _). destruct (He i p') as (p2 & Hp2 & E'); [done|].
    exists p, p2. split_and!; [done | done | |].
    - intros Hd. rewrite E', Hend by done. done.
    - intros Hhd. destruct (Hf i p Hhd Hpi Hi) as (Hd & q & Hq & Hto). split; [done|]. rewrite Hp' in Hq. injection Hq as <-.
      rewrite E'. destruct (ended (node_ p')) eqn:Ed; [done|]. cbn [orb]. apply bool_decide_eq_true. apply list_elem_of_filter. split; [|done].
      unfold is_stopping. rewrite Hp'. unfold told in Hto. unfold ended in Ed. apply bool_decide_eq_false in Ed. cbn. by destruct (Node.state_ (node_ p')). }
  apply (work_less (hub s) (hub s2) id rest); [done | rewrite <- En; apply Hs | by rewrite N2 | | |].
  - intros i (p & p2 & H1 & H2 & Hd & _)%Hw. unfold weight. rewrite H1, H2. destruct (ended (node_ p)); [by rewrite Hd | destruct (ended _); lia].
  - intros (p & p2 & H1 & H2 & _ & Hd)%Hw. destruct (Hd eq_refl) as [D1 D2]. unfold weight. rewrite H1, H2, D1, D2. lia.
  - intros _. unfold weight. destruct (Hin id) as [p ->]; [by left|]. destruct (ended _); lia.
Qed.

(** The stop ends, when the nodes do as they are told. *)
Lemma drains n : forall s, (work (hub s) <= n)%nat -> stopping (hub s) -> phase_ s = Waiting -> ticking s = true ->
  exists l s', forallb (λ e, negb (spurious e)) l = true /\ run settings l s = Some s' /\ phase_ s' = Stopped /\
    nodes_ (hub s') = [] /\ state_ (hub s') = Stoppable.kNotStarted /\ saved s' = Some (address_book_ (hub s')).
Proof.
  induction n as [|n IH]; intros s Hw Hs Hp Ht.
  all: destruct (round (λ _ _, 0) (λ _ _, 0) 0 0 s Hs Hp Ht) as (l & s1 & Hl & E1 & St1 & [[Hp1 Hn1] | (Hp1 & Ht1 & Hw1)]).
  2: lia.
  3: { destruct (IH s1) as (l' & s2 & Hl' & E2 & R); [lia | done..|]. exists (Tick (λ _ _, 0) (λ _ _, 0) (λ _, true) 0 0 :: l ++ l'), s2.
       split_and!; try apply R; [cbn; by rewrite forallb_app, Hl, Hl'|]. rewrite app_comm_cons, run_app, E1. done. }
  all: exists (Tick (λ _ _, 0) (λ _ _, 0) (λ _, true) 0 0 :: l ++ [Finish]); eexists; split_and!;
    [cbn; by rewrite forallb_app, Hl | rewrite app_comm_cons, run_app, E1; cbn [run step]; rewrite Hp1; reflexivity | done | done | done | done].
Qed.

(** A start without TLS contexts fails, and leaves the hub started and its timers not. *)
Lemma failed_start server client load v4 v6 h0 h1 : state_ h0 = Stoppable.kNotStarted -> start settings server client load v4 v6 h0 = (Success false, h1) ->
  state_ h1 = Stoppable.kStarted /\ service_timer_ h1 = service_timer_ h0.
Proof.
  intros E. unfold start. rewrite E. cbn [Stoppable.start negb]. destruct (use_tls settings && negb (server && client)) eqn:Eu.
  - intros [= <-]. done.
  - unfold op_bind. repeat case_match; intros [=].
Qed.

Lemma abandoned_stays l s s' : abandoned s -> forallb (λ e, negb (spurious e)) l = true -> run settings l s = Some s' -> phase_ s' <> Stopped.
Proof. intros Ha Hl E. apply (run_keeps abandoned step_abandoned) in E; [|done..]. destruct E as [[E|[E|E]] _]; by rewrite E. Qed.

(** A tick of a hub that stops and has no nodes. *)
Lemma tick_empty coin index lr now us h : is_running h = false -> nodes_ h = [] ->
  on_service_timer_expired settings coin index lr now us h = (Success true, set_service_timer false (set_nodes [] h)).
Proof. intros Hr Hn. unfold on_service_timer_expired. rewrite Hr. cbn [andb negb]. cbv zeta. rewrite Hn. reflexivity. Qed.

Lemma request_step h f : state_ h = Stoppable.kStarted -> exists h', stop h = (Success true, h') /\ is_running h' = false /\
  nodes_ h' = nodes_ h /\ heap_ h' = heap_ h /\ service_timer_ h' = service_timer_ h /\
  step settings Request (mk_state h Serving f None) = Some (mk_state h' Closing f None).
Proof.
  intros Hst. destruct (stop h) as [r h'] eqn:E. exists h'. unfold step. cbn [phase_ hub factory_ saved]. rewrite E.
  unfold stop in E. rewrite Hst in E. injection E as <- <-. done.
Qed.

(** A connection that the factory has in hand when the feeds are closed becomes a node after the wait is over. *)
Lemma late_node conn local us now s id h' : phase_ s = Woken -> factory_ s = Received conn -> nodes_ (hub s) = [] ->
  admit_connection settings conn local us now (hub s) = (Success (Some id), h') ->
  exists s', run settings [Admission local us now; Count; Finish] s = Some s' /\ phase_ s' = Stopped /\ nodes_ (hub s') = [id].
Proof.
  intros Hp Hf Hn Ea. assert (E1 : step settings (Admission local us now) s = Some (mk_state h' Woken (Begun id) (saved s))).
  { unfold step, factory_step. rewrite Hp, Hf, Ea. done. }
  destruct (admit_inv settings conn local us now (hub s) _ h' Ea ltac:(done)) as (h0 & _ & [[Hno _]|(p & [= ->] & -> & Ht & _ & _)]);
    [by destruct (Hno id)|].
  set (id := next_node_id_ h0) in *. assert (Hi : heap_ (install p h0) !! id = Some p) by apply lookup_insert_eq.
  apply admit_rest in Ea. injection Ea as En _ _. rewrite Hn in En.
  cbn [run]. rewrite E1. unfold step at 1, factory_step. cbn [phase_ factory_ hub saved].
  unfold on_node_connected, op_bind, modify, add_by_type. rewrite Hi.
  destruct (type_ (connection_ p)); try done; (eexists; split; [reflexivity|]; split; [done|]; cbn; by rewrite En).
Qed.
End Facts.

(** C8: The stop of a hub that runs and whose service timer ticks, while the acceptor, the factory, the timer and the nodes go on in any
    order.  When the request does not come in the middle of a turn of the factory, and no wake up is spurious, it
    comes back only when no node is left; and when the nodes do as they are told there is a way for it to come back, with the book
    saved.  But a connection that the factory has in hand when the feeds are closed becomes a node after the tick that
    found none, and stop comes back with a node left that calls into the hub.  The wait has no condition either: when the hub has no
    nodes and its timer ticks after the request and before the wait, the notification is lost and no tick follows, so that stop
    never comes back; and a wake up that is spurious lets it come back while nodes are left.  And a hub whose start has
    failed for want of a TLS context has been started all the same, without its timer: its stop never comes back. *)
Theorem hub_shutdown `{Boost} `{Crypto} (settings : HubSettings) (h : t) :
  state_ h = Stoppable.kStarted -> service_timer_ h = true -> NoDup (nodes_ h) ->
  (forall id, id ∈ nodes_ h -> exists p, heap_ h !! id = Some p /\ type_ (connection_ p) <> kNoConnection) ->
  (forall l f s, orderly settings l (mk_state h Serving f None) = true -> run settings l (mk_state h Serving f None) = Some s ->
     phase_ s = Stopped -> nodes_ (hub s) = []) /\
  (exists s, run settings [Request; Wait] (initial h) = Some s /\ exists l s', forallb (λ e, negb (spurious e)) l = true /\
     run settings l s = Some s' /\ phase_ s' = Stopped /\ state_ (hub s') = Stoppable.kNotStarted /\ saved s' = Some (address_book_ (hub s'))) /\
  (nodes_ h = [] -> forall conn coin index lr now us,
     exists s, run settings [Request; Wait; Tick coin index lr now us] (mk_state h Serving (Received conn) None) = Some s /\
     forall local unix_seconds now id h', admit_connection settings conn local unix_seconds now (hub s) = (Success (Some id), h') ->
       exists s', run settings [Admission local unix_seconds now; Count; Finish] s = Some s' /\ phase_ s' = Stopped /\ nodes_ (hub s') = [id]) /\
  (nodes_ h = [] -> forall coin index lr now us, exists s, run settings [Request; Tick coin index lr now us] (initial h) = Some s /\
     forall l s', forallb (λ e, negb (spurious e)) l = true -> run settings l s = Some s' -> phase_ s' <> Stopped) /\
  (exists s, run settings [Request; Wait; SpuriousWakeup; Finish] (initial h) = Some s /\ phase_ s = Stopped /\ nodes_ (hub s) = nodes_ h) /\
  (forall server client load v4 v6 key now h1, start settings server client load v4 v6 (make settings key now) = (Success false, h1) ->
     exists s, run settings [Request; Wait] (initial h1) = Some s /\
       forall l s', forallb (λ e, negb (spurious e)) l = true -> run settings l s = Some s' -> phase_ s' <> Stopped).
Proof.
  intros Hst Hti Hn Hh. destruct (request_step settings h AtFeed Hst) as (h1 & E1 & Hr & N1 & H1 & T1 & R1). split_and!.
  - intros l f s Hl E Hp. assert (Hd : drained s).
    { apply (orderly_keeps settings drained (step_drained settings) l (mk_state h Serving f None) s Hl); [by left | done]. }
    destruct Hd as [Hd|(_ & _ & Hd)]; [congruence|]. apply Hd. by right.
  - exists (mk_state h1 Waiting AtFeed None). unfold initial. cbn [run]. rewrite R1. split; [done|].
    destruct (drains settings (work h1) (mk_state h1 Waiting AtFeed None)) as (l & s' & Hl & E & P1 & _ & P2 & P3);
      [done | | done | unfold ticking; cbn; congruence |].
    { split; cbn [hub]; [done | by rewrite N1 | by rewrite N1, H1]. }
    by exists l, s'.
  - intros He conn coin index lr now us. destruct (request_step settings h (Received conn) Hst) as (h2 & E2 & Hr2 & N2 & _ & T2 & R2).
    exists (mk_state (set_service_timer false (set_nodes [] h2)) Woken (Received conn) None). split.
    { cbn [run]. rewrite R2. cbn [step phase_ hub factory_ saved]. unfold ticking. cbn [hub]. rewrite T2, Hti.
      rewrite tick_empty; [done | done | congruence]. }
    intros local us' now' id h' Ea. by eapply late_node.
  - intros He coin index lr now us. exists (mk_state (set_service_timer false (set_nodes [] h1)) Closing AtFeed None). split.
    { unfold initial. cbn [run]. rewrite R1. cbn [step phase_ hub factory_ saved]. unfold ticking. cbn [hub]. rewrite T1, Hti.
      rewrite tick_empty; [done | done | congruence]. }
    intros l s' Hl E. apply (abandoned_stays settings l _ s') in E; [done | split; [by right; left | done] | done].
  - eexists. unfold initial. cbn [run]. rewrite R1. cbn. split_and!; [reflexivity | done | done].
  - intros server client load v4 v6 key now h2 Es. destruct (failed_start settings _ _ _ _ _ (make settings key now) _ eq_refl Es) as [S2 T2].
    destruct (request_step settings h2 AtFeed S2) as (h3 & E3 & _ & _ & _ & T3 & R3). exists (mk_state h3 Waiting AtFeed None). split.
    { unfold initial. cbn [run]. rewrite R3. done. }
    intros l s' Hl E. apply (abandoned_stays settings l _ s') in E; [done | | done]. split; [by right; right|]. unfold ticking. cbn. by rewrite T3, T2.
Qed.

(** A hub that serves a peer, and one that serves none while the factory has a connection in hand. *)
Definition sample_serving : t := set_service_timer true sample_running.
Definition sample_vacant : t := set_service_timer true (set_state Stoppable.kStarted sample_hub).

Lemma hub_shutdown_witness : nodes_ sample_serving = [0] /\
  (exists s, @run model_boost model_crypto sample_hub_settings [Request; Wait; SpuriousWakeup; Finish] (initial sample_serving) = Some s /\
    phase_ s = Stopped /\ nodes_ (hub s) = [0]) /\
  exists s, @run model_boost model_crypto sample_hub_settings
      [Request; Wait; Tick (λ _ _, 0) (λ _ _, 0) (λ _, true) 0 0; Admission (IPEndpoint.mk (V4 [9; 9; 9; 9]) 9033) 1 1; Count; Finish]
      (mk_state sample_vacant Serving (Received (sample_connection 3)) None) = Some s /\ phase_ s = Stopped /\ nodes_ (hub s) = [0].
Proof.
  split; [by vm_compute|]. split.
  - apply (@hub_shutdown model_boost model_crypto sample_hub_settings sample_serving); [by vm_compute | by vm_compute | | ].
    + apply (bool_decide_unpack _). vm_compute. exact I.
    + intros id Hi. assert (id = 0) as -> by (apply (list_elem_of_singleton id 0); exact Hi). eexists. split; [vm_compute; reflexivity | done].
  - destruct (@hub_shutdown model_boost model_crypto sample_hub_settings sample_vacant) as (_ & _ & Hl & _);
      [by vm_compute | by vm_compute | constructor | by intros id ?%not_elem_of_nil |].
    destruct (Hl eq_refl (sample_connection 3) (λ _ _, 0) (λ _ _, 0) (λ _, true) 0 0) as (s & Es & Hs). clear Hl.
    destruct (@admit_connection model_boost model_crypto sample_hub_settings (sample_connection 3) (IPEndpoint.mk (V4 [9; 9; 9; 9]) 9033) 1 1 (hub s))
      as [r h'] eqn:Ea. assert (Hr : r = Success (Some 0)).
    { assert (r = (@admit_connection model_boost model_crypto sample_hub_settings (sample_connection 3) (IPEndpoint.mk (V4 [9; 9; 9; 9]) 9033) 1 1 (hub s)).1)
        as -> by (by rewrite Ea). vm_compute in Es. injection Es as <-. vm_compute. reflexivity. }
    subst r. destruct (Hs _ _ _ _ _ Ea) as (s' & E' & P' & N'). exists s'. split; [|done]. rewrite <- E'.
    pose proof (@run_app model_boost model_crypto sample_hub_settings [Request; Wait; Tick (λ _ _, 0) (λ _ _, 0) (λ _, true) 0 0]
      [Admission (IPEndpoint.mk (V4 [9; 9; 9; 9]) 9033) 1 1; Count; Finish] (mk_state sample_vacant Serving (Received (sample_connection 3)) None)) as Er.
    rewrite Es in Er. exact Er.
Defined.

End ShutdownFacts.
