(* ===== verification/Intake.v ===== *)
(** * Connections that come in

    How sockets become nodes: [initialize_acceptor], the loop of [acceptor_work] and the loop of [node_factory_work] of
    [src/src/node/network/node_hub.cpp], with the calls on sockets that throw.  [remote_endpoint()] and
    [local_endpoint()] of a socket throw when its peer has gone meanwhile; what they return is an
    argument, [None] when they throw.  An exception that leaves a coroutine ends it, and is dropped; one that leaves
    [Node::start], which is declared [noexcept], ends the process.

    [Hub.v] has the same coroutines for sockets that do not fail. *)

From stdpp Require Import gmap.
From S2P Require Import Prelude Text Stream Boost Serialize Types Protocol Misc Addresses Payloads Message Meters Concurrency Chain AddressBook Node Hub HubFacts.
#[local] Open Scope Z_scope.

Module Intake.
Import NodeHub.

Inductive protocol := tcp_v4 | tcp_v6.
Definition family (a : address) : protocol := if is_v4 a then tcp_v4 else tcp_v6.

Definition thrown {A} : outcome A := Failure (Thrown boost_system_error).

(** The two ends of a socket, as [remote_endpoint()] and [local_endpoint()] give them. *)
Abbreviation ends := (option (IPEndpoint.t * IPEndpoint.t)).

(** What an accept comes to: it fails, or gives a socket whose remote end is asked for twice, for the log and for
    the connection. *)
Inductive accept_result := AcceptError | Accepted (logged remote : option IPEndpoint.t).

Section Intake.
Context `{Boost} `{Crypto}.
Variable settings : HubSettings.

(** The endpoint that is listened on, given what the calls on the acceptor return. *)
Definition initialize_acceptor (open_ : protocol -> outcome unit) (set_options : outcome unit)
    (bind : protocol -> IPEndpoint.t -> outcome unit) (listen : outcome unit) : outcome IPEndpoint.t :=
  match IPEndpoint.from_string (local_endpoint settings) with
  | Failure _ => thrown
  | Fault f => Fault f
  | Success e =>
      let e := if IPEndpoint.port_ e =? 0 then IPEndpoint.set_port (wrap 16 (default_port settings)) e else e in
      let? _ := open_ tcp_v4 in
      let? _ := set_options in
      let? _ := bind tcp_v4 e in
      let? _ := listen in
      Success e
  end.

(** A turn of the loop of [acceptor_work]. *)
Definition acceptor_turn (r : accept_result) : op t unit :=
  λ h,
    match r with
    | AcceptError | Accepted None _ => (thrown, h)
    | Accepted (Some _) remote =>
        if max_active_connections settings <=? size h then (Success (), h)
        else
          match remote with
          | None => (thrown, h)
          | Some e => if Channel.is_open (node_factory_feed_ h) then acceptor_work settings e h else (thrown, h)
          end
    end.

(** The loop, whose exceptions are caught outside of it; what is not served. *)
Fixpoint acceptor_loop (l : list accept_result) : op t (list accept_result) :=
  match l with
  | [] => op_ret []
  | r :: l =>
      λ h, match acceptor_turn r h with
           | (Success _, h) => acceptor_loop l h
           | (Failure _, h) => (Success l, h)
           | (Fault f, h) => (Fault f, h)
           end
  end.

(** [open_node] for a socket with the ends [made] when the node is made, and [started] when it is started. *)
Definition open_socket (conn : Connection) (is_open : bool) (made started : ends) (unix_seconds now : Z) : op t (option Z) :=
  λ h,
    if negb is_open then (Success None, h)
    else if max_active_connections settings <=? size h
    then (Success None, set_rejected (wrap 64 (total_rejected_connections_ h + 1)) h)
    else
      let id := next_node_id_ h in
      match made with
      | None => (thrown, set_next_id (id + 1) h)
      | Some (remote, local) =>
          match Node.construct (type_ conn) remote local (local_endpoint settings) (default_port settings)
                  (nonce settings) (user_agent settings) unix_seconds now with
          | Success n =>
              let h := set_next_id (id + 1) (set_heap (<[id := {| node_ := n; connection_ := conn |}]> (heap_ h)) h) in
              match started with
              | None => (Fault Terminated, h)
              | Some _ => (on_node id (Node.start (network settings) now) >>; op_ret (Some id)) h
              end
          | Failure e => (Failure e, h)
          | Fault f => (Fault f, h)
          end
      end.

Definition admit_socket (conn : Connection) (made started : ends) (unix_seconds now : Z) : op t (option Z) :=
  match socket_ conn with
  | None => λ h, (Fault AssertionFailed, h)
  | Some is_open =>
      if bool_decide (type_ conn = kNoConnection) then λ h, (Fault AssertionFailed, h)
      else
        (if bool_decide (type_ conn = kOutbound) then less_needed else op_ret ()) >>;
        open_socket conn is_open made started unix_seconds now
  end.

(** A turn of the loop of [node_factory_work]: a connection with the ends of its socket. *)
Record intake := { conn_ : Connection; made_ : ends; started_ : ends }.

Definition factory_turn (unix_seconds now : Z) (i : intake) : op t unit :=
  id <~ admit_socket (conn_ i) (made_ i) (started_ i) unix_seconds now;;
  match id with Some id => on_node_connected id | None => op_ret () end.

(** The loop, which has no handler: what is not served. *)
Fixpoint factory_loop (unix_seconds now : Z) (l : list intake) : op t (list intake) :=
  match l with
  | [] => op_ret []
  | i :: l =>
      λ h, match factory_turn unix_seconds now i h with
           | (Success _, h) => factory_loop unix_seconds now l h
           | (Failure _, h) => (Success l, h)
           | (Fault f, h) => (Fault f, h)
           end
  end.

End Intake.
End Intake.

(** ** Properties *)

Module IntakeFacts.
Import NodeHub HubFacts Intake.

Section Facts.
Context `{Boost} `{Crypto}.
Variable settings : HubSettings.

(** Peers that stay. *)
Definition steady (e : IPEndpoint.t) : accept_result := Accepted (Some e) (Some e).
Definition accepted_all (es : list IPEndpoint.t) (h : t) : t := foldl (λ h e, (acceptor_work settings e h).2) h es.

Lemma acceptor_work_open e h : Channel.is_open (node_factory_feed_ h) = true ->
  (acceptor_work settings e h).1 = Success () /\ Channel.is_open (node_factory_feed_ (acceptor_work settings e h).2) = true.
Proof. intros Ho. unfold acceptor_work. destruct (_ <=? _); [done|]. cbv zeta. by rewrite Ho. Qed.

Lemma steady_turn e h : Channel.is_open (node_factory_feed_ h) = true -> acceptor_turn settings (steady e) h = (Success (), (acceptor_work settings e h).2).
Proof.
  intros Ho. unfold acceptor_turn, steady. rewrite Ho. destruct (acceptor_work_open e h Ho) as [E _]. unfold acceptor_work in *.
  destruct (_ <=? _); [done | by rewrite Ho].
Qed.

Lemma acceptor_steady es l h : Channel.is_open (node_factory_feed_ h) = true ->
  acceptor_loop settings ((steady <$> es) ++ l) h = acceptor_loop settings l (accepted_all es h).
Proof.
  revert h. induction es as [|e es IH]; intros h Ho; [done|]. cbn [fmap list_fmap app acceptor_loop]. rewrite steady_turn by done.
  apply IH. by apply acceptor_work_open.
Qed.

(** For sockets that do not fail the factory is that of [Hub.v]. *)
Lemma factory_turn_steady conn local started unix_seconds now h :
  factory_turn settings unix_seconds now {| conn_ := conn; made_ := Some (endpoint_ conn, local); started_ := Some started |} h =
  node_factory_work settings conn local unix_seconds now h.
Proof.
  unfold factory_turn, node_factory_work, admit_socket, admit_connection. cbn [conn_ made_ started_]. destruct (socket_ conn) as [is_open|]; [|done].
  destruct (bool_decide (type_ conn = kNoConnection)); [done|]. done.
Qed.

Definition admissible (conn : Connection) (h : t) : Prop :=
  type_ conn <> kNoConnection /\ socket_ conn = Some true /\ size h < max_active_connections settings.

Lemma admit_gone conn made started unix_seconds now h : admissible conn h ->
  exists h1, admit_socket settings conn made started unix_seconds now h = open_socket settings conn true made started unix_seconds now h1 /\
    size h1 = size h /\ nodes_ h1 = nodes_ h /\ heap_ h1 = heap_ h.
Proof.
  intros (Ht & Hs & _). unfold admit_socket. rewrite Hs, bool_decide_false by done. destruct (bool_decide (type_ conn = kOutbound)).
  - exists (set_needed (wrap 32 (needed_connections_count_ h - 1)) h). done.
  - by exists h.
Qed.

Lemma gone_when_made conn started unix_seconds now h : admissible conn h -> exists h',
  factory_turn settings unix_seconds now {| conn_ := conn; made_ := None; started_ := started |} h = (thrown, h') /\
  nodes_ h' = nodes_ h /\ heap_ h' = heap_ h.
Proof.
  intros Ha. pose proof Ha as (_ & _ & Hm). destruct (admit_gone conn None started unix_seconds now h Ha) as (h1 & E & E1 & E2 & E3).
  unfold factory_turn, op_bind. cbn [conn_ made_ started_]. rewrite E. unfold open_socket. cbn [negb]. rewrite E1, (proj2 (Z.leb_gt _ _)) by done.
  eexists. split; [reflexivity|]. done.
Qed.

Lemma gone_when_started conn remote local unix_seconds now h e : admissible conn h -> IPEndpoint.from_string (local_endpoint settings) = Success e ->
  (factory_turn settings unix_seconds now {| conn_ := conn; made_ := Some (remote, local); started_ := None |} h).1 = Fault Terminated.
Proof.
  intros Ha He. pose proof Ha as (_ & _ & Hm). destruct (admit_gone conn (Some (remote, local)) None unix_seconds now h Ha) as (h1 & E & E1 & _).
  unfold factory_turn, op_bind. cbn [conn_ made_ started_]. rewrite E. unfold open_socket. cbn [negb]. rewrite E1, (proj2 (Z.leb_gt _ _)) by done.
  unfold Node.construct. by rewrite He.
Qed.

(** The socket of the acceptor is one of IPv4. *)
Lemma acceptor_v4_only open_ set_options bind listen e : IPEndpoint.from_string (local_endpoint settings) = Success e ->
  (forall p x, family (IPEndpoint.address_ x) <> p -> bind p x = thrown) -> is_v4 (IPEndpoint.address_ e) = false ->
  forall x, initialize_acceptor settings open_ set_options bind listen <> Success x.
Proof.
  intros He Hb Hv x. unfold initialize_acceptor. rewrite He. destruct (open_ tcp_v4); [|done..]. destruct set_options; [|done..]. cbn [outcome_bind].
  rewrite Hb; [done|]. unfold family. by destruct (IPEndpoint.port_ e =? 0); cbn; rewrite Hv.
Qed.
End Facts.

(** A node that ends before it has been counted. *)
Lemma ends_uncounted id p h : heap_ h !! id = Some p -> type_ (connection_ p) <> kNoConnection ->
  0 <= current_active_connections_ h < 2 ^ 32 -> connected_addresses_ h !! IPEndpoint.address_ (endpoint_ (connection_ p)) = None ->
  exists h', (node_ends id >>; on_node_connected id) h = (Success (), h') /\ size h' = size h /\
    connected_addresses_ h' !! IPEndpoint.address_ (endpoint_ (connection_ p)) = Some 1 /\
    Node.state_ ∘ node_ <$> heap_ h' !! id = Some Stoppable.kNotStarted.
Proof.
  intros Hp Ht Hc Ha. unfold node_ends, on_node_disconnected, op_bind. rewrite Hp. unfold modify. cbv beta iota zeta. unfold release_address. rewrite Ha.
  assert (Hw : wrap 32 (wrap 32 (current_active_connections_ h - 1) + 1) = current_active_connections_ h).
  { unfold wrap. rewrite Zplus_mod_idemp_l, Z.sub_add. by apply Z.mod_small. }
  destruct (type_ (connection_ p)) eqn:Et; [done|..]; cbn [add_by_type modify];
    unfold on_node; cbn [heap_ set_inbound set_outbound set_active set_disconnections set_addresses]; rewrite Hp;
    destruct (Node.on_stop_completed (node_ p)) as [r n] eqn:En; injection En as <- <-;
    unfold on_node_connected; cbn [heap_ set_heap]; rewrite lookup_insert_eq; cbn [connection_ set_node]; rewrite Et; cbn [add_by_type modify op_bind];
    (eexists; split; [reflexivity|]; cbn; rewrite Ha, lookup_insert_eq, lookup_insert_eq; by split_and!).
Qed.



End IntakeFacts.
