(* ===== verification/Secure.v ===== *)
(** * TLS contexts

    Models of [src/src/node/network/secure.cpp] and [secure.hpp]: the key and the
    certificate of the node, in the files of a directory, and the contexts made from
    them.  OpenSSL is the class [Tls]; its objects are in a heap with the number of their
    references, so that what is freed, and how often, is visible.  Whether a call
    succeeds, what the user answers and the time are arguments. *)

From stdpp Require Import gmap.
From S2P Require Import Prelude.
#[local] Open Scope Z_scope.

Definition kCertificateKeyLength : Z := 4096.
Definition kCertificateValidityDays : Z := 3650.
Definition kCertificateFileName : Bytes := str "cert.pem".
Definition kPrivateKeyFileName : Bytes := str "key.pem".

Inductive TLSContextType := kServer | kClient.

(** ** OpenSSL *)

Class Tls := {
  pkey : Type;
  x509 : Type;
  blank : x509;
  set_serial : Z -> x509 -> x509;
  set_validity : Z -> Z -> x509 -> x509;
  set_names : Bytes -> x509 -> x509;
  set_pubkey : pkey -> x509 -> x509;
  sign_x509 : pkey -> x509 -> x509;
  (** No time when the field is malformed. *)
  not_before : x509 -> option Z;
  not_after : x509 -> option Z;
  (** [X509_verify(...) == 1]: the certificate is signed with this key. *)
  verify : x509 -> pkey -> bool;
  (** The public key in the certificate is that of this key. *)
  matches : x509 -> pkey -> bool;
  pem_key : pkey -> Bytes -> Bytes;
  pem_x509 : x509 -> Bytes;
  (** The octets of the password that the call back gives. *)
  read_key : Bytes -> Bytes -> option pkey;
  read_x509 : Bytes -> option x509;
}.

Class TlsLaws `{Tls} : Prop := {
  validity_set a b c k : not_before (sign_x509 k (set_pubkey k (set_names (str "zenpp.node") (set_validity a b c)))) = Some a /\
    not_after (sign_x509 k (set_pubkey k (set_names (str "zenpp.node") (set_validity a b c)))) = Some b;
  sign_verifies k c : verify (sign_x509 k (set_pubkey k c)) k = true;
  pubkey_matches k c : matches (sign_x509 k (set_pubkey k c)) k = true;
  key_roundtrip k password : read_key (pem_key k password) password = Some k;
  x509_roundtrip c : read_x509 (pem_x509 c) = Some c;
}.

(** The default call back of [PEM_read_PrivateKey] takes a C string, and 1024 octets of
    it at most. *)
Fixpoint c_string (s : Bytes) : Bytes :=
  match s with
  | [] => []
  | c :: s => if c =? 0 then [] else c :: c_string s
  end.
Definition callback_password (s : Bytes) : Bytes := take 1024 (c_string s).

(** ** The heap *)

Section Secure.
Context `{Tls}.

Record tls_context := mk_context {
  server_method : bool;
  auto_retry : bool;
  min_tls13 : bool;
  no_renegotiation : bool;
  server_preference : bool;
  certificate : option nat;
  private_key : option nat;
}.

Inductive object := Key (k : pkey) | Certificate (c : x509) | Context_ (c : tls_context) | KeyContext | Name.

Inductive entry := Regular (content : Bytes) | Special.

(** The files of the directory, the objects with their references, and the number of
    files that are open. *)
Record world := mk_world {
  files : gmap Bytes entry;
  objects : gmap nat (nat * object);
  next : nat;
  open_files : nat;
}.

(** What the system, OpenSSL and the user answer. *)
Record answers := mk_answers {
  directory_empty : bool;
  directory_relative : bool;
  directory_exists : bool;
  directory_is : bool;
  can_read : Bytes -> bool;
  can_write : Bytes -> bool;
  (** A write that fails leaves some octets. *)
  write_fails : Bytes -> option Bytes;
  (** Removal of a file can fail with an exception. *)
  can_remove : Bytes -> bool;
  key_context_made : bool;
  bits_set : bool;
  generated : option pkey;
  x509_made : bool;
  serial : Z;
  pubkey_set : bool;
  signed : bool;
  context_made : bool;
  certificate_used : bool;
  key_used : bool;
  (** What is typed when a key needs a password and none was given. *)
  prompted : Bytes;
  confirmed : bool;
}.

Context (a : answers).

Definition new (o : object) : op world nat := λ w,
  (Success (next w), mk_world (files w) (<[next w := (1%nat, o)]> (objects w)) (S (next w)) (open_files w)).

(** A reference less; the object goes with the last one. *)
Definition release (i : nat) (m : gmap nat (nat * object)) : gmap nat (nat * object) :=
  match m !! i with
  | Some (S (S n), o) => <[i := (S n, o)]> m
  | Some _ => delete i m
  | None => m
  end.
Definition retain (i : nat) (m : gmap nat (nat * object)) : gmap nat (nat * object) :=
  match m !! i with Some (n, o) => <[i := (S n, o)]> m | None => m end.

Definition set_objects (m : gmap nat (nat * object)) (w : world) : world := mk_world (files w) m (next w) (open_files w).
Definition set_file (name : Bytes) (content : Bytes) (w : world) : world :=
  mk_world (<[name := Regular content]> (files w)) (objects w) (next w) (open_files w).

(** [EVP_PKEY_free], [X509_free], [X509_NAME_free], [EVP_PKEY_CTX_free] of a pointer that is
    not null: undefined when there is no such object. *)
Definition free (i : nat) : op world unit := λ w,
  match objects w !! i with
  | None => (Fault UndefinedBehaviour, w)
  | Some _ => (Success (), set_objects (release i (objects w)) w)
  end.

(** [SSL_CTX_free] gives up what the context refers to. *)
Definition free_context (i : nat) : op world unit := λ w,
  match objects w !! i with
  | Some (1%nat, Context_ c) =>
      let m := delete i (objects w) in
      let m := match certificate c with Some x => release x m | None => m end in
      (Success (), set_objects (match private_key c with Some k => release k m | None => m end) w)
  | Some _ => (Success (), set_objects (release i (objects w)) w)
  | None => (Fault UndefinedBehaviour, w)
  end.

(** [X509_free] and [EVP_PKEY_free] after a test of the pointer. *)
Definition free_opt (p : option nat) : op world unit := match p with Some i => free i | None => op_ret () end.

Definition deref (i : nat) : op world object := λ w,
  match objects w !! i with Some (_, o) => (Success o, w) | None => (Fault UndefinedBehaviour, w) end.
Definition deref_key (i : nat) : op world pkey := o <~ deref i;; match o with Key k => op_ret k | _ => λ w, (Fault UndefinedBehaviour, w) end.
Definition deref_x509 (i : nat) : op world x509 :=
  o <~ deref i;; match o with Certificate c => op_ret c | _ => λ w, (Fault UndefinedBehaviour, w) end.
Definition assign (i : nat) (o : object) : op world unit := λ w,
  match objects w !! i with
  | Some (n, _) => (Success (), set_objects (<[i := (n, o)]> (objects w)) w)
  | None => (Fault UndefinedBehaviour, w)
  end.

(** [fopen] and [fclose] *)
Definition opened (w : world) : world := mk_world (files w) (objects w) (next w) (S (open_files w)).
Definition fclose : op world unit := λ w, (Success (), mk_world (files w) (objects w) (next w) (pred (open_files w))).

(** ** Keys and certificates *)

Definition generate_random_rsa_key_pair : op world (option nat) :=
  if negb (key_context_made a) then op_ret None
  else
    ctx <~ new KeyContext;;
    if negb (bits_set a) then _ <~ free ctx;; op_ret None
    else
      match generated a with
      | None => _ <~ free ctx;; op_ret None
      | Some k => pkey <~ new (Key k);; _ <~ free ctx;; op_ret (Some pkey)
      end.

Definition generate_self_signed_certificate (now : Z) (key : option nat) : op world (option nat) :=
  match key with
  | None => op_ret None
  | Some key =>
      if negb (x509_made a) then op_ret None
      else
        cert <~ new (Certificate blank);;
        let c := set_validity now (now + 86400 * kCertificateValidityDays) (set_serial (serial a) blank) in
        subject <~ new Name;;
        let c := set_names (str "zenpp.node") c in
        _ <~ assign cert (Certificate c);;
        _ <~ free subject;;
        if negb (pubkey_set a) then _ <~ free cert;; op_ret None
        else
          k <~ deref_key key;;
          let c := set_pubkey k c in
          _ <~ assign cert (Certificate c);;
          if negb (signed a) then _ <~ free cert;; op_ret None
          else
            _ <~ assign cert (Certificate (sign_x509 k c));;
            op_ret (Some cert)
  end.

(** Opens [name] for writing, writes [text] and closes it. *)
Definition write_file (name text : Bytes) : op world bool := λ w,
  if negb (can_write a name) then (Success false, w)
  else
    let w := opened (set_file name [] w) in
    match write_fails a name with
    | Some partial => (_ <~ fclose;; op_ret false) (set_file name partial w)
    | None => (_ <~ fclose;; op_ret true) (set_file name text w)
    end.

Definition invalid_target : bool := directory_empty a || directory_relative a || negb (directory_is a).

(** With no password the key is not encrypted. *)
Definition store_rsa_key_pair (key : option nat) (password : Bytes) : op world bool :=
  match key with
  | None => op_ret false
  | Some key =>
      if invalid_target then op_ret false
      else k <~ deref_key key;; write_file kPrivateKeyFileName (pem_key k password)
  end.

Definition store_x509_certificate (cert : option nat) : op world bool :=
  match cert with
  | None => op_ret false
  | Some cert =>
      if invalid_target then op_ret false
      else c <~ deref_x509 cert;; write_file kCertificateFileName (pem_x509 c)
  end.

(** The object in the file [name], if it can be read. *)
Definition load_file (name : Bytes) (decode : Bytes -> option object) : op world (option nat) := λ w,
  if negb (directory_exists a) || negb (directory_is a) then (Success None, w)
  else
    match files w !! name with
    | Some (Regular content) =>
        if negb (can_read a name) then (Success None, w)
        else
          let w := opened w in
          match decode content with
          | None => (_ <~ fclose;; op_ret None) w
          | Some o => (p <~ new o;; _ <~ fclose;; op_ret (Some p)) w
          end
    | _ => (Success None, w)
    end.

(** A key that is not encrypted needs no password; for one that is, a password that is
    empty is asked for. *)
Definition load_rsa_private_key (password : Bytes) : op world (option nat) :=
  load_file kPrivateKeyFileName (λ content,
    Key <$> (if negb (bool_decide (password = [])) then read_key content (callback_password password)
             else match read_key content [] with Some k => Some k | None => read_key content (prompted a) end)).

Definition load_x509_certificate : op world (option nat) :=
  load_file kCertificateFileName (λ content, Certificate <$> read_x509 content).

(** ** Validation *)

(** [ASN1_TIME_cmp_time_t] *)
Definition cmp_time (t : option Z) (now : Z) : Z :=
  match t with
  | None => -2
  | Some t => if t <? now then -1 else if now <? t then 1 else 0
  end.

Definition certificate_valid (now : Z) (c : x509) (k : pkey) : bool :=
  if (cmp_time (not_before c) now =? 1) || (cmp_time (not_after c) now =? -1) then false
  else if negb (verify c k) then false
  else true.

Definition validate_server_certificate (now : Z) (cert key : option nat) : op world bool :=
  match cert, key with
  | Some cert, Some key => c <~ deref_x509 cert;; k <~ deref_key key;; op_ret (certificate_valid now c k)
  | _, _ => op_ret false
  end.

(** [SSL_CTX_use_certificate] and [SSL_CTX_use_PrivateKey] share the object. *)
Definition use (ctx : nat) (i : nat) (set : tls_context -> tls_context) : op world unit := λ w,
  match objects w !! ctx with
  | Some (n, Context_ c) => (Success (), set_objects (retain i (<[ctx := (n, Context_ (set c))]> (objects w))) w)
  | _ => (Fault UndefinedBehaviour, w)
  end.

Definition fresh_context (type : TLSContextType) : tls_context :=
  mk_context (match type with kServer => true | kClient => false end) true true true
    (match type with kServer => true | kClient => false end) None None.
Definition with_certificate (x : nat) (c : tls_context) : tls_context :=
  mk_context (server_method c) (auto_retry c) (min_tls13 c) (no_renegotiation c) (server_preference c) (Some x) (private_key c).
Definition with_key (k : nat) (c : tls_context) : tls_context :=
  mk_context (server_method c) (auto_retry c) (min_tls13 c) (no_renegotiation c) (server_preference c) (certificate c) (Some k).

(** What [SSL_CTX_use_PrivateKey] says: a key that does not belong to the certificate that the context has is refused. *)
Definition key_accepted (cert key : nat) : op world bool :=
  c <~ deref_x509 cert;; k <~ deref_key key;; op_ret (key_used a && matches c k).

(** The return on an error. *)
Definition give_up_context (ctx : nat) (x509_cert rsa_pkey : option nat) : op world (option nat) :=
  _ <~ free_opt x509_cert;;
  _ <~ free_opt rsa_pkey;;
  _ <~ free_context ctx;;
  op_ret None.

Definition generate_tls_context (now : Z) (type : TLSContextType) (key_password : Bytes) : op world (option nat) :=
  if negb (context_made a) then op_ret None
  else
    ctx <~ new (Context_ (fresh_context type));;
    match type with
    | kClient => op_ret (Some ctx)
    | kServer =>
        x509_cert <~ load_x509_certificate;;
        rsa_pkey <~ load_rsa_private_key key_password;;
        match x509_cert, rsa_pkey with
        | Some c, Some k =>
            valid <~ validate_server_certificate now x509_cert rsa_pkey;;
            if negb valid then give_up_context ctx x509_cert rsa_pkey
            else if negb (certificate_used a) then give_up_context ctx x509_cert rsa_pkey
            else
              _ <~ use ctx c (with_certificate c);;
              accepted <~ key_accepted c k;;
              if negb accepted then give_up_context ctx x509_cert rsa_pkey
              else
                _ <~ use ctx k (with_key k);;
                op_ret (Some ctx)
        | _, _ => give_up_context ctx x509_cert rsa_pkey
        end
    end.

(** [std::filesystem::remove] *)
Definition remove (name : Bytes) : op world unit := λ w,
  match files w !! name with
  | None => (Success (), w)
  | Some _ =>
      if can_remove a name then (Success (), mk_world (delete name (files w)) (objects w) (next w) (open_files w))
      else (Failure (Thrown std_filesystem_error), w)
  end.

Definition is_regular (name : Bytes) (w : world) : bool :=
  match files w !! name with Some (Regular _) => true | _ => false end.

(** The files that are there, if they are good. *)
Definition check_tls_files (now : Z) (key_password : Bytes) : op world bool := λ w,
  if is_regular kCertificateFileName w && is_regular kPrivateKeyFileName w then
    (pkey <~ load_rsa_private_key key_password;;
     x509_cert <~ load_x509_certificate;;
     valid <~ (match pkey, x509_cert with Some _, Some _ => validate_server_certificate now x509_cert pkey | _, _ => op_ret false end);;
     _ <~ free_opt pkey;;
     _ <~ free_opt x509_cert;;
     op_ret valid) w
  else (Success false, w).

(** New files. *)
Definition generate_tls_files (now : Z) (key_password : Bytes) : op world bool :=
  pkey <~ generate_random_rsa_key_pair;;
  match pkey with
  | None => op_ret false
  | Some key =>
      cert <~ generate_self_signed_certificate now pkey;;
      match cert with
      | None => _ <~ free key;; op_ret false
      | Some c =>
          valid <~ validate_server_certificate now cert pkey;;
          ok <~ (if negb valid then op_ret false
                 else
                   stored <~ store_x509_certificate cert;;
                   if negb stored then op_ret false else store_rsa_key_pair pkey key_password);;
          _ <~ free c;;
          _ <~ free key;;
          op_ret ok
      end
  end.

Definition validate_tls_requirements (now : Z) (key_password : Bytes) : op world bool :=
  good <~ check_tls_files now key_password;;
  if good : bool then op_ret true
  else if negb (confirmed a) then op_ret false
  else
    _ <~ remove kCertificateFileName;;
    _ <~ remove kPrivateKeyFileName;;
    generate_tls_files now key_password.

End Secure.
