(* ===== verification/SecureFacts.v ===== *)
(** * Properties of TLS contexts

    Files that pass the check make a context; objects are freed, but for two. *)

From stdpp Require Import gmap.
From S2P Require Import Prelude Secure.
#[local] Open Scope Z_scope.

Module SecureFacts.

(** Equality of heaps, object by object. *)
Ltac heap_eq := apply map_eq; intros ?x; rewrite ?lookup_insert, ?lookup_delete, ?lookup_insert; repeat case_decide; subst; try done; try lia.

Section SecureFacts.
Context `{Tls} (a : answers).
Implicit Types (w : world) (m : gmap nat (nat * object)).

(** Objects are numbered in the order in which they are made. *)
Definition numbered w : Prop := forall i, is_Some (objects w !! i) -> (i < next w)%nat.

(** Worlds that differ only in the numbers that have been used. *)
Definition same w w' : Prop := files w' = files w /\ objects w' = objects w /\ open_files w' = open_files w /\ (next w <= next w')%nat.

Definition alloc (o : object) w : world :=
  mk_world (files w) (<[next w := (1%nat, o)]> (objects w)) (S (next w)) (open_files w).

#[global] Instance same_preorder : PreOrder same.
Proof. split; [by intros w|]. intros w1 w2 w3 (? & ? & ? & ?) (? & ? & ? & ?). unfold same. split_and!; congruence || lia. Qed.

Lemma same_numbered w w' : same w w' -> numbered w -> numbered w'.
Proof. intros (_ & E & _ & Hn) Hw i Hi. rewrite E in Hi. apply Hw in Hi. lia. Qed.

Lemma numbered_fresh w i : numbered w -> (next w <= i)%nat -> objects w !! i = None.
Proof. intros Hw Hi. destruct (objects w !! i) eqn:E; [|done]. pose proof (Hw i ltac:(by rewrite E)). lia. Qed.

Lemma numbered_alloc o w : numbered w -> numbered (alloc o w).
Proof.
  intros Hw i. cbn. destruct (decide (i = next w)) as [->|Hi]; [lia|]. rewrite lookup_insert_ne by done. intros Hi'%Hw. lia.
Qed.

Lemma release_last m i o : m !! i = Some (1%nat, o) -> release i m = delete i m.
Proof. intros E. unfold release. by rewrite E. Qed.

(** What was made last is freed without a trace. *)
Lemma release_insert m i o : m !! i = None -> release i (<[i := (1%nat, o)]> m) = m.
Proof. intros E. rewrite (release_last _ _ o) by apply lookup_insert_eq. by apply delete_insert_id. Qed.

Lemma release_insert_ne m i j n o o' : i <> j -> m !! i = None -> m !! j = None ->
  release i (<[j := (n, o')]> (<[i := (1%nat, o)]> m)) = <[j := (n, o')]> m.
Proof.
  intros Hij Hi Hj. rewrite insert_insert_ne by done. apply release_insert. by rewrite lookup_insert_ne.
Qed.

Lemma numbered_above w i : numbered w -> objects w !! (next w + i)%nat = None.
Proof. intros Hw. apply numbered_fresh; [done | lia]. Qed.

(** ** Files *)

(** What the file [name] holds. *)
Definition loaded (name : Bytes) (decode : Bytes -> option object) w : option object :=
  if negb (directory_exists a) || negb (directory_is a) then None
  else match files w !! name with
       | Some (Regular content) => if negb (can_read a name) then None else decode content
       | _ => None
       end.

Lemma load_file_spec name decode w : load_file a name decode w =
  match loaded name decode w with
  | None => (Success None, w)
  | Some o => (Success (Some (next w)), alloc o w)
  end.
Proof.
  unfold load_file, loaded. destruct (_ || _); [done|]. destruct (files w !! name) as [[content|]|]; try done.
  destruct (negb _); [done|]. destruct (decode content); cbn; by destruct w.
Qed.

Definition key_of (password : Bytes) w : option pkey :=
  match loaded kPrivateKeyFileName (λ content,
    Key <$> (if negb (bool_decide (password = [])) then read_key content (callback_password password)
             else match read_key content [] with Some k => Some k | None => read_key content (prompted a) end)) w with
  | Some (Key k) => Some k
  | _ => None
  end.
Definition x509_of w : option x509 :=
  match loaded kCertificateFileName (λ content, Certificate <$> read_x509 content) w with Some (Certificate c) => Some c | _ => None end.

Lemma load_key_spec password w : load_rsa_private_key a password w =
  match key_of password w with None => (Success None, w) | Some k => (Success (Some (next w)), alloc (Key k) w) end.
Proof.
  unfold load_rsa_private_key, key_of. rewrite load_file_spec. unfold loaded. destruct (_ || _); [done|].
  destruct (files w !! _) as [[content|]|]; try done. destruct (negb _); [done|]. by destruct (if negb _ then _ else _).
Qed.

Lemma load_x509_spec w : load_x509_certificate a w =
  match x509_of w with None => (Success None, w) | Some c => (Success (Some (next w)), alloc (Certificate c) w) end.
Proof.
  unfold load_x509_certificate, x509_of. rewrite load_file_spec. unfold loaded. destruct (_ || _); [done|].
  destruct (files w !! _) as [[content|]|]; try done. destruct (negb _); [done|]. by destruct (read_x509 content).
Qed.

(** Only files and the directory count. *)
Lemma x509_of_files w w' : files w' = files w -> x509_of w' = x509_of w.
Proof. intros E. unfold x509_of, loaded. by rewrite E. Qed.
Lemma key_of_files password w w' : files w' = files w -> key_of password w' = key_of password w.
Proof. intros E. unfold key_of, loaded. by rewrite E. Qed.

Lemma x509_regular w c : x509_of w = Some c -> is_regular kCertificateFileName w = true.
Proof. unfold x509_of, loaded, is_regular. destruct (_ || _); [done|]. by destruct (files w !! _) as [[]|]. Qed.
Lemma key_regular password w k : key_of password w = Some k -> is_regular kPrivateKeyFileName w = true.
Proof. unfold key_of, loaded, is_regular. destruct (_ || _); [done|]. by destruct (files w !! _) as [[]|]. Qed.

(** ** The check of the files *)

(** The files are good. *)
Definition files_good (now : Z) (password : Bytes) w : bool :=
  match key_of password w, x509_of w with Some k, Some c => certificate_valid now c k | _, _ => false end.

(** The certificate is one of the key. *)
Definition pair_matches (password : Bytes) w : bool :=
  match key_of password w, x509_of w with Some k, Some c => matches c k | _, _ => false end.

(** Objects that were made, and are freed. *)
Lemma free_made i o n w m : objects w = <[i := (1%nat, o)]> m -> m !! i = None ->
  n = next w -> free i w = (Success (), mk_world (files w) m n (open_files w)).
Proof.
  intros E Hm ->. unfold free. rewrite E, lookup_insert_eq. unfold set_objects. by rewrite release_insert.
Qed.

Lemma deref_key_at i n k w : objects w !! i = Some (n, Key k) -> deref_key i w = (Success k, w).
Proof. intros E. unfold deref_key, op_bind, deref. by rewrite E. Qed.
Lemma deref_x509_at i n c w : objects w !! i = Some (n, Certificate c) -> deref_x509 i w = (Success c, w).
Proof. intros E. unfold deref_x509, op_bind, deref. by rewrite E. Qed.

Lemma validate_at now i j n n' c k w : objects w !! i = Some (n, Certificate c) -> objects w !! j = Some (n', Key k) ->
  validate_server_certificate now (Some i) (Some j) w = (Success (certificate_valid now c k), w).
Proof.
  intros Hc Hk. unfold validate_server_certificate. erewrite op_bind_success by (by eapply deref_x509_at).
  by erewrite op_bind_success by (by eapply deref_key_at).
Qed.

Lemma check_tls_files_spec now password w : numbered w -> exists w', same w w' /\
  check_tls_files a now password w = (Success (files_good now password w), w').
Proof.
  intros Hw. unfold check_tls_files. destruct (is_regular _ w && is_regular _ w) eqn:Hr.
  2:{ exists w. split; [done|]. unfold files_good. destruct (key_of password w) as [k|] eqn:Ek; [|done].
      destruct (x509_of w) as [c|] eqn:Ec; [|done]. by rewrite (x509_regular _ _ Ec), (key_regular _ _ _ Ek) in Hr. }
  unfold files_good. pose proof (numbered_fresh w (next w) Hw ltac:(lia)) as F0. pose proof (numbered_fresh w (S (next w)) Hw ltac:(lia)) as F1.
  assert (Sw : forall m, m = objects w -> forall n, (next w <= n)%nat -> same w (mk_world (files w) m n (open_files w))) by (by intros m ->).
  destruct (key_of password w) as [k|] eqn:Ek; erewrite op_bind_success by (rewrite load_key_spec, Ek; reflexivity);
    (destruct (x509_of w) as [c|] eqn:Ec; erewrite op_bind_success by (rewrite load_x509_spec; try rewrite (x509_of_files w (alloc _ w)) by done; rewrite Ec; reflexivity)).
  - erewrite op_bind_success by (apply (validate_at _ _ _ 1 1 c k); cbn; [by rewrite lookup_insert_eq|];
      by rewrite lookup_insert_ne, lookup_insert_eq by lia).
    cbn [alloc objects next]. erewrite op_bind_success.
    2:{ apply (free_made _ (Key k) (S (S (next w))) _ (<[S (next w) := (1%nat, Certificate c)]> (objects w))); cbn; [|by rewrite lookup_insert_ne by lia|done].
        by rewrite insert_insert_ne by lia. }
    erewrite op_bind_success by (by apply (free_made _ (Certificate c) (S (S (next w))) _ (objects w))).
    eexists. split; [|done]. apply Sw; cbn; [done | lia].
  - erewrite op_bind_success by reflexivity. erewrite op_bind_success by (by apply (free_made _ (Key k) (S (next w)) _ (objects w))).
    eexists. split; [|done]. apply Sw; cbn; [done | lia].
  - erewrite op_bind_success by reflexivity. erewrite op_bind_success by reflexivity.
    erewrite op_bind_success by (by apply (free_made _ (Certificate c) (S (next w)) _ (objects w))).
    eexists. split; [|done]. apply Sw; cbn; [done | lia].
  - eexists. split; [|reflexivity]. done.
Qed.

(** ** New files *)

(** The object [o] is new in [w'], as [i]. *)
Definition made i o w w' : Prop := files w' = files w /\ open_files w' = open_files w /\ objects w !! i = None /\
  objects w' = <[i := (1%nat, o)]> (objects w) /\ (next w <= next w')%nat /\ numbered w'.

Lemma made_alloc o w : numbered w -> made (next w) o w (alloc o w).
Proof. intros Hw. split_and!; try done; [by apply numbered_fresh | cbn; lia | by apply numbered_alloc]. Qed.

(** Objects are freed in any order. *)
Lemma made_free i o w w' : made i o w w' -> exists w'', free i w' = (Success (), w'') /\ same w w''.
Proof.
  intros (E1 & E2 & E3 & E4 & E5 & _). eexists. split; [by apply (free_made i o (next w') w' (objects w))|]. by split_and!.
Qed.

Lemma made_free_below i j o o' w w1 w2 : made i o w w1 -> made j o' w1 w2 -> exists w3, free i w2 = (Success (), w3) /\ made j o' w w3.
Proof.
  intros (E1 & E2 & E3 & E4 & E5 & E6) (F1 & F2 & F3 & F4 & F5 & F6). rewrite E4, lookup_insert_None in F3. destruct F3 as [F3 Hij].
  eexists. split.
  { apply (free_made i o (next w2) w2 (<[j := (1%nat, o')]> (objects w))); [|by rewrite lookup_insert_ne|done]. rewrite F4, E4. by apply insert_insert_ne. }
  split_and!; cbn; try congruence; try lia; try done.
  intros x Hx. apply F6. rewrite F4, E4. cbn in Hx. destruct (decide (x = j)) as [->|]; [by rewrite lookup_insert_eq|].
  rewrite lookup_insert_ne in Hx by done. rewrite lookup_insert_ne by done. destruct (decide (x = i)) as [->|]; [by rewrite lookup_insert_eq|].
  by rewrite lookup_insert_ne.
Qed.

Lemma made_lookup i o w w' : made i o w w' -> objects w' !! i = Some (1%nat, o).
Proof. intros (_ & _ & _ & -> & _). apply lookup_insert_eq. Qed.

Lemma made_assign i o o' w w' : made i o w w' -> exists w'', assign i o' w' = (Success (), w'') /\ made i o' w w''.
Proof.
  intros Hm. pose proof (made_lookup _ _ _ _ Hm) as Hl. destruct Hm as (E1 & E2 & E3 & E4 & E5 & E6). unfold assign. rewrite Hl.
  eexists. split; [done|]. split_and!; try done; cbn.
  - by rewrite E4, insert_insert_eq.
  - intros x Hx. apply E6. cbn in Hx. destruct (decide (x = i)) as [->|]; [by rewrite Hl|]. by rewrite lookup_insert_ne in Hx.
Qed.

Lemma made_made i j o o' w w1 w2 : made i o w w1 -> made j o' w1 w2 -> objects w2 !! i = Some (1%nat, o).
Proof.
  intros Hm (_ & _ & F3 & F4 & _). pose proof (made_lookup _ _ _ _ Hm) as Hl. rewrite F4, lookup_insert_ne; [done|].
  intros ->. congruence.
Qed.

Lemma generate_key_spec w : numbered w -> exists r w', generate_random_rsa_key_pair a w = (Success r, w') /\
  match r with None => same w w' | Some i => exists k, made i (Key k) w w' end.
Proof.
  intros Hw. unfold generate_random_rsa_key_pair. destruct (negb _); [by exists None, w|].
  pose proof (made_alloc KeyContext w Hw) as M1. destruct (made_free _ _ _ _ M1) as (w2 & E2 & S2).
  erewrite op_bind_success by reflexivity. fold (alloc KeyContext w). destruct (negb _).
  { erewrite op_bind_success by exact E2. by exists None, w2. }
  destruct (generated a) as [k|].
  - erewrite op_bind_success by reflexivity. fold (alloc (Key k) (alloc KeyContext w)).
    pose proof (made_alloc (Key k) (alloc KeyContext w) (numbered_alloc _ _ Hw)) as M3.
    destruct (made_free_below _ _ _ _ _ _ _ M1 M3) as (w4 & E4 & M4). erewrite op_bind_success by exact E4. exists (Some (next (alloc KeyContext w))), w4.
    split; [done | by exists k].
  - erewrite op_bind_success by exact E2. by exists None, w2.
Qed.

(** The certificate of the key [k]. *)
Definition certificate_for (now : Z) (k : pkey) : x509 :=
  sign_x509 k (set_pubkey k (set_names (str "zenpp.node")
    (set_validity now (now + 86400 * kCertificateValidityDays) (set_serial (serial a) blank)))).

Lemma generate_certificate_spec now i n k w : numbered w -> objects w !! i = Some (n, Key k) -> exists r w',
  generate_self_signed_certificate a now (Some i) w = (Success r, w') /\
  match r with None => same w w' | Some j => made j (Certificate (certificate_for now k)) w w' end.
Proof.
  intros Hw Hk. unfold generate_self_signed_certificate. destruct (negb _); [by exists None, w|].
  pose proof (made_alloc (Certificate blank) w Hw) as M1. pose proof (made_alloc Name _ (numbered_alloc (Certificate blank) w Hw)) as M2.
  erewrite op_bind_success by reflexivity. erewrite op_bind_success by reflexivity. cbv zeta.
  set (w1 := alloc (Certificate blank) w) in *. set (w2 := alloc Name w1) in *.
  match goal with |- context [assign _ (Certificate ?c)] => set (c0 := c) end.
  assert (A3 : exists w3, assign (next w) (Certificate c0) w2 = (Success (), w3) /\ exists w4, free (next w1) w3 = (Success (), w4) /\
    made (next w) (Certificate c0) w w4).
  { destruct (made_assign _ _ (Certificate c0) _ _ M1) as (w1' & Ea & Ma). unfold assign in Ea |- *.
    rewrite (made_lookup _ _ _ _ M1) in Ea. injection Ea as <-. rewrite (made_made _ _ _ _ _ _ _ M1 M2).
    eexists. split; [done|]. eexists. split.
    { apply (free_made (next w1) Name (next w2) _ (<[next w := (1%nat, Certificate c0)]> (objects w1))); cbn; [|rewrite lookup_insert_ne by lia|done].
      - by rewrite insert_insert_ne by lia.
      - apply (made_alloc Name w1 (numbered_alloc _ _ Hw)). }
    destruct Ma as (F1 & F2 & F3 & F4 & F5 & F6). split_and!; try done; cbn; [lia|].
    intros x Hx. apply F6 in Hx. cbn in Hx. cbn. lia. }
  destruct A3 as (w3 & E3 & w4 & E4 & M4).
  erewrite op_bind_success by exact E3. erewrite op_bind_success by exact E4.
  destruct (made_free _ _ _ _ M4) as (w5 & E5 & S5). destruct (negb (pubkey_set a)).
  { erewrite op_bind_success by exact E5. by exists None, w5. }
  assert (K4 : objects w4 !! i = Some (n, Key k)).
  { destruct M4 as (_ & _ & F3 & -> & _). rewrite lookup_insert_ne; [done|]. intros E. rewrite E in F3. congruence. }
  erewrite op_bind_success by (by apply (deref_key_at _ n)).
  destruct (made_assign _ _ (Certificate (set_pubkey k c0)) _ _ M4) as (w6 & E6 & M6). erewrite op_bind_success by exact E6.
  destruct (negb (signed a)).
  { destruct (made_free _ _ _ _ M6) as (w7 & E7 & S7). erewrite op_bind_success by exact E7. by exists None, w7. }
  destruct (made_assign _ _ (Certificate (sign_x509 k (set_pubkey k c0))) _ _ M6) as (w7 & E7 & M7).
  erewrite op_bind_success by exact E7. by exists (Some (next w)), w7.
Qed.

(** Worlds with the same objects. *)
Definition same_objects w w' : Prop := objects w' = objects w /\ open_files w' = open_files w /\ (next w <= next w')%nat.

#[global] Instance same_objects_preorder : PreOrder same_objects.
Proof. split; [by intros w|]. intros w1 w2 w3 (? & ? & ?) (? & ? & ?). unfold same_objects. split_and!; congruence || lia. Qed.

Lemma same_same_objects w w' : same w w' -> same_objects w w'.
Proof. by intros (_ & ? & ? & ?). Qed.

Lemma same_objects_numbered w w' : same_objects w w' -> numbered w -> numbered w'.
Proof. intros (E & _ & Hn) Hw i Hi. rewrite E in Hi. apply Hw in Hi. lia. Qed.

Lemma write_file_spec name text w : exists b w', write_file a name text w = (Success b, w') /\ same_objects w w' /\
  (b = true -> files w' = <[name := Regular text]> (files w)).
Proof.
  unfold write_file. destruct (negb _); [by exists false, w|]. destruct (write_fails a name) as [p|].
  - eexists false, _. split; [reflexivity|]. by split.
  - eexists true, _. split; [reflexivity|]. split; [done|]. intros _. cbn. by rewrite insert_insert_eq.
Qed.

Lemma store_x509_spec i n c w : objects w !! i = Some (n, Certificate c) -> exists b w',
  store_x509_certificate a (Some i) w = (Success b, w') /\ same_objects w w' /\
  (b = true -> files w' = <[kCertificateFileName := Regular (pem_x509 c)]> (files w)).
Proof.
  intros Hc. unfold store_x509_certificate. destruct (invalid_target a); [by exists false, w|].
  erewrite op_bind_success by (by eapply deref_x509_at). apply write_file_spec.
Qed.

Lemma store_key_spec password i n k w : objects w !! i = Some (n, Key k) -> exists b w',
  store_rsa_key_pair a (Some i) password w = (Success b, w') /\ same_objects w w' /\
  (b = true -> files w' = <[kPrivateKeyFileName := Regular (pem_key k password)]> (files w)).
Proof.
  intros Hk. unfold store_rsa_key_pair. destruct (invalid_target a); [by exists false, w|].
  erewrite op_bind_success by (by eapply deref_key_at). apply write_file_spec.
Qed.

(** Objects of worlds with the same objects. *)
Lemma made_same_objects i o w w' w'' : made i o w w' -> same_objects w' w'' -> exists w0, same_objects w w0 /\ files w0 = files w'' /\ made i o w0 w''.
Proof.
  intros (E1 & E2 & E3 & E4 & E5 & E6) (F1 & F2 & F3).
  exists (mk_world (files w'') (objects w) (next w) (open_files w)). split; [done|]. split; [done|]. split_and!; cbn; try congruence; try lia.
  by apply (same_objects_numbered w').
Qed.

(** What the new files hold. *)
Definition new_files (now : Z) (password : Bytes) (k : pkey) w w' : Prop :=
  certificate_valid now (certificate_for now k) k = true /\
  files w' = <[kPrivateKeyFileName := Regular (pem_key k password)]>
    (<[kCertificateFileName := Regular (pem_x509 (certificate_for now k))]> (files w)).

(** Both stores, one after the other. *)
Lemma store_both_spec now password i j n n' k w : objects w !! i = Some (n, Key k) ->
  objects w !! j = Some (n', Certificate (certificate_for now k)) -> exists b w',
  (if negb (certificate_valid now (certificate_for now k) k) then op_ret false
   else stored <~ store_x509_certificate a (Some j);; if negb stored then op_ret false else store_rsa_key_pair a (Some i) password) w
    = (Success b, w') /\ same_objects w w' /\ (b = true -> new_files now password k w w').
Proof.
  intros Hk Hc. destruct (certificate_valid _ _ _) eqn:Ev; cbn [negb]; [|by exists false, w].
  destruct (store_x509_spec j n' _ w Hc) as (b1 & w1 & E1 & S1 & F1). erewrite op_bind_success by exact E1.
  destruct b1; cbn [negb]; [|by exists false, w1]. pose proof S1 as (O1 & _). rewrite <- O1 in Hk.
  destruct (store_key_spec password i n k w1 Hk) as (b2 & w2 & E2 & S2 & F2). exists b2, w2. split_and!; [done | by etrans |].
  intros Hb. split; [done|]. by rewrite F2, F1.
Qed.

Lemma generate_tls_files_spec now password w : numbered w -> exists b w', generate_tls_files a now password w = (Success b, w') /\
  same_objects w w' /\ (b = true -> exists k, new_files now password k w w').
Proof.
  intros Hw. unfold generate_tls_files. destruct (generate_key_spec w Hw) as (r & w1 & E1 & M1). erewrite op_bind_success by exact E1.
  destruct r as [i|]; [|exists false, w1; split_and!; [done | by apply same_same_objects | done]]. destruct M1 as [k M1].
  pose proof (made_lookup _ _ _ _ M1) as K1. assert (N1 : numbered w1) by apply M1.
  destruct (generate_certificate_spec now i _ k w1 N1 K1) as (r & w2 & E2 & M2). erewrite op_bind_success by exact E2.
  destruct r as [j|].
  - pose proof (made_lookup _ _ _ _ M2) as C2. pose proof (made_made _ _ _ _ _ _ _ M1 M2) as K2.
    erewrite op_bind_success by (by apply (validate_at now j i 1 1 (certificate_for now k) k)).
    destruct (store_both_spec now password i j _ _ k w2 K2 C2) as (b & w3 & E3 & S3 & F3).
    erewrite op_bind_success by exact E3. destruct (made_same_objects _ _ _ _ _ M2 S3) as (w1' & S1' & Ef & M3).
    destruct (made_free _ _ _ _ M3) as (w4 & E4 & S4). erewrite op_bind_success by exact E4.
    assert (S14 : same_objects w1 w4) by (etrans; [exact S1' | by apply same_same_objects]).
    destruct (made_same_objects _ _ _ _ _ M1 S14) as (w0 & S0 & Ef0 & M0). destruct (made_free _ _ _ _ M0) as (w5 & E5 & S5).
    erewrite op_bind_success by exact E5. exists b, w5. split_and!; [done | etrans; [exact S0 | by apply same_same_objects] |].
    intros Hb. exists k. destruct (F3 Hb) as [Fv Ff]. split; [done|]. destruct S5 as (-> & _). rewrite Ef0. destruct S4 as (-> & _). rewrite Ef, Ff.
    destruct M2 as (-> & _). by destruct M1 as (-> & _).
  - destruct (made_same_objects _ _ _ _ _ M1 (same_same_objects _ _ M2)) as (w0 & S0 & _ & M0).
    destruct (made_free _ _ _ _ M0) as (w3 & E3 & S3). erewrite op_bind_success by exact E3.
    exists false, w3. split_and!; [done | etrans; [exact S0 | by apply same_same_objects] | done].
Qed.

Lemma remove_spec name w : exists r w', remove a name w = (r, w') /\ same_objects w w' /\
  (r = Success () \/ r = Failure (Thrown std_filesystem_error)).
Proof.
  unfold remove. destruct (files w !! name); [destruct (can_remove a name)|]; eexists _, _; (split; [reflexivity|]); split; auto; done.
Qed.

Lemma op_bind_failure {S A B} (f : op S A) (k : A -> op S B) s e s' : f s = (Failure e, s') -> op_bind f k s = (Failure e, s').
Proof. intros E. unfold op_bind. by rewrite E. Qed.

(** The whole check. *)
Lemma validate_tls_spec now password w : numbered w -> exists r w', validate_tls_requirements a now password w = (r, w') /\
  same_objects w w' /\ ((exists b, r = Success b) \/ r = Failure (Thrown std_filesystem_error)) /\
  (r = Success true -> (files_good now password w = true /\ files w' = files w) \/ exists k w0, new_files now password k w0 w').
Proof.
  intros Hw. unfold validate_tls_requirements. destruct (check_tls_files_spec now password w Hw) as (w1 & S1 & E1).
  erewrite op_bind_success by exact E1. pose proof (same_same_objects _ _ S1) as O1. destruct (files_good now password w) eqn:Eg.
  { exists (Success true), w1. split_and!; [done | done | by left; eexists |]. intros _. left. by destruct S1 as (-> & _). }
  destruct (negb _); [exists (Success false), w1; split_and!; [done | done | by left; eexists | done]|].
  destruct (remove_spec kCertificateFileName w1) as (r2 & w2 & E2 & O2 & [->| ->]).
  2:{ erewrite op_bind_failure by exact E2. eexists _, w2. split_and!; [done | by etrans | by right | done]. }
  erewrite op_bind_success by exact E2. destruct (remove_spec kPrivateKeyFileName w2) as (r3 & w3 & E3 & O3 & [->| ->]).
  2:{ erewrite op_bind_failure by exact E3. eexists _, w3. split_and!; [done | etrans; [exact O1 | by etrans] | by right | done]. }
  erewrite op_bind_success by exact E3. assert (O13 : same_objects w w3) by (etrans; [exact O1 | by etrans]).
  destruct (generate_tls_files_spec now password w3 (same_objects_numbered _ _ O13 Hw)) as (b & w4 & E4 & O4 & F4).
  exists (Success b), w4. split_and!; [done | by etrans | by left; eexists |]. intros [= ->]. right. destruct (F4 eq_refl) as [k Hk]. by exists k, w3.
Qed.

(** ** Contexts *)

Lemma free_context_made c n w m : certificate c = None -> private_key c = None -> objects w = <[n := (1%nat, Context_ c)]> m ->
  m !! n = None -> free_context n w = (Success (), set_objects m w).
Proof.
  intros E1 E2 E Hm. unfold free_context. rewrite E, lookup_insert_eq, E1, E2. by rewrite delete_insert_id.
Qed.

(** Nothing is left of a context that fails before it has its key and certificate. *)
Lemma give_up_spec fc n p q w w1 w2 w3 : certificate fc = None -> private_key fc = None -> made n (Context_ fc) w w1 ->
  match p with Some (i, c) => made i (Certificate c) w1 w2 | None => w2 = w1 end ->
  match q with Some (j, k) => made j (Key k) w2 w3 | None => w3 = w2 end ->
  exists w4, give_up_context n (fst <$> p) (fst <$> q) w3 = (Success None, w4) /\ same w w4.
Proof.
  intros E1 E2 M1 M2 M3. unfold give_up_context.
  assert (L : exists w4, (_ <~ free_opt (fst <$> p);; free_opt (fst <$> q)) w3 = (Success (), w4) /\ same w1 w4).
  { destruct p as [[i c]|], q as [[j k]|]; cbn [fmap option_fmap option_map fst free_opt] in *; subst.
    - destruct (made_free_below _ _ _ _ _ _ _ M2 M3) as (w4 & E4 & M4). erewrite op_bind_success by exact E4. by apply (made_free _ (Key k)).
    - destruct (made_free _ _ _ _ M2) as (w4 & E4 & S4). erewrite op_bind_success by exact E4. by exists w4.
    - erewrite op_bind_success by reflexivity. by apply (made_free _ (Key k)).
    - by exists w1. }
  destruct L as (w4 & E4 & S4). unfold op_bind in E4 |- *. destruct (free_opt (fst <$> p) w3) as [[[]| |] w5]; try done.
  rewrite E4. destruct S4 as (F1 & F2 & F3 & F4). destruct M1 as (G1 & G2 & G3 & G4 & G5 & _).
  rewrite (free_context_made fc n w4 (objects w)) by (congruence || done). eexists. split; [done|]. split_and!; cbn; congruence || lia.
Qed.

Lemma use_spec n i fc f r o w : objects w !! n = Some (1%nat, Context_ fc) -> objects w !! i = Some (r, o) -> i <> n ->
  use n i f w = (Success (), set_objects (<[i := (S r, o)]> (<[n := (1%nat, Context_ (f fc))]> (objects w))) w).
Proof. intros E1 E2 Hi. unfold use, retain. rewrite E1. by rewrite lookup_insert_ne, E2. Qed.

(** What a server context and its objects are, from number [n] on. *)
Definition server_context (n : nat) : tls_context := with_key (S (S n)) (with_certificate (S n) (fresh_context kServer)).
Definition server_objects (n : nat) (c : x509) (k : pkey) m : gmap nat (nat * object) :=
  <[n := (1%nat, Context_ (server_context n))]> (<[S n := (2%nat, Certificate c)]> (<[S (S n) := (2%nat, Key k)]> m)).

(** The certificate has been taken and the key has not. *)
Lemma give_up_half n c k w m : objects w = <[S n := (2%nat, Certificate c)]>
    (<[n := (1%nat, Context_ (with_certificate (S n) (fresh_context kServer)))]> (<[S (S n) := (1%nat, Key k)]> m)) ->
  m !! n = None -> m !! S n = None -> m !! S (S n) = None ->
  give_up_context n (Some (S n)) (Some (S (S n))) w = (Success None, set_objects m w).
Proof.
  intros E F0 F1 F2. unfold give_up_context. cbn [free_opt].
  erewrite op_bind_success.
  2:{ unfold free. rewrite E, lookup_insert_eq. unfold release. by rewrite lookup_insert_eq. }
  erewrite op_bind_success.
  2:{ unfold free, set_objects. cbn [objects]. rewrite !lookup_insert_ne, lookup_insert_eq by lia. unfold release.
      by rewrite !lookup_insert_ne, lookup_insert_eq by lia. }
  erewrite op_bind_success.
  2:{ unfold free_context, set_objects. cbn [objects]. rewrite lookup_delete_ne, !lookup_insert_ne, lookup_insert_eq by lia.
      cbn [certificate private_key with_certificate fresh_context]. unfold release.
      rewrite !lookup_delete_ne, lookup_insert_eq by lia. reflexivity. }
  unfold op_ret, set_objects. cbn. do 2 f_equal. heap_eq.
Qed.

Lemma server_context_spec now password w : numbered w -> context_made a = true ->
  if files_good now password w && certificate_used a && (key_used a && pair_matches password w) then
    exists c k, x509_of w = Some c /\ key_of password w = Some k /\
      generate_tls_context a now kServer password w =
        (Success (Some (next w)), mk_world (files w) (server_objects (next w) c k (objects w)) (S (S (S (next w)))) (open_files w))
  else exists w', generate_tls_context a now kServer password w = (Success None, w') /\ same w w'.
Proof.
  intros Hw Hm. unfold generate_tls_context, files_good, pair_matches. rewrite Hm. cbn [negb]. erewrite op_bind_success by reflexivity.
  fold (alloc (Context_ (fresh_context kServer)) w). set (w1 := alloc _ w). pose proof (made_alloc (Context_ (fresh_context kServer)) w Hw) as M1.
  pose proof (numbered_alloc (Context_ (fresh_context kServer)) w Hw) as N1. fold w1 in M1, N1.
  assert (F : forall i, (next w <= i)%nat -> objects w !! i = None) by (intros; by apply numbered_fresh).
  destruct (x509_of w) as [c|] eqn:Ec; erewrite op_bind_success by (rewrite load_x509_spec, (x509_of_files w w1), Ec by done; reflexivity);
    (destruct (key_of password w) as [k|] eqn:Ek;
      erewrite op_bind_success by (rewrite load_key_spec, (key_of_files _ w) by done; rewrite Ek; reflexivity)); cbn [andb].
  2-4: clear F.
  2: by apply (give_up_spec (fresh_context kServer) (next w) (Some (next w1, c)) None w w1 (alloc (Certificate c) w1)); try done; apply made_alloc.
  2: by apply (give_up_spec (fresh_context kServer) (next w) None (Some (next w1, k)) w w1 w1); try done; apply made_alloc.
  2: by apply (give_up_spec (fresh_context kServer) (next w) None None w w1 w1 w1).
  pose proof (made_alloc (Certificate c) w1 N1) as M2. pose proof (numbered_alloc (Certificate c) w1 N1) as N2. set (w2 := alloc (Certificate c) w1) in *.
  pose proof (made_alloc (Key k) w2 N2) as M3. set (w3 := alloc (Key k) w2) in *.
  pose proof (made_made _ _ _ _ _ _ _ M2 M3) as L2. pose proof (made_lookup _ _ _ _ M3) as L3.
  assert (L1 : objects w3 !! next w = Some (1%nat, Context_ (fresh_context kServer))).
  { cbn. by rewrite !lookup_insert_ne, lookup_insert_eq by lia. }
  erewrite op_bind_success by (by apply (validate_at now _ _ 1 1 c k)).
  destruct (certificate_valid now c k); cbn [negb andb].
  2: by apply (give_up_spec (fresh_context kServer) (next w) (Some (next w1, c)) (Some (next w2, k)) w w1 w2 w3).
  destruct (certificate_used a); cbn [negb andb].
  2: by apply (give_up_spec (fresh_context kServer) (next w) (Some (next w1, c)) (Some (next w2, k)) w w1 w2 w3).
  erewrite op_bind_success by (apply (use_spec _ _ _ _ _ _ _ L1 L2); cbn; lia).
  erewrite op_bind_success.
  2:{ unfold key_accepted. erewrite op_bind_success by (apply (deref_x509_at _ 2 c); cbn; by rewrite lookup_insert_eq).
      erewrite op_bind_success by (apply (deref_key_at _ 1 k); cbn; by rewrite !lookup_insert_ne, lookup_insert_eq by lia). reflexivity. }
  destruct (key_used a && matches c k); cbn [negb].
  - exists c, k. split_and!; [done | done |]. erewrite op_bind_success.
    2:{ apply (use_spec (next w) (next w2) (with_certificate (next w1) (fresh_context kServer)) _ 1 (Key k)); cbn; [| |lia].
        - by rewrite lookup_insert_ne, lookup_insert_eq by lia.
        - by rewrite !lookup_insert_ne, lookup_insert_eq by lia. }
    unfold op_ret, set_objects, server_objects, server_context. cbn. do 2 f_equal. heap_eq.
  - eexists. split; [apply (give_up_half (next w) c k _ (objects w)); [cbn; heap_eq | apply F; lia..]|]. split_and!; try done. cbn. lia.
Qed.

(** The directory is there and its files can be read, and OpenSSL makes a context, takes the certificate and takes a key that
    belongs to it. *)
Definition usable : Prop := directory_exists a = true /\ directory_is a = true /\ can_read a kCertificateFileName = true /\
  can_read a kPrivateKeyFileName = true /\ context_made a = true /\ certificate_used a = true /\ key_used a = true.

(** New files are read back. *)
Lemma new_files_read `{!TlsLaws} now password k w w' : usable -> callback_password password = password ->
  new_files now password k w w' -> x509_of w' = Some (certificate_for now k) /\ key_of password w' = Some k.
Proof.
  intros (U1 & U2 & U3 & U4 & _) Hp (Hv & Hf). unfold x509_of, key_of, loaded. rewrite U1, U2, U3, U4, Hf. cbn [negb orb].
  rewrite lookup_insert_ne, !lookup_insert_eq by done. rewrite x509_roundtrip. split; [done|].
  case_bool_decide as E; cbn [negb]; [subst password | rewrite Hp]; by rewrite key_roundtrip.
Qed.

Lemma certificate_valid_later now now' c k : certificate_valid now c k = true -> now <= now' ->
  match not_after c with Some t => now' <= t | None => True end -> certificate_valid now' c k = true.
Proof.
  unfold certificate_valid. intros Hv Hn Ht. destruct ((_ =? 1) || _) eqn:E; [done|]. destruct (negb (verify c k)); [done|].
  apply orb_false_iff in E as [E1 E2]. replace (_ || _) with false; [done|]. symmetry. apply orb_false_iff. unfold cmp_time in *.
  split; [destruct (not_before c) as [t|] | destruct (not_after c) as [t|]]; try done; case_cmps; try done; try lia;
    revert E1 E2; case_cmps; try done; lia.
Qed.

End SecureFacts.

(** C14: when the check of the TLS files says yes, whether they were there or are new, the
    directory holds a certificate and a key, and the certificate is signed with that key.  The password must be one that OpenSSL
    reads back (no null character, and at most 1024 characters), the files must be readable, and OpenSSL must make a
    context, take the certificate, and take a key when it belongs to the certificate.  Then, from the check on until the
    certificate expires, a server context is made from the files, of TLS 1.3 at
    least, with that certificate and that key, if the certificate has the public key of that key, which it has when the files are new.
    A signature does not imply that: files that were there, with a certificate that the key has issued for another one, pass the
    check, and no context is made from them. *)
Theorem tls_ready `{TlsLaws} (a : answers) (now now' : Z) (password : Bytes) (w w' : world) :
  numbered w -> usable a -> callback_password password = password ->
  validate_tls_requirements a now password w = (Success true, w') -> now <= now' ->
  exists c k, x509_of a w' = Some c /\ key_of a password w' = Some k /\ verify c k = true /\
    (files_good a now password w = true /\ files w' = files w \/ matches c k = true) /\
    (match not_after c with Some t => now' <= t | None => True end ->
     if matches c k then
       exists ctx w'' t i j, generate_tls_context a now' kServer password w' = (Success (Some ctx), w'') /\
         objects w'' !! ctx = Some (1%nat, Context_ t) /\ min_tls13 t = true /\ certificate t = Some i /\ private_key t = Some j /\
         objects w'' !! i = Some (2%nat, Certificate c) /\ objects w'' !! j = Some (2%nat, Key k)
     else (generate_tls_context a now' kServer password w').1 = Success None).
Proof.
  intros Hw Hu Hp Hv Hn. destruct (validate_tls_spec a now password w Hw) as (r & w0 & E & So & _ & Hg).
  rewrite Hv in E. injection E as <- <-. assert (G : exists c k, x509_of a w' = Some c /\ key_of a password w' = Some k /\ certificate_valid now c k = true /\
    (files_good a now password w = true /\ files w' = files w \/ matches c k = true)).
  { destruct (Hg eq_refl) as [[G Ef]|(k & w0 & Hk)].
    - pose proof G as Hgood. unfold files_good in G. rewrite (x509_of_files a w w' Ef), (key_of_files a password w w' Ef).
      destruct (key_of a password w) as [k|], (x509_of a w) as [c|]; try done. exists c, k. split_and!; try done. by left.
    - destruct (new_files_read a now password k w0 w' Hu Hp Hk) as [E1 E2]. exists (certificate_for a now k), k. split_and!; try done; [apply Hk|].
      right. apply pubkey_matches. }
  destruct G as (c & k & E1 & E2 & E3 & E4). exists c, k. split_and!; try done.
  { unfold certificate_valid in E3. destruct (_ || _); [done|]. by destruct (verify c k). }
  intros Ht. pose proof (same_objects_numbered _ _ So Hw) as Hw'. destruct Hu as (_ & _ & _ & _ & U1 & U2 & U3).
  pose proof (server_context_spec a now' password w' Hw' U1) as S. unfold files_good, pair_matches in S.
  rewrite E1, E2, (certificate_valid_later now now'), U2, U3 in S by done. cbn [andb] in S.
  destruct (matches c k); [|by destruct S as (w'' & -> & _)]. destruct S as (c' & k' & [= <-] & [= <-] & S).
  exists (next w'). eexists _, _, _, _. split; [exact S|]. cbn [objects]. unfold server_objects.
  split; [by rewrite lookup_insert_eq|]. split_and!; try done; rewrite !lookup_insert; repeat case_decide; done || lia.
Qed.

(** C15: whatever fails, the check of the TLS files frees each object that it makes, once,
    and closes each file that it opens; and so does the making of a server context that
    fails.  One that succeeds keeps a reference to the certificate and one to the key that
    nobody frees: they stay when the context is freed. *)
Theorem tls_accounting `{Tls} (a : answers) (now : Z) (password : Bytes) (w : world) : numbered w ->
  (exists r w', validate_tls_requirements a now password w = (r, w') /\ objects w' = objects w /\ open_files w' = open_files w /\
     ((exists b, r = Success b) \/ r = Failure (Thrown std_filesystem_error))) /\
  exists r w', generate_tls_context a now kServer password w = (Success r, w') /\ open_files w' = open_files w /\
    (r = None <-> negb (context_made a && (files_good a now password w && certificate_used a && (key_used a && pair_matches a password w))) = true) /\
    match r with
    | None => objects w' = objects w
    | Some ctx => exists w'' c k, free_context ctx w' = (Success (), w'') /\
        objects w'' = <[S ctx := (1%nat, Certificate c)]> (<[S (S ctx) := (1%nat, Key k)]> (objects w)) /\
        size (objects w'') = S (S (size (objects w)))
    end.
Proof.
  intros Hw. split.
  { destruct (validate_tls_spec a now password w Hw) as (r & w' & E & (So & Sf & _) & Hr & _). by exists r, w'. }
  destruct (context_made a) eqn:Hm; cbn [andb].
  2:{ exists None, w. unfold generate_tls_context. by rewrite Hm. }
  pose proof (server_context_spec a now password w Hw Hm) as S. destruct (_ && _ && _); cbn [negb].
  2:{ destruct S as (w' & E & So). exists None, w'. split_and!; try done; apply So. }
  assert (F : forall i, (next w <= i)%nat -> objects w !! i = None) by (intros; by apply numbered_fresh).
  destruct S as (c & k & _ & _ & E). eexists (Some (next w)), _. split_and!; [exact E | done | done |]. eexists _, c, k.
  assert (Ef : free_context (next w) (mk_world (files w) (server_objects (next w) c k (objects w)) (S (S (S (next w)))) (open_files w)) =
    (Success (), mk_world (files w) (<[S (next w) := (1%nat, Certificate c)]> (<[S (S (next w)) := (1%nat, Key k)]> (objects w))) (S (S (S (next w)))) (open_files w))).
  { unfold free_context. cbn [objects]. unfold server_objects at 1. rewrite lookup_insert_eq. cbn [certificate private_key server_context with_key with_certificate].
    unfold set_objects, release, server_objects. cbn [objects files next open_files].
    rewrite delete_insert_id by (rewrite !lookup_insert_ne by lia; apply F; lia). rewrite lookup_insert_eq, lookup_insert_ne, lookup_insert_ne, lookup_insert_eq by lia.
    do 2 f_equal. heap_eq. }
  split; [exact Ef|]. cbn [objects]. split; [done|].
  rewrite !map_size_insert_None; [done | apply F; lia | rewrite lookup_insert_ne by lia; apply F; lia].
Qed.

(** ** A concrete OpenSSL *)

(** Keys are numbers; a certificate has its times, its key and the key that signed it;
    a text has its password in front. *)
Definition model_tls : Tls := {|
  pkey := Z;
  x509 := (Z * Z * Z * Z)%type;
  blank := (0, 0, 0, 0);
  set_serial n c := c;
  set_validity b e c := let '(_, _, p, s) := c in (b, e, p, s);
  set_names n c := c;
  set_pubkey k c := let '(b, e, _, s) := c in (b, e, k, s);
  sign_x509 k c := let '(b, e, p, _) := c in (b, e, p, k);
  not_before c := let '(b, _, _, _) := c in Some b;
  not_after c := let '(_, e, _, _) := c in Some e;
  verify c k := let '(_, _, _, s) := c in s =? k;
  matches c k := let '(_, _, p, _) := c in p =? k;
  pem_key k password := k :: password;
  pem_x509 c := let '(b, e, p, s) := c in [b; e; p; s];
  read_key text password := match text with k :: p => if bool_decide (p = password) then Some k else None | [] => None end;
  read_x509 text := match text with [b; e; p; s] => Some (b, e, p, s) | _ => None end;
|}.

Lemma model_tls_laws : @TlsLaws model_tls.
Proof.
  split; cbn.
  - by intros b e [[[]]] k.
  - intros k [[[]]]. apply Z.eqb_refl.
  - intros k [[[]]]. apply Z.eqb_refl.
  - intros k password. by rewrite bool_decide_true.
  - by intros [[[]]].
Qed.

Definition sample_answers : @answers model_tls := {|
  directory_empty := false; directory_relative := false; directory_exists := true; directory_is := true;
  can_read _ := true; can_write _ := true; write_fails _ := None; can_remove _ := true;
  key_context_made := true; bits_set := true; generated := Some (7 : @pkey model_tls); x509_made := true; serial := 5; pubkey_set := true; signed := true;
  context_made := true; certificate_used := true; key_used := true; prompted := []; confirmed := true;
|}.
Definition sample_world : @world model_tls := mk_world ∅ ∅ 0 0.

(** The files of a key 7, and of a certificate for the key 8 that it has issued. *)
Definition issued_world : @world model_tls :=
  mk_world {[ kCertificateFileName := Regular [0; 1000; 8; 7]; kPrivateKeyFileName := Regular (7 :: str "secret") ]} ∅ 0 0.

(** A directory without files, and a password; and a certificate that passes the check and makes no context. *)
Lemma tls_ready_witness : (exists w', @validate_tls_requirements model_tls sample_answers 100 (str "secret") sample_world = (Success true, w') /\
  exists ctx w'', @generate_tls_context model_tls sample_answers 200 kServer (str "secret") w' = (Success (Some ctx), w'')) /\
  exists w', @validate_tls_requirements model_tls sample_answers 100 (str "secret") issued_world = (Success true, w') /\
  (@generate_tls_context model_tls sample_answers 200 kServer (str "secret") w').1 = Success None.
Proof.
  assert (U : @usable model_tls sample_answers) by (split_and!; reflexivity). split.
  - assert (E : exists w', @validate_tls_requirements model_tls sample_answers 100 (str "secret") sample_world = (Success true, w')).
    { eexists. vm_compute. reflexivity. }
    destruct E as [w' E]. exists w'. split; [exact E|].
    destruct (@tls_ready model_tls model_tls_laws sample_answers 100 200 (str "secret") sample_world w') as (c & k & E1 & E2 & E3 & _ & E4);
      [by intros i [x Hi] | exact U | reflexivity | exact E | lia |].
    assert (Ew : w' = (@validate_tls_requirements model_tls sample_answers 100 (str "secret") sample_world).2) by (by rewrite E).
    assert (Ec : c = (100, 315360100, 7, 7)) by (revert E1; rewrite Ew; vm_compute; by intros [= <-]).
    assert (Ek : k = 7) by (revert E2; rewrite Ew; vm_compute; by intros [= <-]). subst c k.
    destruct (E4 ltac:(cbn; lia)) as (ctx & w'' & t & i & j & E5 & _). by exists ctx, w''.
  - assert (E : exists w', @validate_tls_requirements model_tls sample_answers 100 (str "secret") issued_world = (Success true, w')).
    { eexists. vm_compute. reflexivity. }
    destruct E as [w' E]. exists w'. split; [exact E|].
    destruct (@tls_ready model_tls model_tls_laws sample_answers 100 200 (str "secret") issued_world w') as (c & k & E1 & E2 & E3 & _ & E4);
      [by intros i [x Hi] | exact U | reflexivity | exact E | lia |].
    assert (Ew : w' = (@validate_tls_requirements model_tls sample_answers 100 (str "secret") issued_world).2) by (by rewrite E).
    assert (Ec : c = (0, 1000, 8, 7)) by (revert E1; rewrite Ew; vm_compute; by intros [= <-]).
    assert (Ek : k = 7) by (revert E2; rewrite Ew; vm_compute; by intros [= <-]). subst c k.
    exact (E4 ltac:(cbn; lia)).
Defined.

Lemma tls_accounting_witness : numbered (H := model_tls) sample_world /\
  objects ((@validate_tls_requirements model_tls sample_answers 100 (str "secret") sample_world).2) = ∅.
Proof.
  assert (N : numbered (H := model_tls) sample_world) by (by intros i [x Hi]).
  split; [exact N|].
  destruct (@tls_accounting model_tls sample_answers 100 (str "secret") sample_world N) as [(r & w' & E & So & _) _]. rewrite E. exact So.
Defined.

(** A password of two parts with a null character between them is written as it is, and
    read up to the character: the check says yes, and the key cannot be read. *)
Lemma tls_password_cut : exists w', @validate_tls_requirements model_tls sample_answers 100 [65; 0; 66] sample_world = (Success true, w') /\
  (@generate_tls_context model_tls sample_answers 100 kServer [65; 0; 66] w').1 = Success None.
Proof. eexists. split; [vm_compute; reflexivity | by vm_compute]. Qed.

End SecureFacts.
