(* ===== verification/CommandLine.v ===== *)
(** * The command line of the node

    Models of [parse_node_command_line], [add_logging_options] and the validators of
    [src/cmd/common.cpp] and [src/cmd/common/].  What the user gives is a record of texts;
    CLI11 converts numbers, which is an argument, and applies the validators to what is given,
    not to defaults.  A validator that is attached with [check] does not change the
    value. *)

From S2P Require Import Prelude Text Boost Protocol Misc Addresses NatOption Chain Database Environment.
#[local] Open Scope Z_scope.

Module CommandLine.

(** ** Validators *)

(** [SizeValidator]; the limits are texts too. *)
Definition SizeValidator (min : Bytes) (max : option Bytes) (value : Bytes) : bool :=
  match parse_human_bytes value with
  | Success parsed_size =>
      match parse_human_bytes min, match max with Some max => parse_human_bytes max | None => Success (2 ^ 64 - 1) end with
      | Success min_size, Success max_size => negb ((parsed_size <? min_size) || (max_size <? parsed_size))
      | _, _ => false
      end
  | _ => false
  end.

(** Whether the value is accepted, and the value, which it may rewrite. *)
Definition IPEndPointValidator `{Boost} (allow_empty : bool) (default_port : Z) (value : Bytes) : bool * Bytes :=
  if bool_decide (value = []) && allow_empty then (true, value)
  else
    match IPEndpoint.from_string value with
    | Success e =>
        (true, IPEndpoint.to_string (IPEndpoint.mk (IPEndpoint.address_ e)
          (if IPEndpoint.port_ e =? 0 then default_port else IPEndpoint.port_ e)))
    | _ => (false, value)
    end.

(** ** Log levels *)

Inductive Level := kNone | kCritical | kError | kWarning | kInfo | kDebug | kTrace | kTrace1 | kTrace2 | kTrace3.

Definition levels : list Level := [kNone; kCritical; kError; kWarning; kInfo; kDebug; kTrace; kTrace1; kTrace2; kTrace3].

(** [magic_enum::enum_name] *)
Definition level_name (l : Level) : Bytes :=
  match l with
  | kNone => str "kNone" | kCritical => str "kCritical" | kError => str "kError" | kWarning => str "kWarning" | kInfo => str "kInfo"
  | kDebug => str "kDebug" | kTrace => str "kTrace" | kTrace1 => str "kTrace1" | kTrace2 => str "kTrace2" | kTrace3 => str "kTrace3"
  end.
Definition level_label (l : Level) : Bytes := tolower <$> drop 1 (level_name l).

(** A label has the value of its enumerator. *)
Definition level_mapping : list (Bytes * Z) := imap (λ i l, (level_label l, Z.of_nat i)) levels.

(** ** Options *)

(** What is given, option by option. *)
Record Arguments := {
  arg_datadir : option Bytes;
  arg_chain : option Bytes;
  arg_exclusive : bool;
  arg_readahead : bool;
  arg_writemap : bool;
  arg_growthsize : option Bytes;
  arg_pagesize : option Bytes;
  arg_maxsize : option Bytes;
  arg_buffersize : option Bytes;
  arg_batchsize : option Bytes;
  arg_throttle : option Bytes;
  arg_loginterval : option Bytes;
  arg_fakepow : bool;
  arg_nochecksums : bool;
  arg_concurrency : option Bytes;
  arg_localendpoint : option Bytes;
  arg_nat : option Bytes;
  arg_notls : bool;
  arg_pkpwd : option Bytes;
  arg_ipv4only : bool;
  arg_maxactiveconnections : option Bytes;
  arg_minoutgoingconnections : option Bytes;
  arg_maxconnectionsperip : option Bytes;
  arg_handshaketimeout : option Bytes;
  arg_inboundtimeout : option Bytes;
  arg_idletimeout : option Bytes;
  arg_pinginterval : option Bytes;
  arg_pingtimeout : option Bytes;
  arg_connect : list Bytes;
  arg_connecttimeout : option Bytes;
  arg_forcednsseed : bool;
  arg_verbosity : option Bytes;
}.

(** [AppSettings], [NetworkSettings] and the level of [log::Settings]. *)
Record AppSettings := {
  asio_concurrency : Z;
  data_directory : Bytes;
  chaindata_env_config : EnvConfig.t;
  network_id : Z;
  batch_size : Z;
  etl_buffer_size : Z;
  fake_pow : bool;
  no_zk_checksums : bool;
  sync_loop_throttle_seconds : Z;
  sync_loop_log_interval_seconds : Z;
  nat_ : Nat.Option_;
  local_endpoint : Bytes;
  ipv4_only : bool;
  max_active_connections : Z;
  max_active_connections_per_ip : Z;
  min_outgoing_connections : Z;
  protocol_handshake_timeout_seconds : Z;
  inbound_timeout_seconds : Z;
  idle_timeout_seconds : Z;
  use_tls : bool;
  tls_password : Bytes;
  connect_nodes : list Bytes;
  force_dns_seeding : bool;
  connect_timeout_seconds : Z;
  ping_interval_seconds : Z;
  ping_timeout_milliseconds : Z;
  log_verbosity : Z;
}.

Definition kMdbxMaxPages : Z := 0x80000000.

Section Parse.
Context `{Boost}.
(** CLI11's conversion of a text to an unsigned number of [w] bits; the number of
    processors; the default directory; and the making and deployment of the data
    directory. *)
Context (to_number : Z -> Bytes -> option Z) (available_hw_concurrency : Z) (default_path : Bytes) (deploy : Bytes -> outcome unit).

Definition rejected {A} : outcome A := Failure (Thrown CLI_ParseError).

(** [check(CLI::Range(low, high))] on a number of [w] bits. *)
Definition ranged (w low high : Z) (default_ : Z) (given : option Bytes) : outcome Z :=
  match given with
  | None => Success default_
  | Some text =>
      match to_number w text with
      | Some v => if (low <=? v) && (v <=? high) then Success v else rejected
      | None => rejected
      end
  end.

(** A size, which is still a text. *)
Definition sized (min : Bytes) (max : option Bytes) (default_ : Z) (given : option Bytes) : outcome Bytes :=
  match given with
  | None => to_human_bytes_binary default_
  | Some text => if SizeValidator min max text then Success text else rejected
  end.

(** [check] of a validator that may rewrite. *)
Definition checked (validator : Bytes -> bool * Bytes) (value : Bytes) : outcome Bytes :=
  if (validator value).1 then Success value else rejected.

(** [transform(CLI::Transformer(mapping, CLI::ignore_case))] *)
Definition transformed (mapping : list (Bytes * Z)) (w : Z) (default_ : Z) (given : option Bytes) : outcome Z :=
  match given with
  | None => Success default_
  | Some text =>
      match List.find (λ p, bool_decide (tolower <$> p.1 = tolower <$> text)) mapping with
      | Some p => Success p.2
      | None => match to_number w text with Some v => Success v | None => rejected end
      end
  end.

(** [outcome::result::value] throws when there is none. *)
Definition value_of (r : outcome Z) : outcome Z := match r with Failure _ => Failure (Thrown std_logic_error) | r => r end.

Definition default_env : EnvConfig.t := EnvConfig.make [].

(** The sizes that are given as texts, after [cli.parse]. *)
Definition database_sizes (page max growth : Bytes) : outcome (Z * Z * Z) :=
  let? page_size := value_of (parse_human_bytes page) in
  if negb (Z.land page_size (wrap 64 (page_size - 1)) =? 0) then Failure (Thrown std_invalid_argument)
  else
    let mdbx_max_size_hard_limit := wrap 64 (page_size * kMdbxMaxPages) in
    let? max_size := value_of (parse_human_bytes max) in
    if mdbx_max_size_hard_limit <? max_size then Failure (Thrown std_invalid_argument)
    else
      let? growth_size := value_of (parse_human_bytes growth) in
      if mdbx_max_size_hard_limit / 2 <? growth_size then Failure (Thrown std_invalid_argument)
      else Success (page_size, max_size, growth_size).

Definition parse_node_command_line (args : Arguments) : outcome AppSettings :=
  let? network_id := transformed ((λ p : Bytes * ChainConfig.t, (p.1, ChainConfig.identifier_ p.2)) <$> kKnownChainConfigs) 32
    (ChainConfig.identifier_ kMainNetConfig) (arg_chain args) in
  let? growth := sized (str "64MiB") None (EnvConfig.growth_size default_env) (arg_growthsize args) in
  let? page := sized (str "256B") (Some (str "65KiB")) (EnvConfig.page_size default_env) (arg_pagesize args) in
  let? max := sized (str "32MiB") (Some (str "128TiB")) (EnvConfig.max_size default_env) (arg_maxsize args) in
  let? buffer := sized (str "64MiB") (Some (str "1GiB")) (256 * MiB) (arg_buffersize args) in
  let? batch := sized (str "64MiB") (Some (str "16GiB")) (512 * MiB) (arg_batchsize args) in
  let? throttle := ranged 32 1 7200 0 (arg_throttle args) in
  let? log_interval := ranged 32 10 600 30 (arg_loginterval args) in
  let? concurrency := ranged 64 1 available_hw_concurrency (Z.max (available_hw_concurrency / 2) 2) (arg_concurrency args) in
  let? endpoint := match arg_localendpoint args with
                   | None => Success (str "0.0.0.0:" ++ decimal (ChainConfig.default_port_ kMainNetConfig))
                   | Some text => checked (IPEndPointValidator true 0) text
                   end in
  let? nat := match arg_nat args with
              | None => Success Nat.default_option
              | Some text =>
                  let? text := checked Nat.NatOptionValidator text in
                  let (ok, o) := Nat.lexical_cast text Nat.default_option in
                  if ok then Success o else rejected
              end in
  let? password := match arg_pkpwd args with
                   | None => Success []
                   | Some text => if arg_notls args then rejected else Success text
                   end in
  let? max_active := ranged 32 16 128 128 (arg_maxactiveconnections args) in
  let? min_outgoing := ranged 32 0 128 32 (arg_minoutgoingconnections args) in
  let? per_ip := ranged 32 1 16 1 (arg_maxconnectionsperip args) in
  let? handshake := ranged 32 5 30 10 (arg_handshaketimeout args) in
  let? inbound := ranged 32 5 30 10 (arg_inboundtimeout args) in
  let? idle := ranged 32 30 3600 300 (arg_idletimeout args) in
  let? ping_interval := ranged 32 30 3600 120 (arg_pinginterval args) in
  let? ping_timeout := ranged 32 100 5000 500 (arg_pingtimeout args) in
  let? connect := if forallb (λ text, (IPEndPointValidator true (ChainConfig.default_port_ kMainNetConfig) text).1) (arg_connect args)
                  then Success (arg_connect args) else rejected in
  let? connect_timeout := ranged 32 1 5 2 (arg_connecttimeout args) in
  let? verbosity := transformed level_mapping 32 4 (arg_verbosity args) in
  let? sizes := database_sizes page max growth in
  let '(page_size, max_size, growth_size) := sizes in
  if max_active <? min_outgoing then Failure (Thrown std_invalid_argument)
  else
    let directory := default default_path (arg_datadir args) in
    let? _ := deploy directory in
    let? batch_size := value_of (parse_human_bytes batch) in
    let? etl_buffer_size := value_of (parse_human_bytes buffer) in
    Success {|
      asio_concurrency := concurrency;
      data_directory := directory;
      chaindata_env_config := EnvConfig.mk [] false false (arg_exclusive args) false false (arg_readahead args) (arg_writemap args)
        page_size max_size growth_size (EnvConfig.max_tables default_env) (EnvConfig.max_readers default_env);
      network_id := network_id;
      batch_size := batch_size;
      etl_buffer_size := etl_buffer_size;
      fake_pow := arg_fakepow args;
      no_zk_checksums := arg_nochecksums args;
      sync_loop_throttle_seconds := throttle;
      sync_loop_log_interval_seconds := log_interval;
      nat_ := nat;
      local_endpoint := endpoint;
      ipv4_only := arg_ipv4only args;
      max_active_connections := max_active;
      max_active_connections_per_ip := per_ip;
      min_outgoing_connections := min_outgoing;
      protocol_handshake_timeout_seconds := handshake;
      inbound_timeout_seconds := inbound;
      idle_timeout_seconds := idle;
      use_tls := negb (arg_notls args);
      tls_password := password;
      connect_nodes := connect;
      force_dns_seeding := arg_forcednsseed args;
      connect_timeout_seconds := connect_timeout;
      ping_interval_seconds := ping_interval;
      ping_timeout_milliseconds := ping_timeout;
      log_verbosity := verbosity;
    |}.

End Parse.
End CommandLine.
