(* ===== verification/CommandLineFacts.v ===== *)
(** * Properties of the command line

    Settings that come from the command line are within the limits that the other
    components rely on. *)

From S2P Require Import Prelude Text Boost Misc Addresses NatOption Chain Database Environment CommandLine.
#[local] Open Scope Z_scope.

Module CommandLineFacts.
Import CommandLine.

Lemma bind_success {A B} (r : outcome A) (k : A -> outcome B) b : outcome_bind r k = Success b -> exists a, r = Success a /\ k a = Success b.
Proof. destruct r; cbn; try done. eauto. Qed.

(** ** Powers of two *)

(** [x & (x - 1)] *)
Lemma land_pred_power x : 0 < x -> Z.land x (x - 1) = 0 -> exists k, 0 <= k /\ x = 2 ^ k.
Proof.
  intros Hx Hl. exists (Z.log2 x). split; [apply Z.log2_nonneg|]. pose proof (Z.log2_spec x Hx) as [L1 L2].
  destruct (Z.eq_dec x (2 ^ Z.log2 x)) as [|Hne]; [done|]. exfalso.
  assert (T : Z.testbit (Z.land x (x - 1)) (Z.log2 x) = true); [|by rewrite Hl, Z.bits_0 in T].
  rewrite Z.land_spec, Z.bit_log2 by done.
  assert (E : Z.log2 (x - 1) = Z.log2 x) by (apply Z.log2_unique; [apply Z.log2_nonneg | rewrite <- Z.add_1_r in *; lia]).
  rewrite <- E at 1. rewrite Z.bit_log2; [done|]. pose proof (Z.pow_pos_nonneg 2 (Z.log2 x)). pose proof (Z.log2_nonneg x). lia.
Qed.

Lemma power_between k : 256 <= 2 ^ k <= 66560 -> 8 <= k <= 16.
Proof.
  intros [Hl Hu]. split.
  - destruct (Z.le_gt_cases 8 k) as [|Hk]; [done|]. destruct (Z.lt_ge_cases k 0) as [Hn|Hn]; [by rewrite Z.pow_neg_r in Hl|].
    pose proof (Z.pow_le_mono_r 2 k 7). lia.
  - destruct (Z.le_gt_cases k 16) as [|Hk]; [done|]. pose proof (Z.pow_le_mono_r 2 17 k). lia.
Qed.

(** ** Options *)

(** A number within its limits, where the default is. *)
Lemma ranged_spec to_number w low high d given v : ranged to_number w low high d given = Success v -> low <= d <= high -> low <= v <= high.
Proof.
  unfold ranged. destruct given as [text|]; [|by intros [= <-]]. destruct (to_number w text) as [x|]; [|done].
  destruct (_ && _) eqn:E; [|done]. intros [= <-] _. prop_bools. lia.
Qed.

(** A size that is within its limits when it is read. *)
Lemma sized_spec min max d given lo hi text v : sized min max d given = Success text ->
  parse_human_bytes min = Success lo -> match max with Some max => parse_human_bytes max | None => Success (2 ^ 64 - 1) end = Success hi ->
  lo <= d <= hi -> outcome_bind (to_human_bytes_binary d) parse_human_bytes = Success d ->
  value_of (parse_human_bytes text) = Success v -> lo <= v <= hi.
Proof.
  intros Hs Hlo Hhi Hd Hr Hv. unfold sized in Hs. destruct given as [given|].
  - unfold SizeValidator in Hs. rewrite Hlo, Hhi in Hs. destruct (parse_human_bytes given) as [x| |] eqn:E; try done.
    destruct (negb _) eqn:B; [|done]. injection Hs as <-. rewrite E in Hv. injection Hv as <-. prop_bools. lia.
  - rewrite Hs in Hr. cbn in Hr. rewrite Hr in Hv. by injection Hv as <-.
Qed.

(** The sizes of the database. *)
Lemma database_sizes_spec page max growth p m g : database_sizes page max growth = Success (p, m, g) ->
  value_of (parse_human_bytes page) = Success p /\ value_of (parse_human_bytes max) = Success m /\ value_of (parse_human_bytes growth) = Success g /\
  (256 <= p <= 66560 -> (exists k, 8 <= k <= 16 /\ p = 2 ^ k) /\ m <= p * 2 ^ 31 /\ g <= p * 2 ^ 30).
Proof.
  unfold database_sizes. intros (p' & -> & H)%bind_success. destruct (negb _) eqn:B; [done|].
  apply bind_success in H as (m' & -> & H). destruct (Z.ltb_spec (wrap 64 (p' * kMdbxMaxPages)) m') as [|Hm]; [done|].
  apply bind_success in H as (g' & -> & H). destruct (Z.ltb_spec (wrap 64 (p' * kMdbxMaxPages) / 2) g') as [|Hg]; [done|].
  injection H as <- <- <-. split_and!; try done. intros Hp. prop_bools.
  unfold wrap in *. rewrite (Z.mod_small (p' - 1)) in B by lia. unfold kMdbxMaxPages in *. rewrite Z.mod_small in Hm, Hg by lia.
  destruct (land_pred_power p') as (k & _ & Hk); [lia | done |]. split_and!; [|lia|].
  - exists k. split; [|done]. apply power_between. by rewrite <- Hk.
  - change 0x80000000 with (2 ^ 30 * 2) in Hg. rewrite Z.mul_assoc, Z.div_mul in Hg by lia. lia.
Qed.

(** C28: settings that the command line gives are within the limits that the components
    rely on: the size of a page is a power of two that libmdbx supports, the map and its
    growth are within the number of pages it can have, there are never to be more outgoing
    connections than connections at all, timeouts and buffers are in their ranges, nodes to
    connect to are endpoints, and no password is given where there is no TLS. *)
Theorem command_line_sound `{Boost} to_number hw path deploy (args : Arguments) (s : AppSettings) :
  parse_node_command_line to_number hw path deploy args = Success s ->
  let c := chaindata_env_config s in
  (exists k, 8 <= k <= 16 /\ EnvConfig.page_size c = 2 ^ k) /\
  32 * MiB <= EnvConfig.max_size c <= Z.min (128 * 2 ^ 40) (EnvConfig.page_size c * 2 ^ 31) /\
  64 * MiB <= EnvConfig.growth_size c <= EnvConfig.page_size c * 2 ^ 30 /\
  64 * MiB <= etl_buffer_size s <= GiB /\ 64 * MiB <= batch_size s <= 16 * GiB /\
  0 <= min_outgoing_connections s <= max_active_connections s /\ 16 <= max_active_connections s <= 128 /\
  1 <= max_active_connections_per_ip s <= 16 /\ 5 <= protocol_handshake_timeout_seconds s <= 30 /\ 5 <= inbound_timeout_seconds s <= 30 /\
  30 <= idle_timeout_seconds s <= 3600 /\ 30 <= ping_interval_seconds s <= 3600 /\ 100 <= ping_timeout_milliseconds s <= 5000 /\
  1 <= connect_timeout_seconds s <= 5 /\
  Forall (λ text, text = [] \/ exists e, IPEndpoint.from_string text = Success e) (connect_nodes s) /\
  (use_tls s = false -> tls_password s = []).
Proof.
  unfold parse_node_command_line. intros E. repeat (apply bind_success in E as (? & ? & E)).
  match goal with E : (let '_ := ?sizes in _) = _ |- _ => destruct sizes as [[page_size max_size] growth_size] end.
  match type of E with (if ?x <? ?y then _ else _) = _ => destruct (Z.ltb_spec x y) as [|Hc]; [done|] end.
  repeat (apply bind_success in E as (? & ? & E)). injection E as <-. cbn.
  repeat match goal with R : ranged _ _ _ _ _ _ = Success _ |- _ =>
    (apply ranged_spec in R; [|lia]) || clear R end.
  match goal with S : database_sizes _ _ _ = _ |- _ => apply database_sizes_spec in S as (Dp & Dm & Dg & D) end.
  repeat match goal with
  | R : sized ?min ?max ?d ?given = Success ?text, V : value_of (parse_human_bytes ?text) = Success ?v |- _ =>
      eapply (sized_spec min max d given _ _ text v) in R; [|by vm_compute|by vm_compute|by vm_compute|by vm_compute|exact V]
  end.
  destruct D as (Dk & Dm' & Dg'); [lia|]. unfold MiB, GiB. split_and!; try lia; try done.
  - match goal with F : (if forallb _ _ then _ else _) = _ |- _ => destruct (forallb _ _) eqn:B; [|done]; injection F as <- end.
    apply Forall_forall. intros text Ht. rewrite forallb_forall in B. apply list_elem_of_In in Ht. specialize (B text Ht). unfold IPEndPointValidator in B.
    case_bool_decide; [by left|]. right. cbn [andb] in B. destruct (IPEndpoint.from_string text); [by eexists | done..].
  - intros Hn. apply negb_false_iff in Hn. destruct (arg_pkpwd args) as [p|].
    + match goal with P : (if arg_notls args then _ else _) = _ |- _ => by rewrite Hn in P end.
    + match goal with P : Success [] = Success ?p |- ?p = [] => by injection P end.
Qed.

(** Nothing is given but a page size. *)
Definition sample_arguments : Arguments := {|
  arg_datadir := None; arg_chain := Some (str "TestNet"); arg_exclusive := false; arg_readahead := false; arg_writemap := false;
  arg_growthsize := None; arg_pagesize := Some (str "16KiB"); arg_maxsize := None; arg_buffersize := None; arg_batchsize := None;
  arg_throttle := None; arg_loginterval := None; arg_fakepow := false; arg_nochecksums := false; arg_concurrency := None;
  arg_localendpoint := None; arg_nat := None; arg_notls := false; arg_pkpwd := Some (str "secret"); arg_ipv4only := false;
  arg_maxactiveconnections := None; arg_minoutgoingconnections := None; arg_maxconnectionsperip := None; arg_handshaketimeout := None;
  arg_inboundtimeout := None; arg_idletimeout := None; arg_pinginterval := None; arg_pingtimeout := None; arg_connect := [];
  arg_connecttimeout := None; arg_forcednsseed := false; arg_verbosity := Some (str "trace") |}.

Lemma command_line_sound_witness : exists s,
  @parse_node_command_line model_boost (λ _ _, None) 8 (str "/z") (λ _, Success ()) sample_arguments = Success s /\
  network_id s = 2 /\ log_verbosity s = 6 /\ EnvConfig.page_size (chaindata_env_config s) = 2 ^ 14 /\
  EnvConfig.max_size (chaindata_env_config s) <= 2 ^ 14 * 2 ^ 31.
Proof.
  assert (E : exists s, @parse_node_command_line model_boost (λ _ _, None) 8 (str "/z") (λ _, Success ()) sample_arguments = Success s /\
    network_id s = 2 /\ log_verbosity s = 6 /\ EnvConfig.page_size (chaindata_env_config s) = 2 ^ 14).
  { eexists. split; [vm_compute; reflexivity | by vm_compute]. }
  destruct E as (s & E & E1 & E2 & E3). exists s. split_and!; [exact E | exact E1 | exact E2 | exact E3 |].
  pose proof (@command_line_sound model_boost (λ _ _, None) 8 (str "/z") (λ _, Success ()) sample_arguments s E) as (_ & Hm & _).
  rewrite E3 in Hm. lia.
Defined.

End CommandLineFacts.
