(* ===== verification/Log.v ===== *)
(** * Logging

    Models of [src/src/infra/common/log.cpp] and [log.hpp] with the colours of
    [src/src/infra/os/terminal.hpp].  The state is what a thread sees: the settings, the
    file, its name, and the octets that went to the two streams and the file.  The time as
    [absl] formats it, the number of the thread and whether a file can be opened are arguments. *)

From S2P Require Import Prelude Text CommandLine.
#[local] Open Scope Z_scope.

Module Log.
Import CommandLine.

(** ** Colours *)

(** The sequence of a colour: the escape character, a bracket, numbers, and [m]. *)
Definition color (numbers : String.string) : Bytes := 27 :: 91 :: str numbers ++ [109].

Definition kColorReset : Bytes := color "0".
Definition kColorCoal : Bytes := color "90".
Definition kColorGray : Bytes := color "37".
Definition kColorRed : Bytes := color "91".
Definition kColorGreen : Bytes := color "32".
Definition kColorCyan : Bytes := color "96".
Definition kColorWhiteHigh : Bytes := color "1;97".
Definition kColorOrangeHigh : Bytes := color "1;33".
Definition kBackgroundPurple : Bytes := color "105".
Definition kBackgroundRed : Bytes := color "101".

Definition get_level_settings (level : Level) : Bytes * Bytes :=
  match level with
  | kTrace => (str "TRACE", kColorCoal)
  | kTrace1 => (str " TRC1", kColorGray)
  | kTrace2 => (str " TRC2", kColorGray)
  | kTrace3 => (str " TRC3", kColorGray)
  | kDebug => (str "DEBUG", kBackgroundPurple)
  | kInfo => (str " INFO", kColorGreen)
  | kWarning => (str " WARN", kColorOrangeHigh)
  | kError => (str "ERROR", kColorRed)
  | kCritical => (str " CRIT", kBackgroundRed)
  | kNone => (str "     ", kColorReset)
  end.

(** ** State *)

Record Settings := mk_settings {
  log_std_out : bool;
  log_timezone : Bytes;
  log_nocolor : bool;
  log_threads : bool;
  log_verbosity : Level;
  log_file : Bytes;
  log_thousands_sep : Z;
}.
Definition default_settings : Settings := mk_settings false (str "UTC") false false kInfo [] 39.

Record state := mk {
  settings_ : Settings;
  (** The open file, by what it holds. *)
  file_ : option Bytes;
  thread_name_ : Bytes;
  (** The zone that the thread has loaded. *)
  time_zone : option Bytes;
  out : Bytes;
  err : Bytes;
}.

Definition set_settings v s := mk v (file_ s) (thread_name_ s) (time_zone s) (out s) (err s).
Definition set_file v s := mk (settings_ s) v (thread_name_ s) (time_zone s) (out s) (err s).
Definition set_name v s := mk (settings_ s) (file_ s) v (time_zone s) (out s) (err s).
Definition set_zone v s := mk (settings_ s) (file_ s) (thread_name_ s) v (out s) (err s).
Definition print_out t s := mk (settings_ s) (file_ s) (thread_name_ s) (time_zone s) (out s ++ t) (err s).
Definition print_err t s := mk (settings_ s) (file_ s) (thread_name_ s) (time_zone s) (out s) (err s ++ t).

Definition level_number (l : Level) : Z :=
  match l with
  | kNone => 0 | kCritical => 1 | kError => 2 | kWarning => 3 | kInfo => 4
  | kDebug => 5 | kTrace => 6 | kTrace1 => 7 | kTrace2 => 8 | kTrace3 => 9
  end.

(** ** Set up *)

(** [opened] gives what a file holds that can be opened. *)
Definition tee_file (opened : Bytes -> option Bytes) (path : Bytes) (s : state) : state :=
  match opened path with
  | Some content => set_file (Some content) s
  | None => print_err (str "Could not open log file " ++ path ++ [10]) (set_file None s)
  end.

(** The terminal is set up on Windows only. *)
Definition init (opened : Bytes -> option Bytes) (settings : Settings) (s : state) : state :=
  let s := set_settings settings s in
  if negb (bool_decide (log_file (settings_ s) = [])) then tee_file opened (log_file settings) s else s.

Definition get_verbosity (s : state) : Level := log_verbosity (settings_ s).
Definition set_verbosity (level : Level) (s : state) : state :=
  let c := settings_ s in
  set_settings (mk_settings (log_std_out c) (log_timezone c) (log_nocolor c) (log_threads c) level (log_file c) (log_thousands_sep c)) s.
Definition test_verbosity (level : Level) (s : state) : bool := level_number level <=? level_number (log_verbosity (settings_ s)).

Definition set_thread_name (name : Bytes) (s : state) : state := set_name name s.
Definition get_thread_name (thread_id : Z) (s : state) : Bytes * state :=
  let s := if bool_decide (thread_name_ s = []) then set_name (decimal thread_id) s else s in
  (thread_name_ s, s).

(** Whether [absl] has a zone by the name; the result is the zone's name. *)
Definition get_time_zone (load : Bytes -> bool) (s : state) : Bytes * state :=
  let zone := log_timezone (settings_ s) in
  if bool_decide (zone = []) || iequals zone (str "UTC") then (str "UTC", s)
  else if negb (load zone) then
    (str "UTC", print_err (str "Could not load time zone [" ++ zone ++ str "] defaulting to UTC" ++ [10]) s)
  else (zone, s).

(** The [thread_local] zone, which is loaded once. *)
Definition thread_zone (load : Bytes -> bool) (s : state) : Bytes * state :=
  match time_zone s with
  | Some zone => (zone, s)
  | None => let (zone, s) := get_time_zone load s in (zone, set_zone (Some zone) s)
  end.

(** ** Buffers *)

(** Digits in groups of three, counted from the right. *)
Fixpoint separate (sep : Z) (digits : Bytes) : Bytes :=
  match digits with
  | c :: rest =>
      if negb (bool_decide (rest = [])) && (zlen rest mod 3 =? 0) then c :: sep :: separate sep rest
      else c :: separate sep rest
  | [] => []
  end.

(** What is put into a stream: text, or an unsigned number. *)
Inductive item := Text (t : Bytes) | Number (v : Z).

Definition put (settings : Settings) (x : item) : Bytes :=
  match x with
  | Text t => t
  | Number v => if negb (log_thousands_sep settings =? 0) then separate (log_thousands_sep settings) (decimal v) else decimal v
  end.

Record BufferBase := mk_buffer { should_print_ : bool; sstream_ : Bytes }.

Section Buffers.
(** The zones that there are, the time in a zone, and the number of the thread. *)
Context (load : Bytes -> bool) (format_time : Bytes -> Bytes) (thread_id : Z).

Definition make (level : Level) (s : state) : BufferBase * state :=
  if negb (level_number level <=? level_number (log_verbosity (settings_ s))) then (mk_buffer false [], s)
  else
    let (prefix, color) := get_level_settings level in
    let line := kColorReset ++ str " " ++ color ++ prefix ++ kColorReset ++ str " " in
    let (zone, s) := thread_zone load s in
    let line := line ++ kColorCyan ++ format_time zone ++ kColorReset in
    if log_threads (settings_ s) then
      let (name, s) := get_thread_name thread_id s in
      (mk_buffer true (line ++ str "[" ++ name ++ str "] "), s)
    else (mk_buffer true line, s).

(** [std::left] with a width of 25. *)
Definition padded_left (msg : Bytes) : Bytes := msg ++ replicate (25 - length msg) 32.

Fixpoint put_args (left : bool) (args : list Bytes) : Bytes :=
  match args with
  | [] => []
  | arg :: args =>
      (if left then kColorGreen else kColorWhiteHigh) ++ arg ++ kColorReset ++ (if left then str "=" else str " ") ++ kColorReset ++
      put_args (negb left) args
  end.

Definition make_with (level : Level) (msg : Bytes) (args : list Bytes) (s : state) : BufferBase * state :=
  let (b, s) := make level s in
  if negb (should_print_ b) then (b, s)
  else (mk_buffer true (sstream_ b ++ padded_left msg ++ put_args true args), s).
End Buffers.

Definition append (settings : Settings) (x : item) (b : BufferBase) : BufferBase :=
  if should_print_ b then mk_buffer true (sstream_ b ++ put settings x) else b.

(** ** Colours taken out *)

(** The class of the pattern: the bracket is one of its characters. *)
Definition in_color (c : Z) : bool := (c =? 91) || is_digit c || (c =? 59).

Fixpoint span_color (l : Bytes) : Bytes * Bytes :=
  match l with
  | c :: l' => if in_color c then let (a, b) := span_color l' in (c :: a, b) else ([], l)
  | [] => ([], [])
  end.

(** The rest after a match of the pattern. *)
Definition match_color (l : Bytes) : option Bytes :=
  match l with
  | c :: l =>
      if c =? 27 then
        match span_color l with
        | (_ :: _, d :: rest) => if d =? 109 then Some rest else None
        | _ => None
        end
      else None
  | [] => None
  end.

(** [std::regex_replace], by an empty text; every turn consumes a character. *)
Fixpoint regex_remove (fuel : nat) (l : Bytes) : Bytes :=
  match fuel, l with
  | S fuel, c :: l' =>
      match match_color l with
      | Some rest => regex_remove fuel rest
      | None => c :: regex_remove fuel l'
      end
  | _, _ => []
  end.
Definition strip_colors (l : Bytes) : Bytes := regex_remove (length l) l.

Definition flush (b : BufferBase) (s : state) : state :=
  if negb (should_print_ b) then s
  else
    let colorized := negb (log_nocolor (settings_ s)) in
    let line := if log_nocolor (settings_ s) then strip_colors (sstream_ b) else sstream_ b in
    let s := if log_std_out (settings_ s) then print_out (line ++ [10]) s else print_err (line ++ [10]) s in
    match file_ s with
    | Some content => set_file (Some (content ++ (if colorized then strip_colors line else line) ++ [10])) s
    | None => s
    end.

End Log.

(** ** Properties *)

Module LogFacts.
Import CommandLine Log.

(** *** Colours *)

Lemma span_color_spec l a b : span_color l = (a, b) -> l = a ++ b.
Proof.
  revert a b. induction l as [|c l IH]; intros a b; cbn [span_color]; [by intros [= <- <-]|].
  destruct (in_color c); [|by intros [= <- <-]]. destruct (span_color l) as [a' b']. intros [= <- <-]. by rewrite (IH a' b' eq_refl).
Qed.

Lemma match_color_shorter l rest : match_color l = Some rest -> (length rest < length l)%nat.
Proof.
  unfold match_color. destruct l as [|c l]; [done|]. destruct (c =? 27); [|done].
  destruct (span_color l) as [[|a a'] [|d r]] eqn:E; [done..|]. destruct (d =? 109); [|done]. intros [= <-].
  apply span_color_spec in E as ->. cbn. rewrite length_app. cbn. lia.
Qed.

(** More fuel than characters changes nothing. *)
Lemma regex_remove_fuel n : forall m l, (length l <= n)%nat -> (length l <= m)%nat -> regex_remove n l = regex_remove m l.
Proof.
  induction n as [|n IH]; intros m [|c l] Hn Hm; cbn [length] in *; try lia; destruct m as [|m]; try lia; [done..|].
  cbn [regex_remove]. destruct (match_color (c :: l)) as [rest|] eqn:E; [|f_equal; apply IH; lia].
  apply match_color_shorter in E. cbn [length] in E. apply IH; lia.
Qed.

Lemma strip_char c l : c <> 27 -> strip_colors (c :: l) = c :: strip_colors l.
Proof. intros Hc. unfold strip_colors. cbn [length regex_remove match_color]. by rewrite (proj2 (Z.eqb_neq _ _)). Qed.

Lemma strip_text t l : 27 ∉ t -> strip_colors (t ++ l) = t ++ strip_colors l.
Proof. induction t as [|c t IH]; [done|]. intros [Hc Ht]%not_elem_of_cons. cbn [app]. by rewrite strip_char, IH. Qed.

Lemma span_color_app a d l : forallb in_color a = true -> in_color d = false -> span_color (a ++ d :: l) = (a, d :: l).
Proof.
  intros Ha Hd. induction a as [|c a IH]; cbn [app span_color]; [by rewrite Hd|]. cbn [forallb] in Ha.
  apply andb_prop in Ha as [-> Ha]. by rewrite IH.
Qed.

Lemma strip_color numbers l : forallb in_color (str numbers) = true -> strip_colors (color numbers ++ l) = strip_colors l.
Proof.
  intros Hn. assert (E : match_color (color numbers ++ l) = Some l).
  { assert (S : span_color ((91 :: str numbers) ++ 109 :: l) = (91 :: str numbers, 109 :: l)) by by apply span_color_app.
    unfold color, match_color. cbn [app]. rewrite <- app_assoc. change (27 =? 27) with true. cbv iota. cbn [app] in S |- *. by rewrite S. }
  pose proof (match_color_shorter _ _ E) as Hs. unfold strip_colors. destruct (color numbers ++ l) as [|c k]; [done|].
  cbn [length regex_remove] in *. rewrite E. apply regex_remove_fuel; lia.
Qed.

Ltac strip_step :=
  first [ rewrite strip_color by reflexivity
        | rewrite strip_text by (assumption || (apply (bool_decide_unpack _); vm_compute; exact I)) ].

(** *** The line *)

Fixpoint plain_args (left : bool) (args : list Bytes) : Bytes :=
  match args with
  | [] => []
  | arg :: args => arg ++ (if left then str "=" else str " ") ++ plain_args (negb left) args
  end.

(** A line without colours. *)
Definition plain_line (timestamp name : Bytes) (level : Level) (msg : Bytes) (args : list Bytes) (items : list item) (settings : Settings) : Bytes :=
  str " " ++ (get_level_settings level).1 ++ str " " ++ timestamp ++
  (if log_threads settings then str "[" ++ name ++ str "] " else []) ++
  padded_left msg ++ plain_args true args ++ mjoin (put settings <$> items).

Lemma strip_args left args l : Forall (λ a, 27 ∉ a) args -> strip_colors (put_args left args ++ l) = plain_args left args ++ strip_colors l.
Proof.
  intros Ha. revert left. induction Ha as [|arg args Harg _ IH]; intros left; [done|]. cbn [put_args plain_args].
  destruct left; rewrite <- !app_assoc; unfold kColorGreen, kColorReset, kColorWhiteHigh; repeat strip_step; by rewrite IH.
Qed.

Lemma level_prefix level l :
  strip_colors ((get_level_settings level).2 ++ (get_level_settings level).1 ++ l) = (get_level_settings level).1 ++ strip_colors l.
Proof.
  destruct level; cbn [get_level_settings fst snd];
    unfold kColorReset, kColorCoal, kColorGray, kColorRed, kColorGreen, kColorOrangeHigh, kBackgroundPurple, kBackgroundRed;
    by do 2 strip_step.
Qed.

Lemma fold_append settings items line :
  fold_left (λ b x, append settings x b) items (mk_buffer true line) = mk_buffer true (line ++ mjoin (put settings <$> items)).
Proof.
  revert line. induction items as [|x items IH]; intros line; cbn [fold_left fmap list_fmap mjoin]; [by rewrite app_nil_r|].
  unfold append at 2. cbn [should_print_ sstream_]. by rewrite IH, <- app_assoc.
Qed.

Lemma fold_append_silent settings items line :
  fold_left (λ b x, append settings x b) items (mk_buffer false line) = mk_buffer false line.
Proof. by induction items. Qed.

Lemma padded_left_plain msg : 27 ∉ msg -> 27 ∉ padded_left msg.
Proof. intros Hm [|Hr]%elem_of_app; [done|]. by apply elem_of_replicate in Hr as [? _]. Qed.

(** What the zone and the name of a thread leave of the state. *)
Lemma thread_zone_state load s : let s' := (thread_zone load s).2 in
  settings_ s' = settings_ s /\ file_ s' = file_ s /\ thread_name_ s' = thread_name_ s.
Proof. unfold thread_zone, get_time_zone. destruct (time_zone s); [done|]. destruct (_ || _); [done|]. by destruct (negb _). Qed.

Lemma thread_name_state thread_id s name s' : get_thread_name thread_id s = (name, s') ->
  settings_ s' = settings_ s /\ file_ s' = file_ s /\ out s' = out s /\ err s' = err s.
Proof. unfold get_thread_name. case_bool_decide; by intros [= <- <-]. Qed.

Definition name_of (thread_id : Z) (s : state) : Bytes := (get_thread_name thread_id s).1.

(** A buffer that is to be printed: its line without the colours, and the state. *)
Lemma make_with_spec load format_time thread_id level msg args s : let (zone, s0) := thread_zone load s in
  test_verbosity level s = true ->
  27 ∉ format_time zone -> 27 ∉ name_of thread_id s -> 27 ∉ msg -> Forall (λ a, 27 ∉ a) args ->
  exists line s', make_with load format_time thread_id level msg args s = (mk_buffer true line, s') /\
    settings_ s' = settings_ s /\ file_ s' = file_ s /\ out s' = out s0 /\ err s' = err s0 /\
    forall l, strip_colors (line ++ l) = plain_line (format_time zone) (name_of thread_id s) level msg args [] (settings_ s) ++ strip_colors l.
Proof.
  pose proof (thread_zone_state load s) as Hz. unfold make_with, make. destruct (thread_zone load s) as [zone s0]. cbn [snd] in Hz.
  destruct Hz as (Z1 & Z2 & Z3). intros Hv Ht Hn Hm Ha. apply padded_left_plain in Hm. unfold plain_line. unfold test_verbosity in Hv. rewrite Hv. cbn [negb].
  rewrite (surjective_pairing (get_level_settings level)). cbv iota beta. rewrite Z1.
  assert (En : name_of thread_id s = name_of thread_id s0).
  { unfold name_of, get_thread_name. rewrite Z3. by case_bool_decide. } rewrite En in *.
  destruct (log_threads (settings_ s)) eqn:Et.
  - unfold name_of in *. destruct (get_thread_name thread_id s0) as [name s'] eqn:Es. cbn [fst should_print_ sstream_ negb] in *.
    apply thread_name_state in Es as (E1 & E2 & E3 & E4). eexists _, s'. split; [reflexivity|]. split_and!; try congruence. intros l.
    rewrite <- !app_assoc. unfold kColorReset at 1. do 2 strip_step. rewrite level_prefix. unfold kColorReset, kColorCyan.
    repeat strip_step. by rewrite strip_args by done.
  - cbn [should_print_ sstream_ negb]. eexists _, s0. split; [reflexivity|]. split_and!; try done. intros l.
    rewrite <- !app_assoc. unfold kColorReset at 1. do 2 strip_step. rewrite level_prefix. unfold kColorReset, kColorCyan.
    repeat strip_step. by rewrite strip_args by done.
Qed.

(** A message from its construction to its end. *)
Definition log (load : Bytes -> bool) (format_time : Bytes -> Bytes) (thread_id : Z) (level : Level) (msg : Bytes) (args : list Bytes)
    (items : list item) (s : state) : state :=
  let (b, s') := make_with load format_time thread_id level msg args s in
  flush (fold_left (λ b x, append (settings_ s) x b) items b) s'.

Lemma strip_plain l : 27 ∉ l -> strip_colors l = l.
Proof. intros Hl. rewrite <- (app_nil_r l) at 1. rewrite strip_text by done. by rewrite app_nil_r. Qed.

(** A message of a level within the verbosity is written as one line: to the stream that the
    settings choose, with its colours or without them, and to the file always without them;
    and without colours means the text that it would be had there been none.  Of a level
    beyond the verbosity nothing is written at all. *)
Theorem log_line (load : Bytes -> bool) (format_time : Bytes -> Bytes) (thread_id : Z) (level : Level) (msg : Bytes) (args : list Bytes)
    (items : list item) (s : state) : let (zone, s0) := thread_zone load s in
  27 ∉ format_time zone -> 27 ∉ name_of thread_id s -> 27 ∉ msg -> Forall (λ a, 27 ∉ a) args ->
  Forall (λ x, 27 ∉ put (settings_ s) x) items ->
  let s' := log load format_time thread_id level msg args items s in
  if test_verbosity level s then
    exists line, let plain := plain_line (format_time zone) (name_of thread_id s) level msg args items (settings_ s) in
      strip_colors line = plain /\
      file_ s' = (λ content, content ++ plain ++ [10]) <$> file_ s /\
      let written := (if log_nocolor (settings_ s) then plain else line) ++ [10] in
      (out s', err s') = if log_std_out (settings_ s) then (out s0 ++ written, err s0) else (out s0, err s0 ++ written)
  else s' = s.
Proof.
  pose proof (make_with_spec load format_time thread_id level msg args s) as Hs. destruct (thread_zone load s) as [zone s0].
  intros Ht Hn Hm Ha Hi. cbv zeta. unfold log. destruct (test_verbosity level s) eqn:Hv.
  - destruct (Hs eq_refl Ht Hn Hm Ha) as (line & s' & -> & E1 & E2 & E3 & E4 & Hl).
    rewrite fold_append. set (text := mjoin (put (settings_ s) <$> items)).
    assert (Hp : strip_colors (line ++ text) = plain_line (format_time zone) (name_of thread_id s) level msg args items (settings_ s)).
    { rewrite Hl, strip_plain; [|].
      - unfold plain_line. subst text. cbn [fmap list_fmap mjoin]. by rewrite <- !app_assoc.
      - subst text. clear - Hi. induction Hi as [|x items Hx _ IH]; [apply not_elem_of_nil|]. rewrite fmap_cons. cbn [mjoin list_join].
        by apply not_elem_of_app. }
    exists (line ++ text). split; [done|]. unfold flush. cbn [should_print_ sstream_ negb]. rewrite E1.
    destruct (log_nocolor (settings_ s)), (log_std_out (settings_ s)); cbn [print_out print_err file_ negb]; rewrite E2, ?Hp;
      destruct (file_ s) as [content|]; cbn [set_file file_ out err print_out print_err fmap option_fmap option_map]; by rewrite ?E2, ?E3, ?E4.
  - unfold make_with, make. unfold test_verbosity in Hv. rewrite Hv. cbn [negb should_print_]. by rewrite fold_append_silent.
Qed.

(** Thousands are separated, not changed: without the separators, the digits of a number
    are read back. *)
Lemma separate_digits sep digits : sep ∉ digits -> filter (λ c, c <> sep) (separate sep digits) = digits.
Proof.
  induction digits as [|c digits IH]; [done|]. intros [Hc Hd]%not_elem_of_cons. cbn [separate].
  destruct (_ && _); rewrite filter_cons_True by congruence; [rewrite filter_cons_False by naive_solver|]; by rewrite IH.
Qed.

Lemma filter_absent (sep : Z) (l : Bytes) : sep ∉ l -> filter (λ c, c <> sep) l = l.
Proof. induction l as [|c l IH]; [done|]. intros [Hc Hl]%not_elem_of_cons. rewrite filter_cons_True by congruence. by rewrite IH. Qed.

Theorem thousands_read settings v : 0 <= v < 2 ^ 64 -> is_digit (log_thousands_sep settings) = false ->
  digits_value (filter (λ c, c <> log_thousands_sep settings) (put settings (Number v))) = v.
Proof.
  intros Hv Hs. assert (Hd : log_thousands_sep settings ∉ decimal v).
  { intros Hin. pose proof (decimal_digits v ltac:(lia)) as H. unfold all_digits in H. rewrite Forall_forall in H. rewrite H in Hs by done. done. }
  cbn [put]. destruct (negb _); [rewrite separate_digits by done; by apply decimal_value|].
  rewrite filter_absent by done. by apply decimal_value.
Qed.

Example log_example :
  let s := mk (mk_settings false (str "Mars") true false kInfo [] 39) (Some []) (str "main") None [] [] in
  let log := log (λ _, false) (λ zone, str "[01-02|03:04:05.678] ") 7 in
  (err (log kWarning (str "Low disk") [str "free"; str "1 MiB"] [Number 1234567] s), log kDebug (str "Hidden") [] [] s) =
  (str "Could not load time zone [Mars] defaulting to UTC" ++ [10] ++
   str "  WARN [01-02|03:04:05.678] Low disk                 free=1 MiB 1'234'567" ++ [10], s).
Proof. vm_compute. reflexivity. Qed.

End LogFacts.
