(* ===== verification/Directories.v ===== *)
(** * Directories

    Models of [src/src/infra/filesystem/directories.cpp] and [directories.hpp] over a
    tree of directories and files.  Where a directory may be made, and the random
    names, are arguments.  Names are plain: there are no links, and no [.] or [..]. *)

From stdpp Require Import gmap.
From S2P Require Import Prelude.
#[local] Open Scope Z_scope.

Module Directories.

(** ** The file system *)

(** The names from the root on. *)
Abbreviation path := (list Bytes).

Inductive node := Dir | File (size : Z) | Special.

#[global] Instance node_dec : EqDecision node.
Proof. solve_decision. Defined.

(** All but the root, which is always there. *)
Abbreviation fs := (gmap path node).

Definition status (p : path) (t : fs) : option node := match p with [] => Some Dir | _ => t !! p end.
Definition exists_ (p : path) (t : fs) : bool := bool_decide (is_Some (status p t)).
Definition is_directory (p : path) (t : fs) : bool := bool_decide (status p t = Some Dir).

(** Every entry is in a directory. *)
Definition tree (t : fs) : Prop := forall p name, is_Some (t !! (p ++ [name])) -> status p t = Some Dir.

Definition below (p q : path) : bool := bool_decide (take (length p) q = p) && bool_decide (length p < length q)%nat.
Definition child (p q : path) : bool := below p q && bool_decide (length q = S (length p)).

(** An argument of the functions: [std::filesystem::path] with or without a root and a
    separator at its end. *)
Record path_arg := mk_arg { absolute : bool; names : list Bytes; trailing : bool }.

(** The root and what ends in a separator have no file name. *)
Definition has_filename (a : path_arg) : bool := negb (bool_decide (names a = [])) && negb (trailing a).

Section Directories.
(** Whether a directory may be made under a path; the current directory. *)
Context (can_make : path -> bool) (current_path : path).

(** [std::filesystem::create_directories]: one level after the other, [done] being there;
    whether the last one is new. *)
Fixpoint make_levels (done : path) (rest : list Bytes) (made : bool) (t : fs) : outcome bool * fs :=
  match rest with
  | [] => (Success made, t)
  | name :: rest =>
      let p := done ++ [name] in
      match status p t with
      | Some Dir => make_levels p rest false t
      | Some _ => (Failure (Thrown std_filesystem_error), t)
      | None => if can_make p then make_levels p rest true (<[p := Dir]> t) else (Failure (Thrown std_filesystem_error), t)
      end
  end.
Definition create_directories (p : path) : op fs bool := make_levels [] p false.

(** [std::filesystem::remove_all] *)
Definition remove_all (p : path) (t : fs) : fs := filter (λ e : path * node, negb (bool_decide (e.1 = p)) && negb (below p e.1) = true) t.

(** ** Directory *)

(** An instance is its [path_]. *)
Definition create (p : path) : op fs unit := λ t,
  if exists_ p t then (Success (), t)
  else
    (made <~ create_directories p;;
     if negb made then op_fail (Thrown std_filesystem_error) else op_ret ()) t.

Definition make_directory (a : path_arg) : op fs path := λ t,
  let p := if bool_decide (names a = []) && negb (absolute a) then mk_arg true current_path false else a in
  let p := if negb (absolute p) then mk_arg true (current_path ++ names p) (trailing p) else p in
  if negb (has_filename p) then (Failure (Thrown std_invalid_argument), t)
  else if exists_ (names p) t && negb (is_directory (names p) t) then (Failure (Thrown std_invalid_argument), t)
  else (_ <~ create (names p);; op_ret (names p)) t.

Definition entries (p : path) (t : fs) : list (path * node) := List.filter (λ e, below p e.1) (map_to_list t).

Definition is_pristine (p : path) (t : fs) : bool := bool_decide (entries p t = []).

(** The loop over the entries of the directory. *)
Definition clear (recurse : bool) (p : path) (t : fs) : fs :=
  foldl (λ t e, if bool_decide (e.2 = Dir) && negb recurse then t else remove_all e.1 t) t
    (List.filter (λ e, child p e.1) (map_to_list t)).

(** Regular files, those of subdirectories when the iterator goes into them. *)
Definition file_size (n : node) : Z := match n with File s => s | _ => 0 end.
Definition size (recurse : bool) (p : path) (t : fs) : Z :=
  foldr (λ e ret, wrap 64 (ret + file_size e.2)) 0
    (List.filter (λ e, if recurse then below p e.1 else child p e.1) (map_to_list t)).

(** [operator[]] *)
Definition subdirectory (p : path) (a : path_arg) : op fs path := λ t,
  if bool_decide (names a = []) || absolute a || negb (has_filename a) then (Failure (Thrown std_invalid_argument), t)
  else
    let target := p ++ names a in
    (made <~ (if exists_ target t then op_ret true else create_directories target);;
     if negb made then op_fail (Thrown std_filesystem_error) else make_directory (mk_arg true target false)) t.

(** The first of the random names that is not there yet. *)
Fixpoint fresh_name (p : path) (draws : list Bytes) (t : fs) : option Bytes :=
  match draws with
  | [] => None
  | name :: draws => if exists_ (p ++ [name]) t then fresh_name p draws t else Some name
  end.

(** Draws until a name is fresh; then the test file is made and removed. *)
Definition is_writable (p : path) (draws : list Bytes) (can_write : bool) (t : fs) : option (bool * fs) :=
  match fresh_name p draws t with
  | None => None
  | Some name =>
      if negb can_write then Some (false, t)
      else
        let t := <[p ++ [name] := File 0]> t in
        let t := <[p ++ [name] := File 4]> t in
        Some (true, delete (p ++ [name]) t)
  end.

(** A thousand attempts at most; [base] is the directory for temporary files when none
    is given. *)
Definition get_unique_temporary_path (base : path_arg) (draws : list Bytes) (t : fs) : outcome path :=
  let p := if absolute base then names base else current_path ++ names base in
  if negb (exists_ p t) || negb (is_directory p t) then Failure (Thrown std_invalid_argument)
  else match fresh_name p (take 1000 draws) t with
       | Some name => Success (p ++ [name])
       | None => Failure (Thrown std_filesystem_error)
       end.

(** ** TempDirectory *)

Definition make_temporary (base : path_arg) (draws : list Bytes) : op fs path := λ t,
  match get_unique_temporary_path base draws t with
  | Success p => make_directory (mk_arg true p false) t
  | Failure e => (Failure e, t)
  | Fault f => (Fault f, t)
  end.
Definition destroy_temporary (p : path) (t : fs) : fs := remove_all p t.

(** ** DataDirectory *)

Definition kChainDataName : Bytes := str "chaindata".
Definition kEtlTmpName : Bytes := str "etl-tmp".
Definition kNodesName : Bytes := str "nodes".
Definition kZkParamsName : Bytes := str "zk-params".
Definition kSSLCertName : Bytes := str "ssl-cert".
Definition kSubdirs : list Bytes := [kChainDataName; kEtlTmpName; kNodesName; kZkParamsName; kSSLCertName].

(** Nothing is removed. *)
Definition clear_data (recurse : bool) (p : path) (t : fs) : fs := t.

Definition subdirectory_of (p : path) (name : Bytes) : op fs path := subdirectory p (mk_arg false [name] false).

Definition deploy (p : path) : op fs unit :=
  _ <~ subdirectory_of p kChainDataName;;
  _ <~ subdirectory_of p kEtlTmpName;;
  _ <~ subdirectory_of p kNodesName;;
  _ <~ subdirectory_of p kZkParamsName;;
  _ <~ subdirectory_of p kSSLCertName;;
  op_ret ().

(** [default_path] on Linux: the storage path of the environment, or else the path of the
    executable itself. *)
Definition default_path (storage : option path) (executable : path) (project_name : Bytes) : path :=
  default executable storage ++ [str ".local"; str "share"; str "." ++ project_name].

End Directories.
End Directories.
