(* ===== verification/DirectoriesFacts.v ===== *)
(** * Properties of directories

    The data directory is complete once it is deployed, what is cleared is gone and
    nothing else, and temporary directories leave no trace. *)

From stdpp Require Import gmap.
From S2P Require Import Prelude Directories.
#[local] Open Scope Z_scope.

Module DirectoriesFacts.
Import Directories.

Implicit Types (p q : path) (t : fs).

(** ** Trees *)

Lemma snoc_not_nil p (name : Bytes) : p ++ [name] <> [].
Proof. by destruct p. Qed.

Lemma status_snoc p name t : status (p ++ [name]) t = t !! (p ++ [name]).
Proof. unfold status. by destruct (p ++ [name]) eqn:E; [apply snoc_not_nil in E|]. Qed.

Lemma tree_prefix p q t : tree t -> is_Some (status (p ++ q) t) -> q <> [] -> status p t = Some Dir.
Proof.
  intros Ht. induction q as [|x q IH] using rev_ind; intros Hs Hq; [done|]. rewrite app_assoc, status_snoc in Hs.
  apply Ht in Hs. destruct q as [|y q]; [by rewrite app_nil_r in Hs|]. by apply IH.
Qed.

Lemma tree_insert p name t : tree t -> status p t = Some Dir -> t !! (p ++ [name]) = None -> tree (<[p ++ [name] := Dir]> t).
Proof.
  intros Ht Hp Hn q x Hq. destruct (decide (p ++ [name] = q ++ [x])) as [E|Hne].
  - apply app_inj_tail in E as [-> ->]. unfold status in *. destruct q as [|y q]; [done|]. rewrite lookup_insert_ne; [done|].
    intros E. apply (f_equal length) in E. rewrite length_app in E. simpl in E. lia.
  - rewrite lookup_insert_ne in Hq by done. apply Ht in Hq. unfold status in *. destruct q as [|y q]; [done|].
    destruct (decide (p ++ [name] = y :: q)) as [->|]; [by rewrite lookup_insert_eq | by rewrite lookup_insert_ne].
Qed.

Lemma below_spec p q : below p q = true <-> exists r, r <> [] /\ q = p ++ r.
Proof.
  unfold below. rewrite andb_true_iff, !bool_decide_eq_true. split.
  - intros [E Hl]. exists (drop (length p) q). split.
    + intros Hd. apply (f_equal length) in Hd. rewrite length_drop in Hd. simpl in Hd. lia.
    + rewrite <- E at 1. by rewrite take_drop.
  - intros (r & Hr & ->). rewrite take_app_length, length_app. split; [done|]. destruct r; [done|]. simpl. lia.
Qed.

Lemma child_spec p q : child p q = true <-> exists name, q = p ++ [name].
Proof.
  unfold child. rewrite andb_true_iff, below_spec, bool_decide_eq_true. split.
  - intros [(r & Hr & ->) Hl]. rewrite length_app in Hl. destruct r as [|x [|y r]]; [done | by exists x | simpl in Hl; lia].
  - intros [x ->]. split; [by exists [x] | rewrite length_app; simpl; lia].
Qed.

(** ** Making directories *)

Section Making.
Context (can_make : path -> bool) (current_path : path).

(** Levels that are there are passed. *)
Lemma make_levels_existing done rest name b t : tree t -> status (done ++ rest) t = Some Dir ->
  make_levels can_make done (rest ++ [name]) b t = make_levels can_make (done ++ rest) [name] (match rest with [] => b | _ => false end) t.
Proof.
  intros Ht. revert done b. induction rest as [|x rest IH]; intros done b Hs; [by rewrite app_nil_r|].
  cbn [app make_levels]. replace (done ++ x :: rest) with ((done ++ [x]) ++ rest) in * by (by rewrite <- app_assoc).
  assert (Hx : status (done ++ [x]) t = Some Dir).
  { destruct rest as [|y rest]; [by rewrite app_nil_r in Hs|]. apply (tree_prefix _ (y :: rest)); [done | by rewrite Hs | done]. }
  rewrite Hx, IH by done. by destruct rest.
Qed.

(** One more level. *)
Lemma create_one p name t : tree t -> status p t = Some Dir -> t !! (p ++ [name]) = None ->
  create_directories can_make (p ++ [name]) t =
    if can_make (p ++ [name]) then (Success true, <[p ++ [name] := Dir]> t) else (Failure (Thrown std_filesystem_error), t).
Proof.
  intros Ht Hp Hn. unfold create_directories. rewrite make_levels_existing by done. cbn [app make_levels].
  rewrite status_snoc, Hn. by destruct (can_make _).
Qed.

Lemma make_existing p t : p <> [] -> status p t = Some Dir ->
  make_directory can_make current_path (mk_arg true p false) t = (Success p, t).
Proof.
  intros Hn Hp. unfold make_directory. cbn [names absolute negb andb]. rewrite andb_false_r. cbn [names absolute negb].
  unfold has_filename. cbn [names trailing negb andb]. rewrite bool_decide_false by done. cbn [negb andb].
  unfold is_directory. rewrite (bool_decide_true (status p t = _)) by done. cbn [negb]. rewrite andb_false_r.
  unfold create, op_bind. unfold exists_. rewrite bool_decide_true by (by rewrite Hp). done.
Qed.

(** What is asked for is a directory afterwards, unless something else is in its place or
    it may not be made. *)
Lemma subdirectory_spec p name t : tree t -> status p t = Some Dir ->
  subdirectory_of can_make current_path p name t =
    match t !! (p ++ [name]) with
    | Some Dir => (Success (p ++ [name]), t)
    | Some _ => (Failure (Thrown std_invalid_argument), t)
    | None => if can_make (p ++ [name]) then (Success (p ++ [name]), <[p ++ [name] := Dir]> t) else (Failure (Thrown std_filesystem_error), t)
    end.
Proof.
  intros Ht Hp. unfold subdirectory_of, subdirectory. cbn [names absolute has_filename trailing bool_decide orb negb andb].
  change (bool_decide ([name] = [])) with false. cbn [orb negb andb]. unfold has_filename at 1. cbn [names trailing].
  change (bool_decide ([name] = [])) with false. cbn [negb andb]. unfold exists_. rewrite status_snoc.
  destruct (t !! (p ++ [name])) as [n|] eqn:E.
  - rewrite bool_decide_true by done. erewrite op_bind_success by reflexivity. cbn [negb]. destruct n.
    + by rewrite make_existing by (apply snoc_not_nil || by rewrite status_snoc).
    + unfold make_directory, has_filename, is_directory, exists_. cbn [names absolute negb andb trailing]. rewrite andb_false_r. cbn [names absolute negb trailing].
      rewrite bool_decide_false by apply snoc_not_nil. cbn [negb andb]. rewrite status_snoc, E. done.
    + unfold make_directory, has_filename, is_directory, exists_. cbn [names absolute negb andb trailing]. rewrite andb_false_r. cbn [names absolute negb trailing].
      rewrite bool_decide_false by apply snoc_not_nil. cbn [negb andb]. rewrite status_snoc, E. done.
  - rewrite bool_decide_false by (by intros []). pose proof (create_one p name t Ht Hp E) as Ec. unfold op_bind. rewrite Ec.
    destruct (can_make _); [|done]. cbn [negb]. apply make_existing; [apply snoc_not_nil|]. rewrite status_snoc. apply lookup_insert_eq.
Qed.

(** A place for a subdirectory. *)
Definition place p name t : Prop := t !! (p ++ [name]) = Some Dir \/ (t !! (p ++ [name]) = None /\ can_make (p ++ [name]) = true).

(** Nothing is changed but by new directories. *)
Definition extends t t' : Prop := forall q, t' !! q = t !! q \/ (t !! q = None /\ t' !! q = Some Dir).

Lemma extends_place p name t t' : extends t t' -> place p name t -> place p name t'.
Proof. intros He. unfold place. destruct (He (p ++ [name])) as [E|[E1 E2]]; [by rewrite E | rewrite E2; by left]. Qed.

Lemma extends_dir p t t' : extends t t' -> status p t = Some Dir -> status p t' = Some Dir.
Proof. intros He. unfold status. destruct p as [|x p]; [done|]. destruct (He (x :: p)) as [E|[E1 E2]]; congruence. Qed.

(** The subdirectories of a list. *)
Definition deploy_all p (l : list Bytes) : op fs unit :=
  foldr (λ name k, op_bind (subdirectory_of can_make current_path p name) (λ _, k)) (op_ret ()) l.

Lemma deploy_all_spec p l t : tree t -> status p t = Some Dir -> Forall (λ name, place p name t) l ->
  exists t', deploy_all p l t = (Success (), t') /\ tree t' /\ extends t t' /\ Forall (λ name, t' !! (p ++ [name]) = Some Dir) l.
Proof.
  revert t. induction l as [|name l IH]; intros t Ht Hp Hl.
  { exists t. split_and!; [done | done | intros q; by left | constructor]. }
  apply Forall_cons in Hl as [Hn Hl]. cbn [deploy_all foldr]. fold (deploy_all p l).
  assert (S : exists t1, subdirectory_of can_make current_path p name t = (Success (p ++ [name]), t1) /\ tree t1 /\ extends t t1 /\ t1 !! (p ++ [name]) = Some Dir).
  { rewrite subdirectory_spec by done. destruct Hn as [E|[E Hc]]; rewrite E.
    - exists t. split_and!; try done. intros q; by left.
    - rewrite Hc. exists (<[p ++ [name] := Dir]> t). split_and!; [done | by apply tree_insert | | apply lookup_insert_eq].
      intros q. destruct (decide (p ++ [name] = q)) as [<-|]; [right; by rewrite lookup_insert_eq | left; by rewrite lookup_insert_ne]. }
  destruct S as (t1 & E1 & T1 & X1 & D1). erewrite op_bind_success by exact E1.
  destruct (IH t1) as (t2 & E2 & T2 & X2 & D2); [done | by apply (extends_dir p t) | |].
  { eapply Forall_impl; [exact Hl|]. intros x. by apply extends_place. }
  exists t2. split_and!; [done | done | |].
  - intros q. destruct (X1 q) as [A|[A1 A2]], (X2 q) as [B|[B1 B2]]; try (by left; congruence); right; split; congruence.
  - constructor; [|done]. destruct (X2 (p ++ [name])) as [->|[B1 B2]]; [done | congruence].
Qed.
(** Only the subdirectories of the list are new. *)
Lemma deploy_all_only p l t t' : tree t -> status p t = Some Dir -> deploy_all p l t = (Success (), t') ->
  forall q, q ∉ ((λ name, p ++ [name]) <$> l) -> t' !! q = t !! q.
Proof.
  revert t. induction l as [|name l IH]; intros t Ht Hp E q Hq; [by injection E as <-|]. rewrite fmap_cons, not_elem_of_cons in Hq. destruct Hq as [Hn Hq].
  cbn [deploy_all foldr] in E. fold (deploy_all p l) in E. unfold op_bind in E. rewrite subdirectory_spec in E by done.
  destruct (t !! (p ++ [name])) as [[]|] eqn:En; try done; [by apply (IH t)|]. destruct (can_make _); [|done].
  rewrite (IH _ (tree_insert p name t Ht Hp En)) with (3 := Hq); [by rewrite lookup_insert_ne| |done].
  unfold status in *. destruct p as [|x p]; [done|]. rewrite lookup_insert_ne; [done|]. intros E'. apply (f_equal length) in E'.
  rewrite length_app in E'. simpl in E'. lia.
Qed.

Lemma deploy_all_again p l t : tree t -> status p t = Some Dir -> Forall (λ name, t !! (p ++ [name]) = Some Dir) l ->
  deploy_all p l t = (Success (), t).
Proof.
  intros Ht Hp. induction 1 as [|name l Hn _ IH]; [done|]. cbn [deploy_all foldr]. fold (deploy_all p l).
  unfold op_bind. by rewrite subdirectory_spec, Hn by done.
Qed.

End Making.

(** ** Removal *)

Lemma remove_all_lookup p q t : remove_all p t !! q = if bool_decide (q = p) || below p q then None else t !! q.
Proof.
  unfold remove_all. destruct (bool_decide (q = p) || below p q) eqn:E.
  - apply map_lookup_filter_None. right. intros x _. cbn. destruct (bool_decide (q = p)), (below p q); done.
  - apply orb_false_iff in E as [E1 E2]. destruct (t !! q) as [x|] eqn:Eq.
    + apply map_lookup_filter_Some. split; [done|]. cbn. by rewrite E1, E2.
    + apply map_lookup_filter_None. by left.
Qed.

(** Several entries are removed, one after the other. *)
Lemma remove_loop_lookup (keep : path * node -> bool) l q t :
  foldl (λ t e, if keep e then t else remove_all e.1 t) t l !! q =
  if existsb (λ e, negb (keep e) && (bool_decide (q = e.1) || below e.1 q)) l then None else t !! q.
Proof.
  revert t. induction l as [|e l IH]; intros t; [done|]. cbn [foldl existsb]. rewrite IH. destruct (keep e); cbn [negb andb orb]; [done|].
  rewrite remove_all_lookup. by destruct (bool_decide (q = e.1) || below e.1 q), (existsb _ l).
Qed.

Lemma below_app p r q : below (p ++ r) q = true -> below p q = true.
Proof. rewrite !below_spec. intros (x & Hx & ->). exists (r ++ x). rewrite app_assoc. split; [by destruct r | done]. Qed.

(** The entries that the loop removes [q] with. *)
Definition hits recurse q (e : path * node) : bool :=
  negb (bool_decide (e.2 = Dir) && negb recurse) && (bool_decide (q = e.1) || below e.1 q).
Definition cleared (recurse : bool) p q n : bool := below p q && (recurse || (child p q && negb (bool_decide (n = Dir)))).

Lemma hits_cleared recurse p q n k x t : tree t -> t !! q = Some n -> t !! k = Some x -> child p k = true -> hits recurse q (k, x) = true ->
  cleared recurse p q n = true.
Proof.
  unfold hits, cleared. intros Ht Eq Hin Hc Hk. cbn [fst snd] in *.
  apply child_spec in Hc as Hk'. destruct Hk' as [name ->].
  apply andb_prop in Hk as [K1 K2]. apply orb_prop in K2 as [K2|K2].
  + apply bool_decide_eq_true in K2 as ->. unfold child in Hc. apply andb_prop in Hc as Hc'. destruct Hc' as [Hb Hl].
    rewrite Hb. unfold child. rewrite Hb, Hl. assert (x = n) as -> by congruence. cbn [andb]. destruct recurse; [done|].
    cbn [negb andb orb] in *. by rewrite andb_true_r in K1.
  + rewrite (below_app p [name] q K2). cbn [andb]. destruct recurse; [done|]. cbn [negb orb] in *. rewrite andb_true_r in K1.
    apply below_spec in K2 as (r & Hr & ->). assert (Hd : status (p ++ [name]) t = Some Dir).
    { apply (tree_prefix _ r t Ht); [|done]. unfold status. destruct ((p ++ [name]) ++ r) eqn:E; [by destruct p|]. by rewrite Eq. }
    rewrite status_snoc in Hd. replace x with Dir in K1 by congruence. done.
Qed.

Lemma cleared_hits recurse p q n t : tree t -> t !! q = Some n -> cleared recurse p q n = true -> exists k x, t !! k = Some x /\ child p k = true /\
  hits recurse q (k, x) = true.
Proof.
  unfold hits, cleared. intros Ht Eq.
  intros [Hb Hr]%andb_prop. apply below_spec in Hb as (r & Hr' & ->). destruct r as [|name r]; [done|].
  assert (Hx : exists x, t !! (p ++ [name]) = Some x /\ (r = [] -> x = n) /\ (r <> [] -> x = Dir)).
  { destruct r as [|y r]; [by exists n|]. exists Dir. split; [|done]. rewrite <- status_snoc. apply (tree_prefix _ (y :: r) t Ht); [|done].
    rewrite <- app_assoc. cbn [app]. unfold status. destruct (p ++ name :: y :: r) eqn:E; [by destruct p|]. by rewrite Eq. }
  destruct Hx as (x & Hx & X1 & X2). exists (p ++ [name]), x. cbn [fst snd]. split_and!.
  + done.
  + apply child_spec. by exists name.
  + apply andb_true_iff. split.
    * destruct recurse; [by rewrite andb_false_r|]. cbn [orb negb] in *. rewrite andb_true_r. apply andb_prop in Hr as [Hc Hd].
      apply child_spec in Hc as [z Hz]. apply app_inv_head in Hz. injection Hz as -> ->. by rewrite X1.
    * apply orb_true_iff. destruct r as [|y r]; [left; by apply bool_decide_eq_true | right].
      apply below_spec. exists (y :: r). split; [done|]. by rewrite <- app_assoc.
Qed.

(** What a directory has after it has been cleared: nothing, or its subdirectories
    and all that is in them. *)
Lemma clear_lookup recurse p q t : tree t -> clear recurse p t !! q =
  if below p q && (recurse || (child p q && negb (bool_decide (t !! q = Some Dir)))) then None else t !! q.
Proof.
  intros Ht. unfold clear. rewrite (remove_loop_lookup (λ e, bool_decide (e.2 = Dir) && negb recurse)).
  destruct (t !! q) as [n|] eqn:Eq; [|by destruct (existsb _ _), (_ && _)].
  rewrite (bool_decide_ext (Some n = Some Dir) (n = Dir)) by (split; [by intros [= ->] | by intros ->]).
  change (below p q && _) with (cleared recurse p q n). change (existsb _ _) with (existsb (hits recurse q) (List.filter (λ e, child p e.1) (map_to_list t))).
  assert (B : existsb (hits recurse q) (List.filter (λ e, child p e.1) (map_to_list t)) = cleared recurse p q n); [|by rewrite B].
  apply eq_true_iff_eq. rewrite existsb_exists. split.
  - intros ([k x] & [Hin Hc]%filter_In & Hk). apply list_elem_of_In, elem_of_map_to_list in Hin. by apply (hits_cleared _ _ _ _ k x t).
  - intros (k & x & Hk & Hc & Hh)%(cleared_hits _ _ _ _ t); try done. exists (k, x). split; [|done].
    apply filter_In. split; [by apply list_elem_of_In, elem_of_map_to_list | done].
Qed.

(** ** Temporary directories *)

Lemma fresh_name_spec p draws t name : fresh_name p draws t = Some name -> t !! (p ++ [name]) = None /\ name ∈ draws.
Proof.
  induction draws as [|d draws IH]; cbn [fresh_name]; [done|]. unfold exists_. rewrite status_snoc. case_bool_decide as E.
  - intros [H1 H2]%IH. split; [done | by apply elem_of_cons; right].
  - intros [= ->]. split; [by destruct (t !! (p ++ [name])); [destruct E|] | by apply elem_of_cons; left].
Qed.

(** A test for writing leaves nothing behind. *)
Lemma is_writable_clean p draws can_write t r t' : is_writable p draws can_write t = Some (r, t') -> r = can_write /\ t' = t.
Proof.
  unfold is_writable. destruct (fresh_name p draws t) as [name|] eqn:E; [|done]. apply fresh_name_spec in E as [E _].
  destruct can_write; cbn [negb]; intros [= <- <-]; [|done]. split; [done|]. rewrite insert_insert_eq. by apply delete_insert_id.
Qed.

Lemma make_temporary_spec can_make current base draws t p t' : tree t ->
  make_temporary can_make current base draws t = (Success p, t') -> t !! p = None /\ p <> [] /\ t' = <[p := Dir]> t.
Proof.
  intros Ht. unfold make_temporary, get_unique_temporary_path. set (b := if absolute base then _ else _).
  destruct (negb (exists_ b t) || negb (is_directory b t)) eqn:Hb; [done|]. prop_bools. unfold is_directory in H0. prop_bools.
  destruct (fresh_name b (take 1000 draws) t) as [name|] eqn:Ef; [|done]. apply fresh_name_spec in Ef as [Ef _].
  unfold make_directory, has_filename. cbn [names absolute negb andb trailing]. rewrite andb_false_r. cbn [names absolute negb andb trailing].
  rewrite bool_decide_false by apply snoc_not_nil. cbn [negb andb].
  assert (Hx : exists_ (b ++ [name]) t = false) by (unfold exists_; rewrite status_snoc, Ef; done). rewrite Hx. cbn [andb].
  unfold create, op_bind at 1. rewrite Hx. unfold op_bind. rewrite create_one by done.
  destruct (can_make (b ++ [name])); [|done]. intros [= <- <-]. split_and!; [done | apply snoc_not_nil | done].
Qed.

(** C26: the data directory, once deployed, has its five subdirectories, nothing else has
    changed, and deploying it again changes nothing.  Clearing a directory removes all that
    is in it, or, without its subdirectories, exactly what is no directory.  A temporary
    directory has a name that was not in use, and when it goes the file system is as
    before, whatever was done in it meanwhile. *)
Theorem directories_kept (can_make : path -> bool) (current p : path) (t : fs) : tree t ->
  (status p t = Some Dir -> (forall name, name ∈ kSubdirs -> place can_make p name t) -> exists t',
     deploy can_make current p t = (Success (), t') /\ deploy can_make current p t' = (Success (), t') /\
     (forall name, name ∈ kSubdirs -> t' !! (p ++ [name]) = Some Dir) /\
     (forall q, q ∉ ((λ name, p ++ [name]) <$> kSubdirs) -> t' !! q = t !! q)) /\
  (forall q, clear true p t !! q = if below p q then None else t !! q) /\
  (forall q, clear false p t !! q = if child p q && negb (bool_decide (t !! q = Some Dir)) then None else t !! q) /\
  (forall base draws d t1 t2, make_temporary can_make current base draws t = (Success d, t1) ->
     (forall q, q <> d -> below d q = false -> t2 !! q = t !! q) -> t !! d = None /\ destroy_temporary d t2 = t).
Proof.
  intros Ht. split_and!.
  - intros Hp Hl. destruct (deploy_all_spec can_make current p kSubdirs t Ht Hp) as (t1 & E1 & T1 & X1 & D1); [by apply Forall_forall|].
    pose proof (proj1 (Forall_forall _ _) D1) as D1'. cbn beta in D1'.
    exists t1. split_and!; [exact E1 | | exact D1' |].
    + apply (deploy_all_again can_make current p kSubdirs t1 T1); [by apply (extends_dir p t) | done].
    + intros q Hq. by apply (deploy_all_only can_make current p kSubdirs t t1).
  - intros q. rewrite clear_lookup by done. cbn [orb]. by rewrite andb_true_r.
  - intros q. rewrite clear_lookup by done. cbn [orb]. unfold child. destruct (below p q); done.
  - intros base draws d t1 t2 Hm Hq. apply make_temporary_spec in Hm as (Hd & Hn & _); [|done]. split; [done|].
    apply map_eq. intros q. unfold destroy_temporary. rewrite remove_all_lookup. case_bool_decide as E; [by subst q|]. cbn [orb].
    destruct (below d q) eqn:Eb; [|by apply Hq]. apply below_spec in Eb as (r & Hr & ->). symmetry.
    destruct (t !! (d ++ r)) eqn:Er; [|done]. exfalso.
    assert (S : status d t = Some Dir).
    { apply (tree_prefix d r t Ht); [|done]. unfold status. destruct (d ++ r) eqn:E'; [done|]. by rewrite Er. }
    unfold status in S. destruct d; [done|]. congruence.
Qed.

(** A directory with one file and one of the subdirectories. *)
Definition sample_fs : fs :=
  {[ [str "z"] := Dir; [str "z"; str "log"] := File 10; [str "z"; kNodesName] := Dir; [str "z"; kNodesName; str "mdbx.dat"] := File 20 ]}.

Lemma sample_tree : tree sample_fs.
Proof.
  intros q name [x Hx]. assert (A : map_Forall (λ k (_ : node), status (removelast k) sample_fs = Some Dir) sample_fs) by decide_now.
  specialize (A _ _ Hx). cbn beta in A. by rewrite removelast_last in A.
Qed.

Lemma directories_kept_witness : exists t', deploy (λ _, true) [] [str "z"] sample_fs = (Success (), t') /\
  t' !! [str "z"; kZkParamsName] = Some Dir /\ clear false [str "z"] sample_fs !! [str "z"; str "log"] = None.
Proof.
  destruct (directories_kept (λ _, true) [] [str "z"] sample_fs sample_tree) as (D & _ & C & _).
  destruct D as (t' & E & _ & Hs & _); [by vm_compute | |].
  - intros name Hn. unfold place. revert name Hn. apply Forall_forall. repeat (constructor; [by vm_compute; auto|]). constructor.
  - exists t'. split; [exact E|]. split.
    + apply (Hs kZkParamsName). repeat constructor.
    + rewrite C. by vm_compute.
Defined.

End DirectoriesFacts.
