(* ===== verification/Program.v ===== *)
(** * The program

    Models of [main] of [src/cmd/node.cpp], which composes the command line, the
    database, the clock, the TLS files and the parameters, and then waits; of the signals,
    the terminal and the environment ([src/src/infra/os]); and of [stage.cpp].  What each
    turn of the loop sees is an argument. *)

From stdpp Require Import gmap.
From S2P Require Import Prelude Text Boost Json Stopwatch Digest Params Database Environment Bootstrap Chain Addresses Meters CommandLine Secure.
#[local] Open Scope Z_scope.

(** ** Signals *)

Module Signals.

(** Handlers of the process: that of this class, and others by number. *)
Inductive handler := Handle | Previous (n : Z).
#[global] Instance handler_dec : EqDecision handler.
Proof. solve_decision. Defined.

Record t := mk {
  sig_code_ : Z;
  sig_count_ : Z;
  signalled_ : bool;
  silent_ : bool;
  prev_handlers_ : gmap Z handler;
  handlers : gmap Z handler;
}.

(** The signals of Linux. *)
Definition SIGINT : Z := 2.
Definition SIGQUIT : Z := 3.
Definition SIGTERM : Z := 15.
Definition SIGTSTP : Z := 20.
Definition kHandleableCodes : list Z := [SIGQUIT; SIGTSTP; SIGINT; SIGTERM].

(** Every process has a handler for each of these signals, so that [signal] does not
    fail. *)
Definition set_handler (sig_code : Z) (h : handler) (s : t) : t :=
  mk (sig_code_ s) (sig_count_ s) (signalled_ s) (silent_ s) (prev_handlers_ s) (<[sig_code := h]> (handlers s)).

(** A turn of the loop of [init]. *)
Definition hook (s : t) (sig_code : Z) : t :=
  match handlers s !! sig_code with
  | Some prev_handler =>
      let s := set_handler sig_code Handle s in
      mk (sig_code_ s) (sig_count_ s) (signalled_ s) (silent_ s) (<[sig_code := prev_handler]> (prev_handlers_ s)) (handlers s)
  | None => set_handler sig_code Handle s
  end.

Definition init (silent : bool) (s : t) : t :=
  let s := foldl hook s kHandleableCodes in
  mk (sig_code_ s) (sig_count_ s) (signalled_ s) silent (prev_handlers_ s) (handlers s).

(** The tenth signal ends the process. *)
Definition handle (sig_code : Z) (s : t) : outcome unit * t :=
  let code := if signalled_ s then sig_code_ s else sig_code in
  let sig_count := wrap 32 (sig_count_ s + 1) in
  let s := mk code sig_count true (silent_ s) (prev_handlers_ s) (handlers s) in
  if 10 <=? sig_count then (Fault Terminated, s)
  else (Success (), set_handler sig_code Handle s).

(** A turn of the loop of [reset]. *)
Definition unhook (s : t) (sig_code : Z) : t :=
  match prev_handlers_ s !! sig_code with Some h => set_handler sig_code h s | None => s end.

Definition reset (s : t) : t := foldl unhook (mk 0 0 false (silent_ s) (prev_handlers_ s) (handlers s)) kHandleableCodes.

(** The code of the exception, if there is one. *)
Definition throw_if_signalled (s : t) : option Z := if signalled_ s then Some (sig_code_ s) else None.

End Signals.

(** ** Terminal and environment *)

Module Terminal.

(** [^([yY])?([nN])?$]: whether an answer matches, and whether the first group is there. *)
Definition match_answer (answer : Bytes) : option bool :=
  let either c l u := (c =? l) || (c =? u) in
  match answer with
  | [] => Some false
  | [c] => if either c 121 89 then Some true else if either c 110 78 then Some false else None
  | [c; d] => if either c 121 89 && either d 110 78 then Some true else None
  | _ => None
  end.

(** The loop over the answers; none at the end of the input, which leaves the last one. *)
Fixpoint ask_user_confirmation (answers : list Bytes) : option bool :=
  match answers with
  | [] => None
  | answer :: answers => match match_answer answer with Some b => Some b | None => ask_user_confirmation answers end
  end.

End Terminal.

Module Env.
(** A variable that is empty counts as none. *)
Definition get (name : Bytes) (environment : gmap Bytes Bytes) : option Bytes :=
  match environment !! name with Some (c :: l) => Some (c :: l) | _ => None end.
Definition set (name value : Bytes) (environment : gmap Bytes Bytes) : gmap Bytes Bytes := <[name := value]> environment.
Definition get_default_storage_path (environment : gmap Bytes Bytes) : option Bytes :=
  match get (str "XDG_DATA_HOME") environment with
  | Some value => Some value
  | None => get (str "HOME") environment
  end.
End Env.

(** ** Stages *)

Module Stage.
Section Stage.
Context `{Mdbx}.

Inductive Result := kSuccess | kDbError | kAborted | kBadBlockHash | kBadChainSequence | kUnknownConsensusEngine | kInvalidRange
  | kInvalidProgress | kInvalidBlock | kInvalidTransaction | kDecodingError | kUnknownError | kStoppedByEnv | kUnspecified.

(** [StageError] *)
Inductive stage_result (A : Type) := Ok (a : A) | StageError (err : Result) (message : Bytes).
Arguments Ok {A} a.
Arguments StageError {A} err message.

Definition get_progress (stage_name : Bytes) (t : txn) : outcome Z := read_stage_progress stage_name t.
Definition get_prune_progress (stage_name : Bytes) (t : txn) : outcome Z := read_stage_prune_progress stage_name t.
Definition update_progress (stage_name : Bytes) (progress : Z) (t : txn) : outcome unit * txn := write_stage_progress stage_name progress t.

Definition check_block_sequence (actual expected : Z) : stage_result unit :=
  if negb (actual =? expected)
  then StageError kBadChainSequence (str "bad block sequence : expected " ++ decimal expected ++ str " got " ++ decimal actual)
  else Ok ().

Definition throw_if_stopping (is_running : bool) : stage_result unit :=
  if negb is_running then StageError kAborted (str "kAborted") else Ok ().

End Stage.
End Stage.

(** ** The loop of the node *)

Module Loop.

(** What a turn sees: the clock after the sleep, the number of connections, whether there
    was a signal, and the clock again. *)
Record turn := mk_turn {
  now : Z;
  hub_size : Z;
  signalled : bool;
  loop_time2 : Z;
}.

Inductive reason := Idle | Signal.

Definition minute : Z := 60 * StopWatch.second.

(** The stopwatch, the time of the last report, and the times of all reports. *)
Record state := mk_state {
  node_hub_idle_sw : StopWatch.t;
  loop_time1 : Z;
  reports : list Z;
}.

Definition initial (start_time constructed : Z) : state := mk_state (StopWatch.start false constructed StopWatch.make).2 start_time [].

(** A turn ends the loop, or goes on. *)
Definition turn_step (x : turn) (s : state) : reason + state :=
  let report (sw : StopWatch.t) : reason + state :=
    if signalled x then inl Signal
    else if 30 * StopWatch.second <? loop_time2 x - loop_time1 s then inr (mk_state sw (loop_time2 x) (reports s ++ [loop_time2 x]))
    else inr (mk_state sw (loop_time1 s) (reports s)) in
  if negb (hub_size x =? 0) then report (StopWatch.start true (now x) (node_hub_idle_sw s)).2
  else if 5 * minute <? StopWatch.since_start (now x) (node_hub_idle_sw s) then inl Idle
  else report (node_hub_idle_sw s).

(** The reason of the end with the number of turns, if the loop ends. *)
Fixpoint run (turns : list turn) (n : nat) (s : state) : (reason * nat) + state :=
  match turns with
  | [] => inr s
  | x :: turns =>
      match turn_step x s with
      | inl r => inl (r, n)
      | inr s => run turns (S n) s
      end
  end.

End Loop.

(** ** The start *)

(** [cli.exit] gives the code of a [CLI::ParseError]. *)
Definition exit_code (cli_exit : Z) (e : error) : Z :=
  match e with
  | Thrown CLI_ParseError => cli_exit
  | Thrown std_filesystem_error => -2
  | Thrown std_invalid_argument => -3
  | Thrown db_Exception => -4
  | Thrown (std_runtime_error | std_ios_failure | boost_system_error | mdbx_exception) => -1
  | Thrown (std_length_error | std_logic_error) => -5
  (** What is not an exception is thrown as a [system_error]. *)
  | _ => -1
  end.

Section Main.
Context `{MdbxEnv} `{Json} `{Boost} `{Evp} `{Tls}.
(** CLI11, the machine and the directories. *)
Context (to_number : Z -> Bytes -> option Z) (hw_concurrency : Z) (default_path : Bytes) (deploy : Bytes -> outcome unit).
(** libmdbx and the disk, before and after the database has been prepared. *)
Context (open_ : open_request -> outcome Z) (dirty_pages_limit : Z) (set_option : mdbx_option -> Z -> outcome unit)
  (check_readers : outcome unit) (chaindata_path : Bytes) (disk_before disk_after : disk).
(** The time server. *)
Context (ntp_length ntp_time system_time : Z).
(** OpenSSL and the user, twice. *)
Context (tls_answers : answers) (sha256_name : name) (remove_result : Bytes -> outcome bool) (can_open : Bytes -> bool) (zk_confirmed : bool)
  (server : Bytes -> Params.session).
(** The hub: what its start and its stop return, when its stop returns; and the closing of the database. *)
Context (hub_start : outcome bool) (hub_stop : option bool) (close_database : outcome unit).

Record machine := mk_machine {
  database : store;
  tls_files : world;
  zk_files : Params.world;
}.

Definition on_database {A} (f : op store A) : op machine A := λ m,
  let (r, s) := f (database m) in (r, mk_machine s (tls_files m) (zk_files m)).
Definition on_tls {A} (f : op world A) : op machine A := λ m,
  let (r, w) := f (tls_files m) in (r, mk_machine (database m) w (zk_files m)).
Definition on_zk {A} (f : op Params.world A) : op machine A := λ m,
  let (r, w) := f (zk_files m) in (r, mk_machine (database m) (tls_files m) w).

(** [success_or_throw] *)
Definition success_or_throw {A} (r : outcome A) : outcome A :=
  match r with Failure (Thrown e) => Failure (Thrown e) | Failure _ => Failure (Thrown boost_system_error) | r => r end.

(** Up to the start of the hub, whose result is dropped.  When [help] is asked for, CLI11 throws a [CLI::CallForHelp], which is
    a [CLI::ParseError]. *)
Definition start_node (help : bool) (args : CommandLine.Arguments) : op machine NodeSettings :=
  settings <~ (if help then op_fail (Thrown CLI_ParseError)
               else lift (CommandLine.parse_node_command_line to_number hw_concurrency default_path deploy args));;
  prepared <~ on_database (prepare_chaindata_env open_ dirty_pages_limit set_option check_readers
    {| network_id := CommandLine.network_id settings; chaindata_env_config := CommandLine.chaindata_env_config settings; chain_config := None |}
    chaindata_path disk_before true);;
  _ <~ lift (open_env open_ dirty_pages_limit set_option check_readers (chaindata_env_config prepared) disk_after);;
  _ <~ lift (success_or_throw (Clock.check_system_time ntp_length ntp_time system_time 2));;
  _ <~ (if CommandLine.use_tls settings then
          ok <~ on_tls (validate_tls_requirements tls_answers system_time (CommandLine.tls_password settings));;
          if negb ok then op_fail (Thrown std_filesystem_error) else op_ret ()
        else op_ret ());;
  ok <~ on_zk (Params.validate_param_files sha256_name remove_result can_open zk_confirmed server (CommandLine.no_zk_checksums settings));;
  if negb ok then op_fail (Thrown std_filesystem_error)
  else
    _ <~ lift hub_start;;
    op_ret prepared.

(** The exit code; none when the process is killed, when the loop goes on, or when the hub does not stop. *)
Definition main (cli_exit : Z) (help : bool) (args : CommandLine.Arguments) (start_time constructed : Z) (turns : list Loop.turn) (m : machine)
    : option Z * machine :=
  match start_node help args m with
  | (Success _, m) =>
      match Loop.run turns 0 (Loop.initial start_time constructed), hub_stop with
      | inl _, Some _ =>
          match close_database with
          | Success _ => (Some 0, m)
          | Failure e => (Some (exit_code cli_exit e), m)
          | Fault _ => (None, m)
          end
      | _, _ => (None, m)
      end
  | (Failure e, m) => (Some (exit_code cli_exit e), m)
  | (Fault _, m) => (None, m)
  end.

End Main.
