(* ===== verification/ProgramFacts.v ===== *)
(** * Properties of the program

    What holds when the node runs, when its loop ends, and what signals do. *)

From stdpp Require Import gmap.
From S2P Require Import Prelude Text Boost Json Stopwatch Digest Params ParamsFacts Database DatabaseFacts Environment EnvironmentFacts Bootstrap BootstrapFacts Chain Addresses Meters CommandLine CommandLineFacts Secure SecureFacts Program.
#[local] Open Scope Z_scope.

Module ProgramFacts.

(** ** Signals *)

Section Signals.
Import Signals.
Implicit Types s : Signals.t.

(** Signals that arrive one after the other. *)
Definition handle_all (codes : list Z) : op t unit := foldr (λ c k, op_bind (handle c) (λ _, k)) (op_ret ()) codes.

Lemma handle_all_spec codes s : 0 <= sig_count_ s -> sig_count_ s + zlen codes < 10 ->
  exists s', handle_all codes s = (Success (), s') /\ sig_count_ s' = sig_count_ s + zlen codes /\
    signalled_ s' = (signalled_ s || negb (bool_decide (codes = []))) /\
    sig_code_ s' = (if signalled_ s then sig_code_ s else default (sig_code_ s) (head codes)) /\
    prev_handlers_ s' = prev_handlers_ s.
Proof.
  revert s. induction codes as [|c codes IH]; intros s H0 Hl.
  { exists s. cbn. rewrite orb_false_r. split_and!; try done; [lia | by destruct (signalled_ s)]. }
  cbn [handle_all foldr]. fold (handle_all codes). rewrite zlen_cons in Hl. unfold op_bind, handle at 1.
  assert (Hw : wrap 32 (sig_count_ s + 1) = sig_count_ s + 1) by (unfold wrap; apply Z.mod_small; lia).
  rewrite Hw. rewrite (proj2 (Z.leb_gt _ _)) by lia.
  match goal with |- context [handle_all codes ?x] => set (s1 := x) end.
  destruct (IH s1) as (s' & E & H1 & H2 & H3 & H4); [cbn; lia | cbn; lia |]. exists s'. rewrite E, H1, H2, H3, H4. cbn.
  split_and!; try done; [lia | by destruct (signalled_ s)].
Qed.

Lemma handle_tenth c s : sig_count_ s = 9 -> (handle c s).1 = Fault Terminated.
Proof. intros E. unfold handle. rewrite E. done. Qed.

(** The handlers that are there are remembered, and put back. *)
Lemma unhook_all c h l s : prev_handlers_ s !! c = Some h -> c ∈ l \/ handlers s !! c = Some h -> handlers (foldl unhook s l) !! c = Some h.
Proof.
  revert s. induction l as [|x l IH]; intros s Hh Hl; cbn [foldl]; [by destruct Hl as [Hl%elem_of_nil|]|].
  unfold unhook at 2. destruct (prev_handlers_ s !! x) as [h'|] eqn:Ex; apply IH; try done.
  - destruct (decide (x = c)) as [->|Hx]; [right; cbn; rewrite lookup_insert_eq; congruence|].
    destruct Hl as [Hl|Hl]; [left; set_solver | right; cbn; by rewrite lookup_insert_ne].
  - destruct Hl as [[->|Hl]%elem_of_cons|Hl]; [congruence | by left | by right].
Qed.

Lemma reset_handlers s c : c ∈ kHandleableCodes -> is_Some (prev_handlers_ s !! c) -> handlers (reset s) !! c = prev_handlers_ s !! c.
Proof. intros Hc [h Hh]. rewrite Hh. apply unhook_all; [done | by left]. Qed.

Lemma hook_all c h l s : NoDup l ->
  (c ∈ l /\ handlers s !! c = Some h) \/ ((c ∉ l) /\ prev_handlers_ s !! c = Some h /\ handlers s !! c = Some Handle) ->
  prev_handlers_ (foldl hook s l) !! c = Some h /\ handlers (foldl hook s l) !! c = Some Handle.
Proof.
  revert s. induction l as [|x l IH]; intros s Hn Hl; cbn [foldl]; [destruct Hl as [[Hl%elem_of_nil _]|[_ Hl]]; done|].
  apply NoDup_cons in Hn as [Hx Hn]. apply IH; [done|]. unfold hook. destruct (decide (x = c)) as [->|Hne].
  - destruct Hl as [[_ Hl]|[Hl _]]; [|set_solver]. right. rewrite Hl. cbn. by rewrite !lookup_insert_eq.
  - assert (Hl' : (c ∈ l /\ handlers s !! c = Some h) \/ ((c ∉ l) /\ prev_handlers_ s !! c = Some h /\ handlers s !! c = Some Handle)) by set_solver.
    destruct (handlers s !! x); cbn; rewrite ?(lookup_insert_ne _ x) by done; done.
Qed.

Lemma hook_frame l s : sig_count_ (foldl hook s l) = sig_count_ s /\ signalled_ (foldl hook s l) = signalled_ s.
Proof.
  revert s. induction l as [|x l IH]; intros s; [done|]. cbn [foldl]. destruct (IH (hook s x)) as [-> ->]. unfold hook. by destruct (handlers s !! x).
Qed.
Lemma unhook_frame l s : signalled_ (foldl unhook s l) = signalled_ s.
Proof.
  revert s. induction l as [|x l IH]; intros s; [done|]. cbn [foldl]. rewrite IH. unfold unhook. by destruct (prev_handlers_ s !! x).
Qed.

Lemma init_handlers silent s c : c ∈ kHandleableCodes -> is_Some (handlers s !! c) ->
  prev_handlers_ (init silent s) !! c = handlers s !! c /\ handlers (init silent s) !! c = Some Handle.
Proof. intros Hc [h Hh]. rewrite Hh. apply hook_all; [decide_now | by left]. Qed.
End Signals.

(** up to nine signals are counted, and the first of them is the one that is reported;
    the tenth ends the process.  A reset puts back the handlers that were there before. *)
Theorem signals_counted (s : Signals.t) (silent : bool) (codes : list Z) (c : Z) :
  Signals.sig_count_ s = 0 -> Signals.signalled_ s = false ->
  (forall c, c ∈ Signals.kHandleableCodes -> is_Some (Signals.handlers s !! c)) -> zlen codes < 10 ->
  exists s', handle_all codes (Signals.init silent s) = (Success (), s') /\ Signals.throw_if_signalled s' = head codes /\
    (zlen codes = 9 -> (Signals.handle c s').1 = Fault Terminated) /\
    (forall c, c ∈ Signals.kHandleableCodes -> Signals.handlers (Signals.init silent s) !! c = Some Signals.Handle /\
      Signals.handlers (Signals.reset s') !! c = Signals.handlers s !! c) /\
    Signals.throw_if_signalled (Signals.reset s') = None.
Proof.
  intros Hn Hs Hh Hl.
  assert (I : Signals.sig_count_ (Signals.init silent s) = 0 /\ Signals.signalled_ (Signals.init silent s) = false).
  { rewrite <- Hn, <- Hs. apply hook_frame. }
  destruct I as [I1 I2]. destruct (handle_all_spec codes (Signals.init silent s)) as (s' & E & E1 & E2 & E3 & E4); [lia | lia |].
  exists s'. split_and!; [exact E | | | |].
  - unfold Signals.throw_if_signalled. rewrite E2, E3, I2. cbn [orb]. by destruct codes.
  - intros H9. apply handle_tenth. rewrite E1, I1. lia.
  - intros c' Hc'. destruct (init_handlers silent s c' Hc' (Hh c' Hc')) as [P1 P2]. split; [done|].
    rewrite reset_handlers; [by rewrite E4 | done|]. rewrite E4, P1. by apply Hh.
  - unfold Signals.throw_if_signalled, Signals.reset. by rewrite unhook_frame.
Qed.

Definition sample_signals : Signals.t :=
  Signals.mk 0 0 false false ∅ {[ 2 := Signals.Previous 0; 3 := Signals.Previous 0; 15 := Signals.Previous 7; 20 := Signals.Previous 0 ]}.

Lemma signals_counted_witness : exists s', handle_all [2; 15] (Signals.init true sample_signals) = (Success (), s') /\
  Signals.throw_if_signalled s' = Some 2.
Proof.
  destruct (signals_counted sample_signals true [2; 15] 2) as (s' & E & E1 & _); [done | done | | done |].
  - apply Forall_forall. repeat (constructor; [by eexists; vm_compute|]). constructor.
  - exists s'. split; [exact E | exact E1].
Defined.

(** ** The loop *)

Section Loop.
Import Loop.

(** Since when there has been no connection: the last turn that saw one, or the
    beginning. *)
Definition idle_since (constructed : Z) (past : list turn) : Z :=
  foldl (λ since x, if hub_size x =? 0 then since else now x) constructed past.

(** What a turn decides, given that time. *)
Definition ends (since : Z) (x : turn) : option reason :=
  if (hub_size x =? 0) && (5 * minute <? now x - since) then Some Idle else if signalled x then Some Signal else None.

Definition watch_at (since : Z) (s : state) : Prop :=
  StopWatch.started_ (node_hub_idle_sw s) = true /\ StopWatch.start_time_ (node_hub_idle_sw s) = since /\ since <> 0.

Lemma restart_time t w : (StopWatch.start true t w).2 = StopWatch.mk true t [(t, 0)].
Proof.
  unfold StopWatch.start, StopWatch.reset. cbn [StopWatch.started_ StopWatch.start_time_ StopWatch.laps_].
  assert (Hs : StopWatch.started_ (StopWatch.stop t w).2 = false).
  { unfold StopWatch.stop. destruct (StopWatch.started_ w) eqn:E; cbn [negb]; [|done]. by destruct (StopWatch.lap t w). }
  by rewrite Hs.
Qed.

Lemma turn_step_spec since x s : watch_at since s -> 0 < now x ->
  match ends since x with
  | Some r => turn_step x s = inl r
  | None => exists s', turn_step x s = inr s' /\ watch_at (if hub_size x =? 0 then since else now x) s'
  end.
Proof.
  intros (H1 & H2 & H3) Hn. unfold ends, turn_step, StopWatch.since_start. rewrite H2, (proj2 (Z.eqb_neq since 0)) by done.
  destruct (hub_size x =? 0); cbn [negb andb].
  - destruct (_ <? now x - since); [done|]. destruct (signalled x); [done|]. destruct (_ <? _); eexists; (split; [reflexivity|]); done.
  - destruct (signalled x); [done|]. rewrite restart_time. destruct (_ <? _); eexists; (split; [reflexivity|]); (split_and!; [done | done | lia]).
Qed.

Lemma run_spec turns : forall since n s, watch_at since s -> Forall (λ x, 0 < now x) turns ->
  match run turns n s with
  | inl (r, k) => exists i x, k = (n + i)%nat /\ turns !! i = Some x /\ ends (idle_since since (take i turns)) x = Some r /\
      forall j y, (j < i)%nat -> turns !! j = Some y -> ends (idle_since since (take j turns)) y = None
  | inr _ => forall j y, turns !! j = Some y -> ends (idle_since since (take j turns)) y = None
  end.
Proof.
  induction turns as [|x turns IH]; intros since n s Hw Hp; [done|]. apply Forall_cons in Hp as [Hx Hp]. cbn [run].
  pose proof (turn_step_spec since x s Hw Hx) as Ht. destruct (ends since x) as [r|] eqn:Ee.
  { rewrite Ht. exists 0%nat, x. split_and!; [lia | done | done | intros; lia]. }
  destruct Ht as (s' & -> & Hw'). specialize (IH _ (S n) s' Hw' Hp). destruct (run turns (S n) s') as [[r k]|].
  - destruct IH as (i & y & -> & Hi & He & Hj). exists (S i), y. split_and!; [lia | done | done |]. intros [|j] z Hlt Hz; [by injection Hz as <-|].
    apply (Hj j z); [lia | done].
  - intros [|j] z Hz; [by injection Hz as <- | by apply (IH j z)].
Qed.
End Loop.

(** C27: the node leaves its loop at the first turn that finds it without any connection for
    more than five minutes, counted from the last turn with one or from the beginning, or
    that sees a signal; at no turn before, and without such a turn it goes on. *)
Theorem node_loop (turns : list Loop.turn) (start_time constructed : Z) :
  0 < constructed -> Forall (λ x, 0 < Loop.now x) turns ->
  match Loop.run turns 0 (Loop.initial start_time constructed) with
  | inl (r, i) => exists x, turns !! i = Some x /\ ends (idle_since constructed (take i turns)) x = Some r /\
      forall j y, (j < i)%nat -> turns !! j = Some y -> ends (idle_since constructed (take j turns)) y = None
  | inr _ => forall j y, turns !! j = Some y -> ends (idle_since constructed (take j turns)) y = None
  end.
Proof.
  intros Hc Hp. assert (Hw : watch_at constructed (Loop.initial start_time constructed)) by (split_and!; [done | done | lia]).
  pose proof (run_spec turns constructed 0 _ Hw Hp) as H. destruct (Loop.run turns 0 _) as [[r k]|]; [|done].
  destruct H as (i & x & -> & H). by exists x.
Qed.

Lemma node_loop_witness :
  Loop.run [Loop.mk_turn (2 * Loop.minute) 3 false (2 * Loop.minute); Loop.mk_turn (8 * Loop.minute) 0 false (8 * Loop.minute)] 0
    (Loop.initial 1 1) = inl (Loop.Idle, 1%nat).
Proof.
  pose proof (node_loop [Loop.mk_turn (2 * Loop.minute) 3 false (2 * Loop.minute); Loop.mk_turn (8 * Loop.minute) 0 false (8 * Loop.minute)] 1 1
    ltac:(lia) ltac:(by repeat constructor)) as H.
  destruct (Loop.run _ 0 _) as [[r i]|] eqn:E.
  - destruct H as (x & Hx & He & Hj). destruct i as [|[|i]]; cbn in Hx; [injection Hx as <-; by vm_compute in He | | done].
    injection Hx as <-. vm_compute in He. by injection He as <-.
  - specialize (H 1%nat _ eq_refl). by vm_compute in H.
Defined.

(** ** The start *)

Lemma lift_success {S A} (r : outcome A) (s : S) a s' : lift r s = (Success a, s') -> r = Success a /\ s' = s.
Proof. by intros [= -> ->]. Qed.

Lemma clock_checked len transmitted system skew : 0 < skew -> success_or_throw (Clock.check_system_time len transmitted system skew) = Success () ->
  len = 48 /\ wrap 32 (Z.abs (system - wrap 32 (transmitted - 2208988800))) <= skew.
Proof.
  intros Hs. unfold Clock.check_system_time. destruct (Z.eqb_spec len 48); cbn [negb]; [|done]. rewrite (proj2 (Z.eqb_neq skew 0)) by lia. cbn [negb].
  cbv zeta. destruct (Z.ltb_spec skew (wrap 32 (Z.abs (system - wrap 32 (transmitted - 2208988800))))); done.
Qed.

Definition is_success {A} (r : outcome A) : Prop := exists a, r = Success a.

Section Start.
Context `{MdbxLaws} `{!MdbxEnv} `{!MdbxEnvLaws} `{Json} `{Boost} `{EvpLaws} `{Tls}.
Context (to_number : Z -> Bytes -> option Z) (hw : Z) (default_path : Bytes) (deploy : Bytes -> outcome unit)
  (open_ : open_request -> outcome Z) (limit : Z) (set_option : mdbx_option -> Z -> outcome unit) (readers : outcome unit)
  (path : Bytes) (before after : disk) (ntp_length ntp_time system_time : Z) (tls : answers) (sha256_name : name)
  (remove_result : Bytes -> outcome bool) (can_open : Bytes -> bool) (zk_confirmed : bool) (server : Bytes -> Params.session) (hub_start : outcome bool).

Abbreviation start := (start_node to_number hw default_path deploy open_ limit set_option readers path before after
  ntp_length ntp_time system_time tls sha256_name remove_result can_open zk_confirmed server hub_start).

(** The TLS files are good, or new. *)
Definition tls_checked (password : Bytes) (w w' : world) : Prop :=
  (SecureFacts.files_good tls system_time password w = true /\ files w' = files w) \/
  exists k w0, SecureFacts.new_files tls system_time password k w0 w'.

Lemma start_gates help args m st m' : SecureFacts.numbered (tls_files m) -> start help args m = (Success st, m') -> exists settings c,
  help = false /\
  CommandLine.parse_node_command_line to_number hw default_path deploy args = Success settings /\
  chain_config st = Some c /\ ChainConfig.identifier_ c = CommandLine.network_id settings /\
  read_chain_config (start_write (committed (database m'))) = Success (Some c) /\
  (exists o, open_env open_ limit set_option readers (chaindata_env_config st) after = Success o) /\
  ntp_length = 48 /\ wrap 32 (Z.abs (system_time - wrap 32 (ntp_time - 2208988800))) <= 2 /\
  (CommandLine.use_tls settings = true -> tls_checked (CommandLine.tls_password settings) (tls_files m) (tls_files m')) /\
  (forall p, p ∈ kParamFiles -> ParamsFacts.sound (hash := hash) sha256_name (CommandLine.no_zk_checksums settings) p (Params.files (zk_files m'))) /\
  is_success hub_start.
Proof.
  intros Hn. unfold start_node. destruct help; [by intros (settings & m1 & E1 & _)%op_bind_inv|]. intros (settings & m1 & [E1 ->]%lift_success & (prepared & m2 & E2 & (o & m3 & [E3 ->]%lift_success &
    (u & m4 & [E4 ->]%lift_success & (u' & m5 & E5 & (ok & m6 & E6 & Hk)%op_bind_inv)%op_bind_inv)%op_bind_inv)%op_bind_inv)%op_bind_inv)%op_bind_inv.
  destruct ok; cbn [negb] in Hk; [|done]. apply op_bind_inv in Hk as (u'' & m7 & [E7 ->]%lift_success & Hk). injection Hk as <- <-.
  unfold on_database in E2. destruct (prepare_chaindata_env _ _ _ _ _ _ _ _ _) as [r2 s2] eqn:Ep. injection E2 as -> <-.
  apply BootstrapFacts.prepare_identifies in Ep as (c & C1 & C2 & C3). destruct u. apply clock_checked in E4 as [T1 T2]; [|lia].
  assert (D5 : database m5 = s2 /\ zk_files m5 = zk_files m /\
    (CommandLine.use_tls settings = true -> tls_checked (CommandLine.tls_password settings) (tls_files m) (tls_files m5))).
  { destruct (CommandLine.use_tls settings); [|by injection E5 as _ <-]. apply op_bind_inv in E5 as (b & m8 & E8 & E5).
    unfold on_tls in E8. cbn [tls_files database zk_files] in E8.
    destruct (SecureFacts.validate_tls_spec tls system_time (CommandLine.tls_password settings) (tls_files m) Hn) as (r & w & E9 & _ & _ & Hg).
    rewrite E9 in E8. injection E8 as -> <-. destruct b; cbn [negb] in E5; [|done]. injection E5 as _ <-. cbn [database zk_files tls_files].
    split_and!; [done | done |]. intros _. by apply Hg. }
  destruct D5 as (D1 & D2 & D3). unfold on_zk in E6. destruct (Params.validate_param_files _ _ _ _ _ _ _) as [r6 w6] eqn:Ez. injection E6 as -> <-.
  destruct (ParamsFacts.validate_sound _ _ _ _ _ _ _ _ _ Ez) as [Hz _]. cbn [database tls_files zk_files]. rewrite D1.
  exists settings, c. split_and!; try done; [by exists o | by apply Hz | by exists u''].
Qed.

(** Where every gate opens, the node starts. *)
Lemma start_passes args m settings st s' w' z' :
  CommandLine.parse_node_command_line to_number hw default_path deploy args = Success settings ->
  prepare_chaindata_env open_ limit set_option readers {| network_id := CommandLine.network_id settings;
    chaindata_env_config := CommandLine.chaindata_env_config settings; chain_config := None |} path before true (database m) = (Success st, s') ->
  (exists o, open_env open_ limit set_option readers (chaindata_env_config st) after = Success o) ->
  success_or_throw (Clock.check_system_time ntp_length ntp_time system_time 2) = Success () ->
  (if CommandLine.use_tls settings then validate_tls_requirements tls system_time (CommandLine.tls_password settings) (tls_files m) = (Success true, w')
   else w' = tls_files m) ->
  Params.validate_param_files sha256_name remove_result can_open zk_confirmed server (CommandLine.no_zk_checksums settings) (zk_files m) = (Success true, z') ->
  is_success hub_start -> start false args m = (Success st, mk_machine s' w' z').
Proof.
  intros E1 E2 [o E3] E4 E5 E6 [u E7]. unfold start_node. erewrite op_bind_success by (unfold lift; rewrite E1; reflexivity).
  erewrite op_bind_success by (unfold on_database; rewrite E2; reflexivity). erewrite op_bind_success by (unfold lift; rewrite E3; reflexivity).
  erewrite op_bind_success by (unfold lift; rewrite E4; reflexivity). erewrite op_bind_success with (s' := mk_machine s' w' (zk_files m)).
  2:{ destruct (CommandLine.use_tls settings); [|by subst w']. erewrite op_bind_success by (unfold on_tls; cbn [tls_files]; rewrite E5; reflexivity). done. }
  erewrite op_bind_success by (unfold on_zk; cbn [zk_files]; rewrite E6; reflexivity). cbn [negb].
  by erewrite op_bind_success by (unfold lift; rewrite E7; reflexivity).
Qed.
End Start.

Lemma exit_code_zero cli_exit e : exit_code cli_exit e = 0 -> cli_exit = 0 /\ e = Thrown CLI_ParseError.
Proof. destruct e as [| | | |[]]; done. Qed.

(** C9: the exit code 0 of the node.  A node that is asked for help ends with the code of [cli.exit] and touches nothing.  When
    the exit code is 0, then either that of [cli.exit] is, and a [CLI::ParseError] ended the process; or the node has been
    through all of its gates: the command line was valid; the database has on disk the chain that was asked for,
    and was opened; the clock was within two seconds of the time server's; with TLS, the directory
    has a certificate and key that are good or new; the parameters are complete, and right unless their checksums are not asked for;
    the start of the hub has returned (true or false, which is not looked at); the loop has been left for a signal or for
    idleness; the stop of the hub has returned; and the database was closed. *)
Theorem node_started `{MdbxLaws} `{!MdbxEnv} `{!MdbxEnvLaws} `{Json} `{Boost} `{EvpLaws} `{Tls}
    to_number hw default_path deploy open_ limit set_option readers path before after ntp_length ntp_time system_time tls sha256_name
    remove_result can_open zk_confirmed server hub_start hub_stop close_database cli_exit help (args : CommandLine.Arguments) t0 t1 turns (m : machine) :
  SecureFacts.numbered (tls_files m) ->
  let result := main to_number hw default_path deploy open_ limit set_option readers path before after ntp_length ntp_time system_time tls sha256_name
    remove_result can_open zk_confirmed server hub_start hub_stop close_database cli_exit help args t0 t1 turns m in
  (help = true -> result = (Some cli_exit, m)) /\
  forall m', result = (Some 0, m') ->
    (cli_exit = 0 /\ (close_database = Failure (Thrown CLI_ParseError) \/
       start_node to_number hw default_path deploy open_ limit set_option readers path before after ntp_length ntp_time system_time tls
         sha256_name remove_result can_open zk_confirmed server hub_start help args m = (Failure (Thrown CLI_ParseError), m'))) \/
    exists settings st c r i stopped,
      CommandLine.parse_node_command_line to_number hw default_path deploy args = Success settings /\ help = false /\
      chain_config st = Some c /\ ChainConfig.identifier_ c = CommandLine.network_id settings /\
      read_chain_config (start_write (committed (database m'))) = Success (Some c) /\
      (exists o, open_env open_ limit set_option readers (chaindata_env_config st) after = Success o) /\
      ntp_length = 48 /\ wrap 32 (Z.abs (system_time - wrap 32 (ntp_time - 2208988800))) <= 2 /\
      (CommandLine.use_tls settings = true -> tls_checked system_time tls (CommandLine.tls_password settings) (tls_files m) (tls_files m')) /\
      (forall p, p ∈ kParamFiles -> ParamsFacts.sound (hash := hash) sha256_name (CommandLine.no_zk_checksums settings) p (Params.files (zk_files m'))) /\
      is_success hub_start /\ Loop.run turns 0 (Loop.initial t0 t1) = inl (r, i) /\ hub_stop = Some stopped /\ close_database = Success ().
Proof.
  intros Hn result. unfold result, main. split; [by intros ->|]. intros m'.
  destruct (start_node _ _ _ _ _ _ _ _ _ _ _ _ _ _ _ _ _ _ _ _ _ _ _ m) as [[st|e|f] m1] eqn:E; [| |done].
  2:{ intros [= Hm ->]. apply exit_code_zero in Hm as [-> ->]. left. split; [done|]. by right. }
  destruct (Loop.run turns 0 _) as [[r i]|]; [|done]. destruct hub_stop as [stopped|]; [|done].
  destruct close_database as [[]|e|f]; [| |done].
  2:{ intros [= Hm ->]. apply exit_code_zero in Hm as [-> ->]. left. split; [done|]. by left. }
  intros [= <-]. apply start_gates in E as (settings & c & G0 & G1 & G2 & G3 & G4 & G5 & G6 & G7 & G8 & G9 & G10); [|done].
  right. exists settings, st, c, r, i, stopped. by split_and!.
Qed.

Import DatabaseFacts EnvironmentFacts BootstrapFacts SecureFacts.

(** A testnet node on an empty disk, with TLS, whose files are made and fetched, and a
    signal after the first turn. *)
Definition sample_machine : @machine _ model_env ParamsFacts.ex_evp model_tls :=
  @mk_machine _ model_env ParamsFacts.ex_evp model_tls (mk_store sample_env []) SecureFacts.sample_world ParamsFacts.ex_world.

Abbreviation sample_main := (@main _ model_env model_json model_boost ParamsFacts.ex_evp model_tls
  (λ _ _, None) 8 (str "/z") (λ _, Success ()) (λ _, Success 16384) 1000 (λ _ _, Success ()) (Success ()) (str "/z/chaindata")
  (DirectoryWith None) (DirectoryWith (Some 4096)) 48 2208988901 100 SecureFacts.sample_answers true (λ _, Success true) (λ _, true) true ParamsFacts.ex_server
  (Success true) (Some true) (Success ()) 1 false CommandLineFacts.sample_arguments 1 1 [Loop.mk_turn 5 1 true 5] sample_machine).

Lemma sample_main_zero : exists m', sample_main = (Some 0, m').
Proof.
  assert (E1 : exists s, @CommandLine.parse_node_command_line model_boost (λ _ _, None) 8 (str "/z") (λ _, Success ()) CommandLineFacts.sample_arguments = Success s /\
    CommandLine.network_id s = 2 /\ CommandLine.use_tls s = true /\ CommandLine.tls_password s = str "secret" /\ CommandLine.no_zk_checksums s = false /\
    CommandLine.chaindata_env_config s = EnvConfig.mk [] false false false false false false false 16384 (512 * GiB) (4 * GiB) 128 100).
  { eexists. split; [vm_compute; reflexivity|]. by vm_compute. }
  destruct E1 as (s & E1 & S1 & S2 & S3 & S4 & S5).
  destruct (@BootstrapFacts.prepare_succeeds _ DatabaseFacts.model_mdbx_laws model_env EnvironmentFacts.model_env_laws model_json model_json_laws
    (λ _, Success 16384) 1000 (λ _ _, Success ()) (Success ())
    {| network_id := CommandLine.network_id s; chaindata_env_config := CommandLine.chaindata_env_config s; chain_config := None |}
    (str "/z/chaindata") (DirectoryWith None) (mk_store sample_env []) (str "testnet") kTestNetConfig) as (s' & E2 & _).
  { rewrite S5. split; [eexists; reflexivity | reflexivity]. }
  { cbn [network_id]. by rewrite S1. }
  { by apply BootstrapFacts.pristine. }
  pose proof (@ParamsFacts.validate_ready ParamsFacts.ex_evp ParamsFacts.ex_hash _ (DigestFacts.model_evp_laws _ ParamsFacts.length_ex_hash) true (λ _, Success true) (λ _, true)
    true ParamsFacts.ex_server false ParamsFacts.ex_world (Forall_nil_2 _) eq_refl ParamsFacts.ex_ready) as [Ez _].
  destruct (Params.validate_param_files _ _ _ _ _ _ _) as [rz z'] eqn:Ez'. cbn in Ez. subst rz.
  assert (Et : exists w', @validate_tls_requirements model_tls SecureFacts.sample_answers 100 (str "secret") SecureFacts.sample_world = (Success true, w')).
  { eexists. vm_compute. reflexivity. }
  destruct Et as [w' Et]. eexists. unfold main. erewrite start_passes; [reflexivity | exact E1 | exact E2 | | reflexivity | | | by eexists].
  - rewrite S5. eexists. reflexivity.
  - rewrite S2, S3. exact Et.
  - rewrite S4. exact Ez'.
Qed.

Lemma node_started_witness : exists m' st c, sample_main = (Some 0, m') /\ chain_config st = Some c /\ ChainConfig.identifier_ c = 2.
Proof.
  destruct sample_main_zero as [m' Em]. exists m'.
  assert (Hn : SecureFacts.numbered (tls_files sample_machine)) by (by intros i [x Hi]).
  destruct (@node_started _ DatabaseFacts.model_mdbx_laws model_env EnvironmentFacts.model_env_laws model_json model_boost ParamsFacts.ex_evp
    ParamsFacts.ex_hash _ (DigestFacts.model_evp_laws _ ParamsFacts.length_ex_hash) model_tls
    (λ _ _, None) 8 (str "/z") (λ _, Success ()) (λ _, Success 16384) 1000 (λ _ _, Success ()) (Success ()) (str "/z/chaindata")
    (DirectoryWith None) (DirectoryWith (Some 4096)) 48 2208988901 100 SecureFacts.sample_answers true (λ _, Success true) (λ _, true) true ParamsFacts.ex_server
    (Success true) (Some true) (Success ()) 1 false CommandLineFacts.sample_arguments 1 1 [Loop.mk_turn 5 1 true 5] sample_machine Hn) as [_ Hg].
  destruct (Hg m' Em) as [[Hc _]|(settings & st & c & r & i & stopped & G1 & _ & G2 & G3 & _)]; [discriminate Hc|].
  exists st, c. split; [exact Em|]. split; [exact G2|]. rewrite G3. revert G1. vm_compute. by intros [= <-].
Defined.

End ProgramFacts.
