(* ===== verification/Toolbox.v ===== *)
(** * The database tool

    Models of [src/cmd/toolbox.cpp]: the statistics of a database, the types of the
    addresses in the book, and the choice of the database.  The statistics that libmdbx
    gives of a table are an argument; printing is left out. *)

From S2P Require Import Prelude Text Stream Boost Serialize Misc Database Environment Addresses AddressBook Persistence Directories.
#[local] Open Scope Z_scope.

Module Toolbox.

(** ** Tables *)

Record map_stat := { ms_psize : Z; ms_branch_pages : Z; ms_leaf_pages : Z; ms_overflow_pages : Z; ms_entries : Z }.

Record dbTableEntry := { entry_id : Z; entry_name : Bytes; stat : map_stat }.
Definition entry_pages (e : dbTableEntry) : Z :=
  wrap 64 (ms_branch_pages (stat e) + ms_leaf_pages (stat e) + ms_overflow_pages (stat e)).
Definition entry_size (e : dbTableEntry) : Z := wrap 64 (entry_pages e * ms_psize (stat e)).

Record dbTablesInfo := { mapsize : Z; filesize : Z; pageSize : Z; tables_pages : Z; tables_size : Z; tables : list dbTableEntry }.

Definition add_table (e : dbTableEntry) (ret : dbTablesInfo) : dbTablesInfo :=
  {| mapsize := mapsize ret; filesize := filesize ret; pageSize := wrap 64 (pageSize ret + ms_psize (stat e));
     tables_pages := wrap 64 (tables_pages ret + entry_pages e); tables_size := wrap 64 (tables_size ret + entry_size e);
     tables := tables ret ++ [e] |}.

Record dbFreeEntry := { free_id : Z; free_pages : Z; free_size : Z }.
Record dbFreeInfo := { pages : Z; size : Z; entries : list dbFreeEntry }.

Section Statistics.
Context `{Mdbx}.

(** The number of the transaction and the count of pages are read from the octets of the
    record, which are long enough in a database of libmdbx. *)
Definition collect_free (page_size : Z) (key value : Bytes) (ret : outcome dbFreeInfo) : outcome dbFreeInfo :=
  let? ret := ret in
  if (zlen key <? 8) || (zlen value <? 4) then Fault UndefinedBehaviour
  else
    let txId := le_value (take 8 key) in
    let pagesCount := le_value (take 4 value) in
    let pagesSize := wrap 64 (pagesCount * page_size) in
    Success {| pages := wrap 64 (pages ret + pagesCount); size := wrap 64 (size ret + pagesSize);
               entries := entries ret ++ [{| free_id := txId; free_pages := pagesCount; free_size := pagesSize |}] |}.

(** The cursor is on the table of free pages. *)
Definition get_freeInfo (page_size : Z) (free_crs : cursor) : option (outcome dbFreeInfo) :=
  match cursor_for_each (collect_free page_size) free_crs Forward (Success {| pages := 0; size := 0; entries := [] |}) with
  | Some (_, ret, _) => Some ret
  | None => None
  end.

(** A table that is named in the main table, opened; what is made with [new] is not
    deleted. *)
Definition collect_table (table_stat : Bytes -> outcome (Z * map_stat)) (key value : Bytes) (ret : outcome (dbTablesInfo * nat))
    : outcome (dbTablesInfo * nat) :=
  let? ret := ret in
  let? s := table_stat key in
  Success (add_table {| entry_id := s.1; entry_name := key; stat := s.2 |} ret.1, S ret.2).

(** The statistics, and the number of objects that are never deleted. *)
Definition get_tablesInfo (current_size : Z) (free_stat main_stat : map_stat) (table_stat : Bytes -> outcome (Z * map_stat)) (main_crs : cursor)
    : option (outcome (dbTablesInfo * nat)) :=
  let ret := {| mapsize := 0; filesize := current_size; pageSize := 0; tables_pages := 0; tables_size := 0; tables := [] |} in
  let ret := add_table {| entry_id := 0; entry_name := str "FREE_DBI"; stat := free_stat |} ret in
  let ret := add_table {| entry_id := 1; entry_name := str "MAIN_DBI"; stat := main_stat |} ret in
  match cursor_for_each (collect_table table_stat) main_crs Forward (Success (ret, 0%nat)) with
  | Some (_, ret, _) => Some ret
  | None => None
  end.

(** A - B + C *)
Definition reclaimable (t : dbTablesInfo) (f : dbFreeInfo) : Z := wrap 64 (filesize t - tables_size t + size f).

End Statistics.

(** ** Types of addresses *)

Section Histogram.
Context `{Boost} `{Mdbx}.

#[local] Instance type_dec : EqDecision IPAddressType.
Proof. solve_decision. Defined.

(** [histogram[type]++] *)
Fixpoint count_type (type : IPAddressType) (histogram : list (IPAddressType * Z)) : list (IPAddressType * Z) :=
  match histogram with
  | [] => [(type, 1)]
  | p :: l => if bool_decide (p.1 = type) then (p.1, wrap 64 (p.2 + 1)) :: l else p :: count_type type l
  end.

(** [success_or_throw] ends the walk by an exception. *)
Definition count_service (key value : Bytes) (histogram : outcome (list (IPAddressType * Z))) : outcome (list (IPAddressType * Z)) :=
  let? histogram := histogram in
  match deserialize NodeServiceInfo.serialization Persistence.fresh_info (SDataStream.lift (DataStream.write value) (SDataStream.make kStorage 0)).2 with
  | (Success _, info, _) =>
      Success (count_type (IPAddress.get_type (IPEndpoint.address_ (NodeService.endpoint_ (NodeServiceInfo.service_ info)))) histogram)
  | (Failure _, _, _) => Failure (Thrown boost_system_error)
  | (Fault f, _, _) => Fault f
  end.

Definition type_index (t : IPAddressType) : Z := match t with kIPv4 => 0 | kIPv6 => 1 end.
Definition before (a b : IPAddressType * Z) : bool :=
  if a.2 =? b.2 then type_index a.1 <? type_index b.1 else b.2 <? a.2.

(** [std::sort] *)
Fixpoint insert_sorted (x : IPAddressType * Z) (l : list (IPAddressType * Z)) : list (IPAddressType * Z) :=
  match l with
  | [] => [x]
  | y :: l' => if before x y then x :: l else y :: insert_sorted x l'
  end.
Definition sort_histogram (l : list (IPAddressType * Z)) : list (IPAddressType * Z) := foldr insert_sorted [] l.

(** What is printed: the types with their counts. *)
Definition list_address_types `{!MdbxEnv} (t : txn) : option (outcome (list (IPAddressType * Z))) :=
  if negb (has_map Persistence.kServices t) then Some (Failure (Thrown std_runtime_error))
  else
    let (_, c) := to_first (open_cursor Persistence.kServices t) in
    match cursor_for_each count_service c Forward (Success []) with
    | Some (_, histogram, _) => Some (let? histogram := histogram in Success (sort_histogram histogram))
    | None => None
    end.

End Histogram.

(** ** The database that is opened *)

(** The directory of the database, which must be there when it is given. *)
Definition database_directory (default_path : Directories.path) (given : option Directories.path) (nodes : bool) (t : gmap Directories.path Directories.node)
    : outcome Directories.path :=
  let name := if nodes then Directories.kNodesName else Directories.kChainDataName in
  match given with
  | None => Success (default_path ++ [name])
  | Some data_dir =>
      if negb (Directories.is_directory data_dir t) then Failure (Thrown std_runtime_error)
      else if negb (Directories.is_directory (data_dir ++ [name]) t) then Failure (Thrown std_runtime_error)
      else Success (data_dir ++ [name])
  end.

Definition source_config (path : Bytes) (shared exclusive : bool) : EnvConfig.t :=
  let c := EnvConfig.make path in
  EnvConfig.mk path false (EnvConfig.readonly c) exclusive (EnvConfig.inmemory c) shared (EnvConfig.read_ahead c) (EnvConfig.write_map c)
    (EnvConfig.page_size c) (EnvConfig.max_size c) (EnvConfig.growth_size c) (EnvConfig.max_tables c) (EnvConfig.max_readers c).

End Toolbox.
