(* ===== verification/ToolboxFacts.v ===== *)
(** * Properties of the database tool

    The totals are those of the tables, and every address is counted. *)

From stdpp Require Import sorting.
From S2P Require Import Prelude Text Stream Boost Serialize Misc Database DatabaseFacts Environment EnvironmentFacts Addresses AddressBook Persistence Toolbox.
#[local] Open Scope Z_scope.

Module ToolboxFacts.
Import Toolbox DatabaseFacts.

Definition total {A} (f : A -> Z) (l : list A) : Z := foldr (λ x z, f x + z) 0 l.

Lemma total_cons {A} (f : A -> Z) x l : total f (x :: l) = f x + total f l.
Proof. done. Qed.

Lemma total_app {A} (f : A -> Z) l k : total f (l ++ k) = total f l + total f k.
Proof. unfold total in *. induction l as [|x l IH]; cbn [app foldr]; [done|]. rewrite IH. lia. Qed.

Lemma wrap_add w a b : wrap w (wrap w a + b) = wrap w (a + b).
Proof. unfold wrap. apply Zplus_mod_idemp_l. Qed.

Lemma wrap_add_r w a b : wrap w (a + wrap w b) = wrap w (a + b).
Proof. unfold wrap. apply Zplus_mod_idemp_r. Qed.

(** ** Free pages *)

Definition free_count (r : row) : Z := le_value (take 4 r.2).

Lemma collect_free_all ps l i : Forall (λ r : row, 8 <= zlen r.1 /\ 4 <= zlen r.2) l -> exists j,
  foldl (λ s r, collect_free ps r.1 r.2 s) (Success i) l = Success j /\
  wrap 64 (pages j) = wrap 64 (pages i + total free_count l) /\ wrap 64 (size j) = wrap 64 (size i + ps * total free_count l) /\
  length (entries j) = (length (entries i) + length l)%nat.
Proof.
  intros Hl. revert i. induction Hl as [|r l [H8 H4] _ IH]; intros i.
  { exists i. cbn. rewrite Z.mul_0_r, !Z.add_0_r, Nat.add_0_r. done. }
  cbn [foldl]. unfold collect_free at 2. cbn [outcome_bind]. rewrite (proj2 (Z.ltb_ge (zlen r.1) 8)), (proj2 (Z.ltb_ge (zlen r.2) 4)) by done. cbn [orb].
  match goal with |- context [foldl _ (Success ?x) l] => destruct (IH x) as (j & E & P & S & L) end. exists j.
  cbn [pages size entries] in P, S, L. split_and!; [exact E | | |].
  - rewrite P, wrap_add, total_cons. change (free_count r) with (le_value (take 4 r.2)). f_equal. lia.
  - rewrite S, wrap_add, <- (wrap_add 64 (_ + wrap _ _)), wrap_add_r, wrap_add, total_cons. change (free_count r) with (le_value (take 4 r.2)). f_equal. lia.
  - rewrite L, length_app. cbn. lia.
Qed.

(** ** Tables *)

Lemma collect_table_all stat_ l i n : Forall (λ r : row, exists s, stat_ r.1 = Success s) l -> exists j,
  foldl (λ s r, collect_table stat_ r.1 r.2 s) (Success (i, n)) l = Success (j, (n + length l)%nat) /\
  entry_name <$> tables j = (entry_name <$> tables i) ++ l.*1 /\ filesize j = filesize i /\
  (wrap 64 (tables_pages i) = wrap 64 (total entry_pages (tables i)) -> wrap 64 (tables_pages j) = wrap 64 (total entry_pages (tables j))) /\
  (wrap 64 (tables_size i) = wrap 64 (total entry_size (tables i)) -> wrap 64 (tables_size j) = wrap 64 (total entry_size (tables j))).
Proof.
  intros Hl. revert i n. induction Hl as [|r l [s Hs] _ IH]; intros i n.
  { exists i. cbn. rewrite Nat.add_0_r, app_nil_r. by split_and!. }
  cbn [foldl]. unfold collect_table at 2. cbn [outcome_bind]. rewrite Hs. cbn [outcome_bind fst snd].
  set (e := {| entry_id := s.1; entry_name := r.1; stat := s.2 |}). destruct (IH (add_table e i) (S n)) as (j & E & N & F & P & Z).
  exists j. split_and!; [by rewrite E; do 2 f_equal; cbn; lia | | done | |].
  - rewrite N. unfold add_table. cbn [tables]. rewrite fmap_app, fmap_cons, <- app_assoc. done.
  - intros Hi. apply P. cbn [add_table tables_pages tables]. rewrite total_app, total_cons. change (total _ []) with 0. rewrite Z.add_0_r.
    rewrite <- (wrap_add 64 (tables_pages i)), Hi, wrap_add. unfold wrap. by rewrite Zmod_mod.
  - intros Hi. apply Z. cbn [add_table tables_size tables]. rewrite total_app, total_cons. change (total _ []) with 0. rewrite Z.add_0_r.
    rewrite <- (wrap_add 64 (tables_size i)), Hi, wrap_add. unfold wrap. by rewrite Zmod_mod.
Qed.

(** ** Types *)

Lemma count_type_total type h : total snd h + 1 < 2 ^ 64 -> Forall (λ p : IPAddressType * Z, 0 <= p.2) h ->
  total snd (count_type type h) = total snd h + 1 /\ Forall (λ p : IPAddressType * Z, 0 <= p.2) (count_type type h).
Proof.
  intros Hb Hf. induction Hf as [|p h Hp Hf IH]; cbn [count_type]; [by repeat constructor|]. rewrite total_cons in *.
  assert (Ht : 0 <= total snd h) by (clear -Hf; induction Hf; [done|]; rewrite total_cons; lia). case_bool_decide.
  - rewrite total_cons. cbn [snd]. unfold wrap. rewrite Z.mod_small by lia. split; [lia|]. constructor; [cbn; lia | done].
  - destruct IH as [I1 I2]; [lia|]. rewrite total_cons, I1. split; [lia | by constructor].
Qed.

Lemma insert_sorted_perm x l : insert_sorted x l ≡ₚ x :: l.
Proof. induction l as [|y l IH]; cbn; [done|]. destruct (before x y); [done|]. rewrite IH. constructor. Qed.

Lemma sort_histogram_perm l : sort_histogram l ≡ₚ l.
Proof. induction l as [|x l IH]; [done|]. cbn. by rewrite insert_sorted_perm, IH. Qed.

Lemma total_perm {A} (f : A -> Z) l k : l ≡ₚ k -> total f l = total f k.
Proof. induction 1; rewrite ?total_cons; lia. Qed.

(** Counts do not grow along the list. *)
Definition descending (l : list (IPAddressType * Z)) : Prop := StronglySorted (λ a b, b.2 <= a.2) l.

Lemma insert_descending x l : descending l -> descending (insert_sorted x l).
Proof.
  induction l as [|y l IH]; intros Hs; cbn; [repeat constructor|]. inversion Hs as [|? ? Hl Hy]; subst.
  assert (Hb : if before x y then y.2 <= x.2 else x.2 <= y.2).
  { unfold before. destruct (Z.eqb_spec x.2 y.2); [destruct (_ <? _); lia|]. destruct (Z.ltb_spec y.2 x.2); lia. }
  destruct (before x y).
  - constructor; [done|]. constructor; [done|]. eapply Forall_impl; [exact Hy|]. cbn. lia.
  - constructor; [by apply IH|]. rewrite insert_sorted_perm. constructor; [done | done].
Qed.

Lemma sort_descending l : descending (sort_histogram l).
Proof. induction l as [|x l IH]; [constructor|]. by apply insert_descending. Qed.

Lemma count_service_all `{Boost} (l : list row) (r h : list (IPAddressType * Z)) :
  foldl (λ s r, count_service r.1 r.2 s) (Success r) l = Success h ->
  total snd r + zlen l < 2 ^ 64 -> Forall (λ p : IPAddressType * Z, 0 <= p.2) r -> total snd h = total snd r + zlen l.
Proof.
  assert (Hstuck : forall (l : list row) x, (forall h, x <> Success h) -> forall h, foldl (λ s r, count_service r.1 r.2 s) x l <> Success h).
  { clear. induction l as [|y l IH]; intros x Hx h; [apply Hx|]. cbn [foldl]. apply IH. destruct x; [by destruct (Hx a)|done|done]. }
  revert r. induction l as [|x l IH]; intros r E Hb Hf; [injection E as <-; cbn; lia|]. cbn [foldl] in E. rewrite zlen_cons in Hb |- *.
  destruct (count_service x.1 x.2 (Success r)) as [r'| |] eqn:Ex; [|by apply Hstuck in E..].
  unfold count_service in Ex. cbn [outcome_bind] in Ex. destruct (deserialize _ _ _) as [[[] info] ?]; try done. injection Ex as <-.
  destruct (count_type_total (IPAddress.get_type (IPEndpoint.address_ (NodeService.endpoint_ (NodeServiceInfo.service_ info)))) r) as [T F]; [lia | done |].
  rewrite (IH _ E), T; [lia | lia | done].
Qed.

(** The tool asks for pages of 4 KiB, and refuses a database with others. *)
Lemma tool_refuses_pages open_ limit set_option readers path shared exclusive n ps :
  path <> [] -> 0 < n <= 512 * GiB -> shared && exclusive = false -> ps <> 4096 ->
  (forall r, open_ r = Success ps) ->
  open_env open_ limit set_option readers (source_config path shared exclusive) (DirectoryWith (Some n)) = Failure (Thrown std_length_error).
Proof.
  intros Hp Hn Hx Hps Ho. rewrite EnvironmentFacts.open_env_asks.
  - rewrite Ho. cbn [outcome_bind]. unfold EnvironmentFacts.pages_agree. cbn [EnvironmentFacts.file_size EnvConfig.page_size source_config EnvConfig.make].
    change (4 * KiB) with 4096. rewrite (proj2 (Z.eqb_neq n 0)), (proj2 (Z.eqb_neq ps 4096)) by lia. done.
  - unfold EnvironmentFacts.consistent. cbn [EnvConfig.path source_config EnvironmentFacts.file_size EnvConfig.create EnvConfig.max_size EnvConfig.exclusive EnvConfig.shared EnvConfig.make orb andb].
    rewrite bool_decide_false, (proj2 (Z.eqb_neq n 0)), (proj2 (Z.leb_le n (512 * GiB))) by (lia || done).
    rewrite andb_comm in Hx. by rewrite Hx.
Qed.

(** the statistics of the tool cover every record: the free pages are those of all
    records of the table of free pages, modulo the width of the counters; the tables are the
    two of libmdbx and all that the main table names, in order, and their totals are the sums over
    them, while as many objects as there are named tables are never deleted; and the
    types of addresses add up to the number of entries and come in the order of their
    counts. *)
Theorem toolbox_totals `{MdbxLaws} `{Boost} (c : cursor) (page_size current_size : Z) (free_stat main_stat : map_stat)
    (table_stat : Bytes -> outcome (Z * map_stat)) (h : list (IPAddressType * Z)) :
  position c = Unset -> zlen (rows c) < 2 ^ 64 ->
  (Forall (λ r : row, 8 <= zlen r.1 /\ 4 <= zlen r.2) (rows c) -> exists i, get_freeInfo page_size c = Some (Success i) /\
     wrap 64 (pages i) = wrap 64 (total free_count (rows c)) /\ wrap 64 (size i) = wrap 64 (page_size * total free_count (rows c)) /\
     length (entries i) = length (rows c)) /\
  (Forall (λ r : row, exists s, table_stat r.1 = Success s) (rows c) -> exists i,
     get_tablesInfo current_size free_stat main_stat table_stat c = Some (Success (i, length (rows c))) /\
     entry_name <$> tables i = str "FREE_DBI" :: str "MAIN_DBI" :: (rows c).*1 /\ filesize i = current_size /\
     wrap 64 (tables_pages i) = wrap 64 (total entry_pages (tables i)) /\ wrap 64 (tables_size i) = wrap 64 (total entry_size (tables i))) /\
  (foldl (λ s r, count_service r.1 r.2 s) (Success []) (rows c) = Success h ->
     total snd (sort_histogram h) = zlen (rows c) /\ descending (sort_histogram h)).
Proof.
  intros Hp Hl. assert (Hr : reach c Forward = rows c) by (unfold reach; by rewrite Hp). assert (Hs : settled c) by (intros i; by rewrite Hp). split_and!.
  - intros Hf. unfold get_freeInfo. destruct (for_each_reach (collect_free page_size) c Forward (Success {| pages := 0; size := 0; entries := [] |}) Hs) as [c' ->].
    rewrite Hr. destruct (collect_free_all page_size (rows c) {| pages := 0; size := 0; entries := [] |} Hf) as (i & -> & P & S & L). by exists i.
  - intros Hf. unfold get_tablesInfo. match goal with |- context [cursor_for_each _ _ _ ?s] => destruct (for_each_reach (collect_table table_stat) c Forward s Hs) as [c' ->] end.
    rewrite Hr. match goal with |- context [foldl _ (Success (?i, ?n)) _] => destruct (collect_table_all table_stat (rows c) i n Hf) as (j & -> & N & F & P & Z) end.
    exists j. split_and!; [done | exact N | exact F | apply P | apply Z]; cbn; unfold wrap; rewrite ?Zplus_mod_idemp_l, ?Z.add_0_r, ?Zmod_mod; done.
  - intros Hc. pose proof (count_service_all (rows c) [] h Hc Hl (Forall_nil_2 _)) as Ht. rewrite (total_perm snd _ _ (sort_histogram_perm h)).
    split; [exact Ht | apply sort_descending].
Qed.

(** The sample of the walks, whose records name tables of two pages. *)
Lemma toolbox_totals_witness : exists i, @get_tablesInfo model_mdbx 4096 {| ms_psize := 4096; ms_branch_pages := 0; ms_leaf_pages := 1; ms_overflow_pages := 0; ms_entries := 0 |}
    {| ms_psize := 4096; ms_branch_pages := 0; ms_leaf_pages := 1; ms_overflow_pages := 0; ms_entries := 3 |}
    (λ _, Success (2, {| ms_psize := 4096; ms_branch_pages := 0; ms_leaf_pages := 2; ms_overflow_pages := 0; ms_entries := 9 |})) sample_cursor =
  Some (Success (i, 3%nat)).
Proof.
  destruct (@toolbox_totals model_mdbx model_mdbx_laws model_boost sample_cursor 4096 4096
    {| ms_psize := 4096; ms_branch_pages := 0; ms_leaf_pages := 1; ms_overflow_pages := 0; ms_entries := 0 |}
    {| ms_psize := 4096; ms_branch_pages := 0; ms_leaf_pages := 1; ms_overflow_pages := 0; ms_entries := 3 |}
    (λ _, Success (2, {| ms_psize := 4096; ms_branch_pages := 0; ms_leaf_pages := 2; ms_overflow_pages := 0; ms_entries := 9 |})) [])
    as (_ & T & _); [reflexivity | by vm_compute |].
  destruct T as (i & E & _); [|exists i; exact E]. apply Forall_forall. intros r _. by eexists.
Defined.

End ToolboxFacts.
